(* ===== verification/_CoqProject ===== *)
-Q . S2P
Prelude.v
Queue.v
Process.v
ProcessInv.v
ProcessSched.v
ProcessProps.v
Tlb.v
VirtMem.v
VirtMemProps.v
Memory.v
QSort.v
CType.v
CString.v
CStringMem.v
CStringText.v
HashMap.v
Time.v
Memchan.v
MemchanProps.v
Sha256.v
BlockStore.v
RamDisk.v
FileDisk.v
ForwardDisks.v
PartDisk.v
CombineDisk.v
Raid.v
CheckDisk.v
ClockDisk.v
WtClockDisk.v
TreeDisk.v
TreeInv.v
TreeSpec.v
TreeFree.v
TreeCreate.v
TreeProps.v
BlockProt.v
TreeCheck.v
FileProt.v
FileSpec.v
UnixDisk.v
UnixInv.v
UnixSpec.v
UnixAlloc.v
UnixFile.v
UnixFree.v
UnixCreate.v
UnixProps.v
RamFile.v
RamFileSpec.v
BlockFile.v
BlockService.v
BlockFileSpec.v
BlockFileProps.v
Dir.v
DirSpec.v
DirProps.v
DirCreate.v
Tty.v
TtyProps.v
DiskSvr.v
DiskSvrProps.v
Stdio.v
StdioSpec.v
StdioProps.v
