(* ===== verification/Prelude.v ===== *)
(** * A model of the EGOS operating system

    EGOS runs its kernel ("grass") as a program over a thin layer that emulates a
    machine ("earth"); disks, caches and file systems are layers of one interface,
    and user processes reach them through servers, by messages. This development
    models the layers of the disk, the kernel's processes, the servers of blocks
    and of files with their clients' stubs, and parts of the C library, and proves
    what each promises to the next. Names are those of the source.

    ** Conventions

    An operation of the code is a computation of the monad [M S]: it takes the state
    of its component and returns a result and the new state, or ends the process
    ([Exit]: panic, exit, a failed assertion), or has undefined behaviour ([Undef]),
    or is still running when its fuel is used up ([OutOfFuel]). Unsigned integers are
    numbers of [Z] with their wrap-around written as [u32] and [u64], ints as
    [i32]. [wp m s Q] is total correctness. This file has the monad, its rules, and
    the lemmas on lists and numbers that the others share.

    ** The files

    - Kernel. Queue: lib/queue.c on a heap of elements. Process: grass/process.c and
      grass/procsys.c, the process table, message queues, scheduler, alarms, death;
      ProcessInv, ProcessSched: the invariant and what the scheduler does;
      ProcessProps: safety of every run of the modelled kernel calls, page allocations and
      interrupts, whose only panic is for want of a frame, round robin, wake-up of the
      clients of a dead server, permissions, frames. Tlb: earth/tlb.c,
      the translation buffer between the frames and the window that processes see, and
      its coherence; VirtMem: page faults of grass/process.c and the copies of the kernel
      of grass/procsys.c; VirtMemProps: every process has a flat memory of its own,
      while there are frames and its code is not writable.
    - C library. Memory: bytes and words; QSort: lib/qsort.c; CType: lib/ctype.c;
      CString, CStringMem, CStringText: lib/string.c; HashMap: lib/map.c on a heap of
      nodes with the shared cache; Time: lib/time.c against the calendar, from its rule
      for the day after a day; Memchan: lib/memchan.c, formatted output, with IEEE
      numbers for floating point; MemchanProps: a format does what its directives say,
      and atoi reads what it prints; Sha256: lib/sha256.c against the standard.
    - Disk layers (block/). BlockStore: block_store.h as the class [BlockStore], with
      the class [Lawful] of the laws that tie a store to an abstract disk, a finite
      map from inode and offset to block; RamDisk, FileDisk, ForwardDisks (debugdisk,
      statdisk, mapdisk), PartDisk, CombineDisk, Raid (raid0, raid1, raid4), CheckDisk,
      ClockDisk, WtClockDisk. Each that can is again [Lawful], so the layers compose.
    - The tree file system. TreeDisk: block/treedisk.c; TreeInv: its layout invariant,
      blocks partitioned among the super block, inodes, trees and free list; TreeSpec,
      TreeFree, TreeCreate: what reading, writing, truncating and creating do to the
      abstract files; TreeProps: sequences of operations; TreeCheck:
      block/treedisk_chk.c, exact, and accepting all that the file system writes.
    - The Unix file system, on the same abstract files. UnixDisk: block/unixdisk.c and
      unixdisk.h; UnixInv: its layout, roles of blocks and invariant; UnixSpec: the free
      list and reading; UnixAlloc, UnixFile: growing a file by one block, and writing;
      UnixFree: freeing a file in the order of a rank; UnixCreate; UnixProps: sequences
      of operations that use exactly the room the files need, and the full disk.
    - Servers. BlockProt: h/egos/block.h, lib/block.c, block/protdisk.c,
      apps/blocksvr.c; a call to a server is the class [Rpc], which the server's round
      implements. FileProt: h/egos/file.h and lib/file.c. FileSpec: abstract files with
      owners and permissions and the class [FileService], what a file server owes its
      clients. RamFile, RamFileSpec: grass/ramfilesvr.c, a [FileService]. BlockFile:
      apps/bfs.c; BlockService: the class of what it needs of a block server, and the
      block server as an instance; BlockFileSpec: over any [BlockService] it is a
      [FileService]; BlockFileProps: the whole stack, from the file client's stubs down
      to a bottom store, and restarts. Dir: apps/dirsvr.c, lib/dir.c and h/egos/dir.h;
      DirSpec: its handlers over any [FileService]; DirProps: a directory is a finite
      map, over any file server and over the whole stack; DirCreate: lib/dir.c's
      dir_create, which calls two servers. Tty: grass/ttysvr.c, the terminal server, with
      its interrupts; TtyProps: it does what an abstract terminal does, and lines reach
      readers in order. DiskSvr: grass/disksvr.c and
      earth/devdisk.c, the disk server whose device completes later; DiskSvrProps: every
      complete request is answered once (any other fails an assertion), a protdisk over the server is [Lawful], and so the files of
      bfs.c are kept in a file of the host. Stdio: the streams of lib/stdio.c, whose
      buffers lie between a program and a file server; StdioSpec: what a call does to
      the file and the buffers over any [FileService]; StdioProps: a stream is a file
      with a position for all sequences of calls, with items of one byte, that keep input
      and output apart, and what happens otherwise.

    ** What the theorems show

    Refinement: a sequence of requests of any length gets the replies of the abstract
    disk, files, queue or map (ClockDisk, WtClockDisk, TreeProps, UnixProps, BlockProt,
    BlockFileProps, DiskSvrProps, RamFileSpec, TtyProps, DirProps, StdioProps, VirtMemProps, Queue, HashMap). Durability: sync and restart keep
    data (ClockDisk, BlockFileProps). Protection: memories of processes, partitions, checked blocks, mirrors,
    processes, frames, files of other users. Errors: the places where the code ends its
    process or leaves its memory are theorems too ([Exit], [Undef]), with the input
    that leads there.

    ** Fuel and bounds

    The levels of a tree are at most 4, fuel 5 ([level_fuel]); fread gets the
    number of items and three; the clock hand goes round
    twice at most; setup_freelist and check_freelist get the number of blocks, and one
    more; recursive calls get the depth; the loops over an indirect block get 257. The scheduler's loop gets fuel and a script of
    interrupts; a script that is too short gives [OutOfFuel], and the liveness theorems
    say which suffice. An access of a process is tried three times: a page is mapped for
    reading first, then for writing, then the process is ended. String scans get the
    size of memory, heap traversals the size of the heap, qsort the length of its array. The theorems say that the result is not
    [OutOfFuel], except treedisk_truncate_diverges, which says that it is for every fuel.

    ** Not modelled

    Messages on the console; failing malloc, and free, where nothing depends on it; the
    static counter of treedisk; padding of structures (sent as zeros); the signals,
    stacks and register contexts by which faults and calls of user processes reach the
    kernel (they need the host machine), so the kernel calls of kernel processes are
    modelled and, for memory, page faults and copy_user; failing calls of the host; the
    messages by which a page of an executable is read, which is one step here; the stack
    that qsort's recursion takes; the end of a server when its process is killed. [treedisk_write] points into a variable
    whose lifetime has ended: the model keeps its contents. Of stdio, opening and closing
    by name, which call the directory server and the process's environment. Parts that
    are left out as a whole: the rest of earth (host calls), fatdisk (an unfinished
    exercise), cipherdisk, vendored math.c (except modf) and tlsf.c, the gate and spawn
    servers, the shell, editor, compiler and other user programs. The files of
    unixdisk are proved right as long as they need no triple indirect block, whose code
    is wrong, and have no holes, which show old data. *)
From stdpp Require Import base numbers list gmap sorting.
From Stdlib Require Import ZArith Lia.

(** * C integers

    [unsigned int] and [int] values are integers [Z] in range; the wrap-around
    of every operation that can leave the range is written with [u32], [u64]
    and [i32]. *)

Declare Scope egos_scope.
Delimit Scope egos_scope with egos.
Open Scope Z_scope.
Open Scope egos_scope.

Definition two32 : Z := 4294967296.
Definition two64 : Z := 18446744073709551616.

Definition u32 (x : Z) : Z := x mod two32.
Definition u64 (x : Z) : Z := x mod two64.

(** Conversion to [int] (implementation-defined, two's complement). *)
Definition i32 (x : Z) : Z := (x + 2147483648) mod two32 - 2147483648.

(** [(unsigned int) -1]. *)
Definition minus1_u : Z := 4294967295.

Definition is_u32 (x : Z) : Prop := 0 <= x < two32.

Lemma u32_small x : is_u32 x -> u32 x = x.
Proof. apply Z.mod_small. Qed.

Lemma u64_small x : 0 <= x < two64 -> u64 x = x.
Proof. apply Z.mod_small. Qed.

Lemma u32_range x : is_u32 (u32 x).
Proof. apply Z.mod_pos_bound. reflexivity. Qed.

Lemma u32_idemp x : u32 (u32 x) = u32 x.
Proof. apply u32_small, u32_range. Qed.

Lemma i32_small x : - 2147483648 <= x < 2147483648 -> i32 x = x.
Proof. unfold i32, two32. intros. rewrite Z.mod_small; lia. Qed.

Lemma i32_neg x : 2147483648 <= x < two32 -> i32 x = x - two32.
Proof.
  unfold i32, two32. intros.
  replace (x + 2147483648) with ((x - 2147483648) + 1 * 4294967296) by lia.
  rewrite Z.mod_add, Z.mod_small; lia.
Qed.

Lemma i32_u32 x : i32 (u32 x) = i32 x.
Proof. unfold i32, u32. by rewrite Zplus_mod_idemp_l. Qed.

Lemma u32_i32 x : u32 (i32 x) = u32 x.
Proof. unfold i32, u32. rewrite Zminus_mod, Zmod_mod, <- Zminus_mod. f_equal. lia. Qed.

(** * Outcomes and the state monad

    A call either returns, or ends the process ([panic], [exit(1)], a failed
    [assert]), or has undefined behaviour, or is still running when the fuel
    given to its loops is used up. *)

Inductive outcome (A : Type) : Type :=
| Ret (a : A)
| Exit
| Undef
| OutOfFuel.
Arguments Ret {A} a.
Arguments Exit {A}.
Arguments Undef {A}.
Arguments OutOfFuel {A}.

Definition M (S A : Type) : Type := S -> outcome (A * S).

#[export] Instance M_ret {S} : MRet (M S) := fun A a s => Ret (a, s).
#[export] Instance M_bind {S} : MBind (M S) := fun A B f m s =>
  match m s with
  | Ret (a, s') => f a s'
  | Exit => Exit
  | Undef => Undef
  | OutOfFuel => OutOfFuel
  end.

Definition get {S} : M S S := fun s => Ret (s, s).
Definition put {S} (s' : S) : M S unit := fun _ => Ret (tt, s').
Definition modify {S} (f : S -> S) : M S unit := fun s => Ret (tt, f s).
Definition panic {S A} : M S A := fun _ => Exit.
Definition undef {S A} : M S A := fun _ => Undef.
Definition out_of_fuel {S A} : M S A := fun _ => OutOfFuel.

(** [assert(b)] ends the process when [b] is false. *)
Definition assert_ {S} (b : bool) : M S unit := if b then mret tt else panic.

(** Running a computation on a component of the state. *)
Definition lift {S T A} (view : T -> S) (upd : S -> T -> T) (m : M S A) : M T A :=
  fun t =>
    match m (view t) with
    | Ret (a, s') => Ret (a, upd s' t)
    | Exit => Exit
    | Undef => Undef
    | OutOfFuel => OutOfFuel
    end.

(** Running a computation on the [i]th element of an array of states; an index
    outside the array is undefined behaviour. *)
Definition lift_nth {S A} (i : nat) (m : M S A) : M (list S) A :=
  fun l =>
    match l !! i with
    | Some s =>
        match m s with
        | Ret (a, s') => Ret (a, <[i:=s']> l)
        | Exit => Exit
        | Undef => Undef
        | OutOfFuel => OutOfFuel
        end
    | None => Undef
    end.

(** Reading an array element. *)
Definition read_nth {S A} (l : list A) (i : nat) : M S A :=
  match l !! i with Some a => mret a | None => undef end.

(** ** Total-correctness postconditions

    [wp m s Q]: started in [s], [m] returns, and its result and final state
    satisfy [Q]. *)
Definition wp {S A} (m : M S A) (s : S) (Q : A -> S -> Prop) : Prop :=
  match m s with
  | Ret (a, s') => Q a s'
  | _ => False
  end.

Section wp_rules.
Context {S : Type}.
Implicit Types s : S.

Lemma wp_ret {A} (a : A) s (Q : A -> S -> Prop) : Q a s -> wp (mret a) s Q.
Proof. done. Qed.

Lemma wp_bind {A B} (m : M S A) (f : A -> M S B) s (Q : B -> S -> Prop) :
  wp m s (fun a s' => wp (f a) s' Q) -> wp (mbind f m) s Q.
Proof.
  unfold wp, mbind, M_bind. destruct (m s) as [[a s']| | |]; done.
Qed.

Lemma wp_mono {A} (m : M S A) s (Q Q' : A -> S -> Prop) :
  wp m s Q -> (forall a s', Q a s' -> Q' a s') -> wp m s Q'.
Proof. unfold wp. destruct (m s) as [[a s']| | |]; eauto. Qed.

Lemma wp_get s (Q : S -> S -> Prop) : Q s s -> wp get s Q.
Proof. done. Qed.

Lemma wp_put s s' (Q : unit -> S -> Prop) : Q tt s' -> wp (put s') s Q.
Proof. done. Qed.

Lemma wp_modify f s (Q : unit -> S -> Prop) : Q tt (f s) -> wp (modify f) s Q.
Proof. done. Qed.

Lemma wp_assert (b : bool) s (Q : unit -> S -> Prop) :
  b = true -> Q tt s -> wp (assert_ b) s Q.
Proof. by intros ->. Qed.

Lemma wp_read_nth {A} (l : list A) i a s (Q : A -> S -> Prop) :
  l !! i = Some a -> Q a s -> wp (read_nth l i) s Q.
Proof. unfold read_nth. by intros ->. Qed.

Lemma wp_lift {T A} (view : T -> S) upd (m : M S A) (t : T) (Q : A -> T -> Prop) :
  wp m (view t) (fun a s' => Q a (upd s' t)) -> wp (lift view upd m) t Q.
Proof. unfold wp, lift. destruct (m (view t)) as [[a s']| | |]; done. Qed.

Lemma wp_lift_nth {A} i (m : M S A) (l : list S) s (Q : A -> list S -> Prop) :
  l !! i = Some s ->
  wp m s (fun a s' => Q a (<[i:=s']> l)) -> wp (lift_nth i m) l Q.
Proof.
  unfold wp, lift_nth. intros ->. destruct (m s) as [[a s']| | |]; done.
Qed.

Lemma wp_Ret {A} (m : M S A) s (Q : A -> S -> Prop) :
  wp m s Q -> exists a s', m s = Ret (a, s') /\ Q a s'.
Proof. unfold wp. destruct (m s) as [[a s']| | |]; [eauto|done..]. Qed.

Lemma Ret_wp {A} (m : M S A) s a s' (Q : A -> S -> Prop) :
  m s = Ret (a, s') -> Q a s' -> wp m s Q.
Proof. unfold wp. by intros ->. Qed.

(** A computation whose first part returns ends as the rest does. *)
Lemma wp_bind_ends {A B} (m : M S A) (f : A -> M S B) s (Q : A -> S -> Prop) (o : outcome (B * S)) :
  wp m s Q -> (forall a s', Q a s' -> f a s' = o) -> mbind f m s = o.
Proof. unfold wp, mbind, M_bind. destruct (m s) as [[a s']| | |]; [eauto|done..]. Qed.

Lemma bind_Exit {A B} (m : M S A) (f : A -> M S B) s : m s = Exit -> mbind f m s = Exit.
Proof. unfold mbind, M_bind. by intros ->. Qed.

Lemma bind_OutOfFuel {A B} (m : M S A) (f : A -> M S B) s :
  m s = OutOfFuel -> mbind f m s = OutOfFuel.
Proof. unfold mbind, M_bind. by intros ->. Qed.
End wp_rules.

Lemma mbind_Ret {S A B} (m : M S A) (f : A -> M S B) s a s' : m s = Ret (a, s') -> mbind f m s = f a s'.
Proof. unfold mbind, M_bind. by intros ->. Qed.

Lemma mbind_Undef {S A B} (m : M S A) (f : A -> M S B) s : m s = Undef -> mbind f m s = Undef.
Proof. unfold mbind, M_bind. by intros ->. Qed.

(** [step] peels one monadic step off a [wp] goal. *)
Ltac step :=
  lazymatch goal with
  | |- wp (mbind _ _) _ _ => apply wp_bind
  | |- wp (mret _) _ _ => apply wp_ret
  | |- wp get _ _ => apply wp_get
  | |- wp (put _) _ _ => apply wp_put
  | |- wp (modify _) _ _ => apply wp_modify
  | |- wp (lift _ _ _) _ _ => apply wp_lift
  end.
Ltac steps := repeat (step; cbn beta).

(** Uses a known [wp] fact and introduces its postcondition. *)
Tactic Notation "wp_use" uconstr(H) "as" simple_intropattern(p) :=
  eapply wp_mono; [eapply H|intros ? ? p].

(** [safe m s Q]: started in [s], [m] neither fails an assertion nor has
    undefined behaviour, and if it returns, result and state satisfy [Q]. *)
Definition safe {S A} (m : M S A) (s : S) (Q : A -> S -> Prop) : Prop :=
  match m s with
  | Ret (a, s') => Q a s'
  | OutOfFuel => True
  | _ => False
  end.

Lemma safe_bind {S A B} (m : M S A) (f : A -> M S B) s (Q : B -> S -> Prop) :
  safe m s (fun a s' => safe (f a) s' Q) -> safe (mbind f m) s Q.
Proof. unfold safe, mbind, M_bind. by destruct (m s) as [[a s']| | |]. Qed.

Lemma safe_mono {S A} (m : M S A) s (Q Q' : A -> S -> Prop) :
  safe m s Q -> (forall a s', Q a s' -> Q' a s') -> safe m s Q'.
Proof. unfold safe. destruct (m s) as [[a s']| | |]; eauto. Qed.

Lemma wp_safe {S A} (m : M S A) s (Q : A -> S -> Prop) : wp m s Q -> safe m s Q.
Proof. unfold wp, safe. by destruct (m s) as [[a s']| | |]. Qed.

Lemma safe_wp_bind {S A B} (m : M S A) (f : A -> M S B) s (Q : A -> S -> Prop) (R : B -> S -> Prop) :
  wp m s Q -> (forall a s', Q a s' -> safe (f a) s' R) -> safe (mbind f m) s R.
Proof. intros Hm Hf. apply safe_bind. eapply safe_mono; [by apply wp_safe|exact Hf]. Qed.

(** * Arithmetic and list lemmas shared by the components *)

Lemma Zto_nat_lookup_lt {A} (l : list A) (i : Z) :
  0 <= i < Z.of_nat (length l) -> exists a, l !! Z.to_nat i = Some a.
Proof. intros. apply lookup_lt_is_Some_2. lia. Qed.

Lemma Z_shiftr_div x n : 0 <= n -> Z.shiftr x n = x / 2 ^ n.
Proof. apply Z.shiftr_div_pow2. Qed.

(** ** Prefix sums *)

Definition sum_list_Z (l : list Z) : Z := fold_right Z.add 0 l.

(** The sum of the first [i] elements: where the [i]th range starts when ranges
    of these sizes are laid out one after the other. *)
Definition prefix_sum (partsizes : list Z) (i : nat) : Z := sum_list_Z (take i partsizes).

Lemma sum_list_Z_nonneg l : Forall (fun x => 0 <= x) l -> 0 <= sum_list_Z l.
Proof. induction 1; simpl; lia. Qed.

Lemma sum_list_Z_app l1 l2 : sum_list_Z (l1 ++ l2) = sum_list_Z l1 + sum_list_Z l2.
Proof. induction l1; simpl; lia. Qed.

Lemma prefix_sum_S sizes i size :
  sizes !! i = Some size -> prefix_sum sizes (Datatypes.S i) = prefix_sum sizes i + size.
Proof.
  intros H. unfold prefix_sum. erewrite take_S_r by done.
  rewrite sum_list_Z_app. simpl. lia.
Qed.

Lemma prefix_sum_le sizes i j :
  Forall (fun x => 0 <= x) sizes -> (i <= j)%nat -> prefix_sum sizes i <= prefix_sum sizes j.
Proof.
  intros Hs Hij. unfold prefix_sum.
  replace j with (i + (j - i))%nat by lia. rewrite <- take_take_drop, sum_list_Z_app.
  enough (0 <= sum_list_Z (take (j - i) (drop i sizes))) by lia.
  apply sum_list_Z_nonneg, Forall_take, Forall_drop, Hs.
Qed.

(** Ranges laid out one after the other are disjoint. *)
Lemma prefix_disjoint sizes i j size1 size2 o1 o2 :
  Forall (fun x => 0 <= x) sizes ->
  sizes !! i = Some size1 -> sizes !! j = Some size2 ->
  0 <= o1 < size1 -> 0 <= o2 < size2 ->
  prefix_sum sizes i + o1 = prefix_sum sizes j + o2 -> i = j /\ o1 = o2.
Proof.
  intros Hs Hi Hj H1 H2 He.
  destruct (lt_eq_lt_dec i j) as [[Hlt| ->]|Hlt]; [|by split; [|lia]|].
  - pose proof (prefix_sum_le sizes (Datatypes.S i) j Hs ltac:(lia)).
    rewrite (prefix_sum_S _ _ _ Hi) in *. lia.
  - pose proof (prefix_sum_le sizes (Datatypes.S j) i Hs ltac:(lia)).
    rewrite (prefix_sum_S _ _ _ Hj) in *. lia.
Qed.

Lemma prefix_in_total sizes i size :
  Forall (fun x => 0 <= x) sizes -> sizes !! i = Some size ->
  0 <= prefix_sum sizes i /\ prefix_sum sizes i + size <= sum_list_Z sizes.
Proof.
  intros Hs Hi. split.
  - apply sum_list_Z_nonneg, Forall_take, Hs.
  - rewrite <- (prefix_sum_S _ _ _ Hi).
    assert (sum_list_Z sizes = prefix_sum sizes (length sizes)) as ->
      by (unfold prefix_sum; by rewrite firstn_all).
    apply prefix_sum_le; [done|]. apply lookup_lt_Some in Hi. lia.
Qed.

Lemma wp_and {S A} (m : M S A) s (Q1 Q2 : A -> S -> Prop) :
  wp m s Q1 -> wp m s Q2 -> wp m s (fun a s' => Q1 a s' /\ Q2 a s').
Proof. unfold wp. destruct (m s) as [[a s']| | |]; done. Qed.

(** [d] in place of what [m] has at [a]. *)
Definition splice {A} (a : nat) (d m : list A) : list A := take a m ++ d ++ drop (a + length d) m.

Lemma length_splice {A} a (d m : list A) : (a + length d <= length m)%nat -> length (splice a d m) = length m.
Proof. intros H. unfold splice. rewrite !length_app, length_take, length_drop. lia. Qed.

(** A splice at the end, or past it by less than its length, extends the list. *)
Lemma length_splice_ext {A} a (d m : list A) : (a <= length m)%nat ->
  length (splice a d m) = Nat.max (length m) (a + length d).
Proof. intros H. unfold splice. rewrite !length_app, length_take, length_drop. lia. Qed.

Lemma lookup_splice {A} a (d m : list A) p : (a <= length m)%nat ->
  splice a d m !! p = if decide (a <= p < a + length d)%nat then d !! (p - a)%nat else m !! p.
Proof.
  intros H. unfold splice. case_decide as Hp.
  - rewrite lookup_app_r by (rewrite length_take; lia). rewrite length_take, Nat.min_l by lia.
    by rewrite lookup_app_l by lia.
  - destruct (decide (p < a)%nat).
    + rewrite lookup_app_l by (rewrite length_take; lia). by apply lookup_take_lt.
    + rewrite lookup_app_r by (rewrite length_take; lia). rewrite length_take, Nat.min_l by lia.
      rewrite lookup_app_r by lia. rewrite lookup_drop. f_equal. lia.
Qed.

Lemma splice_nil {A} a (m : list A) : splice a [] m = m.
Proof. unfold splice. cbn [length app]. by rewrite Nat.add_0_r, take_drop. Qed.

Lemma splice_app {A} a (d1 d2 m : list A) : (a <= length m)%nat -> splice (a + length d1) d2 (splice a d1 m) = splice a (d1 ++ d2) m.
Proof.
  intros Ha. apply list_eq. intros k.
  assert (a + length d1 <= length (splice a d1 m))%nat by (rewrite length_splice_ext; lia).
  rewrite !lookup_splice by done. rewrite length_app. repeat case_decide; try lia; try done.
  - rewrite lookup_app_r by lia. f_equal. lia.
  - by rewrite lookup_app_l by lia.
Qed.

Lemma take_splice_app {A} a (d m : list A) : (a + length d <= length m)%nat -> take (a + length d) (splice a d m) = take a m ++ d.
Proof.
  intros H. unfold splice. rewrite app_assoc. apply take_app_length'. rewrite length_app, length_take. lia.
Qed.

(** Sorted lists one after the other. *)
Lemma StronglySorted_app_mid {A} (R : A -> A -> Prop) l1 l2 :
  StronglySorted R l1 -> StronglySorted R l2 -> (forall x y, x ∈ l1 -> y ∈ l2 -> R x y) ->
  StronglySorted R (l1 ++ l2).
Proof.
  induction l1 as [|x l1 IH]; intros H1 H2 H12; [done|]. cbn. apply StronglySorted_inv in H1 as [H1 Hx].
  constructor.
  - apply IH; [done..|]. intros y z Hy. apply H12. by right.
  - apply Forall_app. split; [done|]. apply Forall_forall. intros y Hy. apply H12; [by left|done].
Qed.

(** Case analysis on the first [decide] of the goal only. *)
Tactic Notation "decide_goal" "as" ident(H) :=
  lazymatch goal with |- context [@decide ?P ?dec] => destruct (@decide P dec) as [H|H] end.
