(* ===== verification/Queue.v ===== *)
(** src/src/lib/queue.c: the linked-list queues of the kernel. The heap of list
    elements is explicit, with allocation and [free]; [last] is a pointer to a
    pointer, either the queue's own [first] or the [next] field of an element.
    All queues share one heap. The theorem relates any interleaving of
    operations on any number of queues to operations on lists. *)
From stdpp Require Import base numbers list gmap fin_sets.
From Stdlib Require Import ZArith Lia.
From S2P Require Import Prelude.

Abbreviation ptr := (option positive).

(** [struct element]; items are addresses (or unsigned numbers cast to them). *)
Record element := Element { e_next : ptr; e_item : Z }.

(** What [q->last] points at. *)
Inductive cell : Type :=
| CFirst
| CNext (e : positive).

Record queue := Queue { q_first : ptr; q_last : cell; q_nelts : Z }.

Record qheap := QHeap { qh_elts : gmap positive element; qh_queues : gmap nat queue }.

(** ** Memory *)

Definition q_get (q : nat) : M qheap queue :=
  s ← get; match qh_queues s !! q with Some x => mret x | None => undef end.

Definition q_set (q : nat) (x : queue) : M qheap unit :=
  modify (fun s => QHeap (qh_elts s) (<[q:=x]> (qh_queues s))).

Definition e_get (e : positive) : M qheap element :=
  s ← get; match qh_elts s !! e with Some x => mret x | None => undef end.

Definition e_set (e : positive) (x : element) : M qheap unit :=
  modify (fun s => QHeap (<[e:=x]> (qh_elts s)) (qh_queues s)).

(** [calloc(1, sizeof(struct element))]; running out of memory is not modelled. *)
Definition e_calloc : M qheap positive :=
  s ← get;
  let e := fresh (dom (qh_elts s) : gset positive) in
  e_set e (Element None 0);; mret e.

Definition e_free (e : positive) : M qheap unit :=
  x ← e_get e; modify (fun s => QHeap (delete e (qh_elts s)) (qh_queues s)).

(** ** The operations *)

Definition queue_init (q : nat) : M qheap unit := q_set q (Queue None CFirst 0).

Definition queue_insert (q : nat) (item : Z) : M qheap unit :=
  e ← e_calloc;
  e_set e (Element None item);;
  x ← q_get q;
  (if decide (q_first x = None) then q_set q (Queue (q_first x) (CNext e) (q_nelts x)) else mret tt);;
  x ← q_get q;
  e_set e (Element (q_first x) item);;
  q_set q (Queue (Some e) (q_last x) (q_nelts x));;
  x ← q_get q;
  q_set q (Queue (q_first x) (q_last x) (i32 (q_nelts x + 1))).

(** [*q->last = e]. *)
Definition store_last (q : nat) (e : positive) : M qheap unit :=
  x ← q_get q;
  match q_last x with
  | CFirst => q_set q (Queue (Some e) (q_last x) (q_nelts x))
  | CNext l => y ← e_get l; e_set l (Element (Some e) (e_item y))
  end.

Definition queue_add (q : nat) (item : Z) : M qheap unit :=
  e ← e_calloc;
  e_set e (Element None item);;
  store_last q e;;
  x ← q_get q;
  q_set q (Queue (q_first x) (CNext e) (i32 (q_nelts x + 1))).

Definition queue_add_uint (q : nat) (item : Z) : M qheap unit := queue_add q item.

Definition queue_tget (q : nat) : M qheap (option Z) :=
  x ← q_get q;
  match q_first x with
  | None => mret None
  | Some e =>
      y ← e_get e;
      q_set q (Queue (e_next y) (if decide (e_next y = None) then CFirst else q_last x) (q_nelts x));;
      y ← e_get e;
      e_free e;;
      x ← q_get q;
      q_set q (Queue (q_first x) (q_last x) (i32 (q_nelts x - 1)));;
      mret (Some (e_item y))
  end.

(** [queue_get] is the same code with the null pointer for an empty queue. *)
Definition queue_get (q : nat) : M qheap Z :=
  r ← queue_tget q; mret (default 0 r).

Definition queue_get_uint (q : nat) : M qheap (option Z) :=
  r ← queue_tget q; mret (u32 <$> r).

Definition queue_empty (q : nat) : M qheap bool :=
  x ← q_get q; mret (bool_decide (q_first x = None)).

Definition queue_size (q : nat) : M qheap Z :=
  x ← q_get q; mret (u32 (q_nelts x)).

Definition queue_release (q : nat) : M qheap unit :=
  x ← q_get q;
  assert_ (bool_decide (q_first x = None));;
  assert_ (bool_decide (q_nelts x = 0)).

(** * The abstract queues *)

(** The elements at [es], starting from [p], hold the items [l]. *)
Fixpoint chain (h : gmap positive element) (p : ptr) (es : list positive) (l : list Z) : Prop :=
  match es, l with
  | [], [] => p = None
  | e :: es, x :: l => p = Some e /\ exists n, h !! e = Some (Element n x) /\ chain h n es l
  | _, _ => False
  end.

Definition last_cell (es : list positive) : cell :=
  match last es with None => CFirst | Some e => CNext e end.

Record queue_repr (h : gmap positive element) (x : queue) (es : list positive) (l : list Z) : Prop := {
  qr_chain : chain h (q_first x) es l;
  qr_last : q_last x = last_cell es;
  qr_nelts : q_nelts x = i32 (Z.of_nat (length l));
  qr_nodup : NoDup es;
}.

(** [A q] are the elements of queue [q]; no two queues share one. *)
Record queues_repr_at (A : nat -> list positive) (s : qheap) (m : gmap nat (list Z)) : Prop := {
  qs_dom : forall q, is_Some (qh_queues s !! q) <-> is_Some (m !! q);
  qs_queue : forall q x l, qh_queues s !! q = Some x -> m !! q = Some l ->
    queue_repr (qh_elts s) x (A q) l;
  qs_disj : forall q q' l l' e, m !! q = Some l -> m !! q' = Some l' -> q <> q' ->
    e ∈ A q -> e ∉ A q';
}.

Definition queues_repr (s : qheap) (m : gmap nat (list Z)) : Prop :=
  exists A, queues_repr_at A s m.

Lemma chain_length h p es l : chain h p es l -> length es = length l.
Proof.
  revert p l. induction es as [|e es IH]; intros p [|x l]; simpl; [done..|].
  intros (_ & n & _ & Hc). f_equal. by eapply IH.
Qed.

Lemma chain_elem h p es l e : chain h p es l -> e ∈ es -> is_Some (h !! e).
Proof.
  revert p l. induction es as [|e' es IH]; intros p [|x l]; simpl; try done.
  - by intros _ ?%elem_of_nil.
  - intros (_ & n & Hn & Hc) [->|He]%elem_of_cons; [by eauto|by eapply IH].
Qed.

Lemma chain_frame h h' p es l :
  chain h p es l -> (forall e, e ∈ es -> h' !! e = h !! e) -> chain h' p es l.
Proof.
  revert p l. induction es as [|e' es IH]; intros p [|x l]; simpl; try done.
  intros (-> & n & Hn & Hc) Hf. split; [done|]. exists n. split.
  - rewrite Hf; [done|]. by left.
  - apply (IH _ _ Hc). intros e He. apply Hf. by right.
Qed.

(** Appending: the last element's [next] is set to the new element. *)
Lemma chain_snoc h h' p es l e x :
  chain h p es l -> NoDup (es ++ [e]) ->
  h' !! e = Some (Element None x) ->
  (forall a y, last es = Some a -> h !! a = Some y -> h' !! a = Some (Element (Some e) (e_item y))) ->
  (forall a, a ∈ es -> last es <> Some a -> h' !! a = h !! a) ->
  chain h' (if decide (es = []) then Some e else p) (es ++ [e]) (l ++ [x]).
Proof.
  revert p l. induction es as [|a es IH]; intros p [|y l]; simpl; try done.
  - intros _ _ He _ _. split; [done|]. by exists None.
  - intros (-> & n & Hn & Hc) Hnd He Hl Hf. split; [done|].
    apply NoDup_cons in Hnd as [Ha Hnd].
    destruct es as [|a' es].
    + destruct l; [|done]. simpl in *. exists (Some e). split; [by apply (Hl a (Element n y))|].
      split; [done|]. by exists None.
    + assert (last (a' :: es) = last (a :: a' :: es)) as Hla by done.
      exists n. split.
      * rewrite Hf; [done|by left|]. rewrite <- Hla. intros H. apply Ha, elem_of_app. left.
        apply last_Some in H as [es' ->]. apply elem_of_app. right. by left.
      * specialize (IH n l Hc Hnd He). rewrite decide_False in IH by done. apply IH.
        -- intros b z Hb. apply Hl. by rewrite <- Hla.
        -- intros b Hb Hne. apply Hf; [by right|]. by rewrite <- Hla.
Qed.

(** Two queues that share elements are one. *)
Lemma queues_other A s m q q' l l' e :
  queues_repr_at A s m -> m !! q = Some l -> m !! q' = Some l' -> q' <> q -> e ∈ A q' -> e ∉ A q.
Proof. intros [_ _ Hd] Hl Hl' Hne He. by apply (Hd q' q l' l e). Qed.

Lemma queues_elt A s m q l e :
  queues_repr_at A s m -> m !! q = Some l -> e ∈ A q -> is_Some (qh_elts s !! e).
Proof.
  intros [Hdom Hq _] Hl He. destruct (proj2 (Hdom q)) as [x Hx]; [by eauto|].
  eapply chain_elem; [|exact He]. by eapply qr_chain, Hq.
Qed.

(** Changing one queue and elements of no other queue. *)
Lemma queues_update A s m q x es l s' :
  queues_repr_at A s m -> qh_queues s' !! q = Some x ->
  (forall q', q' <> q -> qh_queues s' !! q' = qh_queues s !! q') ->
  queue_repr (qh_elts s') x es l ->
  (forall q' l' e, q' <> q -> m !! q' = Some l' -> e ∈ A q' ->
     qh_elts s' !! e = qh_elts s !! e /\ (e ∉ es)) ->
  queues_repr s' (<[q:=l]> m).
Proof.
  intros [Hdom Hq Hd] Hs' Hne' Hx Hf. exists (fun i => if decide (i = q) then es else A i). split.
  - intros q'. rewrite lookup_insert. destruct (decide (q = q')) as [<-|Hne].
    + rewrite Hs'. split; by eauto.
    + rewrite Hne' by congruence. apply Hdom.
  - intros q' x' l'. rewrite lookup_insert. destruct (decide (q = q')) as [<-|Hne].
    + rewrite Hs'. intros [= <-] [= <-]. by rewrite decide_True.
    + rewrite Hne' by congruence. intros Hx' Hl'. rewrite decide_False by congruence.
      destruct (Hq q' x' l' Hx' Hl') as [Hc Hla Hn Hnd].
      split; [|done..]. apply (chain_frame _ _ _ _ _ Hc). intros e He. by eapply Hf.
  - intros q1 q2 l1 l2 e. rewrite !lookup_insert.
    destruct (decide (q = q1)) as [<-|H1], (decide (q = q2)) as [<-|H2]; intros E1 E2 Hne; [done|..].
    + rewrite decide_True, decide_False by congruence. intros He He'. by eapply (Hf q2 l2 e).
    + rewrite decide_False, decide_True by congruence. intros He. by eapply (Hf q1 l1 e).
    + rewrite !decide_False by congruence. by eapply (Hd q1 q2 l1 l2).
Qed.

(** ** Stepping through the operations *)

Lemma wp_q_get q x s Q : qh_queues s !! q = Some x -> Q x s -> wp (q_get q) s Q.
Proof. intros H HQ. unfold q_get. steps. by rewrite H. Qed.

Lemma wp_e_get e x s Q : qh_elts s !! e = Some x -> Q x s -> wp (e_get e) s Q.
Proof. intros H HQ. unfold e_get. steps. by rewrite H. Qed.

Ltac q_steps :=
  repeat (cbn [q_first q_last q_nelts qh_elts qh_queues e_next e_item];
    first [ step; cbn beta
          | eapply wp_q_get; [first [eassumption | cbn [qh_queues]; apply lookup_insert_eq]|]
          | eapply wp_e_get; [first [eassumption | cbn [qh_elts]; apply lookup_insert_eq]|]
          | progress unfold q_set, e_set ]);
  cbn [q_first q_last q_nelts qh_elts qh_queues e_next e_item].

Lemma i32_succ n : i32 (i32 (Z.of_nat n) + 1) = i32 (Z.of_nat (S n)).
Proof.
  rewrite <- (i32_u32 (_ + 1)), <- (i32_u32 (Z.of_nat (S n))). f_equal. unfold i32, u32.
  rewrite <- Z.add_sub_swap, <- Z.add_sub_assoc, Zplus_mod_idemp_l. f_equal. lia.
Qed.

Lemma i32_pred n : i32 (i32 (Z.of_nat (S n)) - 1) = i32 (Z.of_nat n).
Proof.
  rewrite <- (i32_u32 (_ - 1)), <- (i32_u32 (Z.of_nat n)). f_equal. unfold i32, u32.
  rewrite <- Z.sub_add_distr, Zminus_mod_idemp_l. f_equal. lia.
Qed.

Lemma fresh_elt (h : gmap positive element) :
  h !! (fresh (dom h : gset positive)) = None.
Proof. apply not_elem_of_dom. apply is_fresh. Qed.

Section ops.
Context (A : nat -> list positive) (s : qheap) (m : gmap nat (list Z)) (q : nat) (l : list Z).
Context (HR : queues_repr_at A s m) (Hl : m !! q = Some l).

Lemma queue_there : exists x, qh_queues s !! q = Some x /\ queue_repr (qh_elts s) x (A q) l.
Proof.
  destruct (proj2 (qs_dom _ _ _ HR q)) as [x Hx]; [by eauto|]. exists x. split; [done|].
  by eapply qs_queue.
Qed.

Lemma fresh_notin q' l' : m !! q' = Some l' -> fresh (dom (qh_elts s) : gset positive) ∉ A q'.
Proof.
  intros Hl' He. destruct (queues_elt A s m q' l' _ HR Hl' He) as [x Hx]. by rewrite fresh_elt in Hx.
Qed.

(** The queues other than [q] live outside the cells that change. *)
Lemma other_cells q' l' e :
  q' <> q -> m !! q' = Some l' -> e ∈ A q' ->
  (e ∉ A q) /\ e <> fresh (dom (qh_elts s) : gset positive).
Proof.
  intros Hne Hl' He. split; [by eapply queues_other|]. intros ->. by eapply fresh_notin.
Qed.

Ltac other :=
  intros qo lo eo Hqo Hlo Heo;
  lazymatch goal with
  | HO : forall q' l' e, q' <> q -> _ |- _ => destruct (HO qo lo eo Hqo Hlo Heo) as [Ho1 Ho2]
  end.

Lemma queue_add_ok (item : Z) :
  wp (queue_add q item) s (fun _ s' => queues_repr s' (<[q:=l ++ [item]]> m)).
Proof.
  destruct queue_there as (x & Hx & [Hc Hla Hn Hnd]). pose proof other_cells as HO.
  pose proof (fresh_notin q l Hl) as Hfr.
  unfold queue_add, e_calloc, store_last. q_steps. rewrite Hla.
  set (e := fresh (dom (qh_elts s) : gset positive)) in *.
  assert (NoDup (A q ++ [e])) as Hnd'.
  { apply NoDup_app. split_and!; [done| |apply NoDup_singleton]. by intros a Ha ->%list_elem_of_singleton. }
  assert (last_cell (A q ++ [e]) = CNext e) as Hlc by (unfold last_cell; by rewrite last_snoc).
  assert (i32 (Z.of_nat (length (l ++ [item]))) = i32 (q_nelts x + 1)) as Hlen
    by (rewrite length_app, Nat.add_1_r, Hn; by rewrite i32_succ).
  unfold last_cell. destruct (last (A q)) as [a|] eqn:Ea; q_steps.
  - assert (a ∈ A q) as Ha by (apply last_Some in Ea as [es' ->]; apply elem_of_app; right; by left).
    assert (a <> e) as Hae by (by intros ->).
    destruct (chain_elem _ _ _ _ _ Hc Ha) as [y Hy].
    eapply (wp_e_get _ y); [cbn; by rewrite !lookup_insert_ne by congruence|]. q_steps.
    eapply (queues_update A s m q _ (A q ++ [e])); [exact HR|apply lookup_insert_eq|..].
    + intros q' Hne. by apply lookup_insert_ne.
    + split; cbn; [|done..].
      replace (q_first x) with (if decide (A q = []) then Some e else q_first x)
        by (rewrite decide_False; [done|by intros E; rewrite E in Ea]).
      eapply chain_snoc; [exact Hc|exact Hnd'|..].
      * by rewrite lookup_insert_ne, lookup_insert_eq.
      * rewrite Ea. intros b z [= <-] Hz. rewrite lookup_insert_eq. congruence.
      * rewrite Ea. intros b Hb Hne. rewrite !lookup_insert_ne; [done|..]; congruence.
    + other. cbn. split; [by rewrite !lookup_insert_ne by (congruence || (intros <-; done))|].
      rewrite elem_of_app, list_elem_of_singleton. tauto.
  - apply last_None in Ea. rewrite Ea in *. destruct l as [|? ?]; [|by destruct Hc].
    eapply (queues_update A s m q _ ([] ++ [e])); [exact HR|apply lookup_insert_eq|..].
    + intros q' Hne. cbn. by rewrite !lookup_insert_ne.
    + split; cbn; [|done..]. split; [done|]. exists None. by rewrite lookup_insert_eq.
    + other. cbn. split; [by rewrite !lookup_insert_ne by congruence|].
      rewrite list_elem_of_singleton. tauto.
Qed.

Lemma queue_insert_ok (item : Z) :
  wp (queue_insert q item) s (fun _ s' => queues_repr s' (<[q:=item :: l]> m)).
Proof.
  destruct queue_there as (x & Hx & [Hc Hla Hn Hnd]). pose proof other_cells as HO.
  pose proof (fresh_notin q l Hl) as Hfr.
  unfold queue_insert, e_calloc. q_steps.
  set (e := fresh (dom (qh_elts s) : gset positive)) in *.
  assert (i32 (Z.of_nat (length (item :: l))) = i32 (q_nelts x + 1)) as Hlen
    by (cbn [length]; rewrite Hn; by rewrite i32_succ).
  assert (forall s', qh_elts s' = <[e:=Element (q_first x) item]> (<[e:=Element None item]>
      (<[e:=Element None 0]> (qh_elts s))) ->
    qh_queues s' !! q = Some (Queue (Some e) (last_cell (e :: A q)) (i32 (q_nelts x + 1))) ->
    (forall q', q' <> q -> qh_queues s' !! q' = qh_queues s !! q') ->
    queues_repr s' (<[q:=item :: l]> m)) as Hdone.
  { intros s' He Hq Hq'. eapply (queues_update A s m q _ (e :: A q)); [exact HR|exact Hq|exact Hq'|..].
    - split; cbn; [|done..|by apply NoDup_cons]. split; [done|]. exists (q_first x).
      rewrite He, lookup_insert_eq. split; [done|]. apply (chain_frame _ _ _ _ _ Hc).
      intros b Hb. rewrite !lookup_insert_ne; [done|..]; by intros ->.
    - other. rewrite He. split; [by rewrite !lookup_insert_ne by congruence|].
      rewrite elem_of_cons. tauto. }
  destruct (decide (q_first x = None)) as [E|E]; q_steps.
  - assert (A q = []) as EA by (destruct (A q), l; simpl in Hc; [done|done|done|destruct Hc; congruence]).
    apply Hdone; cbn; [done| |].
    + by rewrite lookup_insert_eq, EA.
    + intros q' Hne. by rewrite !lookup_insert_ne.
  - apply Hdone; cbn; [done| |].
    + rewrite lookup_insert_eq, Hla. do 2 f_equal. unfold last_cell.
      destruct (A q) as [|a es]; [destruct l; [by destruct E|done]|done].
    + intros q' Hne. by rewrite !lookup_insert_ne.
Qed.

Lemma queue_tget_ok :
  wp (queue_tget q) s (fun r s' => r = head l /\ queues_repr s' (<[q:=tail l]> m)).
Proof.
  destruct queue_there as (x & Hx & [Hc Hla Hn Hnd]). pose proof other_cells as HO.
  unfold queue_tget. q_steps. destruct (A q) as [|e es], l as [|y l']; simpl in Hc; try done.
  - rewrite Hc. step. split; [done|]. rewrite insert_id by done. by exists A.
  - destruct Hc as (-> & n & Hn' & Hc). q_steps.
    unfold e_free. q_steps. split; [done|].
    apply NoDup_cons in Hnd as [He Hnd].
    eapply (queues_update A s m q _ es); [exact HR|apply lookup_insert_eq|..].
    + intros q' Hne. cbn. by rewrite !lookup_insert_ne.
    + split; cbn; [|..|by rewrite Hn; cbn [length]; rewrite i32_pred|done].
      * apply (chain_frame _ _ _ _ _ Hc). intros b Hb. rewrite lookup_delete_ne; [done|]. by intros ->.
      * rewrite Hla. destruct (decide (n = None)) as [E|E].
        -- destruct es; [done|]. destruct l'; simpl in Hc; [done|]. destruct Hc. congruence.
        -- destruct es as [|a es]; [destruct l'; [by destruct E|done]|done].
    + other. cbn. rewrite elem_of_cons in Ho1.
      split; [|tauto]. rewrite lookup_delete_ne; [done|]. intros ->. tauto.
Qed.
End ops.

(** * Sequences of operations *)

Inductive queue_op : Type :=
| QInit | QInsert (item : Z) | QAdd (item : Z) | QAddUint (item : Z)
| QGet | QTget | QGetUint | QEmpty | QSize | QRelease.

Inductive queue_result : Type :=
| RNone | RItem (x : Z) | ROption (x : option Z) | RBool (b : bool) | RSize (n : Z).

Definition exec_queue_op (q : nat) (o : queue_op) : M qheap queue_result :=
  match o with
  | QInit => queue_init q;; mret RNone
  | QInsert item => queue_insert q item;; mret RNone
  | QAdd item => queue_add q item;; mret RNone
  | QAddUint item => queue_add_uint q item;; mret RNone
  | QGet => x ← queue_get q; mret (RItem x)
  | QTget => x ← queue_tget q; mret (ROption x)
  | QGetUint => x ← queue_get_uint q; mret (ROption x)
  | QEmpty => b ← queue_empty q; mret (RBool b)
  | QSize => n ← queue_size q; mret (RSize n)
  | QRelease => queue_release q;; mret RNone
  end.

Fixpoint exec_queue_ops (os : list (nat * queue_op)) : M qheap (list queue_result) :=
  match os with
  | [] => mret []
  | (q, o) :: os => r ← exec_queue_op q o; rs ← exec_queue_ops os; mret (r :: rs)
  end.

(** The operations on the list [l] of the items in a queue, the next first. *)
Definition spec_queue_op (o : queue_op) (l : list Z) : queue_result * list Z :=
  match o with
  | QInit => (RNone, [])
  | QInsert item => (RNone, item :: l)
  | QAdd item | QAddUint item => (RNone, l ++ [item])
  | QGet => (RItem (default 0 (head l)), tail l)
  | QTget => (ROption (head l), tail l)
  | QGetUint => (ROption (u32 <$> head l), tail l)
  | QEmpty => (RBool (bool_decide (l = [])), l)
  | QSize => (RSize (u32 (Z.of_nat (length l))), l)
  | QRelease => (RNone, l)
  end.

Fixpoint spec_queue_ops (m : gmap nat (list Z)) (os : list (nat * queue_op))
    : list queue_result * gmap nat (list Z) :=
  match os with
  | [] => ([], m)
  | (q, o) :: os =>
      let '(r, l) := spec_queue_op o (default [] (m !! q)) in
      let '(rs, m') := spec_queue_ops (<[q:=l]> m) os in (r :: rs, m')
  end.

(** A queue is initialised before it is used; it is empty when released. *)
Definition valid_queue_op (m : gmap nat (list Z)) (q : nat) (o : queue_op) : Prop :=
  match o with
  | QInit => True
  | QRelease => m !! q = Some []
  | _ => is_Some (m !! q)
  end.

Fixpoint valid_queue_ops (m : gmap nat (list Z)) (os : list (nat * queue_op)) : Prop :=
  match os with
  | [] => True
  | (q, o) :: os => valid_queue_op m q o /\
      valid_queue_ops (<[q:=(spec_queue_op o (default [] (m !! q))).2]> m) os
  end.

Lemma queue_init_ok A s m q :
  queues_repr_at A s m -> wp (queue_init q) s (fun _ s' => queues_repr s' (<[q:=[]]> m)).
Proof.
  intros HR. unfold queue_init. q_steps.
  eapply (queues_update A s m q _ []); [exact HR|apply lookup_insert_eq|..].
  - intros q' Hne. cbn. by rewrite lookup_insert_ne.
  - split; cbn; [done|done|reflexivity|apply NoDup_nil_2].
  - intros q' l' e _ _ _. split; [done|]. apply not_elem_of_nil.
Qed.

Lemma exec_queue_op_ok s m q o :
  queues_repr s m -> valid_queue_op m q o ->
  wp (exec_queue_op q o) s (fun r s' =>
    r = (spec_queue_op o (default [] (m !! q))).1 /\
    queues_repr s' (<[q:=(spec_queue_op o (default [] (m !! q))).2]> m)).
Proof.
  intros [A HR] Hv.
  destruct o; cbn [exec_queue_op valid_queue_op spec_queue_op fst snd] in *;
    [step; wp_use (queue_init_ok A s m q HR) as H; by step|..]; cycle 8.
  { rewrite Hv. destruct (queue_there A s m q [] HR Hv) as (x & Hx & [Hc Hla Hn _]).
    unfold queue_release. q_steps. cbn [default].
    assert (q_first x = None) as Hq by (by destruct (A q)).
    eapply wp_assert; [by apply bool_decide_eq_true_2|].
    eapply wp_assert; [apply bool_decide_eq_true_2; by rewrite Hn|]. q_steps.
    split; [done|]. rewrite insert_id by done. by exists A. }
  all: destruct Hv as [l Hl]; rewrite Hl; cbn [default option_fmap option_map].
  1, 2, 3: step; first [wp_use (queue_insert_ok A s m q l HR Hl) as H
                       |wp_use (queue_add_ok A s m q l HR Hl) as H]; by step.
  1, 2, 3: unfold queue_get, queue_get_uint; q_steps;
    wp_use (queue_tget_ok A s m q l HR Hl) as [-> H]; by q_steps.
  all: destruct (queue_there A s m q l HR Hl) as (x & Hx & [Hc Hla Hn _]).
  - unfold queue_empty. q_steps. split; [|rewrite insert_id by done; by exists A].
    f_equal. apply bool_decide_ext. pose proof (chain_length _ _ _ _ Hc).
    destruct (A q), l; simpl in *; try done. destruct Hc. split; congruence.
  - unfold queue_size. q_steps. split; [|rewrite insert_id by done; by exists A].
    rewrite Hn. by rewrite u32_i32.
Qed.

(** * Property *)

(** C30. Any interleaving of valid operations on any number of queues in one
    heap has the results of the same operations on lists: first in, first out,
    with [queue_insert] at the front; the queues do not disturb each other, and
    no operation follows a dangling or null pointer. *)
Theorem queue_ops_refine (os : list (nat * queue_op)) : forall s m,
  queues_repr s m -> valid_queue_ops m os ->
  wp (exec_queue_ops os) s (fun rs s' =>
    rs = (spec_queue_ops m os).1 /\ queues_repr s' (spec_queue_ops m os).2).
Proof.
  induction os as [|[q o] os IH]; intros s m HR Hv; cbn [exec_queue_ops]; step; [done|].
  destruct Hv as [Hv1 Hv2]. wp_use (exec_queue_op_ok s m q o HR Hv1) as [-> HR1]. step.
  cbn [spec_queue_ops]. destruct (spec_queue_op o _) as [r l]. cbn [fst snd] in *.
  wp_use (IH _ _ HR1 Hv2) as [-> HR2]. step. by destruct (spec_queue_ops _ os).
Qed.

Definition wit_heap : qheap := QHeap ∅ ∅.

Definition wit_queue_ops : list (nat * queue_op) :=
  [(1%nat, QInit); (2%nat, QInit); (1%nat, QAdd 10); (2%nat, QInsert 20); (1%nat, QInsert 5);
   (1%nat, QSize); (1%nat, QGet); (2%nat, QTget); (2%nat, QRelease); (1%nat, QGet); (1%nat, QEmpty)].

Lemma wit_heap_repr : queues_repr wit_heap ∅.
Proof.
  exists (fun _ => []). split.
  - intros q. cbn. rewrite !lookup_empty. split; by intros [? ?].
  - intros q x l H. cbn in H. by rewrite lookup_empty in H.
  - intros q q' l l' e _ _ _ H. by apply elem_of_nil in H.
Qed.

Lemma queue_ops_refine_witness :
  wp (exec_queue_ops wit_queue_ops) wit_heap (fun rs _ =>
    rs = [RNone; RNone; RNone; RNone; RNone; RSize 2; RItem 5; ROption (Some 20); RNone;
          RItem 10; RBool true]).
Proof.
  eapply wp_mono.
  - apply (queue_ops_refine wit_queue_ops wit_heap ∅ wit_heap_repr).
    cbn [valid_queue_ops wit_queue_ops valid_queue_op]. vm_compute. repeat split; eauto.
  - intros rs s' [-> _]. vm_compute. reflexivity.
Defined.
