(* ===== verification/Process.v ===== *)
(** src/src/grass/process.c, process.h and procsys.c: the processes of the
    kernel. A process is named by its slot in [proc_set]; queues of processes and
    of frames are lists (see [Queue] for queue.c). What a process does when it
    gets the CPU back ([p_ctx]) stands for its saved kernel stack. The earth
    layer below is a script: every call of [earth.intr.suspend] lets some time
    pass and delivers the interrupts of the next batch. *)
From stdpp Require Import base numbers list gmap.
From Stdlib Require Import ZArith Lia.
From coqutil Require Import Word.LittleEndianList.
From S2P Require Import Prelude.

Definition MAX_PROCS : nat := 100.
Definition PHYS_FRAMES : Z := 1024.
Definition VIRT_PAGES : Z := 4096.

Inductive proc_state := PROC_FREE | PROC_RUNNABLE | PROC_WAITING | PROC_ZOMBIE.
#[export] Instance proc_state_eq : EqDecision proc_state.
Proof. solve_decision. Defined.

Inductive msg_type := MSG_REQUEST | MSG_REPLY | MSG_EVENT.
#[export] Instance msg_type_eq : EqDecision msg_type.
Proof. solve_decision. Defined.

(** [struct message]; its size is the length of its contents. *)
Record message := Message { m_src : Z; m_uid : Z; m_contents : list Init.Byte.byte }.

Record msg_queue := MsgQueue { mq_waiting : bool; mq_messages : list message }.

Record mailboxes := Mailboxes { mb_request : msg_queue; mb_reply : msg_queue; mb_event : msg_queue }.

(** What remains of a kernel call of a process that has lost the CPU. *)
Inductive context : Type :=
| CReturn                                  (* [proc_yield] returns *)
| CCreated (pid : Z)                       (* [proc_create_uid] returns [pid] *)
| CRecv (t : msg_type) (size : nat)        (* the rest of [proc_recv] *)
| CRpc (pid : Z) (size : nat).             (* the rest of [sys_rpc] *)

(** [struct process]; [p_pages] has the frames of the pages that are [PI_VALID]. *)
Record process := Process {
  p_pid : Z;
  p_uid : Z;
  p_owner : Z;
  p_state : proc_state;
  p_mboxes : mailboxes;
  p_server : Z;
  p_alarm_set : bool;
  p_exptime : Z;
  p_interruptable : bool;
  p_pages : gmap Z Z;
  p_ctx : option context;
}.

Definition mbox (p : process) (t : msg_type) : msg_queue :=
  match t with
  | MSG_REQUEST => mb_request (p_mboxes p)
  | MSG_REPLY => mb_reply (p_mboxes p)
  | MSG_EVENT => mb_event (p_mboxes p)
  end.

(** Interrupts: a device handler sends a message, or the user types <ctrl>C. *)
Inductive irq : Type :=
| ISend (src uid dst : Z) (t : msg_type) (contents : list Init.Byte.byte)
| ICtrlC (tty : Z).

Record kernel := Kernel {
  k_set : list process;             (* proc_set *)
  k_runnable : list nat;            (* proc_runnable *)
  k_free : list nat;                (* proc_free *)
  k_freeframes : list Z;            (* proc_freeframes *)
  k_nprocs : Z;
  k_nrunnable : Z;
  k_current : nat;                  (* proc_current *)
  k_pid_gen : Z;
  k_shutting_down : bool;
  k_curfew : Z;
  k_clock : Z;                      (* sys_gettime() *)
  k_script : list (Z * list irq);   (* what happens at the next suspends *)
}.

(** ** Field updates *)

Definition set_state (x : proc_state) (p : process) : process :=
  Process (p_pid p) (p_uid p) (p_owner p) x (p_mboxes p) (p_server p) (p_alarm_set p)
    (p_exptime p) (p_interruptable p) (p_pages p) (p_ctx p).
Definition set_mboxes (x : mailboxes) (p : process) : process :=
  Process (p_pid p) (p_uid p) (p_owner p) (p_state p) x (p_server p) (p_alarm_set p)
    (p_exptime p) (p_interruptable p) (p_pages p) (p_ctx p).
Definition set_server (x : Z) (p : process) : process :=
  Process (p_pid p) (p_uid p) (p_owner p) (p_state p) (p_mboxes p) x (p_alarm_set p)
    (p_exptime p) (p_interruptable p) (p_pages p) (p_ctx p).
Definition set_alarm (b : bool) (x : Z) (p : process) : process :=
  Process (p_pid p) (p_uid p) (p_owner p) (p_state p) (p_mboxes p) (p_server p) b
    x (p_interruptable p) (p_pages p) (p_ctx p).
Definition set_ctx (x : option context) (p : process) : process :=
  Process (p_pid p) (p_uid p) (p_owner p) (p_state p) (p_mboxes p) (p_server p) (p_alarm_set p)
    (p_exptime p) (p_interruptable p) (p_pages p) x.
Definition set_mbox (t : msg_type) (q : msg_queue) (p : process) : process :=
  let m := p_mboxes p in
  set_mboxes match t with
    | MSG_REQUEST => Mailboxes q (mb_reply m) (mb_event m)
    | MSG_REPLY => Mailboxes (mb_request m) q (mb_event m)
    | MSG_EVENT => Mailboxes (mb_request m) (mb_reply m) q
    end p.
Definition set_waiting (t : msg_type) (b : bool) (p : process) : process :=
  set_mbox t (MsgQueue b (mq_messages (mbox p t))) p.
Definition set_messages (t : msg_type) (l : list message) (p : process) : process :=
  set_mbox t (MsgQueue (mq_waiting (mbox p t)) l) p.

Definition k_upd_set (f : list process -> list process) (K : kernel) : kernel :=
  Kernel (f (k_set K)) (k_runnable K) (k_free K) (k_freeframes K) (k_nprocs K) (k_nrunnable K)
    (k_current K) (k_pid_gen K) (k_shutting_down K) (k_curfew K) (k_clock K) (k_script K).
Definition k_upd_runnable (f : list nat -> list nat) (K : kernel) : kernel :=
  Kernel (k_set K) (f (k_runnable K)) (k_free K) (k_freeframes K) (k_nprocs K) (k_nrunnable K)
    (k_current K) (k_pid_gen K) (k_shutting_down K) (k_curfew K) (k_clock K) (k_script K).
Definition k_upd_free (f : list nat -> list nat) (K : kernel) : kernel :=
  Kernel (k_set K) (k_runnable K) (f (k_free K)) (k_freeframes K) (k_nprocs K) (k_nrunnable K)
    (k_current K) (k_pid_gen K) (k_shutting_down K) (k_curfew K) (k_clock K) (k_script K).
Definition k_upd_freeframes (f : list Z -> list Z) (K : kernel) : kernel :=
  Kernel (k_set K) (k_runnable K) (k_free K) (f (k_freeframes K)) (k_nprocs K) (k_nrunnable K)
    (k_current K) (k_pid_gen K) (k_shutting_down K) (k_curfew K) (k_clock K) (k_script K).
Definition k_upd_nprocs (n : Z) (K : kernel) : kernel :=
  Kernel (k_set K) (k_runnable K) (k_free K) (k_freeframes K) (u32 (k_nprocs K + n)) (k_nrunnable K)
    (k_current K) (k_pid_gen K) (k_shutting_down K) (k_curfew K) (k_clock K) (k_script K).
Definition k_upd_nrunnable (n : Z) (K : kernel) : kernel :=
  Kernel (k_set K) (k_runnable K) (k_free K) (k_freeframes K) (k_nprocs K) (u32 (k_nrunnable K + n))
    (k_current K) (k_pid_gen K) (k_shutting_down K) (k_curfew K) (k_clock K) (k_script K).
Definition k_set_current (i : nat) (K : kernel) : kernel :=
  Kernel (k_set K) (k_runnable K) (k_free K) (k_freeframes K) (k_nprocs K) (k_nrunnable K)
    i (k_pid_gen K) (k_shutting_down K) (k_curfew K) (k_clock K) (k_script K).
Definition k_next_pid (K : kernel) : kernel :=
  Kernel (k_set K) (k_runnable K) (k_free K) (k_freeframes K) (k_nprocs K) (k_nrunnable K)
    (k_current K) (u32 (k_pid_gen K + 1)) (k_shutting_down K) (k_curfew K) (k_clock K) (k_script K).
Definition k_set_shutdown (curfew : Z) (K : kernel) : kernel :=
  Kernel (k_set K) (k_runnable K) (k_free K) (k_freeframes K) (k_nprocs K) (k_nrunnable K)
    (k_current K) (k_pid_gen K) true curfew (k_clock K) (k_script K).
Definition k_set_earth (clock : Z) (script : list (Z * list irq)) (K : kernel) : kernel :=
  Kernel (k_set K) (k_runnable K) (k_free K) (k_freeframes K) (k_nprocs K) (k_nrunnable K)
    (k_current K) (k_pid_gen K) (k_shutting_down K) (k_curfew K) clock script.

(** ** Access to processes *)

Definition get_proc (i : nat) : M kernel process :=
  K ← get; read_nth (k_set K) i.

Definition upd_proc (i : nat) (f : process -> process) : M kernel unit :=
  modify (k_upd_set (alter f i)).

Definition current : M kernel nat := K ← get; mret (k_current K).

Definition sys_gettime : M kernel Z := K ← get; mret (k_clock K).

(** ** Processes *)

Definition mq_init : msg_queue := MsgQueue false [].

(** The slot after [memset(p, 0, sizeof( *p))] and the initialisation. *)
Definition new_process (pid owner uid : Z) : process :=
  Process pid uid owner PROC_RUNNABLE (Mailboxes mq_init mq_init mq_init) 0 false 0 false ∅ None.

Definition proc_alloc (owner uid : Z) : M kernel (option nat) :=
  K ← get;
  match k_free K with
  | [] => mret None
  | i :: free =>
      modify (k_upd_free (fun _ => free));;
      modify (k_upd_set (alter (fun _ => new_process (k_pid_gen K) owner uid) i));;
      modify k_next_pid;;
      modify (k_upd_nprocs 1);;
      modify (k_upd_nrunnable 1);;
      mret (Some i)
  end.

(** The message queues are emptied. The cleanup function [finish], which only
    frees the state of a server, is left out. *)
Definition proc_release (i : nat) : M kernel unit :=
  p ← get_proc i;
  assert_ (bool_decide (p_state p = PROC_ZOMBIE));;
  upd_proc i (fun p => set_messages MSG_EVENT [] (set_messages MSG_REPLY [] (set_messages MSG_REQUEST [] p)));;
  modify (k_upd_nprocs (-1));;
  upd_proc i (set_state PROC_FREE);;
  modify (k_upd_free (fun l => l ++ [i])).

Definition proc_to_runqueue (i : nat) : M kernel unit :=
  p ← get_proc i;
  assert_ (bool_decide (p_state p = PROC_RUNNABLE));;
  modify (k_upd_runnable (fun l => l ++ [i])).

Definition is_proc (pid : Z) (p : process) : Prop := p_state p <> PROC_FREE /\ p_pid p = pid.
#[export] Instance is_proc_dec pid p : Decision (is_proc pid p).
Proof. unfold is_proc. apply _. Defined.

Definition proc_find (pid : Z) : M kernel (option nat) :=
  K ← get; mret (fst <$> list_find (is_proc pid) (k_set K)).

(** ** Messages *)

Definition proc_send (src_pid src_uid dst_pid : Z) (t : msg_type)
    (contents : list Init.Byte.byte) : M kernel bool :=
  odst ← proc_find dst_pid;
  match odst with
  | None => mret false
  | Some dst =>
      d ← get_proc dst;
      if decide (p_state d = PROC_ZOMBIE) then mret false else
      if decide (t = MSG_REPLY /\ (p_state d <> PROC_WAITING \/ mq_waiting (mbox d t) = false
                                   \/ p_server d <> src_pid)) then mret false else
      upd_proc dst (fun d => set_messages t (mq_messages (mbox d t) ++ [Message src_pid src_uid contents]) d);;
      (if mq_waiting (mbox d t) then
         d ← get_proc dst;
         assert_ (bool_decide (p_state d = PROC_WAITING));;
         upd_proc dst (set_state PROC_RUNNABLE);;
         modify (k_upd_nrunnable 1);;
         upd_proc dst (fun d => set_alarm false (p_exptime d) d);;
         cur ← current;
         (if decide (dst <> cur) then proc_to_runqueue dst else mret tt);;
         upd_proc dst (set_waiting t false)
       else mret tt);;
      mret true
  end.

Definition proc_wakeup (i : nat) : M kernel unit :=
  p ← get_proc i;
  assert_ (bool_decide (p_state p = PROC_WAITING));;
  upd_proc i (set_state PROC_RUNNABLE);;
  modify (k_upd_nrunnable 1);;
  upd_proc i (fun p => set_alarm false (p_exptime p) p);;
  cur ← current;
  (if decide (i <> cur) then proc_to_runqueue i else mret tt);;
  upd_proc i (fun p => set_waiting MSG_EVENT false (set_waiting MSG_REPLY false (set_waiting MSG_REQUEST false p))).

(** The first part of [proc_recv], up to [proc_yield]: [true] when the process
    has to wait, with [ctx] as the rest of the call. *)
Definition proc_recv_begin (t : msg_type) (max_time : Z) (ctx : context) : M kernel bool :=
  cur ← current;
  p ← get_proc cur;
  assert_ (bool_decide (p_state p = PROC_RUNNABLE));;
  assert_ (negb (mq_waiting (mbox p t)));;
  if decide (mq_messages (mbox p t) = []) then
    upd_proc cur (set_waiting t true);;
    upd_proc cur (set_state PROC_WAITING);;
    modify (k_upd_nrunnable (-1));;
    (if decide (max_time <> 0) then
       now ← sys_gettime; upd_proc cur (set_alarm true (u64 (now + max_time)))
     else mret tt);;
    upd_proc cur (set_ctx (Some ctx));;
    mret true
  else
    assert_ (bool_decide (t <> MSG_REPLY));;
    mret false.

(** The part after it: [None] when there is no message. *)
Definition proc_recv_end (t : msg_type) (size : nat) : M kernel (option message) :=
  cur ← current;
  p ← get_proc cur;
  assert_ (bool_decide (p_state p = PROC_RUNNABLE));;
  match mq_messages (mbox p t) with
  | [] => mret None
  | msg :: l =>
      upd_proc cur (set_messages t l);;
      mret (Some (Message (m_src msg) (m_uid msg) (take size (m_contents msg))))
  end.

(** ** The death of processes *)

(** [struct msg_event] for [MEV_PROCDIED]. *)
Definition death_notice (pid status : Z) : list Init.Byte.byte :=
  le_split 4 1 ++ le_split 4 pid ++ le_split 4 status.

(** Clients that wait for a reply of the dead server [pid] are woken up. *)
Fixpoint fail_rpcs (n i : nat) (pid : Z) : M kernel unit :=
  match n with
  | O => mret tt
  | S n =>
      p ← get_proc i;
      (if decide (p_state p = PROC_WAITING /\ mq_waiting (mbox p MSG_REPLY) = true /\ p_server p = pid)
       then proc_wakeup i else mret tt);;
      fail_rpcs n (S i) pid
  end.

(** The frames in the page table, in the order of the pages. *)
Definition page_frames (p : process) : list Z :=
  omap (fun page => p_pages p !! page) (seqZ 0 VIRT_PAGES).

Definition proc_term (i : nat) (status : Z) : M kernel unit :=
  K ← get;
  assert_ (bool_decide (k_nprocs K > 0));;
  p ← get_proc i;
  (if decide (p_state p = PROC_RUNNABLE) then modify (k_upd_nrunnable (-1)) else mret tt);;
  (if decide (p_state p <> PROC_ZOMBIE) then
     upd_proc i (set_state PROC_ZOMBIE);;
     owner ← proc_find (p_owner p);
     (match owner with
      | Some o =>
          op ← get_proc o;
          proc_send (p_pid p) (p_uid p) (p_pid op) MSG_EVENT (death_notice (p_pid p) status);; mret tt
      | None => mret tt
      end);;
     fail_rpcs MAX_PROCS 0 (p_pid p)
   else mret tt);;
  modify (k_upd_freeframes (fun l => l ++ page_frames p)).

(** [killer] is [None] for the null pointer. *)
Definition proc_zap (killer : option nat) (i : nat) (status : Z) : M kernel unit :=
  p ← get_proc i;
  allowed ← (match killer with
             | None => mret true
             | Some k => kp ← get_proc k; mret (bool_decide (p_uid kp = 0 \/ p_uid kp = p_uid p))
             end);
  if negb (allowed : bool) then mret tt else
  K ← get;
  assert_ (bool_decide (k_nprocs K > 0));;
  match p_state p with
  | PROC_RUNNABLE => proc_term i status
  | PROC_WAITING =>
      proc_term i status;;
      cur ← current;
      if decide (i <> cur) then proc_release i else mret tt
  | PROC_ZOMBIE => mret tt
  | PROC_FREE => panic
  end.

(** The loop of [proc_kill] over all interruptable processes. *)
Fixpoint zap_interruptable (n i : nat) (killer : nat) (status : Z) : M kernel unit :=
  match n with
  | O => mret tt
  | S n =>
      p ← get_proc i;
      (if decide (p_state p <> PROC_FREE /\ p_interruptable p = true)
       then proc_zap (Some killer) i status else mret tt);;
      zap_interruptable n (S i) killer status
  end.

(** ** The scheduler *)

(** How a call into the scheduler ends: the caller goes on (perhaps as another
    process), or the machine has been switched off. *)
Inductive yielded := YGo | YHalt.

(** After a switch to process [next] that was switched out before. *)
Definition proc_after_switch (next : nat) : M kernel unit :=
  cur ← current;
  assert_ (bool_decide (next <> cur));;
  p ← get_proc next;
  assert_ (bool_decide (p_state p = PROC_RUNNABLE));;
  c ← get_proc cur;
  (if decide (p_state c = PROC_ZOMBIE) then proc_release cur else mret tt);;
  modify (k_set_current next).

(** The loop over [proc_set]: everybody is killed when shutting down, and the
    processes whose alarm is due are woken up. [next] is the next alarm. *)
Fixpoint check_alarms (n i : nat) (now next : Z) : M kernel Z :=
  match n with
  | O => mret next
  | S n =>
      K ← get;
      p ← get_proc i;
      next ← (if decide (k_shutting_down K = true /\ p_state p <> PROC_FREE) then
                proc_zap None i (-4);; mret next
              else if decide (p_state p = PROC_WAITING /\ p_alarm_set p = true) then
                (if decide (p_exptime p <= now) then proc_wakeup i else mret tt);;
                mret (if decide (p_exptime p < next) then p_exptime p else next)
              else mret next);
      check_alarms n (S i) now next
  end.

(** Takes processes off the run queue until one is alive; dead ones are
    released. [fuel] is the length of the queue. *)
Fixpoint next_runnable (fuel : nat) : M kernel (option nat) :=
  K ← get;
  match k_runnable K with
  | [] => mret None
  | i :: l =>
      modify (k_upd_runnable (fun _ => l));;
      p ← get_proc i;
      if decide (p_state p = PROC_RUNNABLE) then mret (Some i) else
      assert_ (bool_decide (p_state p = PROC_ZOMBIE));;
      proc_release i;;
      match fuel with O => out_of_fuel | S fuel => next_runnable fuel end
  end.

Section yield.
Context (yield : M kernel yielded).

(** The case of <ctrl>C in [tty_deliver]: [proc_kill(ts->pid, 0, STAT_INTR)].
    When the current process dies of it, the yield in there does not return. *)
Definition kill_interruptable (killer : Z) (status : Z) : M kernel (option yielded) :=
  k ← proc_find killer;
  match k with
  | None => mret None
  | Some k =>
      zap_interruptable MAX_PROCS 0 k status;;
      cur ← current;
      p ← get_proc cur;
      if decide (p_state p = PROC_ZOMBIE) then y ← yield; mret (Some y) else mret None
  end.

Definition deliver (i : irq) : M kernel (option yielded) :=
  match i with
  | ISend src uid dst t contents => proc_send src uid dst t contents;; mret None
  | ICtrlC tty => kill_interruptable tty (-3)
  end.

Fixpoint deliver_all (irqs : list irq) : M kernel (option yielded) :=
  match irqs with
  | [] => mret None
  | i :: irqs =>
      y ← deliver i;
      match y with None => deliver_all irqs | Some y => mret (Some y) end
  end.

(** [earth.intr.suspend(ms)]: the next batch of the script, whatever [ms] is.
    [Some] is the end of a yield inside an interrupt handler. *)
Definition suspend (ms : Z) : M kernel (option yielded) :=
  K ← get;
  match k_script K with
  | [] => out_of_fuel
  | (dt, irqs) :: script =>
      modify (k_set_earth (u64 (k_clock K + dt)) script);;
      deliver_all irqs
  end.

(** The switch to [next] at the end of [proc_yield]. *)
Definition switch_to (next : nat) : M kernel yielded :=
  cur ← current;
  assert_ (bool_decide (next <> cur));;
  n ← get_proc next;
  c ← get_proc cur;
  assert_ (bool_decide (p_pid n <> p_pid c));;
  assert_ (bool_decide (p_state n = PROC_RUNNABLE));;
  (if decide (p_state c = PROC_RUNNABLE) then proc_to_runqueue cur else mret tt);;
  proc_after_switch next;;
  mret YGo.

(** The loop that finds a process to run. *)
Fixpoint find_process (rounds : nat) : M kernel yielded :=
  match rounds with
  | O => out_of_fuel
  | S rounds =>
      now ← sys_gettime;
      K ← get;
      if decide (k_curfew K <> 0 /\ now > k_curfew K) then mret YHalt else
      next ← check_alarms MAX_PROCS 0 now (u64 (now + 1000));
      K ← get;
      o ← next_runnable (length (k_runnable K));
      K ← get;
      assert_ (bool_decide (k_nprocs K > 0));;
      match o with
      | Some i => switch_to i
      | None =>
          c ← get_proc (k_current K);
          if decide (p_state c = PROC_RUNNABLE) then mret YGo else
          if decide (k_nprocs K = 1 /\ k_shutting_down K = true) then mret YHalt else
          y ← suspend (u64 (next - now));
          match y with Some y => mret y | None => find_process rounds end
      end
  end.
End yield.

(** [fuel] bounds the depth of nested yields and the rounds of each. *)
Fixpoint proc_yield (fuel : nat) : M kernel yielded :=
  match fuel with
  | O => out_of_fuel
  | S fuel =>
      y ← suspend (proc_yield fuel) 0;
      match y with
      | Some y => mret y
      | None =>
          K ← get;
          assert_ (bool_decide (k_nprocs K > 0));;
          find_process (proc_yield fuel) fuel
      end
  end.

(** ** Kernel calls

    A call on behalf of the current process. Its result goes to the process
    that is current afterwards, which may be another one. *)

Inductive kresult : Type :=
| RHalted
| RDone                            (* a yield, or a call without result *)
| RBool (r : bool)
| RPid (pid : Z)
| RStarted                         (* a new process begins *)
| RReceived (r : option message)   (* of sys_recv *)
| RReply (r : option message)      (* of sys_rpc *)
| RError.                          (* -1 *)

(** The rest of [sys_rpc]. *)
Definition rpc_end (pid : Z) (size : nat) : M kernel kresult :=
  r ← proc_recv_end MSG_REPLY size;
  (match r with Some msg => assert_ (bool_decide (m_src msg = pid)) | None => mret tt end);;
  mret (RReply r).

(** The current process goes on where it was. *)
Definition resume : M kernel kresult :=
  cur ← current;
  p ← get_proc cur;
  match p_ctx p with
  | None => undef
  | Some ctx =>
      upd_proc cur (set_ctx None);;
      match ctx with
      | CReturn => mret RDone
      | CCreated pid => mret (RPid pid)
      | CRecv t size =>
          p ← get_proc cur;
          assert_ (negb (mq_waiting (mbox p t)));;
          r ← proc_recv_end t size; mret (RReceived r)
      | CRpc pid size =>
          p ← get_proc cur;
          assert_ (negb (mq_waiting (mbox p MSG_REPLY)));;
          rpc_end pid size
      end
  end.

Definition yield_resume (fuel : nat) : M kernel kresult :=
  y ← proc_yield fuel;
  match y with YHalt => mret RHalted | YGo => resume end.

(** [proc_yield] called by a process that is not waiting. *)
Definition yield_return (fuel : nat) : M kernel kresult :=
  cur ← current;
  upd_proc cur (set_ctx (Some CReturn));;
  yield_resume fuel.

Definition proc_create_uid (owner uid : Z) : M kernel kresult :=
  K ← get;
  if k_shutting_down K then mret (RPid 0) else
  parent ← proc_find owner;
  match parent with
  | None => mret (RPid 0)
  | Some i =>
      p ← get_proc i;
      let uid := if decide (p_uid p <> 0) then p_uid p else uid in
      o ← proc_alloc owner uid;
      match o with
      | None => mret (RPid 0)
      | Some i =>
          p ← get_proc i;
          cur ← current;
          proc_to_runqueue cur;;
          upd_proc cur (set_ctx (Some (CCreated (p_pid p))));;
          modify (k_set_current i);;      (* ctx_start and ctx_entry *)
          mret RStarted
      end
  end.

Definition proc_kill (fuel : nat) (killer pid status : Z) : M kernel kresult :=
  k ← proc_find killer;
  match k with
  | None => mret RDone
  | Some k =>
      if decide (pid = 0) then
        zap_interruptable MAX_PROCS 0 k status;;
        cur ← current;
        p ← get_proc cur;
        if decide (p_state p = PROC_ZOMBIE) then yield_return fuel else mret RDone
      else
      o ← proc_find pid;
      match o with
      | None => mret RDone
      | Some i =>
          proc_zap (Some k) i status;;
          p ← get_proc i;
          if decide (p_state p = PROC_ZOMBIE) then yield_return fuel else mret RDone
      end
  end.

Definition sys_recv (fuel : nat) (t : msg_type) (max_time : Z) (size : nat) : M kernel kresult :=
  if decide (t <> MSG_REQUEST /\ t <> MSG_EVENT) then mret RError else
  wait ← proc_recv_begin t max_time (CRecv t size);
  if (wait : bool) then yield_resume fuel
  else r ← proc_recv_end t size; mret (RReceived r).

Definition sys_send (dst : Z) (t : msg_type) (contents : list Init.Byte.byte) : M kernel kresult :=
  if decide (t <> MSG_REPLY /\ t <> MSG_EVENT) then mret RError else
  cur ← current;
  p ← get_proc cur;
  r ← proc_send (p_pid p) (p_uid p) dst t contents;
  mret (RBool r).

Definition sys_rpc (fuel : nat) (pid : Z) (request : list Init.Byte.byte) (repsize : nat) : M kernel kresult :=
  cur ← current;
  p ← get_proc cur;
  if decide (pid = p_pid p) then mret RError else
  r ← proc_send (p_pid p) (p_uid p) pid MSG_REQUEST request;
  if negb r then mret RError else
  upd_proc cur (set_server pid);;
  wait ← proc_recv_begin MSG_REPLY 0 (CRpc pid repsize);
  if (wait : bool) then yield_resume fuel else rpc_end pid repsize.

Definition sys_exit (fuel : nat) (status : Z) : M kernel kresult :=
  cur ← current;
  proc_term cur status;;
  y ← proc_yield fuel;
  match y with YHalt => mret RHalted | YGo => resume end.

Definition sys_getpid : M kernel Z := cur ← current; p ← get_proc cur; mret (p_pid p).

(** [proc_frame_alloc] for a page of the current process. *)
Definition proc_frame_alloc (page : Z) : M kernel unit :=
  K ← get;
  match k_freeframes K with
  | [] => panic
  | f :: l =>
      modify (k_upd_freeframes (fun _ => l));;
      cur ← current;
      upd_proc cur (fun p => Process (p_pid p) (p_uid p) (p_owner p) (p_state p) (p_mboxes p) (p_server p)
        (p_alarm_set p) (p_exptime p) (p_interruptable p) (<[page:=f]> (p_pages p)) (p_ctx p))
  end.

(** The part of [proc_pagefault] that concerns the kernel's books: a page that has no frame
    yet gets one. A fault outside the window has ended the process before, with STAT_ILLMEM.
    The rest of it, segments, protection and the translation buffer, is in VirtMem. *)
Definition proc_fault_frame (fuel : nat) (page : Z) : M kernel kresult :=
  if decide (0 <= page < VIRT_PAGES) then
    cur ← current;
    p ← get_proc cur;
    match p_pages p !! page with
    | Some _ => mret RDone
    | None => proc_frame_alloc page;; mret RDone
    end
  else sys_exit fuel (-1).

Definition proc_shutdown : M kernel unit :=
  K ← get; modify (k_set_shutdown (u64 (k_clock K + 3000))).

(** [proc_initialize], with the interrupts to come. *)
Definition free_process (pid : Z) : process :=
  Process pid 0 0 PROC_FREE (Mailboxes mq_init mq_init mq_init) 0 false 0 false ∅ None.

Definition proc_initialize (script : list (Z * list irq)) : M kernel unit :=
  put (Kernel (free_process <$> seqZ 0 (Z.of_nat MAX_PROCS)) [] (seq 0 MAX_PROCS)
         (seqZ 0 PHYS_FRAMES) 0 0 0 1 false 0 0 script);;
  o ← proc_alloc 1 0;
  match o with Some i => modify (k_set_current i) | None => modify id end.
