(* ===== verification/ProcessInv.v ===== *)
(** The invariant of the kernel's process table, queues, counters and frames
    (see [Process]), and that the operations on processes keep it. *)
From stdpp Require Import base numbers list gmap.
From Stdlib Require Import ZArith Lia Permutation.
From S2P Require Import Prelude Process.

(** * The invariant *)

(** The queue that a suspended call waits for. *)
Definition wait_type (c : context) : option msg_type :=
  match c with CRecv t _ => Some t | CRpc _ _ => Some MSG_REPLY | _ => None end.

Definition live (p : process) : Prop := p_state p = PROC_RUNNABLE \/ p_state p = PROC_WAITING.

#[export] Instance live_dec p : Decision (live p).
Proof. unfold live. apply _. Defined.

(** The reply queue of a process is empty, unless it is about to take the reply
    of the server that it has called. *)
Definition reply_ok (p : process) : Prop :=
  mq_messages (mbox p MSG_REPLY) = [] \/
  p_state p = PROC_RUNNABLE /\ exists pid n m,
    p_ctx p = Some (CRpc pid n) /\ mq_messages (mbox p MSG_REPLY) = [m] /\ m_src m = pid.

(** What holds of the process in slot [i], given the rest of the kernel: where
    it is queued, and what it waits for. With [b] the current process may be
    in the middle of running, without a suspended call; the process in slot [x]
    may be off all queues for the moment. *)
Record slot_ok (b : bool) (x : option nat) (K : kernel) (i : nat) (p : process) : Prop := {
  so_free : i ∈ k_free K <-> p_state p = PROC_FREE;
  so_queue : i ∈ k_runnable K ->
    (p_state p = PROC_RUNNABLE \/ p_state p = PROC_ZOMBIE) /\ i <> k_current K;
  so_sched : p_state p = PROC_RUNNABLE \/ p_state p = PROC_ZOMBIE ->
    i = k_current K \/ i ∈ k_runnable K \/ x = Some i;
  so_limbo : x = Some i -> (i ∉ k_runnable K) /\ p_state p <> PROC_WAITING;
  so_wait : p_state p = PROC_WAITING -> exists c t,
    p_ctx p = Some c /\ wait_type c = Some t /\ mq_messages (mbox p t) = [] /\
    forall t', mq_waiting (mbox p t') = bool_decide (t' = t);
  so_run : p_state p = PROC_RUNNABLE -> forall t, mq_waiting (mbox p t) = false;
  so_reply : live p -> reply_ok p;
  so_server : live p -> forall pid n, p_ctx p = Some (CRpc pid n) -> p_server p = pid;
  so_recv : forall t n, p_ctx p = Some (CRecv t n) -> t <> MSG_REPLY;
  so_ctx : p_state p = PROC_RUNNABLE ->
    p_ctx p <> None \/ b = true /\ i = k_current K \/ x = Some i;
  so_pid : p_state p <> PROC_FREE -> 1 <= p_pid p < k_pid_gen K;
}.

(** The number of processes with a property. *)
Definition count (P : process -> Prop) `{!forall p, Decision (P p)} (l : list process) : Z :=
  Z.of_nat (length (filter P l)).

(** The frames that belong to living processes. *)
Definition owned1 (p : process) : list Z := if decide (live p) then page_frames p else [].
Definition owned (l : list process) : list Z := l ≫= owned1.

(** The frames [L] are on their way to the free list. *)
Record kinv (b : bool) (x : option nat) (L : list Z) (K : kernel) : Prop := {
  ki_len : length (k_set K) = MAX_PROCS;
  ki_cur : exists p, k_set K !! k_current K = Some p /\ p_state p <> PROC_FREE;
  ki_queue : NoDup (k_runnable K);
  ki_free : NoDup (k_free K);
  ki_dom : forall i, i ∈ k_runnable K \/ i ∈ k_free K -> (i < MAX_PROCS)%nat;
  ki_slot : forall i p, k_set K !! i = Some p -> slot_ok b x K i p;
  ki_pids : forall i j p q, k_set K !! i = Some p -> k_set K !! j = Some q ->
    p_state p <> PROC_FREE -> p_state q <> PROC_FREE -> p_pid p = p_pid q -> i = j;
  ki_nprocs : k_nprocs K = count (fun p => p_state p <> PROC_FREE) (k_set K);
  ki_nrunnable : k_nrunnable K = count (fun p => p_state p = PROC_RUNNABLE) (k_set K);
  ki_frames : (L ++ k_freeframes K) ++ owned (k_set K) ≡ₚ seqZ 0 PHYS_FRAMES;
  ki_gen : 1 <= k_pid_gen K < two32;
}.

(** * Lists of processes *)

Lemma count_insert P `{!forall p, Decision (P p)} l i p p' :
  l !! i = Some p ->
  count P (<[i:=p']> l) = count P l + (if decide (P p') then 1 else 0) - (if decide (P p) then 1 else 0).
Proof.
  intros Hi. unfold count. rewrite insert_take_drop by (by eapply lookup_lt_Some).
  rewrite <- (take_drop_middle l i p Hi) at 3. rewrite !filter_app, !length_app, !filter_cons.
  destruct (decide (P p')), (decide (P p)); cbn [length]; lia.
Qed.

Lemma count_bounds P `{!forall p, Decision (P p)} l : 0 <= count P l <= Z.of_nat (length l).
Proof. unfold count. pose proof (length_filter P l). lia. Qed.

Lemma count_pos P `{!forall p, Decision (P p)} l i p : l !! i = Some p -> P p -> 1 <= count P l.
Proof.
  intros Hi HP. unfold count. assert (p ∈ filter P l) as Hin.
  { apply list_elem_of_filter. split; [done|by eapply list_elem_of_lookup_2]. }
  destruct (filter P l); [by apply elem_of_nil in Hin|]. cbn [length]. lia.
Qed.

Lemma owned1_same p p' : (live p' <-> live p) -> p_pages p' = p_pages p -> owned1 p' = owned1 p.
Proof.
  intros Hl Hp. unfold owned1, page_frames. rewrite Hp.
  destruct (decide (live p)), (decide (live p')); tauto.
Qed.

Lemma perm_middle {A} (x a o d : list A) : x ++ a ++ o ++ d ≡ₚ (x ++ o) ++ a ++ d.
Proof.
  rewrite <- app_assoc. apply Permutation_app_head. rewrite !app_assoc.
  apply Permutation_app_tail, Permutation_app_comm.
Qed.

Lemma owned_insert l i p p' fr fr' all :
  l !! i = Some p -> fr' ++ owned1 p' ≡ₚ fr ++ owned1 p ->
  fr ++ owned l ≡ₚ all -> fr' ++ owned (<[i:=p']> l) ≡ₚ all.
Proof.
  intros Hi Hp Ha. unfold owned in *. rewrite insert_take_drop by (by eapply lookup_lt_Some).
  rewrite <- (take_drop_middle l i p Hi) in Ha. rewrite bind_app, bind_cons in *.
  etransitivity; [apply perm_middle|]. etransitivity; [|exact Ha].
  etransitivity; [|symmetry; apply perm_middle]. by apply Permutation_app_tail.
Qed.

(** * Message queues of a process *)

Lemma mbox_set_mbox t t' q p : mbox (set_mbox t q p) t' = if decide (t' = t) then q else mbox p t'.
Proof. destruct t, t'; reflexivity. Qed.

Lemma mbox_set_messages t t' l p :
  mbox (set_messages t l p) t' =
  if decide (t' = t) then MsgQueue (mq_waiting (mbox p t)) l else mbox p t'.
Proof. apply mbox_set_mbox. Qed.

Lemma mbox_set_waiting t t' w p :
  mbox (set_waiting t w p) t' =
  if decide (t' = t) then MsgQueue w (mq_messages (mbox p t)) else mbox p t'.
Proof. apply mbox_set_mbox. Qed.

Lemma mbox_set_state x t p : mbox (set_state x p) t = mbox p t.
Proof. by destruct t. Qed.
Lemma mbox_set_alarm w x t p : mbox (set_alarm w x p) t = mbox p t.
Proof. by destruct t. Qed.
Lemma mbox_set_ctx x t p : mbox (set_ctx x p) t = mbox p t.
Proof. by destruct t. Qed.
Lemma mbox_set_server x t p : mbox (set_server x p) t = mbox p t.
Proof. by destruct t. Qed.

Create Rewrite HintDb mbox.
#[export] Hint Rewrite mbox_set_messages mbox_set_waiting mbox_set_state mbox_set_alarm mbox_set_ctx
  mbox_set_server : mbox.

(** * Changing one slot *)

(** A kernel that differs from [K] in slot [i], in the membership of [i] in the
    queues, and in the counters and free frames accordingly. *)
Record one_slot (x x' : option nat) (L L' : list Z) (K K' : kernel) (i : nat) (p p' : process) : Prop := {
  os_old : k_set K !! i = Some p;
  os_set : k_set K' = <[i:=p']> (k_set K);
  os_cur : k_current K' = k_current K;
  os_gen : k_pid_gen K' = k_pid_gen K;
  os_runnable : forall j, j <> i -> j ∈ k_runnable K' <-> j ∈ k_runnable K;
  os_free : forall j, j <> i -> j ∈ k_free K' <-> j ∈ k_free K;
  os_nodup_q : NoDup (k_runnable K');
  os_nodup_f : NoDup (k_free K');
  os_nprocs : k_nprocs K' = u32 (k_nprocs K + (if decide (p_state p' <> PROC_FREE) then 1 else 0)
    - (if decide (p_state p <> PROC_FREE) then 1 else 0));
  os_nrunnable : k_nrunnable K' = u32 (k_nrunnable K + (if decide (p_state p' = PROC_RUNNABLE) then 1 else 0)
    - (if decide (p_state p = PROC_RUNNABLE) then 1 else 0));
  os_frames : (L' ++ k_freeframes K') ++ owned1 p' ≡ₚ (L ++ k_freeframes K) ++ owned1 p;
  os_limbo : forall j, j <> i -> x = Some j <-> x' = Some j;
  os_pid : p_state p' <> PROC_FREE ->
    p_state p <> PROC_FREE /\ p_pid p' = p_pid p \/
    forall j q, k_set K !! j = Some q -> p_state q <> PROC_FREE -> p_pid q <> p_pid p';
  os_curfree : i = k_current K -> p_state p' <> PROC_FREE;
}.

Lemma slot_ok_frame b x x' K K' i p :
  (x = Some i <-> x' = Some i) ->
  k_current K' = k_current K -> k_pid_gen K' = k_pid_gen K ->
  (i ∈ k_runnable K' <-> i ∈ k_runnable K) -> (i ∈ k_free K' <-> i ∈ k_free K) ->
  slot_ok b x K i p -> slot_ok b x' K' i p.
Proof.
  intros Hx Hc Hg Hr Hf [H1 H2 H3 Hlm H4 H5 H6 H7 H8 H9 H10].
  split; rewrite ?Hc, ?Hg, ?Hr, ?Hf, <- ?Hx; auto.
Qed.

Lemma small_u32 z : 0 <= z <= 100 -> u32 z = z.
Proof. intros. apply u32_small. unfold is_u32, two32. lia. Qed.

Lemma kinv_one_slot b x x' L L' K K' i p p' :
  kinv b x L K -> one_slot x x' L L' K K' i p p' -> slot_ok b x' K' i p' -> kinv b x' L' K'.
Proof.
  intros [Hl Hc Hq Hf Hd Hs Hp Hn Hr Hfr Hg] [Ho Hset Hcur Hgen Hrun Hfree Hnq Hnf Hnp Hnr Hfrm Hlim Hpid Hcf] Hok.
  assert (i < MAX_PROCS)%nat as Hi by (rewrite <- Hl; by eapply lookup_lt_Some).
  assert (length (<[i:=p']> (k_set K)) = MAX_PROCS) as Hl' by (by rewrite length_insert).
  split; rewrite ?Hset; try done.
  - rewrite Hcur. destruct (decide (i = k_current K)) as [E|E].
    + exists p'. rewrite <- E, list_lookup_insert_eq by lia. auto.
    + rewrite list_lookup_insert_ne by done. exact Hc.
  - intros j Hj. destruct (decide (j = i)) as [->|Hne]; [done|]. apply Hd.
    by rewrite <- Hrun, <- Hfree by done.
  - intros j q. destruct (decide (j = i)) as [->|Hne].
    + rewrite list_lookup_insert_eq by lia. by intros [= <-].
    + rewrite list_lookup_insert_ne by done. intros Hj.
      apply (slot_ok_frame b x x' K); auto.
  - intros j1 j2 q1 q2. destruct (decide (j1 = i)) as [->|H1], (decide (j2 = i)) as [->|H2];
      rewrite ?list_lookup_insert_eq by lia; rewrite ?list_lookup_insert_ne by done; [done|..].
    + intros [= <-] E2 Hq1 Hq2 Heq. destruct (Hpid Hq1) as [[Hq1' Hpp]|Hnew]; [rewrite Hpp in Heq; by eapply Hp|by destruct (Hnew _ _ E2)].
    + intros E1 [= <-] Hq1 Hq2 Heq. destruct (Hpid Hq2) as [[Hq2' Hpp]|Hnew]; [rewrite Hpp in Heq; by eapply Hp|by destruct (Hnew _ _ E1)].
    + by apply Hp.
  - pose proof (count_insert (fun p => p_state p <> PROC_FREE) _ _ _ p' Ho) as Hci.
    pose proof (count_bounds (fun p => p_state p <> PROC_FREE) (<[i:=p']> (k_set K))) as Hb.
    rewrite Hl' in Hb. cbv beta in Hci. rewrite Hnp, Hn, Hci. apply small_u32.
    rewrite <- Hci. exact Hb.
  - pose proof (count_insert (fun p => p_state p = PROC_RUNNABLE) _ _ _ p' Ho) as Hci.
    pose proof (count_bounds (fun p => p_state p = PROC_RUNNABLE) (<[i:=p']> (k_set K))) as Hb.
    rewrite Hl' in Hb. cbv beta in Hci. rewrite Hnr, Hr, Hci. apply small_u32.
    rewrite <- Hci. exact Hb.
  - by eapply owned_insert.
  - by rewrite Hgen.
Qed.

(** * How the other processes fare in a kernel call *)

(** A process keeps its identity and its suspended call; it may be sent
    messages, and woken up. *)
Record evolves (p p' : process) : Prop := {
  ev_pid : p_pid p' = p_pid p;
  ev_uid : p_uid p' = p_uid p;
  ev_server : p_server p' = p_server p;
  ev_pages : p_pages p' = p_pages p;
  ev_ctx : p_ctx p' = p_ctx p;
  ev_state : p_state p' = p_state p \/ p_state p = PROC_WAITING /\ p_state p' = PROC_RUNNABLE;
  ev_dead : p_state p = PROC_ZOMBIE \/ p_state p = PROC_FREE -> p' = p;
}.

#[export] Instance evolves_refl : Reflexive evolves.
Proof. intros p. split; auto. Qed.

#[export] Instance evolves_trans : Transitive evolves.
Proof.
  intros p q r [H1 H2 H3 H4 H5 H6 H7] [G1 G2 G3 G4 G5 G6 G7].
  split; try congruence; [intuition congruence|].
  intros Hd. pose proof (H7 Hd) as ->. auto.
Qed.

(** The rest of the kernel that messages and wake-ups do not touch. *)
Definition same_rest (K K' : kernel) : Prop :=
  k_current K' = k_current K /\ k_pid_gen K' = k_pid_gen K /\
  k_shutting_down K' = k_shutting_down K /\ k_curfew K' = k_curfew K /\
  k_clock K' = k_clock K /\ k_script K' = k_script K.

#[export] Instance same_rest_refl : Reflexive same_rest.
Proof. intros K. by repeat split. Qed.

#[export] Instance same_rest_trans : Transitive same_rest.
Proof.
  intros K1 K2 K3 (?&?&?&?&?&?) (?&?&?&?&?&?). repeat split; congruence.
Qed.

Record kevolves (K K' : kernel) : Prop := {
  ke_slot : forall i p, k_set K !! i = Some p -> exists p', k_set K' !! i = Some p' /\ evolves p p';
  ke_rest : same_rest K K';
  ke_free : k_free K' = k_free K;
  ke_frames : k_freeframes K' = k_freeframes K;
  ke_nprocs : k_nprocs K' = k_nprocs K;
}.

#[export] Instance kevolves_refl : Reflexive kevolves.
Proof. intros K. split; [|done..]. intros i p Hp. by exists p. Qed.

#[export] Instance kevolves_trans : Transitive kevolves.
Proof.
  intros K1 K2 K3 [H1 H2 H3 H4 H5] [G1 G2 G3 G4 G5].
  split; [|by etransitivity|congruence..].
  intros i p Hp. destruct (H1 i p Hp) as (q & Hq & E1). destruct (G1 i q Hq) as (r & Hr & E2).
  exists r. split; [done|by etransitivity].
Qed.

(** * Stepping through kernel code *)

Lemma lookup_upd {A} (l : list A) i p x : l !! i = Some p -> <[i:=x]> l !! i = Some x.
Proof. intros H. apply list_lookup_insert_eq. by eapply lookup_lt_Some. Qed.

Lemma alter_insert {A} (f : A -> A) (l : list A) i p : l !! i = Some p -> alter f i l = <[i:=f p]> l.
Proof.
  intros H. apply list_eq. intros j. destruct (decide (j = i)) as [->|Hne].
  - by rewrite list_lookup_alter_eq, H, (lookup_upd _ _ _ _ H).
  - by rewrite list_lookup_alter_ne, list_lookup_insert_ne by done.
Qed.

Lemma wp_get_proc i p K Q : k_set K !! i = Some p -> Q p K -> wp (get_proc i) K Q.
Proof. intros H HQ. unfold get_proc. steps. by eapply wp_read_nth. Qed.

Lemma wp_upd_proc i f p K Q :
  k_set K !! i = Some p -> Q tt (k_upd_set (<[i:=f p]>) K) -> wp (upd_proc i f) K Q.
Proof.
  intros H HQ. unfold upd_proc. steps. revert HQ. unfold k_upd_set. by rewrite (alter_insert f _ _ _ H).
Qed.

Ltac kcbn :=
  cbn [k_set k_runnable k_free k_freeframes k_nprocs k_nrunnable k_current k_pid_gen k_shutting_down
       k_curfew k_clock k_script k_upd_set k_upd_runnable k_upd_free k_upd_freeframes k_upd_nprocs
       k_upd_nrunnable k_set_current k_next_pid k_set_shutdown k_set_earth
       p_pid p_uid p_owner p_state p_mboxes p_server p_alarm_set p_exptime p_interruptable p_pages p_ctx
       set_state set_mboxes set_server set_alarm set_ctx] in *.

(** Finds what a slot holds after the updates so far. *)
Ltac klook :=
  cbn [k_set k_upd_set k_upd_runnable k_upd_free k_upd_freeframes k_upd_nprocs k_upd_nrunnable
       k_set_current k_next_pid k_set_shutdown k_set_earth];
  first [eassumption | eapply lookup_upd; klook].

Ltac ksteps :=
  repeat (cbn beta; first
    [ step
    | eapply wp_get_proc; [klook|]
    | eapply wp_upd_proc; [klook|]
    | eapply wp_assert; [solve [by apply bool_decide_eq_true_2]|]
    | progress unfold current, sys_gettime ]).

Lemma proc_find_ok pid K Q :
  (forall i p, k_set K !! i = Some p -> p_state p <> PROC_FREE -> p_pid p = pid -> Q (Some i) K) ->
  Q None K ->
  wp (proc_find pid) K Q.
Proof.
  intros HS HN. unfold proc_find. ksteps.
  destruct (list_find (is_proc pid) (k_set K)) as [[i p]|] eqn:E; [|done].
  apply list_find_Some in E as (Hp & [Hs Hpid] & _). by eapply HS.
Qed.

Section wake.
Context (b : bool) (x : option nat) (L : list Z) (K : kernel) (HK : kinv b x L K).

Lemma slot_at i p : k_set K !! i = Some p -> slot_ok b x K i p.
Proof. apply HK. Qed.

Lemma cur_lt i p : k_set K !! i = Some p -> (i < MAX_PROCS)%nat.
Proof. intros H. rewrite <- (ki_len _ _ _ _ HK). by eapply lookup_lt_Some. Qed.

(** A slot changes inside its queue: the kernel with the new process. *)
Lemma kinv_in_place i p p' :
  k_set K !! i = Some p -> p_state p' = p_state p -> p_pid p' = p_pid p -> p_pages p' = p_pages p ->
  slot_ok b x K i p' -> kinv b x L (k_upd_set (<[i:=p']>) K).
Proof.
  intros Hi Hs Hpid Hpg Hok.
  eapply kinv_one_slot; [exact HK| |by apply (slot_ok_frame b x x K)].
  assert (forall n, 0 <= n <= 100 -> n = u32 (n + 0 - 0)) as Hu by (intros; by rewrite Z.add_0_r, Z.sub_0_r, small_u32).
  pose proof (count_bounds (fun p => p_state p <> PROC_FREE) (k_set K)) as B1.
  pose proof (count_bounds (fun p => p_state p = PROC_RUNNABLE) (k_set K)) as B2.
  rewrite (ki_len _ _ _ _ HK) in B1, B2. unfold MAX_PROCS in B1, B2.
  rewrite <- (ki_nprocs _ _ _ _ HK) in B1. rewrite <- (ki_nrunnable _ _ _ _ HK) in B2.
  split; kcbn; try done; try apply HK; rewrite ?Hs.
  - rewrite Z.add_simpl_r, small_u32; [done|lia].
  - rewrite Z.add_simpl_r, small_u32; [done|lia].
  - rewrite (owned1_same p p'); [done| |done]. unfold live. by rewrite Hs.
  - by left.
  - intros ->. destruct (ki_cur _ _ _ _ HK) as (q & Hq & Hf). congruence.
Qed.

(** A waiting process is made runnable, and queued unless it is the current
    one; its new state [p'] is ready to run. *)
Lemma kinv_wake i p p' K' :
  k_set K !! i = Some p -> p_state p = PROC_WAITING -> p_state p' = PROC_RUNNABLE ->
  p_pid p' = p_pid p -> p_pages p' = p_pages p -> p_ctx p' = p_ctx p -> p_server p' = p_server p ->
  (forall t, mq_waiting (mbox p' t) = false) -> reply_ok p' ->
  k_set K' = <[i:=p']> (k_set K) -> same_rest K K' -> k_free K' = k_free K ->
  k_freeframes K' = k_freeframes K -> k_nprocs K' = k_nprocs K ->
  k_nrunnable K' = u32 (k_nrunnable K + 1) ->
  k_runnable K' = (if decide (i <> k_current K) then k_runnable K ++ [i] else k_runnable K) ->
  kinv b x L K'.
Proof.
  intros Hi Hw Hs Hpid Hpg Hctx Hsrv Hnw Hrep Hset (Hc & Hg & _) Hf Hfr Hn Hr Hq.
  destruct (slot_at i p Hi) as [H1 H2 H3 Hlm H4 H5 H6 H7 H8 H9 H10].
  assert (i ∉ k_runnable K) as Hnq by (intros Hin; destruct (H2 Hin) as [[?|?] _]; congruence).
  assert (i ∉ k_free K) as Hnf by (rewrite H1; congruence).
  assert (forall j, j ∈ k_runnable K' <-> j ∈ k_runnable K \/ j = i /\ i <> k_current K) as Hmem.
  { intros j. rewrite Hq. destruct (decide (i <> k_current K)) as [E|E].
    - rewrite elem_of_app, list_elem_of_singleton. tauto.
    - split; [tauto|]. intros [?|[_ ?]]; tauto. }
  pose proof (count_bounds (fun p => p_state p <> PROC_FREE) (k_set K)) as B1.
  rewrite (ki_len _ _ _ _ HK) in B1. rewrite <- (ki_nprocs _ _ _ _ HK) in B1.
  eapply (kinv_one_slot b x x L L K K' i p p' HK).
  - split; try done.
    + intros j Hne. rewrite Hmem. tauto.
    + intros j _. by rewrite Hf.
    + rewrite Hq. destruct (decide _); [|apply HK]. apply NoDup_app.
      split_and!; [apply HK|intros j Hj ->%list_elem_of_singleton; done|apply NoDup_singleton].
    + rewrite Hf. apply HK.
    + rewrite Hn, Hw, Hs, !decide_True by done. rewrite Z.add_simpl_r, small_u32; [done|exact B1].
    + rewrite Hr, Hw, Hs, decide_True, decide_False by done. f_equal. lia.
    + rewrite Hfr, (owned1_same p p'); [done| |done]. unfold live. rewrite Hw, Hs. tauto.
    + intros _. left. by rewrite Hw.
    + by rewrite Hs.
  - destruct (H4 Hw) as (c & t & Hcp & Hct & _).
    split; rewrite ?Hc, ?Hg, ?Hf, ?Hpid, ?Hctx, ?Hsrv, ?Hs; auto; try done.
    + rewrite Hmem. intros [?|[_ ?]]; [done|auto].
    + intros _. rewrite Hmem. destruct (decide (i = k_current K)); auto.
    + intros Hx. by destruct (Hlm Hx).
    + intros _. apply H7. right. exact Hw.
    + intros _. left. by rewrite Hcp.
    + intros _. apply H10. congruence.
Qed.
End wake.

Lemma kevolves_one K K' i p p' :
  k_set K !! i = Some p -> k_set K' = <[i:=p']> (k_set K) -> evolves p p' -> same_rest K K' ->
  k_free K' = k_free K -> k_freeframes K' = k_freeframes K -> k_nprocs K' = k_nprocs K ->
  kevolves K K'.
Proof.
  intros Hi Hset He Hr Hf Hfr Hn. split; [|done..]. intros j q Hj. rewrite Hset.
  destruct (decide (j = i)) as [->|Hne].
  - exists p'. rewrite (lookup_upd _ _ _ _ Hi). split; [done|]. congruence.
  - exists q. by rewrite list_lookup_insert_ne.
Qed.

(** * Messages and wake-ups *)

Lemma proc_wakeup_ok b x L K i p :
  kinv b x L K -> k_set K !! i = Some p -> p_state p = PROC_WAITING ->
  wp (proc_wakeup i) K (fun _ K' => kinv b x L K' /\ kevolves K K').
Proof.
  intros HK Hi Hw. pose proof (ki_slot _ _ _ _ HK i p Hi) as Hok.
  unfold proc_wakeup. ksteps.
  set (p' := set_waiting MSG_EVENT false (set_waiting MSG_REPLY false (set_waiting MSG_REQUEST false
    (set_alarm false (p_exptime (set_state PROC_RUNNABLE p)) (set_state PROC_RUNNABLE p))))).
  assert (evolves p p') as He.
  { split; kcbn; try done; [by right|]. rewrite Hw. by intros [?|?]. }
  assert (forall t, mq_waiting (mbox p' t) = false) as Hnw.
  { intros t. unfold p'. autorewrite with mbox. destruct t; reflexivity. }
  assert (reply_ok p') as Hrep.
  { left. destruct (so_reply _ _ _ _ _ Hok (or_intror Hw)) as [E|[E _]]; [exact E|congruence]. }
  destruct (decide (i <> k_current K)) as [Hne|Hne].
  - rewrite decide_True by done. unfold proc_to_runqueue. ksteps. split.
    + eapply (kinv_wake b x L K HK i p p'); kcbn; try done.
      * by rewrite !list_insert_insert_eq.
      * by rewrite decide_True.
    + eapply (kevolves_one _ _ _ _ _ Hi); [|exact He|..]; kcbn; try done. by rewrite !list_insert_insert_eq.
  - rewrite decide_False by done. ksteps. split.
    + eapply (kinv_wake b x L K HK i p p'); kcbn; try done.
      * by rewrite !list_insert_insert_eq.
      * by rewrite decide_False.
    + eapply (kevolves_one _ _ _ _ _ Hi); [|exact He|..]; kcbn; try done. by rewrite !list_insert_insert_eq.
Qed.

(** The state of a process after [proc_send] has added a message, and woken it
    up if it was waiting for the message. *)
Definition with_message (t : msg_type) (m : message) (d : process) : process :=
  set_messages t (mq_messages (mbox d t) ++ [m]) d.

Lemma evolves_message t m d :
  p_state d <> PROC_ZOMBIE -> p_state d <> PROC_FREE -> evolves d (with_message t m d).
Proof. intros H1 H2. split; kcbn; try done; [by left|]. by intros [?|?]. Qed.

Lemma slot_message b x K i d t m :
  slot_ok b x K i d -> t <> MSG_REPLY -> mq_waiting (mbox d t) = false ->
  slot_ok b x K i (with_message t m d).
Proof.
  intros [H1 H2 H3 Hlm H4 H5 H6 H7 H8 H9 H10] Ht Hnw.
  assert (forall t', mq_waiting (mbox (with_message t m d) t') = mq_waiting (mbox d t')) as Hsame.
  { intros t'. unfold with_message. rewrite mbox_set_messages. by destruct (decide (t' = t)) as [->|]. }
  assert (forall t', t' <> t -> mbox (with_message t m d) t' = mbox d t') as Hother.
  { intros t' Hne. unfold with_message. by rewrite mbox_set_messages, decide_False. }
  split; try done.
  - intros Hw. destruct (H4 Hw) as (c & t' & Hc & Hct & Hm & Hwt). exists c, t'.
    assert (t' <> t) as Hne by (intros ->; by rewrite Hwt, bool_decide_eq_true_2 in Hnw).
    split_and!; [done|done|by rewrite Hother|]. intros t''. by rewrite Hsame.
  - intros Hr t'. rewrite Hsame. by apply H5.
  - intros Hl. unfold reply_ok. rewrite Hother by done. by apply H6.
Qed.

Lemma proc_send_ok b x L K src uid dst t contents :
  kinv b x L K -> wp (proc_send src uid dst t contents) K (fun _ K' => kinv b x L K' /\ kevolves K K').
Proof.
  intros HK. unfold proc_send. step. apply proc_find_ok; [|ksteps; by split].
  intros i d Hi Hns _. ksteps.
  destruct (decide (p_state d = PROC_ZOMBIE)) as [Hz|Hz]; [ksteps; by split|].
  destruct (decide (t = MSG_REPLY /\ _)) as [Hbad|Hgood]; [ksteps; by split|].
  pose proof (ki_slot _ _ _ _ HK i d Hi) as Hok.
  set (m := Message src uid contents). ksteps. fold (with_message t m d).
  destruct (mq_waiting (mbox d t)) eqn:Ew.
  - assert (p_state d = PROC_WAITING) as Hw.
    { destruct (p_state d) eqn:Es; try done. by rewrite (so_run _ _ _ _ _ Hok Es) in Ew. }
    destruct (so_wait _ _ _ _ _ Hok Hw) as (c & t' & Hc & Hct & Hm & Hwt).
    assert (t = t') as <- by (rewrite Hwt in Ew; by apply bool_decide_eq_true_1 in Ew).
    set (d1 := set_waiting t false (set_alarm false (p_exptime (set_state PROC_RUNNABLE (with_message t m d)))
      (set_state PROC_RUNNABLE (with_message t m d)))).
    assert (evolves d d1) as He.
    { split; try done; [by right|]. rewrite Hw. by intros [?|?]. }
    assert (forall t', mbox d1 t' = MsgQueue false (if decide (t' = t) then [m] else mq_messages (mbox d t'))) as Hd1.
    { intros t'. unfold d1, with_message. autorewrite with mbox. rewrite Hm.
      destruct (decide (t' = t)) as [->|Hne]; [by rewrite decide_True|].
      destruct (mbox d t') as [w l] eqn:Em. specialize (Hwt t'). rewrite Em in Hwt. cbn in *.
      rewrite Hwt. by rewrite bool_decide_eq_false_2. }
    assert (reply_ok d1) as Hrep.
    { unfold reply_ok. rewrite Hd1. destruct (decide (MSG_REPLY = t)) as [<-|Hne].
      - right. split; [done|]. destruct c as [| |t' n|pid n]; try done.
        { injection Hct as ->. by destruct (so_recv _ _ _ _ _ Hok MSG_REPLY n Hc). }
        exists pid, n, m. split_and!; [exact Hc|done|]. cbn.
        rewrite <- (so_server _ _ _ _ _ Hok (or_intror Hw) pid n Hc).
        destruct (decide (p_server d = src)) as [E|E]; [done|]. exfalso. apply Hgood. split; [done|]. tauto.
      - left. cbn. destruct (so_reply _ _ _ _ _ Hok (or_intror Hw)) as [E|[E _]]; [exact E|congruence]. }
    assert (forall t', mq_waiting (mbox d1 t') = false) as Hnw by (intros t'; by rewrite Hd1).
    ksteps. destruct (decide (i <> k_current K)) as [Hne|Hne].
    + rewrite decide_True by done. unfold proc_to_runqueue. ksteps. split.
      * eapply (kinv_wake b x L K HK i d d1); kcbn; try done.
        -- by rewrite !list_insert_insert_eq.
        -- by rewrite decide_True.
      * eapply (kevolves_one _ _ _ _ _ Hi); [|exact He|..]; kcbn; try done. by rewrite !list_insert_insert_eq.
    + rewrite decide_False by done. ksteps. split.
      * eapply (kinv_wake b x L K HK i d d1); kcbn; try done.
        -- by rewrite !list_insert_insert_eq.
        -- by rewrite decide_False.
      * eapply (kevolves_one _ _ _ _ _ Hi); [|exact He|..]; kcbn; try done. by rewrite !list_insert_insert_eq.
  - ksteps. split.
    + apply (kinv_in_place b x L K HK i d); try done. apply slot_message; [done| |done].
      intros ->. apply Hgood. tauto.
    + eapply (kevolves_one _ _ _ _ _ Hi); [|by apply evolves_message|..]; done.
Qed.

(** * The death of processes *)

Lemma slot_exists b x L K i : kinv b x L K -> (i < MAX_PROCS)%nat -> exists p, k_set K !! i = Some p.
Proof. intros HK Hi. apply lookup_lt_is_Some_2. by rewrite (ki_len _ _ _ _ HK). Qed.

(** The process waits for a reply of the server [pid]. *)
Definition rpc_waits (pid : Z) (p : process) : Prop :=
  p_state p = PROC_WAITING /\ mq_waiting (mbox p MSG_REPLY) = true /\ p_server p = pid.

Lemma rpc_waits_alt b x L K i p pid :
  kinv b x L K -> k_set K !! i = Some p ->
  rpc_waits pid p <->
  p_state p = PROC_WAITING /\ (p_ctx p ≫= wait_type) = Some MSG_REPLY /\ p_server p = pid.
Proof.
  intros HK Hi. unfold rpc_waits.
  split; intros (Hw & Hm & Hs); destruct (so_wait _ _ _ _ _ (ki_slot _ _ _ _ HK i p Hi) Hw)
    as (c & t & Hc & Ht & _ & Hq); (split; [done|]; split; [|done]).
  - rewrite Hq in Hm. apply bool_decide_eq_true_1 in Hm as <-. by rewrite Hc.
  - rewrite Hc in Hm. cbn in Hm. rewrite Hq. apply bool_decide_eq_true_2. congruence.
Qed.

Lemma rpc_waits_evolves b x L K b' x' L' K' i j p p' pid :
  kinv b x L K -> kinv b' x' L' K' -> k_set K !! i = Some p -> k_set K' !! j = Some p' ->
  evolves p p' -> rpc_waits pid p -> rpc_waits pid p' \/ p_state p' = PROC_RUNNABLE.
Proof.
  intros HK HK' Hi Hj He. rewrite (rpc_waits_alt _ _ _ _ _ _ _ HK Hi), (rpc_waits_alt _ _ _ _ _ _ _ HK' Hj).
  rewrite (ev_ctx _ _ He), (ev_server _ _ He). destruct (ev_state _ _ He) as [->|[_ E]]; auto.
Qed.

Lemma rpc_waits_before b x L K b' x' L' K' i j p p' pid :
  kinv b x L K -> kinv b' x' L' K' -> k_set K !! i = Some p -> k_set K' !! j = Some p' ->
  evolves p p' -> rpc_waits pid p' -> rpc_waits pid p.
Proof.
  intros HK HK' Hi Hj He. rewrite (rpc_waits_alt _ _ _ _ _ _ _ HK Hi), (rpc_waits_alt _ _ _ _ _ _ _ HK' Hj).
  rewrite (ev_ctx _ _ He), (ev_server _ _ He).
  destruct (ev_state _ _ He) as [->|[_ E]]; [auto|rewrite E; by intros [? _]].
Qed.

Lemma evolves_runnable p p' : evolves p p' -> p_state p = PROC_RUNNABLE -> p_state p' = PROC_RUNNABLE.
Proof. intros He Hr. destruct (ev_state _ _ He) as [E|[E _]]; congruence. Qed.

Lemma proc_wakeup_runs K i p :
  k_set K !! i = Some p -> p_state p = PROC_WAITING ->
  wp (proc_wakeup i) K (fun _ K' => exists p', k_set K' !! i = Some p' /\ p_state p' = PROC_RUNNABLE).
Proof.
  intros Hi Hw. unfold proc_wakeup. ksteps.
  destruct (decide (i <> k_current K)) as [Hne|Hne]; rewrite ?decide_True, ?decide_False by done;
    unfold proc_to_runqueue; ksteps; eexists; (split; [klook|done]).
Qed.

Lemma fail_rpcs_ok b x L n pid : forall i K,
  kinv b x L K -> (n + i = MAX_PROCS)%nat ->
  wp (fail_rpcs n i pid) K (fun _ K' => kinv b x L K' /\ kevolves K K' /\
    forall j q, (i <= j)%nat -> k_set K !! j = Some q -> rpc_waits pid q ->
      exists q', k_set K' !! j = Some q' /\ p_state q' = PROC_RUNNABLE).
Proof.
  induction n as [|n IH]; intros i K HK Hn; cbn [fail_rpcs].
  { ksteps. split; [done|]. split; [done|]. intros j q Hj Hq. apply lookup_lt_Some in Hq.
    rewrite (ki_len _ _ _ _ HK) in Hq. lia. }
  destruct (slot_exists b x L K i HK) as [p Hi]; [lia|]. step. eapply wp_get_proc; [exact Hi|]. step.
  apply (wp_mono _ _ (fun _ K1 => (kinv b x L K1 /\ kevolves K K1) /\
    (rpc_waits pid p -> exists p', k_set K1 !! i = Some p' /\ p_state p' = PROC_RUNNABLE))).
  - destruct (decide _) as [Hw|Hw]; [|by step]. apply wp_and.
    + apply (proc_wakeup_ok b x L K i p HK Hi), Hw.
    + eapply wp_mono; [apply (proc_wakeup_runs K i p Hi), Hw|]. intros ? K1 H _. exact H.
  - intros _ K1 [[HK1 HE1] Hrun]. wp_use (IH (S i) K1 HK1) as (HK2 & HE2 & Hrest); [lia|].
    split; [done|]. split; [by etransitivity|]. intros j q Hij Hq Hw.
    destruct (ke_slot _ _ HE1 _ _ Hq) as (q1 & Hq1 & E1). destruct (ke_slot _ _ HE2 _ _ Hq1) as (q2 & Hq2 & E2).
    exists q2. split; [done|].
    destruct (decide (j = i)) as [->|Hne].
    + assert (q = p) as -> by congruence. destruct (Hrun Hw) as (p' & Hp' & Hr).
      eapply evolves_runnable; [exact E2|congruence].
    + destruct (rpc_waits_evolves _ _ _ K _ _ _ K1 j j q q1 pid HK HK1 Hq Hq1 E1 Hw) as [Hw1|Hr].
      * destruct (Hrest j q1 ltac:(lia) Hq1 Hw1) as (q' & Hq' & Hr'). congruence.
      * by eapply evolves_runnable.
Qed.

(** [K'] differs from [K] by the death of the process in slot [i], and by what
    [kevolves] allows elsewhere. *)
Record kdeath (K K' : kernel) (i : nat) : Prop := {
  kd_slot : forall j q, j <> i -> k_set K !! j = Some q ->
    exists q', k_set K' !! j = Some q' /\ evolves q q';
  kd_rest : same_rest K K';
  kd_free : forall j, j ∈ k_free K' -> j ∈ k_free K \/ j = i;
  kd_state : exists p', k_set K' !! i = Some p' /\
    (p_state p' = PROC_ZOMBIE \/ p_state p' = PROC_FREE /\ i <> k_current K);
  kd_clients : forall p j q, k_set K !! i = Some p -> j <> i -> k_set K !! j = Some q ->
    rpc_waits (p_pid p) q -> exists q', k_set K' !! j = Some q' /\ p_state q' = PROC_RUNNABLE;
}.

(** Where a process that has just died is: a process that was waiting is in no
    queue. *)
Definition limbo (K : kernel) (i : nat) (p : process) : option nat :=
  if decide (p_state p = PROC_WAITING /\ i <> k_current K) then Some i else None.

Lemma u32_small100 z : 0 <= z <= 100 -> u32 (z + 0 - 0) = z.
Proof. intros. rewrite Z.add_0_r, Z.sub_0_r. by apply small_u32. Qed.

Lemma nprocs_bounds b x L K : kinv b x L K -> 0 <= k_nprocs K <= 100 /\ 0 <= k_nrunnable K <= 100.
Proof.
  intros HK. rewrite (ki_nprocs _ _ _ _ HK), (ki_nrunnable _ _ _ _ HK).
  pose proof (count_bounds (fun p => p_state p <> PROC_FREE) (k_set K)) as B1.
  pose proof (count_bounds (fun p => p_state p = PROC_RUNNABLE) (k_set K)) as B2.
  rewrite (ki_len _ _ _ _ HK) in B1, B2. split; [exact B1|exact B2].
Qed.

Lemma nprocs_pos b x L K i p : kinv b x L K -> k_set K !! i = Some p -> p_state p <> PROC_FREE -> 0 < k_nprocs K.
Proof.
  intros HK Hi Hs. rewrite (ki_nprocs _ _ _ _ HK).
  pose proof (count_pos (fun p => p_state p <> PROC_FREE) _ _ _ Hi Hs). lia.
Qed.

(** Marking a living process dead. *)
Lemma kinv_mark_dead b L K i p :
  kinv b None L K -> k_set K !! i = Some p -> live p ->
  kinv b (limbo K i p) (L ++ page_frames p)
    (k_upd_set (<[i:=set_state PROC_ZOMBIE p]>)
      (if decide (p_state p = PROC_RUNNABLE) then k_upd_nrunnable (-1) K else K)).
Proof.
  intros HK Hi Hl. pose proof (ki_slot _ _ _ _ HK i p Hi) as Hok.
  destruct (nprocs_bounds _ _ _ _ HK) as [B1 B2].
  set (K1 := if decide (p_state p = PROC_RUNNABLE) then k_upd_nrunnable (-1) K else K).
  assert (k_set K1 = k_set K /\ k_current K1 = k_current K /\ k_pid_gen K1 = k_pid_gen K /\
    k_runnable K1 = k_runnable K /\ k_free K1 = k_free K /\ k_nprocs K1 = k_nprocs K /\
    k_freeframes K1 = k_freeframes K /\
    k_nrunnable K1 = u32 (k_nrunnable K + 0 - (if decide (p_state p = PROC_RUNNABLE) then 1 else 0)))
    as (Eset & Ecur & Egen & Erun & Efree & Enp & Efr & Enr).
  { unfold K1. destruct (decide (p_state p = PROC_RUNNABLE)); kcbn; repeat split; [f_equal; lia|].
    by rewrite u32_small100. }
  clearbody K1.
  assert (p_state p <> PROC_FREE) as Hnf by (destruct Hl as [E|E]; by rewrite E).
  eapply (kinv_one_slot b None _ L _ K _ i p); [exact HK| |].
  - split; kcbn; rewrite ?Eset, ?Ecur, ?Egen, ?Erun, ?Efree, ?Enp, ?Efr; try done; try apply HK.
    + rewrite !decide_True by done. rewrite Z.add_simpl_r, small_u32; [done|lia].
    + unfold owned1. rewrite decide_False by (by intros [?|?]). rewrite decide_True by done.
      rewrite app_nil_r, <- !app_assoc. apply Permutation_app_head, Permutation_app_comm.
    + intros j Hne. unfold limbo. destruct (decide (p_state p = _ /\ _)); split; intros [=]; congruence.
    + intros _. by left.
  - destruct Hok as [H1 H2 H3 Hlm H4 H5 H6 H7 H8 H9 H10].
    split; kcbn; rewrite ?Ecur, ?Egen, ?Erun, ?Efree; try done.
    + split; [|done]. by intros Hf%H1.
    + intros Hq. split; [by right|]. by destruct (H2 Hq).
    + intros _. unfold limbo. destruct Hl as [E|E].
      * destruct (H3 (or_introl E)) as [?|[?|?]]; [by left|by right; left|done].
      * destruct (decide (i = k_current K)); [auto|]. rewrite decide_True by done. auto.
    + unfold limbo. destruct (decide (p_state p = PROC_WAITING /\ i <> k_current K)) as [[E _]|_]; [|done]. intros _. split; [|done].
      intros Hin. destruct (H2 Hin) as [[?|?] _]; congruence.
    + by intros [?|?].
    + by intros [?|?].
    + intros _. auto.
Qed.

Lemma kinv_frames b x L F K :
  kinv b x (L ++ F) K -> kinv b x L (k_upd_freeframes (fun l => l ++ F) K).
Proof.
  intros [H1 H2 H3 H4 H5 H6 H7 H8 H9 H10 H11]. split; kcbn; try done.
  - intros i p Hi. apply (slot_ok_frame b x x K); auto.
  - etransitivity; [|exact H10]. apply Permutation_app_tail. rewrite <- app_assoc.
    apply Permutation_app_head, Permutation_app_comm.
Qed.

Lemma proc_term_ok b L K i p status :
  kinv b None L K -> k_set K !! i = Some p -> live p ->
  wp (proc_term i status) K (fun _ K' =>
    kinv b (limbo K i p) L K' /\ kdeath K K' i /\
    exists p', k_set K' !! i = Some p' /\ p_state p' = PROC_ZOMBIE).
Proof.
  intros HK Hi Hl. pose proof (kinv_mark_dead b L K i p HK Hi Hl) as HK1.
  assert (p_state p <> PROC_FREE) as Hnf by (destruct Hl as [E|E]; by rewrite E).
  assert (p_state p <> PROC_ZOMBIE) as Hnz by (destruct Hl as [E|E]; by rewrite E).
  pose proof (nprocs_pos _ _ _ _ _ _ HK Hi Hnf) as Hpos.
  unfold proc_term. step. apply wp_get. step. eapply wp_assert; [apply bool_decide_eq_true_2; lia|].
  step. eapply wp_get_proc; [exact Hi|].
  set (K1 := if decide (p_state p = PROC_RUNNABLE) then k_upd_nrunnable (-1) K else K) in *.
  step. eapply (wp_mono _ _ (fun _ K' => K' = K1)).
  { unfold K1. destruct (decide (p_state p = PROC_RUNNABLE)); by step. }
  intros _ ? ->. rewrite (decide_True (P := p_state p <> PROC_ZOMBIE)) by done.
  assert (k_set K1 = k_set K /\ same_rest K K1 /\ k_free K1 = k_free K) as (Eset & Erest & Efree)
    by (unfold K1; by destruct (decide (p_state p = PROC_RUNNABLE))).
  clearbody K1. step. step. eapply wp_upd_proc; [by rewrite Eset|].
  set (K2 := k_upd_set (<[i:=set_state PROC_ZOMBIE p]>) K1) in *.
  step. apply (wp_mono _ _ (fun o K' => K' = K2 /\ match o with Some o => (o < MAX_PROCS)%nat | None => True end)).
  { apply proc_find_ok; [|done]. intros o po Ho _ _. split; [done|]. by eapply cur_lt. }
  intros o ? [-> Ho]. step.
  apply (wp_mono _ _ (fun _ K' => kinv b (limbo K i p) (L ++ page_frames p) K' /\ kevolves K2 K')).
  { destruct o as [o|]; [|by step].
    destruct (slot_exists _ _ _ _ o HK1 Ho) as [po Hpo]. ksteps.
    wp_use (proc_send_ok b _ _ _ (p_pid p) (p_uid p) (p_pid po) MSG_EVENT (death_notice (p_pid p) status) HK1)
      as [HK3 HE3]. by step. }
  intros _ K3 [HK3 HE3].
  eapply wp_mono; [apply (fail_rpcs_ok b _ _ MAX_PROCS (p_pid p) 0 K3 HK3); lia|].
  intros _ K4 (HK4 & HE4 & Hcl). step. assert (kevolves K2 K4) as HE by (by etransitivity).
  assert (forall j q, j <> i -> k_set K !! j = Some q -> k_set K2 !! j = Some q) as Hother
    by (intros j q Hne Hj; unfold K2; kcbn; by rewrite list_lookup_insert_ne, Eset).
  assert (k_set K2 !! i = Some (set_state PROC_ZOMBIE p)) as Hi2
    by (unfold K2; kcbn; rewrite Eset; by eapply lookup_upd).
  destruct (ke_slot _ _ HE _ _ Hi2) as (p' & Hp' & Hev).
  pose proof (ev_dead _ _ Hev (or_introl eq_refl)) as ->.
  split; [by apply kinv_frames|]. split; [|by eexists].
  destruct HE as [Hslot Hrest Hfree _ _]. split; kcbn.
  - intros j q Hne Hj. by apply Hslot, Hother.
  - etransitivity; [exact Erest|]. exact Hrest.
  - intros j. rewrite Hfree. unfold K2. kcbn. rewrite Efree. auto.
  - eexists. split; [exact Hp'|]. by left.
  - intros p0 j q Hp0 Hne Hj Hw. assert (p0 = p) as -> by congruence. apply Hother in Hj; [|done].
    destruct (ke_slot _ _ HE3 _ _ Hj) as (q3 & Hq3 & E3). destruct (ke_slot _ _ HE4 _ _ Hq3) as (q4 & Hq4 & E4).
    destruct (rpc_waits_evolves _ _ _ K2 _ _ _ K3 j j q q3 _ HK1 HK3 Hj Hq3 E3 Hw) as [Hw3|Hr].
    + by apply (Hcl j q3); [lia| |].
    + exists q4. split; [done|]. by eapply evolves_runnable.
Qed.

(** ** Releasing a slot *)

Definition emptied (p : process) : process :=
  set_state PROC_FREE
    (set_messages MSG_EVENT [] (set_messages MSG_REPLY [] (set_messages MSG_REQUEST [] p))).

Definition released (K : kernel) (i : nat) (p : process) : kernel :=
  k_upd_free (fun l => l ++ [i]) (k_upd_nprocs (-1) (k_upd_set (<[i:=emptied p]>) K)).

Lemma proc_release_eq K i p :
  k_set K !! i = Some p -> p_state p = PROC_ZOMBIE ->
  wp (proc_release i) K (fun _ K' => K' = released K i p).
Proof.
  intros Hi Hz. unfold proc_release. ksteps. unfold released, k_upd_free, k_upd_nprocs, k_upd_set. kcbn.
  by rewrite list_insert_insert_eq.
Qed.

Lemma kinv_released b x L K i p :
  kinv b x L K -> k_set K !! i = Some p -> p_state p = PROC_ZOMBIE -> i <> k_current K ->
  i ∉ k_runnable K -> x = None \/ x = Some i ->
  kinv b None L (released K i p).
Proof.
  intros HK Hi Hz Hc Hq Hx. pose proof (ki_slot _ _ _ _ HK i p Hi) as Hok.
  destruct (nprocs_bounds _ _ _ _ HK) as [B1 B2].
  assert (i ∉ k_free K) as Hf by (rewrite (so_free _ _ _ _ _ Hok); congruence).
  eapply (kinv_one_slot b x None L L K _ i p (emptied p) HK).
  - unfold released. split; kcbn; try done; try apply HK.
    + intros j Hne. rewrite elem_of_app, list_elem_of_singleton. tauto.
    + apply NoDup_app. split_and!; [apply HK| |apply NoDup_singleton].
      by intros j Hj ->%list_elem_of_singleton.
    + rewrite Hz, (decide_True (P := PROC_ZOMBIE <> PROC_FREE)) by done.
      rewrite decide_False by (intros H; by apply H). f_equal. lia.
    + rewrite Hz, !decide_False by done. by rewrite u32_small100.
    + unfold owned1. rewrite !decide_False; [done|..]; unfold live; rewrite ?Hz; by intros [?|?].
    + intros j Hne. destruct Hx as [->| ->]; split; congruence.
  - unfold released. destruct Hok as [H1 H2 H3 Hlm H4 H5 H6 H7 H8 H9 H10].
    split; kcbn; try done.
    + rewrite elem_of_app, list_elem_of_singleton. split; auto.
    + by intros [?|?].
    + by intros [?|?].
    + by intros [?|?].
Qed.

(** ** Killing *)

(** What killing others leaves of the current process: it evolves, or dies. *)
Record kcalm (K K' : kernel) : Prop := {
  kc_rest : same_rest K K';
  kc_cur : forall p, k_set K !! k_current K = Some p ->
    exists p', k_set K' !! k_current K = Some p' /\ (evolves p p' \/ p_state p' = PROC_ZOMBIE);
}.

#[export] Instance kcalm_refl : Reflexive kcalm.
Proof. intros K. split; [done|]. intros p Hp. exists p. split; [done|by left]. Qed.

#[export] Instance kcalm_trans : Transitive kcalm.
Proof.
  intros K1 K2 K3 [R1 C1] [R2 C2]. split; [by etransitivity|]. intros p Hp.
  destruct (C1 p Hp) as (p2 & H2 & E2). destruct R1 as (Hc & _). rewrite <- Hc in H2 |- *.
  destruct (C2 p2 H2) as (p3 & H3 & E3). exists p3. split; [done|].
  destruct E3 as [E3|E3]; [|by right]. destruct E2 as [E2|E2]; [left; by etransitivity|].
  right. by rewrite (ev_dead _ _ E3 (or_introl E2)).
Qed.

Lemma kevolves_calm K K' : kevolves K K' -> kcalm K K'.
Proof.
  intros [Hs Hr _ _ _]. split; [done|]. intros p Hp. destruct (Hs _ _ Hp) as (p' & H & E).
  exists p'. split; [done|by left].
Qed.

Lemma kdeath_calm K K' i : kdeath K K' i -> kcalm K K'.
Proof.
  intros [Hs Hr _ (p' & Hp' & Hst)]. split; [done|]. intros p Hp.
  destruct (decide (k_current K = i)) as [E|E].
  - exists p'. rewrite E. split; [done|]. right. destruct Hst as [?|[_ ?]]; [done|congruence].
  - destruct (Hs _ _ E Hp) as (q & H & Eq). exists q. split; [done|by left].
Qed.

Lemma limbo_runnable b x L K i p :
  kinv b x L K -> k_set K !! i = Some p -> p_state p = PROC_WAITING -> i ∉ k_runnable K.
Proof.
  intros HK Hi Hw Hin. destruct (so_queue _ _ _ _ _ (ki_slot _ _ _ _ HK i p Hi) Hin) as [[?|?] _]; congruence.
Qed.

Lemma proc_zap_ok b K killer i p status :
  kinv b None [] K -> k_set K !! i = Some p -> p_state p <> PROC_FREE ->
  (forall k, killer = Some k -> (k < MAX_PROCS)%nat) ->
  wp (proc_zap killer i status) K (fun _ K' => kinv b None [] K' /\ kcalm K K' /\
    (i <> k_current K -> forall c, k_set K !! k_current K = Some c ->
       exists c', k_set K' !! k_current K = Some c' /\ evolves c c')).
Proof.
  intros HK Hi Hnf Hk. unfold proc_zap. step. eapply wp_get_proc; [exact Hi|]. step.
  apply (wp_mono _ _ (fun _ K' => K' = K)).
  { destruct killer as [k|]; [|by step]. destruct (slot_exists _ _ _ _ k HK) as [kp Hkp]; [auto|]. by ksteps. }
  intros allowed ? ->. assert (forall c, k_set K !! k_current K = Some c ->
    exists c', k_set K !! k_current K = Some c' /\ evolves c c') as Hrefl by (intros c Hcur; by exists c).
  destruct (negb allowed); [by step|].
  pose proof (nprocs_pos _ _ _ _ _ _ HK Hi Hnf). step. apply wp_get. step.
  eapply wp_assert; [apply bool_decide_eq_true_2; lia|].
  destruct (p_state p) eqn:Es; try done.
  - wp_use (proc_term_ok b [] K i p status HK Hi (or_introl Es)) as (HK1 & Hd & _).
    split; [|split; [by eapply kdeath_calm|]].
    2:{ intros Hne c Hcur. by apply (kd_slot _ _ _ Hd). }
    unfold limbo in HK1. by rewrite decide_False in HK1 by (by rewrite Es; intros [? _]).
  - step. wp_use (proc_term_ok b [] K i p status HK Hi (or_intror Es)) as (HK1 & Hd & q & Hq & Hz).
    pose proof (kdeath_calm _ _ _ Hd) as Hcalm. destruct (kd_rest _ _ _ Hd) as (Hc & _).
    unfold limbo in HK1. ksteps. rewrite Hc.
    destruct (decide (i <> k_current K)) as [Hne|Hne].
    + rewrite decide_True in HK1 by done.
      wp_use (proc_release_eq _ i q Hq Hz) as ->.
      lazymatch goal with |- context [released ?K1 i q] => set (K1' := K1) in * end.
      assert (forall j, j <> i -> k_set (released K1' i q) !! j = k_set K1' !! j) as Hrel
        by (intros j Hj; unfold released; kcbn; by rewrite list_lookup_insert_ne).
      split; [|split].
      * eapply kinv_released; [exact HK1|exact Hq|exact Hz|congruence| |by right].
        by apply (so_limbo _ _ _ _ _ (ki_slot _ _ _ _ HK1 i q Hq)).
      * split; [exact (kc_rest _ _ Hcalm)|]. intros c Hcur.
        destruct (kc_cur _ _ Hcalm c Hcur) as (c' & Hc' & E). exists c'. split; [|done].
        by rewrite Hrel.
      * intros _ c Hcur. rewrite Hrel by done. by apply (kd_slot _ _ _ Hd).
    + ksteps. split; [by rewrite decide_False in HK1 by (by intros [_ ?])|]. split; [done|]. by intros ?.
Qed.
