(* ===== verification/ProcessSched.v ===== *)
(** The scheduler and the kernel calls keep the invariant of [ProcessInv], and
    none of the kernel's assertions can fail. *)
From stdpp Require Import base numbers list gmap.
From Stdlib Require Import ZArith Lia Permutation.
From S2P Require Import Prelude Process ProcessInv.

(** * Changes outside the process table *)

Lemma kinv_same_set b b' x x' L K K' :
  kinv b x L K -> k_set K' = k_set K -> k_free K' = k_free K -> k_freeframes K' = k_freeframes K ->
  k_nprocs K' = k_nprocs K -> k_nrunnable K' = k_nrunnable K -> k_pid_gen K' = k_pid_gen K ->
  NoDup (k_runnable K') -> (forall i, i ∈ k_runnable K' -> (i < MAX_PROCS)%nat) ->
  (exists p, k_set K !! k_current K' = Some p /\ p_state p <> PROC_FREE) ->
  (forall i p, k_set K !! i = Some p -> slot_ok b x K i p -> slot_ok b' x' K' i p) ->
  kinv b' x' L K'.
Proof.
  intros [H1 H2 H3 H4 H5 H6 H7 H8 H9 H10 H11] Es Ef Efr En Er Eg Hq Hd Hc Hs.
  split; rewrite ?Es, ?Ef, ?Efr, ?En, ?Er, ?Eg; auto.
  intros i [Hi|Hi]; auto.
Qed.

Lemma kinv_weaken x L K : kinv false x L K -> kinv true x L K.
Proof.
  intros HK. eapply kinv_same_set; [exact HK|done..|apply HK| |apply HK|].
  - intros i Hi. apply HK. by left.
  - intros i p _ [H1 H2 H3 Hlm H4 H5 H6 H7 H8 H9 H10]. split; auto.
    intros Hr. destruct (H9 Hr) as [?|[[? _]|?]]; [auto|done|auto].
Qed.

(** A current process that is not in the middle of running. *)
Lemma kinv_suspend x L K :
  kinv true x L K ->
  (forall p, k_set K !! k_current K = Some p -> p_state p = PROC_RUNNABLE -> p_ctx p <> None) ->
  kinv false x L K.
Proof.
  intros HK Hc. eapply kinv_same_set; [exact HK|done..|apply HK| |apply HK|].
  - intros i Hi. apply HK. by left.
  - intros i p Hi [H1 H2 H3 Hlm H4 H5 H6 H7 H8 H9 H10]. split; auto.
    intros Hr. destruct (H9 Hr) as [?|[[_ E]|?]]; [auto| |auto]. subst i. left. by apply Hc.
Qed.

Lemma kinv_earth b x L K clock script : kinv b x L K -> kinv b x L (k_set_earth clock script K).
Proof.
  intros HK. eapply kinv_same_set; [exact HK|done..|apply HK| |apply HK|].
  - intros i Hi. apply HK. by left.
  - intros i p _. by apply (slot_ok_frame b x x K).
Qed.

(** ** The run queue *)

(** The first process of the run queue is taken off it. *)
Lemma kinv_pop b L K i l p :
  kinv b None L K -> k_runnable K = i :: l -> k_set K !! i = Some p ->
  kinv b (Some i) L (k_upd_runnable (fun _ => l) K) /\
  (p_state p = PROC_RUNNABLE \/ p_state p = PROC_ZOMBIE) /\ i <> k_current K /\ (i ∉ l).
Proof.
  intros HK Hq Hi. pose proof (ki_queue _ _ _ _ HK) as Hnd. rewrite Hq in Hnd.
  apply NoDup_cons in Hnd as [Hil Hnd].
  destruct (so_queue _ _ _ _ _ (ki_slot _ _ _ _ HK i p Hi)) as [Hst Hc]; [rewrite Hq; by left|].
  split; [|done]. eapply kinv_same_set; [exact HK|done..| |apply HK|].
  - intros j Hj. apply (ki_dom _ _ _ _ HK). left. rewrite Hq. by right.
  - intros j q Hj [H1 H2 H3 Hlm H4 H5 H6 H7 H8 H9 H10]. rewrite Hq in H2, H3.
    split; kcbn; auto.
    + intros Hjl. apply H2. by right.
    + intros Hr. destruct (H3 Hr) as [?|[[->|?]%elem_of_cons|?]]; [auto|auto|auto|done].
    + intros [= <-]. split; [done|]. assert (q = p) as -> by congruence. by destruct Hst as [->| ->].
    + intros Hr. destruct (H9 Hr) as [?|[?|?]]; [auto|auto|done].
Qed.

Lemma next_runnable_ok b : forall fuel K,
  kinv b None [] K -> fuel = length (k_runnable K) ->
  wp (next_runnable fuel) K (fun o K' => kcalm K K' /\
    match o with
    | None => kinv b None [] K'
    | Some i => kinv b (Some i) [] K' /\ i <> k_current K' /\
        exists p, k_set K' !! i = Some p /\ p_state p = PROC_RUNNABLE /\ (p_ctx p <> None)
    end).
Proof.
  induction fuel as [|fuel IH]; intros K HK Hfuel; cbn [next_runnable].
  - destruct (k_runnable K) eqn:E; [|done]. step. apply wp_get. rewrite E. by step.
  - destruct (k_runnable K) as [|i l] eqn:E; [done|]. step. apply wp_get. rewrite E.
    destruct (slot_exists _ _ _ _ i HK) as [p Hi].
    { apply (ki_dom _ _ _ _ HK). left. rewrite E. by left. }
    destruct (kinv_pop b [] K i l p HK E Hi) as (HK1 & Hst & Hc & Hil). ksteps.
    assert (kcalm K (k_upd_runnable (fun _ => l) K)) as Hcalm1.
    { split; [done|]. intros q Hq. exists q. split; [done|by left]. }
    destruct (decide (p_state p = PROC_RUNNABLE)) as [Hr|Hr].
    + ksteps. split; [done|]. split; [done|]. split; [done|]. exists p. split; [done|]. split; [done|].
      destruct (so_ctx _ _ _ _ _ (ki_slot _ _ _ _ HK i p Hi) Hr) as [?|[[_ ?]|?]]; done.
    + destruct Hst as [?|Hz]; [done|]. ksteps.
      wp_use (proc_release_eq (k_upd_runnable (fun _ => l) K) i p Hi Hz) as ->.
      pose proof (kinv_released b _ [] _ i p HK1 Hi Hz Hc Hil (or_intror eq_refl)) as HK2.
      wp_use (IH _ HK2) as [Hcalm2 Ho]; [by injection Hfuel|]. split; [|done].
      etransitivity; [|exact Hcalm2]. split; [done|]. intros q Hq. exists q.
      split; [|by left]. unfold released. kcbn. by rewrite list_lookup_insert_ne.
Qed.

(** ** Loops over the process table *)

Lemma zap_interruptable_ok b n killer status : forall i K,
  kinv b None [] K -> (n + i = MAX_PROCS)%nat -> (killer < MAX_PROCS)%nat ->
  wp (zap_interruptable n i killer status) K (fun _ K' => kinv b None [] K' /\ kcalm K K').
Proof.
  induction n as [|n IH]; intros i K HK Hn Hk; cbn [zap_interruptable]; [by ksteps|].
  destruct (slot_exists _ _ _ _ i HK) as [p Hi]; [lia|]. ksteps.
  destruct (decide _) as [[Hs _]|_].
  - wp_use (proc_zap_ok b K (Some killer) i p status HK Hi Hs) as (HK1 & HC1 & _); [by intros k [= <-]|].
    wp_use (IH (S i) _ HK1) as [HK2 HC2]; [lia|done|]. split; [done|by etransitivity].
  - ksteps. apply IH; [done|lia|done].
Qed.

Lemma check_alarms_ok b n now : forall i next K,
  kinv b None [] K -> (n + i = MAX_PROCS)%nat ->
  wp (check_alarms n i now next) K (fun _ K' => kinv b None [] K' /\ kcalm K K').
Proof.
  induction n as [|n IH]; intros i next K HK Hn; cbn [check_alarms]; [by ksteps|].
  destruct (slot_exists _ _ _ _ i HK) as [p Hi]; [lia|]. ksteps.
  destruct (decide (k_shutting_down K = true /\ p_state p <> PROC_FREE)) as [[_ Hs]|_].
  - step. wp_use (proc_zap_ok b K None i p (-4) HK Hi Hs) as (HK1 & HC1 & _); [done|]. step.
    wp_use (IH (S i) next _ HK1) as [HK2 HC2]; [lia|]. split; [done|by etransitivity].
  - destruct (decide (p_state p = PROC_WAITING /\ p_alarm_set p = true)) as [[Hw _]|_].
    + step. destruct (decide (p_exptime p <= now)).
      * wp_use (proc_wakeup_ok b _ _ K i p HK Hi Hw) as [HK1 HE1]. step.
        eapply wp_mono; [apply (IH (S i) _ _ HK1); lia|]. intros _ K2 [HK2 HC2].
        split; [done|]. etransitivity; [by apply kevolves_calm|done].
      * ksteps. apply IH; [done|lia].
    + ksteps. apply IH; [done|lia].
Qed.

(** * Switching *)

(** The process that gets the CPU back is runnable. *)
Definition cur_runnable (K : kernel) : Prop :=
  exists p, k_set K !! k_current K = Some p /\ p_state p = PROC_RUNNABLE.

(** The current process gives way to [next]: it is queued if it is runnable,
    and left in limbo if it is dead. *)
Lemma kinv_switch K next n c :
  kinv false (Some next) [] K -> next <> k_current K ->
  k_set K !! next = Some n -> p_state n = PROC_RUNNABLE -> p_ctx n <> None ->
  k_set K !! k_current K = Some c ->
  kinv false (if decide (p_state c = PROC_ZOMBIE) then Some (k_current K) else None) []
    (k_set_current next
      (if decide (p_state c = PROC_RUNNABLE) then k_upd_runnable (fun l => l ++ [k_current K]) K else K)).
Proof.
  intros HK Hne Hn Hr Hctx Hc.
  pose proof (ki_slot _ _ _ _ HK _ _ Hc) as Hokc. pose proof (ki_slot _ _ _ _ HK _ _ Hn) as Hokn.
  destruct (so_limbo _ _ _ _ _ Hokn eq_refl) as [Hnq _].
  assert (k_current K ∉ k_runnable K) as Hcq by (intros Hin; by destruct (so_queue _ _ _ _ _ Hokc Hin)).
  set (K1 := if decide (p_state c = PROC_RUNNABLE) then _ else K).
  assert (forall j, j ∈ k_runnable K1 <-> j ∈ k_runnable K \/ j = k_current K /\ p_state c = PROC_RUNNABLE) as Hmem.
  { intros j. unfold K1. destruct (decide (p_state c = PROC_RUNNABLE)); kcbn; [|tauto].
    rewrite elem_of_app, list_elem_of_singleton. tauto. }
  assert (NoDup (k_runnable K1)) as Hnd.
  { unfold K1. destruct (decide (p_state c = PROC_RUNNABLE)); kcbn; [|apply HK]. apply NoDup_app.
    split_and!; [apply HK| |apply NoDup_singleton]. by intros j Hj ->%list_elem_of_singleton. }
  eapply (kinv_same_set false false (Some next)); [exact HK|..]; kcbn;
    try (unfold K1; by destruct (decide (p_state c = PROC_RUNNABLE))); try done.
  - intros j [Hj|[-> _]]%Hmem; [apply HK; by left|by eapply cur_lt].
  - exists n. by rewrite Hr.
  - intros j p Hj [H1 H2 H3 Hlm H4 H5 H6 H7 H8 H9 H10].
    assert (k_pid_gen (k_set_current next K1) = k_pid_gen K /\ k_free (k_set_current next K1) = k_free K) as [Eg Ef]
      by (unfold K1; by destruct (decide (p_state c = PROC_RUNNABLE))).
    split; rewrite ?Eg, ?Ef; auto; kcbn; rewrite ?Hmem.
    + intros [Hin|[-> Hrun]]; [|split; [left; congruence|done]].
      split; [by apply H2|]. by intros ->.
    + intros Hst. destruct (decide (j = k_current K)) as [->|Hjc].
      * assert (p = c) as -> by congruence. destruct Hst as [Hrun|Hz]; [auto|]. right. right. by rewrite decide_True.
      * destruct (H3 Hst) as [?|[?|[= ->]]]; [done|auto|by left].
    + destruct (decide (p_state c = PROC_ZOMBIE)) as [Hz|Hz]; [|done]. intros [= <-].
      assert (p = c) as -> by congruence. rewrite Hz. split; [|done]. intros [?|[_ ?]]; [done|congruence].
    + intros Hrun. left. destruct (H9 Hrun) as [?|[[? _]|[= ->]]]; [done|done|congruence].
Qed.

(** The part after the switch: the old process is released if it is dead. *)
Lemma proc_after_switch_ok K next n c :
  kinv false (if decide (p_state c = PROC_ZOMBIE) then Some (k_current K) else None) [] (k_set_current next K) ->
  next <> k_current K -> k_set K !! next = Some n -> p_state n = PROC_RUNNABLE ->
  k_set K !! k_current K = Some c ->
  wp (proc_after_switch next) K (fun _ K' =>
    kinv false None [] K' /\ cur_runnable K' /\ k_pid_gen K' = k_pid_gen K).
Proof.
  intros HK Hne Hn Hr Hc. unfold proc_after_switch. ksteps.
  destruct (decide (p_state c = PROC_ZOMBIE)) as [Hz|Hz].
  - wp_use (proc_release_eq K _ c Hc Hz) as ->. step.
    change (kinv false None [] (released (k_set_current next K) (k_current K) c) /\
      cur_runnable (released (k_set_current next K) (k_current K) c) /\ k_pid_gen K = k_pid_gen K).
    pose proof (ki_slot _ _ _ _ HK _ c Hc) as Hok. split; [|split; [|done]].
    + eapply kinv_released; [exact HK|exact Hc|exact Hz|kcbn; congruence| |by right].
      by apply (so_limbo _ _ _ _ _ Hok).
    + exists n. unfold released. kcbn. split; [|done]. by rewrite list_lookup_insert_ne by congruence.
  - ksteps. split; [done|]. split; [|done]. by exists n.
Qed.

Lemma switch_to_ok K next n :
  kinv false (Some next) [] K -> next <> k_current K ->
  k_set K !! next = Some n -> p_state n = PROC_RUNNABLE -> p_ctx n <> None ->
  wp (switch_to next) K (fun y K' =>
    kinv false None [] K' /\ cur_runnable K' /\ k_pid_gen K' = k_pid_gen K).
Proof.
  intros HK Hne Hn Hr Hctx. destruct (ki_cur _ _ _ _ HK) as (c & Hc & Hcf).
  unfold switch_to. step. unfold current at 1. ksteps.
  assert (p_pid n <> p_pid c) as Hpid.
  { intros E. apply Hne. eapply (ki_pids _ _ _ _ HK); [exact Hn|exact Hc|by rewrite Hr|done|done]. }
  eapply wp_assert; [by apply bool_decide_eq_true_2|]. ksteps.
  pose proof (kinv_switch K next n c HK Hne Hn Hr Hctx Hc) as HK1.
  destruct (decide (p_state c = PROC_RUNNABLE)) as [Hrun|Hrun].
  - unfold proc_to_runqueue. ksteps.
    wp_use (proc_after_switch_ok (k_upd_runnable (fun l => l ++ [k_current K]) K) next n c HK1 Hne Hn Hr Hc) as H.
    by ksteps.
  - ksteps. wp_use (proc_after_switch_ok K next n c HK1 Hne Hn Hr Hc) as H. by ksteps.
Qed.

(** * Yielding *)

Definition yield_post (K : kernel) (y : yielded) (K' : kernel) : Prop :=
  y = YHalt \/ kinv false None [] K' /\ cur_runnable K' /\ k_pid_gen K' = k_pid_gen K.

Section yield.
Context (yield : M kernel yielded).
Context (yield_ok : forall K, kinv false None [] K -> safe yield K (yield_post K)).

(** What an interrupt handler, or the sleep that it interrupts, ends in. *)
Definition irq_post (K : kernel) (y : option yielded) (K' : kernel) : Prop :=
  match y with
  | None => kinv false None [] K' /\ k_pid_gen K' = k_pid_gen K
  | Some y => yield_post K y K'
  end.

Lemma irq_post_trans K1 K2 y K3 :
  k_pid_gen K2 = k_pid_gen K1 -> irq_post K2 y K3 -> irq_post K1 y K3.
Proof. intros E. destruct y as [y|]; unfold irq_post, yield_post; by rewrite E. Qed.

Lemma kill_interruptable_ok killer status K :
  kinv false None [] K -> safe (kill_interruptable yield killer status) K (irq_post K).
Proof.
  intros HK. unfold kill_interruptable.
  apply (safe_wp_bind _ _ _ (fun o K' => K' = K /\ forall k, o = Some k -> (k < MAX_PROCS)%nat)).
  { apply proc_find_ok; [|done]. intros i p Hi _ _. split; [done|]. intros k [= <-]. by eapply cur_lt. }
  intros [k|] ? [-> Hk]; [|done].
  eapply safe_wp_bind; [apply (zap_interruptable_ok false MAX_PROCS k status 0 K HK); [lia|by apply Hk]|].
  intros _ K1 [HK1 HC1]. destruct (ki_cur _ _ _ _ HK1) as (c & Hc & Hcf).
  destruct (kc_rest _ _ HC1) as (_ & Eg & _).
  eapply (safe_wp_bind _ _ _ (fun a K' => a = k_current K1 /\ K' = K1)); [done|]. intros ? ? [-> ->].
  eapply (safe_wp_bind _ _ _ (fun a K' => a = c /\ K' = K1)); [by eapply wp_get_proc|]. intros ? ? [-> ->].
  destruct (decide (p_state c = PROC_ZOMBIE)) as [Hz|Hz]; [|by split].
  apply safe_bind. eapply safe_mono; [by apply yield_ok|]. intros y K2 Hy.
  apply (irq_post_trans K K1 (Some y)); [exact Eg|exact Hy].
Qed.

Lemma deliver_all_ok irqs : forall K,
  kinv false None [] K -> safe (deliver_all yield irqs) K (irq_post K).
Proof.
  induction irqs as [|i irqs IH]; intros K HK; cbn [deliver_all]; [by split|].
  apply safe_bind. apply (safe_mono _ _ (irq_post K)).
  - destruct i as [src uid dst t contents|tty]; cbn [deliver].
    + eapply safe_wp_bind; [by apply (proc_send_ok false None [] K)|]. intros _ K1 [HK1 HE].
      split; [done|]. by destruct (ke_rest _ _ HE) as (_ & Eg & _).
    + by apply kill_interruptable_ok.
  - intros [y|] K1; [done|]. intros [HK1 Eg].
    eapply safe_mono; [by apply IH|]. intros y K2. by apply irq_post_trans.
Qed.

Lemma suspend_ok ms K : kinv false None [] K -> safe (suspend yield ms) K (irq_post K).
Proof.
  intros HK. unfold suspend. eapply (safe_wp_bind _ _ _ (fun a K' => a = K /\ K' = K)); [done|].
  intros ? ? [-> ->]. destruct (k_script K) as [|[dt irqs] script]; [done|].
  eapply (safe_wp_bind _ _ _ (fun _ K' => K' = k_set_earth (u64 (k_clock K + dt)) script K)); [done|].
  intros _ ? ->. eapply safe_mono; [by apply deliver_all_ok, kinv_earth|].
  intros y K'. by apply irq_post_trans.
Qed.

Lemma find_process_ok rounds : forall K,
  kinv false None [] K -> safe (find_process yield rounds) K (yield_post K).
Proof.
  induction rounds as [|rounds IH]; intros K HK; cbn [find_process]; [done|].
  eapply (safe_wp_bind _ _ _ (fun a K' => a = k_clock K /\ K' = K)); [done|]. intros ? ? [-> ->].
  eapply (safe_wp_bind _ _ _ (fun a K' => a = K /\ K' = K)); [done|]. intros ? ? [-> ->].
  destruct (decide _); [by left|].
  eapply safe_wp_bind; [by apply (check_alarms_ok false MAX_PROCS (k_clock K) 0 _ K HK)|].
  intros next K1 [HK1 HC1]. destruct (kc_rest _ _ HC1) as (_ & Eg1 & _).
  eapply (safe_wp_bind _ _ _ (fun a K' => a = K1 /\ K' = K1)); [done|]. intros ? ? [-> ->].
  eapply safe_wp_bind; [by apply (next_runnable_ok false _ K1 HK1)|].
  intros o K2 [HC2 Ho]. destruct (kc_rest _ _ HC2) as (_ & Eg2 & _).
  eapply (safe_wp_bind _ _ _ (fun a K' => a = K2 /\ K' = K2)); [done|]. intros ? ? [-> ->].
  assert (0 < k_nprocs K2) as Hpos.
  { destruct o as [i|].
    - destruct Ho as (HK2 & _ & p & Hp & Hr & _). eapply nprocs_pos; [exact HK2|exact Hp|by rewrite Hr].
    - destruct (ki_cur _ _ _ _ Ho) as (c & Hc & Hcf). by eapply nprocs_pos. }
  eapply (safe_wp_bind _ _ _ (fun _ K' => K' = K2)).
  { apply wp_assert; [apply bool_decide_eq_true_2; lia|done]. }
  intros _ ? ->. destruct o as [i|].
  - destruct Ho as (HK2 & Hne & p & Hp & Hr & Hctx). apply wp_safe.
    wp_use (switch_to_ok K2 i p HK2 Hne Hp Hr Hctx) as (H1 & H2 & H3). right. split; [done|]. split; congruence.
  - destruct (ki_cur _ _ _ _ Ho) as (c & Hc & Hcf).
    eapply (safe_wp_bind _ _ _ (fun a K' => a = c /\ K' = K2)); [by eapply wp_get_proc|]. intros ? ? [-> ->].
    destruct (decide (p_state c = PROC_RUNNABLE)) as [Hr|Hr].
    { right. split; [done|]. split; [by exists c|congruence]. }
    destruct (decide _); [by left|].
    apply safe_bind. eapply safe_mono; [by apply suspend_ok|]. intros y K3 Hy.
    apply (irq_post_trans K) in Hy; [|congruence]. destruct y as [y|]; [done|].
    destruct Hy as [HK3 Eg3]. eapply safe_mono; [by apply IH|].
    intros y K4 [->|(?&?&?)]; [by left|]. right. split; [done|]. split; [done|congruence].
Qed.
End yield.

Lemma proc_yield_ok fuel : forall K,
  kinv false None [] K -> safe (proc_yield fuel) K (yield_post K).
Proof.
  induction fuel as [|fuel IH]; intros K HK; cbn [proc_yield]; [done|].
  apply safe_bind. eapply safe_mono; [by apply suspend_ok|]. intros [y|] K1 Hy; [done|].
  destruct Hy as [HK1 Eg]. destruct (ki_cur _ _ _ _ HK1) as (c & Hc & Hcf).
  eapply (safe_wp_bind _ _ _ (fun a K' => a = K1 /\ K' = K1)); [done|]. intros ? ? [-> ->].
  eapply (safe_wp_bind _ _ _ (fun _ K' => K' = K1)).
  { apply wp_assert; [apply bool_decide_eq_true_2|done].
    pose proof (nprocs_pos _ _ _ _ _ _ HK1 Hc Hcf). lia. }
  intros _ ? ->. eapply safe_mono; [by apply (find_process_ok _ IH)|].
  intros y K4 [->|(?&?&?)]; [by left|]. right. split; [done|]. split; [done|congruence].
Qed.

(** * Kernel calls *)

(** A process is running: it is current, and in no kernel call. *)
Definition running (K : kernel) : Prop :=
  kinv true None [] K /\
  exists p, k_set K !! k_current K = Some p /\ p_state p = PROC_RUNNABLE /\ p_ctx p = None.

(** A running process has no reply waiting. *)
Lemma running_no_reply b x K i p :
  slot_ok b x K i p -> p_state p = PROC_RUNNABLE -> p_ctx p = None -> mq_messages (mbox p MSG_REPLY) = [].
Proof.
  intros Hok Hr Hctx. destruct (so_reply _ _ _ _ _ Hok (or_introl Hr)) as [E|(_ & pid & n & m & E & _)]; [done|].
  congruence.
Qed.

(** Changes to a running process that leave it running: its queues change, but
    not the replies, and its suspended call. *)
Lemma slot_running x K p p' :
  slot_ok true x K (k_current K) p -> p_state p = PROC_RUNNABLE ->
  p_state p' = PROC_RUNNABLE -> p_pid p' = p_pid p -> p_ctx p' = None ->
  (forall t, mq_waiting (mbox p' t) = mq_waiting (mbox p t)) -> mq_messages (mbox p' MSG_REPLY) = [] ->
  slot_ok true x K (k_current K) p'.
Proof.
  intros [H1 H2 H3 Hlm H4 H5 H6 H7 H8 H9 H10] Hr Hr' Hpid Hctx Hw Hrep.
  rewrite Hr in *. split; rewrite ?Hr', ?Hpid, ?Hctx; auto; try done.
  - intros _ t. rewrite Hw. by apply H5.
  - intros _. by left.
Qed.

Lemma kinv_running K p p' :
  kinv true None [] K -> k_set K !! k_current K = Some p -> p_state p = PROC_RUNNABLE ->
  p_state p' = PROC_RUNNABLE -> p_pid p' = p_pid p -> p_pages p' = p_pages p -> p_ctx p' = None ->
  (forall t, mq_waiting (mbox p' t) = mq_waiting (mbox p t)) -> mq_messages (mbox p' MSG_REPLY) = [] ->
  running (k_upd_set (<[k_current K:=p']>) K).
Proof.
  intros HK Hp Hr Hr' Hpid Hpg Hctx Hw Hrep. split.
  - apply (kinv_in_place true None [] K HK _ p p' Hp); [congruence|done|done|].
    by apply (slot_running None K p p' (ki_slot _ _ _ _ HK _ _ Hp)).
  - exists p'. split; [|done]. by eapply lookup_upd.
Qed.

(** The result of a kernel call: the machine is off, or some process runs. *)
Definition call_post (K : kernel) (r : kresult) (K' : kernel) : Prop :=
  r = RHalted \/ running K' /\ k_pid_gen K' = k_pid_gen K.

Lemma k_upd_set_twice K i p q :
  k_upd_set (<[i:=q]>) (k_upd_set (<[i:=p]>) K) = k_upd_set (<[i:=q]>) K.
Proof. unfold k_upd_set. kcbn. by rewrite list_insert_insert_eq. Qed.

(** Taking a message off a queue. *)
Lemma recv_end_eq K p t size :
  k_set K !! k_current K = Some p -> p_state p = PROC_RUNNABLE ->
  wp (proc_recv_end t size) K (fun r K' =>
    match mq_messages (mbox p t) with
    | [] => r = None /\ K' = K
    | m :: l => r = Some (Message (m_src m) (m_uid m) (take size (m_contents m))) /\
        K' = k_upd_set (<[k_current K:=set_messages t l p]>) K
    end).
Proof.
  intros Hp Hr. unfold proc_recv_end. ksteps.
  destruct (mq_messages (mbox p t)); by ksteps.
Qed.

Section resume.
Context (K : kernel) (p : process) (ctx : context).
Context (HK : kinv false None [] K) (Hp : k_set K !! k_current K = Some p).
Context (Hr : p_state p = PROC_RUNNABLE) (Hctx : p_ctx p = Some ctx).

Lemma resume_slot : slot_ok false None K (k_current K) p.
Proof. by apply HK. Qed.

Lemma resume_running p' :
  p_state p' = PROC_RUNNABLE -> p_pid p' = p_pid p -> p_pages p' = p_pages p ->
  p_ctx p' = None -> (forall t, mq_waiting (mbox p' t) = mq_waiting (mbox p t)) ->
  mq_messages (mbox p' MSG_REPLY) = [] -> running (k_upd_set (<[k_current K:=p']>) K).
Proof. intros. apply (kinv_running K p p'); try done. by apply kinv_weaken. Qed.

Lemma resume_no_reply : (forall pid n, ctx <> CRpc pid n) -> mq_messages (mbox p MSG_REPLY) = [].
Proof.
  intros Hne. destruct (so_reply _ _ _ _ _ resume_slot (or_introl Hr)) as [E|(_ & pid & n & m & E & _)]; [done|].
  rewrite Hctx in E. injection E as ->. by destruct (Hne pid n).
Qed.

Abbreviation K1 := (k_upd_set (<[k_current K:=set_ctx None p]>) K).

Lemma resume_same : mq_messages (mbox p MSG_REPLY) = [] -> running K1.
Proof. intros E. apply resume_running; try done; intros; by rewrite mbox_set_ctx. Qed.

(** The message that was waited for, in the queue [t]. *)
Lemma resume_recv t size :
  (t <> MSG_REPLY -> mq_messages (mbox p MSG_REPLY) = []) ->
  (t = MSG_REPLY -> (length (mq_messages (mbox p MSG_REPLY)) <= 1)%nat) ->
  wp (proc_recv_end t size) K1 (fun r K' => running K' /\ k_pid_gen K' = k_pid_gen K /\
    forall m, r = Some m -> exists m' l, mq_messages (mbox p t) = m' :: l /\ m_src m = m_src m').
Proof.
  intros H1 H2. eapply wp_mono; [apply (recv_end_eq K1 (set_ctx None p)); [by eapply lookup_upd|done]|].
  intros r K'. rewrite mbox_set_ctx. destruct (mq_messages (mbox p t)) as [|m l] eqn:El.
  - intros [-> ->]. split; [|done]. apply resume_same.
    destruct (decide (t = MSG_REPLY)) as [<-|Ht]; [done|by apply H1].
  - intros [-> ->]. cbn [k_current k_upd_set]. rewrite k_upd_set_twice. split; [|split; [done|]].
    + apply resume_running; try done.
      * intros t'. rewrite mbox_set_messages, !mbox_set_ctx. by destruct (decide (t' = t)) as [->|].
      * rewrite mbox_set_messages, mbox_set_ctx. destruct (decide (MSG_REPLY = t)) as [<-|Ht]; cbn.
        -- rewrite El in H2. destruct l; [done|]. specialize (H2 eq_refl). simpl in H2. lia.
        -- by apply H1.
    + intros m0 [= <-]. by eexists _, _.
Qed.

Lemma resume_ok : wp resume K (call_post K).
Proof.
  pose proof resume_no_reply as Hnr. pose proof resume_slot as Hslot.
  pose proof resume_same as Hsame. pose proof resume_recv as Hrecv.
  pose proof (so_run _ _ _ _ _ Hslot Hr) as Hnw.
  assert (forall t, negb (mq_waiting (mbox (set_ctx None p) t)) = true) as Hneg
    by (intros t; by rewrite mbox_set_ctx, Hnw).
  unfold resume. step. unfold current at 1. ksteps. rewrite Hctx. ksteps.
  destruct ctx as [|pid|t size|pid size].
  - ksteps. right. split; [|done]. apply Hsame. by apply Hnr.
  - ksteps. right. split; [|done]. apply Hsame. by apply Hnr.
  - step. eapply wp_get_proc; [by eapply lookup_upd|]. step. eapply wp_assert; [by apply Hneg|].
    assert (t <> MSG_REPLY) as Ht by (by apply (so_recv _ _ _ _ _ Hslot t size)).
    step. eapply wp_mono; [apply Hrecv; [|done]; intros _; by apply Hnr|].
    intros r K' (Hrun & Eg & _). step. by right.
  - step. eapply wp_get_proc; [by eapply lookup_upd|]. step. eapply wp_assert; [by apply Hneg|].
    unfold rpc_end. step.
    pose proof (so_reply _ _ _ _ _ Hslot (or_introl Hr)) as Hrep.
    eapply wp_mono; [apply Hrecv; [done|]|].
    { intros _. destruct Hrep as [->|(_ & pid' & n & m & _ & -> & _)]; simpl; lia. }
    intros r K' (Hrun & Eg & Hm). step. apply (wp_mono _ _ (fun _ s => s = K')).
    + destruct r as [m|]; [|by step]. destruct (Hm m eq_refl) as (m' & l & El & Esrc).
      destruct Hrep as [E|(_ & pid' & n & m'' & E1 & E2 & E3)]; [congruence|].
      apply wp_assert; [|done]. apply bool_decide_eq_true_2. rewrite Hctx in E1. injection E1 as <- <-.
      congruence.
    + intros _ ? ->. step. by right.
Qed.
End resume.

Lemma yield_resume_ok fuel K :
  kinv false None [] K -> safe (yield_resume fuel) K (call_post K).
Proof.
  intros HK. unfold yield_resume. apply safe_bind. eapply safe_mono; [by apply proc_yield_ok|].
  intros y K1 [->|(HK1 & (p & Hp & Hr) & Eg)]; [by left|]. destruct y; [|by left]. apply wp_safe.
  destruct (p_ctx p) as [ctx|] eqn:Ec.
  - wp_use (resume_ok K1 p ctx HK1 Hp Hr Ec) as [->|[? ?]]; [by left|]. right. split; [done|congruence].
  - destruct (so_ctx _ _ _ _ _ (ki_slot _ _ _ _ HK1 _ _ Hp) Hr) as [?|[[? _]|?]]; done.
Qed.

(** The process after the first part of [proc_recv]. *)
Definition waiter (t : msg_type) (ctx : context) (p : process) : process :=
  set_ctx (Some ctx) (set_state PROC_WAITING (set_waiting t true p)).

Lemma kinv_wait K p p' t ctx :
  kinv true None [] K -> k_set K !! k_current K = Some p -> p_state p = PROC_RUNNABLE -> p_ctx p = None ->
  mq_messages (mbox p t) = [] -> wait_type ctx = Some t ->
  (forall pid n, ctx = CRpc pid n -> p_server p = pid) -> (forall t n, ctx = CRecv t n -> t <> MSG_REPLY) ->
  p_state p' = PROC_WAITING -> p_pid p' = p_pid p -> p_pages p' = p_pages p -> p_server p' = p_server p ->
  p_ctx p' = Some ctx ->
  (forall t', mbox p' t' = mbox (set_waiting t true p) t') ->
  kinv false None [] (k_upd_nrunnable (-1) (k_upd_set (<[k_current K:=p']>) K)).
Proof.
  intros HK Hp Hr Hc Hm Hct Hsrv Hrecv Hs' Hpid Hpg Hsv Hctx Hmb.
  pose proof (ki_slot _ _ _ _ HK _ _ Hp) as Hok. destruct (nprocs_bounds _ _ _ _ HK) as [B1 B2].
  pose proof (running_no_reply _ _ _ _ _ Hok Hr Hc) as Hnr.
  apply kinv_suspend.
  2:{ kcbn. intros q. rewrite (lookup_upd _ _ _ _ Hp). intros [= <-]. by rewrite Hs'. }
  eapply (kinv_one_slot true None None [] [] K _ _ p p' HK).
  - split; kcbn; try done; try apply HK; rewrite ?Hr, ?Hs'.
    + rewrite !decide_True by done. rewrite Z.add_simpl_r, small_u32; [done|lia].
    + rewrite decide_False, decide_True by done. f_equal. lia.
    + rewrite (owned1_same p p'); [done| |done]. unfold live. rewrite Hs', Hr. tauto.
    + intros _. by left.
    + done.
  - destruct Hok as [H1 H2 H3 Hlm H4 H5 H6 H7 H8 H9 H10]. rewrite Hr in *.
    split; kcbn; rewrite ?Hs', ?Hpid, ?Hsv, ?Hctx; auto; try done.
    + split; [by intros ?%H1|done].
    + intros Hq. by destruct (H2 Hq) as [_ ?].
    + intros _. exists ctx, t. split_and!; [done|done|..].
      * by rewrite Hmb, mbox_set_waiting, decide_True.
      * intros t'. rewrite Hmb, mbox_set_waiting. destruct (decide (t' = t)) as [->|Hne]; cbn.
        -- by rewrite bool_decide_eq_true_2.
        -- rewrite H5 by done. by rewrite bool_decide_eq_false_2.
    + intros _. left. rewrite Hmb, mbox_set_waiting. destruct (decide (MSG_REPLY = t)) as [<-|]; done.
    + intros _ pid n [= ->]. by eapply Hsrv.
    + intros t' n [= ->]. by eapply Hrecv.
Qed.

Lemma recv_begin_wait K p t max_time ctx :
  kinv true None [] K -> k_set K !! k_current K = Some p -> p_state p = PROC_RUNNABLE -> p_ctx p = None ->
  mq_messages (mbox p t) = [] -> wait_type ctx = Some t ->
  (forall pid n, ctx = CRpc pid n -> p_server p = pid) -> (forall t n, ctx = CRecv t n -> t <> MSG_REPLY) ->
  wp (proc_recv_begin t max_time ctx) K (fun w K' =>
    w = true /\ kinv false None [] K' /\ k_pid_gen K' = k_pid_gen K).
Proof.
  intros HK Hp Hr Hc Hm Hct Hsrv Hrecv.
  pose proof (so_run _ _ _ _ _ (ki_slot _ _ _ _ HK _ _ Hp) Hr t) as Hnw.
  unfold proc_recv_begin. step. unfold current at 1. ksteps.
  eapply wp_assert; [by rewrite Hnw|]. rewrite decide_True by done. ksteps.
  destruct (decide (max_time <> 0)); ksteps; (split; [done|]; split; [|done]).
  all: lazymatch goal with |- kinv _ _ _ (k_upd_set (<[_:=?q]>) _) =>
    replace (k_upd_set _ _) with (k_upd_nrunnable (-1) (k_upd_set (<[k_current K:=q]>) K))
      by (unfold k_upd_nrunnable, k_upd_set; kcbn; by rewrite !list_insert_insert_eq) end.
  all: apply (kinv_wait K p _ t ctx); try done; intros t'; by autorewrite with mbox.
Qed.

Lemma recv_begin_ready K p t max_time ctx :
  kinv true None [] K -> k_set K !! k_current K = Some p -> p_state p = PROC_RUNNABLE ->
  mq_messages (mbox p t) <> [] -> t <> MSG_REPLY ->
  wp (proc_recv_begin t max_time ctx) K (fun w K' => w = false /\ K' = K).
Proof.
  intros HK Hp Hr Hm Ht.
  pose proof (so_run _ _ _ _ _ (ki_slot _ _ _ _ HK _ _ Hp) Hr t) as Hnw.
  unfold proc_recv_begin. step. unfold current at 1. ksteps.
  eapply wp_assert; [by rewrite Hnw|]. rewrite decide_False by done. by ksteps.
Qed.

(** A running process is unaffected by the messages it sends. *)
Lemma running_evolves K K' :
  running K -> kinv true None [] K' -> kevolves K K' ->
  running K' /\ k_pid_gen K' = k_pid_gen K /\
  forall p, k_set K !! k_current K = Some p -> exists p', k_set K' !! k_current K' = Some p' /\ evolves p p'.
Proof.
  intros (HK & p & Hp & Hr & Hc) HK' [Hs (Ec & Eg & _) _ _ _]. destruct (Hs _ _ Hp) as (p' & Hp' & He).
  split; [|split; [done|]].
  - split; [done|]. exists p'. rewrite Ec. split; [done|].
    destruct (ev_state _ _ He) as [E|[E _]]; [|congruence]. rewrite E, (ev_ctx _ _ He). done.
  - intros q Hq. assert (q = p) as -> by congruence. exists p'. by rewrite Ec.
Qed.

Lemma sys_recv_ok fuel t max_time size K :
  running K -> safe (sys_recv fuel t max_time size) K (call_post K).
Proof.
  intros (HK & p & Hp & Hr & Hc). unfold sys_recv.
  destruct (decide _) as [_|Ht]; [right; split; [by split; [|exists p]|done]|].
  assert (t <> MSG_REPLY) as Hnr by (intros ->; by apply Ht).
  destruct (decide (mq_messages (mbox p t) = [])) as [Hm|Hm].
  - eapply safe_wp_bind; [apply (recv_begin_wait K p t max_time (CRecv t size)); try done|].
    { by intros t' n [= <- _]. }
    intros w K1 (-> & HK1 & Eg). eapply safe_mono; [by apply yield_resume_ok|].
    intros r K2 [->|[? ?]]; [by left|]. right. split; [done|congruence].
  - eapply safe_wp_bind; [by apply (recv_begin_ready K p t max_time (CRecv t size))|].
    intros w K1 [-> ->]. eapply safe_wp_bind; [by apply (recv_end_eq K p t size)|].
    intros r K1 Hres. right. destruct (mq_messages (mbox p t)) as [|m l] eqn:El; [done|].
    destruct Hres as [-> ->]. split; [|done].
    pose proof (running_no_reply _ _ _ _ _ (ki_slot _ _ _ _ HK _ _ Hp) Hr Hc) as Hrep.
    apply (kinv_running K p); try done.
    + intros t'. rewrite mbox_set_messages. by destruct (decide (t' = t)) as [->|].
    + by rewrite mbox_set_messages, decide_False.
Qed.

Lemma sys_send_ok dst t contents K :
  running K -> safe (sys_send dst t contents) K (call_post K).
Proof.
  intros HR. pose proof HR as (HK & p & Hp & Hr & Hc). unfold sys_send.
  destruct (decide _); [by right|].
  eapply (safe_wp_bind _ _ _ (fun a K' => a = k_current K /\ K' = K)); [done|]. intros ? ? [-> ->].
  eapply (safe_wp_bind _ _ _ (fun a K' => a = p /\ K' = K)); [by eapply wp_get_proc|]. intros ? ? [-> ->].
  eapply safe_wp_bind; [by apply proc_send_ok|]. intros r K1 [HK1 HE].
  destruct (running_evolves K K1 HR HK1 HE) as (? & ? & _). by right.
Qed.

Lemma sys_rpc_ok fuel pid request repsize K :
  running K -> safe (sys_rpc fuel pid request repsize) K (call_post K).
Proof.
  intros HR. pose proof HR as (HK & p & Hp & Hr & Hc). unfold sys_rpc.
  eapply (safe_wp_bind _ _ _ (fun a K' => a = k_current K /\ K' = K)); [done|]. intros ? ? [-> ->].
  eapply (safe_wp_bind _ _ _ (fun a K' => a = p /\ K' = K)); [by eapply wp_get_proc|]. intros ? ? [-> ->].
  destruct (decide _); [by right|].
  eapply safe_wp_bind; [by apply proc_send_ok|]. intros r K1 [HK1 HE].
  destruct (running_evolves K K1 HR HK1 HE) as (HR1 & Eg1 & Hev).
  destruct r; [|by right]. destruct (Hev p Hp) as (p1 & Hp1 & He1). cbn [negb].
  destruct (ke_rest _ _ HE) as (Ec1 & _).
  assert (p_state p1 = PROC_RUNNABLE /\ p_ctx p1 = None) as [Hr1 Hc1].
  { destruct HR1 as (_ & q & Hq & ?). by assert (q = p1) as -> by congruence. }
  pose proof (running_no_reply _ _ _ _ _ (ki_slot _ _ _ _ HK1 _ _ Hp1) Hr1 Hc1) as Hrep1.
  set (p2 := set_server pid p1). set (K2 := k_upd_set (<[k_current K1:=p2]>) K1).
  eapply (safe_wp_bind _ _ _ (fun _ K' => K' = K2)).
  { rewrite <- Ec1. by eapply wp_upd_proc. }
  intros _ ? ->.
  assert (running K2) as (HK2 & _).
  { apply (kinv_running K1 p1); try done; intros; unfold p2 in *; by autorewrite with mbox. }
  assert (k_set K2 !! k_current K2 = Some p2) as Hp2 by (by eapply lookup_upd).
  eapply safe_wp_bind.
  { apply (recv_begin_wait K2 p2 MSG_REPLY 0 (CRpc pid repsize)); try done.
    by intros pid' n' [= <- _]. }
  intros w K3 (-> & HK3 & Eg3). eapply safe_mono; [by apply yield_resume_ok|].
  intros r K4 [->|[? ?]]; [by left|]. right. split; [done|].
  change (k_pid_gen K2) with (k_pid_gen K1) in Eg3. congruence.
Qed.

Lemma kinv_yielding K p :
  kinv true None [] K -> k_set K !! k_current K = Some p ->
  p_state p = PROC_ZOMBIE \/ p_state p = PROC_RUNNABLE /\ p_ctx p = None ->
  kinv false None [] (k_upd_set (<[k_current K:=set_ctx (Some CReturn) p]>) K).
Proof.
  intros HK Hp Hcur. pose proof (ki_slot _ _ _ _ HK _ _ Hp) as Hok. set (p' := set_ctx (Some CReturn) p).
  apply kinv_suspend.
  2:{ cbn [k_set k_current k_upd_set]. rewrite (lookup_upd _ _ _ _ Hp). by intros q [= <-]. }
  apply (kinv_in_place true None [] K HK _ p p' Hp); [done..|].
  assert (live p -> mq_messages (mbox p MSG_REPLY) = []) as Hrep.
  { intros Hl. destruct Hcur as [Hz|[Hr Hc]]; [destruct Hl; congruence|].
    by apply (running_no_reply true None K (k_current K)). }
  destruct Hok as [H1 H2 H3 Hlm H4 H5 H6 H7 H8 H9 H10]. split; try done; unfold p'.
  - cbn [p_state set_ctx]. intros Hw. destruct Hcur as [Hz|[Hr _]]; congruence.
  - intros Hl. left. rewrite mbox_set_ctx. by apply Hrep.
  - intros _. by left.
Qed.

Lemma yield_return_ok fuel K :
  kinv true None [] K ->
  (forall p, k_set K !! k_current K = Some p ->
     p_state p = PROC_ZOMBIE \/ p_state p = PROC_RUNNABLE /\ p_ctx p = None) ->
  safe (yield_return fuel) K (call_post K).
Proof.
  intros HK Hcur. destruct (ki_cur _ _ _ _ HK) as (p & Hp & _).
  unfold yield_return. eapply (safe_wp_bind _ _ _ (fun a K' => a = k_current K /\ K' = K)); [done|].
  intros ? ? [-> ->]. set (p' := set_ctx (Some CReturn) p).
  eapply (safe_wp_bind _ _ _ (fun _ K' => K' = k_upd_set (<[k_current K:=p']>) K)); [by eapply wp_upd_proc|].
  intros _ ? ->. eapply (safe_mono _ _ (call_post (k_upd_set (<[k_current K:=p']>) K))); [|done].
  by apply yield_resume_ok, kinv_yielding, Hcur.
Qed.

Lemma sys_exit_ok fuel status K : running K -> safe (sys_exit fuel status) K (call_post K).
Proof.
  intros (HK & p & Hp & Hr & Hc). unfold sys_exit.
  eapply (safe_wp_bind _ _ _ (fun a K' => a = k_current K /\ K' = K)); [done|]. intros ? ? [-> ->].
  eapply safe_wp_bind; [apply (proc_term_ok true [] K _ p status HK Hp); by left|].
  intros _ K1 (HK1 & Hd & q & Hq & Hz). destruct (kd_rest _ _ _ Hd) as (Ec & Eg & _).
  unfold limbo in HK1. rewrite decide_False in HK1 by (by intros [_ ?]).
  assert (kinv false None [] K1) as HK2.
  { apply kinv_suspend; [done|]. rewrite Ec, Hq. intros ? [= <-] ?. congruence. }
  eapply safe_mono; [by apply (yield_resume_ok fuel)|].
  intros r K2 [->|[? ?]]; [by left|]. right. split; [done|congruence].
Qed.

(** The state of the current process after others have been killed. *)
Lemma calm_current K K' :
  running K -> kinv true None [] K' -> kcalm K K' ->
  k_pid_gen K' = k_pid_gen K /\
  forall p', k_set K' !! k_current K' = Some p' ->
    p_state p' = PROC_ZOMBIE \/ p_state p' = PROC_RUNNABLE /\ p_ctx p' = None.
Proof.
  intros (HK & p & Hp & Hr & Hc) HK' [(Ec & Eg & _) Hcur]. split; [done|]. intros p'. rewrite Ec.
  destruct (Hcur p Hp) as (q & Hq & He). rewrite Hq. intros [= <-].
  destruct He as [He|Hz]; [|by left]. right. rewrite (ev_ctx _ _ He).
  destruct (ev_state _ _ He) as [E|[E _]]; [|congruence]. by rewrite E.
Qed.

Lemma proc_kill_ok fuel killer pid status K :
  running K -> safe (proc_kill fuel killer pid status) K (call_post K).
Proof.
  intros HR. pose proof HR as (HK & _). unfold proc_kill.
  assert (forall x, wp (proc_find x) K (fun o K' => K' = K /\ forall i, o = Some i ->
    (i < MAX_PROCS)%nat /\ exists p, k_set K !! i = Some p /\ p_state p <> PROC_FREE)) as Hfind.
  { intros x. apply proc_find_ok; [|done]. intros i p Hi Hs _. split; [done|]. intros ? [= <-].
    split; [by eapply cur_lt|by exists p]. }
  assert (forall K', running K' -> k_pid_gen K' = k_pid_gen K -> call_post K RDone K') as Hdone
    by (intros; by right).
  eapply safe_wp_bind; [apply Hfind|]. intros [k|] ? [-> Hk]; [|by apply Hdone].
  destruct (Hk k eq_refl) as [Hklt _]. destruct (decide (pid = 0)) as [_|_].
  - eapply safe_wp_bind; [apply (zap_interruptable_ok true MAX_PROCS k status 0 K HK); [lia|done]|].
    intros _ K1 [HK1 HC1]. destruct (calm_current K K1 HR HK1 HC1) as [Eg Hcur].
    destruct (ki_cur _ _ _ _ HK1) as (c & Hc & _).
    eapply (safe_wp_bind _ _ _ (fun a K' => a = k_current K1 /\ K' = K1)); [done|]. intros ? ? [-> ->].
    eapply (safe_wp_bind _ _ _ (fun a K' => a = c /\ K' = K1)); [by eapply wp_get_proc|]. intros ? ? [-> ->].
    destruct (decide (p_state c = PROC_ZOMBIE)) as [Hz|Hz].
    + eapply safe_mono; [by apply yield_return_ok|]. intros r K2 [->|[? ?]]; [by left|].
      right. split; [done|congruence].
    + apply Hdone; [|done]. split; [done|]. exists c. split; [done|]. by destruct (Hcur c Hc).
  - eapply safe_wp_bind; [apply Hfind|]. intros [i|] ? [-> Hi]; [|by apply Hdone].
    destruct (Hi i eq_refl) as (Hilt & p & Hp & Hnf).
    eapply safe_wp_bind; [apply (proc_zap_ok true K (Some k) i p status HK Hp Hnf); by intros ? [= <-]|].
    intros _ K1 (HK1 & HC1 & Hev). destruct (calm_current K K1 HR HK1 HC1) as [Eg Hcur].
    destruct (kc_rest _ _ HC1) as (Ec & _).
    destruct (slot_exists _ _ _ _ i HK1 Hilt) as [q Hq].
    eapply (safe_wp_bind _ _ _ (fun a K' => a = q /\ K' = K1)); [by eapply wp_get_proc|]. intros ? ? [-> ->].
    destruct (decide (p_state q = PROC_ZOMBIE)) as [Hz|Hz].
    + eapply safe_mono; [by apply yield_return_ok|]. intros r K2 [->|[? ?]]; [by left|].
      right. split; [done|congruence].
    + apply Hdone; [|done]. split; [done|]. destruct (ki_cur _ _ _ _ HK1) as (c & Hc & _).
      exists c. split; [done|]. destruct (Hcur c Hc) as [Hz'|?]; [|done]. exfalso.
      destruct HR as (_ & c0 & Hc0 & Hr0 & _). destruct (decide (i = k_current K)) as [->|Hne]; [congruence|].
      destruct (Hev Hne c0 Hc0) as (c' & Hc' & He). rewrite Ec in Hc.
      assert (c' = c) as -> by congruence. destruct (ev_state _ _ He) as [?|[? _]]; congruence.
Qed.

(** ** Creating a process *)

Lemma kinv_next_pid b x L K : kinv b x L K -> k_pid_gen K + 1 < two32 -> kinv b x L (k_next_pid K).
Proof.
  intros [H1 H2 H3 H4 H5 H6 H7 H8 H9 H10 H11] Hg.
  assert (u32 (k_pid_gen K + 1) = k_pid_gen K + 1) as E by (apply u32_small; unfold is_u32; lia).
  split; kcbn; rewrite ?E; try done; [|lia].
  intros i p Hi. destruct (H6 i p Hi) as [G1 G2 G3 Glm G4 G5 G6 G7 G8 G9 G10].
  split; kcbn; rewrite ?E; auto. intros Hs. specialize (G10 Hs). lia.
Qed.

Lemma new_no_frames pid owner uid : page_frames (new_process pid owner uid) = [].
Proof. vm_compute. reflexivity. Qed.

Lemma proc_alloc_ok K owner uid :
  kinv true None [] K -> k_pid_gen K + 1 < two32 ->
  wp (proc_alloc owner uid) K (fun o K' =>
    k_current K' = k_current K /\
    match o with
    | None => K' = K
    | Some i => kinv true (Some i) [] K' /\ i <> k_current K /\ k_pid_gen K' = k_pid_gen K + 1 /\
        k_set K' !! i = Some (new_process (k_pid_gen K) owner uid) /\
        forall j, j <> i -> k_set K' !! j = k_set K !! j
    end).
Proof.
  intros HK Hg. unfold proc_alloc. step. apply wp_get.
  destruct (k_free K) as [|i free] eqn:Ef; [by step|].
  assert (i ∈ k_free K) as Hif by (rewrite Ef; by left).
  destruct (slot_exists _ _ _ _ i HK) as [p Hi]; [apply HK; by right|].
  pose proof (ki_slot _ _ _ _ HK i p Hi) as Hok.
  pose proof (proj1 (so_free _ _ _ _ _ Hok) Hif) as Hpf.
  pose proof (ki_free _ _ _ _ HK) as Hnd. rewrite Ef in Hnd. apply NoDup_cons in Hnd as [Hin Hnd].
  assert (i <> k_current K) as Hic.
  { intros ->. destruct (ki_cur _ _ _ _ HK) as (c & Hc & Hcf). congruence. }
  assert (i ∉ k_runnable K) as Hiq.
  { intros Hq. destruct (so_queue _ _ _ _ _ Hok Hq) as [[?|?] _]; congruence. }
  assert (u32 (k_pid_gen K + 1) = k_pid_gen K + 1) as E
    by (apply u32_small; pose proof (ki_gen _ _ _ _ HK); unfold is_u32; lia).
  pose proof (kinv_next_pid _ _ _ _ HK Hg) as HK0.
  destruct (nprocs_bounds _ _ _ _ HK) as [B1 B2].
  set (p' := new_process (k_pid_gen K) owner uid).
  ksteps. kcbn. rewrite (alter_insert _ _ _ _ Hi). split; [done|]. split; [|split; [done|]].
  - eapply (kinv_one_slot true None (Some i) [] [] _ _ i p p' HK0).
    + split; kcbn; try done; try apply HK0.
      * apply (alter_insert (fun _ => p') _ _ p Hi).
      * intros j Hne. rewrite Ef, elem_of_cons. tauto.
      * rewrite Hpf. rewrite decide_True by done. rewrite decide_False by (intros H; by apply H). f_equal. lia.
      * rewrite Hpf, decide_True, decide_False by done. f_equal. lia.
      * unfold owned1. rewrite (decide_False (P := live p)) by (unfold live; rewrite Hpf; by intros [?|?]).
        destruct (decide (live p')); [|done].
        by replace (page_frames p') with (@nil Z) by (symmetry; apply new_no_frames).
      * intros j Hne. split; congruence.
      * intros _. right. intros j q Hj Hq Epid. cbn in Epid.
        pose proof (so_pid _ _ _ _ _ (ki_slot _ _ _ _ HK j q Hj) Hq). lia.
    + split; kcbn; try done.
      * intros _. auto.
      * intros _ []; reflexivity.
      * intros _. by left.
      * intros _. auto.
      * intros _. rewrite E. pose proof (ki_gen _ _ _ _ HK). cbn. lia.
  - split; [exact E|]. split; [by eapply lookup_upd|].
    intros j Hne. by rewrite list_lookup_insert_ne.
Qed.

Lemma kinv_start K i pn c :
  kinv true (Some i) [] K -> i <> k_current K -> k_set K !! i = Some pn -> p_state pn = PROC_RUNNABLE ->
  k_set K !! k_current K = Some c -> p_state c = PROC_RUNNABLE -> p_ctx c <> None ->
  kinv true None [] (k_set_current i (k_upd_runnable (fun l => l ++ [k_current K]) K)).
Proof.
  intros HK Hne Hi Hir Hc Hr Hctx. pose proof (ki_slot _ _ _ _ HK _ _ Hc) as Hokc.
  destruct (so_limbo _ _ _ _ _ (ki_slot _ _ _ _ HK _ _ Hi) eq_refl) as [Hiq _].
  assert (k_current K ∉ k_runnable K) as Hcq by (intros Hin; by destruct (so_queue _ _ _ _ _ Hokc Hin)).
  assert (forall j, j ∈ k_runnable K ++ [k_current K] <-> j ∈ k_runnable K \/ j = k_current K) as Hmem
    by (intros j; by rewrite elem_of_app, list_elem_of_singleton).
  eapply (kinv_same_set true true (Some i)); [exact HK|done..| | |kcbn; exists pn; by rewrite Hir|]; kcbn.
  - apply NoDup_app. split_and!; [apply HK| |apply NoDup_singleton].
    by intros j Hj ->%list_elem_of_singleton.
  - intros j [Hj| ->]%Hmem; [apply HK; by left|by eapply cur_lt].
  - intros j p Hj [H1 H2 H3 Hlm H4 H5 H6 H7 H8 H9 H10]. split; kcbn; rewrite ?Hmem; auto.
    + intros [Hin| ->]; [split; [by apply H2|by intros ->]|]. assert (p = c) as -> by congruence. auto.
    + intros Hst. destruct (H3 Hst) as [->|[?|[= ->]]]; auto.
    + done.
    + intros Hrun. destruct (H9 Hrun) as [?|[[_ ->]|[= ->]]]; [auto| |auto].
      assert (p = c) as -> by congruence. auto.
Qed.

Definition create_post (K : kernel) (r : kresult) (K' : kernel) : Prop :=
  running K' /\ k_pid_gen K' <= k_pid_gen K + 1.

Lemma proc_create_uid_ok owner uid K :
  running K -> k_pid_gen K + 1 < two32 -> wp (proc_create_uid owner uid) K (create_post K).
Proof.
  intros HR Hg. pose proof HR as (HK & c & Hc & Hr & Hctx).
  assert (forall r, create_post K r K) as Hsame by (intros r; split; [done|lia]).
  unfold proc_create_uid. step. apply wp_get. destruct (k_shutting_down K); [by step|].
  step. apply proc_find_ok; [|by step]. intros i p Hi Hs _. ksteps.
  set (uid' := if decide (p_uid p <> 0) then p_uid p else uid).
  eapply wp_mono; [apply (proc_alloc_ok K owner uid' HK Hg)|].
  intros [j|] K1 [Ec Ho]; [|subst K1; by step].
  destruct Ho as (HK1 & Hne & Eg & Hj & Hother). rewrite <- Ec in Hne.
  assert (k_set K1 !! k_current K1 = Some c) as Hc1 by (rewrite Hother by done; by rewrite Ec).
  set (np := new_process (k_pid_gen K) owner uid') in *.
  set (c' := set_ctx (Some (CCreated (p_pid np))) c).
  set (K2 := k_upd_set (<[k_current K1:=c']>) K1).
  assert (kinv true (Some j) [] K2) as HK2.
  { apply (kinv_in_place true (Some j) [] K1 HK1 _ c c' Hc1); [done..|].
    pose proof (ki_slot _ _ _ _ HK1 _ _ Hc1) as Hok.
    pose proof (running_no_reply _ _ _ _ _ Hok Hr Hctx) as Hrep.
    destruct Hok as [H1 H2 H3 Hlm H4 H5 H6 H7 H8 H9 H10]. split; try done; unfold c'.
    - cbn [p_state set_ctx]. rewrite Hr. done.
    - intros _. left. by rewrite mbox_set_ctx.
    - intros _. by left. }
  assert (k_set K2 !! j = Some np) as Hj2 by (unfold K2; cbn; by rewrite list_lookup_insert_ne).
  pose proof (kinv_start K2 j np c' HK2 Hne Hj2 eq_refl (lookup_upd _ _ _ _ Hc1) Hr ltac:(done)) as HK3.
  unfold proc_to_runqueue. ksteps.
  change (create_post K RStarted (k_set_current j (k_upd_runnable (fun l => l ++ [k_current K2]) K2))).
  split; [|cbn; lia]. split; [done|]. exists np. split; [exact Hj2|done].
Qed.

(** * Page frames *)

Definition with_frame (page f : Z) (p : process) : process :=
  Process (p_pid p) (p_uid p) (p_owner p) (p_state p) (p_mboxes p) (p_server p) (p_alarm_set p) (p_exptime p)
    (p_interruptable p) (<[page:=f]> (p_pages p)) (p_ctx p).

Lemma page_frames_insert page f p :
  0 <= page < VIRT_PAGES -> p_pages p !! page = None ->
  page_frames (with_frame page f p) ≡ₚ f :: page_frames p.
Proof.
  intros Hpage Hnone. unfold page_frames.
  assert (page ∈ seqZ 0 VIRT_PAGES) as Hin by (apply elem_of_seqZ; lia).
  pose proof (NoDup_seqZ 0 VIRT_PAGES) as Hnd.
  apply list_elem_of_split in Hin as (l1 & l2 & E). rewrite E in Hnd |- *.
  apply NoDup_app in Hnd as (_ & Hd & [H2 _]%NoDup_cons).
  assert (forall l : list Z, page ∉ l ->
    omap (fun pg => p_pages (with_frame page f p) !! pg) l = omap (fun pg => p_pages p !! pg) l) as Hsame.
  { intros l. induction l as [|x l IH]; [done|]. intros [Hx Hl]%not_elem_of_cons. cbn.
    rewrite lookup_insert_ne by done. cbn in IH. by rewrite IH. }
  rewrite !omap_app. cbn [omap list_omap]. rewrite !Hsame; [|done|intros H; apply (Hd _ H); by left].
  cbn [p_pages with_frame]. rewrite lookup_insert_eq, Hnone. by rewrite Permutation_middle.
Qed.

Lemma kinv_with_frame K p page f l :
  kinv true None [] K -> k_set K !! k_current K = Some p -> p_state p = PROC_RUNNABLE ->
  0 <= page < VIRT_PAGES -> p_pages p !! page = None -> k_freeframes K = f :: l ->
  kinv true None [] (k_upd_set (<[k_current K:=with_frame page f p]>) (k_upd_freeframes (fun _ => l) K)).
Proof.
  intros HK Hp Hr Hpage Hnone Hf. pose proof (ki_slot _ _ _ _ HK _ _ Hp) as Hok.
  destruct (nprocs_bounds _ _ _ _ HK) as [B1 B2].
  eapply (kinv_one_slot true None None [] [] K _ _ p (with_frame page f p) HK).
  - split; kcbn; try done; try apply HK; unfold with_frame at 1; cbn [p_state].
    + rewrite Z.add_simpl_r, small_u32; [done|lia].
    + rewrite Z.add_simpl_r, small_u32; [done|lia].
    + unfold owned1. rewrite !decide_True by (by left). fold (with_frame page f p).
      rewrite Hf. cbn [app]. etransitivity; [apply Permutation_app_head, page_frames_insert; done|].
      symmetry. apply Permutation_middle.
    + intros _. left. split; [by rewrite Hr|done].
    + intros _. by rewrite Hr.
  - apply (slot_ok_frame true None None K); try done.
    destruct Hok as [H1 H2 H3 Hlm H4 H5 H6 H7 H8 H9 H10]. split; done.
Qed.

(** A page of the running process gets a free frame. *)
Lemma proc_frame_alloc_ok K c page f l :
  running K -> k_set K !! k_current K = Some c -> 0 <= page < VIRT_PAGES -> p_pages c !! page = None -> k_freeframes K = f :: l ->
  wp (proc_frame_alloc page) K (fun _ K' => running K' /\
    K' = k_upd_set (<[k_current K:=with_frame page f c]>) (k_upd_freeframes (fun _ => l) K)).
Proof.
  intros [HK (c' & Hc' & Hr & Hctx)] Hc Hpage Hnone Ef. assert (c' = c) as -> by congruence. clear Hc'.
  pose proof (kinv_with_frame K c page f l HK Hc Hr Hpage Hnone Ef) as HK1.
  unfold proc_frame_alloc. step. apply wp_get. rewrite Ef. ksteps.
  set (K1 := k_upd_set (<[k_current K:=with_frame page f c]>) (k_upd_freeframes (fun _ => l) K)) in *.
  change (running K1 /\ K1 = K1). split; [|done]. split; [done|]. exists (with_frame page f c). split; [by eapply lookup_upd|done].
Qed.

(** A page fault needs a frame that there is not. *)
Definition out_of_frames (page : Z) (K : kernel) : Prop :=
  k_freeframes K = [] /\ 0 <= page < VIRT_PAGES /\ exists c, k_set K !! k_current K = Some c /\ p_pages c !! page = None.

Lemma frame_alloc_exit page K : k_freeframes K = [] -> proc_frame_alloc page K = Exit.
Proof. intros E. unfold proc_frame_alloc, mbind, M_bind, get. by rewrite E. Qed.

(** * The kernel as a whole *)

Inductive kcall : Type :=
| KRecv (t : msg_type) (max_time : Z) (size : nat)
| KSend (dst : Z) (t : msg_type) (contents : list Init.Byte.byte)
| KRpc (pid : Z) (request : list Init.Byte.byte) (repsize : nat)
| KYield
| KKill (killer pid status : Z)
| KCreate (owner uid : Z)
| KExit (status : Z)
| KPage (page : Z)                 (* a page fault, for its frame *)
| KInterruptable (b : bool)        (* user_proc of spawnsvr.c *)
| KShutdown.

Definition set_interruptable (b : bool) (p : process) : process :=
  Process (p_pid p) (p_uid p) (p_owner p) (p_state p) (p_mboxes p) (p_server p) (p_alarm_set p)
    (p_exptime p) b (p_pages p) (p_ctx p).

Definition exec_kcall (fuel : nat) (c : kcall) : M kernel kresult :=
  match c with
  | KRecv t max_time size => sys_recv fuel t max_time size
  | KSend dst t contents => sys_send dst t contents
  | KRpc pid request repsize => sys_rpc fuel pid request repsize
  | KYield => yield_return fuel
  | KKill killer pid status => proc_kill fuel killer pid status
  | KCreate owner uid => proc_create_uid owner uid
  | KExit status => sys_exit fuel status
  | KPage page => proc_fault_frame fuel page
  | KInterruptable b => cur ← current; upd_proc cur (set_interruptable b);; mret RDone
  | KShutdown => proc_shutdown;; mret RDone
  end.

(** Each call is made by whatever process is running then. *)
Fixpoint exec_kcalls (fuel : nat) (cs : list kcall) : M kernel (list kresult) :=
  match cs with
  | [] => mret []
  | c :: cs =>
      r ← exec_kcall fuel c;
      match r with
      | RHalted => mret [RHalted]
      | _ => rs ← exec_kcalls fuel cs; mret (r :: rs)
      end
  end.

Definition kcall_post (K : kernel) (r : kresult) (K' : kernel) : Prop :=
  r = RHalted \/ running K' /\ k_pid_gen K' <= k_pid_gen K + 1.

Lemma call_kcall K r K' : call_post K r K' -> kcall_post K r K'.
Proof. intros [->|[? E]]; [by left|]. right. split; [done|lia]. Qed.

(** The next call is a page fault, and there is no frame for it. *)
Definition kcall_panics (c : kcall) (K : kernel) : Prop := exists page, c = KPage page /\ out_of_frames page K.

Lemma fault_frame_ok fuel page K : running K -> ~ out_of_frames page K -> safe (proc_fault_frame fuel page) K (call_post K).
Proof.
  intros HR Hn. pose proof HR as (HK & p & Hp & Hr & Hc). unfold proc_fault_frame.
  destruct (decide (0 <= page < VIRT_PAGES)) as [Hpage|_]; [|by apply sys_exit_ok]. apply wp_safe. unfold current. ksteps.
  case_eq (p_pages p !! page); [intros f _; step; by right|]. intros Hnone. step.
  destruct (k_freeframes K) as [|f l] eqn:Ef; [destruct Hn; split; [done|split; [done|by exists p]]|].
  eapply wp_mono; [by apply (proc_frame_alloc_ok K p page f l)|]. intros [] K' [HR' ->]. step. by right.
Qed.

Lemma fault_frame_panics fuel page K : out_of_frames page K -> proc_fault_frame fuel page K = Exit.
Proof.
  intros (Hf & Hpage & c & Hc & Hnone). unfold proc_fault_frame. rewrite decide_True by done.
  erewrite mbind_Ret by reflexivity. erewrite (mbind_Ret _ _ _ c K); [|].
  - rewrite Hnone. apply bind_Exit, frame_alloc_exit, Hf.
  - pose proof (wp_get_proc _ _ K (fun a K' => a = c /\ K' = K) Hc (conj eq_refl eq_refl)) as H.
    apply wp_Ret in H as (a & K' & E & -> & ->). exact E.
Qed.

Lemma exec_kcall_ok fuel c K :
  running K -> k_pid_gen K + 1 < two32 -> ~ kcall_panics c K -> safe (exec_kcall fuel c) K (kcall_post K).
Proof.
  intros HR Hg Hnp.
  assert (forall m, safe m K (call_post K) -> safe m K (kcall_post K)) as Hcall
    by (intros m Hm; eapply safe_mono; [exact Hm|apply call_kcall]).
  pose proof HR as (HK & p & Hp & Hr & Hc).
  pose proof (running_no_reply _ _ _ _ _ (ki_slot _ _ _ _ HK _ _ Hp) Hr Hc) as Hrep.
  destruct c; cbn [exec_kcall].
  - by apply Hcall, sys_recv_ok.
  - by apply Hcall, sys_send_ok.
  - by apply Hcall, sys_rpc_ok.
  - apply Hcall, yield_return_ok; [done|]. intros q Hq. right. by assert (q = p) as -> by congruence.
  - by apply Hcall, proc_kill_ok.
  - apply wp_safe. eapply wp_mono; [by apply (proc_create_uid_ok owner uid K HR Hg)|]. intros r K1 [H1 H2]. right. by split.
  - by apply Hcall, sys_exit_ok.
  - apply Hcall, fault_frame_ok; [done|]. intros Hx. apply Hnp. by exists page.
  - eapply (safe_wp_bind _ _ _ (fun a K' => a = k_current K /\ K' = K)); [done|]. intros ? ? [-> ->].
    eapply (safe_wp_bind _ _ _ (fun _ K' => K' = k_upd_set (<[k_current K:=set_interruptable b p]>) K));
      [by eapply wp_upd_proc|]. intros _ ? ->. right. split; [|cbn; lia].
    by apply (kinv_running K p).
  - right. split; [|cbn; lia]. split; [|by exists p].
    eapply kinv_same_set; [exact HK|done..|apply HK| |apply HK|].
    + intros i Hi. apply HK. by left.
    + intros i q _. by apply (slot_ok_frame true None None K).
Qed.

(** Calls that end with the panic: up to some page fault they went well. *)
Definition panics_at (run : list kcall -> M kernel (list kresult)) (cs : list kcall) (K : kernel) : Prop :=
  exists cs1 page cs2 rs K1, cs = cs1 ++ KPage page :: cs2 /\ run cs1 K = Ret (rs, K1) /\ running K1 /\ out_of_frames page K1.

(** What running kernel calls ends in. *)
Definition run_post (run : list kcall -> M kernel (list kresult)) (cs : list kcall) (K : kernel) (Q : list kresult -> kernel -> Prop) : Prop :=
  match run cs K with
  | Ret (rs, K') => Q rs K'
  | Exit => panics_at run cs K
  | Undef => False
  | OutOfFuel => True
  end.

Lemma out_of_frames_dec page K : {out_of_frames page K} + {~ out_of_frames page K}.
Proof.
  unfold out_of_frames. destruct (k_freeframes K) eqn:E; [|right; by intros [? _]].
  destruct (decide (0 <= page < VIRT_PAGES)); [|right; by intros (_ & ? & _)].
  destruct (k_set K !! k_current K) as [c|]; [|right; by intros (_ & _ & c & ? & _)].
  destruct (p_pages c !! page) eqn:Ep; [right; intros (_ & _ & ? & [= <-] & ?); congruence|left; split; [done|split; [done|by exists c]]].
Qed.

Lemma kcall_panics_dec c K : {kcall_panics c K} + {~ kcall_panics c K}.
Proof.
  destruct c as [| | | | | | |page| |]; try (right; by intros (? & ? & _)).
  destruct (out_of_frames_dec page K) as [H|H]; [left; by exists page|right; by intros (? & [= <-] & ?)].
Qed.

Lemma exec_kcalls_cons fuel c cs r K K1 : exec_kcall fuel c K = Ret (r, K1) -> r <> RHalted ->
  exec_kcalls fuel (c :: cs) K = match exec_kcalls fuel cs K1 with Ret (rs, K2) => Ret (r :: rs, K2) | Exit => Exit | Undef => Undef | OutOfFuel => OutOfFuel end.
Proof.
  intros E Hr. cbn [exec_kcalls]. erewrite mbind_Ret by exact E. unfold mbind, M_bind, mret, M_ret.
  destruct r; [done|..]; by destruct (exec_kcalls fuel cs K1) as [[rs K2]| | |].
Qed.

Lemma exec_kcalls_ok fuel cs : forall K,
  running K -> k_pid_gen K + Z.of_nat (length cs) < two32 ->
  run_post (exec_kcalls fuel) cs K (fun rs K' => RHalted ∈ rs \/ running K').
Proof.
  induction cs as [|c cs IH]; intros K HR Hg; [by right|]. cbn [length] in Hg.
  destruct (kcall_panics_dec c K) as [(page & -> & Hpan)|Hn].
  { unfold run_post. cbn [exec_kcalls exec_kcall]. rewrite bind_Exit by (by apply fault_frame_panics).
    exists [], page, cs, [], K. by split_and!. }
  pose proof (exec_kcall_ok fuel c K HR ltac:(lia) Hn) as H. unfold safe in H.
  destruct (exec_kcall fuel c K) as [[r K1]| | |] eqn:E; [|done|done|].
  2:{ unfold run_post. cbn [exec_kcalls]. unfold mbind, M_bind. by rewrite E. }
  assert ({r = RHalted} + {r <> RHalted}) as [->|Hr] by (destruct r; by (left + right)).
  { unfold run_post. cbn [exec_kcalls]. erewrite mbind_Ret by exact E. left. by left. }
  destruct H as [->|[HR1 Eg]]; [done|]. specialize (IH K1 HR1 ltac:(lia)). unfold run_post in *.
  rewrite (exec_kcalls_cons fuel c cs r K K1 E Hr). destruct (exec_kcalls fuel cs K1) as [[rs K2]| | |]; [|..|done].
  - destruct IH as [Hin|?]; [left; by right|by right].
  - destruct IH as (cs1 & page & cs2 & rs & K2 & -> & E1 & HR2 & Ho). exists (c :: cs1), page, cs2, (r :: rs), K2.
    split_and!; try done. by rewrite (exec_kcalls_cons fuel c cs1 r K K1 E Hr), E1.
  - done.
Qed.

(** ** Booting *)

Definition boot_set : list process :=
  new_process 1 1 0 :: (free_process <$> seqZ 1 (Z.of_nat MAX_PROCS - 1)).

Lemma boot_slot i p : boot_set !! i = Some p ->
  i = 0%nat /\ p = new_process 1 1 0 \/ (1 <= i < MAX_PROCS)%nat /\ p = free_process (Z.of_nat i).
Proof.
  intros H. destruct i as [|i]; [left; by injection H as <-|right].
  unfold boot_set in H. cbn [lookup list_lookup] in H. apply list_lookup_fmap_Some in H as (z & -> & Hz).
  apply lookup_seqZ in Hz as [-> Hlt]. unfold MAX_PROCS in *. split; [lia|f_equal; lia].
Qed.

Lemma boot_kernel script K0 :
  wp (proc_initialize script) K0 (fun _ K =>
    K = Kernel boot_set [] (seq 1 (MAX_PROCS - 1)) (seqZ 0 PHYS_FRAMES) 1 1 0 2 false 0 0 script).
Proof. reflexivity. Qed.

Lemma boot_running script K0 :
  wp (proc_initialize script) K0 (fun _ K => running K /\ k_pid_gen K = 2).
Proof.
  wp_use (boot_kernel script K0) as ->. split; [|done].
  split; [|by exists (new_process 1 1 0)]. split; kcbn.
  - reflexivity.
  - by exists (new_process 1 1 0).
  - apply NoDup_nil_2.
  - apply NoDup_seq.
  - intros i [H|H]; [by apply elem_of_nil in H|]. apply elem_of_seq in H. unfold MAX_PROCS in *. lia.
  - intros i p Hi. apply boot_slot in Hi as [[-> ->]|[Hi ->]].
    + split; kcbn; try done.
      * rewrite elem_of_seq. split; [lia|done].
      * intros H. by apply elem_of_nil in H.
      * by left.
      * intros _ []; reflexivity.
      * intros _. by left.
      * intros _. right. by left.
    + split; kcbn; try done.
      * rewrite elem_of_seq. unfold MAX_PROCS in *. split; [done|lia].
      * intros H. by apply elem_of_nil in H.
      * by intros [?|?].
      * by intros [?|?].
  - intros i j p q Hi Hj Hp Hq _.
    apply boot_slot in Hi as [[-> ->]|[_ ->]]; [|by destruct Hp].
    apply boot_slot in Hj as [[-> ->]|[_ ->]]; [done|by destruct Hq].
  - vm_compute. reflexivity.
  - vm_compute. reflexivity.
  - replace (owned boot_set) with (@nil Z) by (vm_compute; reflexivity). by rewrite app_nil_r.
  - done.
Qed.
