(* ===== verification/ProcessProps.v ===== *)
(** What the processes of [Process] can rely on: the kernel does not fail, the
    scheduler is round robin, clients survive the death of their server, only
    the owner or root can kill, and a frame has one owner. *)
From stdpp Require Import base numbers list gmap.
From Stdlib Require Import ZArith Lia Permutation.
From S2P Require Import Prelude Process ProcessInv ProcessSched.

(** * The scheduler when nothing happens *)

(** No shutdown and no alarm. *)
Definition quiet (K : kernel) : Prop :=
  k_shutting_down K = false /\ k_curfew K = 0 /\
  forall i p, k_set K !! i = Some p -> p_state p = PROC_WAITING -> p_alarm_set p = false.

Lemma check_alarms_quiet n now : forall i next K,
  length (k_set K) = MAX_PROCS -> (n + i = MAX_PROCS)%nat -> quiet K ->
  wp (check_alarms n i now next) K (fun r K' => r = next /\ K' = K).
Proof.
  induction n as [|n IH]; intros i next K Hlen Hn HQ; cbn [check_alarms]; [by ksteps|].
  destruct (lookup_lt_is_Some_2 (k_set K) i) as [p Hi]; [lia|].
  pose proof HQ as (Hsd & _ & Hal). ksteps.
  rewrite (decide_False (P := k_shutting_down K = true /\ _)) by (rewrite Hsd; by intros [? _]).
  rewrite (decide_False (P := p_state p = PROC_WAITING /\ _))
    by (intros [Hw Ha]; by rewrite (Hal i p Hi Hw) in Ha).
  ksteps. apply IH; [done|lia|done].
Qed.

(** The kernel after a switch from the current process to the head of the run
    queue, with [script] still to come. *)
Definition switched (K : kernel) (clock : Z) (script : list (Z * list irq)) (i : nat) (q : list nat) : kernel :=
  Kernel (k_set K) q (k_free K) (k_freeframes K) (k_nprocs K) (k_nrunnable K) i (k_pid_gen K)
    (k_shutting_down K) (k_curfew K) clock script.

Lemma proc_yield_S fuel : proc_yield (S fuel) =
  (y ← suspend (proc_yield fuel) 0;
   match y with
   | Some y => mret y
   | None =>
       K ← get;
       assert_ (bool_decide (k_nprocs K > 0));;
       find_process (proc_yield fuel) fuel
   end).
Proof. reflexivity. Qed.

Lemma yield_switches fuel K dt script i q p c :
  kinv false None [] K -> quiet K -> k_script K = (dt, []) :: script ->
  k_runnable K = i :: q -> k_set K !! i = Some p -> p_state p = PROC_RUNNABLE ->
  k_set K !! k_current K = Some c -> p_state c <> PROC_ZOMBIE ->
  wp (proc_yield (S (S fuel))) K (fun y K' => y = YGo /\
    K' = switched K (u64 (k_clock K + dt)) script i
           (q ++ if decide (p_state c = PROC_RUNNABLE) then [k_current K] else [])).
Proof.
  intros HK HQ Hsc Hq Hi Hr Hc Hz. pose proof HQ as (Hsd & Hcf & Hal).
  pose proof (nprocs_pos _ _ _ _ i p HK Hi ltac:(by rewrite Hr)) as Hnp.
  assert (i <> k_current K) as Hne.
  { apply (so_queue _ _ _ _ _ (ki_slot _ _ _ _ HK i p Hi)). rewrite Hq. by left. }
  assert (p_pid p <> p_pid c) as Hpid.
  { intros E. apply Hne. eapply (ki_pids _ _ _ _ HK); [exact Hi|exact Hc|by rewrite Hr| |done].
    destruct (ki_cur _ _ _ _ HK) as (c' & Hc' & ?). by assert (c' = c) as -> by congruence. }
  rewrite proc_yield_S. generalize (proc_yield (S fuel)) as y. intros y.
  unfold suspend at 1. step. step. apply wp_get. rewrite Hsc. cbn [deliver_all].
  set (K1 := k_set_earth (u64 (k_clock K + dt)) script K). steps.
  eapply wp_assert; [by apply bool_decide_eq_true_2; cbn; lia|]. cbn [find_process]. steps.
  unfold sys_gettime. steps.
  rewrite (decide_False (P := k_curfew K1 <> 0 /\ _)) by (unfold K1; kcbn; by intros [? _]). step.
  eapply wp_mono; [apply check_alarms_quiet; [apply (ki_len _ _ _ _ HK)|lia|exact HQ]|].
  intros r ? [-> ->]. assert (k_runnable K1 = i :: q) as Hq1 by exact Hq. steps. fold K1. rewrite Hq1.
  cbn [length next_runnable]. steps. rewrite Hq1. steps. eapply wp_get_proc; [exact Hi|]. rewrite (decide_True (P := p_state p = _)) by done.
  steps. eapply wp_assert; [by apply bool_decide_eq_true_2; cbn; lia|].
  unfold switch_to, proc_after_switch, proc_to_runqueue, current. ksteps.
  destruct (decide (p_state c = PROC_RUNNABLE)) as [Hrun|Hrun]; ksteps;
    rewrite (decide_False (P := p_state c = PROC_ZOMBIE)) by done; ksteps; split; try done;
    unfold switched, k_set_current, k_upd_runnable; kcbn; by rewrite ?app_nil_r.
Qed.

Lemma wp_safe_and {S A} (m : M S A) s (Q R : A -> S -> Prop) :
  wp m s Q -> safe m s R -> wp m s (fun a s' => Q a s' /\ R a s').
Proof. unfold wp, safe. destruct (m s) as [[a s']| | |]; tauto. Qed.

(** A process that called [proc_yield], or that has created another process. *)
Definition paused (p : process) : Prop :=
  p_state p = PROC_RUNNABLE /\ (p_ctx p = Some CReturn \/ exists pid, p_ctx p = Some (CCreated pid)).

Definition all_paused (K : kernel) (q : list nat) : Prop :=
  forall i, i ∈ q -> exists p, k_set K !! i = Some p /\ paused p.

Lemma quiet_insert K K' i p :
  quiet K -> k_set K' = <[i:=p]> (k_set K) -> p_state p = PROC_RUNNABLE ->
  k_shutting_down K' = k_shutting_down K -> k_curfew K' = k_curfew K -> quiet K'.
Proof.
  intros (Q1 & Q2 & Q3) Es Hr E1 E2. unfold quiet. rewrite Es, E1, E2. split_and!; [done..|].
  intros j r Hj. apply list_lookup_insert_Some in Hj as [(_ & <- & _)|[_ Hj]]; [by rewrite Hr|by apply (Q3 j)].
Qed.

(** One yield in a quiet kernel. *)
Lemma kyield_step fuel K dt script i q :
  running K -> quiet K -> k_script K = (dt, []) :: script -> k_runnable K = i :: q ->
  all_paused K (i :: q) -> k_pid_gen K + 1 < two32 ->
  wp (exec_kcall (S (S fuel)) KYield) K (fun r K' =>
    r <> RHalted /\ running K' /\ quiet K' /\ k_script K' = script /\ k_current K' = i /\
    k_runnable K' = q ++ [k_current K] /\ all_paused K' (q ++ [k_current K]) /\ k_pid_gen K' = k_pid_gen K).
Proof.
  intros HR HQ Hsc Hq Hp Hg. pose proof (exec_kcall_ok (S (S fuel)) KYield K HR Hg ltac:(by intros (? & ? & _))) as Hsafe.
  pose proof HR as (HK & c & Hc & Hr & Hctx). cbn [exec_kcall] in *.
  destruct (Hp i) as (p & Hi & Hpr & Hpc); [by left|].
  assert (i <> k_current K) as Hne.
  { apply (so_queue _ _ _ _ _ (ki_slot _ _ _ _ HK i p Hi)). rewrite Hq. by left. }
  assert (NoDup (i :: q)) as Hnd by (rewrite <- Hq; apply HK).
  apply NoDup_cons in Hnd as [Hiq _].
  set (c1 := set_ctx (Some CReturn) c). set (K1 := k_upd_set (<[k_current K:=c1]>) K).
  assert (kinv false None [] K1) as HK1 by (apply kinv_yielding; auto).
  assert (k_set K1 !! i = Some p) as Hi1 by (unfold K1; kcbn; by rewrite list_lookup_insert_ne).
  assert (k_set K1 !! k_current K1 = Some c1) as Hc1 by (unfold K1; kcbn; by eapply lookup_upd).
  assert (quiet K1) as HQ1 by (by apply (quiet_insert K K1 (k_current K) c1)).
  set (K2 := k_upd_set (<[i:=set_ctx None p]>)
               (switched K1 (u64 (k_clock K + dt)) script i (q ++ [k_current K]))).
  assert (wp (yield_return (S (S fuel))) K (fun r K' => r <> RHalted /\ K' = K2)) as Hwp.
  { unfold yield_return, yield_resume. unfold current at 1. ksteps.
    wp_use (yield_switches fuel K1 dt script i q p c1 HK1 HQ1 Hsc Hq Hi1 Hpr Hc1 ltac:(by cbn; rewrite Hr)) as [-> ->].
    unfold resume, current. steps. eapply wp_get_proc; [exact Hi1|]. rewrite decide_True by exact Hr.
    destruct Hpc as [-> |[pid ->]]; step; (eapply wp_upd_proc; [exact Hi1|]); by step. }
  eapply wp_mono; [apply (wp_safe_and _ _ _ _ Hwp Hsafe)|].
  intros r K' [[Hrn ->] [->|[HR' _]]]; [done|]. split_and!; try done.
  - by apply (quiet_insert K1 K2 i (set_ctx None p)).
  - intros j [Hj|Hj%list_elem_of_singleton]%elem_of_app.
    + destruct (Hp j) as (r' & Hr' & Hpa); [by right|]. exists r'. split; [|done].
      assert (j <> k_current K).
      { apply (so_queue _ _ _ _ _ (ki_slot _ _ _ _ HK j r' Hr')). rewrite Hq. by right. }
      unfold K2, K1, switched. cbn [k_set k_upd_set].
      rewrite list_lookup_insert_ne by (by intros ->). by rewrite list_lookup_insert_ne.
    + subst j. exists c1. unfold K2, switched. cbn [k_set k_upd_set]. rewrite list_lookup_insert_ne by done. split; [done|].
      split; [done|]. by left.
Qed.

(** C22. The scheduler is round robin, so nobody starves: when every process
    that is ready yields as soon as it runs, and nothing else happens, the
    current process and the run queue after [n] yields are those before them,
    rotated by [n] places. *)
Theorem round_robin fuel n : forall K,
  running K -> quiet K -> all_paused K (k_runnable K) -> k_pid_gen K + 1 < two32 ->
  (n <= length (k_runnable K))%nat -> (n <= length (k_script K))%nat ->
  Forall (fun batch => batch.2 = []) (take n (k_script K)) ->
  let order := k_current K :: k_runnable K in
  wp (exec_kcalls (S (S fuel)) (replicate n KYield)) K (fun rs K' =>
    length rs = n /\ running K' /\ k_current K' :: k_runnable K' = drop n order ++ take n order).
Proof.
  induction n as [|n IH]; intros K HR HQ Hp Hg Hn Hs Hsc; cbn [replicate exec_kcalls].
  { step. rewrite take_0, drop_0. by rewrite app_nil_r. }
  destruct (k_runnable K) as [|i q] eqn:Eq; [cbn in Hn; lia|].
  destruct (k_script K) as [|[dt irqs] script] eqn:Es; [cbn in Hs; lia|].
  cbn [take] in Hsc. apply Forall_cons in Hsc as [Hirq Hsc]. cbn in Hirq. subst irqs. cbn [length] in Hn, Hs.
  step. eapply wp_mono; [by apply (kyield_step fuel K dt script i q)|].
  intros r K1 (Hr & HR1 & HQ1 & Es1 & Ec1 & Er1 & Hp1 & Eg1).
  assert (wp (exec_kcalls (S (S fuel)) (replicate n KYield)) K1 (fun rs K' =>
    length rs = n /\ running K' /\ k_current K' :: k_runnable K' =
      drop n ((i :: q) ++ [k_current K]) ++ take n ((i :: q) ++ [k_current K]))) as H.
  { eapply wp_mono; [apply (IH K1)|].
    - done.
    - done.
    - by rewrite Er1.
    - by rewrite Eg1.
    - rewrite Er1, length_app. cbn. lia.
    - rewrite Es1. lia.
    - by rewrite Es1.
    - intros rs K2 (H1 & H2 & H3). rewrite Er1, Ec1 in H3. done. }
  rewrite drop_app_le, take_app_le in H by (cbn; lia).
  assert (wp (rs ← exec_kcalls (S (S fuel)) (replicate n KYield); mret (r :: rs)) K1 (fun rs K' =>
    length rs = S n /\ running K' /\ k_current K' :: k_runnable K' =
      drop n (i :: q) ++ k_current K :: take n (i :: q))) as H'.
  { step. eapply wp_mono; [exact H|]. intros rs K2 (H1 & H2 & H3). step. cbn [length].
    split; [by f_equal|]. split; [done|]. rewrite H3. by rewrite <- app_assoc. }
  destruct r; [done|exact H'..].
Qed.

(** * The kernel as a whole *)

(** Boot, then any kernel calls. *)
Definition boot_and_run (script : list (Z * list irq)) (fuel : nat) (cs : list kcall) : M kernel (list kresult) :=
  proc_initialize script;; exec_kcalls fuel cs.

Lemma boot_and_run_eq script fuel K0 : exists K, running K /\ k_pid_gen K = 2 /\
  forall cs, boot_and_run script fuel cs K0 = exec_kcalls fuel cs K.
Proof.
  pose proof (boot_running script K0) as H. apply wp_Ret in H as ([] & K & E & HR & Hg). exists K. split_and!; [done..|].
  intros cs'. unfold boot_and_run. by erewrite mbind_Ret by exact E.
Qed.

Lemma boot_and_run_ok script fuel cs K0 :
  Z.of_nat (length cs) + 2 < two32 ->
  run_post (boot_and_run script fuel) cs K0 (fun rs K => RHalted ∈ rs \/ running K).
Proof.
  intros Hn. destruct (boot_and_run_eq script fuel K0) as (K & HR & Hg & E).
  pose proof (exec_kcalls_ok fuel cs K HR ltac:(lia)) as H. unfold run_post in *. rewrite E.
  destruct (exec_kcalls fuel cs K) as [[rs K']| | |]; try done.
  destruct H as (cs1 & page & cs2 & rs & K1 & -> & E1 & H). exists cs1, page, cs2, rs, K1. by rewrite E.
Qed.

(** The state after some calls, when none of them halted the machine. *)
Definition state_after {A} (d : kernel) (o : outcome (A * kernel)) : kernel :=
  match o with Ret (_, K) => K | _ => d end.

Definition not_halted (o : outcome (list kresult * kernel)) : bool :=
  match o with
  | Ret (rs, _) => forallb (fun r => match r with RHalted => false | _ => true end) rs
  | _ => false
  end.

Lemma reached_running script fuel cs K0 d :
  not_halted (boot_and_run script fuel cs K0) = true -> Z.of_nat (length cs) + 2 < two32 ->
  running (state_after d (boot_and_run script fuel cs K0)).
Proof.
  intros Hh Hn. pose proof (boot_and_run_ok script fuel cs K0 Hn) as H. unfold run_post in H.
  destruct (boot_and_run script fuel cs K0) as [[rs K]| | |]; try done.
  destruct H as [Hin|]; [|done]. exfalso. cbn in Hh. rewrite forallb_forall in Hh.
  apply list_elem_of_In in Hin. by specialize (Hh _ Hin).
Qed.

(** C21. After booting, whatever calls the processes make of sys_recv, sys_send, sys_rpc,
    proc_yield, proc_kill, proc_create_uid, sys_exit and proc_shutdown, whatever pages they fault
    in, and whatever messages and <ctrl>C arrive as interrupts, these functions and the
    scheduler fail no assertion and look up no process outside [proc_set], and the table of
    processes, the queues, the counters, the message queues and the page frames stay
    consistent. The one way to end the kernel but by halting it is the panic for a page
    that needs a frame when none is free. *)
Theorem kernel_safe script fuel cs K0 :
  Z.of_nat (length cs) + 2 < two32 ->
  match boot_and_run script fuel cs K0 with
  | Ret (rs, K) =>
      RHalted ∈ rs \/
      running K /\ NoDup (k_runnable K) /\
      k_nprocs K = count (fun p => p_state p <> PROC_FREE) (k_set K) /\
      k_nrunnable K = count (fun p => p_state p = PROC_RUNNABLE) (k_set K) /\
      k_freeframes K ++ owned (k_set K) ≡ₚ seqZ 0 PHYS_FRAMES
  | Exit => exists cs1 page cs2 rs K, cs = cs1 ++ KPage page :: cs2 /\ boot_and_run script fuel cs1 K0 = Ret (rs, K) /\
      running K /\ k_freeframes K = []
  | Undef => False
  | OutOfFuel => True
  end.
Proof.
  intros Hn. pose proof (boot_and_run_ok script fuel cs K0 Hn) as H. unfold run_post in H.
  destruct (boot_and_run script fuel cs K0) as [[rs K]| | |]; try done.
  - destruct H as [?|HR]; [by left|right]. split; [done|]. destruct HR as [HK _].
    split; [|split; [|split]]; [apply HK..|]. exact (ki_frames _ _ _ _ HK).
  - destruct H as (cs1 & page & cs2 & rs & K & E1 & E2 & HR & [Hf _]). by exists cs1, page, cs2, rs, K.
Qed.

(** C29. A server that dies does not leave its clients hanging: every process
    that waits for a reply of it is made runnable and queued to run, and
    afterwards no process waits for it any more. *)
Theorem server_death_wakes_clients K i s status :
  kinv true None [] K -> k_set K !! i = Some s -> live s ->
  wp (proc_term i status) K (fun _ K' =>
    (forall j q, j <> i -> k_set K !! j = Some q -> rpc_waits (p_pid s) q ->
       exists q', k_set K' !! j = Some q' /\ p_state q' = PROC_RUNNABLE /\
         (j = k_current K' \/ j ∈ k_runnable K')) /\
    (forall j q, k_set K' !! j = Some q -> ~ rpc_waits (p_pid s) q)).
Proof.
  intros HK Hi Hl. eapply wp_mono; [by eapply proc_term_ok|]. intros _ K' (HK' & Hd & z & Hz & Hzs).
  assert (forall j q, j <> i -> k_set K !! j = Some q -> rpc_waits (p_pid s) q ->
       exists q', k_set K' !! j = Some q' /\ p_state q' = PROC_RUNNABLE) as Hcl
    by (intros j q; by apply (kd_clients _ _ _ Hd s)).
  split; intros j q.
  - intros Hne Hj Hw. destruct (Hcl j q Hne Hj Hw) as (q' & Hq' & Hr). exists q'. split; [done|].
    split; [done|]. destruct (so_sched _ _ _ _ _ (ki_slot _ _ _ _ HK' j q' Hq')) as [?|[?|E]]; [by left|by left|by right|].
    unfold limbo in E. destruct (decide _); [|done]. congruence.
  - intros Hj Hw. destruct (decide (j = i)) as [->|Hne].
    { assert (q = z) as -> by congruence. destruct Hw as [? _]. congruence. }
    destruct (slot_exists _ _ _ _ j HK) as [q0 Hq0].
    { rewrite <- (ki_len _ _ _ _ HK'). by eapply lookup_lt_Some. }
    destruct (kd_slot _ _ _ Hd j q0 Hne Hq0) as (q' & Hq' & E). assert (q' = q) as -> by congruence.
    assert (rpc_waits (p_pid s) q0) as Hw0 by (by eapply (rpc_waits_before _ _ _ K _ _ _ K' j j)).
    destruct (Hcl j q0 Hne Hq0 Hw0) as (q' & Hq2 & Hr). destruct Hw as [? _]. congruence.
Qed.

(** * Killing needs permission *)

Lemma proc_find_slot b x L K i p :
  kinv b x L K -> k_set K !! i = Some p -> p_state p <> PROC_FREE ->
  wp (proc_find (p_pid p)) K (fun o K' => o = Some i /\ K' = K).
Proof.
  intros HK Hi Hs. unfold proc_find. steps. split; [|done].
  destruct (list_find (is_proc (p_pid p)) (k_set K)) as [[j q]|] eqn:E.
  - apply list_find_Some in E as (Hj & [Hqs Hpid] & _). cbn. f_equal.
    by eapply (ki_pids _ _ _ _ HK).
  - apply list_find_None in E. rewrite Forall_lookup in E. by destruct (E i p Hi).
Qed.

(** C31. A process that is not root cannot kill the processes of other users:
    the call does nothing at all. *)
Theorem kill_needs_permission fuel K c i v status :
  running K -> k_set K !! k_current K = Some c -> p_uid c <> 0 ->
  k_set K !! i = Some v -> live v -> p_uid v <> p_uid c ->
  wp (proc_kill fuel (p_pid c) (p_pid v) status) K (fun r K' => r = RDone /\ K' = K).
Proof.
  intros [HK (c' & Hc' & Hr & _)] Hc Hroot Hi Hl Huid. assert (c' = c) as -> by congruence. clear Hc'.
  assert (p_state v <> PROC_FREE /\ p_state v <> PROC_ZOMBIE) as [Hvf Hvz]
    by (split; destruct Hl as [E|E]; by rewrite E).
  assert (p_pid v <> 0) as Hpid by (pose proof (so_pid _ _ _ _ _ (ki_slot _ _ _ _ HK i v Hi) Hvf); lia).
  unfold proc_kill. step. wp_use (proc_find_slot _ _ _ K _ c HK Hc ltac:(by rewrite Hr)) as [-> ->].
  rewrite decide_False by done. step. wp_use (proc_find_slot _ _ _ K i v HK Hi Hvf) as [-> ->].
  unfold proc_zap. ksteps. rewrite bool_decide_eq_false_2 by (by intros [?|?]). cbn [negb]. ksteps.
  by rewrite decide_False.
Qed.

(** * Page frames *)

(** No two living processes share a frame, and no free frame is in use. *)
Lemma frames_disjoint b x K i j p q f :
  kinv b x [] K -> k_set K !! i = Some p -> k_set K !! j = Some q -> i <> j -> live p -> live q ->
  f ∈ page_frames p -> f ∉ page_frames q.
Proof.
  intros HK Hi Hj Hne Hp Hq Hfp Hfq.
  assert (NoDup (owned (k_set K))) as Hnd.
  { pose proof (ki_frames _ _ _ _ HK) as HP. cbn in HP. apply Permutation_sym in HP.
    eapply NoDup_app. rewrite <- HP. apply NoDup_seqZ. }
  assert (owned1 p = page_frames p /\ owned1 q = page_frames q) as [Ep Eq]
    by (unfold owned1; by rewrite !decide_True).
  rewrite <- Ep in Hfp. rewrite <- Eq in Hfq.
  clear -Hi Hj Hne Hnd Hfp Hfq. revert i j Hi Hj Hne. generalize (k_set K), Hnd. clear Hnd.
  induction l as [|r l IH]; intros Hnd i j Hi Hj Hne; [done|].
  assert (forall k y, l !! k = Some y -> f ∈ owned1 y -> f ∈ owned l) as Hin.
  { intros k y Hk Hy. unfold owned. apply list_elem_of_bind. exists y. split; [done|]. by eapply list_elem_of_lookup_2. }
  unfold owned in Hnd. rewrite bind_cons in Hnd. apply NoDup_app in Hnd as (_ & Hd & Hnd).
  destruct i as [|i], j as [|j]; [done|..].
  - injection Hi as ->. by apply (Hd f Hfp), (Hin j q).
  - injection Hj as ->. by apply (Hd f Hfq), (Hin i p).
  - by apply (IH Hnd i j); [..|congruence].
Qed.

(** A page of the running process gets a frame that no other living process
    has, and the kernel's books stay in order; the kernel panics when there is no
    free frame. *)
Lemma frame_alloc_exclusive K c page :
  running K -> k_set K !! k_current K = Some c -> 0 <= page < VIRT_PAGES -> p_pages c !! page = None ->
  match k_freeframes K with
  | [] => proc_frame_alloc page K = Exit
  | f :: _ =>
      wp (proc_frame_alloc page) K (fun _ K' => running K' /\
        (exists c', k_set K' !! k_current K' = Some c' /\ p_pages c' = <[page:=f]> (p_pages c)) /\
        forall j q, j <> k_current K' -> k_set K' !! j = Some q -> live q -> f ∉ page_frames q)
  end.
Proof.
  intros HR Hc Hpage Hnone. destruct (k_freeframes K) as [|f l] eqn:Ef; [by apply frame_alloc_exit|].
  wp_use (proc_frame_alloc_ok K c page f l HR Hc Hpage Hnone Ef) as [HR1 ->].
  set (K1 := k_upd_set _ _) in *. assert (k_set K1 !! k_current K1 = Some (with_frame page f c)) as Hc1 by (by eapply lookup_upd).
  split; [done|]. split; [by exists (with_frame page f c)|]. intros j q Hne Hj Hq. destruct HR1 as (HK1 & p1 & Hp1 & Hr1 & _).
  eapply (frames_disjoint _ _ K1 _ j); [exact HK1|exact Hc1|exact Hj|done|left; congruence|done|].
  apply (elem_of_Permutation_proper f _ _ (page_frames_insert page f c Hpage Hnone)). by left.
Qed.

(** * Witnesses *)

Definition no_kernel : kernel := Kernel [] [] [] [] 0 0 0 0 false 0 0 [].

Definition quiet_script : list (Z * list irq) := replicate 6 (1, []).

(** The kernel after booting and some calls. *)
Definition demo (cs : list kcall) : kernel :=
  state_after no_kernel (boot_and_run quiet_script 3 cs no_kernel).

Lemma demo_running cs :
  not_halted (boot_and_run quiet_script 3 cs no_kernel) = true -> Z.of_nat (length cs) + 2 < two32 ->
  running (demo cs).
Proof. apply reached_running. Qed.

Lemma quiet_check K :
  negb (k_shutting_down K) && (k_curfew K =? 0) &&
    forallb (fun p => negb (bool_decide (p_state p = PROC_WAITING) && p_alarm_set p)) (k_set K) = true ->
  quiet K.
Proof.
  intros [[H1 H2]%andb_true_iff H3]%andb_true_iff. split; [by destruct (k_shutting_down K)|].
  split; [by apply Z.eqb_eq|]. intros i p Hi Hw. rewrite forallb_forall in H3.
  apply list_elem_of_lookup_2, list_elem_of_In in Hi. specialize (H3 p Hi).
  rewrite bool_decide_eq_true_2 in H3 by done. by destruct (p_alarm_set p).
Qed.

(** Three processes: the first one boots and creates the second, which creates
    the third. *)
Definition demo3 : kernel := demo [KCreate 1 0; KCreate 1 0].

Lemma demo3_running : running demo3.
Proof. apply demo_running; [vm_compute; reflexivity|vm_compute; reflexivity]. Qed.

Lemma round_robin_witness :
  k_current demo3 :: k_runnable demo3 = [2; 0; 1]%nat /\
  wp (exec_kcalls 2 (replicate 2 KYield)) demo3 (fun rs K' =>
    length rs = 2%nat /\ running K' /\ k_current K' :: k_runnable K' = [1; 2; 0]%nat).
Proof.
  assert (k_current demo3 :: k_runnable demo3 = [2; 0; 1]%nat) as E by (vm_compute; reflexivity).
  split; [exact E|]. pose proof (round_robin 0 2 demo3) as H. cbv zeta in H. rewrite E in H.
  apply H.
  - exact demo3_running.
  - apply quiet_check. vm_compute. reflexivity.
  - assert (k_runnable demo3 = [0; 1]%nat) as Eq by (vm_compute; reflexivity). rewrite Eq. intros i Hi.
    assert (i = 0%nat \/ i = 1%nat) as [E0|E0]; [clear -Hi; apply elem_of_cons in Hi as [Hi|Hi]; [by left|]; apply list_elem_of_singleton in Hi; by right|rewrite E0..].
    + eexists. split; [vm_compute; reflexivity|]. split; [reflexivity|right; eexists; reflexivity].
    + eexists. split; [vm_compute; reflexivity|]. split; [reflexivity|right; eexists; reflexivity].
  - vm_compute. reflexivity.
  - vm_compute. lia.
  - vm_compute. lia.
  - vm_compute. repeat constructor.
Defined.

(** The first process makes another, which faults in two pages and is killed. *)
Definition wit_calls : list kcall := [KCreate 1 0; KPage 0; KPage 4095; KYield; KKill 1 2 0; KPage 5; KSend 9 MSG_REQUEST []].

Lemma wit_calls_run : match boot_and_run quiet_script 3 wit_calls no_kernel with
  | Ret (rs, K) => not_halted (Ret (rs, K)) && (length (k_freeframes K) =? 1023)%nat
  | _ => false
  end = true.
Proof. vm_compute. reflexivity. Qed.

Lemma kernel_safe_witness : exists rs K,
  boot_and_run quiet_script 3 wit_calls no_kernel = Ret (rs, K) /\ running K /\ length (k_freeframes K) = 1023%nat /\
  k_freeframes K ++ owned (k_set K) ≡ₚ seqZ 0 PHYS_FRAMES.
Proof.
  pose proof (kernel_safe quiet_script 3 wit_calls no_kernel ltac:(reflexivity)) as H. pose proof wit_calls_run as C.
  revert H C. generalize (boot_and_run quiet_script 3 wit_calls no_kernel). intros [[rs K]| | |]; [|done..].
  intros H [Hh Hl]%andb_true_iff. exists rs, K. split; [reflexivity|]. destruct H as [H|(H1 & _ & _ & _ & H2)].
  - exfalso. cbn in Hh. rewrite forallb_forall in Hh. apply list_elem_of_In in H. by specialize (Hh _ H).
  - split; [exact H1|]. split; [|exact H2]. by apply Nat.eqb_eq.
Defined.

(** A client (the first process) calls the second, which then dies. *)
Definition demo_rpc : kernel := demo [KCreate 1 0; KYield; KRpc 2 [] 0].

Lemma demo_rpc_running : running demo_rpc.
Proof. apply demo_running; [vm_compute; reflexivity|vm_compute; reflexivity]. Qed.

Lemma server_death_wakes_clients_witness : exists c,
  k_set demo_rpc !! 0%nat = Some c /\ rpc_waits 2 c /\
  wp (proc_term 1 0) demo_rpc (fun _ K' =>
    exists q', k_set K' !! 0%nat = Some q' /\ p_state q' = PROC_RUNNABLE /\
         (0%nat = k_current K' \/ 0%nat ∈ k_runnable K')).
Proof.
  assert (exists c, k_set demo_rpc !! 0%nat = Some c /\ rpc_waits 2 c) as (c & Hc & Hw)
    by (eexists; split; [vm_compute; reflexivity|repeat split]).
  assert (exists s, k_set demo_rpc !! 1%nat = Some s /\ live s /\ p_pid s = 2) as (s & Hs & Hl & Hpid)
    by (eexists; split; [vm_compute; reflexivity|split; [by left|reflexivity]]).
  exists c. split; [exact Hc|]. split; [exact Hw|].
  eapply wp_mono; [apply (server_death_wakes_clients demo_rpc 1 s 0 (proj1 demo_rpc_running) Hs Hl)|].
  intros ? K' [H _]. apply (H 0%nat c); [lia|exact Hc|by rewrite Hpid].
Defined.

(** A process of user 5 creates another of the same user, which has no right to kill
    the first process. *)
Definition demo_users : kernel := demo [KCreate 1 5].

Lemma kill_needs_permission_witness : exists c v,
  k_set demo_users !! k_current demo_users = Some c /\ k_set demo_users !! 0%nat = Some v /\ p_uid c = 5 /\
  wp (proc_kill 3 (p_pid c) (p_pid v) 0) demo_users (fun r K' => r = RDone /\ K' = demo_users).
Proof.
  assert (running demo_users) as HR by (apply demo_running; [vm_compute; reflexivity|vm_compute; reflexivity]).
  eexists (new_process 2 1 5), _. split; [vm_compute; reflexivity|]. split; [vm_compute; reflexivity|].
  split; [reflexivity|]. eapply (kill_needs_permission 3 demo_users _ 0%nat); [exact HR|vm_compute; reflexivity| | | |].
  - done.
  - vm_compute. reflexivity.
  - by left.
  - done.
Defined.

Lemma frame_alloc_exclusive_witness : exists c,
  k_set demo3 !! k_current demo3 = Some c /\
  wp (proc_frame_alloc 7) demo3 (fun _ K' => running K' /\
    (exists c', k_set K' !! k_current K' = Some c' /\ p_pages c' = <[7:=0]> (p_pages c)) /\
    forall j q, j <> k_current K' -> k_set K' !! j = Some q -> live q -> 0 ∉ page_frames q).
Proof.
  eexists (new_process 3 1 0). split; [vm_compute; reflexivity|].
  pose proof (frame_alloc_exclusive demo3 (new_process 3 1 0) 7 demo3_running) as H.
  assert (exists l, k_freeframes demo3 = 0 :: l) as [l E] by (eexists; vm_compute; reflexivity).
  rewrite E in H. apply H; [vm_compute; reflexivity|vm_compute; split; [discriminate|reflexivity]|reflexivity].
Defined.
