(* ===== verification/Tlb.v ===== *)
(** src/src/earth/tlb.c: the emulated translation buffer. Processes see the pages of one
    window of the address space, which the host protects; the buffer copies frames into
    the window and back. *)
From stdpp Require Import base numbers list gmap.
From Stdlib Require Import ZArith Lia.
From S2P Require Import Prelude Process.

(** * The device *)

Abbreviation page := (list Init.Byte.byte).

Definition P_READ : Z := 1.
Definition P_WRITE : Z := 2.
Definition P_EXEC : Z := 4.

(** Protections of the host. *)
Definition PROT_NONE : Z := 0.
Definition PROT_READ : Z := 1.
Definition PROT_WRITE : Z := 2.
Definition PROT_EXEC : Z := 4.

(** [prot & b], for a single bit [b]. *)
Definition has (b prot : Z) : bool := negb (bool_decide (Z.land prot b = 0)).

Definition prot_cvt (prot : Z) : Z :=
  Z.lor (Z.lor (if has P_READ prot then PROT_READ else 0) (if has P_WRITE prot then PROT_WRITE else 0))
    (if has P_EXEC prot then PROT_EXEC else 0).

(** An entry of the buffer; [te_phys] is the number of a frame, [None] for a null
    pointer. *)
Record tlb_entry := TlbEntry { te_virt : Z; te_phys : option Z; te_prot : Z }.

Definition VIRT_BASE : Z := 618475290624.
Definition PAGE_BYTES : Z := 16384.
Definition FIRST_PAGE : Z := VIRT_BASE / PAGE_BYTES.

(** The entries, the pages of the window with their protection, and the frames. *)
Record tlb := Tlb {
  tlb_entries : list tlb_entry;
  tlb_window : gmap Z page;
  tlb_host : gmap Z Z;
  tlb_frames : gmap Z page;
}.

Definition in_window (virt : Z) : Prop := FIRST_PAGE <= virt < FIRST_PAGE + VIRT_PAGES.
#[global] Instance in_window_dec virt : Decision (in_window virt).
Proof. unfold in_window. apply _. Defined.

Definition put_entry (i : nat) (te : tlb_entry) (m : tlb) : tlb :=
  Tlb (<[i:=te]> (tlb_entries m)) (tlb_window m) (tlb_host m) (tlb_frames m).
Definition set_page (virt : Z) (p : page) (m : tlb) : tlb :=
  Tlb (tlb_entries m) (<[virt:=p]> (tlb_window m)) (tlb_host m) (tlb_frames m).
Definition set_host (virt prot : Z) (m : tlb) : tlb :=
  Tlb (tlb_entries m) (tlb_window m) (<[virt:=prot]> (tlb_host m)) (tlb_frames m).
Definition set_frame (f : Z) (p : page) (m : tlb) : tlb :=
  Tlb (tlb_entries m) (tlb_window m) (tlb_host m) (<[f:=p]> (tlb_frames m)).

(** ** The host *)

Definition host_prot (m : tlb) (virt : Z) : Z := default PROT_NONE (tlb_host m !! virt).

(** Whether it succeeds; it only does on pages that are mapped, those of the window. *)
Definition mprotect (virt prot : Z) : M tlb bool :=
  if decide (in_window virt) then modify (set_host virt prot);; mret true else mret false.

(** Copies between a page of the window and a frame; undefined (a signal in the kernel)
    when the page may not be accessed. *)
Definition copy_from_page (f virt : Z) : M tlb unit :=
  m ← get;
  if decide (in_window virt /\ has PROT_READ (host_prot m virt) = true) then modify (set_frame f (tlb_window m !!! virt)) else undef.

Definition copy_to_page (virt f : Z) : M tlb unit :=
  m ← get;
  if decide (in_window virt /\ has PROT_WRITE (host_prot m virt) = true) then modify (set_page virt (tlb_frames m !!! f)) else undef.

(** ** The buffer *)

Definition te_at (i : nat) : M tlb tlb_entry := m ← get; read_nth (tlb_entries m) i.

Fixpoint find_entry_from (l : list tlb_entry) (i virt : Z) : Z :=
  match l with
  | [] => -1
  | te :: l => if decide (te_virt te = virt /\ te_phys te <> None) then i else find_entry_from l (i + 1) virt
  end.

Definition tlb_get_entry (virt : Z) : M tlb Z := m ← get; mret (find_entry_from (tlb_entries m) 0 virt).

Definition tlb_sync_entry (i : nat) : M tlb unit :=
  te ← te_at i;
  if has P_WRITE (te_prot te) then
    (if negb (has P_READ (te_prot te)) then
       ok ← mprotect (te_virt te) PROT_READ;
       if ok : bool then mret tt else panic
     else mret tt);;
    match te_phys te with Some f => copy_from_page f (te_virt te) | None => undef end
  else mret tt.

Definition tlb_flush_entry (i : nat) : M tlb unit :=
  te ← te_at i;
  if decide (te_phys te = None) then mret tt else
  tlb_sync_entry i;;
  ok ← mprotect (te_virt te) PROT_NONE;
  if negb ok then panic else
  modify (put_entry i (TlbEntry 0 None 0)).

(** A loop over [n] entries from [i] on. *)
Fixpoint for_entries (n i : nat) (f : nat -> M tlb unit) : M tlb unit :=
  match n with
  | O => mret tt
  | S n => f i;; for_entries n (S i) f
  end.

Definition tlb_unmap (virt : Z) : M tlb unit :=
  m ← get;
  for_entries (length (tlb_entries m)) 0 (fun i => te ← te_at i; if decide (te_virt te = virt) then tlb_flush_entry i else mret tt).

Definition tlb_get (tlb_index : Z) : M tlb tlb_entry :=
  m ← get;
  if decide (tlb_index >= Z.of_nat (length (tlb_entries m))) then panic else te_at (Z.to_nat tlb_index).

(** Messages about failing calls of the host are left out. *)
Definition tlb_map (tlb_index virt phys prot : Z) : M tlb Z :=
  m ← get;
  if decide (tlb_index >= Z.of_nat (length (tlb_entries m))) then panic else
  let i := Z.to_nat tlb_index in
  te ← te_at i;
  (if decide (te_phys te <> None) then tlb_flush_entry i else mret tt);;
  modify (put_entry i (TlbEntry virt (Some phys) prot));;
  (if negb (has P_WRITE prot) then mprotect virt PROT_WRITE else mprotect virt (prot_cvt prot));;
  copy_to_page virt phys;;
  (if negb (has P_WRITE prot) then mprotect virt (prot_cvt prot) else mret true);;
  mret 1.

Definition tlb_flush : M tlb unit := m ← get; for_entries (length (tlb_entries m)) 0 tlb_flush_entry.

Definition tlb_sync : M tlb unit :=
  m ← get;
  for_entries (length (tlb_entries m)) 0 (fun i => te ← te_at i; if decide (te_phys te <> None) then tlb_sync_entry i else mret tt).

(** The checks of page sizes hold on the hosts the system runs on; the frames are the
    kernel's. *)
Definition tlb_initialize (nentries : nat) (frames : gmap Z page) : tlb :=
  Tlb (replicate nentries (TlbEntry 0 None 0)) ∅ ∅ frames.

(** * Coherence *)

(** The buffer stands for the contents [C] of the frames: a page in the window has what
    its frame is to have, and the frame has it too unless the page is writable. No page
    and no frame has two entries; pages without entry cannot be accessed. *)
Record tlb_rep (m : tlb) (C : Z -> page) : Prop := {
  tr_entry : forall i te f, tlb_entries m !! i = Some te -> te_phys te = Some f ->
    in_window (te_virt te) /\ has P_READ (te_prot te) = true /\ host_prot m (te_virt te) = prot_cvt (te_prot te) /\
    tlb_window m !!! te_virt te = C f /\ (has P_WRITE (te_prot te) = false -> tlb_frames m !!! f = C f);
  tr_distinct : forall i j te te' f f', tlb_entries m !! i = Some te -> tlb_entries m !! j = Some te' -> i <> j ->
    te_phys te = Some f -> te_phys te' = Some f' -> te_virt te <> te_virt te' /\ f <> f';
  tr_other : forall f, (forall i te, tlb_entries m !! i = Some te -> te_phys te <> Some f) -> tlb_frames m !!! f = C f;
  tr_none : forall v, (forall i te, tlb_entries m !! i = Some te -> te_phys te <> None -> te_virt te <> v) -> host_prot m v = PROT_NONE;
}.

Lemma has_cvt prot : has PROT_READ (prot_cvt prot) = has P_READ prot /\ has PROT_WRITE (prot_cvt prot) = has P_WRITE prot /\
  has PROT_EXEC (prot_cvt prot) = has P_EXEC prot.
Proof. unfold prot_cvt. destruct (has P_READ prot), (has P_WRITE prot), (has P_EXEC prot); by vm_compute. Qed.

Lemma host_prot_set m v w prot : host_prot (set_host w prot m) v = if decide (v = w) then prot else host_prot m v.
Proof.
  unfold host_prot. cbn [tlb_host set_host]. destruct (decide (v = w)) as [->|Hne]; [by rewrite lookup_insert_eq|by rewrite lookup_insert_ne].
Qed.

Lemma wp_entry i m te Q : tlb_entries m !! i = Some te -> Q te m -> wp (te_at i) m Q.
Proof. intros H HQ. unfold te_at. step. apply wp_get. unfold wp, read_nth. by rewrite H. Qed.

Lemma entry_Ret i m te : tlb_entries m !! i = Some te -> te_at i m = Ret (te, m).
Proof. intros H. unfold te_at. erewrite mbind_Ret by reflexivity. unfold read_nth. by rewrite H. Qed.

Lemma wp_mprotect v prot m Q : in_window v -> Q true (set_host v prot m) -> wp (mprotect v prot) m Q.
Proof. intros H HQ. unfold mprotect. rewrite decide_True by done. by steps. Qed.

(** The frame of a synced entry is up to date. *)
Definition synced (i : nat) (m : tlb) : Prop := forall te f, tlb_entries m !! i = Some te -> te_phys te = Some f -> tlb_frames m !!! f = tlb_window m !!! te_virt te.

Definition same_entries (m m' : tlb) : Prop := tlb_entries m' = tlb_entries m.

Lemma sync_entry_ok m C i te f : tlb_rep m C -> tlb_entries m !! i = Some te -> te_phys te = Some f ->
  wp (tlb_sync_entry i) m (fun _ m' => tlb_rep m' C /\ tlb_entries m' = tlb_entries m /\ tlb_frames m' !!! f = C f).
Proof.
  intros H Hi Hf. destruct (tr_entry m C H i te f Hi Hf) as (Hw & Hr & Hh & Hp & Hro). unfold tlb_sync_entry. step. eapply wp_entry; [exact Hi|].
  destruct (has P_WRITE (te_prot te)) eqn:EW.
  2:{ step. split; [done|]. split; [done|]. by apply Hro. }
  rewrite Hr. cbn [negb]. step. step. rewrite Hf. unfold copy_from_page. step. step. rewrite decide_True by (split; [done|]; rewrite Hh; destruct (has_cvt (te_prot te)) as [-> _]; done).
  step. split; [|split; [done|]]; [|cbn; rewrite lookup_total_insert_eq; done]. rewrite Hp. destruct H. split; cbn [set_frame tlb_entries tlb_window tlb_frames].
  - intros j te' g Hj Hg. destruct (tr_entry0 j te' g Hj Hg) as (A1 & A2 & A3 & A4 & A5). split_and!; try done. intros Hn.
    destruct (decide (g = f)) as [->|Hne]; [by rewrite lookup_total_insert_eq|]. rewrite lookup_total_insert_ne by done. by apply A5.
  - exact tr_distinct0.
  - intros g Hg. destruct (decide (g = f)) as [->|Hne]; [by rewrite lookup_total_insert_eq|]. rewrite lookup_total_insert_ne by done. by apply tr_other0.
  - exact tr_none0.
Qed.

Definition no_entry : tlb_entry := TlbEntry 0 None 0.

Lemma flush_entry_ok m C i te : tlb_rep m C -> tlb_entries m !! i = Some te ->
  wp (tlb_flush_entry i) m (fun _ m' => tlb_rep m' C /\ tlb_entries m' = if decide (te_phys te = None) then tlb_entries m else <[i:=no_entry]> (tlb_entries m)).
Proof.
  intros H Hi. unfold tlb_flush_entry. step. eapply wp_entry; [exact Hi|]. destruct (te_phys te) as [f|] eqn:Hf.
  2:{ rewrite !decide_True by done. step. by split. }
  rewrite !decide_False by done. step. eapply wp_mono; [apply (sync_entry_ok m C i te f H Hi Hf)|]. intros _ m1 (H1 & E1 & Hfr). step.
  rewrite <- E1 in Hi. destruct (tr_entry m1 C H1 i te f Hi Hf) as (Hw & _). apply wp_mprotect; [done|]. cbn [negb]. step.
  split; [|cbn; by rewrite E1]. destruct H1. split; cbn [put_entry set_host tlb_entries tlb_window tlb_frames].
  - intros j te' g Hj Hg. rewrite list_lookup_insert in Hj. destruct (decide _) as [[-> _]|Hne]; [by injection Hj as <-|].
    destruct (tr_entry0 j te' g Hj Hg) as (A1 & A2 & A3 & A4 & A5). change (host_prot (put_entry _ _ ?x) ?v) with (host_prot x v). rewrite host_prot_set.
    rewrite decide_False; [done|]. assert (j <> i) as Hji by (intros ->; apply Hne; split; [done|by eapply lookup_lt_Some]). by destruct (tr_distinct0 j i te' te g f Hj Hi Hji Hg Hf).
  - intros j k te1 te2 g g' Hj Hk Hne Hg Hg'. rewrite list_lookup_insert in Hj, Hk. destruct (decide _); [by injection Hj as <-|]. destruct (decide _); [by injection Hk as <-|]. by eapply tr_distinct0.
  - intros g Hg. destruct (decide (g = f)) as [->|Hne]; [done|]. apply tr_other0. intros j te' Hj Hg'. destruct (decide (j = i)) as [->|Hji]; [congruence|].
    apply (Hg j te'); [by rewrite list_lookup_insert_ne by done|done].
  - intros v Hv. change (host_prot (put_entry _ _ ?x) ?v) with (host_prot x v). rewrite host_prot_set. destruct (decide (v = te_virt te)) as [|Hne]; [done|].
    apply tr_none0. intros j te' Hj Hp. destruct (decide (j = i)) as [->|Hji]; [congruence|]. apply (Hv j te'); [by rewrite list_lookup_insert_ne by done|done].
Qed.

(** A loop keeps what every round keeps. *)
Lemma for_entries_ok n : forall i f m (I : tlb -> Prop) N,
  I m -> (forall m, I m -> length (tlb_entries m) = N) -> (i + n <= N)%nat ->
  (forall j m, (j < N)%nat -> I m -> wp (f j) m (fun _ m' => I m')) -> wp (for_entries n i f) m (fun _ m' => I m').
Proof.
  induction n as [|n IH]; intros i f m I N H HN Hi Hf; cbn [for_entries]; [by step|]. step.
  eapply wp_mono; [apply Hf; [lia|exact H]|]. intros [] m' H'. apply (IH (S i) f m' I N); [done|done|lia|done].
Qed.

(** The pages that have entries after some of them were flushed. *)
Definition fewer (P : tlb_entry -> Prop) (m m' : tlb) : Prop :=
  length (tlb_entries m') = length (tlb_entries m) /\
  (forall i te, tlb_entries m' !! i = Some te -> te_phys te <> None -> tlb_entries m !! i = Some te) /\
  (forall i te, tlb_entries m !! i = Some te -> te_phys te <> None -> ~ P te -> tlb_entries m' !! i = Some te).

Lemma fewer_refl P m : fewer P m m.
Proof. by split_and!. Qed.

(** Flushing the entries that satisfy [P]. *)
Lemma flush_some_ok m C (P : tlb_entry -> Prop) `{HdecP : !forall te, Decision (P te)} (f : nat -> M tlb unit) :
  (forall i te m, tlb_entries m !! i = Some te -> f i m = (if decide (P te) then tlb_flush_entry i else mret tt) m) -> tlb_rep m C ->
  wp (for_entries (length (tlb_entries m)) 0 f) m
    (fun _ m' => tlb_rep m' C /\ fewer P m m' /\ forall i te, tlb_entries m' !! i = Some te -> te_phys te <> None -> ~ P te).
Proof.
  intros Hf H. set (N := length (tlb_entries m)).
  (* the rounds before [k] are done *)
  assert (forall n k m1, (k + n = N)%nat -> tlb_rep m1 C -> fewer P m m1 -> (forall i te, (i < k)%nat -> tlb_entries m1 !! i = Some te -> te_phys te <> None -> ~ P te) ->
    wp (for_entries n k f) m1
    (fun _ m' => tlb_rep m' C /\ fewer P m m' /\ forall i te, tlb_entries m' !! i = Some te -> te_phys te <> None -> ~ P te)) as Hloop.
  { induction n as [|n IH]; intros k m1 Hk H1 Hfew Hdone; cbn [for_entries].
    - step. split; [done|]. split; [done|]. intros i te Hi. apply (Hdone i te); [|done]. apply lookup_lt_Some in Hi. destruct Hfew as (El & _). lia.
    - destruct Hfew as (El & F1 & F2). step. destruct (lookup_lt_is_Some_2 (tlb_entries m1) k) as [te Hte]; [lia|]. unfold wp at 1. rewrite (Hf k te m1 Hte).
      apply (wp_mono _ _ (fun _ m2 => tlb_rep m2 C /\ fewer P m m2 /\ forall i te, (i < S k)%nat -> tlb_entries m2 !! i = Some te -> te_phys te <> None -> ~ P te)).
      2:{ intros [] m2 (A1 & A2 & A3). apply IH; [lia|done|done|done]. }
      destruct (decide (P te)) as [HP|HP].
      + eapply wp_mono; [apply (flush_entry_ok m1 C k te H1 Hte)|]. intros [] m2 [H2 E2]. split; [done|].
        destruct (decide (te_phys te = None)) as [En|En].
        { unfold fewer. rewrite E2. split; [by split_and!|]. intros i te' Hi Hi' Hp. destruct (decide (i = k)) as [->|Hne]; [congruence|]. apply (Hdone i te'); [lia|done|done]. }
        rewrite E2. split.
        { split_and!.
          - by rewrite E2, length_insert.
          - rewrite E2. intros i te' Hi Hp. rewrite list_lookup_insert in Hi. destruct (decide _); [by injection Hi as <-|]. by apply F1.
          - rewrite E2. intros i te' Hi Hp HnP. destruct (decide (i = k)) as [->|Hne].
            + pose proof (F2 k te' Hi Hp HnP) as Hk'. congruence.
            + rewrite list_lookup_insert_ne by done. by apply F2. }
        intros i te' Hi Hi' Hp. destruct (decide (i = k)) as [->|Hne].
        { rewrite list_lookup_insert_eq in Hi' by (by eapply lookup_lt_Some). by injection Hi' as <-. }
        rewrite list_lookup_insert_ne in Hi' by done. apply (Hdone i te'); [lia|done|done].
      + step. split; [done|]. split; [by split_and!|]. intros i te' Hi Hi' Hp. destruct (decide (i = k)) as [->|Hne]; [congruence|]. apply (Hdone i te'); [lia|done|done]. }
  apply (Hloop N 0%nat m); [lia|done|apply fewer_refl|lia].
Qed.

Lemma tlb_unmap_ok m C virt : tlb_rep m C ->
  wp (tlb_unmap virt) m (fun _ m' => tlb_rep m' C /\ fewer (fun te => te_virt te = virt) m m' /\
    forall i te, tlb_entries m' !! i = Some te -> te_phys te <> None -> te_virt te <> virt).
Proof. intros H. unfold tlb_unmap. step. step. 
  apply (flush_some_ok m C (fun te => te_virt te = virt)); [|done]. intros i te m1 Hi. erewrite mbind_Ret; [done|]. by apply entry_Ret.
Qed.

(** After a flush no page is mapped. *)
Lemma tlb_flush_ok m C : tlb_rep m C ->
  wp tlb_flush m (fun _ m' => tlb_rep m' C /\ length (tlb_entries m') = length (tlb_entries m) /\ (forall te, te ∈ tlb_entries m' -> te_phys te = None) /\
    forall f, tlb_frames m' !!! f = C f).
Proof.
  intros H. unfold tlb_flush. step. step. eapply wp_mono; [apply (flush_some_ok m C (fun _ => True)); [|done]|].
  { intros i te m1 Hi. by rewrite decide_True. }
  intros [] m' (H' & (El & _) & Hn). assert (forall te, te ∈ tlb_entries m' -> te_phys te = None) as Hnone.
  { intros te Hte. apply list_elem_of_lookup in Hte as [i Hi]. destruct (te_phys te) eqn:E; [|done]. exfalso. apply (Hn i te Hi); [by rewrite E|done]. }
  split_and!; [done|done|done|]. intros f. apply (tr_other m' C H'). intros i te Hi. rewrite (Hnone te); [done|]. by eapply list_elem_of_lookup_2.
Qed.

(** After a sync all frames are up to date. *)
Lemma tlb_sync_ok m C : tlb_rep m C -> wp tlb_sync m (fun _ m' => tlb_rep m' C /\ tlb_entries m' = tlb_entries m).
Proof.
  intros H. unfold tlb_sync. step. step.
  apply (for_entries_ok _ _ _ _ (fun m' => tlb_rep m' C /\ tlb_entries m' = tlb_entries m) (length (tlb_entries m))); [done| |lia|].
  - by intros m' [_ ->].
  - intros j m1 Hj [H1 E1]. destruct (lookup_lt_is_Some_2 (tlb_entries m1) j) as [te Hte]; [by rewrite E1|]. step. eapply wp_entry; [exact Hte|].
    destruct (te_phys te) as [f|] eqn:Hf; [rewrite decide_True by done|rewrite decide_False by (intros Hn; by apply Hn); by step].
    eapply wp_mono; [apply (sync_entry_ok m1 C j te f H1 Hte Hf)|]. intros [] m2 (H2 & E2 & _). split; [done|]. by rewrite E2.
Qed.

(** Mapping the frame [f] at page [v]: no other entry may have either. *)
Lemma tlb_map_ok m C (idx v f prot : Z) : tlb_rep m C -> 0 <= idx < Z.of_nat (length (tlb_entries m)) -> in_window v -> has P_READ prot = true ->
  (forall j te, tlb_entries m !! j = Some te -> j <> Z.to_nat idx -> te_phys te <> None -> te_virt te <> v /\ te_phys te <> Some f) ->
  wp (tlb_map idx v f prot) m (fun r m' => r = 1 /\ tlb_rep m' C /\ tlb_entries m' = <[Z.to_nat idx:=TlbEntry v (Some f) prot]> (tlb_entries m)).
Proof.
  intros H Hidx Hv Hrd Hoth. set (i := Z.to_nat idx) in *. destruct (lookup_lt_is_Some_2 (tlb_entries m) i) as [te Hte]; [unfold i; lia|].
  unfold tlb_map. step. step. rewrite decide_False by lia. fold i. cbv zeta. step. eapply wp_entry; [exact Hte|]. step.
  apply (wp_mono _ _ (fun _ m1 => tlb_rep m1 C /\ (forall te', tlb_entries m1 !! i = Some te' -> te_phys te' = None) /\
    length (tlb_entries m1) = length (tlb_entries m) /\ (forall j, j <> i -> tlb_entries m1 !! j = tlb_entries m !! j))).
  { destruct (te_phys te) as [g|] eqn:Hg.
    - rewrite decide_True by done. eapply wp_mono; [apply (flush_entry_ok m C i te H Hte)|]. rewrite Hg, decide_False by done.
      intros [] m1 [H1 E1]. split; [done|]. rewrite E1. split_and!; [| by rewrite length_insert| intros j Hj; by rewrite list_lookup_insert_ne].
      intros te' Hi. rewrite list_lookup_insert_eq in Hi by (unfold i; lia). by injection Hi as <-.
    - rewrite decide_False by (intros Hn; by apply Hn). step. split; [done|]. split_and!; [|done|done]. intros te' Hi. congruence. }
  intros [] m1 (H1 & Hnone & El & Eo).
  (* the device with the new entry, whatever the host allows at [v] *)
  assert (forall hp, hp = prot_cvt prot -> let m2 := Tlb (<[i:=TlbEntry v (Some f) prot]> (tlb_entries m1)) (<[v:=tlb_frames m1 !!! f]> (tlb_window m1)) (<[v:=hp]> (tlb_host m1)) (tlb_frames m1) in
    tlb_rep m2 C) as Hnew.
  { assert (forall j te', tlb_entries m1 !! j = Some te' -> te_phys te' <> None -> te_virt te' <> v /\ te_phys te' <> Some f) as Ho1.
    { intros j te' Hj Hp. destruct (decide (j = i)) as [->|Hne]; [exfalso; by apply Hp, Hnone|]. rewrite Eo in Hj by done. by apply (Hoth j). }
    assert (tlb_frames m1 !!! f = C f) as Hfr.
    { apply (tr_other m1 C H1). intros j te' Hj Hp. destruct (Ho1 j te' Hj ltac:(congruence)) as [_ Hx]. done. }
    intros hp Ehp m2. assert (forall w, host_prot m2 w = if decide (w = v) then hp else host_prot m1 w) as Hhp.
    { intros w. exact (host_prot_set m1 w v hp). }
    destruct H1. split; cbn [m2 tlb_entries tlb_window tlb_frames].
    - intros j te' g Hj Hg. rewrite Hhp. rewrite list_lookup_insert in Hj. destruct (decide _) as [[-> _]|Hne].
      + injection Hj as <-. cbn [te_phys te_virt te_prot] in *. injection Hg as <-. rewrite decide_True by done. rewrite lookup_total_insert_eq. by split_and!.
      + destruct (Ho1 j te' Hj ltac:(congruence)) as [Hvv _]. rewrite decide_False by done. rewrite lookup_total_insert_ne by done. by apply (tr_entry0 j).
    - intros j k te1 te2 g g' Hj Hk Hne Hg Hg'. rewrite list_lookup_insert in Hj, Hk. destruct (decide (i = j /\ _)) as [[-> _]|Hn1].
      + injection Hj as <-. cbn [te_phys te_virt] in *. injection Hg as <-. destruct (decide (j = k /\ _)) as [[-> _]|_]; [done|].
        destruct (Ho1 k te2 Hk ltac:(congruence)) as [A B]. split; [done|]. intros ->. congruence.
      + destruct (decide (i = k /\ _)) as [[-> _]|_].
        * injection Hk as <-. cbn [te_phys te_virt] in *. injection Hg' as <-. destruct (Ho1 j te1 Hj ltac:(congruence)) as [A B]. split; [done|]. intros ->. congruence.
        * by apply (tr_distinct0 j k te1 te2).
    - intros g Hg. apply tr_other0. intros j te' Hj Hp. destruct (decide (j = i)) as [->|Hji].
      + rewrite (Hnone te' Hj) in Hp. done.
      + apply (Hg j te'); [by rewrite list_lookup_insert_ne by done|done].
    - intros w Hw. rewrite Hhp. destruct (decide (w = v)) as [->|Hne].
      + exfalso. apply (Hw i (TlbEntry v (Some f) prot)); [apply list_lookup_insert_eq; rewrite El; unfold i; lia|done|done].
      + apply tr_none0. intros j te' Hj Hp. destruct (decide (j = i)) as [->|Hji]; [exfalso; by apply Hp, Hnone|].
        apply (Hw j te'); [by rewrite list_lookup_insert_ne by done|done]. }
  assert (<[i:=TlbEntry v (Some f) prot]> (tlb_entries m1) = <[i:=TlbEntry v (Some f) prot]> (tlb_entries m)) as Eent.
  { apply list_eq. intros j. destruct (decide (j = i)) as [->|Hne]; [by rewrite !list_lookup_insert_eq by (rewrite ?El; unfold i; lia)|].
    by rewrite !list_lookup_insert_ne, Eo by done. }
  step. step. destruct (has_cvt prot) as (_ & Hwr & _). destruct (has P_WRITE prot) eqn:EW; cbn [negb]; step; (apply wp_mprotect; [done|]); step; unfold copy_to_page; step; step;
    (rewrite decide_True by (split; [done|]; rewrite host_prot_set, decide_True by done; first [exact Hwr|done])); step; step.
  - step. step. split; [done|]. split; [|exact Eent]. exact (Hnew _ eq_refl).
  - apply wp_mprotect; [done|]. step. split; [done|]. split; [|exact Eent].
    pose proof (Hnew _ eq_refl) as Hn. cbv zeta in Hn. unfold set_host, set_page, put_entry. cbn [tlb_entries tlb_window tlb_host tlb_frames]. by rewrite insert_insert_eq.
Qed.

(** * Accesses *)

(** What a process does at a page of the window: the host stops it with a fault when the
    page does not allow it. *)
Inductive access := ALoad | AStore | AFetch.

Definition allowed (a : access) (prot : Z) : bool :=
  match a with ALoad => has PROT_READ prot | AStore => has PROT_WRITE prot | AFetch => has PROT_EXEC prot end.

Definition store_byte (v : Z) (off : nat) (b : Init.Byte.byte) (m : tlb) : tlb := set_page v (<[off:=b]> (tlb_window m !!! v)) m.

Lemma access_page m C i te f a : tlb_rep m C -> tlb_entries m !! i = Some te -> te_phys te = Some f ->
  tlb_window m !!! te_virt te = C f /\ allowed a (host_prot m (te_virt te)) =
    match a with ALoad => true | AStore => has P_WRITE (te_prot te) | AFetch => has P_EXEC (te_prot te) end.
Proof.
  intros H Hi Hf. destruct (tr_entry m C H i te f Hi Hf) as (_ & Hr & Hh & Hp & _). split; [done|]. rewrite Hh.
  destruct (has_cvt (te_prot te)) as (E1 & E2 & E3). destruct a; cbn [allowed]; [by rewrite E1|by rewrite E2|by rewrite E3].
Qed.

Lemma access_none m C v a : tlb_rep m C -> (forall i te, tlb_entries m !! i = Some te -> te_phys te <> None -> te_virt te <> v) ->
  allowed a (host_prot m v) = false.
Proof. intros H Hn. rewrite (tr_none m C H v Hn). by destruct a. Qed.

(** A store to a writable page changes the contents of its frame. *)
Lemma store_ok m C i te f off b : tlb_rep m C -> tlb_entries m !! i = Some te -> te_phys te = Some f -> has P_WRITE (te_prot te) = true ->
  tlb_rep (store_byte (te_virt te) off b m) (fun g => if decide (g = f) then <[off:=b]> (C f) else C g).
Proof.
  intros H Hi Hf HW. destruct (tr_entry m C H i te f Hi Hf) as (_ & _ & _ & Hp & _). unfold store_byte. rewrite Hp.
  pose proof H as []. split; cbn [set_page tlb_entries tlb_window tlb_frames]; [|exact tr_distinct0| |exact tr_none0].
  - intros j te' g Hj Hg. destruct (tr_entry0 j te' g Hj Hg) as (A1 & A2 & A3 & A4 & A5). split_and!; [done|done|done| |].
    + destruct (decide (j = i)) as [->|Hne].
      * replace te' with te in * by congruence. replace g with f in * by congruence. rewrite decide_True by done. apply lookup_total_insert_eq.
      * destruct (tr_distinct0 j i te' te g f Hj Hi Hne Hg Hf) as [B1 B2]. rewrite decide_False by done. by rewrite lookup_total_insert_ne by done.
    + intros Hn. destruct (decide (g = f)) as [->|Hne]; [|by apply A5]. destruct (decide (j = i)) as [->|Hji]; [congruence|].
      by destruct (tr_distinct0 j i te' te f f Hj Hi Hji Hg Hf) as [_ B2].
  - intros g Hg. destruct (decide (g = f)) as [->|Hne]; [exfalso; by apply (Hg i te Hi)|]. by apply tr_other0.
Qed.

Lemma tlb_initialize_ok n frames : tlb_rep (tlb_initialize n frames) (fun f => frames !!! f).
Proof.
  assert (forall i te, replicate n no_entry !! i = Some te -> te_phys te = None) as Hn by (intros i te Hi; by apply lookup_replicate in Hi as [-> _]).
  split; cbn [tlb_initialize tlb_entries tlb_window tlb_frames].
  - intros i te f Hi Hf. by rewrite (Hn i te Hi) in Hf.
  - intros i j te te' f f' Hi _ _ Hf _. by rewrite (Hn i te Hi) in Hf.
  - done.
  - intros v _. reflexivity.
Qed.
