(* ===== verification/VirtMem.v ===== *)
(** Paging: the part of src/src/grass/process.c and procsys.c that gives processes their
    memory, on top of the translation buffer of the device layer. *)
From stdpp Require Import base numbers list gmap.
From Stdlib Require Import ZArith Lia.
From S2P Require Import Prelude Process Tlb.

(** * The kernel's part *)

Definition TLB_SIZE : Z := 16.

Record exec_segment := ExecSegment { es_first : Z; es_npages : Z; es_nblocks : Z; es_prot : Z }.

(** What paging needs of a process: its page table, and its executable, of which
    [vp_block] is what reading a page of the file gives. *)
Record vproc := VProc {
  vp_pages : gmap Z Z;
  vp_segments : list exec_segment;
  vp_offset : Z;
  vp_block : Z -> page;
}.

Record vm := Vm {
  vm_tlb : tlb;
  vm_procs : gmap Z vproc;
  vm_current : Z;
  vm_free : list Z;          (* proc_freeframes *)
  vm_index : Z;              (* tlb_index *)
}.

Definition set_tlb (t : tlb) (s : vm) : vm := Vm t (vm_procs s) (vm_current s) (vm_free s) (vm_index s).
Definition set_procs (ps : gmap Z vproc) (s : vm) : vm := Vm (vm_tlb s) ps (vm_current s) (vm_free s) (vm_index s).
Definition set_current (pid : Z) (s : vm) : vm := Vm (vm_tlb s) (vm_procs s) pid (vm_free s) (vm_index s).
Definition set_free (l : list Z) (s : vm) : vm := Vm (vm_tlb s) (vm_procs s) (vm_current s) l (vm_index s).
Definition put_index (i : Z) (s : vm) : vm := Vm (vm_tlb s) (vm_procs s) (vm_current s) (vm_free s) i.

Definition on_tlb {A} (m : M tlb A) : M vm A := lift vm_tlb set_tlb m.

Definition current_proc : M vm vproc := s ← get; match vm_procs s !! vm_current s with Some p => mret p | None => undef end.

Definition set_pages (l : gmap Z Z) (p : vproc) : vproc := VProc l (vp_segments p) (vp_offset p) (vp_block p).

(** [proc_frame_alloc]. *)
Definition frame_alloc (rel_page : Z) : M vm Z :=
  s ← get;
  match vm_free s with
  | [] => panic
  | f :: l =>
      p ← current_proc;
      modify (fun s => set_free l (set_procs (<[vm_current s:=set_pages (<[rel_page:=f]> (vp_pages p)) p]> (vm_procs s)) s));;
      mret f
  end.

Definition in_segment (abs_page : Z) (es : exec_segment) : Prop := es_first es <= abs_page < u32 (es_first es + es_npages es).
#[global] Instance in_segment_dec abs_page es : Decision (in_segment abs_page es).
Proof. unfold in_segment. apply _. Defined.

Definition zero_page : page := replicate (Z.to_nat PAGE_BYTES) Init.Byte.x00.

(** The contents of a new page; a short block is filled with zeros. *)
Fixpoint initial_page (segs : list exec_segment) (offset : Z) (block : Z -> page) (abs_page : Z) : page :=
  match segs with
  | [] => zero_page
  | es :: segs =>
      if decide (in_segment abs_page es) then
        if decide (abs_page < u32 (es_first es + es_nblocks es)) then
          let b := block (u32 (offset + (abs_page - es_first es))) in b ++ drop (length b) zero_page
        else zero_page
      else initial_page segs (u32 (offset + es_nblocks es)) block abs_page
  end.

(** The process may lose the CPU while it reads its file; then the buffer has been flushed
    when it goes on, and its page still has no entry. *)
Definition frame_init (f abs_page : Z) : M vm unit :=
  p ← current_proc;
  on_tlb (modify (set_frame f (initial_page (vp_segments p) (vp_offset p) (vp_block p) abs_page))).

Inductive access_kind := ACCESS_UNKNOWN | ACCESS_READ | ACCESS_WRITE.
#[global] Instance access_kind_eq : EqDecision access_kind.
Proof. solve_decision. Defined.

(** The release of the frames in [proc_term]. *)
Definition release_page (p : vproc) (i : Z) : M vm unit :=
  match vp_pages p !! i with
  | None => mret tt
  | Some f => on_tlb (tlb_unmap (FIRST_PAGE + i));; modify (fun s => set_free (vm_free s ++ [f]) s)
  end.

Fixpoint release_pages (p : vproc) (pages : list Z) : M vm unit :=
  match pages with
  | [] => mret tt
  | i :: pages => release_page p i;; release_pages p pages
  end.

(** The end of the current process; what runs next is a switch. *)
Definition term_current : M vm unit :=
  p ← current_proc;
  release_pages p (seqZ 0 VIRT_PAGES);;
  modify (fun s => set_procs (delete (vm_current s) (vm_procs s)) s).

(** The guess of the kind of access; [None] when it is illegal. *)
Definition guess_access (es : option exec_segment) (index : Z) (acc : access_kind) : M vm (option access_kind) :=
  if decide (acc <> ACCESS_UNKNOWN) then mret (Some acc) else
  if decide (index >= 0) then
    if match es with Some es => negb (has P_WRITE (es_prot es)) | None => false end then mret None else
    te ← on_tlb (tlb_get index);
    if has P_WRITE (te_prot te) then mret None else mret (Some ACCESS_WRITE)
  else mret (Some ACCESS_READ).

(** The rest of the handler: a frame for the page, an entry, the mapping. *)
Definition map_page (es : option exec_segment) (index rel_page abs_page : Z) (acc : access_kind) : M vm unit :=
  p ← current_proc;
  f ← match vp_pages p !! rel_page with
      | None =>
          assert_ (bool_decide (index < 0));;
          f ← frame_alloc rel_page;
          frame_init f abs_page;;
          mret f
      | Some f => mret f
      end;
  s ← get;
  index ← (if decide (index < 0) then modify (put_index ((vm_index s + 1) mod TLB_SIZE));; mret (vm_index s) else mret index);
  let prot := if decide (acc = ACCESS_READ) then
                if match es with Some es => has P_EXEC (es_prot es) | None => false end then Z.lor P_READ P_EXEC else P_READ
              else Z.lor P_READ P_WRITE in
  on_tlb (tlb_map index abs_page f prot);;
  mret tt.

(** [false] when the process has ended. *)
Definition proc_pagefault (virt : Z) (acc : access_kind) : M vm bool :=
  if decide (virt < VIRT_BASE \/ virt >= VIRT_BASE + VIRT_PAGES * PAGE_BYTES) then term_current;; mret false else
  let rel_page := (virt - VIRT_BASE) / PAGE_BYTES in
  let abs_page := virt / PAGE_BYTES in
  p ← current_proc;
  let es := snd <$> list_find (in_segment abs_page) (vp_segments p) in
  index ← on_tlb (tlb_get_entry abs_page);
  g ← guess_access es index acc;
  match g with
  | None => term_current;; mret false
  | Some acc => map_page es index rel_page abs_page acc;; mret true
  end.

(** [proc_after_switch] for memories: the buffer is flushed. *)
Definition switch_current (pid : Z) : M vm unit :=
  s ← get;
  assert_ (bool_decide (pid <> vm_current s));;
  on_tlb tlb_flush;;
  modify (set_current pid).

(** * Accesses of processes and of the kernel *)

(** A process retries an access that has faulted when the handler returns. *)
Fixpoint retry {A} (fuel : nat) (a : access) (virt : Z) (k : M vm A) : M vm (option A) :=
  match fuel with
  | O => out_of_fuel
  | S fuel =>
      s ← get;
      if allowed a (host_prot (vm_tlb s) (virt / PAGE_BYTES)) then x ← k; mret (Some x) else
      r ← proc_pagefault virt ACCESS_UNKNOWN;
      if r : bool then retry fuel a virt k else mret None
  end.

Definition page_offset (virt : Z) : nat := Z.to_nat (virt mod PAGE_BYTES).

Definition load_user (virt : Z) : M vm (option Init.Byte.byte) :=
  s ← get; mret ((tlb_window (vm_tlb s) !!! (virt / PAGE_BYTES)) !! page_offset virt).

Definition store_user (virt : Z) (b : Init.Byte.byte) : M vm unit :=
  on_tlb (modify (store_byte (virt / PAGE_BYTES) (page_offset virt) b)).

(** [copy_user], from and to the process; [None] when a fault ends it. The kernel's own
    accesses are not retried. *)
Fixpoint copy_from_user (size : nat) (virt : Z) : M vm (option (list (option Init.Byte.byte))) :=
  match size with
  | O => mret (Some [])
  | S size =>
      index ← on_tlb (tlb_get_entry (virt / PAGE_BYTES));
      ok ← (if decide (index < 0) then proc_pagefault virt ACCESS_READ else mret true);
      if negb ok then mret None else
      s ← get;
      if negb (allowed ALoad (host_prot (vm_tlb s) (virt / PAGE_BYTES))) then undef else
      b ← load_user virt;
      l ← copy_from_user size (virt + 1);
      mret (cons b <$> l)
  end.

Fixpoint copy_to_loop (data : list Init.Byte.byte) (virt : Z) : M vm bool :=
  match data with
  | [] => mret true
  | b :: data =>
      index ← on_tlb (tlb_get_entry (virt / PAGE_BYTES));
      ok ← (if decide (index < 0) then proc_pagefault virt ACCESS_WRITE
            else te ← on_tlb (tlb_get index);
                 if negb (has P_WRITE (te_prot te)) then proc_pagefault virt ACCESS_WRITE else mret true);
      if negb ok then mret false else
      s ← get;
      if negb (allowed AStore (host_prot (vm_tlb s) (virt / PAGE_BYTES))) then undef else
      store_user virt b;;
      copy_to_loop data (virt + 1)
  end.

Definition copy_to_user (data : list Init.Byte.byte) (virt : Z) : M vm bool :=
  ok ← copy_to_loop data virt;
  if negb ok then mret false else on_tlb tlb_sync;; mret true.

(** * Runs *)

(** A new process: [proc_alloc] clears its page table. *)
Definition new_proc (pid : Z) (p : vproc) : M vm unit := modify (fun s => set_procs (<[pid:=set_pages ∅ p]> (vm_procs s)) s).

(** What happens to the memory of processes: accesses of the one that runs, copies of the
    kernel for it, a switch, a new process. *)
Inductive mem_op :=
  | MLoad (virt : Z)
  | MStore (virt : Z) (b : Init.Byte.byte)
  | MFetch (virt : Z)
  | MCopyFrom (virt : Z) (size : nat)
  | MCopyTo (virt : Z) (data : list Init.Byte.byte)
  | MSwitch (pid : Z)
  | MNew (pid : Z) (p : vproc).

Inductive mem_res :=
  | RBytes (l : list (option Init.Byte.byte))
  | RDone
  | RKilled.

Definition res_bytes (r : option (list (option Init.Byte.byte))) : mem_res := match r with Some l => RBytes l | None => RKilled end.
Definition res_done (r : option unit) : mem_res := match r with Some _ => RDone | None => RKilled end.

Definition run_op (op : mem_op) : M vm mem_res :=
  match op with
  | MLoad virt => r ← retry 3 ALoad virt (load_user virt); mret (res_bytes ((fun b => [b]) <$> r))
  | MStore virt b => r ← retry 3 AStore virt (store_user virt b); mret (res_done r)
  | MFetch virt => r ← retry 3 AFetch virt (load_user virt); mret (res_bytes ((fun b => [b]) <$> r))
  | MCopyFrom virt size => r ← copy_from_user size virt; mret (res_bytes r)
  | MCopyTo virt data => r ← copy_to_user data virt; mret (if r : bool then RDone else RKilled)
  | MSwitch pid => switch_current pid;; mret RDone
  | MNew pid p => new_proc pid p;; mret RDone
  end.

Fixpoint run_ops (ops : list mem_op) : M vm (list mem_res) :=
  match ops with
  | [] => mret []
  | op :: ops => r ← run_op op; l ← run_ops ops; mret (r :: l)
  end.

(** The kernel starts with an empty buffer, no processes and all frames free. *)
Definition vm_start (frames : gmap Z page) (free : list Z) : vm := Vm (tlb_initialize (Z.to_nat TLB_SIZE) frames) ∅ 0 free 0.
