(* ===== verification/VirtMemProps.v ===== *)
(** Every process has a memory of its own: paging, the translation buffer, and the frames
    that processes share, refine flat memories. *)
From stdpp Require Import base numbers list gmap.
From Stdlib Require Import ZArith Lia.
From S2P Require Import Prelude Process Tlb VirtMem.

(** * Memories of processes *)

(** The segment of a page, and what it allows; the heap and the stack are in none. *)
Definition seg_of (segs : list exec_segment) (v : Z) : option exec_segment := snd <$> list_find (in_segment v) segs.
Definition writable (segs : list exec_segment) (v : Z) : bool := match seg_of segs v with Some es => has P_WRITE (es_prot es) | None => true end.
Definition executable (segs : list exec_segment) (v : Z) : bool := match seg_of segs v with Some es => has P_EXEC (es_prot es) | None => false end.

(** The memory of every process, page by page, the segments of those that live, and
    which one runs. *)
Record amem := AMem { am_mem : Z -> Z -> page; am_segs : Z -> option (list exec_segment); am_current : Z }.

Definition initial_of (p : vproc) (v : Z) : page := initial_page (vp_segments p) (vp_offset p) (vp_block p) v.

Definition read_prot (segs : list exec_segment) (v : Z) : Z := if executable segs v then Z.lor P_READ P_EXEC else P_READ.
Definition write_prot : Z := Z.lor P_READ P_WRITE.

(** [C] are the contents of the frames. *)
Record vm_rep (s : vm) (A : amem) (C : Z -> page) : Prop := {
  vr_tlb : tlb_rep (vm_tlb s) C;
  vr_size : Z.of_nat (length (tlb_entries (vm_tlb s))) = TLB_SIZE;
  vr_index : 0 <= vm_index s < TLB_SIZE;
  vr_entries : forall i te f, tlb_entries (vm_tlb s) !! i = Some te -> te_phys te = Some f -> exists p,
    vm_procs s !! vm_current s = Some p /\ vp_pages p !! (te_virt te - FIRST_PAGE) = Some f /\
    (te_prot te = read_prot (vp_segments p) (te_virt te) \/ te_prot te = write_prot /\ writable (vp_segments p) (te_virt te) = true);
  vr_pages : forall pid p r f, vm_procs s !! pid = Some p -> vp_pages p !! r = Some f ->
    0 <= r < VIRT_PAGES /\ C f = am_mem A pid (FIRST_PAGE + r);
  vr_fresh : forall pid p v, vm_procs s !! pid = Some p -> in_window v -> vp_pages p !! (v - FIRST_PAGE) = None -> am_mem A pid v = initial_of p v;
  vr_inj : forall pid pid' p p' r r' f, vm_procs s !! pid = Some p -> vm_procs s !! pid' = Some p' ->
    vp_pages p !! r = Some f -> vp_pages p' !! r' = Some f -> pid = pid' /\ r = r';
  vr_nodup : NoDup (vm_free s);
  vr_free : forall pid p r f, vm_procs s !! pid = Some p -> vp_pages p !! r = Some f -> f ∉ vm_free s;
  vr_segs : forall pid, am_segs A pid = vp_segments <$> vm_procs s !! pid;
  vr_current : am_current A = vm_current s;
}.

Lemma first_page : FIRST_PAGE = 37748736.
Proof. reflexivity. Qed.

Lemma range_window virt : in_window (virt / PAGE_BYTES) <-> VIRT_BASE <= virt < VIRT_BASE + VIRT_PAGES * PAGE_BYTES.
Proof.
  unfold in_window. rewrite first_page. unfold VIRT_BASE, VIRT_PAGES, PAGE_BYTES. split; intros; Z.to_euclidean_division_equations; lia.
Qed.

Lemma rel_page_of virt : (virt - VIRT_BASE) / PAGE_BYTES = virt / PAGE_BYTES - FIRST_PAGE.
Proof. rewrite first_page. unfold VIRT_BASE, PAGE_BYTES. Z.to_euclidean_division_equations; lia. Qed.

(** ** Entries *)

(** Page [v] has the entry [te], or none. *)
Definition mapped (m : tlb) (v : Z) (i : nat) (te : tlb_entry) : Prop := tlb_entries m !! i = Some te /\ te_virt te = v /\ te_phys te <> None.
Definition unmapped (m : tlb) (v : Z) : Prop := forall i te, tlb_entries m !! i = Some te -> te_phys te <> None -> te_virt te <> v.

Lemma find_te_ok l v : forall i, 0 <= i ->
  (find_entry_from l i v = -1 /\ forall j te, l !! j = Some te -> te_phys te <> None -> te_virt te <> v) \/
  exists j te, find_entry_from l i v = i + Z.of_nat j /\ l !! j = Some te /\ te_virt te = v /\ te_phys te <> None.
Proof.
  induction l as [|te l IH]; intros i Hi; cbn [find_entry_from]; [left; by split|].
  destruct (decide (te_virt te = v /\ te_phys te <> None)) as [[Hv Hp]|Hn].
  - right. exists 0%nat, te. split_and!; [lia|done|done|done].
  - destruct (IH (i + 1) ltac:(lia)) as [[-> Hno]|(j & te' & -> & Hj & H1 & H2)].
    + left. split; [done|]. intros [|j] te' Hj Hp; [injection Hj as <-; tauto|by apply (Hno j)].
    + right. exists (S j), te'. split_and!; [lia|done|done|done].
Qed.

(** What a look-up gives. *)
Definition found (m : tlb) (v index : Z) : Prop :=
  (index = -1 /\ unmapped m v) \/ exists i te, index = Z.of_nat i /\ mapped m v i te.

Lemma wp_on_tlb {A} (m : M tlb A) (s : vm) Q : wp m (vm_tlb s) (fun a t => Q a (set_tlb t s)) -> wp (on_tlb m) s Q.
Proof. intros H. unfold on_tlb. by apply wp_lift. Qed.

Lemma get_entry_ok v s Q : (forall index, found (vm_tlb s) v index -> Q index s) -> wp (on_tlb (tlb_get_entry v)) s Q.
Proof.
  intros H. apply wp_on_tlb. unfold tlb_get_entry. step. step. step. replace (set_tlb (vm_tlb s) s) with s by by destruct s. apply H.
  destruct (find_te_ok (tlb_entries (vm_tlb s)) v 0 ltac:(lia)) as [[-> Hn]|(j & te & -> & Hj & H1 & H2)]; [by left|].
  right. exists j, te. split; [lia|by split_and!].
Qed.

Lemma wp_current p s Q : vm_procs s !! vm_current s = Some p -> Q p s -> wp current_proc s Q.
Proof. intros H HQ. unfold current_proc. step. step. rewrite H. by step. Qed.

Lemma tlb_get_ok m i te : tlb_entries m !! i = Some te -> wp (tlb_get (Z.of_nat i)) m (fun x m' => x = te /\ m' = m).
Proof.
  intros H. unfold tlb_get. step. step. apply lookup_lt_Some in H as Hl. rewrite decide_False by lia. rewrite Nat2Z.id. eapply wp_entry; [exact H|]. done.
Qed.

(** * Mapping a page *)

(** The frame of a page that the process has, or a new one with the initial contents. *)
Lemma new_frame_ok s A C p r : vm_rep s A C -> vm_procs s !! vm_current s = Some p -> 0 <= r < VIRT_PAGES -> vp_pages p !! r = None ->
  unmapped (vm_tlb s) (FIRST_PAGE + r) -> vm_free s <> [] ->
  wp (f ← frame_alloc r; frame_init f (FIRST_PAGE + r);; mret f) s (fun f s' => exists C' p', vm_rep s' A C' /\
    vm_current s' = vm_current s /\ vm_procs s' !! vm_current s' = Some p' /\ vp_pages p' !! r = Some f /\ vp_segments p' = vp_segments p /\
    tlb_entries (vm_tlb s') = tlb_entries (vm_tlb s) /\ S (length (vm_free s')) = length (vm_free s)).
Proof.
  intros H Hp Hr Hnone Hun Hfree. destruct (vm_free s) as [|f l] eqn:Efree; [done|]. unfold frame_alloc. step. step. step. rewrite Efree.
  step. eapply wp_current; [exact Hp|]. step. step. step. unfold frame_init. step.
  set (p' := set_pages (<[r:=f]> (vp_pages p)) p). set (s1 := set_free l (set_procs (<[vm_current s:=p']> (vm_procs s)) s)).
  assert (vm_procs s1 !! vm_current s1 = Some p') as Hp1 by apply lookup_insert_eq. step. eapply wp_current; [exact Hp1|].
  apply wp_on_tlb. step. step.
  assert ((f ∉ l) /\ NoDup l) as [Hfl Hnd] by (pose proof (vr_nodup s A C H) as Hnd; rewrite Efree in Hnd; by apply NoDup_cons in Hnd).
  assert (forall pid q r' , vm_procs s !! pid = Some q -> vp_pages q !! r' <> Some f) as Hfnew.
  { intros pid q r' Hq Hf. apply (vr_free s A C H pid q r' f Hq Hf). rewrite Efree. by left. }
  assert (forall i te, tlb_entries (vm_tlb s) !! i = Some te -> te_phys te <> Some f) as Hfe.
  { intros i te Hi Hf. destruct (vr_entries s A C H i te f Hi Hf) as (q & Hq & Hqf & _). by apply (Hfnew _ q _ Hq Hqf). }
  exists (fun g => if decide (g = f) then initial_of p (FIRST_PAGE + r) else C g), p'. split; [|split_and!; [done|exact Hp1|apply lookup_insert_eq|done|done|done]].
  (* processes of the new state *)
  assert (forall pid q, <[vm_current s:=p']> (vm_procs s) !! pid = Some q -> exists q0, vm_procs s !! pid = Some q0 /\ vp_segments q = vp_segments q0 /\
    initial_of q = initial_of q0 /\ (pid = vm_current s /\ vp_pages q = <[r:=f]> (vp_pages q0) /\ q0 = p \/ pid <> vm_current s /\ q = q0)) as Hproc.
  { intros pid q Hq. destruct (decide (pid = vm_current s)) as [->|Hne].
    - rewrite lookup_insert_eq in Hq. injection Hq as <-. exists p. split_and!; [done|done|done|by left].
    - rewrite lookup_insert_ne in Hq by done. exists q. split_and!; [done|done|done|by right]. }
  destruct H. split; cbn [s1 set_tlb set_free set_procs vm_tlb vm_procs vm_current vm_free vm_index set_frame tlb_entries]; try done.
  - (* the device *)
    destruct vr_tlb0. split; cbn [set_frame tlb_entries tlb_window tlb_frames]; [|exact tr_distinct| |exact tr_none].
    + intros i te g Hi Hg. destruct (tr_entry i te g Hi Hg) as (A1 & A2 & A3 & A4 & A5). assert (g <> f) as Hgf by (intros ->; by apply (Hfe i te Hi)).
      rewrite decide_False by done. split_and!; try done. intros Hn. rewrite lookup_total_insert_ne by done. by apply A5.
    + intros g Hg. destruct (decide (g = f)) as [->|Hne]; [by rewrite lookup_total_insert_eq|]. rewrite lookup_total_insert_ne by done. by apply tr_other.
  - intros i te g Hi Hg. destruct (vr_entries0 i te g Hi Hg) as (q & Hq & Hqg & Hpr). rewrite Hp in Hq. injection Hq as <-. exists p'. rewrite lookup_insert_eq.
    split_and!; [done| |done]. cbn [p' set_pages vp_pages]. rewrite lookup_insert_ne; [done|]. intros E. congruence.
  - intros pid q r' g Hq Hg. destruct (Hproc pid q Hq) as (q0 & Hq0 & _ & _ & [(-> & Eq & ->)|(Hne & ->)]).
    + rewrite Eq in Hg. destruct (decide (r' = r)) as [->|Hrr].
      * rewrite lookup_insert_eq in Hg. injection Hg as <-. rewrite decide_True by done. split; [done|]. symmetry. apply (vr_fresh0 _ p); [done| |].
        { unfold in_window. lia. } by replace (FIRST_PAGE + r - FIRST_PAGE) with r by lia.
      * rewrite lookup_insert_ne in Hg by done. destruct (vr_pages0 _ p r' g Hq0 Hg) as [B1 B2]. rewrite decide_False; [done|]. intros ->. by apply (Hfnew _ p r' Hq0).
    + destruct (vr_pages0 _ q0 r' g Hq0 Hg) as [B1 B2]. rewrite decide_False; [done|]. intros ->. by apply (Hfnew _ q0 r' Hq0).
  - intros pid q v Hq Hv Hn. destruct (Hproc pid q Hq) as (q0 & Hq0 & _ & -> & [(-> & Eq & ->)|(Hne & ->)]); [|by apply vr_fresh0].
    apply vr_fresh0; [done|done|]. rewrite Eq in Hn. by apply lookup_insert_None in Hn as [Hn _].
  - intros pid pid' q q' r1 r2 g Hq Hq' Hg Hg'. destruct (Hproc pid q Hq) as (q0 & Hq0 & _ & _ & Hc), (Hproc pid' q' Hq') as (q0' & Hq0' & _ & _ & Hc').
    assert (forall pid q0 q r1, vm_procs s !! pid = Some q0 -> (pid = vm_current s /\ vp_pages q = <[r:=f]> (vp_pages q0) /\ q0 = p \/ pid <> vm_current s /\ q = q0) ->
      vp_pages q !! r1 = Some g -> (g = f /\ pid = vm_current s /\ r1 = r) \/ (g <> f /\ vp_pages q0 !! r1 = Some g)) as Hcase.
    { clear -Hfnew. intros pid q0 q r1 Hq0 [(-> & Eq & ->)|(Hne & ->)] Hg.
      - rewrite Eq in Hg. apply lookup_insert_Some in Hg as [[<- <-]|[Hrr Hg]]; [by left|]. right. split; [|done]. intros ->. by apply (Hfnew _ p r1 Hq0).
      - right. split; [|done]. intros ->. by apply (Hfnew _ q0 r1 Hq0). }
    destruct (Hcase pid q0 q r1 Hq0 Hc Hg) as [(-> & -> & ->)|[Hgf Hg0]], (Hcase pid' q0' q' r2 Hq0' Hc' Hg') as [(E1 & E2 & E3)|[Hgf' Hg0']]; try done.
    by apply (vr_inj0 pid pid' q0 q0' r1 r2 g).
  - intros pid q r1 g Hq Hg. destruct (Hproc pid q Hq) as (q0 & Hq0 & _ & _ & [(-> & Eq & ->)|(Hne & ->)]).
    + rewrite Eq in Hg. apply lookup_insert_Some in Hg as [[<- <-]|[Hrr Hg]]; [done|]. pose proof (vr_free0 _ p r1 g Hq0 Hg) as Hnf. rewrite Efree in Hnf. by apply not_elem_of_cons in Hnf as [_ Hnf].
    + pose proof (vr_free0 _ q0 r1 g Hq0 Hg) as Hnf. rewrite Efree in Hnf. by apply not_elem_of_cons in Hnf as [_ Hnf].
  - intros pid. rewrite vr_segs0. destruct (decide (pid = vm_current s)) as [->|Hne]; [by rewrite lookup_insert_eq, Hp|by rewrite lookup_insert_ne by done].
Qed.

(** Changes of the device that keep the contents of the frames. *)
Lemma rep_tlb s A C t : vm_rep s A C -> tlb_rep t C -> length (tlb_entries t) = length (tlb_entries (vm_tlb s)) ->
  (forall i te f, tlb_entries t !! i = Some te -> te_phys te = Some f -> exists p,
    vm_procs s !! vm_current s = Some p /\ vp_pages p !! (te_virt te - FIRST_PAGE) = Some f /\
    (te_prot te = read_prot (vp_segments p) (te_virt te) \/ te_prot te = write_prot /\ writable (vp_segments p) (te_virt te) = true)) ->
  vm_rep (set_tlb t s) A C.
Proof. intros [] Ht El He. split; try done. cbn. by rewrite El. Qed.

Lemma rep_index s A C i : vm_rep s A C -> 0 <= i < TLB_SIZE -> vm_rep (put_index i s) A C.
Proof. intros [] Hi. by split. Qed.

(** The page of a mapped entry has the frame of the entry. *)
Lemma mapped_frame s A C p v i te : vm_rep s A C -> vm_procs s !! vm_current s = Some p -> mapped (vm_tlb s) v i te ->
  exists f, te_phys te = Some f /\ vp_pages p !! (v - FIRST_PAGE) = Some f /\
    (te_prot te = read_prot (vp_segments p) v \/ te_prot te = write_prot /\ writable (vp_segments p) v = true).
Proof.
  intros H Hp (Hi & Hv & Hf). destruct (te_phys te) as [f|] eqn:Ef; [|done]. exists f. split; [done|].
  destruct (vr_entries s A C H i te f Hi Ef) as (q & Hq & A1 & A2). rewrite Hp in Hq. injection Hq as <-. by rewrite Hv in *.
Qed.

Lemma mapped_unique s A C v i j te te' : vm_rep s A C -> mapped (vm_tlb s) v i te -> mapped (vm_tlb s) v j te' -> i = j.
Proof.
  intros H (Hi & Hv & Hf) (Hj & Hv' & Hf'). destruct (decide (i = j)) as [|Hne]; [done|]. exfalso.
  destruct (te_phys te) as [f|] eqn:Ef; [|done]. destruct (te_phys te') as [f'|] eqn:Ef'; [|done].
  destruct (tr_distinct _ _ (vr_tlb s A C H) i j te te' f f' Hi Hj Hne Ef Ef') as [Hn _]. congruence.
Qed.

(** An entry for a page that has a frame. *)
Lemma map_entry_ok s A C p idx v f prot : vm_rep s A C -> vm_procs s !! vm_current s = Some p -> in_window v ->
  vp_pages p !! (v - FIRST_PAGE) = Some f -> 0 <= idx < TLB_SIZE ->
  (forall j te, mapped (vm_tlb s) v j te -> j = Z.to_nat idx) ->
  prot = read_prot (vp_segments p) v \/ prot = write_prot /\ writable (vp_segments p) v = true ->
  wp (on_tlb (tlb_map idx v f prot)) s (fun _ s' => vm_rep s' A C /\ mapped (vm_tlb s') v (Z.to_nat idx) (TlbEntry v (Some f) prot) /\
    s' = set_tlb (vm_tlb s') s).
Proof.
  intros H Hp Hv Hf Hidx Hother Hprot. apply wp_on_tlb. pose proof (vr_size s A C H) as Hsz.
  assert (has P_READ prot = true) as Hrd.
  { destruct Hprot as [->|[-> _]]; [|done]. unfold read_prot. by destruct (executable _ _). }
  eapply wp_mono; [apply (tlb_map_ok (vm_tlb s) C idx v f prot); [apply (vr_tlb s A C H)|lia|done|done|]|].
  { intros j te Hj Hne Hn. assert (te_virt te <> v) as Hvv.
    { intros Hvv. apply Hne, (Hother j te). by split. }
    split; [done|]. intros Hff. destruct (vr_entries s A C H j te f Hj Hff) as (q & Hq & Hqf & _).
    destruct (vr_inj s A C H _ _ _ _ _ _ _ Hq Hp Hqf Hf) as [_ E]. lia. }
  intros r t (_ & Ht & Et). assert (Z.to_nat idx < length (tlb_entries (vm_tlb s)))%nat as Hlt by lia. split; [|split; [|done]].
  - apply rep_tlb; [done|done|by rewrite Et, length_insert|]. rewrite Et. intros i te g Hi Hg. rewrite list_lookup_insert in Hi. destruct (decide _) as [[-> _]|_].
    + injection Hi as <-. cbn [te_phys te_virt te_prot] in *. injection Hg as <-. by exists p.
    + by apply (vr_entries s A C H i).
  - split; [|by cbn]. cbn [set_tlb vm_tlb]. rewrite Et. by apply list_lookup_insert_eq.
Qed.

(** The frames that a fault at page [v] takes. *)
Definition frame_cost (s : vm) (v : Z) : Z :=
  match p ← vm_procs s !! vm_current s; vp_pages p !! (v - FIRST_PAGE) with Some _ => 0 | None => 1 end.

(** What a fault leaves: the same memories, the page mapped with [prot]. *)
Definition faulted_in (A : amem) (s : vm) (v prot : Z) (s' : vm) : Prop := exists C' i te p', vm_rep s' A C' /\ vm_current s' = vm_current s /\
  vm_procs s' !! vm_current s' = Some p' /\ mapped (vm_tlb s') v i te /\ te_prot te = prot /\
  Z.of_nat (length (vm_free s)) <= Z.of_nat (length (vm_free s')) + frame_cost s v.

Definition prot_of (segs : list exec_segment) (v : Z) (acc : access_kind) : Z := if decide (acc = ACCESS_READ) then read_prot segs v else write_prot.

Lemma map_page_ok s A C p index v acc : vm_rep s A C -> vm_procs s !! vm_current s = Some p -> in_window v -> found (vm_tlb s) v index ->
  (vp_pages p !! (v - FIRST_PAGE) = None -> vm_free s <> []) -> (acc <> ACCESS_READ -> writable (vp_segments p) v = true) ->
  wp (map_page (seg_of (vp_segments p) v) index (v - FIRST_PAGE) v acc) s (fun _ s' => faulted_in A s v (prot_of (vp_segments p) v acc) s').
Proof.
  intros H Hp Hv Hidx Hfree Hw. unfold map_page. step. eapply wp_current; [exact Hp|]. step.
  apply (wp_mono _ _ (fun f s1 => exists C1 p1, vm_rep s1 A C1 /\ vm_current s1 = vm_current s /\ vm_procs s1 !! vm_current s1 = Some p1 /\
    vp_pages p1 !! (v - FIRST_PAGE) = Some f /\ vp_segments p1 = vp_segments p /\ tlb_entries (vm_tlb s1) = tlb_entries (vm_tlb s) /\
    Z.of_nat (length (vm_free s)) <= Z.of_nat (length (vm_free s1)) + frame_cost s v)).
  { unfold frame_cost. rewrite Hp. cbn [mbind option_bind].
    destruct (vp_pages p !! (v - FIRST_PAGE)) as [f|] eqn:Ef.
    - step. exists C, p. split_and!; try done. lia.
    - assert (unmapped (vm_tlb s) v) as Hun.
      { intros i te Hi Hn Hvv. destruct (mapped_frame s A C p v i te H Hp ltac:(by split_and!)) as (g & _ & Hg & _). congruence. }
      assert (index < 0) as Hneg. { destruct Hidx as [[-> _]|(i & te & _ & Hm)]; [lia|]. destruct Hm as (Hi & Hvv & Hn). by destruct (Hun i te Hi Hn). }
      step. apply wp_assert; [by apply bool_decide_eq_true|]. unfold in_window in Hv.
      eapply wp_mono; [pose proof (new_frame_ok s A C p (v - FIRST_PAGE) H Hp ltac:(lia) Ef) as Hnew;
        replace (FIRST_PAGE + (v - FIRST_PAGE)) with v in Hnew by lia; apply (Hnew Hun (Hfree eq_refl))|].
      intros f s1 (C1 & p1 & A1 & A2 & A3 & A4 & A5 & A6 & A7). exists C1, p1. rewrite A2 in *. split_and!; try done. lia. }
  intros f s1 (C1 & p1 & H1 & Ec & Hp1 & Hf1 & Eseg & Eent & Elen). step. step. step.
  assert (forall j te, mapped (vm_tlb s1) v j te -> mapped (vm_tlb s) v j te) as Hsame by (unfold mapped; by rewrite Eent).
  apply (wp_mono _ _ (fun idx s2 => vm_rep s2 A C1 /\ vm_current s2 = vm_current s1 /\ vm_procs s2 = vm_procs s1 /\ vm_tlb s2 = vm_tlb s1 /\ vm_free s2 = vm_free s1 /\
    0 <= idx < TLB_SIZE /\ forall j te, mapped (vm_tlb s1) v j te -> j = Z.to_nat idx)).
  { pose proof (vr_index s1 A C1 H1) as Hix. destruct Hidx as [[-> Hun]|(i & te & -> & Hm)].
    - rewrite decide_True by lia. step. step. step. split_and!; try done; try apply Hix.
      + apply rep_index; [done|]. unfold TLB_SIZE in *. apply Z.mod_pos_bound. lia.
      + intros j te Hj. destruct (Hsame j te Hj) as (Hi & Hvv & Hn). by destruct (Hun j te Hi Hn).
    - rewrite decide_False by lia. step. destruct Hm as (Hi & Hvv & Hn). pose proof (vr_size s A C H). apply lookup_lt_Some in Hi as Hlt. split_and!; try done; [lia|lia|].
      intros j te' Hj. rewrite Nat2Z.id. apply (mapped_unique s A C v j i te' te H (Hsame j te' Hj)). by split_and!. }
  intros idx s2 (H2 & Ec2 & Ep2 & Et2 & Ef2 & Hidx2 & Hoth2). cbv zeta. step.
  replace (if decide (acc = ACCESS_READ) then _ else _) with (prot_of (vp_segments p) v acc) by reflexivity.
  eapply wp_mono; [apply (map_entry_ok s2 A C1 p1 idx v f (prot_of (vp_segments p) v acc)); [done|by rewrite Ep2, Ec2|done|done|done|by rewrite Et2|]|].
  { rewrite Eseg. unfold prot_of. destruct (decide (acc = ACCESS_READ)) as [|Hn]; [by left|right; split; [done|by apply Hw]]. }
  intros r s3 (H3 & Hm3 & E3). step. exists C1, (Z.to_nat idx), (TlbEntry v (Some f) (prot_of (vp_segments p) v acc)), p1. rewrite E3 in *. cbn [set_tlb vm_tlb vm_procs vm_current vm_free] in *.
  split_and!; [done|congruence|congruence|done|done|rewrite Ef2; lia].
Qed.

(** * The end of a process *)

Definition kill (A : amem) : amem := AMem (am_mem A) (fun pid => if decide (pid = am_current A) then None else am_segs A pid) (am_current A).

(** [pages] are still to be released. *)
Record releasing (s : vm) (C : Z -> page) (p : vproc) (done : list Z) (s' : vm) : Prop := {
  re_tlb : tlb_rep (vm_tlb s') C;
  re_fewer : fewer (fun _ => True) (vm_tlb s) (vm_tlb s');
  re_unmapped : forall r f, r ∈ done -> vp_pages p !! r = Some f -> unmapped (vm_tlb s') (FIRST_PAGE + r);
  re_state : vm_procs s' = vm_procs s /\ vm_current s' = vm_current s /\ vm_index s' = vm_index s;
  re_free : vm_free s' = vm_free s ++ omap (fun r => vp_pages p !! r) done;
}.

Lemma fewer_trans P Q (m1 m2 m3 : tlb) : fewer P m1 m2 -> fewer Q m2 m3 -> fewer (fun _ => True) m1 m3.
Proof. intros (E1 & A1 & B1) (E2 & A2 & B2). split_and!; [congruence| |done]. intros i te Hi Hn. apply A1; [by apply A2|done]. Qed.

Lemma omap_app_one {A B} (g : A -> option B) l x : omap g (l ++ [x]) = omap g l ++ match g x with Some y => [y] | None => [] end.
Proof. by rewrite omap_app. Qed.

Lemma release_page_ok s C p l r s1 : releasing s C p l s1 -> wp (release_page p r) s1 (fun _ s' => releasing s C p (l ++ [r]) s').
Proof.
  intros []. unfold release_page. destruct (vp_pages p !! r) as [f|] eqn:Ef.
  2:{ step. split; try done.
    - intros r' f Hr Hf. apply elem_of_app in Hr as [Hr|Hr]; [by apply (re_unmapped0 r' f)|]. apply list_elem_of_singleton in Hr as ->. congruence.
    - by rewrite omap_app_one, Ef, app_nil_r. }
  step. apply wp_on_tlb. eapply wp_mono; [apply (tlb_unmap_ok (vm_tlb s1) C (FIRST_PAGE + r) re_tlb0)|]. intros [] t (Ht & Hfew & Hun). step.
  split; cbn [set_free set_tlb vm_tlb vm_procs vm_current vm_index vm_free].
  - done.
  - by eapply fewer_trans.
  - intros r' f' Hr Hf. apply elem_of_app in Hr as [Hr|Hr]; [|apply list_elem_of_singleton in Hr as ->; exact Hun].
    intros i te Hi Hn. destruct Hfew as (_ & Hback & _). apply (re_unmapped0 r' f' Hr Hf i te); [by apply Hback|done].
  - done.
  - by rewrite omap_app_one, Ef, re_free0, app_assoc.
Qed.

Lemma release_pages_ok s C p pages : forall l s1, releasing s C p l s1 -> wp (release_pages p pages) s1 (fun _ s' => releasing s C p (l ++ pages) s').
Proof.
  induction pages as [|r pages IH]; intros l s1 H; cbn [release_pages]; [step; by rewrite app_nil_r|]. step.
  eapply wp_mono; [by apply release_page_ok|]. intros [] s2 H2. replace (l ++ r :: pages) with ((l ++ [r]) ++ pages) by by rewrite <- app_assoc. by apply IH.
Qed.

(** The frames of a process are each on the free list once it has ended. *)
Lemma page_frames_nodup s A C pid p l : vm_rep s A C -> vm_procs s !! pid = Some p -> NoDup l -> NoDup (omap (fun r => vp_pages p !! r) l).
Proof.
  intros H Hp. induction 1 as [|r l Hr Hnd IH]; cbn; [constructor|]. destruct (vp_pages p !! r) as [f|] eqn:Ef; [|exact IH]. constructor; [|exact IH].
  intros Hin. apply list_elem_of_omap in Hin as (r' & Hr' & Hf'). destruct (vr_inj s A C H _ _ _ _ _ _ _ Hp Hp Ef Hf') as [_ ->]. done.
Qed.

Lemma term_current_ok s A C p : vm_rep s A C -> vm_procs s !! vm_current s = Some p ->
  wp term_current s (fun _ s' => vm_rep s' (kill A) C /\ vm_current s' = vm_current s /\ Z.of_nat (length (vm_free s)) <= Z.of_nat (length (vm_free s'))).
Proof.
  intros H Hp. unfold term_current. step. eapply wp_current; [exact Hp|]. step.
  eapply wp_mono; [apply (release_pages_ok s C p (seqZ 0 VIRT_PAGES) [] s)|].
  { split; [apply (vr_tlb s A C H)|apply fewer_refl| |done|by rewrite app_nil_r]. intros r f Hr. by apply not_elem_of_nil in Hr. }
  intros [] s1 []. cbn [app] in *. destruct re_state0 as (Ep & Ec & Ei). step. set (frames := omap (fun r => vp_pages p !! r) (seqZ 0 VIRT_PAGES)) in *.
  split; [|split; [done|cbn; rewrite re_free0, length_app; lia]].
  assert (forall te, te ∈ tlb_entries (vm_tlb s1) -> te_phys te = None) as Hnone.
  { intros te Hte. apply list_elem_of_lookup in Hte as [i Hi]. destruct (te_phys te) as [f|] eqn:Ef; [|done]. exfalso.
    destruct re_fewer0 as (_ & Hback & _). assert (te_phys te <> None) as Hn by congruence. pose proof (Hback i te Hi Hn) as Hi0.
    destruct (vr_entries s A C H i te f Hi0 Ef) as (q & Hq & Hf & _). rewrite Hp in Hq. injection Hq as <-.
    destruct (vr_pages s A C H _ p _ f Hp Hf) as [Hr _]. apply (re_unmapped0 (te_virt te - FIRST_PAGE) f ltac:(apply elem_of_seqZ; lia) Hf i te Hi Hn). lia. }
  assert (forall f, f ∈ frames <-> exists r, vp_pages p !! r = Some f) as Hframes.
  { intros f. unfold frames. rewrite list_elem_of_omap. split; [intros (r & _ & Hr); by exists r|]. intros (r & Hr). exists r. split; [|done].
    destruct (vr_pages s A C H _ p r f Hp Hr) as [Hrr _]. apply elem_of_seqZ. lia. }
  assert (forall pid q, delete (vm_current s) (vm_procs s) !! pid = Some q -> pid <> vm_current s /\ vm_procs s !! pid = Some q) as Hproc.
  { intros pid q Hq. apply lookup_delete_Some in Hq as [Hne Hq]. split; [by intros ->|done]. }
  pose proof H as []. split; cbn [set_procs vm_tlb vm_procs vm_current vm_index vm_free]; try rewrite Ep; try rewrite Ec; try rewrite Ei.
  - done.
  - destruct re_fewer0 as [-> _]. done.
  - done.
  - intros i te f Hi Hf. rewrite (Hnone te) in Hf; [done|]. by eapply list_elem_of_lookup_2.
  - intros pid q r f Hq. apply Hproc in Hq as [Hne Hq]. by apply vr_pages0.
  - intros pid q v Hq. apply Hproc in Hq as [Hne Hq]. by apply vr_fresh0.
  - intros pid pid' q q' r r' f Hq Hq'. apply Hproc in Hq as [_ Hq], Hq' as [_ Hq']. by apply vr_inj0.
  - rewrite re_free0. apply NoDup_app. split_and!; [done| |apply (page_frames_nodup s A C _ p _ H Hp), NoDup_seqZ].
    intros f Hf Hin. apply Hframes in Hin as [r Hr]. by apply (vr_free0 _ p r f Hp Hr).
  - intros pid q r f Hq Hf Hin. apply Hproc in Hq as [Hne Hq]. rewrite re_free0 in Hin. apply elem_of_app in Hin as [Hin|Hin]; [by apply (vr_free0 pid q r f)|].
    apply Hframes in Hin as [r' Hr']. by destruct (vr_inj0 _ _ _ _ _ _ _ Hq Hp Hf Hr') as [-> _].
  - intros pid. cbn [kill am_segs]. rewrite vr_current0, vr_segs0. destruct (decide (pid = vm_current s)) as [->|Hne]; [by rewrite lookup_delete_eq|by rewrite lookup_delete_ne].
  - done.
Qed.

(** * Faults *)

Definition killed_in (A : amem) (s s' : vm) : Prop := exists C', vm_rep s' (kill A) C' /\ vm_current s' = vm_current s /\
  Z.of_nat (length (vm_free s)) <= Z.of_nat (length (vm_free s')).

Lemma kill_killed s A C p : vm_rep s A C -> vm_procs s !! vm_current s = Some p ->
  wp (term_current;; mret false) s (fun r s' => r = false /\ killed_in A s s').
Proof. intros H Hp. step. eapply wp_mono; [by eapply term_current_ok|]. intros [] s' (H' & E & L). step. split; [done|]. by exists C. Qed.

Lemma fault_out_of_range s A C p virt acc : vm_rep s A C -> vm_procs s !! vm_current s = Some p -> ~ in_window (virt / PAGE_BYTES) ->
  wp (proc_pagefault virt acc) s (fun r s' => r = false /\ killed_in A s s').
Proof.
  intros H Hp Hv. rewrite range_window in Hv. unfold proc_pagefault. rewrite decide_True by lia. by eapply kill_killed.
Qed.

(** Faults in the window, once the kind of access is known. *)
Lemma fault_in_window s A C p virt acc (Q : bool -> vm -> Prop) : vm_rep s A C -> vm_procs s !! vm_current s = Some p -> in_window (virt / PAGE_BYTES) ->
  (forall index, found (vm_tlb s) (virt / PAGE_BYTES) index ->
     wp (g ← guess_access (seg_of (vp_segments p) (virt / PAGE_BYTES)) index acc;
         match g with
         | None => term_current;; mret false
         | Some acc => map_page (seg_of (vp_segments p) (virt / PAGE_BYTES)) index (virt / PAGE_BYTES - FIRST_PAGE) (virt / PAGE_BYTES) acc;; mret true
         end) s Q) ->
  wp (proc_pagefault virt acc) s Q.
Proof.
  intros H Hp Hv HQ. pose proof Hv as Hr. rewrite range_window in Hr. unfold proc_pagefault. rewrite decide_False by lia. rewrite rel_page_of. cbv zeta.
  step. eapply wp_current; [exact Hp|]. step. apply get_entry_ok. exact HQ.
Qed.

Lemma map_true s A C p index v acc : vm_rep s A C -> vm_procs s !! vm_current s = Some p -> in_window v -> found (vm_tlb s) v index ->
  (vp_pages p !! (v - FIRST_PAGE) = None -> vm_free s <> []) -> (acc <> ACCESS_READ -> writable (vp_segments p) v = true) ->
  wp (map_page (seg_of (vp_segments p) v) index (v - FIRST_PAGE) v acc;; mret true) s
    (fun r s' => r = true /\ faulted_in A s v (prot_of (vp_segments p) v acc) s').
Proof. intros. step. eapply wp_mono; [by eapply map_page_ok|]. intros [] s' H'. by step. Qed.

(** The kernel's faults. *)
Lemma fault_known s A C p virt acc : vm_rep s A C -> vm_procs s !! vm_current s = Some p -> in_window (virt / PAGE_BYTES) -> acc <> ACCESS_UNKNOWN ->
  (vp_pages p !! (virt / PAGE_BYTES - FIRST_PAGE) = None -> vm_free s <> []) -> (acc <> ACCESS_READ -> writable (vp_segments p) (virt / PAGE_BYTES) = true) ->
  wp (proc_pagefault virt acc) s (fun r s' => r = true /\ faulted_in A s (virt / PAGE_BYTES) (prot_of (vp_segments p) (virt / PAGE_BYTES) acc) s').
Proof.
  intros H Hp Hv Ha Hfree Hw. eapply fault_in_window; [done|done|done|]. intros index Hidx. step. unfold guess_access. rewrite decide_True by done. step.
  by eapply map_true.
Qed.

(** A first access makes the page readable. *)
Lemma fault_unmapped s A C p virt : vm_rep s A C -> vm_procs s !! vm_current s = Some p -> in_window (virt / PAGE_BYTES) ->
  unmapped (vm_tlb s) (virt / PAGE_BYTES) -> (vp_pages p !! (virt / PAGE_BYTES - FIRST_PAGE) = None -> vm_free s <> []) ->
  wp (proc_pagefault virt ACCESS_UNKNOWN) s (fun r s' => r = true /\ faulted_in A s (virt / PAGE_BYTES) (read_prot (vp_segments p) (virt / PAGE_BYTES)) s').
Proof.
  intros H Hp Hv Hun Hfree. eapply fault_in_window; [done|done|done|]. intros index Hidx. step. unfold guess_access. rewrite decide_False by (intros Hn; by apply Hn).
  destruct Hidx as [[-> _]|(i & te & _ & Hi & Hvv & Hn)]; [|by destruct (Hun i te Hi Hn)]. rewrite decide_False by lia. step.
  apply (map_true s A C p (-1) (virt / PAGE_BYTES) ACCESS_READ); [done|done|done|by left|done|done].
Qed.

Lemma read_prot_has segs v : has P_READ (read_prot segs v) = true /\ has P_WRITE (read_prot segs v) = false /\ has P_EXEC (read_prot segs v) = executable segs v.
Proof. unfold read_prot. by destruct (executable segs v). Qed.

Lemma writable_seg segs v : match seg_of segs v with Some es => negb (has P_WRITE (es_prot es)) | None => false end = negb (writable segs v).
Proof. unfold writable. by destruct (seg_of segs v). Qed.

(** What the guess is for a page that is mapped. *)
Lemma guess_mapped s p v i te : tlb_entries (vm_tlb s) !! i = Some te ->
  wp (guess_access (seg_of (vp_segments p) v) (Z.of_nat i) ACCESS_UNKNOWN) s
    (fun g s' => s' = s /\ g = if writable (vp_segments p) v then if has P_WRITE (te_prot te) then None else Some ACCESS_WRITE else None).
Proof.
  intros Hi. unfold guess_access. rewrite decide_False by (intros Hn; by apply Hn). rewrite decide_True by lia. rewrite writable_seg.
  destruct (writable _ _); cbn [negb]; [|by step]. step. apply wp_on_tlb. eapply wp_mono; [by apply tlb_get_ok|]. intros x t (-> & ->).
  replace (set_tlb (vm_tlb s) s) with s by by destruct s. by destruct (has P_WRITE (te_prot te)); step.
Qed.

Lemma fault_mapped s A C p virt i te : vm_rep s A C -> vm_procs s !! vm_current s = Some p -> in_window (virt / PAGE_BYTES) ->
  mapped (vm_tlb s) (virt / PAGE_BYTES) i te ->
  wp (proc_pagefault virt ACCESS_UNKNOWN) s (fun r s' =>
    if writable (vp_segments p) (virt / PAGE_BYTES) && negb (has P_WRITE (te_prot te))
    then r = true /\ faulted_in A s (virt / PAGE_BYTES) write_prot s' else r = false /\ killed_in A s s').
Proof.
  intros H Hp Hv Hm. pose proof Hm as (Hi & Hvv & Hn). eapply fault_in_window; [done|done|done|]. intros index Hidx. step.
  assert (index = Z.of_nat i) as ->.
  { destruct Hidx as [[_ Hun]|(j & te' & -> & Hm')]; [by destruct (Hun i te Hi Hn)|]. f_equal. by eapply mapped_unique. }
  eapply wp_mono; [by apply guess_mapped|]. intros g s' [-> ->]. destruct (writable _ _) eqn:EW; cbn [andb]; [destruct (has P_WRITE (te_prot te)); cbn [negb]|].
  - by eapply kill_killed.
  - apply (map_true s A C p (Z.of_nat i) (virt / PAGE_BYTES) ACCESS_WRITE); [done|done|done|done| |done].
    intros Hnone. destruct (mapped_frame s A C p _ i te H Hp Hm) as (f & _ & Hf & _). congruence.
  - by eapply kill_killed.
Qed.

(** * Accesses *)

Definition legal (segs : list exec_segment) (v : Z) (a : access) : bool :=
  match a with ALoad => true | AStore => writable segs v | AFetch => executable segs v end.

(** The access may go on in [s1], which has the memories of [s]. *)
Definition ready (A : amem) (s : vm) (v : Z) (a : access) (s1 : vm) : Prop := exists C1 i te p1, vm_rep s1 A C1 /\ vm_current s1 = vm_current s /\
  vm_procs s1 !! vm_current s1 = Some p1 /\ mapped (vm_tlb s1) v i te /\ (a = AStore -> has P_WRITE (te_prot te) = true) /\
  Z.of_nat (length (vm_free s)) <= Z.of_nat (length (vm_free s1)) + frame_cost s v.

Lemma lookup_entry_dec m v : (exists i te, mapped m v i te) \/ unmapped m v.
Proof.
  destruct (find_te_ok (tlb_entries m) v 0 ltac:(lia)) as [[_ Hn]|(j & te & _ & Hj & H1 & H2)]; [by right|left].
  exists j, te. by split_and!.
Qed.

(** What a page mapped with [prot] allows. *)
Definition grants (a : access) (prot : Z) : bool :=
  match a with ALoad => true | AStore => has P_WRITE prot | AFetch => has P_EXEC prot end.

Lemma allowed_mapped s A C v i te a : vm_rep s A C -> mapped (vm_tlb s) v i te ->
  allowed a (host_prot (vm_tlb s) v) = grants a (te_prot te).
Proof.
  intros H (Hi & <- & Hn). destruct (te_phys te) as [f|] eqn:Ef; [|done].
  by destruct (access_page (vm_tlb s) C i te f a (vr_tlb s A C H) Hi Ef) as [_ ->].
Qed.

Lemma rep_segs s A C p : vm_rep s A C -> vm_procs s !! vm_current s = Some p -> am_segs A (am_current A) = Some (vp_segments p).
Proof. intros H Hp. by rewrite (vr_current s A C H), (vr_segs s A C H), Hp. Qed.

Lemma frame_cost_bound s v : 0 <= frame_cost s v <= 1.
Proof. unfold frame_cost. destruct (_ ≫= _); lia. Qed.

Lemma frame_cost_mapped s A C p v i te : vm_rep s A C -> vm_procs s !! vm_current s = Some p -> mapped (vm_tlb s) v i te -> frame_cost s v = 0.
Proof.
  intros H Hp Hm. destruct (mapped_frame s A C p v i te H Hp Hm) as (f & _ & Hf & _). unfold frame_cost. rewrite Hp. cbn [mbind option_bind]. by rewrite Hf.
Qed.

Lemma grants_write segs v a : writable segs v = true -> (a = AFetch -> executable segs v = true -> writable segs v = false) ->
  grants a write_prot = legal segs v a.
Proof.
  intros Hw Hf. destruct a; cbn [grants legal]; [done|by rewrite Hw|]. destruct (executable segs v); [|done]. by rewrite (Hf eq_refl eq_refl) in Hw.
Qed.

Lemma grants_read segs v a : grants a (read_prot segs v) = true -> legal segs v a = true.
Proof. destruct (read_prot_has segs v) as (_ & HW & HX). destruct a; cbn [grants legal]; [done|by rewrite HW|by rewrite HX]. Qed.

Lemma legal_read segs v a : writable segs v = false -> legal segs v a = grants a (read_prot segs v).
Proof. intros Hw. destruct (read_prot_has segs v) as (_ & HW & HX). destruct a; cbn [grants legal]; congruence. Qed.

Section Retry.
Context {T : Type} (a : access) (virt : Z) (k : M vm T) (A : amem) (segs : list exec_segment).
Local Abbreviation v := (virt / PAGE_BYTES).
Context (Hsegs : am_segs A (am_current A) = Some segs) (Hfetch : a = AFetch -> executable segs v = true -> writable segs v = false).

(** What follows, when the access started in [s]. *)
Definition resumes (s : vm) (Q : option T -> vm -> Prop) : Prop :=
  (in_window v -> legal segs v a = true -> forall s1, ready A s v a s1 -> wp k s1 (fun x s' => Q (Some x) s')) /\
  (~ (in_window v /\ legal segs v a = true) -> forall C' s', vm_rep s' (kill A) C' -> vm_current s' = vm_current s ->
    Z.of_nat (length (vm_free s)) <= Z.of_nat (length (vm_free s')) + frame_cost s v -> Q None s').

(** A later state, after some faults. *)
Lemma resumes_later s s1 Q : vm_current s1 = vm_current s ->
  Z.of_nat (length (vm_free s)) + frame_cost s1 v <= Z.of_nat (length (vm_free s1)) + frame_cost s v ->
  resumes s Q -> resumes s1 Q.
Proof.
  intros Ec El [H1 H2]. split.
  - intros Hv Hl s2 (C2 & i & te & p2 & B1 & B2 & B3 & B4 & B5 & B6). apply H1; [done|done|]. exists C2, i, te, p2. split_and!; try done; [congruence|lia].
  - intros Hn C' s' B1 B2 B3. apply (H2 Hn C'); [done|congruence|lia].
Qed.

Lemma killed_resumes s s' Q : resumes s Q -> ~ (in_window v /\ legal segs v a = true) -> killed_in A s s' -> Q None s'.
Proof. intros [_ H2] Hn (C' & B1 & B2 & B3). apply (H2 Hn C'); [done|done|]. pose proof (frame_cost_bound s v). lia. Qed.

Lemma retry_allowed fuel s C p i te Q : vm_rep s A C -> vm_procs s !! vm_current s = Some p -> mapped (vm_tlb s) v i te -> in_window v ->
  legal segs v a = true -> allowed a (host_prot (vm_tlb s) v) = true -> resumes s Q -> wp (retry (S fuel) a virt k) s Q.
Proof.
  intros H Hp Hm Hv Hl Ha [H1 _]. cbn [retry]. step. step. rewrite Ha. step. eapply wp_mono; [apply (H1 Hv Hl s)|intros x s' Hq; by step].
  exists C, i, te, p. split_and!; try done; [|pose proof (frame_cost_bound s v); lia].
  rewrite (allowed_mapped s A C v i te a H Hm) in Ha. intros E. by rewrite E in Ha.
Qed.

(** A page that is mapped for writing. *)
Lemma retry_write fuel s C p i te Q : vm_rep s A C -> vm_procs s !! vm_current s = Some p -> mapped (vm_tlb s) v i te -> in_window v ->
  te_prot te = write_prot -> writable segs v = true -> resumes s Q -> wp (retry (S fuel) a virt k) s Q.
Proof.
  intros H Hp Hm Hv Hpr Hw HQ. pose proof (allowed_mapped s A C v i te a H Hm) as Eal. rewrite Hpr, (grants_write segs v a Hw Hfetch) in Eal.
  destruct (allowed a (host_prot (vm_tlb s) v)) eqn:Ea; [by eapply retry_allowed|].
  cbn [retry]. step. step. rewrite Ea. step. eapply wp_mono; [by eapply (fault_mapped s A C p virt i te)|].
  intros r s'. rewrite Hpr. replace (negb (has P_WRITE write_prot)) with false by reflexivity. rewrite andb_false_r. intros [-> Hk]. step.
  apply (killed_resumes s s' Q HQ); [|done]. intros [_ Hl]. congruence.
Qed.

(** A page that is mapped for reading. *)
Lemma retry_read fuel s C p i te Q : vm_rep s A C -> vm_procs s !! vm_current s = Some p -> mapped (vm_tlb s) v i te -> in_window v ->
  te_prot te = read_prot segs v -> resumes s Q -> wp (retry (S (S fuel)) a virt k) s Q.
Proof.
  intros H Hp Hm Hv Hpr HQ. assert (vp_segments p = segs) as Es by (pose proof (rep_segs s A C p H Hp); congruence).
  pose proof (allowed_mapped s A C v i te a H Hm) as Eal. rewrite Hpr in Eal. destruct (read_prot_has segs v) as (_ & HW & _).
  destruct (allowed a (host_prot (vm_tlb s) v)) eqn:Ea; [eapply retry_allowed; [done|done|done|done|by apply grants_read|done|done]|].
  cbn [retry]. step. step. rewrite Ea. step. eapply wp_mono; [by eapply (fault_mapped s A C p virt i te)|].
  intros r s1. rewrite Es, Hpr, HW. cbn [negb]. rewrite andb_true_r. case_eq (writable segs v); intros EW.
  - intros [-> (C1 & i1 & te1 & p1 & B1 & B2 & B3 & B4 & B5 & B6)]. eapply (retry_write fuel s1 C1 p1 i1 te1); try done.
    apply (resumes_later s s1 Q B2); [|done]. rewrite (frame_cost_mapped s1 A C1 p1 v i1 te1 B1 B3 B4). lia.
  - intros [-> Hk]. step. apply (killed_resumes s s1 Q HQ); [|done]. intros [_ Hl]. rewrite (legal_read segs v a EW) in Hl. congruence.
Qed.

Lemma retry_ok s C p Q : vm_rep s A C -> vm_procs s !! vm_current s = Some p -> frame_cost s v <= Z.of_nat (length (vm_free s)) ->
  resumes s Q -> wp (retry 3 a virt k) s Q.
Proof.
  intros H Hp Hfree HQ. assert (vp_segments p = segs) as Es by (pose proof (rep_segs s A C p H Hp); congruence).
  destruct (lookup_entry_dec (vm_tlb s) v) as [(i & te & Hm)|Hun].
  - pose proof Hm as (Hi & Hvv & Hn). destruct (te_phys te) as [f|] eqn:Ef; [|done].
    destruct (tr_entry _ _ (vr_tlb s A C H) i te f Hi Ef) as (Hv & _). rewrite Hvv in Hv.
    destruct (mapped_frame s A C p v i te H Hp Hm) as (g & _ & _ & [Hpr|[Hpr Hw]]); rewrite Es in *.
    + by eapply (retry_read 1 s C p i te).
    + by eapply (retry_write 2 s C p i te).
  - cbn [retry]. step. step. rewrite (access_none (vm_tlb s) C v a (vr_tlb s A C H) Hun). step. destruct (decide (in_window v)) as [Hv|Hv].
    + eapply wp_mono; [apply (fault_unmapped s A C p virt H Hp Hv Hun)|].
      { intros Hnone Hnil. unfold frame_cost in Hfree. rewrite Hp, Hnil in Hfree. cbn [mbind option_bind] in Hfree. rewrite Hnone in Hfree. cbn in Hfree. lia. }
      intros r s1 [-> (C1 & i1 & te1 & p1 & B1 & B2 & B3 & B4 & B5 & B6)].
      change (wp (retry 2 a virt k) s1 Q).
      rewrite Es in B5. eapply (retry_read 0 s1 C1 p1 i1 te1); try done.
      apply (resumes_later s s1 Q B2); [|done]. rewrite (frame_cost_mapped s1 A C1 p1 v i1 te1 B1 B3 B4). lia.
    + eapply wp_mono; [by eapply fault_out_of_range|]. intros r s' [-> Hk]. step. apply (killed_resumes s s' Q HQ); [|done]. by intros [].
Qed.
End Retry.

(** ** Bytes *)

Definition mem_byte (A : amem) (virt : Z) : option Init.Byte.byte := am_mem A (am_current A) (virt / PAGE_BYTES) !! page_offset virt.

Definition store_at (A : amem) (virt : Z) (b : Init.Byte.byte) : amem :=
  AMem (fun pid v => if decide (pid = am_current A /\ v = virt / PAGE_BYTES) then <[page_offset virt:=b]> (am_mem A pid v) else am_mem A pid v)
    (am_segs A) (am_current A).

(** What the window has of a mapped page is the memory of the process. *)
Lemma window_byte s A C p virt i te : vm_rep s A C -> vm_procs s !! vm_current s = Some p -> mapped (vm_tlb s) (virt / PAGE_BYTES) i te ->
  (tlb_window (vm_tlb s) !!! (virt / PAGE_BYTES)) !! page_offset virt = mem_byte A virt.
Proof.
  intros H Hp Hm. destruct (mapped_frame s A C p _ i te H Hp Hm) as (f & Hf & Hpf & _). destruct Hm as (Hi & Hvv & _). rewrite <- Hvv at 1.
  destruct (access_page (vm_tlb s) C i te f ALoad (vr_tlb s A C H) Hi Hf) as [-> _]. destruct (vr_pages s A C H _ p _ f Hp Hpf) as [_ ->].
  unfold mem_byte. rewrite (vr_current s A C H). by replace (FIRST_PAGE + (virt / PAGE_BYTES - FIRST_PAGE)) with (virt / PAGE_BYTES) by lia.
Qed.

Lemma load_ok s A C p virt i te (Q : option Init.Byte.byte -> vm -> Prop) : vm_rep s A C -> vm_procs s !! vm_current s = Some p ->
  mapped (vm_tlb s) (virt / PAGE_BYTES) i te -> Q (mem_byte A virt) s -> wp (load_user virt) s Q.
Proof. intros H Hp Hm HQ. unfold load_user. step. step. step. by erewrite window_byte. Qed.

Lemma store_rep s A C p virt i te b : vm_rep s A C -> vm_procs s !! vm_current s = Some p -> mapped (vm_tlb s) (virt / PAGE_BYTES) i te ->
  has P_WRITE (te_prot te) = true ->
  wp (store_user virt b) s (fun _ s' => (exists C', vm_rep s' (store_at A virt b) C') /\ vm_current s' = vm_current s /\ vm_procs s' = vm_procs s /\
    vm_free s' = vm_free s /\ tlb_entries (vm_tlb s') = tlb_entries (vm_tlb s)).
Proof.
  intros H Hp Hm HW. destruct (mapped_frame s A C p _ i te H Hp Hm) as (f & Hf & Hpf & _). pose proof Hm as (Hi & Hvv & _).
  unfold store_user. apply wp_on_tlb. step. split_and!; try done. pose proof (store_ok _ _ i te f (page_offset virt) b (vr_tlb s A C H) Hi Hf HW) as Ht.
  rewrite Hvv in Ht. destruct (vr_pages s A C H _ p _ f Hp Hpf) as [_ EC]. replace (FIRST_PAGE + (virt / PAGE_BYTES - FIRST_PAGE)) with (virt / PAGE_BYTES) in EC by lia.
  exists (fun g => if decide (g = f) then <[page_offset virt:=b]> (C f) else C g). pose proof H as [].
  split; cbn [set_tlb vm_tlb vm_procs vm_current vm_free vm_index store_at am_mem am_segs am_current]; try done.
  - intros pid q r g Hq Hg. destruct (vr_pages0 pid q r g Hq Hg) as [Hr EC']. split; [done|]. rewrite vr_current0. destruct (decide (g = f)) as [->|Hne].
    + destruct (vr_inj0 _ _ _ _ _ _ _ Hq Hp Hg Hpf) as [-> ->]. rewrite decide_True by (split; [done|lia]). rewrite EC. do 2 f_equal. lia.
    + rewrite decide_False; [done|]. intros [-> E]. rewrite Hp in Hq. injection Hq as <-. apply Hne. replace r with (virt / PAGE_BYTES - FIRST_PAGE) in Hg by lia. congruence.
  - intros pid q v Hq Hv Hn. rewrite vr_current0, decide_False; [by apply vr_fresh0|]. intros [-> ->]. rewrite Hp in Hq. injection Hq as <-. congruence.
Qed.

(** ** Copies of the kernel *)

(** A page that the kernel may use, after at most one fault. *)
Definition usable (A : amem) (s : vm) (v : Z) (wr : bool) (s1 : vm) : Prop := exists C1 p1 i te, vm_rep s1 A C1 /\ vm_current s1 = vm_current s /\
  vm_procs s1 !! vm_current s1 = Some p1 /\ mapped (vm_tlb s1) v i te /\ (wr = true -> has P_WRITE (te_prot te) = true) /\
  Z.of_nat (length (vm_free s)) <= Z.of_nat (length (vm_free s1)) + 1.

Lemma faulted_usable A s v prot s1 wr : faulted_in A s v prot s1 -> (wr = true -> has P_WRITE prot = true) -> usable A s v wr s1.
Proof.
  intros (C1 & i & te & p1 & B1 & B2 & B3 & B4 & B5 & B6) Hw. exists C1, p1, i, te. split_and!; try done; [by rewrite B5|].
  pose proof (frame_cost_bound s v). lia.
Qed.

Lemma mapped_usable A s C p v i te wr : vm_rep s A C -> vm_procs s !! vm_current s = Some p -> mapped (vm_tlb s) v i te ->
  (wr = true -> has P_WRITE (te_prot te) = true) -> usable A s v wr s.
Proof. intros. exists C, p, i, te. split_and!; try done. lia. Qed.

Lemma found_in_window s A C v i te : vm_rep s A C -> mapped (vm_tlb s) v i te -> in_window v.
Proof.
  intros H (Hi & <- & Hn). destruct (te_phys te) as [f|] eqn:Ef; [|done]. by destruct (tr_entry _ _ (vr_tlb s A C H) i te f Hi Ef).
Qed.

Lemma ensure_read s A C p virt index : vm_rep s A C -> vm_procs s !! vm_current s = Some p -> vm_free s <> [] ->
  found (vm_tlb s) (virt / PAGE_BYTES) index ->
  wp (if decide (index < 0) then proc_pagefault virt ACCESS_READ else mret true) s (fun ok s1 =>
    if decide (in_window (virt / PAGE_BYTES)) then ok = true /\ usable A s (virt / PAGE_BYTES) false s1 else ok = false /\ killed_in A s s1).
Proof.
  intros H Hp Hfree [[-> Hun]|(i & te & -> & Hm)].
  - rewrite decide_True by lia. destruct (decide (in_window _)) as [Hv|Hv]; [|by eapply fault_out_of_range].
    eapply wp_mono; [by eapply (fault_known s A C p virt ACCESS_READ)|]. intros ok s1 [-> Hs]. split; [done|]. by eapply faulted_usable.
  - rewrite decide_False by lia. step. rewrite decide_True by by eapply found_in_window. split; [done|]. by eapply mapped_usable.
Qed.

Lemma ensure_write s A C p virt index : vm_rep s A C -> vm_procs s !! vm_current s = Some p -> vm_free s <> [] ->
  (in_window (virt / PAGE_BYTES) -> writable (vp_segments p) (virt / PAGE_BYTES) = true) -> found (vm_tlb s) (virt / PAGE_BYTES) index ->
  wp (if decide (index < 0) then proc_pagefault virt ACCESS_WRITE
      else te ← on_tlb (tlb_get index); if negb (has P_WRITE (te_prot te)) then proc_pagefault virt ACCESS_WRITE else mret true) s (fun ok s1 =>
    if decide (in_window (virt / PAGE_BYTES)) then ok = true /\ usable A s (virt / PAGE_BYTES) true s1 else ok = false /\ killed_in A s s1).
Proof.
  intros H Hp Hfree Hw Hidx.
  assert (in_window (virt / PAGE_BYTES) -> wp (proc_pagefault virt ACCESS_WRITE) s (fun ok s1 => ok = true /\ usable A s (virt / PAGE_BYTES) true s1)) as Hfault.
  { intros Hv. eapply wp_mono; [apply (fault_known s A C p virt ACCESS_WRITE H Hp Hv); [done|done|intros _; by apply Hw]|]. intros ok s1 [-> Hs]. split; [done|]. by eapply faulted_usable. }
  destruct Hidx as [[-> Hun]|(i & te & -> & Hm)].
  - rewrite decide_True by lia. destruct (decide (in_window _)) as [Hv|Hv]; [by apply Hfault|by eapply fault_out_of_range].
  - rewrite decide_False by lia. assert (in_window (virt / PAGE_BYTES)) as Hv by by eapply found_in_window. destruct (decide (in_window (virt / PAGE_BYTES))) as [_|]; [|done]. step. pose proof Hm as (Hi & _ & _).
    apply wp_on_tlb. eapply wp_mono; [by apply tlb_get_ok|]. intros x t (-> & ->). replace (set_tlb (vm_tlb s) s) with s by by destruct s.
    destruct (has P_WRITE (te_prot te)) eqn:EW; cbn [negb]; [|by apply Hfault]. step. split; [done|]. by eapply mapped_usable.
Qed.

(** Copies, byte by byte. *)
Fixpoint copy_bytes (A : amem) (virt : Z) (n : nat) : option (list (option Init.Byte.byte)) :=
  match n with
  | O => Some []
  | S n => if decide (in_window (virt / PAGE_BYTES)) then cons (mem_byte A virt) <$> copy_bytes A (virt + 1) n else None
  end.

Fixpoint store_bytes (A : amem) (virt : Z) (data : list Init.Byte.byte) : bool * amem :=
  match data with
  | [] => (true, A)
  | b :: data => if decide (in_window (virt / PAGE_BYTES)) then store_bytes (store_at A virt b) (virt + 1) data else (false, kill A)
  end.

Lemma copy_from_ok A n : forall s C p virt, vm_rep s A C -> vm_procs s !! vm_current s = Some p -> (n <= length (vm_free s))%nat ->
  wp (copy_from_user n virt) s (fun r s' => r = copy_bytes A virt n /\
    (exists C', vm_rep s' (if r is Some _ then A else kill A) C') /\ (length (vm_free s) <= length (vm_free s') + n)%nat).
Proof.
  induction n as [|n IH]; intros s C p virt H Hp Hfree; cbn [copy_from_user copy_bytes]; [step; split_and!; [done|by exists C|lia]|].
  step. apply get_entry_ok. intros index Hidx. step. eapply wp_mono; [apply (ensure_read s A C p virt index H Hp); [|done]|].
  { intros Hn. rewrite Hn in Hfree. cbn in Hfree. lia. }
  intros ok s1. destruct (decide (in_window (virt / PAGE_BYTES))) as [Hv|Hv].
  2:{ intros [-> (C' & B1 & B2 & B3)]. cbn [negb]. step. split_and!; [done|by exists C'|lia]. }
  intros [-> (C1 & p1 & i & te & B1 & B2 & B3 & B4 & _ & B6)]. cbn [negb]. step. step.
  rewrite (allowed_mapped s1 A C1 _ i te ALoad B1 B4). cbn [grants negb]. step. eapply load_ok; [exact B1|exact B3|exact B4|]. step.
  eapply wp_mono; [apply (IH s1 C1 p1 (virt + 1) B1 B3); lia|]. intros r s' (-> & (C' & E2) & E3). step. split_and!; [done| |lia].
  exists C'. by destruct (copy_bytes A (virt + 1) n).
Qed.

Definition writable_range (segs : list exec_segment) (virt : Z) (n : nat) : Prop :=
  forall i, (i < n)%nat -> in_window ((virt + Z.of_nat i) / PAGE_BYTES) -> writable segs ((virt + Z.of_nat i) / PAGE_BYTES) = true.

Lemma copy_to_loop_ok data : forall A s C p virt, vm_rep s A C -> vm_procs s !! vm_current s = Some p -> (length data <= length (vm_free s))%nat ->
  writable_range (vp_segments p) virt (length data) ->
  wp (copy_to_loop data virt) s (fun r s' => r = fst (store_bytes A virt data) /\
    (exists C', vm_rep s' (snd (store_bytes A virt data)) C') /\ (length (vm_free s) <= length (vm_free s') + length data)%nat).
Proof.
  induction data as [|b data IH]; intros A s C p virt H Hp Hfree Hw; cbn [copy_to_loop store_bytes length]; [step; split_and!; [done|by exists C|lia]|].
  cbn [length] in Hfree, Hw.
  step. apply get_entry_ok. intros index Hidx. step. eapply wp_mono; [apply (ensure_write s A C p virt index H Hp); [| |done]|].
  { intros Hn. rewrite Hn in Hfree. cbn in Hfree. lia. }
  { intros Hv. specialize (Hw 0%nat ltac:(lia)). rewrite Z.add_0_r in Hw. by apply Hw. }
  intros ok s1. destruct (decide (in_window (virt / PAGE_BYTES))) as [Hv|Hv].
  2:{ intros [-> (C' & B1 & B2 & B3)]. cbn [negb]. step. cbn [fst snd]. split_and!; [done|by exists C'|lia]. }
  intros [-> (C1 & p1 & i & te & B1 & B2 & B3 & B4 & B5 & B6)]. cbn [negb]. step. step.
  rewrite (allowed_mapped s1 A C1 _ i te AStore B1 B4). cbn [grants]. rewrite (B5 eq_refl). cbn [negb]. step.
  eapply wp_mono; [apply (store_rep s1 A C1 p1 virt i te b B1 B3 B4 (B5 eq_refl))|]. intros [] s2 ((C2 & D1) & D2 & D3 & D4 & D5).
  eapply wp_mono; [apply (IH (store_at A virt b) s2 C2 p1 (virt + 1) D1); [by rewrite D2, D3|rewrite D4; lia|]|].
  { assert (vp_segments p1 = vp_segments p) as -> by (pose proof (rep_segs s A C p H Hp); pose proof (rep_segs s1 A C1 p1 B1 B3); congruence).
    intros j Hj. replace (virt + 1 + Z.of_nat j) with (virt + Z.of_nat (S j)) by lia. apply Hw. lia. }
  rewrite D4. intros r s' (E1 & E2 & E3). split_and!; [done|done|lia].
Qed.

Lemma copy_to_ok A s C p virt data : vm_rep s A C -> vm_procs s !! vm_current s = Some p -> (length data <= length (vm_free s))%nat ->
  writable_range (vp_segments p) virt (length data) ->
  wp (copy_to_user data virt) s (fun r s' => r = fst (store_bytes A virt data) /\
    (exists C', vm_rep s' (snd (store_bytes A virt data)) C') /\ (length (vm_free s) <= length (vm_free s') + length data)%nat).
Proof.
  intros H Hp Hfree Hw. unfold copy_to_user. step. eapply wp_mono; [by eapply copy_to_loop_ok|]. intros r s1 (-> & (C1 & H1) & El).
  destruct (fst (store_bytes A virt data)); cbn [negb]; [|step; split_and!; [done|by exists C1|lia]].
  step. apply wp_on_tlb. eapply wp_mono; [apply (tlb_sync_ok _ C1), (vr_tlb _ _ _ H1)|]. intros [] t (Ht & Et). step. split; [done|]. split; [|done].
  exists C1. apply rep_tlb; [done|done|by rewrite Et|]. rewrite Et. apply (vr_entries _ _ _ H1).
Qed.

(** * Switches and new processes *)

Definition resumed (A : amem) (pid : Z) : amem := AMem (am_mem A) (am_segs A) pid.

Definition add_proc (A : amem) (pid : Z) (p : vproc) : amem :=
  AMem (fun q v => if decide (q = pid) then initial_of p v else am_mem A q v)
    (fun q => if decide (q = pid) then Some (vp_segments p) else am_segs A q) (am_current A).

Lemma switch_ok s A C pid : vm_rep s A C -> pid <> am_current A ->
  wp (switch_current pid) s (fun _ s' => vm_rep s' (resumed A pid) C /\ vm_free s' = vm_free s).
Proof.
  intros H Hne. unfold switch_current. step. step. step. apply wp_assert; [apply bool_decide_eq_true; by rewrite <- (vr_current s A C H)|]. step. apply wp_on_tlb.
  eapply wp_mono; [apply (tlb_flush_ok _ C), (vr_tlb s A C H)|]. intros [] t (Ht & El & Hnone & _). step. split; [|done].
  destruct H. split; cbn [set_current set_tlb vm_tlb vm_procs vm_current vm_free vm_index resumed am_mem am_segs am_current]; try done.
  - by rewrite El.
  - intros i te f Hi Hf. rewrite (Hnone te) in Hf; [done|]. by eapply list_elem_of_lookup_2.
Qed.

Lemma new_proc_ok s A C pid p : vm_rep s A C -> am_segs A pid = None ->
  wp (new_proc pid p) s (fun _ s' => vm_rep s' (add_proc A pid p) C /\ vm_free s' = vm_free s).
Proof.
  intros H Hn. unfold new_proc. step. split; [|done]. rewrite (vr_segs s A C H) in Hn. apply fmap_None in Hn.
  assert (forall q x r f, <[pid:=set_pages ∅ p]> (vm_procs s) !! q = Some x -> vp_pages x !! r = Some f -> q <> pid /\ vm_procs s !! q = Some x) as Hq.
  { intros q x r f Hx Hf. destruct (decide (q = pid)) as [->|Hne]; [|by rewrite lookup_insert_ne in Hx by done].
    rewrite lookup_insert_eq in Hx. injection Hx as <-. cbn in Hf. by rewrite lookup_empty in Hf. }
  destruct H. split; cbn [set_procs vm_tlb vm_procs vm_current vm_free vm_index add_proc am_mem am_segs am_current]; try done.
  - intros i te f Hi Hf. destruct (vr_entries0 i te f Hi Hf) as (q & B1 & B2). exists q. split; [|done]. rewrite lookup_insert_ne; [done|]. intros E. congruence.
  - intros q x r f Hx Hf. destruct (Hq q x r f Hx Hf) as [Hne Hx']. rewrite decide_False by done. by apply (vr_pages0 q x).
  - intros q x v Hx Hv Hf. destruct (decide (q = pid)) as [->|Hne].
    + rewrite lookup_insert_eq in Hx. injection Hx as <-. done.
    + rewrite lookup_insert_ne in Hx by done. by apply vr_fresh0.
  - intros q q' x x' r r' f Hx Hx' Hf Hf'. destruct (Hq q x r f Hx Hf) as [_ B1], (Hq q' x' r' f Hx' Hf') as [_ B2]. by apply (vr_inj0 q q' x x' r r' f).
  - intros q x r f Hx Hf. destruct (Hq q x r f Hx Hf) as [_ B1]. by apply (vr_free0 q x r f).
  - intros q. rewrite vr_segs0. destruct (decide (q = pid)) as [->|Hne]; [by rewrite lookup_insert_eq|by rewrite lookup_insert_ne by done].
Qed.

(** * Runs *)

(** What every step does to flat memories. *)
Definition cur_segs (A : amem) : list exec_segment := default [] (am_segs A (am_current A)).

Definition flat_op (op : mem_op) (A : amem) : mem_res * amem :=
  match op with
  | MLoad virt => if decide (in_window (virt / PAGE_BYTES)) then (RBytes [mem_byte A virt], A) else (RKilled, kill A)
  | MStore virt b =>
      if decide (in_window (virt / PAGE_BYTES) /\ writable (cur_segs A) (virt / PAGE_BYTES) = true) then (RDone, store_at A virt b) else (RKilled, kill A)
  | MFetch virt =>
      if decide (in_window (virt / PAGE_BYTES) /\ executable (cur_segs A) (virt / PAGE_BYTES) = true) then (RBytes [mem_byte A virt], A) else (RKilled, kill A)
  | MCopyFrom virt size => match copy_bytes A virt size with Some l => (RBytes l, A) | None => (RKilled, kill A) end
  | MCopyTo virt data => let r := store_bytes A virt data in (if fst r then RDone else RKilled, snd r)
  | MSwitch pid => (RDone, resumed A pid)
  | MNew pid p => (RDone, add_proc A pid p)
  end.

Fixpoint flat_ops (ops : list mem_op) (A : amem) : list mem_res :=
  match ops with
  | [] => []
  | op :: ops => fst (flat_op op A) :: flat_ops ops (snd (flat_op op A))
  end.

(** Only a process that lives accesses memory; code is not writable, and the kernel does
    not copy into pages that are not. *)
Definition mem_op_ok (op : mem_op) (A : amem) : Prop :=
  match op with
  | MSwitch pid => pid <> am_current A
  | MNew pid _ => am_segs A pid = None
  | _ => is_Some (am_segs A (am_current A)) /\
      match op with
      | MFetch virt => executable (cur_segs A) (virt / PAGE_BYTES) = true -> writable (cur_segs A) (virt / PAGE_BYTES) = false
      | MCopyTo virt data => writable_range (cur_segs A) virt (length data)
      | _ => True
      end
  end.

Fixpoint mem_ops_ok (ops : list mem_op) (A : amem) : Prop :=
  match ops with
  | [] => True
  | op :: ops => mem_op_ok op A /\ mem_ops_ok ops (snd (flat_op op A))
  end.

(** The frames that a step may take. *)
Definition op_frames (op : mem_op) : nat :=
  match op with
  | MLoad _ | MStore _ _ | MFetch _ => 1
  | MCopyFrom _ size => size
  | MCopyTo _ data => length data
  | MSwitch _ | MNew _ _ => 0
  end.

(** [s'] has the memories [A'], and at most [n] frames were taken. *)
Definition steps_to (s : vm) (n : nat) (A' : amem) (s' : vm) : Prop :=
  (exists C', vm_rep s' A' C') /\ (length (vm_free s) <= length (vm_free s') + n)%nat.

Lemma live_proc s A C : vm_rep s A C -> is_Some (am_segs A (am_current A)) -> exists p, vm_procs s !! vm_current s = Some p /\ cur_segs A = vp_segments p.
Proof.
  intros H [segs Hs]. unfold cur_segs. rewrite Hs. rewrite (vr_current s A C H), (vr_segs s A C H) in Hs. apply fmap_Some in Hs as (p & Hp & ->). by exists p.
Qed.

(** An access, with the faults it takes. *)
Lemma access_ok {T} a virt (k : M vm T) s A C p (R : option T -> vm -> Prop) : vm_rep s A C -> vm_procs s !! vm_current s = Some p ->
  (1 <= length (vm_free s))%nat -> (a = AFetch -> executable (vp_segments p) (virt / PAGE_BYTES) = true -> writable (vp_segments p) (virt / PAGE_BYTES) = false) ->
  (in_window (virt / PAGE_BYTES) /\ legal (vp_segments p) (virt / PAGE_BYTES) a = true -> forall s1, ready A s (virt / PAGE_BYTES) a s1 -> wp k s1 (fun x s' => R (Some x) s')) ->
  (~ (in_window (virt / PAGE_BYTES) /\ legal (vp_segments p) (virt / PAGE_BYTES) a = true) -> forall s', steps_to s 1 (kill A) s' -> R None s') ->
  wp (retry 3 a virt k) s R.
Proof.
  intros H Hp Hfree Hf H1 H2. pose proof (frame_cost_bound s (virt / PAGE_BYTES)). eapply (retry_ok a virt k A (vp_segments p)); [by eapply rep_segs|done|done|done|lia|].
  split; [intros Hv Hl; by apply H1|]. intros Hn C' s' B1 B2 B3. apply (H2 Hn). split; [by exists C'|lia].
Qed.

Lemma ready_steps A s v a s1 : ready A s v a s1 -> steps_to s 1 A s1.
Proof. intros (C1 & i & te & p1 & B1 & _ & _ & _ & _ & B6). pose proof (frame_cost_bound s v). split; [by exists C1|lia]. Qed.

Lemma run_load_ok a virt s A C p : a <> AStore -> vm_rep s A C -> vm_procs s !! vm_current s = Some p -> (1 <= length (vm_free s))%nat ->
  (a = AFetch -> executable (vp_segments p) (virt / PAGE_BYTES) = true -> writable (vp_segments p) (virt / PAGE_BYTES) = false) ->
  wp (r ← retry 3 a virt (load_user virt); mret (res_bytes ((fun b => [b]) <$> r))) s (fun r s' =>
    if decide (in_window (virt / PAGE_BYTES) /\ legal (vp_segments p) (virt / PAGE_BYTES) a = true)
    then r = RBytes [mem_byte A virt] /\ steps_to s 1 A s' else r = RKilled /\ steps_to s 1 (kill A) s').
Proof.
  intros Ha H Hp Hfree Hf. step. eapply access_ok; [done|done|done|done| |].
  - intros Hl s1 Hs. pose proof Hs as (C1 & i & te & p1 & B1 & _ & B3 & B4 & _). eapply load_ok; [done|done|done|]. step. rewrite decide_True by done.
    split; [done|]. by eapply ready_steps.
  - intros Hn s' Hs. step. by rewrite decide_False.
Qed.

Lemma run_store_ok virt b s A C p : vm_rep s A C -> vm_procs s !! vm_current s = Some p -> (1 <= length (vm_free s))%nat ->
  wp (run_op (MStore virt b)) s (fun r s' =>
    if decide (in_window (virt / PAGE_BYTES) /\ writable (vp_segments p) (virt / PAGE_BYTES) = true)
    then r = RDone /\ steps_to s 1 (store_at A virt b) s' else r = RKilled /\ steps_to s 1 (kill A) s').
Proof.
  intros H Hp Hfree. unfold run_op. step. eapply access_ok; [done|done|done|done| |].
  - intros Hl s1 Hs. pose proof Hs as (C1 & i & te & p1 & B1 & _ & B3 & B4 & B5 & B6). eapply wp_mono; [apply (store_rep s1 A C1 p1 virt i te b B1 B3 B4 (B5 eq_refl))|].
    intros [] s2 (D1 & _ & _ & D4 & _). step. rewrite decide_True by done. split; [done|]. split; [done|]. rewrite D4. pose proof (frame_cost_bound s (virt / PAGE_BYTES)). lia.
  - intros Hn s' Hs. step. by rewrite decide_False.
Qed.

Lemma run_op_ok op s A C : vm_rep s A C -> mem_op_ok op A -> (op_frames op <= length (vm_free s))%nat ->
  wp (run_op op) s (fun r s' => r = fst (flat_op op A) /\ steps_to s (op_frames op) (snd (flat_op op A)) s').
Proof.
  intros H Hok Hfree. destruct op as [virt|virt b|virt|virt size|virt data|pid|pid p0]; cbn [mem_op_ok op_frames] in *;
    try match type of Hok with is_Some _ /\ _ => destruct Hok as [Hlive Hok]; destruct (live_proc s A C H Hlive) as (p & Hp & Es) end; cbn [flat_op].
  - eapply wp_mono; [by apply (run_load_ok ALoad virt s A C p)|]. intros r s'. cbn [legal]. destruct (decide _) as [[Hv _]|Hn].
    + by rewrite decide_True by done.
    + rewrite decide_False; [done|]. intros Hv. by apply Hn.
  - eapply wp_mono; [by apply (run_store_ok virt b s A C p)|]. intros r s'. rewrite Es. by destruct (decide _).
  - rewrite Es in *. eapply wp_mono; [by apply (run_load_ok AFetch virt s A C p)|]. intros r s'. cbn [legal]. by destruct (decide _).
  - cbn [run_op]. step. eapply wp_mono; [by apply (copy_from_ok A size s C p virt)|]. intros r s' (-> & Hs & El). step. unfold steps_to.
    by destruct (copy_bytes A virt size).
  - cbn [run_op]. step. rewrite Es in Hok. eapply wp_mono; [by apply (copy_to_ok A s C p virt data)|]. intros r s' (-> & Hs & El). step. by split.
  - cbn [run_op]. step. eapply wp_mono; [by apply (switch_ok s A C pid)|]. intros [] s' [Hs El]. step. split; [done|]. split; [by exists C|cbn; rewrite El; lia].
  - cbn [run_op]. step. eapply wp_mono; [by apply (new_proc_ok s A C pid p0)|]. intros [] s' [Hs El]. step. split; [done|]. split; [by exists C|cbn; rewrite El; lia].
Qed.

Lemma run_ops_ok ops : forall s A C, vm_rep s A C -> mem_ops_ok ops A -> (sum_list (map op_frames ops) <= length (vm_free s))%nat ->
  wp (run_ops ops) s (fun l s' => l = flat_ops ops A).
Proof.
  induction ops as [|op ops IH]; intros s A C H Hok Hfree; cbn [run_ops flat_ops mem_ops_ok map sum_list_with id] in *; [by step|]. destruct Hok as [Hop Hok]. step.
  eapply wp_mono; [apply (run_op_ok op s A C H Hop); lia|]. intros r s1 (-> & (C1 & H1) & El). step.
  eapply wp_mono; [apply (IH s1 _ C1 H1 Hok)|]; [unfold sum_list in *; lia|]. intros l s' ->. by step.
Qed.

(** No process lives at the start. *)
Definition amem_start : amem := AMem (fun _ _ => []) (fun _ => None) 0.

Lemma start_rep frames free : NoDup free -> vm_rep (vm_start frames free) amem_start (fun f => frames !!! f).
Proof.
  intros Hnd. split; cbn [vm_start vm_tlb vm_procs vm_current vm_free vm_index amem_start am_mem am_segs am_current]; try done.
  - apply tlb_initialize_ok.
  - intros i te f Hi Hf. cbn [tlb_initialize tlb_entries] in Hi. apply lookup_replicate in Hi as [-> _]. done.
Qed.

(** C4. Every process has a flat memory of its own: in a run of loads, stores and
    instruction fetches of living processes, copies of the kernel, switches and creations of
    processes, in which there are enough frames, the kernel copies only to pages that the
    process may write, and code that is fetched is not writable ([mem_ops_ok]), with page
    faults, the translation buffer, its replacement and flushes, frames that processes share
    over time and segments loaded on demand, every step gives what it gives on one array of
    bytes per process; an access out of range or against the protection ends the process,
    and frees its frames. *)
Theorem processes_have_flat_memories frames free ops :
  NoDup free -> mem_ops_ok ops amem_start -> (sum_list (map op_frames ops) <= length free)%nat ->
  exists s', run_ops ops (vm_start frames free) = Ret (flat_ops ops amem_start, s').
Proof.
  intros Hnd Hok Hfree. pose proof (run_ops_ok ops _ _ _ (start_rep frames free Hnd) Hok Hfree) as H. apply wp_Ret in H as (l & s' & E & ->). by exists s'.
Qed.

(** A process with one page of code, which its file has, and another with code that may
    be written. *)
Definition code_proc (prot : Z) : vproc := VProc ∅ [ExecSegment FIRST_PAGE 1 1 prot] 0 (fun _ => [Init.Byte.x90; Init.Byte.x91]).
Definition wit_proc : vproc := code_proc (Z.lor P_READ P_EXEC).

Definition wit_run : list mem_op :=
  [MNew 1 wit_proc; MNew 2 wit_proc; MSwitch 1; MStore (VIRT_BASE + 20000) Init.Byte.x41; MFetch (VIRT_BASE + 1); MSwitch 2; MLoad (VIRT_BASE + 20000);
   MCopyTo (VIRT_BASE + 32767) [Init.Byte.x42; Init.Byte.x43]; MCopyFrom (VIRT_BASE + 32766) 4; MSwitch 1; MLoad (VIRT_BASE + 20000);
   MStore VIRT_BASE Init.Byte.x44; MSwitch 2; MLoad (VIRT_BASE + 32768); MLoad 0].

Lemma processes_have_flat_memories_witness :
  exists s', run_ops wit_run (vm_start ∅ (seqZ 0 20)) =
    Ret ([RDone; RDone; RDone; RDone; RBytes [Some Init.Byte.x91]; RDone; RBytes [Some Init.Byte.x00]; RDone;
          RBytes [Some Init.Byte.x00; Some Init.Byte.x42; Some Init.Byte.x43; Some Init.Byte.x00]; RDone; RBytes [Some Init.Byte.x41];
          RKilled; RDone; RBytes [Some Init.Byte.x43]; RKilled], s').
Proof.
  replace [RDone; _; _; _; _; _; _; _; _; _; _; _; _; _; _] with (flat_ops wit_run amem_start) by by vm_compute.
  apply (processes_have_flat_memories ∅ (seqZ 0 20) wit_run); [apply NoDup_seqZ| |vm_compute; lia].
  unfold wit_run. cbn [mem_ops_ok mem_op_ok]. split_and!; try done; try (by eexists).
  - intros i Hi _. destruct i as [|[|i]]; [by vm_compute|by vm_compute|cbn in Hi; lia].
Defined.

Definition run_results (ops : list mem_op) : option (list mem_res) :=
  match run_ops ops (vm_start ∅ (seqZ 0 20)) with Ret (l, _) => Some l | _ => None end.

(** The kernel does not look at the protection of segments: a reply that it copies into
    code changes it, and the page may be written from then on. *)
Example kernel_writes_code :
  run_results [MNew 1 wit_proc; MSwitch 1; MCopyTo VIRT_BASE [Init.Byte.x41]; MLoad VIRT_BASE; MStore VIRT_BASE Init.Byte.x42; MLoad VIRT_BASE]
    = Some [RDone; RDone; RDone; RBytes [Some Init.Byte.x41]; RDone; RBytes [Some Init.Byte.x42]].
Proof. by vm_compute. Qed.

(** A page of code that may be written is not executed once it was. *)
Example written_code_not_executed :
  run_results [MNew 1 (code_proc (Z.lor (Z.lor P_READ P_WRITE) P_EXEC)); MSwitch 1; MFetch VIRT_BASE; MStore (VIRT_BASE + 5) Init.Byte.x41; MFetch VIRT_BASE]
    = Some [RDone; RDone; RBytes [Some Init.Byte.x90]; RDone; RKilled].
Proof. by vm_compute. Qed.
