(* ===== verification/Memory.v ===== *)
(** Byte-addressed memory for the C library: a list of bytes, whose positions are
    the addresses. An access outside it is undefined behaviour, and so is the
    access to an [int] at an address that is not a multiple of its size. *)
From stdpp Require Import base numbers list.
From Stdlib Require Import ZArith Lia.
From S2P Require Import Prelude.

Abbreviation memory := (list Z).

Definition load (a : nat) : M memory Z := m ← get; read_nth m a.

Definition store (a : nat) (x : Z) : M memory unit :=
  m ← get; match m !! a with Some _ => put (<[a:=x]> m) | None => undef end.

(** [sizeof(int)]. *)
Definition ALIGN : Z := 4.

(** The four bytes of an [int]. *)
Definition load_int (a : nat) : M memory (list Z) :=
  if decide (Z.of_nat a mod ALIGN <> 0) then undef else
  m ← get; if decide (a + 4 <= length m)%nat then mret (take 4 (drop a m)) else undef.

Definition store_int (a : nat) (x : list Z) : M memory unit :=
  if decide (Z.of_nat a mod ALIGN <> 0) then undef else
  m ← get;
  if decide (a + 4 <= length m)%nat then put (take a m ++ x ++ drop (a + 4) m) else undef.

Lemma wp_load a x m Q : m !! a = Some x -> Q x m -> wp (load a) m Q.
Proof. intros H HQ. unfold load. steps. by eapply wp_read_nth. Qed.

Lemma wp_store a x y m Q : m !! a = Some y -> Q tt (<[a:=x]> m) -> wp (store a x) m Q.
Proof. intros H HQ. unfold store. steps. rewrite H. by step. Qed.

(** A piece of memory: [P] lies at address [p]. *)
Definition at_ (m : memory) (p : nat) (P : list Z) : Prop :=
  forall i x, P !! i = Some x -> m !! (p + i)%nat = Some x.

Definition same_elsewhere (m m' : memory) (p n : nat) : Prop :=
  length m' = length m /\ forall a, (a < p \/ p + n <= a)%nat -> m' !! a = m !! a.

Lemma at_app m p P P' : at_ m p (P ++ P') <-> at_ m p P /\ at_ m (p + length P) P'.
Proof.
  split.
  - intros H. split; intros i x Hi.
    + apply H. by apply lookup_app_l_Some.
    + rewrite <- Nat.add_assoc. apply H. rewrite lookup_app_r by lia. rewrite <- Hi. f_equal. lia.
  - intros [H1 H2] i x [Hi|[Hle Hi]]%lookup_app_Some; [by apply H1|].
    specialize (H2 _ _ Hi). rewrite <- H2. f_equal. lia.
Qed.

Lemma at_same m m' p n q P :
  at_ m q P -> same_elsewhere m m' p n -> (q + length P <= p \/ p + n <= q)%nat -> at_ m' q P.
Proof.
  intros H [_ Hs] Hd i x Hi. rewrite Hs; [by apply H|]. apply lookup_lt_Some in Hi. lia.
Qed.

