(* ===== verification/QSort.v ===== *)
(** src/src/lib/qsort.c: quicksort in place, on an array of [nel] elements of
    [width] bytes each. Memory is a list of bytes, addresses are positions in it;
    two elements are exchanged by the exclusive-or trick, byte by byte. *)
From stdpp Require Import base numbers list sorting.
From Stdlib Require Import ZArith Lia Permutation.
From S2P Require Import Prelude Memory.

(** The [n] bytes at [a], as [compar] sees them. *)
Definition bytes_at (a n : nat) : M memory (list Z) :=
  m ← get; if decide (a + n <= length m)%nat then mret (take n (drop a m)) else undef.

(** [for (; i < width; i++) p[i] ^= q[i]], [n] rounds of it. *)
Fixpoint xor_loop (n i p q : nat) : M memory unit :=
  match n with
  | O => mret tt
  | S n =>
      x ← load (p + i);
      y ← load (q + i);
      store (p + i) (Z.lxor x y);;
      xor_loop n (S i) p q
  end.

Definition exch (p q width : nat) : M memory unit :=
  if decide (p = q) then mret tt else
  xor_loop width 0 p q;;
  xor_loop width 0 q p;;
  xor_loop width 0 p q.

Section qsort.
Context (compar : list Z -> list Z -> Z) (width : nat).

(** The loop that splits the elements, [n] more rounds: [pivot] and [p] are the
    addresses of the pivot and of the element before the next one. *)
Fixpoint split_loop (n pivot p : nat) : M memory nat :=
  match n with
  | O => mret pivot
  | S n =>
      let p := (p + width)%nat in
      x ← bytes_at pivot width;
      y ← bytes_at p width;
      if decide (compar x y >= 0) then
        exch pivot (pivot + width) width;;
        (if decide (p <> pivot + width)%nat then exch pivot p width else mret tt);;
        split_loop n (pivot + width)%nat p
      else split_loop n pivot p
  end.

(** [n] is an [int], [nel] a [size_t]; [fuel] bounds the depth of the calls. *)
Fixpoint qsort (fuel : nat) (base : nat) (nel : Z) : M memory unit :=
  if decide (nel <= 1) then mret tt else
  match fuel with
  | O => out_of_fuel
  | S fuel =>
      pivot ← split_loop (Z.to_nat (nel - 1)) base base;
      let n := i32 (Z.of_nat (pivot - base) / Z.of_nat width) in
      qsort fuel base (u64 n);;
      if decide (u64 (nel - n) > 1) then qsort fuel (pivot + width) (u64 (nel - n - 1)) else mret tt
  end.

(** * Exchanging *)

Lemma xor_loop_ok p q n : forall i m P Q,
  at_ m p P -> at_ m q Q -> length P = (n + i)%nat -> length Q = (n + i)%nat ->
  (p + (n + i) <= q \/ q + (n + i) <= p)%nat ->
  wp (xor_loop n i p q) m (fun _ m' =>
    at_ m' p (take i P ++ zip_with Z.lxor (drop i P) (drop i Q)) /\ same_elsewhere m m' p (n + i)).
Proof.
  induction n as [|n IH]; intros i m P Q HP HQ HlP HlQ Hd; cbn [xor_loop].
  { step. rewrite drop_ge, take_ge, app_nil_r by lia. by split. }
  destruct (lookup_lt_is_Some_2 P i) as [x Hx]; [lia|]. destruct (lookup_lt_is_Some_2 Q i) as [y Hy]; [lia|].
  step. eapply wp_load; [by apply HP|]. step. eapply wp_load; [by apply HQ|].
  step. eapply wp_store; [by apply HP|].
  assert (p + i < length m)%nat as Hlt by (eapply lookup_lt_Some; by apply HP).
  eapply wp_mono; [apply (IH (S i) _ (<[i:=Z.lxor x y]> P) Q)|].
  - intros j z. destruct (decide (j = i)) as [->|Hne].
    + rewrite list_lookup_insert_eq by lia. intros [= <-]. by rewrite list_lookup_insert_eq.
    + rewrite list_lookup_insert_ne by done. intros Hj. rewrite list_lookup_insert_ne by lia. by apply HP.
  - intros j z Hj. rewrite list_lookup_insert_ne; [by apply HQ|]. apply lookup_lt_Some in Hj. lia.
  - rewrite length_insert. lia.
  - lia.
  - lia.
  - intros _ m' [H1 [H2 H3]]. split.
    + replace (take i P ++ zip_with Z.lxor (drop i P) (drop i Q)) with
        (take (S i) (<[i:=Z.lxor x y]> P) ++ zip_with Z.lxor (drop (S i) (<[i:=Z.lxor x y]> P)) (drop (S i) Q)); [done|].
      rewrite (take_S_r _ _ (Z.lxor x y)) by (apply list_lookup_insert_eq; lia).
      rewrite take_insert_ge by lia. rewrite drop_insert_lt by lia.
      rewrite (drop_S P x i Hx), (drop_S Q y i Hy). cbn [zip_with]. by rewrite <- app_assoc.
    + rewrite length_insert in H2. split; [done|]. intros a Ha. rewrite H3 by lia.
      apply list_lookup_insert_ne. lia.
Qed.

Lemma zip_lxor_l P Q : length P = length Q -> zip_with Z.lxor Q (zip_with Z.lxor P Q) = P.
Proof.
  revert Q. induction P as [|x P IH]; intros [|y Q] H; try done. cbn in *. f_equal; [|apply IH; lia].
  by rewrite (Z.lxor_comm x y), <- Z.lxor_assoc, Z.lxor_nilpotent, Z.lxor_0_l.
Qed.

Lemma zip_lxor_r P Q : length P = length Q -> zip_with Z.lxor (zip_with Z.lxor P Q) P = Q.
Proof.
  revert Q. induction P as [|x P IH]; intros [|y Q] H; try done. cbn in *. f_equal; [|apply IH; lia].
  by rewrite (Z.lxor_comm x y), Z.lxor_assoc, Z.lxor_nilpotent, Z.lxor_0_r.
Qed.

(** The bytes of two elements change places. *)
Lemma exch_ok p q m P Q :
  at_ m p P -> at_ m q Q -> length P = width -> length Q = width -> (p + width <= q)%nat -> (0 < width)%nat ->
  wp (exch p q width) m (fun _ m' =>
    at_ m' p Q /\ at_ m' q P /\ length m' = length m /\
    forall a, (a < p \/ p + width <= a)%nat -> (a < q \/ q + width <= a)%nat -> m' !! a = m !! a).
Proof.
  intros HP HQ HlP HlQ Hd Hw. unfold exch. rewrite decide_False by lia. step.
  set (PQ := zip_with Z.lxor P Q). assert (length PQ = width) as HlPQ by (unfold PQ; rewrite length_zip_with; lia).
  eapply wp_mono; [apply (xor_loop_ok p q width 0 m P Q HP HQ); lia|].
  intros _ m1 [H1 S1]. rewrite Nat.add_0_r in S1. rewrite take_0, !drop_0 in H1. cbn [app] in H1. fold PQ in H1. step.
  assert (at_ m1 q Q) as HQ1 by (eapply at_same; [exact HQ|exact S1|lia]).
  eapply wp_mono; [apply (xor_loop_ok q p width 0 m1 Q PQ HQ1 H1); lia|].
  intros _ m2 [H2 S2]. rewrite Nat.add_0_r in S2. rewrite take_0, !drop_0 in H2. cbn [app] in H2.
  unfold PQ in H2. rewrite zip_lxor_l in H2 by lia.
  assert (at_ m2 p PQ) as HP2 by (eapply at_same; [exact H1|exact S2|lia]).
  eapply wp_mono; [apply (xor_loop_ok p q width 0 m2 PQ P HP2 H2); lia|].
  intros _ m3 [H3 S3]. rewrite Nat.add_0_r in S3. rewrite take_0, !drop_0 in H3. cbn [app] in H3.
  unfold PQ in H3. rewrite zip_lxor_r in H3 by lia.
  split; [done|]. split; [eapply at_same; [exact H2|exact S3|lia]|].
  destruct S1 as [L1 S1], S2 as [L2 S2], S3 as [L3 S3]. split; [lia|].
  intros a Ha1 Ha2. rewrite S3, S2, S1; [done|lia..].
Qed.

(** * Splitting *)

(** The elements [l] of the array at [base]. *)
Definition array_at (m : memory) (base : nat) (l : list (list Z)) : Prop :=
  at_ m base (concat l) /\ Forall (fun e => length e = width) l.

Lemma length_concat_width l : Forall (fun e : list Z => length e = width) l -> length (concat l) = (length l * width)%nat.
Proof. induction 1 as [|e l He _ IH]; [done|]. cbn. rewrite length_app, IH. lia. Qed.

Lemma array_app m base l l' :
  array_at m base (l ++ l') <-> array_at m base l /\ array_at m (base + length l * width) l'.
Proof.
  unfold array_at. rewrite concat_app, at_app, Forall_app. split.
  - intros ((H1 & H2) & F1 & F2). rewrite length_concat_width in H2 by done. auto.
  - intros ((H1 & F1) & H2 & F2). rewrite length_concat_width by done. auto.
Qed.

Lemma array_one m base e : array_at m base [e] <-> at_ m base e /\ length e = width.
Proof.
  unfold array_at. cbn [concat]. rewrite app_nil_r. split; intros [H1 H2]; (split; [done|]).
  - by inversion H2.
  - by constructor.
Qed.

Lemma array_cons m base e l :
  array_at m base (e :: l) <-> (at_ m base e /\ length e = width) /\ array_at m (base + width) l.
Proof. rewrite (array_app m base [e] l). rewrite array_one. cbn [length]. by rewrite Nat.mul_1_l. Qed.

(** Nothing but [n] elements at [base] changes. *)
Definition outside (m m' : memory) (base n : nat) : Prop := same_elsewhere m m' base (n * width).

Lemma outside_refl m base n : outside m m base n.
Proof. by split. Qed.

Lemma outside_trans m1 m2 m3 base n : outside m1 m2 base n -> outside m2 m3 base n -> outside m1 m3 base n.
Proof. intros [L1 S1] [L2 S2]. split; [lia|]. intros a Ha. rewrite S2, S1; done. Qed.

Lemma outside_weaken m m' base base' n n' :
  outside m m' base' n' -> (base <= base')%nat -> (base' + n' * width <= base + n * width)%nat -> outside m m' base n.
Proof. intros [L S] H1 H2. split; [done|]. intros a Ha. apply S. lia. Qed.

(** [exch] on two elements of an array. *)
Lemma exch_array m base L x B y R : (0 < width)%nat ->
  array_at m base (L ++ x :: B ++ y :: R) ->
  wp (exch (base + length L * width) (base + (length L + 1 + length B) * width) width) m (fun _ m' =>
    array_at m' base (L ++ y :: B ++ x :: R) /\ outside m m' base (length (L ++ x :: B ++ y :: R))).
Proof.
  intros Hw H. rewrite array_app, array_cons, array_app, array_cons in H.
  destruct H as (HL & [Hx Hlx] & HB & [Hy Hly] & HR).
  set (p := (base + length L * width)%nat) in *.
  replace (p + width + length B * width)%nat with (base + (length L + 1 + length B) * width)%nat in * by lia.
  set (q := (base + (length L + 1 + length B) * width)%nat) in *.
  eapply wp_mono; [apply (exch_ok p q m x y Hx Hy Hlx Hly); [unfold p, q; lia|done]|].
  intros _ m' (Hy' & Hx' & Hl & Hsame).
  assert (forall b l, (forall a, (b <= a < b + length l * width)%nat -> (a < p \/ p + width <= a)%nat /\ (a < q \/ q + width <= a)%nat) ->
    array_at m b l -> array_at m' b l) as Hkeep.
  { intros b l Hb [Ha Hf]. split; [|done]. intros i z Hi. pose proof (lookup_lt_Some _ _ _ Hi) as Hlt.
    rewrite length_concat_width in Hlt by done. rewrite Hsame; [by apply Ha|apply Hb; lia..]. }
  split.
  - rewrite array_app, array_cons, array_app, array_cons. fold p.
    replace (p + width + length B * width)%nat with q by (unfold p, q; lia).
    split; [apply Hkeep; [unfold p, q; lia|done]|]. split; [done|].
    split; [apply Hkeep; [unfold p, q; lia|done]|]. split; [done|]. apply Hkeep; [unfold p, q; lia|done].
  - split; [done|]. intros a Ha. rewrite !length_app in Ha. cbn [length] in Ha. rewrite length_app in Ha. cbn [length] in Ha.
    apply Hsame; unfold p, q; lia.
Qed.

Lemma bytes_at_ok m p e : at_ m p e -> length e = width -> (0 < width)%nat -> wp (bytes_at p width) m (fun r m' => r = e /\ m' = m).
Proof.
  intros H Hl Hw. unfold bytes_at. steps. destruct (lookup_lt_is_Some_2 e (width - 1)) as [x Hx]; [lia|].
  pose proof (lookup_lt_Some _ _ _ (H _ _ Hx)). rewrite decide_True by lia. step. split; [|done].
  apply list_eq. intros i. destruct (decide (i < width)%nat) as [Hi|Hi].
  - rewrite lookup_take_lt, lookup_drop by done. destruct (lookup_lt_is_Some_2 e i) as [z Hz]; [lia|].
    by rewrite Hz, (H _ _ Hz).
  - rewrite lookup_take_ge by lia. symmetry. apply lookup_ge_None_2. lia.
Qed.

Ltac lens := repeat (rewrite ?length_app; cbn [length]); lia.

Lemma perm_exchange {A} (x p r : A) R T : x :: p :: R ++ r :: T ≡ₚ p :: r :: R ++ x :: T.
Proof.
  etransitivity; [apply perm_swap|]. constructor.
  etransitivity; [constructor; symmetry; apply Permutation_middle|].
  etransitivity; [apply perm_swap|]. constructor. apply Permutation_middle.
Qed.

Lemma split_loop_ok base piv : (0 < width)%nat -> forall rest m L R,
  array_at m base (L ++ piv :: R ++ rest) ->
  Forall (fun e => compar piv e >= 0) L -> Forall (fun e => compar piv e < 0) R ->
  wp (split_loop (length rest) (base + length L * width) (base + (length L + length R) * width)) m (fun p m' =>
    exists L' R', array_at m' base (L' ++ piv :: R') /\ p = (base + length L' * width)%nat /\
      L' ++ piv :: R' ≡ₚ L ++ piv :: R ++ rest /\
      Forall (fun e => compar piv e >= 0) L' /\ Forall (fun e => compar piv e < 0) R' /\
      outside m m' base (length (L ++ piv :: R ++ rest))).
Proof.
  intros Hw. induction rest as [|x rest IH]; intros m L R Ha HL HR; cbn [length split_loop].
  { step. exists L, R. rewrite app_nil_r in *. split_and!; try done. }
  pose proof Ha as Ha0. rewrite array_app, array_cons, array_app, array_cons in Ha0.
  destruct Ha0 as (_ & [Hpiv Hlp] & _ & [Hx Hlx] & _).
  replace (base + (length L + length R) * width + width)%nat with (base + (length L + 1 + length R) * width)%nat by lia.
  replace (base + length L * width + width + length R * width)%nat
    with (base + (length L + 1 + length R) * width)%nat in Hx by lia.
  step. wp_use (bytes_at_ok _ _ _ Hpiv Hlp Hw) as [-> ->]. step. wp_use (bytes_at_ok _ _ _ Hx Hlx Hw) as [-> ->].
  destruct (decide (compar piv x >= 0)) as [Hge|Hlt].
  - destruct R as [|r R]; cbn [app length] in *.
    + (* the element next to the pivot *)
      step. eapply wp_mono.
      { replace (base + length L * width + width)%nat with (base + (length L + 1 + length (@nil (list Z))) * width)%nat by (cbn; lia).
        exact (exch_array m base L piv [] x rest Hw Ha). }
      intros _ m1 [H1 O1]. step. rewrite decide_False by lia. step.
      replace (base + length L * width + width)%nat with (base + length (L ++ [x]) * width)%nat by (rewrite length_app; cbn; lia).
      replace (base + (length L + 1 + 0) * width)%nat with (base + (length (L ++ [x]) + 0) * width)%nat by (rewrite length_app; cbn; lia).
      eapply wp_mono; [apply (IH m1 (L ++ [x]) [])|].
      * rewrite <- app_assoc. exact H1.
      * apply Forall_app. split; [done|]. by constructor.
      * done.
      * intros p m2 (L' & R' & G1 & G2 & G3 & G4 & G5 & G6). exists L', R'. split_and!; try done.
        -- rewrite G3. cbn. rewrite <- app_assoc. cbn. apply Permutation_app_head. constructor.
        -- eapply outside_trans; [exact O1|]. eapply outside_weaken; [exact G6|done|].
           lens.
    + (* through the first element of the right part *)
      step. eapply wp_mono.
      { replace (base + length L * width + width)%nat with (base + (length L + 1 + length (@nil (list Z))) * width)%nat by (cbn; lia).
        exact (exch_array m base L piv [] r (R ++ x :: rest) Hw Ha). }
      intros _ m1 [H1 O1]. cbn [app] in H1. step. rewrite decide_True by lia.
      eapply wp_mono.
      { replace (base + (length L + 1 + S (length R)) * width)%nat with (base + (length L + 1 + length (piv :: R)) * width)%nat by (cbn; lia).
        exact (exch_array m1 base L r (piv :: R) x rest Hw H1). }
      intros _ m2 [H2 O2]. cbn [app] in H2.
      replace (base + length L * width + width)%nat with (base + length (L ++ [x]) * width)%nat by (rewrite length_app; cbn; lia).
      replace (base + (length L + 1 + S (length R)) * width)%nat
        with (base + (length (L ++ [x]) + length (R ++ [r])) * width)%nat by (rewrite !length_app; cbn; lia).
      eapply wp_mono; [apply (IH m2 (L ++ [x]) (R ++ [r]))|].
      * rewrite <- !app_assoc. exact H2.
      * apply Forall_app. split; [done|]. by constructor.
      * apply Forall_cons in HR as [Hr HR]. apply Forall_app. split; [done|]. by constructor.
      * intros p m3 (L' & R' & G1 & G2 & G3 & G4 & G5 & G6). exists L', R'. split_and!; try done.
        -- rewrite G3. rewrite <- !app_assoc. cbn. apply Permutation_app_head.
           apply perm_exchange.
        -- eapply outside_trans; [exact O1|]. eapply outside_trans; [eapply outside_weaken; [exact O2|done|]|eapply outside_weaken; [exact G6|done|]];
             lens.
  - replace (base + (length L + 1 + length R) * width)%nat
      with (base + (length L + length (R ++ [x])) * width)%nat by (rewrite length_app; cbn; lia).
    eapply wp_mono; [apply (IH m L (R ++ [x]))|].
    + rewrite <- app_assoc. exact Ha.
    + done.
    + apply Forall_app. split; [done|]. constructor; [lia|done].
    + intros p m2 (L' & R' & G1 & G2 & G3 & G4 & G5 & G6). exists L', R'. rewrite <- app_assoc in G3, G6. done.
Qed.
(** * Sorting *)

Definition le (x y : list Z) : Prop := compar x y <= 0.

(** What [qsort] needs of [compar]: its sign is that of a total preorder. *)
Record comparison : Prop := {
  compar_total : forall x y, compar x y >= 0 -> le y x;
  compar_trans : forall x y z, le x y -> le y z -> le x z;
}.

Lemma sorted_around L piv R : comparison -> StronglySorted le L -> StronglySorted le R ->
  Forall (fun e => compar piv e >= 0) L -> Forall (fun e => compar piv e < 0) R ->
  StronglySorted le (L ++ piv :: R).
Proof.
  intros [Htot Htr] HL HR FL FR. rewrite Forall_forall in FL, FR.
  assert (forall x, x ∈ R -> le piv x) as Hpr by (intros x Hx; specialize (FR x Hx); unfold le; lia).
  apply StronglySorted_app_mid; [done| |].
  - constructor; [done|]. by apply Forall_forall.
  - intros x y Hx Hy. assert (le x piv) as Hxp by (by apply Htot, FL).
    apply elem_of_cons in Hy as [->|Hy]; [done|]. eapply Htr; [exact Hxp|by apply Hpr].
Qed.

Lemma qsort_ok fuel : (0 < width)%nat -> forall base m l,
  array_at m base l -> (length l <= fuel)%nat -> Z.of_nat (length l) < 2 ^ 31 ->
  wp (qsort fuel base (Z.of_nat (length l))) m (fun _ m' => exists l',
    array_at m' base l' /\ l' ≡ₚ l /\ (comparison -> StronglySorted le l') /\ outside m m' base (length l)).
Proof.
  intros Hw. induction fuel as [|fuel IH]; intros base m l Ha Hf Hl; cbn [qsort];
    destruct (decide (Z.of_nat (length l) <= 1)) as [H1|H1]; try lia.
  1, 2: step; exists l; split_and!; try done; intros _; destruct l as [|x [|y l]]; cbn in *; [constructor|by repeat constructor|lia].
  destruct l as [|piv rest]; [cbn in H1; lia|]. cbn [length] in Hf, Hl.
  step. replace (Z.to_nat (Z.of_nat (length (piv :: rest)) - 1)) with (length rest) by (cbn; lia).
  pose proof (split_loop_ok base piv Hw rest m [] [] Ha) as Hs. cbn [length] in Hs.
  rewrite !Nat.mul_0_l, Nat.add_0_r in Hs.
  eapply wp_mono; [apply Hs; constructor|]. clear Hs.
  intros p m1 (L & R & H2 & -> & HP & HL & HR & O1). cbn [app] in HP, O1.
  pose proof (Permutation_length HP) as Hlen. rewrite length_app in Hlen. cbn [length] in Hlen.
  rewrite array_app, array_cons in H2. destruct H2 as (HaL & [Hp Hlp] & HaR).
  assert (i32 (Z.of_nat (base + length L * width - base) / Z.of_nat width) = Z.of_nat (length L)) as ->.
  { replace (Z.of_nat (base + length L * width - base)) with (Z.of_nat (length L) * Z.of_nat width) by lia.
    rewrite Z.div_mul by lia. apply i32_small. lia. }
  assert (u64 (Z.of_nat (length L)) = Z.of_nat (length L)) as -> by (apply Z.mod_small; unfold two64; lia).
  cbn [length]. replace (Z.of_nat (S (length rest)) - Z.of_nat (length L)) with (Z.of_nat (length R) + 1) by lia.
  assert (u64 (Z.of_nat (length R) + 1) = Z.of_nat (length R) + 1) as -> by (apply Z.mod_small; unfold two64; lia).
  assert (u64 (Z.of_nat (length R) + 1 - 1) = Z.of_nat (length R)) as ->.
  { rewrite Z.add_simpl_r. apply Z.mod_small. unfold two64. lia. }
  step. eapply wp_mono; [apply (IH base m1 L HaL); lia|].
  intros _ m2 (L' & HaL' & HPL & HsL & O2).
  assert (forall b l', (b + length l' * width <= base \/ base + length L * width <= b)%nat -> array_at m1 b l' -> array_at m2 b l') as Hkeep.
  { intros b l' Hb [Hat Hfo]. split; [|done]. eapply at_same; [exact Hat|exact O2|]. rewrite length_concat_width by done. lia. }
  assert (at_ m2 (base + length L * width) piv) as Hp2.
  { assert (array_at m2 (base + length L * width) [piv]) as Hone by (apply Hkeep; [lia|by apply array_one]).
    apply array_one in Hone; exact (proj1 Hone). }
  assert (array_at m2 (base + length L * width + width) R) as HaR2 by (apply Hkeep; [lia|done]).
  assert (length L' = length L) as HlL by (by apply Permutation_length).
  apply (wp_mono _ _ (fun _ m3 => exists R', array_at m3 (base + length L * width + width) R' /\ R' ≡ₚ R /\
    (comparison -> StronglySorted le R') /\ outside m2 m3 (base + length L * width + width) (length R))).
  { destruct (decide (Z.of_nat (length R) + 1 > 1)) as [Hgt|Hno]; [apply (IH _ m2 R HaR2); lia|].
    step. exists R. split_and!; try done. intros _. destruct R; [constructor|cbn in *; lia]. }
  intros _ m3 (R' & HaR' & HPR & HsR & O3). exists (L' ++ piv :: R'). split; [|split; [|split]].
  - rewrite array_app, array_cons, HlL. split; [|split; [split; [|done]|done]].
    + destruct HaL' as [Hat Hfo]. split; [|done]. eapply at_same; [exact Hat|exact O3|]. rewrite length_concat_width by done. lia.
    + eapply at_same; [exact Hp2|exact O3|]. lia.
  - rewrite <- HP. apply Permutation_app; [done|]. by constructor.
  - intros Hc. apply sorted_around; [done|auto|auto|..].
    + eapply Permutation_Forall; [symmetry; exact HPL|done].
    + eapply Permutation_Forall; [symmetry; exact HPR|done].
  - eapply outside_trans; [exact O1|]. eapply outside_trans.
    + eapply outside_weaken; [exact O2|done|]. cbn [length]. lia.
    + eapply outside_weaken; [exact O3|lia|]. cbn [length]. nia.
Qed.
End qsort.

(** C35. [qsort] terminates and sorts: the elements of the array are rearranged
    into increasing order of [compar] and no byte outside the array changes, for
    any width and up to 2^31 elements. *)
Theorem qsort_sorts compar width base m l :
  (0 < width)%nat -> comparison compar -> array_at width m base l -> Z.of_nat (length l) < 2 ^ 31 ->
  wp (qsort compar width (length l) base (Z.of_nat (length l))) m (fun _ m' => exists l',
    array_at width m' base l' /\ l' ≡ₚ l /\ StronglySorted (le compar) l' /\
    length m' = length m /\ forall a, (a < base \/ base + length l * width <= a)%nat -> m' !! a = m !! a).
Proof.
  intros Hw Hc Ha Hl. eapply wp_mono; [by apply qsort_ok|].
  intros _ m' (l' & H1 & H2 & H3 & H4 & H5). exists l'. split_and!; auto.
Qed.

(** Three two-byte numbers, big-endian, between two other bytes. *)
Definition wit_compar (x y : list Z) : Z := (x !!! 0%nat * 256 + x !!! 1%nat) - (y !!! 0%nat * 256 + y !!! 1%nat).
Definition wit_memory : memory := [9; 1; 5; 0; 7; 1; 2; 9].

Lemma qsort_sorts_witness :
  wp (qsort wit_compar 2 3 1 3) wit_memory (fun _ m' => exists l',
    array_at 2 m' 1 l' /\ l' ≡ₚ [[1; 5]; [0; 7]; [1; 2]] /\ StronglySorted (le wit_compar) l' /\
    length m' = 8%nat /\ forall a, (a < 1 \/ 1 + 3 * 2 <= a)%nat -> m' !! a = wit_memory !! a) /\
  qsort wit_compar 2 3 1 3 wit_memory = Ret (tt, [9; 0; 7; 1; 2; 1; 5; 9]).
Proof.
  split; [|reflexivity].
  apply (qsort_sorts wit_compar 2 1 wit_memory [[1; 5]; [0; 7]; [1; 2]]).
  - lia.
  - split; unfold le, wit_compar; intros; lia.
  - split; [|by repeat constructor]. intros i x Hi. do 6 (destruct i as [|i]; [exact Hi|]). done.
  - reflexivity.
Defined.
