(* ===== verification/CType.v ===== *)
(** src/src/lib/ctype.c and include/ctype.h: character classes from a table,
    which the macros index without any check. *)
From stdpp Require Import base numbers list.
From Stdlib Require Import ZArith Lia.
From S2P Require Import Prelude Memory.

Definition CTYPE_IS_PUNCT : Z := Z.shiftl 1 0.
Definition CTYPE_IS_LOWER : Z := Z.shiftl 1 1.
Definition CTYPE_IS_UPPER : Z := Z.shiftl 1 2.
Definition CTYPE_IS_DIGIT : Z := Z.shiftl 1 3.
Definition CTYPE_IS_XDIGIT : Z := Z.shiftl 1 4.
Definition CTYPE_IS_BLANK : Z := Z.shiftl 1 5.
Definition CTYPE_IS_SPACE : Z := Z.shiftl 1 6.
Definition CTYPE_IS_CNTRL : Z := Z.shiftl 1 7.
Definition CTYPE_32 : Z := Z.shiftl 1 8.

(** Indexed by the character code plus one; runs of equal rows are written once,
    the rows that the source leaves out are zero. *)
Definition ctype_type : list Z :=
  replicate 10 CTYPE_IS_CNTRL (* -1 to 8 *)
  ++ [Z.lor (Z.lor CTYPE_IS_CNTRL CTYPE_IS_SPACE) CTYPE_IS_BLANK] (* 9 *)
  ++ replicate 3 (Z.lor CTYPE_IS_CNTRL CTYPE_IS_SPACE) (* 10 to 12 *)
  ++ [CTYPE_IS_SPACE] (* 13 *)
  ++ replicate 18 CTYPE_IS_CNTRL (* 14 to 31 *)
  ++ [Z.lor (Z.lor CTYPE_IS_SPACE CTYPE_IS_BLANK) CTYPE_32] (* 32 *)
  ++ replicate 15 CTYPE_IS_PUNCT (* 33 to 47 *)
  ++ replicate 10 (Z.lor CTYPE_IS_DIGIT CTYPE_IS_XDIGIT) (* 48 to 57 *)
  ++ replicate 7 CTYPE_IS_PUNCT (* 58 to 64 *)
  ++ replicate 6 (Z.lor CTYPE_IS_UPPER CTYPE_IS_XDIGIT) (* 65 to 70 *)
  ++ replicate 20 CTYPE_IS_UPPER (* 71 to 90 *)
  ++ replicate 6 CTYPE_IS_PUNCT (* 91 to 96 *)
  ++ replicate 6 (Z.lor CTYPE_IS_LOWER CTYPE_IS_XDIGIT) (* 97 to 102 *)
  ++ replicate 20 CTYPE_IS_LOWER (* 103 to 122 *)
  ++ replicate 4 CTYPE_IS_PUNCT (* 123 to 126 *)
  ++ [CTYPE_IS_CNTRL] (* 127 *)
  ++ replicate 128 0 (* 128 to 255 *).

Section macros.
Context {S : Type}.

Definition ctype_mask (c mask : Z) : M S Z :=
  if decide (c + 1 < 0) then undef else
  x ← read_nth ctype_type (Z.to_nat (c + 1)); mret (Z.land x mask).

Definition islower (c : Z) : M S Z := ctype_mask c CTYPE_IS_LOWER.
Definition isupper (c : Z) : M S Z := ctype_mask c CTYPE_IS_UPPER.
Definition isalpha (c : Z) : M S Z := ctype_mask c (Z.lor CTYPE_IS_LOWER CTYPE_IS_UPPER).
Definition isdigit (c : Z) : M S Z := ctype_mask c CTYPE_IS_DIGIT.
Definition isxdigit (c : Z) : M S Z := ctype_mask c CTYPE_IS_XDIGIT.
Definition isalnum (c : Z) : M S Z := ctype_mask c (Z.lor (Z.lor CTYPE_IS_LOWER CTYPE_IS_UPPER) CTYPE_IS_DIGIT).
Definition isspace (c : Z) : M S Z := ctype_mask c CTYPE_IS_SPACE.
Definition isblank (c : Z) : M S Z := ctype_mask c CTYPE_IS_BLANK.
Definition isgraph (c : Z) : M S Z :=
  ctype_mask c (Z.lor (Z.lor (Z.lor CTYPE_IS_PUNCT CTYPE_IS_DIGIT) CTYPE_IS_LOWER) CTYPE_IS_UPPER).
Definition isprint (c : Z) : M S Z :=
  ctype_mask c (Z.lor (Z.lor (Z.lor (Z.lor CTYPE_IS_PUNCT CTYPE_IS_DIGIT) CTYPE_IS_LOWER) CTYPE_IS_UPPER) CTYPE_32).
Definition ispunct (c : Z) : M S Z := ctype_mask c CTYPE_IS_PUNCT.
Definition iscntrl (c : Z) : M S Z := ctype_mask c CTYPE_IS_CNTRL.

Definition tolower (c : Z) : M S Z := u ← isupper c; mret (if decide (u <> 0) then (c - 65) + 97 else c).
Definition toupper (c : Z) : M S Z := l ← islower c; mret (if decide (l <> 0) then (c - 97) + 65 else c).
End macros.

(** [((c) & 0x7F == 0)], where [==] binds more tightly than [&]. *)
Definition isascii (c : Z) : Z := Z.land c (if decide (0x7F = 0) then 1 else 0).
Definition toascii (c : Z) : Z := Z.land c 0x7F.

(** * The classes of ASCII *)

Definition in_class (m : Z -> M unit Z) (c : Z) : bool :=
  match m c tt with Ret (x, _) => negb (x =? 0) | _ => false end.

Definition between (a b c : Z) : bool := (a <=? c) && (c <=? b).

Definition classes : list ((Z -> M unit Z) * (Z -> bool)) :=
  [(islower, between 97 122);
   (isupper, between 65 90);
   (isalpha, fun c => between 97 122 c || between 65 90 c);
   (isdigit, between 48 57);
   (isxdigit, fun c => between 48 57 c || between 65 70 c || between 97 102 c);
   (isalnum, fun c => between 97 122 c || between 65 90 c || between 48 57 c);
   (isspace, fun c => between 9 13 c || (c =? 32));
   (isblank, fun c => (c =? 9) || (c =? 32));
   (isgraph, between 33 126);
   (isprint, between 32 126);
   (ispunct, fun c => between 33 126 c && negb (between 97 122 c || between 65 90 c || between 48 57 c));
   (* all but the carriage return, and also EOF *)
   (iscntrl, fun c => (between (-1) 31 c && negb (c =? 13)) || (c =? 127))].

Lemma classes_table : forallb (fun c => forallb (fun '(m, P) => Bool.eqb (in_class m c) (P c)) classes) (seqZ (-1) 257) = true.
Proof. vm_compute. reflexivity. Qed.

(** The macros are those of ASCII for all that fits an [unsigned char] and for
    EOF; two entries of [iscntrl] are not those of the C standard. *)
Lemma ctype_classes c m P : -1 <= c <= 255 -> (m, P) ∈ classes -> in_class m c = P c.
Proof.
  intros Hc Hin. pose proof classes_table as H. rewrite forallb_forall in H.
  specialize (H c ltac:(apply list_elem_of_In, elem_of_seqZ; lia)). rewrite forallb_forall in H.
  apply list_elem_of_In in Hin. specialize (H _ Hin). cbv beta iota in H. by apply Bool.eqb_prop.
Qed.

(** A [char] from 128 to 254 is negative where characters are signed: the
    macros read in front of the table. *)
Lemma ctype_outside {S} c mask (s : S) : c < -1 \/ 255 < c -> ctype_mask c mask s = Undef.
Proof.
  intros Hc. unfold ctype_mask. destruct (decide (c + 1 < 0)) as [|Hn]; [done|]. unfold read_nth.
  assert (ctype_type !! Z.to_nat (c + 1) = None) as E by (apply lookup_ge_None_2; cbn; lia).
  unfold mbind, M_bind. by rewrite E.
Qed.

(** The precedence of [==] makes [isascii] false of every character. *)
Lemma isascii_never c : isascii c = 0.
Proof. unfold isascii. rewrite decide_False by done. apply Z.land_0_r. Qed.

(** ** Steps for the parsers *)

Definition ctype_val (c mask : Z) : Z := Z.land (ctype_type !!! Z.to_nat (c + 1)) mask.

Lemma ctype_mask_val {S} c mask (s : S) : -1 <= c <= 255 -> ctype_mask c mask s = Ret (ctype_val c mask, s).
Proof.
  intros Hc. unfold ctype_mask, ctype_val, read_nth. rewrite decide_False by lia.
  assert (length ctype_type = 257%nat) as El by reflexivity.
  rewrite (list_lookup_lookup_total_lt ctype_type) by lia. reflexivity.
Qed.

Lemma wp_ctype {S} c mask (s : S) Q : -1 <= c <= 255 -> Q (ctype_val c mask) s -> wp (ctype_mask c mask) s Q.
Proof. intros Hc HQ. unfold wp. by rewrite ctype_mask_val. Qed.

Lemma ctype_val_iff c mask P : -1 <= c <= 255 -> (fun c => ctype_mask c mask, P) ∈ classes ->
  ctype_val c mask <> 0 <-> P c = true.
Proof.
  intros Hc Hin. rewrite <- (ctype_classes c _ P Hc Hin). unfold in_class. rewrite ctype_mask_val by done.
  destruct (Z.eqb_spec (ctype_val c mask) 0); cbn; split; congruence.
Qed.

Lemma isdigit_val c : -1 <= c <= 255 -> ctype_val c CTYPE_IS_DIGIT <> 0 <-> 48 <= c <= 57.
Proof.
  intros Hc. rewrite (ctype_val_iff c _ (between 48 57)) by first [done|do 3 right; left].
  unfold between. rewrite andb_true_iff. lia.
Qed.

Lemma isspace_val c : -1 <= c <= 255 -> ctype_val c CTYPE_IS_SPACE <> 0 <-> 9 <= c <= 13 \/ c = 32.
Proof.
  intros Hc. rewrite (ctype_val_iff c _ (fun c => between 9 13 c || (c =? 32))) by first [done|do 6 right; left].
  unfold between. rewrite orb_true_iff, andb_true_iff. lia.
Qed.
