(* ===== verification/CString.v ===== *)
(** src/src/lib/string.c and include/string.h: the string functions of the C
    library, on the memory of [Memory]. Bytes are 0 to 255; a [char] is signed
    ([schar]). The functions on floating-point numbers are left out. *)
From stdpp Require Import base numbers list.
From Stdlib Require Import ZArith Lia.
From S2P Require Import Prelude Memory CType.

(** The value of a [char]. *)
Definition schar (x : Z) : Z := if decide (x < 128) then x else x - 256.

(** [address & ALMSK]. *)
Definition misalign (a : nat) : Z := Z.land (Z.of_nat a) 3.

(** Signed arithmetic in [bits] bits: overflow is undefined behaviour. *)
Definition signed {S} (bits x : Z) : M S Z :=
  if decide (- 2 ^ (bits - 1) <= x < 2 ^ (bits - 1)) then mret x else undef.

(** ** Memory *)

Fixpoint memchr (s : nat) (c : Z) (n : nat) : M memory (option nat) :=
  match n with
  | O => mret None
  | S n => x ← load s; if decide (x = c) then mret (Some s) else memchr (s + 1) c n
  end.

Fixpoint memcmp (s1 s2 : nat) (n : nat) : M memory Z :=
  match n with
  | O => mret 0
  | S n =>
      x ← load s1; y ← load s2;
      if decide (x <> y) then mret (x - y) else memcmp (s1 + 1) (s2 + 1) n
  end.

(** [while (n-- > 0) *d++ = x]. *)
Fixpoint fill (n d : nat) (x : Z) : M memory nat :=
  match n with O => mret d | S n => store d x;; fill n (d + 1) x end.

Fixpoint clear_ints (n d : nat) : M memory nat :=
  match n with O => mret d | S n => store_int d [0; 0; 0; 0];; clear_ints n (d + 4) end.

(** Phase 1 of [memset]. *)
Fixpoint clear_head (cnt d : nat) (n : Z) : M memory (nat * Z) :=
  if decide (misalign d = 0) then mret (d, n) else
  match cnt with
  | O => mret (d, n)
  | S cnt => store d 0;; clear_head cnt (d + 1) (u64 (n - 1))
  end.

Definition memset (b : nat) (c n : Z) : M memory nat :=
  if decide (c <> 0) then fill (Z.to_nat n) b (Z.land c 0xFF);; mret b else
  r ← clear_head (Z.to_nat (misalign b)) b n;
  let '(d, n) := r in
  d ← clear_ints (Z.to_nat (n / ALIGN)) d;
  fill (Z.to_nat (Z.land n 3)) d 0;;
  mret b.

(** [do *--d = *--s; while (--cnt > 0)]; the count is positive. *)
Fixpoint do_down (cnt s d : nat) : M memory (nat * nat) :=
  match cnt with
  | O => undef
  | S cnt =>
      x ← load (s - 1); store (d - 1) x;;
      if decide (cnt = 0%nat) then mret (s - 1, d - 1)%nat else do_down cnt (s - 1) (d - 1)
  end.

Fixpoint do_up (cnt s d : nat) : M memory (nat * nat) :=
  match cnt with
  | O => undef
  | S cnt =>
      x ← load s; store d x;;
      if decide (cnt = 0%nat) then mret (s + 1, d + 1)%nat else do_up cnt (s + 1) (d + 1)
  end.

(** The loops over [int]s and over the remaining bytes; [k] rounds. *)
Fixpoint ints_down (k s d : nat) : M memory (nat * nat) :=
  match k with
  | O => mret (s, d)
  | S k => x ← load_int (s - 4); store_int (d - 4) x;; ints_down k (s - 4) (d - 4)
  end.

Fixpoint bytes_down (k s d : nat) : M memory unit :=
  match k with
  | O => mret tt
  | S k => x ← load (s - 1); store (d - 1) x;; bytes_down k (s - 1) (d - 1)
  end.

Fixpoint ints_up (k s d : nat) : M memory (nat * nat) :=
  match k with
  | O => mret (s, d)
  | S k => x ← load_int s; store_int d x;; ints_up k (s + 4) (d + 4)
  end.

Fixpoint bytes_up (k s d : nat) : M memory unit :=
  match k with
  | O => mret tt
  | S k => x ← load s; store d x;; bytes_up k (s + 1) (d + 1)
  end.

Definition memmove (dst src : nat) (n : Z) : M memory nat :=
  if decide (n = 0 \/ dst = src) then mret dst else
  if decide (src < dst)%nat then
    let s := (src + Z.to_nat n)%nat in
    let d := (dst + Z.to_nat n)%nat in
    r ← (if decide (misalign s <> 0 \/ misalign d <> 0) then
           let '(cnt, n) := if decide (misalign s <> misalign d \/ n <= ALIGN) then (n, 0)
                            else (misalign s, u64 (n - misalign s)) in
           sd ← do_down (Z.to_nat cnt) s d; mret (sd, n)
         else mret ((s, d), n));
    let '((s, d), n) := r in
    sd ← ints_down (Z.to_nat (n / ALIGN)) s d;
    bytes_down (Z.to_nat (n mod ALIGN)) sd.1 sd.2;;
    mret dst
  else
    let s := src in
    let d := dst in
    r ← (if decide (misalign s <> 0 \/ misalign d <> 0) then
           let '(cnt, n) := if decide (misalign s <> misalign d \/ n < ALIGN) then (n, 0)
                            else (ALIGN - misalign s, u64 (n - (ALIGN - misalign s))) in
           sd ← do_up (Z.to_nat cnt) s d; mret (sd, n)
         else mret ((s, d), n));
    let '((s, d), n) := r in
    sd ← ints_up (Z.to_nat (n / ALIGN)) s d;
    bytes_up (Z.to_nat (n mod ALIGN)) sd.1 sd.2;;
    mret dst.

Definition memcpy (dst src : nat) (n : Z) : M memory nat := memmove dst src n.

(** ** Strings

    A scan that never finds its end leaves the memory; [fuel] is its size. *)

Definition scan {A} (f : nat -> M memory A) : M memory A := m ← get; f (S (length m)).

Fixpoint strlen_loop (fuel s : nat) (n : Z) : M memory Z :=
  match fuel with
  | O => out_of_fuel
  | S fuel => x ← load s; if decide (x <> 0) then strlen_loop fuel (s + 1) (u64 (n + 1)) else mret n
  end.

Definition strlen (s : nat) : M memory Z := scan (fun fuel => strlen_loop fuel s 0).

Fixpoint strnlen_loop (k s : nat) (n : Z) : M memory Z :=
  match k with
  | O => mret n
  | S k => x ← load s; if decide (x <> 0) then strnlen_loop k (s + 1) (n + 1) else mret n
  end.

Definition strnlen (s : nat) (maxlen : Z) : M memory Z := strnlen_loop (Z.to_nat maxlen) s 0.

Fixpoint strcpy_loop (fuel dst src : nat) : M memory unit :=
  match fuel with
  | O => out_of_fuel
  | S fuel => x ← load src; store dst x;; if decide (x <> 0) then strcpy_loop fuel (dst + 1) (src + 1) else mret tt
  end.

Definition strcpy (dst src : nat) : M memory nat :=
  scan (fun fuel => strcpy_loop fuel dst src);; mret dst.

Fixpoint strncpy_loop (n dst src : nat) : M memory unit :=
  match n with
  | O => mret tt
  | S n =>
      x ← load src; store dst x;;
      if decide (x = 0) then fill n (dst + 1) 0;; mret tt else strncpy_loop n (dst + 1) (src + 1)
  end.

Definition strncpy (dst src : nat) (n : Z) : M memory nat := strncpy_loop (Z.to_nat n) dst src;; mret dst.

(** [while ( *s1 != 0) s1++]. *)
Fixpoint string_end (fuel s : nat) : M memory nat :=
  match fuel with
  | O => out_of_fuel
  | S fuel => x ← load s; if decide (x <> 0) then string_end fuel (s + 1) else mret s
  end.

Definition strcat (s1 s2 : nat) : M memory nat :=
  e ← scan (fun fuel => string_end fuel s1);
  scan (fun fuel => strcpy_loop fuel e s2);;
  mret s1.

Fixpoint strncat_loop (n s1 s2 : nat) : M memory unit :=
  match n with
  | O => store s1 0
  | S n => x ← load s2; store s1 x;; if decide (x = 0) then mret tt else strncat_loop n (s1 + 1) (s2 + 1)
  end.

Definition strncat (s1 s2 : nat) (n : Z) : M memory nat :=
  e ← scan (fun fuel => string_end fuel s1); strncat_loop (Z.to_nat n) e s2;; mret s1.

Fixpoint strcmp_loop (fuel u1 u2 : nat) : M memory Z :=
  match fuel with
  | O => out_of_fuel
  | S fuel =>
      x ← load u1; y ← load u2;
      if decide (x <> 0 /\ y <> 0) then
        if decide (x <> y) then mret (x - y) else strcmp_loop fuel (u1 + 1) (u2 + 1)
      else if decide (x = 0 /\ y = 0) then mret 0
      else mret (if decide (x = 0) then -1 else 1)
  end.

Definition strcmp (s1 s2 : nat) : M memory Z := scan (fun fuel => strcmp_loop fuel s1 s2).

Fixpoint strncmp_loop (n u1 u2 : nat) : M memory Z :=
  match n with
  | O => mret 0
  | S n =>
      x ← load u1; y ← load u2;
      if decide (x = 0 /\ y = 0) then mret 0 else
      if decide (x = 0) then mret 1 else
      if decide (y = 0) then mret (-1) else
      if decide (x < y) then mret (-1) else
      if decide (x > y) then mret 1 else
      strncmp_loop n (u1 + 1) (u2 + 1)
  end.

Definition strncmp (s1 s2 : nat) (n : Z) : M memory Z := strncmp_loop (Z.to_nat n) s1 s2.

Fixpoint strchr_loop (fuel s : nat) (c : Z) : M memory (option nat) :=
  match fuel with
  | O => out_of_fuel
  | S fuel =>
      x ← load s;
      if decide (schar x = c) then mret (Some s) else
      if decide (x = 0) then mret None else strchr_loop fuel (s + 1) c
  end.

Definition strchr (s : nat) (c : Z) : M memory (option nat) := scan (fun fuel => strchr_loop fuel s c).

Fixpoint strrchr_loop (fuel s : nat) (c : Z) (found : option nat) : M memory (option nat) :=
  match fuel with
  | O => out_of_fuel
  | S fuel =>
      x ← load s;
      let found := if decide (schar x = c) then Some s else found in
      if decide (x = 0) then mret found else strrchr_loop fuel (s + 1) c found
  end.

Definition strrchr (s : nat) (c : Z) : M memory (option nat) := scan (fun fuel => strrchr_loop fuel s c None).

Fixpoint strstr_loop (fuel s1 s2 : nat) (n : Z) : M memory (option nat) :=
  match fuel with
  | O => out_of_fuel
  | S fuel =>
      x ← load s1;
      if decide (x <> 0) then
        r ← strncmp s1 s2 n;
        if decide (r = 0) then mret (Some s1) else strstr_loop fuel (s1 + 1) s2 n
      else mret None
  end.

Definition strstr (s1 s2 : nat) : M memory (option nat) :=
  n ← strlen s2; scan (fun fuel => strstr_loop fuel s1 s2 (u64 (i32 n))).

Definition index (s : nat) (c : Z) : M memory (option nat) := strchr s c.
Definition rindex (s : nat) (c : Z) : M memory (option nat) := strrchr s c.

(** ** Numbers

    The functions that parse numbers repeat the same pieces. [isspace ( *s)] and
    the like get a [char], negative from 128 on. *)

Fixpoint skip_blanks (fuel s : nat) : M memory nat :=
  match fuel with
  | O => out_of_fuel
  | S fuel => x ← load s; b ← isspace (schar x); if decide (b <> 0) then skip_blanks fuel (s + 1) else mret s
  end.

Definition parse_sign (s : nat) : M memory (bool * nat) :=
  x ← load s;
  mret (if decide (x = 45) then (true, s + 1)%nat else if decide (x = 43) then (false, s + 1)%nat else (false, s)).

Definition parse_base (s : nat) (base : Z) : M memory (nat * Z) :=
  r ← (if decide (base = 0 \/ base = 16) then
         x ← load s;
         if decide (x = 48) then
           y ← load (s + 1);
           mret (if decide (y = 120 \/ y = 88) then ((s + 2)%nat, 16) else (s, base))
         else mret (s, base)
       else mret (s, base));
  let '(s, base) := r in
  r ← (if decide (base = 0 \/ base = 8) then
         x ← load s; mret (if decide (x = 48) then ((s + 1)%nat, 8) else (s, base))
       else mret (s, base));
  let '(s, base) := r in
  mret (s, if decide (base = 0) then 10 else base).

(** The loop of [atoi] and [atol], in a signed type of [bits] bits. *)
Fixpoint decimal_loop (bits : Z) (fuel s : nat) (total : Z) : M memory Z :=
  match fuel with
  | O => out_of_fuel
  | S fuel =>
      x ← load s;
      d ← isdigit (schar x);
      if decide (d <> 0) then
        total ← signed bits (total * 10);
        total ← signed bits (total + (schar x - 48));
        decimal_loop bits fuel (s + 1) total
      else mret total
  end.

Definition decimal (bits : Z) (s : nat) : M memory Z :=
  s ← scan (fun fuel => skip_blanks fuel s);
  r ← parse_sign s;
  let '(minus, s) := r in
  total ← scan (fun fuel => decimal_loop bits fuel s 0);
  if (minus : bool) then signed bits (- total) else mret total.

Definition atoi (s : nat) : M memory Z := decimal 32 s.
Definition atol (s : nat) : M memory Z := decimal 64 s.

(** The digits of the [strto] functions; [arith] is the arithmetic of their type.
    Every letter counts as a digit when the base is above 10. *)
Fixpoint digits_loop (arith : Z -> M memory Z) (fuel : nat) (base : Z) (s : nat) (total : Z) : M memory (Z * nat) :=
  match fuel with
  | O => out_of_fuel
  | S fuel =>
      x ← load s;
      c ← (if decide (base > 10) then isalnum (schar x) else isdigit (schar x));
      if decide (c <> 0) then
        total ← arith (total * base);
        d ← isdigit (schar x);
        l ← islower (schar x);
        u ← isupper (schar x);
        total ← (if decide (d <> 0) then arith (total + (schar x - 48))
                 else if decide (l <> 0) then arith (total + (schar x - 97 + 10))
                 else if decide (u <> 0) then arith (total + (schar x - 65 + 10))
                 else mret total);
        digits_loop arith fuel base (s + 1) total
      else mret (total, s)
  end.

(** The result, and what is stored through [endptr] when that is not null. *)
Definition strtol (s : nat) (base : Z) : M memory (Z * nat) :=
  s ← scan (fun fuel => skip_blanks fuel s);
  r ← parse_sign s;
  let '(minus, s) := r in
  r ← parse_base s base;
  let '(s, base) := r in
  r ← scan (fun fuel => digits_loop (signed 64) fuel base s 0);
  let '(n, s) := r in
  n ← signed 64 ((if (minus : bool) then -1 else 1) * n);
  mret (n, s).

Definition strtoul (s : nat) (base : Z) : M memory (Z * nat) :=
  s ← scan (fun fuel => skip_blanks fuel s);
  r ← parse_sign s;
  let '(minus, s) := r in
  r ← parse_base s base;
  let '(s, base) := r in
  r ← scan (fun fuel => digits_loop (fun x => mret (u64 x)) fuel base s 0);
  let '(total, s) := r in
  mret (if (minus : bool) then u64 (- total) else total, s).

Definition strtoull (s : nat) (base : Z) : M memory (Z * nat) := strtoul s base.
