(* ===== verification/CStringMem.v ===== *)
(** [memmove] and [memset] of src/src/lib/string.c: what they leave in memory, for
    overlapping pieces and every alignment. *)
From stdpp Require Import base numbers list.
From Stdlib Require Import ZArith Lia.
From S2P Require Import Prelude Memory CType CString.

(** * Moving memory

    The reference: the [n] bytes at [s] are put at [d] all at once. *)
Definition moved_memory (m : memory) (d s n : nat) : memory :=
  take d m ++ take n (drop s m) ++ drop (d + n) m.

(** [m'] is [m] with the [n] bytes that were at [s] now (also) at [d]. *)
Definition moved (m : memory) (d s n : nat) (m' : memory) : Prop :=
  forall a, m' !! a = if decide (d <= a < d + n)%nat then m !! (a - d + s)%nat else m !! a.

Lemma moved_memory_moved m d s n :
  (d + n <= length m)%nat -> (s + n <= length m)%nat -> moved m d s n (moved_memory m d s n).
Proof.
  intros Hd Hs a. unfold moved_memory. case_decide as Ha.
  - rewrite lookup_app_r by (rewrite length_take; lia). rewrite length_take, Nat.min_l by lia.
    rewrite lookup_app_l by (rewrite length_take, length_drop; lia).
    rewrite lookup_take_lt, lookup_drop by lia. f_equal. lia.
  - destruct (decide (a < d)%nat).
    + rewrite lookup_app_l by (rewrite length_take; lia). by apply lookup_take_lt.
    + rewrite lookup_app_r by (rewrite length_take; lia). rewrite length_take, Nat.min_l by lia.
      rewrite lookup_app_r by (rewrite length_take, length_drop; lia).
      rewrite length_take, length_drop, Nat.min_l, lookup_drop by lia. f_equal. lia.
Qed.

Lemma moved_eq m d s n m1 m2 : moved m d s n m1 -> moved m d s n m2 -> m1 = m2.
Proof. intros H1 H2. apply list_eq. intros a. by rewrite H1, H2. Qed.

Lemma moved_refl m d s : moved m d s 0 m.
Proof. intros a. by rewrite decide_False by lia. Qed.

Lemma moved_self m d n : moved m d d n m.
Proof. intros a. case_decide; [f_equal; lia|done]. Qed.

Lemma moved_length m d s n m' :
  (d + n <= length m)%nat -> (s + n <= length m)%nat -> moved m d s n m' -> length m' = length m.
Proof.
  intros Hd Hs H. rewrite (moved_eq _ _ _ _ _ _ H (moved_memory_moved _ _ _ _ Hd Hs)).
  unfold moved_memory. rewrite !length_app, !length_take, !length_drop. lia.
Qed.

(** Downwards, the piece at the end goes first; upwards, the one at the start. *)
Lemma moved_down m d s j k m1 m2 : (s < d)%nat ->
  moved m (d + j) (s + j) k m1 -> moved m1 d s j m2 -> moved m d s (j + k) m2.
Proof.
  intros Hsd H1 H2 a. rewrite H2. repeat case_decide; try lia; rewrite H1; case_decide; try lia;
    try (f_equal; lia); done.
Qed.

Lemma moved_up m d s j k m1 m2 : (d < s)%nat ->
  moved m d s j m1 -> moved m1 (d + j) (s + j) k m2 -> moved m d s (j + k) m2.
Proof.
  intros Hsd H1 H2 a. rewrite H2. repeat case_decide; try lia; rewrite H1; case_decide; try lia;
    try (f_equal; lia); done.
Qed.

Section pieces.
Context (m : memory) (d s : nat).

Lemma wp_move_byte Q :
  (d < length m)%nat -> (s < length m)%nat -> (forall m', moved m d s 1 m' -> Q tt m') ->
  wp (x ← load s; store d x) m Q.
Proof.
  intros Hd Hs HQ. destruct (lookup_lt_is_Some_2 m s Hs) as [x Hx]. destruct (lookup_lt_is_Some_2 m d Hd) as [y Hy].
  step. eapply wp_load; [done|]. eapply wp_store; [done|]. apply HQ. intros a. case_decide as Ha.
  - replace a with d by lia. rewrite Nat.sub_diag, Nat.add_0_l, Hx. by apply list_lookup_insert_eq.
  - apply list_lookup_insert_ne. lia.
Qed.

Lemma wp_move_int Q :
  misalign d = 0 -> misalign s = 0 -> (d + 4 <= length m)%nat -> (s + 4 <= length m)%nat ->
  (forall m', moved m d s 4 m' -> Q tt m') ->
  wp (x ← load_int s; store_int d x) m Q.
Proof.
  assert (forall a, misalign a = 0 -> Z.of_nat a mod ALIGN = 0) as Hmis.
  { intros a. unfold misalign. change 3 with (Z.ones 2). by rewrite Z.land_ones. }
  intros Hmd%Hmis Hms%Hmis Hd Hs HQ. step. unfold load_int, store_int.
  rewrite decide_False by (intros H; by apply H). steps. rewrite decide_True by done. steps.
  rewrite decide_False by (intros H; by apply H). steps. rewrite decide_True by done. step.
  apply HQ. by apply moved_memory_moved.
Qed.
End pieces.

Lemma misalign_mod a : misalign a = Z.of_nat a mod 4.
Proof. unfold misalign. change 3 with (Z.ones 2). by rewrite Z.land_ones. Qed.

Lemma misalign_range a : 0 <= misalign a < 4.
Proof. rewrite misalign_mod. by apply Z.mod_pos_bound. Qed.

Lemma misalign_add a k : misalign (a + k * 4) = misalign a.
Proof. by rewrite !misalign_mod, Nat2Z.inj_add, Nat2Z.inj_mul, Z.mod_add. Qed.

(** Going back to the boundary, and forward to the next one. *)
Lemma misalign_back a j : Z.of_nat j = misalign (a + j) -> misalign a = 0.
Proof.
  rewrite !misalign_mod, Nat2Z.inj_add. intros H. pose proof (Z.div_mod (Z.of_nat a + Z.of_nat j) 4 ltac:(lia)).
  apply Z.mod_divide; [lia|]. exists ((Z.of_nat a + Z.of_nat j) / 4). lia.
Qed.

Lemma misalign_next a j : Z.of_nat j = 4 - misalign a -> misalign (a + j) = 0.
Proof.
  rewrite !misalign_mod, Nat2Z.inj_add. intros H. pose proof (Z.div_mod (Z.of_nat a) 4 ltac:(lia)).
  apply Z.mod_divide; [lia|]. exists (Z.of_nat a / 4 + 1). lia.
Qed.

(** ** The loops of [memmove] *)

Ltac by_length H :=
  let HL := fresh in pose proof (fun Hd Hs => moved_length _ _ _ _ _ Hd Hs H) as HL; rewrite HL by lia; lia.

Lemma bind_pair_assoc {S A B} (m : M S A) (f : A -> M S unit) (g : M S B) s Q :
  wp (x ← m; f x) s (fun _ s' => wp g s' Q) -> wp (x ← m; f x;; g) s Q.
Proof.
  unfold wp, mbind, M_bind. destruct (m s) as [[a s1]| | |]; try done.
  destruct (f a s1) as [[u s2]| | |]; done.
Qed.

Lemma do_down_ok cnt : forall m s d, (s < d)%nat -> (d + S cnt <= length m)%nat ->
  wp (do_down (S cnt) (s + S cnt) (d + S cnt)) m (fun r m' => r = (s, d) /\ moved m d s (S cnt) m').
Proof.
  induction cnt as [|cnt IH]; intros m s d Hsd Hl; cbn [do_down]; apply bind_pair_assoc.
  - replace (s + 1 - 1)%nat with s by lia. replace (d + 1 - 1)%nat with d by lia.
    apply wp_move_byte; [lia..|]. intros m' H. rewrite decide_True by done. by step.
  - replace (s + S (S cnt) - 1)%nat with (s + S cnt)%nat by lia.
    replace (d + S (S cnt) - 1)%nat with (d + S cnt)%nat by lia.
    apply wp_move_byte; [lia..|]. intros m1 H1. rewrite decide_False by done.
    eapply wp_mono; [apply IH; [done|]|].
    + by_length H1.
    + intros r m2 [-> H2]. split; [done|]. replace (S (S cnt)) with (S cnt + 1)%nat by lia.
      by eapply moved_down.
Qed.

Lemma ints_down_ok k : forall m s d, (s < d)%nat -> misalign s = 0 -> misalign d = 0 -> (d + k * 4 <= length m)%nat ->
  wp (ints_down k (s + k * 4) (d + k * 4)) m (fun r m' => r = (s, d) /\ moved m d s (k * 4) m').
Proof.
  induction k as [|k IH]; intros m s d Hsd Hs Hd Hl; cbn [ints_down].
  { step. rewrite Nat.mul_0_l, !Nat.add_0_r. split; [done|apply moved_refl]. }
  replace (s + S k * 4 - 4)%nat with (s + k * 4)%nat by lia.
  replace (d + S k * 4 - 4)%nat with (d + k * 4)%nat by lia. apply bind_pair_assoc.
  apply wp_move_int; try lia.
  1, 2: by rewrite misalign_add.
  intros m1 H1. eapply wp_mono; [apply IH; try done|].
  - by_length H1.
  - intros r m2 [-> H2]. split; [done|]. replace (S k * 4)%nat with (k * 4 + 4)%nat by lia. by eapply moved_down.
Qed.

Lemma bytes_down_ok k : forall m s d, (s < d)%nat -> (d + k <= length m)%nat ->
  wp (bytes_down k (s + k) (d + k)) m (fun _ m' => moved m d s k m').
Proof.
  induction k as [|k IH]; intros m s d Hsd Hl; cbn [bytes_down].
  { step. apply moved_refl. }
  replace (s + S k - 1)%nat with (s + k)%nat by lia. replace (d + S k - 1)%nat with (d + k)%nat by lia.
  apply bind_pair_assoc. apply wp_move_byte; [lia..|]. intros m1 H1. eapply wp_mono; [apply IH; [done|]|].
  - by_length H1.
  - intros u m2 H2. replace (S k) with (k + 1)%nat by lia. by eapply moved_down.
Qed.

Lemma do_up_ok cnt : forall m s d, (d < s)%nat -> (s + S cnt <= length m)%nat ->
  wp (do_up (S cnt) s d) m (fun r m' => r = (s + S cnt, d + S cnt)%nat /\ moved m d s (S cnt) m').
Proof.
  induction cnt as [|cnt IH]; intros m s d Hsd Hl; cbn [do_up]; apply bind_pair_assoc.
  - apply wp_move_byte; [lia..|]. intros m' H. rewrite decide_True by done. by step.
  - apply wp_move_byte; [lia..|]. intros m1 H1. rewrite decide_False by done.
    eapply wp_mono; [apply IH; [lia|]|].
    + by_length H1.
    + intros r m2 [-> H2]. split; [f_equal; lia|]. exact (moved_up _ _ _ 1 (S cnt) _ _ Hsd H1 H2).
Qed.

Lemma ints_up_ok k : forall m s d, (d < s)%nat -> misalign s = 0 -> misalign d = 0 -> (s + k * 4 <= length m)%nat ->
  wp (ints_up k s d) m (fun r m' => r = (s + k * 4, d + k * 4)%nat /\ moved m d s (k * 4) m').
Proof.
  induction k as [|k IH]; intros m s d Hsd Hs Hd Hl; cbn [ints_up].
  { step. rewrite Nat.mul_0_l, !Nat.add_0_r. split; [done|apply moved_refl]. }
  apply bind_pair_assoc. apply wp_move_int; try lia.
  intros m1 H1. eapply wp_mono; [apply IH; try lia|].
  - by rewrite (misalign_add _ 1).
  - by rewrite (misalign_add _ 1).
  - by_length H1.
  - intros r m2 [-> H2]. split; [f_equal; lia|]. exact (moved_up _ _ _ 4 (k * 4) _ _ Hsd H1 H2).
Qed.

Lemma bytes_up_ok k : forall m s d, (d < s)%nat -> (s + k <= length m)%nat ->
  wp (bytes_up k s d) m (fun _ m' => moved m d s k m').
Proof.
  induction k as [|k IH]; intros m s d Hsd Hl; cbn [bytes_up].
  { step. apply moved_refl. }
  apply bind_pair_assoc. apply wp_move_byte; [lia..|]. intros m1 H1. eapply wp_mono; [apply IH; [lia|]|].
  - by_length H1.
  - intros u m2 H2. exact (moved_up _ _ _ 1 k _ _ Hsd H1 H2).
Qed.

(** ** [memmove] *)

(** Phases 2 and 3 downwards from aligned addresses, [n] bytes. *)
Lemma tail_down_ok n : forall m s d, (s < d)%nat -> (d + n <= length m)%nat ->
  misalign (s + n) = 0 -> misalign (d + n) = 0 ->
  wp (sd ← ints_down (Z.to_nat (Z.of_nat n / ALIGN)) (s + n) (d + n);
      bytes_down (Z.to_nat (Z.of_nat n mod ALIGN)) sd.1 sd.2) m (fun _ m' => moved m d s n m').
Proof.
  intros m s d Hsd Hl Hs Hd. unfold ALIGN. set (k := Z.to_nat (Z.of_nat n / 4)).
  set (r := Z.to_nat (Z.of_nat n mod 4)). assert (n = r + k * 4)%nat as E.
  { unfold k, r. pose proof (Z.div_mod (Z.of_nat n) 4 ltac:(lia)). pose proof (Z.mod_pos_bound (Z.of_nat n) 4 ltac:(lia)).
    pose proof (Z.div_pos (Z.of_nat n) 4 ltac:(lia) ltac:(lia)). lia. }
  clearbody k r. subst n. rewrite !Nat.add_assoc in *. step.
  wp_use ints_down_ok as [-> H1]; try lia.
  - by rewrite misalign_add in Hs.
  - by rewrite misalign_add in Hd.
  - cbn [fst snd]. eapply wp_mono; [apply bytes_down_ok; [lia|]|].
    + by_length H1.
    + intros u m2 H2. by eapply moved_down.
Qed.

Lemma tail_up_ok n : forall m s d, (d < s)%nat -> (s + n <= length m)%nat ->
  misalign s = 0 -> misalign d = 0 ->
  wp (sd ← ints_up (Z.to_nat (Z.of_nat n / ALIGN)) s d;
      bytes_up (Z.to_nat (Z.of_nat n mod ALIGN)) sd.1 sd.2) m (fun _ m' => moved m d s n m').
Proof.
  intros m s d Hsd Hl Hs Hd. unfold ALIGN. set (k := Z.to_nat (Z.of_nat n / 4)).
  set (r := Z.to_nat (Z.of_nat n mod 4)). assert (n = k * 4 + r)%nat as E.
  { unfold k, r. pose proof (Z.div_mod (Z.of_nat n) 4 ltac:(lia)). pose proof (Z.mod_pos_bound (Z.of_nat n) 4 ltac:(lia)).
    pose proof (Z.div_pos (Z.of_nat n) 4 ltac:(lia) ltac:(lia)). lia. }
  clearbody k r. subst n. step.
  wp_use ints_up_ok as [-> H1]; try lia.
  cbn [fst snd]. eapply wp_mono; [apply bytes_up_ok; [lia|]|].
  - by_length H1.
  - intros u m2 H2. by eapply moved_up.
Qed.

(** The head, up to the boundary, and then the rest. *)
Lemma two_phases_down j k m s d (dst : nat) : (s < d)%nat -> (d + (k + S j) <= length m)%nat ->
  misalign (s + k) = 0 -> misalign (d + k) = 0 ->
  wp (r ← (sd ← do_down (S j) (s + (k + S j)) (d + (k + S j)); mret (sd, Z.of_nat k));
      let '((s, d), n) := r in
      sd ← ints_down (Z.to_nat (n / ALIGN)) s d;
      bytes_down (Z.to_nat (n mod ALIGN)) sd.1 sd.2;;
      mret dst) m (fun r m' => r = dst /\ moved m d s (k + S j) m').
Proof.
  intros Hsd Hl Hs Hd. rewrite !Nat.add_assoc. step. step. wp_use do_down_ok as [-> H1]; [lia..|]. step.
  cbv beta iota. apply bind_pair_assoc. eapply wp_mono; [apply tail_down_ok; try done|].
  - by_length H1.
  - intros u m2 H2. step. split; [done|]. by eapply moved_down.
Qed.

Lemma two_phases_up j k m s d (dst : nat) : (d < s)%nat -> (s + (S j + k) <= length m)%nat ->
  misalign (s + S j) = 0 -> misalign (d + S j) = 0 ->
  wp (r ← (sd ← do_up (S j) s d; mret (sd, Z.of_nat k));
      let '((s, d), n) := r in
      sd ← ints_up (Z.to_nat (n / ALIGN)) s d;
      bytes_up (Z.to_nat (n mod ALIGN)) sd.1 sd.2;;
      mret dst) m (fun r m' => r = dst /\ moved m d s (S j + k) m').
Proof.
  intros Hsd Hl Hs Hd. step. step. wp_use do_up_ok as [-> H1]; [lia..|]. step.
  cbv beta iota. apply bind_pair_assoc. eapply wp_mono; [apply tail_up_ok; try done; try lia|].
  - by_length H1.
  - intros u m2 H2. step. split; [done|]. by eapply moved_up.
Qed.

Lemma memmove_moved dst src k m :
  Z.of_nat k < two64 -> (dst + k <= length m)%nat -> (src + k <= length m)%nat ->
  wp (memmove dst src (Z.of_nat k)) m (fun r m' => r = dst /\ moved m dst src k m').
Proof.
  intros Hn Hd Hs. unfold memmove. destruct (decide (Z.of_nat k = 0 \/ dst = src)) as [H0|H0].
  { step. split; [done|]. destruct H0 as [H0| ->]; [|apply moved_self].
    assert (k = 0%nat) as -> by lia. apply moved_refl. }
  rewrite Nat2Z.id. destruct (decide (src < dst)%nat) as [Hlt|Hge].
  - pose proof (misalign_range (src + k)) as Hr.
    destruct (decide (misalign (src + k) <> 0 \/ misalign (dst + k) <> 0)) as [Hmis|Hal].
    + destruct (decide (misalign (src + k) <> misalign (dst + k) \/ Z.of_nat k <= ALIGN)) as [Hno|Hsame].
      * rewrite Nat2Z.id. destruct k as [|k]; [lia|]. step. step. wp_use do_down_ok as [-> H1]; [lia..|].
        steps. done.
      * assert (misalign (src + k) = misalign (dst + k) /\ ALIGN < Z.of_nat k) as [Em Hk] by lia. clear Hsame.
        unfold ALIGN in Hk. set (j := Z.to_nat (misalign (src + k) - 1)).
        assert (Z.of_nat (S j) = misalign (src + k)) as Hj by lia. clearbody j. rewrite <- Hj, Nat2Z.id.
        assert (exists q, k = q + S j)%nat as [q ->] by (exists (k - S j)%nat; lia).
        assert (u64 (Z.of_nat (q + S j) - Z.of_nat (S j)) = Z.of_nat q) as -> by (rewrite u64_small; lia).
        apply two_phases_down; [done|lia|..]; apply (misalign_back _ (S j)); rewrite <- Nat.add_assoc; lia.
    + step. step. apply bind_pair_assoc. eapply wp_mono; [apply tail_down_ok; [done|lia..]|].
      intros u m' H. by step.
  - pose proof (misalign_range src) as Hr.
    destruct (decide (misalign src <> 0 \/ misalign dst <> 0)) as [Hmis|Hal].
    + destruct (decide (misalign src <> misalign dst \/ Z.of_nat k < ALIGN)) as [Hno|Hsame].
      * rewrite Nat2Z.id. destruct k as [|k]; [lia|]. step. step. wp_use do_up_ok as [-> H1]; [lia..|].
        steps. done.
      * assert (misalign src = misalign dst /\ ALIGN <= Z.of_nat k) as [Em Hk] by lia. clear Hsame.
        unfold ALIGN in Hk |- *. set (j := Z.to_nat (4 - misalign src - 1)).
        assert (Z.of_nat (S j) = 4 - misalign src) as Hj by lia. clearbody j. rewrite <- Hj, Nat2Z.id.
        assert (exists q, k = S j + q)%nat as [q ->] by (exists (k - S j)%nat; lia).
        assert (u64 (Z.of_nat (S j + q) - Z.of_nat (S j)) = Z.of_nat q) as -> by (rewrite u64_small; lia).
        apply two_phases_up; [lia..| |]; apply misalign_next; lia.
    + step. step. apply bind_pair_assoc. eapply wp_mono; [apply tail_up_ok; lia|].
      intros u m' H. by step.
Qed.

(** C36. [memmove] is the simultaneous copy, whichever way the two pieces overlap
    and whatever their alignment: with both pieces inside the memory the result
    is the reference one, no [int] is accessed at a misaligned address, no byte
    outside is touched, and the destination is returned. *)
Theorem memmove_correct dst src n m :
  0 <= n < two64 -> (dst + Z.to_nat n <= length m)%nat -> (src + Z.to_nat n <= length m)%nat ->
  memmove dst src n m = Ret (dst, moved_memory m dst src (Z.to_nat n)).
Proof.
  intros [Hn0 Hn] Hd Hs. pose proof (memmove_moved dst src (Z.to_nat n) m) as H.
  rewrite Z2Nat.id in H by done. specialize (H Hn Hd Hs).
  apply wp_Ret in H as (r & m' & -> & -> & H). do 2 f_equal.
  eapply moved_eq; [exact H|by apply moved_memory_moved].
Qed.

Definition wit_bytes : memory := Z.of_nat <$> seq 0 24.

Lemma memmove_correct_witness :
  memmove 5 1 13 wit_bytes = Ret (5%nat, moved_memory wit_bytes 5 1 13) /\
  moved_memory wit_bytes 5 1 13 = [0; 1; 2; 3; 4; 1; 2; 3; 4; 5; 6; 7; 8; 9; 10; 11; 12; 13; 18; 19; 20; 21; 22; 23].
Proof. split; [|reflexivity]. apply (memmove_correct 5 1 13 wit_bytes); [done|cbn; lia..]. Defined.

(** * Setting memory *)

(** [m'] is [m] with the [n] bytes at [b] set to [x]. *)
Definition set_to (m : memory) (b n : nat) (x : Z) (m' : memory) : Prop :=
  forall a, m' !! a = if decide (b <= a < b + n)%nat then Some x else m !! a.

Lemma set_to_refl m b x : set_to m b 0 x m.
Proof. intros a. by rewrite decide_False by lia. Qed.

Lemma set_to_app m b j k x m1 m2 : set_to m b j x m1 -> set_to m1 (b + j) k x m2 -> set_to m b (j + k) x m2.
Proof. intros H1 H2 a. rewrite H2. repeat case_decide; try lia; rewrite ?H1; repeat case_decide; try lia; done. Qed.

Lemma set_to_length m b n x m' : (b + n <= length m)%nat -> set_to m b n x m' -> length m' = length m.
Proof.
  intros Hl H. assert (forall a, m' !! a = None <-> m !! a = None) as E.
  { intros a. rewrite H. case_decide; [|done]. split; [done|]. intros Hn%lookup_ge_None. lia. }
  pose proof (E (length m)) as E1. pose proof (E (length m')) as E2.
  rewrite !lookup_ge_None in E1, E2. lia.
Qed.

Ltac by_set_length H :=
  let HL := fresh in pose proof (fun Hl => set_to_length _ _ _ _ _ Hl H) as HL; rewrite HL by lia; lia.

Lemma fill_ok n : forall m d x, (d + n <= length m)%nat ->
  wp (fill n d x) m (fun r m' => r = (d + n)%nat /\ set_to m d n x m').
Proof.
  induction n as [|n IH]; intros m d x Hl; cbn [fill].
  { step. split; [lia|apply set_to_refl]. }
  destruct (lookup_lt_is_Some_2 m d ltac:(lia)) as [y Hy]. step. eapply wp_store; [done|].
  eapply wp_mono; [apply IH; rewrite length_insert; lia|]. intros r m' [-> H]. split; [lia|].
  intros a. rewrite H. repeat case_decide; try lia; try done.
  - replace a with d by lia. apply list_lookup_insert_eq. lia.
  - apply list_lookup_insert_ne. lia.
Qed.

Lemma clear_ints_ok n : forall m d, misalign d = 0 -> (d + n * 4 <= length m)%nat ->
  wp (clear_ints n d) m (fun r m' => r = (d + n * 4)%nat /\ set_to m d (n * 4) 0 m').
Proof.
  induction n as [|n IH]; intros m d Hd Hl; cbn [clear_ints].
  { step. split; [lia|apply set_to_refl]. }
  step. unfold store_int. rewrite decide_False by (intros H; apply H; by rewrite <- misalign_mod). step. step.
  rewrite decide_True by lia. step. set (m1 := take d m ++ [0; 0; 0; 0] ++ drop (d + 4) m).
  assert (set_to m d 4 0 m1) as H1.
  { intros a. unfold m1. case_decide as Ha.
    - rewrite lookup_app_r by (rewrite length_take; lia). rewrite length_take, Nat.min_l by lia.
      assert (a - d = 0 \/ a - d = 1 \/ a - d = 2 \/ a - d = 3)%nat as [-> |[-> |[-> | ->]]] by lia; done.
    - destruct (decide (a < d)%nat).
      + rewrite lookup_app_l by (rewrite length_take; lia). by apply lookup_take_lt.
      + rewrite lookup_app_r by (rewrite length_take; lia). rewrite length_take, Nat.min_l by lia.
        rewrite lookup_app_r by (cbn; lia). cbn [length]. rewrite lookup_drop. f_equal. lia. }
  eapply wp_mono; [apply IH|].
  - by rewrite (misalign_add _ 1).
  - by_set_length H1.
  - intros r m2 [-> H2]. split; [lia|]. exact (set_to_app _ _ 4 _ _ _ _ H1 H2).
Qed.

(** Phase 1 reaches the boundary when it lies [j] bytes ahead, and the counter
    allows that many rounds. *)
Lemma clear_head_ok j : forall m d n cnt, (j <= cnt)%nat -> misalign (d + j) = 0 ->
  (forall i, (i < j)%nat -> misalign (d + i) <> 0) -> (d + j <= length m)%nat -> 0 <= n < two64 ->
  wp (clear_head cnt d n) m (fun r m' => r = ((d + j)%nat, u64 (n - Z.of_nat j)) /\ set_to m d j 0 m').
Proof.
  induction j as [|j IH]; intros m d n cnt Hj Ha Hna Hl Hn.
  - rewrite Nat.add_0_r in *. replace (n - Z.of_nat 0) with n by lia. rewrite (u64_small n) by done.
    destruct cnt; cbn [clear_head]; rewrite decide_True by done; step; (split; [done|apply set_to_refl]).
  - destruct cnt as [|cnt]; [lia|]. cbn [clear_head].
    rewrite decide_False by (specialize (Hna 0%nat ltac:(lia)); by rewrite Nat.add_0_r in Hna).
    destruct (lookup_lt_is_Some_2 m d ltac:(lia)) as [y Hy]. step. eapply wp_store; [done|].
    assert (set_to m d 1 0 (<[d:=0]> m)) as H1.
    { intros a. case_decide; [|apply list_lookup_insert_ne; lia].
      replace a with d by lia. apply list_lookup_insert_eq. lia. }
    eapply wp_mono; [apply (IH _ (d + 1)%nat (u64 (n - 1)) cnt)|].
    + lia.
    + replace (d + 1 + j)%nat with (d + S j)%nat by lia. done.
    + intros i Hi. replace (d + 1 + i)%nat with (d + S i)%nat by lia. apply Hna. lia.
    + rewrite length_insert. lia.
    + apply Z.mod_pos_bound. done.
    + intros r m2 [-> H2]. split; [|exact (set_to_app _ _ 1 _ _ _ _ H1 H2)].
      f_equal; [lia|]. unfold u64. rewrite Zminus_mod_idemp_l. f_equal. lia.
Qed.

(** The bytes to the next boundary, for the misalignments that phase 1 handles. *)
Lemma misalign_head b : misalign b <> 1 -> exists j, (j <= Z.to_nat (misalign b))%nat /\ misalign (b + j) = 0 /\
  (forall i, (i < j)%nat -> misalign (b + i) <> 0) /\ Z.of_nat j = (4 - misalign b) mod 4.
Proof.
  intros H1. pose proof (misalign_range b) as Hr.
  assert (forall i, misalign (b + i) = (misalign b + Z.of_nat i) mod 4) as E
    by (intros i; by rewrite !misalign_mod, Nat2Z.inj_add, Zplus_mod_idemp_l).
  exists (Z.to_nat ((4 - misalign b) mod 4)). rewrite Z2Nat.id by (apply Z.mod_pos_bound; lia).
  assert (misalign b = 0 \/ misalign b = 2 \/ misalign b = 3) as [Hb|[Hb|Hb]] by lia;
    rewrite E, Hb; (split; [vm_compute; lia|]); (split; [done|]); (split; [|done]);
    intros i Hi; rewrite E, Hb; vm_compute in Hi; destruct i as [|[|i]]; try done; lia.
Qed.

Lemma land_mod4 n : Z.land n 3 = n mod 4.
Proof. change 3 with (Z.ones 2). by rewrite Z.land_ones. Qed.

(** Phases 2 and 3. *)
Lemma clear_tail_ok n b m d : misalign d = 0 -> 0 <= n -> (d + Z.to_nat n <= length m)%nat ->
  wp (d ← clear_ints (Z.to_nat (n / ALIGN)) d; fill (Z.to_nat (Z.land n 3)) d 0;; mret b : M memory nat) m
     (fun r m' => r = b /\ set_to m d (Z.to_nat n) 0 m').
Proof.
  intros Hd Hn Hl. rewrite land_mod4. unfold ALIGN. pose proof (Z.div_mod n 4 ltac:(lia)) as E.
  pose proof (Z.mod_pos_bound n 4 ltac:(lia)). pose proof (Z.div_pos n 4 ltac:(lia) ltac:(lia)).
  set (k := Z.to_nat (n / 4)) in *. set (r := Z.to_nat (n mod 4)) in *.
  assert (Z.to_nat n = k * 4 + r)%nat as En by lia. rewrite En in *.
  step. wp_use clear_ints_ok as [-> H1]; [lia..|]. step. eapply wp_mono; [apply fill_ok; by_set_length H1|].
  intros ? m2 [-> H2]. step. split; [done|]. exact (set_to_app _ _ _ _ _ _ _ H1 H2).
Qed.

Lemma clear_ints_overrun k : forall d m, (length m < d + k * 4)%nat -> (d <= length m)%nat -> clear_ints k d m = Undef.
Proof.
  induction k as [|k IH]; intros d m Hk Hd; [lia|]. cbn [clear_ints]. unfold mbind at 1, M_bind at 1, store_int at 1.
  destruct (decide _) as [Hm|Hm]; [done|]. unfold mbind at 1, M_bind at 1, get at 1.
  destruct (decide (d + 4 <= length m)%nat) as [Hle|Hgt]; [|done].
  unfold put. apply IH; rewrite !length_app, length_take, length_drop; cbn [length]; lia.
Qed.

(** Addresses from which phase 1 reaches a boundary. *)
Lemma memset_aligned b c n m :
  0 <= n -> (b + Z.to_nat n <= length m)%nat -> Z.of_nat (length m) < 2 ^ 63 -> misalign b <> 1 ->
  c = 0 -> (4 - misalign b) mod 4 <= n ->
  wp (memset b c n) m (fun r m' => r = b /\ set_to m b (Z.to_nat n) 0 m').
Proof.
  intros Hn Hl Hm Hmis -> Hc. destruct (misalign_head b Hmis) as (j & Hj & Ha & Hna & Ej). rewrite <- Ej in Hc.
  unfold memset. rewrite decide_False by tauto. step. wp_use clear_head_ok as [-> H1]; try eassumption.
  { lia. }
  { unfold two64. lia. }
  cbv beta iota. rewrite u64_small by (unfold two64; lia).
  eapply wp_mono; [apply clear_tail_ok; [done|lia|by_set_length H1]|].
  intros r m2 [-> H2]. split; [done|]. replace (Z.to_nat n) with (j + Z.to_nat (n - Z.of_nat j))%nat by lia.
  exact (set_to_app _ _ _ _ _ _ _ H1 H2).
Qed.

Lemma memset_overrun b n m :
  0 <= n -> (b + Z.to_nat n <= length m)%nat -> Z.of_nat (length m) < 2 ^ 63 -> misalign b <> 1 ->
  n < (4 - misalign b) mod 4 -> (b + 4 <= length m)%nat -> memset b 0 n m = Undef.
Proof.
  intros Hn Hl Hm Hmis Hlt Hl4. destruct (misalign_head b Hmis) as (j & Hj & Ha & Hna & Ej). rewrite <- Ej in Hlt.
  pose proof (misalign_range b) as Hr. unfold memset. rewrite decide_False by tauto.
  apply (wp_bind_ends _ _ _ (fun r m' => r = ((b + j)%nat, u64 (n - Z.of_nat j)) /\ set_to m b j 0 m')).
  { apply clear_head_ok; try done; [lia|unfold two64; lia]. }
  intros [d k] m' [[= -> ->] H1]. cbv beta iota.
  assert (length m' = length m) as El by (eapply set_to_length; [|exact H1]; lia).
  assert (u64 (n - Z.of_nat j) = n - Z.of_nat j + two64) as ->.
  { unfold u64. rewrite <- (Z.mod_add _ 1) by done. rewrite Z.mul_1_l. apply Z.mod_small. unfold two64. lia. }
  unfold mbind at 1, M_bind at 1. rewrite clear_ints_overrun; [done| |lia].
  rewrite El. unfold ALIGN, two64.
  pose proof (Z.div_le_mono (2 ^ 64 - 4) (n - Z.of_nat j + 18446744073709551616) 4 ltac:(lia) ltac:(lia)) as Hd.
  change ((2 ^ 64 - 4) / 4) with 4611686018427387903 in Hd. lia.
Qed.

(** One past a boundary, phase 1 ends after one byte, two past the boundary. *)
Lemma clear_head_one b n m : misalign b = 1 -> (b < length m)%nat ->
  clear_head (Z.to_nat (misalign b)) b n m = Ret (((b + 1)%nat, u64 (n - 1)), <[b:=0]> m).
Proof.
  intros Hb Hl. assert (misalign (b + 1) = 2) as Hb1.
  { rewrite misalign_mod, Nat2Z.inj_add, <- Zplus_mod_idemp_l, <- misalign_mod, Hb. reflexivity. }
  replace (Z.to_nat (misalign b)) with 1%nat by (rewrite Hb; reflexivity). cbn [clear_head].
  rewrite decide_False by lia. destruct (lookup_lt_is_Some_2 m b Hl) as [y Hy].
  assert (wp (store b 0) m (fun _ m' => m' = <[b:=0]> m)) as Hs by (by eapply wp_store).
  apply wp_Ret in Hs as ([] & m' & E & ->). erewrite mbind_Ret by exact E. by rewrite decide_False by lia.
Qed.

Lemma memset_off_one b n m : (b + Z.to_nat n <= length m)%nat -> misalign b = 1 -> 1 <= n <= 4 ->
  wp (memset b 0 n) m (fun r m' => r = b /\ set_to m b (Z.to_nat n) 0 m').
Proof.
  intros Hl Hb Hn. unfold memset. rewrite decide_False by tauto. step.
  eapply Ret_wp; [apply clear_head_one; [done|lia]|]. cbv beta iota. rewrite (u64_small (n - 1)) by (unfold two64; lia).
  unfold ALIGN. rewrite (Z.div_small (n - 1) 4) by lia. rewrite land_mod4, Z.mod_small by lia. cbn [Z.to_nat clear_ints]. step. apply wp_ret. step.
  eapply wp_mono; [apply fill_ok; rewrite length_insert; lia|]. intros ? m2 [-> H2]. step. split; [done|].
  replace (Z.to_nat n) with (1 + Z.to_nat (n - 1))%nat by lia. refine (set_to_app _ _ 1 _ _ _ _ _ H2).
  intros a. case_decide; [|apply list_lookup_insert_ne; lia]. replace a with b by lia. apply list_lookup_insert_eq. lia.
Qed.

Lemma memset_misaligned b n m : 0 <= n -> Z.of_nat (length m) < 2 ^ 63 -> (b + Z.to_nat n <= length m)%nat -> (b + 4 <= length m)%nat ->
  misalign b = 1 -> n = 0 \/ 4 < n -> memset b 0 n m = Undef.
Proof.
  intros H0 Hm Hl Hb4 Hb Hn. unfold memset. rewrite decide_False by tauto. erewrite mbind_Ret by (apply clear_head_one; [done|lia]). cbv beta iota.
  assert (4 <= u64 (n - 1)) as Hk.
  { destruct Hn as [->|Hn]; [by vm_compute|]. rewrite u64_small by (unfold two64; lia). lia. }
  apply mbind_Undef. unfold ALIGN. destruct (Z.to_nat (u64 (n - 1) / 4)) as [|k] eqn:Ek.
  { pose proof (Z.div_le_mono 4 (u64 (n - 1)) 4 ltac:(lia) Hk) as Hd. change (4 / 4) with 1 in Hd. lia. }
  cbn [clear_ints]. apply mbind_Undef. unfold store_int. rewrite decide_True; [done|]. rewrite <- misalign_mod.
  rewrite misalign_mod, Nat2Z.inj_add, <- Zplus_mod_idemp_l, <- misalign_mod, Hb. done.
Qed.

(** The calls on which [memset] works: for zero, it needs as many bytes as there are up
    to the next boundary, and one past a boundary, from 1 to 4. *)
Definition memset_works (b : nat) (c n : Z) : Prop :=
  c <> 0 \/ if decide (misalign b = 1) then 1 <= n <= 4 else (4 - misalign b) mod 4 <= n.

(** C37. [memset] stores the byte in exactly the [n] places, on the calls of
    [memset_works]; on all others, with room for four bytes, it is undefined: either the
    count wraps around and it clears memory to the end, or it stores integers at addresses
    that are not aligned. *)
Theorem memset_correct b c n m :
  0 <= n -> (b + Z.to_nat n <= length m)%nat -> Z.of_nat (length m) < 2 ^ 63 ->
  (memset_works b c n -> wp (memset b c n) m (fun r m' => r = b /\ set_to m b (Z.to_nat n) (Z.land c 0xFF) m')) /\
  (~ memset_works b c n -> (b + 4 <= length m)%nat -> memset b c n m = Undef).
Proof.
  intros Hn Hl Hm. unfold memset_works. split; [intros Hc|intros Hc Hl4].
  - destruct (decide (c <> 0)) as [Hc0|Hc0].
    { unfold memset. rewrite decide_True by done. step. wp_use fill_ok as [-> H1]; [done|]. by step. }
    assert (c = 0) as -> by lia. destruct Hc as [Hc|Hc]; [done|]. change (Z.land 0 0xFF) with 0.
    destruct (decide (misalign b = 1)); [by apply memset_off_one|by apply memset_aligned].
  - assert (c = 0) as -> by (destruct (decide (c = 0)); tauto).
    destruct (decide (misalign b = 1)); [apply memset_misaligned|apply memset_overrun]; (done || lia).
Qed.

Lemma memset_correct_witness :
  wp (memset 2 0 9) wit_bytes (fun r m' => r = 2%nat /\ set_to wit_bytes 2 9 0 m') /\
  memset 2 0 1 wit_bytes = Undef /\ memset 1 0 5 wit_bytes = Undef.
Proof.
  split_and!.
  - apply (memset_correct 2 0 9 wit_bytes); [done|cbn; lia|done|]. by right.
  - apply (memset_correct 2 0 1 wit_bytes); [done|cbn; lia|done| |cbn; lia]. intros [H|H]; [done|]. by vm_compute in H.
  - apply (memset_correct 1 0 5 wit_bytes); [done|cbn; lia|done| |cbn; lia]. intros [H|[_ H]]; [done|]. by vm_compute in H.
Defined.
