(* ===== verification/CStringText.v ===== *)
(** The functions on strings and on the text of numbers of src/src/lib/string.c. *)
From stdpp Require Import base numbers list.
From Stdlib Require Import ZArith Lia.
From S2P Require Import Prelude Memory CType CString.

(** * Strings in memory *)

Definition byte_val (x : Z) : Prop := 0 <= x < 256.

(** The characters [s], none of them zero, and the terminating zero are at [p]. *)
Definition cstr (m : memory) (p : nat) (s : list Z) : Prop :=
  at_ m p (s ++ [0]) /\ Forall (fun x => x <> 0 /\ byte_val x) s.

Lemma cstr_nil m p : cstr m p [] -> m !! p = Some 0.
Proof. intros [H _]. specialize (H 0%nat 0 eq_refl). by rewrite Nat.add_0_r in H. Qed.

Lemma at_cons m p x s : at_ m p (x :: s) <-> m !! p = Some x /\ at_ m (p + 1) s.
Proof.
  rewrite (at_app m p [x] s). cbn [length]. split; intros [H1 H2]; (split; [|done]).
  - specialize (H1 0%nat x eq_refl). by rewrite Nat.add_0_r in H1.
  - intros [|i] z Hz; [|done]. rewrite Nat.add_0_r. by injection Hz as <-.
Qed.

Lemma cstr_cons m p x s : cstr m p (x :: s) -> m !! p = Some x /\ x <> 0 /\ byte_val x /\ cstr m (p + 1) s.
Proof.
  intros [H F]. cbn in H. apply at_cons in H as [H1 H2]. apply Forall_cons in F as [[Hx Hb] F].
  by split_and!.
Qed.

Lemma cstr_length m p s : cstr m p s -> (p + length s < length m)%nat.
Proof.
  intros [H _]. eapply lookup_lt_Some. apply H. rewrite lookup_app_r by lia. by rewrite Nat.sub_diag.
Qed.

(** The first character, the terminator for the empty string. *)
Lemma cstr_hd m p s : cstr m p s -> m !! p = Some (hd 0 s).
Proof. destruct s; [apply cstr_nil|by intros [? _]%cstr_cons]. Qed.

Lemma wp_scan {A} (f : nat -> M memory A) m Q : wp (f (S (length m))) m Q -> wp (scan f) m Q.
Proof. intros H. unfold scan. by step; step. Qed.

(** ** Length *)

Lemma strlen_loop_ok s : forall fuel p n m Q, cstr m p s -> (length s < fuel)%nat ->
  0 <= n -> n + Z.of_nat (length s) < two64 ->
  Q (n + Z.of_nat (length s)) m -> wp (strlen_loop fuel p n) m Q.
Proof.
  induction s as [|x s IH]; intros [|fuel] p n m Q Hs Hf Hn Hb HQ; cbn [length] in *; try lia; cbn [strlen_loop];
    step; (eapply wp_load; [by eapply cstr_hd|]); cbn [hd].
  - rewrite decide_False by tauto. step. by rewrite Z.add_0_r in HQ.
  - apply cstr_cons in Hs as (_ & Hx & _ & Hs). rewrite decide_True by done. rewrite u64_small by lia.
    apply IH; [done|lia..|]. by replace (n + 1 + Z.of_nat (length s)) with (n + Z.of_nat (S (length s))) by lia.
Qed.

Lemma strlen_ok m p s Q : cstr m p s -> Z.of_nat (length m) < two64 -> Q (Z.of_nat (length s)) m -> wp (strlen p) m Q.
Proof.
  intros Hs Hm HQ. pose proof (cstr_length _ _ _ Hs). apply wp_scan.
  apply (strlen_loop_ok s); [done|lia..|done].
Qed.

Lemma string_end_ok s : forall fuel p m Q, cstr m p s -> (length s < fuel)%nat ->
  Q (p + length s)%nat m -> wp (string_end fuel p) m Q.
Proof.
  induction s as [|x s IH]; intros [|fuel] p m Q Hs Hf HQ; cbn [length] in *; try lia; cbn [string_end];
    step; (eapply wp_load; [by eapply cstr_hd|]); cbn [hd].
  - rewrite decide_False by tauto. step. by rewrite Nat.add_0_r in HQ.
  - apply cstr_cons in Hs as (_ & Hx & _ & Hs). rewrite decide_True by done.
    apply IH; [done|lia..|]. by replace (p + 1 + length s)%nat with (p + S (length s))%nat by lia.
Qed.

(** ** Copying: [n] bytes at [q], that is the string and its terminator *)

Lemma strcpy_loop_ok s : forall fuel d q m, cstr m q s -> (length s < fuel)%nat ->
  (d + S (length s) <= length m)%nat -> (d + S (length s) <= q \/ q + S (length s) <= d)%nat ->
  wp (strcpy_loop fuel d q) m (fun _ m' => at_ m' d (s ++ [0]) /\ same_elsewhere m m' d (S (length s))).
Proof.
  induction s as [|x s IH]; intros [|fuel] d q m Hs Hf Hl Hd; cbn [length] in *; try lia; cbn [strcpy_loop];
    step; (eapply wp_load; [by eapply cstr_hd|]); cbn [hd];
    destruct (lookup_lt_is_Some_2 m d ltac:(lia)) as [y Hy]; step; (eapply wp_store; [done|]).
  - rewrite decide_False by tauto. step. split.
    + apply at_cons. split; [apply list_lookup_insert_eq; lia|]. by intros i z.
    + split; [apply length_insert|]. intros a Ha. apply list_lookup_insert_ne. lia.
  - apply cstr_cons in Hs as (_ & Hx & Hb & Hs). rewrite decide_True by done.
    assert (same_elsewhere m (<[d:=x]> m) d 1) as S1.
    { split; [apply length_insert|]. intros a Ha. apply list_lookup_insert_ne. lia. }
    eapply wp_mono; [apply (IH fuel (d + 1)%nat (q + 1)%nat)|].
    + destruct Hs as [Hat F]. split; [|done]. eapply at_same; [exact Hat|exact S1|].
      rewrite length_app. cbn [length]. lia.
    + lia.
    + rewrite length_insert. lia.
    + lia.
    + intros u m' [H [L2 S2]]. split.
      * cbn [app]. apply at_cons. split; [|done]. rewrite S2 by lia. apply list_lookup_insert_eq. lia.
      * destruct S1 as [L1 S1]. split; [lia|]. intros a Ha. rewrite S2, S1 by lia. done.
Qed.

Lemma strcpy_ok d q s m : cstr m q s -> (d + S (length s) <= length m)%nat ->
  (d + S (length s) <= q \/ q + S (length s) <= d)%nat ->
  wp (strcpy d q) m (fun r m' => r = d /\ cstr m' d s /\ same_elsewhere m m' d (S (length s))).
Proof.
  intros Hs Hl Hd. pose proof (cstr_length _ _ _ Hs). unfold strcpy. step. apply wp_scan.
  eapply wp_mono; [apply (strcpy_loop_ok s); [done|lia..]|]. intros u m' [H1 H2]. step. split; [done|].
  split; [|done]. split; [done|apply Hs].
Qed.

(** [strcat] leaves the concatenation at its first argument, which it
    returns, and changes nothing else, when there is room and the strings do not
    overlap. *)
Lemma strcat_correct p q s t m :
  cstr m p s -> cstr m q t -> (p + length s + S (length t) <= length m)%nat ->
  (p + length s + S (length t) <= q \/ q + S (length t) <= p)%nat ->
  wp (strcat p q) m (fun r m' => r = p /\ cstr m' p (s ++ t) /\
    same_elsewhere m m' (p + length s) (S (length t))).
Proof.
  intros Hs Ht Hl Hd. pose proof (cstr_length _ _ _ Hs). pose proof (cstr_length _ _ _ Ht). unfold strcat.
  step. apply wp_scan. apply (string_end_ok s); [done|lia|]. step. apply wp_scan.
  eapply wp_mono; [apply (strcpy_loop_ok t); [done|lia..]|]. intros u m' [H1 H2]. step. split; [done|].
  split; [|done]. destruct Hs as [Hs Fs], Ht as [_ Ft]. split; [|by apply Forall_app].
  rewrite <- app_assoc. apply at_app. split; [|done]. apply at_app in Hs as [Hs _].
  eapply at_same; [exact Hs|exact H2|lia].
Qed.

(** "ab" and "cd", with room after the first. *)
Definition wit_strings : memory := [97; 98; 0; 7; 7; 99; 100; 0; 7].

Lemma wit_cstr : cstr wit_strings 0 [97; 98] /\ cstr wit_strings 5 [99; 100].
Proof.
  split; (split; [|repeat constructor; unfold byte_val; lia]);
    intros i x Hi; do 3 (destruct i as [|i]; [exact Hi|]); done.
Qed.

Lemma strcat_correct_witness :
  wp (strcat 0 5) wit_strings (fun r m' => r = 0%nat /\ cstr m' 0 ([97; 98] ++ [99; 100]) /\
    same_elsewhere wit_strings m' 2 3) /\
  strcat 0 5 wit_strings = Ret (0%nat, [97; 98; 99; 100; 0; 99; 100; 0; 7]).
Proof.
  split; [|reflexivity]. apply (strcat_correct 0 5 [97; 98] [99; 100] wit_strings);
    [apply wit_cstr|apply wit_cstr|cbn; lia|cbn; lia].
Defined.

(** ** Comparing *)

(** The sign of the lexicographic comparison. *)
Fixpoint lex (s t : list Z) : Z :=
  match s, t with
  | [], [] => 0
  | [], _ :: _ => -1
  | _ :: _, [] => 1
  | x :: s, y :: t => if decide (x < y) then -1 else if decide (x > y) then 1 else lex s t
  end.

(** One of the two is a prefix of the other. *)
Definition prefixes (s t : list Z) : Prop := s `prefix_of` t \/ t `prefix_of` s.

#[export] Instance prefixes_dec s t : Decision (prefixes s t) := _.

Lemma prefixes_cons x y s t : prefixes (x :: s) (y :: t) <-> x = y /\ prefixes s t.
Proof.
  unfold prefixes. split.
  - intros [H|H]; (split; [|first [left; by eapply prefix_cons_inv_2|right; by eapply prefix_cons_inv_2]]).
    + by eapply prefix_cons_inv_1.
    + symmetry. by eapply prefix_cons_inv_1.
  - intros [-> [H|H]]; [left|right]; by apply prefix_cons.
Qed.

Lemma strcmp_loop_ok s : forall t fuel p q m Q, cstr m p s -> cstr m q t -> (length s < fuel)%nat ->
  (forall r, Z.sgn r = lex s t -> Q r m) -> wp (strcmp_loop fuel p q) m Q.
Proof.
  induction s as [|x s IH]; intros t [|fuel] p q m Q Hs Ht Hf HQ; cbn [length] in *; try lia; cbn [strcmp_loop];
    step; (eapply wp_load; [by eapply cstr_hd|]); step; (eapply wp_load; [by eapply cstr_hd|]); cbn [hd].
  - rewrite decide_False by tauto. destruct t as [|y t]; cbn [hd].
    + rewrite decide_True by done. step. by apply HQ.
    + apply cstr_cons in Ht as (_ & Hy & _). rewrite decide_False by tauto. rewrite decide_True by done. step. by apply HQ.
  - apply cstr_cons in Hs as (_ & Hx & Hb & Hs). destruct t as [|y t]; cbn [hd].
    + rewrite decide_False by tauto. rewrite decide_False by tauto. rewrite decide_False by done. step. by apply HQ.
    + apply cstr_cons in Ht as (_ & Hy & Hb' & Ht). rewrite decide_True by done. cbn [lex] in HQ.
      destruct (decide (x <> y)) as [Hne|He].
      * step. apply HQ. repeat case_decide; lia.
      * apply (IH t); [done..|lia|]. intros r Hr. apply HQ. by rewrite !decide_False by lia.
Qed.

Lemma strncmp_loop_ok n : forall s t p q m Q, cstr m p s -> cstr m q t ->
  Q (if decide (prefixes (take n s) (take n t)) then - lex (take n s) (take n t) else lex (take n s) (take n t)) m ->
  wp (strncmp_loop n p q) m Q.
Proof.
  induction n as [|n IH]; intros s t p q m Q Hs Ht HQ; cbn [strncmp_loop].
  { step. rewrite !take_0, decide_True in HQ; [done|by left]. }
  step. (eapply wp_load; [by eapply cstr_hd|]). step. (eapply wp_load; [by eapply cstr_hd|]).
  destruct s as [|x s], t as [|y t]; cbn [hd take firstn] in *.
  - rewrite decide_True in HQ by by left. rewrite decide_True by done. by step.
  - apply cstr_cons in Ht as (_ & Hy & _). rewrite decide_True in HQ by (left; apply prefix_nil).
    rewrite decide_False by tauto. rewrite decide_True by done. by step.
  - apply cstr_cons in Hs as (_ & Hx & _). rewrite decide_True in HQ by (right; apply prefix_nil).
    rewrite decide_False by tauto. rewrite decide_False by done. rewrite decide_True by done. by step.
  - apply cstr_cons in Hs as (_ & Hx & _ & Hs). apply cstr_cons in Ht as (_ & Hy & _ & Ht).
    rewrite decide_False by tauto. rewrite !decide_False by done. cbn [lex] in HQ.
    destruct (decide (x < y)) as [Hlt|Hge].
    { rewrite decide_False in HQ by (rewrite prefixes_cons; lia). by step. }
    destruct (decide (x > y)) as [Hgt|Hle].
    { rewrite decide_False in HQ by (rewrite prefixes_cons; lia). by step. }
    assert (x = y) as <- by lia. apply (IH s t); [done..|].
    destruct (decide (prefixes (take n s) (take n t))) as [Hp|Hp].
    + by rewrite decide_True in HQ by by apply prefixes_cons.
    + rewrite decide_False in HQ; [done|]. by rewrite prefixes_cons; intros [_ ?].
Qed.

(** [strcmp] has the sign of the lexicographic comparison. [strncmp]
    compares the first [n] characters and gives its sign when they differ at some
    place, and the opposite sign when one string is a proper prefix of the other. *)
Lemma strcmp_strncmp_sign p q s t n m :
  cstr m p s -> cstr m q t -> 0 <= n ->
  let s' := take (Z.to_nat n) s in
  let t' := take (Z.to_nat n) t in
  wp (strcmp p q) m (fun r m' => m' = m /\ Z.sgn r = lex s t) /\
  strncmp p q n m = Ret (if decide (prefixes s' t') then - lex s' t' else lex s' t', m).
Proof.
  intros Hs Ht Hn s' t'. pose proof (cstr_length _ _ _ Hs). split.
  - apply wp_scan. apply (strcmp_loop_ok s t); [done..|lia|]. by intros r Hr.
  - assert (wp (strncmp p q n) m (fun r m' => m' = m /\ r = if decide (prefixes s' t') then - lex s' t' else lex s' t')) as H1
      by (by apply (strncmp_loop_ok _ s t)).
    by apply wp_Ret in H1 as (r & m' & -> & -> & ->).
Qed.

Lemma strcmp_strncmp_sign_witness :
  (wp (strcmp 0 5) wit_strings (fun r m' => m' = wit_strings /\ Z.sgn r = lex [97; 98] [99; 100]) /\
   strncmp 0 5 2 wit_strings = Ret (-1, wit_strings)) /\
  (* a proper prefix counts as greater *)
  strncmp 1 0 2 [97; 0; 97; 98; 0] = Ret (1, [97; 0; 97; 98; 0]) /\
  strcmp 1 0 [97; 0; 97; 98; 0] = Ret (-1, [97; 0; 97; 98; 0]).
Proof.
  split; [|by split]. apply (strcmp_strncmp_sign 0 5 [97; 98] [99; 100] 2 wit_strings); [apply wit_cstr..|done].
Defined.

(** ** Searching *)

(** Where [t] first occurs in [s], not counting the end of [s]. *)
Fixpoint first_occurrence (s t : list Z) : option nat :=
  match s with
  | [] => None
  | _ :: s' => if decide (t `prefix_of` s) then Some 0%nat else Datatypes.S <$> first_occurrence s' t
  end.

Lemma lex_zero_eq s : forall t, lex s t = 0 <-> s = t.
Proof.
  induction s as [|x s IH]; intros [|y t]; cbn [lex]; try done.
  repeat case_decide; [split; [done|intros [= -> ->]; lia]..|]. rewrite IH.
  split; [intros ->; f_equal; lia|by intros [= -> ->]].
Qed.

Lemma prefix_iff_take (s t : list Z) : t `prefix_of` s <-> take (length t) s = t.
Proof.
  split.
  - intros [k ->]. by rewrite take_app_length.
  - intros <-. apply prefix_take.
Qed.

Lemma strstr_loop_ok t : forall s fuel p q m Q, cstr m p s -> cstr m q t -> (length s < fuel)%nat ->
  Q ((fun i => (p + i)%nat) <$> first_occurrence s t) m -> wp (strstr_loop fuel p q (Z.of_nat (length t))) m Q.
Proof.
  induction s as [|x s IH]; intros [|fuel] p q m Q Hs Ht Hf HQ; cbn [length] in *; try lia; cbn [strstr_loop];
    step; (eapply wp_load; [by eapply cstr_hd|]); cbn [hd].
  { rewrite decide_False by tauto. by step. }
  pose proof (cstr_cons _ _ _ _ Hs) as (_ & Hx & _ & Hs'). rewrite decide_True by done. step.
  unfold strncmp. rewrite Nat2Z.id. apply (strncmp_loop_ok _ (x :: s) t); [done..|].
  rewrite (take_ge t) by lia. cbn [first_occurrence] in HQ.
  match goal with |- context [if decide (?r = 0) then _ else _] =>
    assert (r = 0 <-> t `prefix_of` x :: s) as Er end.
  { rewrite prefix_iff_take, <- lex_zero_eq. destruct (decide (prefixes _ _)); lia. }
  destruct (decide (t `prefix_of` x :: s)) as [Hp|Hp].
  - rewrite decide_True by tauto. step. cbn in HQ. by rewrite Nat.add_0_r in HQ.
  - rewrite decide_False by tauto. apply IH; [done..|lia|].
    replace ((λ i, (p + 1 + i)%nat) <$> first_occurrence s t) with ((λ i, (p + i)%nat) <$> (Datatypes.S <$> first_occurrence s t)); [done|].
    destruct (first_occurrence s t); cbn; [f_equal; lia|done].
Qed.

(** [strstr] finds the first occurrence of the second string in the first; the
    search stops at the end of the first string, where the empty string is not
    found. *)
Lemma strstr_first p q s t m :
  cstr m p s -> cstr m q t -> Z.of_nat (length m) < 2 ^ 31 ->
  strstr p q m = Ret ((fun i => (p + i)%nat) <$> first_occurrence s t, m).
Proof.
  intros Hs Ht Hm. pose proof (cstr_length _ _ _ Hs). pose proof (cstr_length _ _ _ Ht).
  assert (wp (strstr p q) m (fun r m' => m' = m /\ r = (fun i => (p + i)%nat) <$> first_occurrence s t)) as H1.
  { unfold strstr. step. apply (strlen_ok _ _ t); [done|unfold two64; lia|].
    rewrite i32_small, u64_small by (unfold two64; lia). apply wp_scan. apply (strstr_loop_ok t s); [done..|lia|done]. }
  by apply wp_Ret in H1 as (r & m' & -> & -> & ->).
Qed.

Lemma strstr_first_witness :
  strstr 0 1 wit_strings = Ret (Some 1%nat, wit_strings) /\
  strstr 2 2 wit_strings = Ret (None, wit_strings).
Proof.
  assert (cstr wit_strings 2 []) as H2 by (split; [|done]; intros [|[|i]] x Hi; [exact Hi|done..]).
  assert (cstr wit_strings 1 [98]) as H1 by (split; [|repeat constructor; unfold byte_val; lia];
    intros i x Hi; do 2 (destruct i as [|i]; [exact Hi|]); done).
  split.
  - apply (strstr_first 0 1 [97; 98] [98] wit_strings); [apply wit_cstr|done|done].
  - apply (strstr_first 2 2 [] [] wit_strings); done.
Defined.

(** * Parsing decimal numbers *)

Definition decimal_value (total : Z) (ds : list Z) : Z := fold_left (fun a d => a * 10 + d) ds total.

Lemma decimal_value_ge ds : forall a, Forall (fun d => 0 <= d <= 9) ds -> 0 <= a -> a <= decimal_value a ds.
Proof.
  induction ds as [|d ds IH]; intros a F Ha; [done|]. apply Forall_cons in F as [Hd F].
  cbn. specialize (IH (a * 10 + d) F ltac:(lia)). unfold decimal_value in IH. lia.
Qed.

Lemma signed_in {S} bits x (s : S) : - 2 ^ (bits - 1) <= x < 2 ^ (bits - 1) -> signed bits x s = Ret (x, s).
Proof. intros H. unfold signed. by rewrite decide_True. Qed.

Lemma signed_out {S} bits x (s : S) : 2 ^ (bits - 1) <= x -> signed bits x s = Undef.
Proof. intros H. unfold signed. rewrite decide_False by lia. done. Qed.

Lemma load_Ret m a x : m !! a = Some x -> load a m = Ret (x, m).
Proof. intros H. unfold load, mbind, M_bind, get, read_nth. by rewrite H. Qed.

Lemma schar_small x : x < 128 -> schar x = x.
Proof. intros H. unfold schar. by rewrite decide_True. Qed.

(** The loop at digits and the end of the string gives their value, or overflows. *)
Lemma decimal_loop_ok bits ds : forall fuel p total m, 0 < bits ->
  at_ m p (((fun d => 48 + d) <$> ds) ++ [0]) -> Forall (fun d => 0 <= d <= 9) ds ->
  (length ds < fuel)%nat -> 0 <= total < 2 ^ (bits - 1) ->
  decimal_loop bits fuel p total m =
    if decide (decimal_value total ds < 2 ^ (bits - 1)) then Ret (decimal_value total ds, m) else Undef.
Proof.
  induction ds as [|d ds IH]; intros [|fuel] p total m Hbits Hat F Hf Ht; cbn [length] in *; try lia; cbn [decimal_loop];
    cbn in Hat; apply at_cons in Hat as [H1 Hat]; erewrite mbind_Ret by (by apply load_Ret).
  - unfold isdigit. rewrite schar_small by lia. erewrite mbind_Ret by (by apply ctype_mask_val).
    rewrite decide_False by (rewrite isdigit_val; lia). by rewrite decide_True by (cbn; lia).
  - apply Forall_cons in F as [Hd F]. rewrite schar_small by lia. unfold isdigit.
    erewrite mbind_Ret by (apply ctype_mask_val; lia). rewrite decide_True by (rewrite isdigit_val; lia).
    pose proof (decimal_value_ge ds (total * 10 + d) F ltac:(lia)) as Hge.
    change (decimal_value total (d :: ds)) with (decimal_value (total * 10 + d) ds).
    destruct (decide (total * 10 + d < 2 ^ (bits - 1))) as [Hlt|Hov].
    + erewrite mbind_Ret by (apply signed_in; lia). erewrite mbind_Ret by (apply signed_in; lia).
      replace (total * 10 + (48 + d - 48)) with (total * 10 + d) by lia. apply IH; [done..|lia|lia].
    + rewrite decide_False by lia. destruct (decide (total * 10 < 2 ^ (bits - 1))) as [Hlt|Hov'].
      * erewrite mbind_Ret by (apply signed_in; lia). apply mbind_Undef, signed_out. lia.
      * apply mbind_Undef, signed_out. lia.
Qed.

Lemma skip_blanks_ok bs x : forall fuel p m, Forall (fun b => 9 <= b <= 13 \/ b = 32) bs ->
  ~ (9 <= x <= 13 \/ x = 32) -> 0 <= x < 128 -> at_ m p (bs ++ [x]) -> (length bs < fuel)%nat ->
  skip_blanks fuel p m = Ret ((p + length bs)%nat, m).
Proof.
  induction bs as [|b bs IH]; intros [|fuel] p m F Hx Hr Hat Hf; cbn [length] in *; try lia; cbn [skip_blanks];
    cbn [app] in Hat; apply at_cons in Hat as [H1 Hat]; erewrite mbind_Ret by (by apply load_Ret); unfold isspace.
  - rewrite schar_small by lia. erewrite mbind_Ret by (apply ctype_mask_val; lia).
    rewrite decide_False by (rewrite isspace_val; lia). by rewrite Nat.add_0_r.
  - apply Forall_cons in F as [Hb F]. rewrite schar_small by lia. erewrite mbind_Ret by (apply ctype_mask_val; lia).
    rewrite decide_True by (rewrite isspace_val; lia). rewrite IH by (done || lia). do 2 f_equal. lia.
Qed.

(** The text of a number: blanks, an optional sign, digits. *)
Definition sign_text (minus : option bool) : list Z :=
  match minus with None => [] | Some true => [45] | Some false => [43] end.

(** [atoi] reads blanks, an optional sign and decimal digits as the number they
    denote when its absolute value is below 2^31, and overflows an [int], which is
    undefined, otherwise: also for the text of the smallest [int], -2147483648. *)
Lemma atoi_value p blanks sign ds m :
  Forall (fun b => 9 <= b <= 13 \/ b = 32) blanks -> Forall (fun d => 0 <= d <= 9) ds ->
  at_ m p (blanks ++ sign_text sign ++ ((fun d => 48 + d) <$> ds) ++ [0]) ->
  atoi p m = if decide (decimal_value 0 ds < 2 ^ 31)
             then Ret (if decide (sign = Some true) then - decimal_value 0 ds else decimal_value 0 ds, m)
             else Undef.
Proof.
  intros Fb Fd Hat. pose proof Hat as Hat0. apply at_app in Hat as [Hbl Hat]. pose proof Hat as Hat1. apply at_app in Hat as [Hsg Hat].
  assert (forall q, at_ m q (((fun d => 48 + d) <$> ds) ++ [0]) -> (q + length ds < length m)%nat) as Hlen.
  { intros q H. eapply lookup_lt_Some, H. by rewrite lookup_app_r, length_fmap, Nat.sub_diag by (by rewrite length_fmap). }
  pose proof (Hlen _ Hat) as Hl. pose proof (decimal_value_ge ds 0 Fd ltac:(lia)) as Hv.
  (* the character after the blanks *)
  assert (exists x, m !! (p + length blanks)%nat = Some x /\ 0 <= x < 128 /\ ~ (9 <= x <= 13 \/ x = 32) /\
    (sign = None -> x <> 45 /\ x <> 43) /\ (sign = Some true -> x = 45) /\ (sign = Some false -> x = 43)) as (x & Hx & Hr & Hns & Hs).
  { destruct sign as [[|]|]; cbn [sign_text app] in *; [| |destruct ds as [|d ds]; cbn [fmap list_fmap app] in *];
      apply at_cons in Hat1 as [Hx _]; eexists; (split; [exact Hx|]).
    1, 2, 3: split_and!; try done; lia.
    apply Forall_cons in Fd as [Hd _]. split_and!; try done; lia. }
  unfold atoi, decimal.
  erewrite mbind_Ret; cycle 1.
  { unfold scan, mbind at 1, M_bind at 1, get. apply (skip_blanks_ok blanks x); try done; [|lia].
    apply at_app. split; [done|]. intros [|i] z Hz; [|done]. rewrite Nat.add_0_r. by injection Hz as <-. }
  erewrite mbind_Ret.
  2: { unfold parse_sign. erewrite mbind_Ret by (by apply load_Ret).
       instantiate (1 := m). instantiate (1 := (bool_decide (sign = Some true), (p + length blanks + length (sign_text sign))%nat)).
       destruct sign as [[|]|]; cbn [sign_text length];
         [rewrite (proj1 (proj2 Hs) eq_refl)|rewrite (proj2 (proj2 Hs) eq_refl)|destruct (proj1 Hs eq_refl); rewrite !(decide_False (P := x = _)) by done; rewrite Nat.add_0_r];
         done. }
  pose proof (decimal_loop_ok 32 ds (S (length m)) (p + length blanks + length (sign_text sign)) 0 m ltac:(lia) Hat Fd ltac:(lia) ltac:(lia)) as Hloop.
  change (2 ^ (32 - 1)) with (2 ^ 31) in Hloop. cbv beta iota. unfold scan.
  destruct (decide (decimal_value 0 ds < 2 ^ 31)) as [Hlt|Hov]; [|by apply mbind_Undef].
  erewrite mbind_Ret by exact Hloop.
  case_bool_decide as Hm; [rewrite decide_True by done|by rewrite decide_False by done].
  apply signed_in. change (2 ^ (32 - 1)) with (2 ^ 31). lia.
Qed.

Lemma atoi_value_witness :
  atoi 0 [32; 45; 52; 50; 0] = Ret (-42, [32; 45; 52; 50; 0]) /\
  atoi 0 ([45] ++ [50; 49; 52; 55; 52; 56; 51; 54; 52; 56] ++ [0]) = Undef.
Proof.
  split.
  - apply (atoi_value 0 [32] (Some true) [4; 2]); [repeat constructor; lia..|]. by intros i x.
  - apply (atoi_value 0 [] (Some true) [2; 1; 4; 7; 4; 8; 3; 6; 4; 8]); [repeat constructor; lia..|]. by intros i x.
Defined.
