(* ===== verification/HashMap.v ===== *)
(** src/src/lib/map.c and h/egos/map.h: maps as binary trees indexed by a hash of
    the key, whose nodes point at linked lists of the keys with that hash. The
    list nodes of all maps live in one heap and are recycled through a cache;
    [map_insert] returns a pointer into such a node. The tree nodes of a map are
    never shared, so the tree is a value. *)
From stdpp Require Import base numbers list gmap fin_sets fin_maps sorting.
From Stdlib Require Import ZArith Lia Permutation.
From coqutil Require Import Byte.
From S2P Require Import Prelude.

Abbreviation ptr := (option positive).
Abbreviation key := (list Init.Byte.byte).

#[export] Instance byte_eq_decision : EqDecision Init.Byte.byte.
Proof. intros x y. destruct (Byte.byte_eq_dec x y); [by left|by right]. Defined.

#[export] Instance byte_countable : Countable Init.Byte.byte.
Proof.
  apply (inj_countable Stdlib.Strings.Byte.to_N Stdlib.Strings.Byte.of_N). apply Stdlib.Strings.Byte.of_to_N.
Defined.

Definition MAX_CACHE : Z := 5000.

(** [struct bin_list_node]; [key_size] is the length of the key. *)
Record bin_list_node := BinListNode { bln_next : ptr; bln_key : key; bln_data : Z }.

(** [struct map *]. *)
Inductive map : Type :=
| MNull
| MNode (child0 : map) (hash : Z) (list : ptr) (child1 : map).

(** The heap of list nodes, [bln_cache] and [bln_csize]. *)
Record heap := Heap { hp_nodes : gmap positive bin_list_node; hp_cache : ptr; hp_csize : Z }.

(** ** Memory *)

Definition n_get (a : positive) : M heap bin_list_node :=
  s ← get; match hp_nodes s !! a with Some x => mret x | None => undef end.

Definition n_set (a : positive) (x : bin_list_node) : M heap unit :=
  modify (fun s => Heap (<[a:=x]> (hp_nodes s)) (hp_cache s) (hp_csize s)).

(** [calloc]; running out of memory is not modelled. *)
Definition n_calloc : M heap positive :=
  s ← get;
  let a := fresh (dom (hp_nodes s) : gset positive) in
  n_set a (BinListNode None [] 0);; mret a.

Definition n_free (a : positive) : M heap unit :=
  x ← n_get a; modify (fun s => Heap (delete a (hp_nodes s)) (hp_cache s) (hp_csize s)).

Definition set_cache (p : ptr) (n : Z) : M heap unit :=
  modify (fun s => Heap (hp_nodes s) p (u32 n)).

(** ** The code *)

Definition sdbm_hash (k : key) : Z :=
  fold_left (fun h p => u32 (byte.unsigned p + u32 (Z.shiftl h 6) + u32 (Z.shiftl h 16) - h)) k 0.

(** [bln->key_size == key_size && memcmp(bln->key, key, key_size) == 0]. *)
Definition key_matches (bln : bin_list_node) (k : key) : bool :=
  bool_decide (length (bln_key bln) = length k) && bool_decide (take (length k) (bln_key bln) = k).

(** The walk along a list; there are no more nodes on it than in the heap. *)
Fixpoint find_node (fuel : nat) (p : ptr) (k : key) : M heap ptr :=
  match p with
  | None => mret None
  | Some a =>
      bln ← n_get a;
      if key_matches bln k then mret (Some a) else
      match fuel with O => out_of_fuel | S fuel => find_node fuel (bln_next bln) k end
  end.

Definition list_find_node (p : ptr) (k : key) : M heap ptr :=
  s ← get; find_node (size (hp_nodes s)) p k.

Definition map_list_lookup (bln : ptr) (k : key) : M heap Z :=
  o ← list_find_node bln k;
  match o with Some a => x ← n_get a; mret (bln_data x) | None => mret 0 end.

Fixpoint map_lookup (m : map) (k : key) : M heap Z :=
  let h := sdbm_hash k in
  match m with
  | MNull => mret 0
  | MNode child0 hash list child1 =>
      if decide (hash = h) then map_list_lookup list k
      else if decide (h > hash) then map_lookup child1 k else map_lookup child0 k
  end.

Definition bln_release (a : positive) : M heap unit :=
  s ← get;
  if decide (hp_csize s >= MAX_CACHE) then
    assert_ (bool_decide (hp_csize s = MAX_CACHE));; n_free a
  else
    x ← n_get a;
    n_set a (BinListNode (hp_cache s) (bln_key x) (bln_data x));;
    set_cache (Some a) (hp_csize s + 1).

(** Returns the node whose data field the result points at, and the new head. *)
Definition map_list_insert (head : ptr) (k : key) : M heap (positive * ptr) :=
  o ← list_find_node head k;
  match o with
  | Some a => mret (a, head)
  | None =>
      s ← get;
      a ← match hp_cache s with
          | None => assert_ (bool_decide (hp_csize s = 0));; n_calloc
          | Some a =>
              assert_ (bool_decide (hp_csize s > 0));;
              x ← n_get a;
              set_cache (bln_next x) (hp_csize s - 1);;
              n_set a (BinListNode (bln_next x) (bln_key x) 0);;
              mret a
          end;
      x ← n_get a;
      n_set a (BinListNode head k (bln_data x));;
      mret (a, Some a)
  end.

Fixpoint map_insert (m : map) (k : key) : M heap (positive * map) :=
  let h := sdbm_hash k in
  match m with
  | MNull =>
      r ← map_list_insert None k; mret (r.1, MNode MNull h r.2 MNull)
  | MNode child0 hash list child1 =>
      if decide (hash = h) then
        r ← map_list_insert list k; mret (r.1, MNode child0 hash r.2 child1)
      else if decide (h > hash) then
        r ← map_insert child1 k; mret (r.1, MNode child0 hash list r.2)
      else
        r ← map_insert child0 k; mret (r.1, MNode r.2 hash list child1)
  end.

Section iter.
Context {E : Type} (upcall : E -> key -> Z -> E).

Fixpoint list_iter (fuel : nat) (env : E) (p : ptr) : M heap E :=
  match p with
  | None => mret env
  | Some a =>
      bln ← n_get a;
      let env := upcall env (bln_key bln) (bln_data bln) in
      match fuel with O => out_of_fuel | S fuel => list_iter fuel env (bln_next bln) end
  end.

Definition map_list_iter (env : E) (list : ptr) : M heap E :=
  s ← get; list_iter (size (hp_nodes s)) env list.

Fixpoint map_iter (env : E) (m : map) : M heap E :=
  match m with
  | MNull => mret env
  | MNode child0 _ list child1 =>
      env ← map_iter env child0;
      env ← map_list_iter env list;
      map_iter env child1
  end.
End iter.

Definition map_init : map := MNull.

Fixpoint list_release (fuel : nat) (p : ptr) : M heap unit :=
  match p with
  | None => mret tt
  | Some a =>
      bln ← n_get a;
      bln_release a;;
      match fuel with O => out_of_fuel | S fuel => list_release fuel (bln_next bln) end
  end.

Definition map_list_release (p : ptr) : M heap unit :=
  s ← get; list_release (size (hp_nodes s)) p.

Fixpoint map_release (m : map) : M heap unit :=
  match m with
  | MNull => mret tt
  | MNode child0 _ list child1 =>
      map_release child0;; map_release child1;; map_list_release list
  end.

Fixpoint cleanup_loop (fuel : nat) : M heap unit :=
  s ← get;
  match hp_cache s with
  | None => mret tt
  | Some a =>
      assert_ (bool_decide (hp_csize s > 0));;
      x ← n_get a;
      set_cache (bln_next x) (hp_csize s - 1);;
      n_free a;;
      match fuel with O => out_of_fuel | S fuel => cleanup_loop fuel end
  end.

Definition map_cleanup : M heap unit :=
  s ← get;
  cleanup_loop (size (hp_nodes s));;
  s ← get;
  assert_ (bool_decide (hp_csize s = 0)).

(** [*map_insert(&m, key) = v]: the caller reads the old value and stores a new
    one through the pointer. *)
Definition map_put (m : map) (k : key) (v : Z) : M heap (Z * map) :=
  r ← map_insert m k;
  x ← n_get r.1;
  n_set r.1 (BinListNode (bln_next x) (bln_key x) v);;
  mret (bln_data x, r.2).

(** * Representation *)

(** An entry: its node, its key and its data. *)
Abbreviation entry := (positive * (key * Z))%type.

Definition addrs (T : list entry) : list positive := T.*1.
Definition keys (T : list entry) : list key := T.*2.*1.

Fixpoint chain (h : gmap positive bin_list_node) (p : ptr) (T : list entry) : Prop :=
  match T with
  | [] => p = None
  | (a, (k, d)) :: T => p = Some a /\ exists n, h !! a = Some (BinListNode n k d) /\ chain h n T
  end.

Definition hash_of (e : entry) : Z := sdbm_hash e.2.1.

Fixpoint map_at (h : gmap positive bin_list_node) (m : map) (T : list entry) : Prop :=
  match m with
  | MNull => T = []
  | MNode child0 hash list child1 => exists T0 Tl T1,
      T = T0 ++ Tl ++ T1 /\ map_at h child0 T0 /\ chain h list Tl /\ map_at h child1 T1 /\
      Forall (fun e => hash_of e < hash) T0 /\ Forall (fun e => hash_of e = hash) Tl /\ NoDup (keys Tl) /\
      Forall (fun e => hash < hash_of e) T1
  end.

(** The nodes in the cache. *)
Fixpoint cache_at (h : gmap positive bin_list_node) (p : ptr) (C : list positive) : Prop :=
  match C with
  | [] => p = None
  | a :: C => p = Some a /\ exists x, h !! a = Some x /\ cache_at h (bln_next x) C
  end.

Record heap_ok (C : list positive) (s : heap) : Prop := {
  ho_cache : cache_at (hp_nodes s) (hp_cache s) C;
  ho_size : hp_csize s = Z.of_nat (length C);
  ho_max : Z.of_nat (length C) <= MAX_CACHE;
  ho_nodup : NoDup C;
}.

Lemma addrs_app T1 T2 : addrs (T1 ++ T2) = addrs T1 ++ addrs T2.
Proof. apply fmap_app. Qed.

Lemma keys_app T1 T2 : keys (T1 ++ T2) = keys T1 ++ keys T2.
Proof. unfold keys. by rewrite !fmap_app. Qed.

Lemma nodes_chain_frame h h' T : forall p,
  chain h p T -> (forall a, a ∈ addrs T -> h' !! a = h !! a) -> chain h' p T.
Proof.
  induction T as [|[a [k d]] T IH]; intros p; cbn [chain]; [done|].
  intros (-> & n & Hn & Hc) Hf. split; [done|]. exists n. split; [rewrite Hf; [done|by left]|].
  apply IH; [done|]. intros b Hb. apply Hf. by right.
Qed.

Lemma cache_frame h h' C : forall p,
  cache_at h p C -> (forall a, a ∈ C -> h' !! a = h !! a) -> cache_at h' p C.
Proof.
  induction C as [|a C IH]; intros p; cbn [cache_at]; [done|].
  intros (-> & x & Hx & Hc) Hf. split; [done|]. exists x. split; [rewrite Hf; [done|by left]|].
  apply IH; [done|]. intros b Hb. apply Hf. by right.
Qed.

Lemma map_at_frame h h' m : forall T,
  map_at h m T -> (forall a, a ∈ addrs T -> h' !! a = h !! a) -> map_at h' m T.
Proof.
  induction m as [|c0 IH0 hash l c1 IH1]; intros T; cbn [map_at]; [done|].
  intros (T0 & Tl & T1 & -> & H0 & Hl & H1 & Hrest) Hf. exists T0, Tl, T1.
  rewrite !addrs_app in Hf. setoid_rewrite elem_of_app in Hf. setoid_rewrite elem_of_app in Hf.
  split; [done|]. split; [apply IH0; auto|]. split; [apply (nodes_chain_frame h); auto|]. split; [apply IH1; auto|done].
Qed.

Lemma chain_dom h T : forall p, chain h p T -> forall a, a ∈ addrs T -> is_Some (h !! a).
Proof.
  induction T as [|[b [k d]] T IH]; intros p; cbn [chain]; [intros _ a Ha; by apply elem_of_nil in Ha|].
  intros (-> & n & Hn & Hc) a [->|Ha]%elem_of_cons; [by eauto|by eapply IH].
Qed.

Lemma cache_dom h C : forall p, cache_at h p C -> forall a, a ∈ C -> is_Some (h !! a).
Proof.
  induction C as [|b C IH]; intros p; cbn [cache_at]; [intros _ a Ha; by apply elem_of_nil in Ha|].
  intros (-> & x & Hx & Hc) a [->|Ha]%elem_of_cons; [by eauto|by eapply IH].
Qed.

Lemma map_at_dom h m : forall T, map_at h m T -> forall a, a ∈ addrs T -> is_Some (h !! a).
Proof.
  induction m as [|c0 IH0 hash l c1 IH1]; intros T; cbn [map_at]; [intros ->; intros a Ha; by apply elem_of_nil in Ha|].
  intros (T0 & Tl & T1 & -> & H0 & Hl & H1 & _) a. rewrite !addrs_app, !elem_of_app.
  intros [Ha|[Ha|Ha]]; [by eapply IH0|by eapply chain_dom|by eapply IH1].
Qed.

Lemma dom_length {A} (h : gmap positive A) (l : list positive) :
  NoDup l -> (forall a, a ∈ l -> is_Some (h !! a)) -> (length l <= size h)%nat.
Proof.
  intros Hnd Hd. rewrite <- (size_list_to_set (C := gset positive) l Hnd), <- size_dom.
  apply subseteq_size. intros a Ha%elem_of_list_to_set. by apply elem_of_dom, Hd.
Qed.

(** ** The entries of a map *)

Lemma hash_in_keys T k : k ∈ keys T -> exists e, e ∈ T /\ hash_of e = sdbm_hash k.
Proof.
  unfold keys. intros (kd & -> & Hkd)%list_elem_of_fmap. apply list_elem_of_fmap in Hkd as (e & -> & He). by exists e.
Qed.

Lemma not_in_side (P : Z -> Prop) T k : Forall (fun e => P (hash_of e)) T -> ~ P (sdbm_hash k) -> k ∉ keys T.
Proof.
  intros HF HP Hk. destruct (hash_in_keys T k Hk) as (e & He & E). rewrite Forall_forall in HF.
  apply HP. rewrite <- E. by apply HF.
Qed.

Lemma map_at_keys h m : forall T, map_at h m T -> NoDup (keys T).
Proof.
  induction m as [|c0 IH0 hash l c1 IH1]; intros T; cbn [map_at]; [intros ->; apply NoDup_nil_2|].
  intros (T0 & Tl & T1 & -> & H0 & Hl & H1 & F0 & Fl & Hnd & F1). rewrite !keys_app.
  apply NoDup_app. split; [by apply IH0|]. split.
  - intros k (e & He & E)%hash_in_keys. rewrite elem_of_app. rewrite Forall_forall in F0. specialize (F0 e He).
    intros [Hk|Hk]; revert Hk; [apply (not_in_side (fun z => z = hash)); [done|lia]|
      apply (not_in_side (fun z => hash < z)); [done|lia]].
  - apply NoDup_app. split; [done|]. split; [|by apply IH1].
    intros k (e & He & E)%hash_in_keys. rewrite Forall_forall in Fl. specialize (Fl e He).
    apply (not_in_side (fun z => hash < z)); [done|lia].
Qed.

(** The finite map that a list of entries stands for. *)
Definition contents (T : list entry) : gmap key Z := list_to_map T.*2.

Lemma contents_in T a k d : NoDup (keys T) -> (a, (k, d)) ∈ T -> contents T !! k = Some d.
Proof.
  intros Hnd Hin. apply elem_of_list_to_map_1; [exact Hnd|]. apply list_elem_of_fmap. by exists (a, (k, d)).
Qed.

Lemma contents_notin T k : k ∉ keys T -> contents T !! k = None.
Proof. intros H. by apply not_elem_of_list_to_map_1. Qed.

Lemma contents_app_r T1 T2 k : k ∉ keys T1 -> contents (T1 ++ T2) !! k = contents T2 !! k.
Proof.
  intros H. unfold contents. rewrite fmap_app, list_to_map_app. apply lookup_union_r. by apply contents_notin.
Qed.

Lemma contents_app_l T1 T2 k : k ∉ keys T2 -> contents (T1 ++ T2) !! k = contents T1 !! k.
Proof.
  intros H. unfold contents. rewrite fmap_app, list_to_map_app. apply lookup_union_l.
  by apply contents_notin.
Qed.

Lemma contents_perm T T' : NoDup (keys T) -> T ≡ₚ T' -> contents T = contents T'.
Proof. intros Hnd HP. apply list_to_map_proper; [exact Hnd|]. by rewrite HP. Qed.

(** * The operations on lists *)

Lemma wp_n_get a x s Q : hp_nodes s !! a = Some x -> Q x s -> wp (n_get a) s Q.
Proof. intros H HQ. unfold n_get. steps. by rewrite H. Qed.

Ltac n_steps :=
  repeat (cbn beta; first
    [ step
    | eapply wp_n_get; [first [eassumption|cbn [hp_nodes]; apply lookup_insert_eq]|]
    | eapply wp_assert; [solve [apply bool_decide_eq_true_2; cbn [hp_csize]; lia]|]
    | progress unfold n_set, set_cache ]);
  cbn [hp_nodes hp_cache hp_csize bln_next bln_key bln_data fst snd].

Lemma key_matches_iff n k' d k : key_matches (BinListNode n k' d) k = true <-> k' = k.
Proof.
  unfold key_matches. cbn [bln_key]. rewrite andb_true_iff, !bool_decide_eq_true. split; [|intros ->].
  - intros [Hl <-]. rewrite <- Hl. by rewrite firstn_all.
  - split; [done|]. by rewrite firstn_all.
Qed.

Lemma find_node_ok s k T : forall fuel p, chain (hp_nodes s) p T -> (length T <= fuel)%nat ->
  wp (find_node fuel p k) s (fun o s' => s' = s /\
    match o with Some a => exists d, (a, (k, d)) ∈ T | None => k ∉ keys T end).
Proof.
  induction T as [|[a [k' d]] T IH]; intros fuel p; cbn [chain].
  - intros -> _. destruct fuel; cbn [find_node]; n_steps; (split; [done|apply not_elem_of_nil]).
  - intros (-> & n & Hn & Hc) Hf. cbn [length] in Hf. destruct fuel as [|fuel]; [lia|]. cbn [find_node]. n_steps.
    destruct (key_matches _ k) eqn:E.
    + apply key_matches_iff in E as ->. n_steps. split; [done|]. exists d. by left.
    + wp_use (IH fuel n Hc) as [-> Ho]; [lia|]. split; [done|]. destruct a0 as [b|].
      * destruct Ho as [d' Hd']. exists d'. by right.
      * intros [Ek|Hk]%elem_of_cons; [|done]. cbn in Ek. by rewrite (proj2 (key_matches_iff n k' d k)) in E.
Qed.

(** All the entries of a list are in the heap, so the fuel suffices. *)
Lemma chain_fits s p T : chain (hp_nodes s) p T -> NoDup (addrs T) -> (length T <= size (hp_nodes s))%nat.
Proof.
  intros Hc Hnd. unfold addrs in Hnd. rewrite <- (length_fmap fst T). apply dom_length; [done|].
  by apply (chain_dom _ _ _ Hc).
Qed.

Lemma list_find_node_ok s k T p : chain (hp_nodes s) p T -> NoDup (addrs T) ->
  wp (list_find_node p k) s (fun o s' => s' = s /\
    match o with Some a => exists d, (a, (k, d)) ∈ T | None => k ∉ keys T end).
Proof. intros Hc Hnd. unfold list_find_node. n_steps. apply find_node_ok; [done|by eapply chain_fits]. Qed.

Lemma chain_entry h T : forall p a k d, chain h p T -> (a, (k, d)) ∈ T -> exists n, h !! a = Some (BinListNode n k d).
Proof.
  induction T as [|[b [k' d']] T IH]; intros p a k d; cbn [chain]; [by intros _ ?%elem_of_nil|].
  intros (-> & n & Hn & Hc) [[= -> -> ->]|Hin]%elem_of_cons; [by exists n|by eapply IH].
Qed.

Lemma map_at_entry h m : forall T a k d, map_at h m T -> (a, (k, d)) ∈ T -> exists n, h !! a = Some (BinListNode n k d).
Proof.
  induction m as [|c0 IH0 hash l c1 IH1]; intros T a k d; cbn [map_at]; [by intros -> ?%elem_of_nil|].
  intros (T0 & Tl & T1 & -> & H0 & Hl & H1 & _). rewrite !elem_of_app.
  intros [Hin|[Hin|Hin]]; [by eapply IH0|by eapply chain_entry|by eapply IH1].
Qed.

(** ** Lookup *)

Lemma map_lookup_ok s k m : forall T, map_at (hp_nodes s) m T -> NoDup (addrs T) ->
  wp (map_lookup m k) s (fun r s' => s' = s /\ r = default 0 (contents T !! k)).
Proof.
  induction m as [|c0 IH0 hash l c1 IH1]; intros T Hm Hnd; cbn [map_lookup].
  { cbn in Hm. subst T. n_steps. done. }
  pose proof (map_at_keys _ _ _ Hm) as Hkeys. cbn [map_at] in Hm.
  destruct Hm as (T0 & Tl & T1 & -> & H0 & Hl & H1 & F0 & Fl & _ & F1).
  rewrite !addrs_app in Hnd. apply NoDup_app in Hnd as (Hnd0 & _ & (Hndl & _ & Hnd1)%NoDup_app).
  destruct (decide (hash = sdbm_hash k)) as [->|Hne].
  - unfold map_list_lookup. step. wp_use (list_find_node_ok s k Tl l Hl Hndl) as [-> Ho]. destruct a as [a|].
    + destruct Ho as [d Hin]. destruct (chain_entry _ _ _ _ _ _ Hl Hin) as [n Hn]. n_steps. split; [done|].
      rewrite (contents_in _ a k d); [done|done|]. rewrite !elem_of_app. auto.
    + n_steps. split; [done|]. rewrite contents_notin; [done|]. rewrite !keys_app, !elem_of_app.
      intros [Hk|[Hk|Hk]]; revert Hk; [apply (not_in_side (fun z => z < sdbm_hash k)); [done|lia]|done|
        apply (not_in_side (fun z => sdbm_hash k < z)); [done|lia]].
  - destruct (decide (sdbm_hash k > hash)) as [Hgt|Hle].
    + wp_use (IH1 T1 H1 Hnd1) as [-> ->]. split; [done|]. rewrite !contents_app_r; [done|..];
        [apply (not_in_side (fun z => z = hash)); [done|lia]|apply (not_in_side (fun z => z < hash)); [done|lia]].
    + wp_use (IH0 T0 H0 Hnd0) as [-> ->]. split; [done|]. rewrite contents_app_l; [done|].
      rewrite keys_app, elem_of_app. intros [Hk|Hk]; revert Hk;
        [apply (not_in_side (fun z => z = hash)); [done|lia]|apply (not_in_side (fun z => hash < z)); [done|lia]].
Qed.

(** ** Iteration *)

Section iter_ok.
Context {E : Type} (upcall : E -> key -> Z -> E).

Definition visit (env : E) (T : list entry) : E := fold_left (fun env e => upcall env e.2.1 e.2.2) T env.

Lemma list_iter_ok s T : forall fuel env p, chain (hp_nodes s) p T -> (length T <= fuel)%nat ->
  wp (list_iter upcall fuel env p) s (fun r s' => s' = s /\ r = visit env T).
Proof.
  induction T as [|[a [k d]] T IH]; intros fuel env p; cbn [chain].
  - intros -> _. destruct fuel; cbn [list_iter]; by n_steps.
  - intros (-> & n & Hn & Hc) Hf. cbn [length] in Hf. destruct fuel as [|fuel]; [lia|]. cbn [list_iter]. n_steps.
    apply IH; [done|lia].
Qed.

Lemma map_iter_ok s m : forall T env, map_at (hp_nodes s) m T -> NoDup (addrs T) ->
  wp (map_iter upcall env m) s (fun r s' => s' = s /\ r = visit env T).
Proof.
  induction m as [|c0 IH0 hash l c1 IH1]; intros T env Hm Hnd; cbn [map_iter map_at] in *.
  { subst T. by n_steps. }
  destruct Hm as (T0 & Tl & T1 & -> & H0 & Hl & H1 & _).
  rewrite !addrs_app in Hnd. apply NoDup_app in Hnd as (Hnd0 & _ & (Hndl & _ & Hnd1)%NoDup_app).
  step. wp_use (IH0 T0 env H0 Hnd0) as [-> ->]. step. unfold map_list_iter. n_steps.
  wp_use (list_iter_ok s Tl _ (visit env T0) l Hl) as [-> ->]; [by eapply chain_fits|].
  wp_use (IH1 T1 _ H1 Hnd1) as [-> ->]. split; [done|]. unfold visit. by rewrite !fold_left_app.
Qed.
End iter_ok.

(** ** Insertion *)

(** What inserting [k] does to the entries [T] of a list or tree: [a] is the
    entry's node, taken from the cache or the heap if the key is new. *)
Record inserted (k : key) (C : list positive) (s : heap) (T : list entry)
    (a : positive) (C' : list positive) (s' : heap) (T' : list entry) : Prop := {
  in_heap : heap_ok C' s';
  in_sub : forall b, b ∈ C' -> b ∈ C;
  in_frame : forall b, is_Some (hp_nodes s !! b) -> b ∉ C -> hp_nodes s' !! b = hp_nodes s !! b;
  in_case : (exists d, (a, (k, d)) ∈ T /\ T' = T /\ C' = C) \/
    (k ∉ keys T) /\ T' ≡ₚ (a, (k, 0)) :: T /\ (a ∈ C \/ hp_nodes s !! a = None) /\ (a ∉ C');
}.

Lemma node_fresh (h : gmap positive bin_list_node) : h !! fresh (dom h : gset positive) = None.
Proof. apply not_elem_of_dom, is_fresh. Qed.

Definition off_cache (C : list positive) (T : list entry) : Prop := forall a, a ∈ addrs T -> a ∉ C.

Lemma off_cache_app C T1 T2 : off_cache C (T1 ++ T2) <-> off_cache C T1 /\ off_cache C T2.
Proof.
  unfold off_cache. rewrite addrs_app. split.
  - intros H. split; intros a Ha; apply H, elem_of_app; auto.
  - intros [H1 H2] a [Ha|Ha]%elem_of_app; auto.
Qed.

Lemma map_list_insert_ok k C s head T :
  heap_ok C s -> chain (hp_nodes s) head T -> NoDup (addrs T) -> off_cache C T ->
  wp (map_list_insert head k) s (fun r s' => exists C' T',
    chain (hp_nodes s') r.2 T' /\ inserted k C s T r.1 C' s' T').
Proof.
  intros Hh Hc Hnd Hoff. pose proof Hh as [Hca Hsz Hmax HndC]. unfold map_list_insert. step.
  wp_use (list_find_node_ok s k T head Hc Hnd) as [-> Ho]. destruct a as [a|].
  { n_steps. exists C, T. split; [done|]. split; [done|auto|done|]. left. destruct Ho as [d Hd]. by exists d. }
  n_steps. destruct C as [|a C]; cbn [cache_at] in Hca.
  - rewrite Hca. cbn [length] in Hsz. unfold n_calloc. n_steps.
    set (a := fresh (dom (hp_nodes s) : gset positive)).
    assert (hp_nodes s !! a = None) as Hfr by apply node_fresh. rewrite insert_insert_eq.
    assert (forall b, is_Some (hp_nodes s !! b) -> <[a:=BinListNode head k 0]> (hp_nodes s) !! b = hp_nodes s !! b) as Hf.
    { intros b Hb. apply lookup_insert_ne. intros <-. rewrite Hfr in Hb. by destruct Hb. }
    exists [], ((a, (k, 0)) :: T). split.
    + split; [done|]. exists head. rewrite lookup_insert_eq. split; [done|].
      apply (nodes_chain_frame _ _ _ _ Hc). intros b Hb. apply Hf. by eapply chain_dom.
    + split; [|by intros b ?%elem_of_nil|by auto|].
      * split; cbn [hp_cache hp_csize length]; [done|done|done|apply NoDup_nil_2].
      * right. split; [done|]. split; [done|]. split; [by right|apply not_elem_of_nil].
  - destruct Hca as (-> & x & Hx & Hca). cbn [length] in Hsz, Hmax. n_steps.
    rewrite !insert_insert_eq. apply NoDup_cons in HndC as [HaC HndC].
    assert (forall b, b <> a -> <[a:=BinListNode head k 0]> (hp_nodes s) !! b = hp_nodes s !! b) as Hf
      by (intros b Hb; by rewrite lookup_insert_ne).
    exists C, ((a, (k, 0)) :: T). split.
    + split; [done|]. exists head. rewrite lookup_insert_eq. split; [done|].
      apply (nodes_chain_frame _ _ _ _ Hc). intros b Hb. apply Hf. intros ->. apply (Hoff _ Hb). by left.
    + split.
      * split; cbn [hp_nodes hp_cache hp_csize]; [|rewrite Hsz; unfold u32; rewrite Z.mod_small; unfold MAX_CACHE, two32 in *; lia|unfold MAX_CACHE in *; lia|done].
        apply (cache_frame _ _ _ _ Hca). intros b Hb. apply Hf. by intros ->.
      * intros b Hb. by right.
      * intros b _ Hb. apply Hf. intros ->. apply Hb. by left.
      * right. split; [done|]. split; [done|]. split; [left; by left|done].
Qed.

(** A list or tree beside one in which something is inserted stays as it is. *)
Lemma inserted_keeps k C s T a C' s' T' U :
  inserted k C s T a C' s' T' -> off_cache C U -> (forall b, b ∈ addrs U -> is_Some (hp_nodes s !! b)) ->
  forall b, b ∈ addrs U -> hp_nodes s' !! b = hp_nodes s !! b.
Proof. intros Hi Hoff Hd b Hb. apply (in_frame _ _ _ _ _ _ _ _ Hi); [by apply Hd|by apply Hoff]. Qed.

Lemma inserted_context k C s T a C' s' T' L R :
  inserted k C s T a C' s' T' -> (k ∉ keys L) -> (k ∉ keys R) ->
  inserted k C s (L ++ T ++ R) a C' s' (L ++ T' ++ R).
Proof.
  intros [H1 H2 H3 H4] HL HR. split; [done..|]. destruct H4 as [(d & Hd & -> & ->)|(Hk & HP & Ha)].
  - left. exists d. split; [|done]. rewrite !elem_of_app. auto.
  - right. split; [rewrite !keys_app, !elem_of_app; tauto|]. split; [|done].
    rewrite HP. cbn [app]. by rewrite <- Permutation_middle.
Qed.

Lemma inserted_Forall k C s T a C' s' T' (P : Z -> Prop) :
  inserted k C s T a C' s' T' -> P (sdbm_hash k) -> Forall (fun e => P (hash_of e)) T -> Forall (fun e => P (hash_of e)) T'.
Proof.
  intros [_ _ _ H4] HP HF. destruct H4 as [(d & Hd & -> & _)|(_ & -> & _)]; [done|]. by constructor.
Qed.

Lemma inserted_nodup k C s T a C' s' T' : inserted k C s T a C' s' T' -> NoDup (keys T) -> NoDup (keys T').
Proof.
  intros [_ _ _ H4] Hnd. destruct H4 as [(d & Hd & -> & _)|(Hk & HP & _)]; [done|]. unfold keys. rewrite HP.
  cbn. by constructor.
Qed.

Lemma map_insert_ok k C s m : forall T,
  heap_ok C s -> map_at (hp_nodes s) m T -> NoDup (addrs T) -> off_cache C T ->
  wp (map_insert m k) s (fun r s' => exists C' T',
    map_at (hp_nodes s') r.2 T' /\ inserted k C s T r.1 C' s' T').
Proof.
  induction m as [|c0 IH0 hash l c1 IH1]; intros T Hh Hm Hnd Hoff; cbn [map_insert map_at] in *.
  { subst T. step. wp_use (map_list_insert_ok k C s None [] Hh eq_refl) as (C' & T' & Hc & Hi); [done|done|]. step.
    exists C', T'. split; [|done]. cbn. exists [], T', []. rewrite app_nil_r. split_and!; try done.
    - apply (inserted_Forall _ _ _ _ _ _ _ _ (fun z => z = sdbm_hash k) Hi); [done|constructor].
    - eapply inserted_nodup; [exact Hi|apply NoDup_nil_2]. }
  destruct Hm as (T0 & Tl & T1 & -> & H0 & Hl & H1 & F0 & Fl & Hkl & F1).
  rewrite !addrs_app in Hnd. apply NoDup_app in Hnd as (Hnd0 & _ & (Hndl & _ & Hnd1)%NoDup_app).
  assert (off_cache C T0 /\ off_cache C Tl /\ off_cache C T1) as (O0 & Ol & O1)
    by (by rewrite !off_cache_app in Hoff).
  pose proof (map_at_dom _ _ _ H0) as D0. pose proof (chain_dom _ _ _ Hl) as Dl. pose proof (map_at_dom _ _ _ H1) as D1.
  assert (sdbm_hash k <> hash -> k ∉ keys Tl) as Nl by (intros E; by apply (not_in_side (fun z => z = hash))).
  assert (~ sdbm_hash k < hash -> k ∉ keys T0) as N0 by (intros E; by apply (not_in_side (fun z => z < hash))).
  assert (~ hash < sdbm_hash k -> k ∉ keys T1) as N1 by (intros E; by apply (not_in_side (fun z => hash < z))).
  destruct (decide (hash = sdbm_hash k)) as [Eh|Hne]; [|destruct (decide (sdbm_hash k > hash)) as [Hgt|Hle]]; step.
  - wp_use (map_list_insert_ok k C s l Tl Hh Hl Hndl Ol) as (C' & T' & Hc & Hi). step.
    exists C', (T0 ++ T' ++ T1). split; [|apply inserted_context; [done|apply N0; lia|apply N1; lia]].
    cbn [map_at]. exists T0, T', T1. split; [done|].
    split; [eapply map_at_frame; [exact H0|by eapply inserted_keeps]|]. split; [done|].
    split; [eapply map_at_frame; [exact H1|by eapply inserted_keeps]|]. split; [done|].
    split; [by apply (inserted_Forall _ _ _ _ _ _ _ _ (fun z => z = hash) Hi)|].
    split; [by eapply inserted_nodup|done].
  - wp_use (IH1 T1 Hh H1 Hnd1 O1) as (C' & T' & Hc & Hi). step. exists C', ((T0 ++ Tl) ++ T' ++ []).
    replace (T0 ++ Tl ++ T1) with ((T0 ++ Tl) ++ T1 ++ []) by (by rewrite app_nil_r, <- app_assoc).
    split; [|apply inserted_context; [done|rewrite keys_app, elem_of_app; intros [Hk|Hk]; revert Hk; [apply N0; lia|apply Nl; lia]|apply not_elem_of_nil]].
    cbn [map_at]. exists T0, Tl, T'. split; [by rewrite app_nil_r, <- app_assoc|].
    split; [eapply map_at_frame; [exact H0|by eapply inserted_keeps]|].
    split; [eapply nodes_chain_frame; [exact Hl|by eapply inserted_keeps]|]. split; [done|]. split; [done|].
    split; [done|]. split; [done|]. by apply (inserted_Forall _ _ _ _ _ _ _ _ (fun z => hash < z) Hi); [lia|].
  - wp_use (IH0 T0 Hh H0 Hnd0 O0) as (C' & T' & Hc & Hi). step. exists C', ([] ++ T' ++ (Tl ++ T1)).
    split; [|apply (inserted_context _ _ _ _ _ _ _ _ []); [done|apply not_elem_of_nil|rewrite keys_app, elem_of_app; intros [Hk|Hk]; revert Hk; [apply Nl; lia|apply N1; lia]]].
    cbn [map_at app]. exists T', Tl, T1. split; [done|]. split; [done|].
    split; [eapply nodes_chain_frame; [exact Hl|by eapply inserted_keeps]|].
    split; [eapply map_at_frame; [exact H1|by eapply inserted_keeps]|].
    split; [by apply (inserted_Forall _ _ _ _ _ _ _ _ (fun z => z < hash) Hi); [lia|]|]. done.
Qed.

(** ** Storing through the pointer *)

Definition set_entry (a : positive) (v : Z) (e : entry) : entry :=
  (e.1, (e.2.1, if decide (e.1 = a) then v else e.2.2)).

Lemma chain_set h n0 k0 d0 a v T : h !! a = Some (BinListNode n0 k0 d0) ->
  forall p, chain h p T -> chain (<[a:=BinListNode n0 k0 v]> h) p (set_entry a v <$> T).
Proof.
  intros Ha. induction T as [|[b [k d]] T IH]; intros p; cbn [chain fmap list_fmap]; [done|].
  intros (-> & n & Hn & Hc). unfold set_entry at 1. cbn [fst snd]. split; [done|]. exists n.
  split; [|by apply IH]. destruct (decide (b = a)) as [->|Hne].
  - rewrite lookup_insert_eq. congruence.
  - by rewrite lookup_insert_ne.
Qed.

Lemma Forall_set_entry (P : Z -> Prop) a v T :
  Forall (fun e => P (hash_of e)) T -> Forall (fun e => P (hash_of e)) (set_entry a v <$> T).
Proof. intros H. apply Forall_fmap. exact H. Qed.

Lemma keys_set_entry a v T : keys (set_entry a v <$> T) = keys T.
Proof. unfold keys. induction T as [|e T IH]; [done|]. cbn. by f_equal. Qed.

Lemma addrs_set_entry a v T : addrs (set_entry a v <$> T) = addrs T.
Proof. unfold addrs. induction T as [|e T IH]; [done|]. cbn. by f_equal. Qed.

Lemma map_at_set h n0 k0 d0 a v m : h !! a = Some (BinListNode n0 k0 d0) -> forall T,
  map_at h m T -> map_at (<[a:=BinListNode n0 k0 v]> h) m (set_entry a v <$> T).
Proof.
  intros Ha. induction m as [|c0 IH0 hash l c1 IH1]; intros T; cbn [map_at]; [by intros ->|].
  intros (T0 & Tl & T1 & -> & H0 & Hl & H1 & F0 & Fl & Hk & F1).
  exists (set_entry a v <$> T0), (set_entry a v <$> Tl), (set_entry a v <$> T1).
  rewrite !fmap_app, keys_set_entry. split_and!; try done.
  - by apply IH0.
  - by apply (chain_set h n0 k0 d0).
  - by apply IH1.
  - by apply (Forall_set_entry (fun z => z < hash)).
  - by apply (Forall_set_entry (fun z => z = hash)).
  - by apply (Forall_set_entry (fun z => hash < z)).
Qed.

Lemma set_entry_id a v T : a ∉ addrs T -> set_entry a v <$> T = T.
Proof.
  intros H. induction T as [|[b [k d]] T IH]; [done|]. apply not_elem_of_cons in H as [H1 H2].
  cbn. rewrite IH by done. unfold set_entry. cbn in *. by rewrite decide_False.
Qed.

Lemma contents_set a k d v T : NoDup (addrs T) -> NoDup (keys T) -> (a, (k, d)) ∈ T ->
  contents (set_entry a v <$> T) = <[k:=v]> (contents T).
Proof.
  induction T as [|[b [k' d']] T IH]; [by intros _ _ ?%elem_of_nil|]. intros [Hb Hnd]%NoDup_cons [Hk Hndk]%NoDup_cons Hin.
  unfold contents in *. cbn [fmap list_fmap list_to_map]. apply elem_of_cons in Hin as [[= -> -> ->]|Hin].
  - rewrite set_entry_id by done. unfold set_entry. cbn. rewrite decide_True by done. by rewrite insert_insert_eq.
  - assert (b <> a) as Hba.
    { intros ->. apply Hb. apply list_elem_of_fmap. by exists (a, (k, d)). }
    assert (k' <> k) as Hkk.
    { intros ->. apply Hk. apply list_elem_of_fmap. exists (k, d). split; [done|].
      apply list_elem_of_fmap. by exists (a, (k, d)). }
    unfold set_entry at 1. cbn. rewrite decide_False by done. rewrite IH by done. by rewrite insert_insert_ne.
Qed.

Lemma heap_ok_set C s a x : heap_ok C s -> a ∉ C ->
  heap_ok C (Heap (<[a:=x]> (hp_nodes s)) (hp_cache s) (hp_csize s)).
Proof.
  intros [H1 H2 H3 H4] Ha. split; try done. cbn. apply (cache_frame _ _ _ _ H1). intros b Hb.
  apply lookup_insert_ne. by intros ->.
Qed.

(** The state after an operation on one map with entries [T]: it has entries
    [T'], and what belongs to others is unchanged. *)
Record changed (C : list positive) (s : heap) (T : list entry)
    (C' : list positive) (s' : heap) (T' : list entry) : Prop := {
  ch_heap : heap_ok C' s';
  ch_nodup : NoDup (addrs T');
  ch_off : off_cache C' T';
  ch_new : forall a, a ∈ C' \/ a ∈ addrs T' -> a ∈ C \/ a ∈ addrs T \/ hp_nodes s !! a = None;
  ch_frame : forall a, is_Some (hp_nodes s !! a) -> a ∉ C -> a ∉ addrs T -> hp_nodes s' !! a = hp_nodes s !! a;
}.

Lemma map_put_ok k v C s m T :
  heap_ok C s -> map_at (hp_nodes s) m T -> NoDup (addrs T) -> off_cache C T ->
  wp (map_put m k v) s (fun r s' => exists C' T',
    map_at (hp_nodes s') r.2 T' /\ changed C s T C' s' T' /\
    r.1 = default 0 (contents T !! k) /\ contents T' = <[k:=v]> (contents T)).
Proof.
  intros Hh Hm Hnd Hoff. unfold map_put. step.
  wp_use (map_insert_ok k C s m T Hh Hm Hnd Hoff) as (C' & T' & Hm' & Hi). destruct a as [a m']. cbn [fst snd] in *.
  pose proof (map_at_keys _ _ _ Hm) as Hk. pose proof (map_at_keys _ _ _ Hm') as Hk'.
  assert (exists d, (a, (k, d)) ∈ T' /\ d = default 0 (contents T !! k) /\
    (forall x, <[k:=x]> (contents T') = <[k:=x]> (contents T)) /\ NoDup (addrs T') /\ off_cache C' T' /\
    forall b, b ∈ addrs T' -> b ∈ C \/ b ∈ addrs T \/ hp_nodes s !! b = None) as (d & Hd & -> & Hcon & Hnd' & Hoff' & Hnew).
  { destruct (in_case _ _ _ _ _ _ _ _ Hi) as [(d & Hd & -> & ->)|(Hkn & HP & Ha & HaC)].
    - exists d. split; [done|]. rewrite (contents_in T a k d) by done. split; [done|]. split; [done|]. auto.
    - exists 0. split; [rewrite HP; by left|]. rewrite (contents_notin T k) by done. split; [done|].
      assert (addrs T' ≡ₚ a :: addrs T) as HPa by (unfold addrs; by rewrite HP).
      assert (a ∉ addrs T) as HaT.
      { destruct Ha as [Ha|Ha]; [intros HaT; by apply (Hoff a)|].
        intros HaT. destruct (map_at_dom _ _ _ Hm a HaT) as [y Hy]. congruence. }
      split; [|split; [by rewrite HPa; apply NoDup_cons|split]].
      + intros x. rewrite (contents_perm T' _ Hk' HP). unfold contents. cbn. by rewrite insert_insert_eq.
      + intros b. rewrite HPa. intros [->|Hb]%elem_of_cons; [done|]. intros HbC.
        apply (Hoff b Hb), (in_sub _ _ _ _ _ _ _ _ Hi), HbC.
      + intros b. rewrite HPa. intros [->|Hb]%elem_of_cons; [destruct Ha; auto|auto]. }
  destruct (map_at_entry _ _ _ _ _ _ Hm' Hd) as [n Hn].
  assert (a ∈ addrs T') as HaT' by (apply list_elem_of_fmap; by exists (a, (k, default 0 (contents T !! k)))).
  n_steps. exists C', (set_entry a v <$> T'). split; [by eapply map_at_set|]. split; [|split; [done|]].
  - split; rewrite ?addrs_set_entry; try done.
    + apply heap_ok_set; [by eapply in_heap|by apply Hoff'].
    + intros b. by rewrite addrs_set_entry; apply Hoff'.
    + intros b [Hb|Hb]; [left; by eapply in_sub|by apply Hnew].
    + intros b Hb HbC HbT. cbn. rewrite lookup_insert_ne; [by eapply in_frame|].
      intros <-. destruct (Hnew a HaT') as [?|[?|E]]; [done|done|]. rewrite E in Hb. by destruct Hb.
  - by rewrite (contents_set a k (default 0 (contents T !! k))), Hcon.
Qed.

(** ** Release *)

(** The nodes [R] have been given to the cache or freed. *)
Record given_back (C R : list positive) (s : heap) (C' : list positive) (s' : heap) : Prop := {
  gb_heap : heap_ok C' s';
  gb_sub : forall b, b ∈ C' -> b ∈ C \/ b ∈ R;
  gb_frame : forall b, b ∉ C -> b ∉ R -> hp_nodes s' !! b = hp_nodes s !! b;
}.

Lemma given_back_trans C R1 R2 s C1 s1 C2 s2 :
  given_back C R1 s C1 s1 -> given_back C1 R2 s1 C2 s2 -> given_back C (R1 ++ R2) s C2 s2.
Proof.
  intros [H1 S1 F1] [H2 S2 F2]. split; [done| |]; intros b; rewrite ?elem_of_app.
  - intros [Hb|Hb]%S2; [destruct (S1 b Hb)|]; auto.
  - intros HC HR. rewrite F2, F1; [done|tauto|tauto| |tauto].
    intros Hb. destruct (S1 b Hb); tauto.
Qed.

Lemma bln_release_ok C s a x : heap_ok C s -> hp_nodes s !! a = Some x -> a ∉ C ->
  wp (bln_release a) s (fun _ s' => exists C', given_back C [a] s C' s' /\
    forall b, b <> a -> hp_nodes s' !! b = hp_nodes s !! b).
Proof.
  intros [Hc Hs Hm Hnd] Ha HaC. unfold bln_release. n_steps.
  destruct (decide (hp_csize s >= MAX_CACHE)) as [Hfull|Hroom].
  - n_steps. unfold n_free. n_steps. exists C.
    assert (forall b, b <> a -> delete a (hp_nodes s) !! b = hp_nodes s !! b) as Hf by (intros b Hb; by rewrite lookup_delete_ne).
    split; [split|done].
    + split; try done. apply (cache_frame _ _ _ _ Hc). intros b Hb. apply Hf. by intros ->.
    + by left.
    + intros b _ Hb. apply Hf. intros ->. apply Hb. by left.
  - n_steps. exists (a :: C). set (h := <[a:=_]> (hp_nodes s)).
    assert (forall b, b <> a -> h !! b = hp_nodes s !! b) as Hf by (intros b Hb; unfold h; by rewrite lookup_insert_ne).
    split; [split|done].
    + split; cbn [hp_nodes hp_cache hp_csize].
      * split; [done|]. exists (BinListNode (hp_cache s) (bln_key x) (bln_data x)). unfold h. rewrite lookup_insert_eq.
        split; [done|]. apply (cache_frame _ _ _ _ Hc). intros b Hb. apply Hf. by intros ->.
      * rewrite Hs in *. cbn [length]. unfold u32. rewrite Z.mod_small; unfold MAX_CACHE, two32 in *; lia.
      * rewrite Hs in *. cbn [length]. unfold MAX_CACHE in *. lia.
      * by apply NoDup_cons.
    + intros b [->|Hb]%elem_of_cons; [right; by left|by left].
    + intros b _ Hb. apply Hf. intros ->. apply Hb. by left.
Qed.

Lemma list_release_ok T : forall fuel C s p,
  heap_ok C s -> chain (hp_nodes s) p T -> NoDup (addrs T) -> off_cache C T -> (length T <= fuel)%nat ->
  wp (list_release fuel p) s (fun _ s' => exists C', given_back C (addrs T) s C' s').
Proof.
  induction T as [|[a [k d]] T IH]; intros fuel C s p Hh; cbn [chain].
  - intros -> _ _ _. destruct fuel; cbn [list_release]; n_steps; exists C; (split; [done|auto|done]).
  - intros (-> & n & Hn & Hc) [Ha Hnd]%NoDup_cons Hoff Hf. cbn [length] in Hf. destruct fuel as [|fuel]; [lia|].
    cbn [list_release]. n_steps.
    wp_use (bln_release_ok C s a _ Hh Hn) as (C1 & Hg & Hf1); [apply Hoff; by left|].
    assert (off_cache C1 T) as Hoff1.
    { intros b Hb HbC. destruct (gb_sub _ _ _ _ _ Hg b HbC) as [Hb'|Hb'].
      - apply (Hoff b); [by right|done].
      - apply list_elem_of_singleton in Hb' as ->. done. }
    wp_use (IH fuel C1 _ n (gb_heap _ _ _ _ _ Hg)) as (C2 & Hg2); [|done|done|lia|].
    { apply (nodes_chain_frame _ _ _ _ Hc). intros b Hb. apply Hf1. by intros ->. }
    exists C2. apply (given_back_trans C [a] (addrs T) s C1 _ C2 _ Hg Hg2).
Qed.

(** What others own survives. *)
Lemma given_back_keeps C R s C' s' T :
  given_back C R s C' s' -> off_cache C T -> off_cache R T ->
  off_cache C' T /\ forall b, b ∈ addrs T -> hp_nodes s' !! b = hp_nodes s !! b.
Proof.
  intros [_ Hs Hf] HC HR. split; intros b Hb.
  - intros [?|?]%Hs; [by apply (HC b)|by apply (HR b)].
  - apply Hf; [by apply HC|by apply HR].
Qed.

Lemma map_release_ok m : forall T C s,
  heap_ok C s -> map_at (hp_nodes s) m T -> NoDup (addrs T) -> off_cache C T ->
  wp (map_release m) s (fun _ s' => exists C', given_back C (addrs T) s C' s').
Proof.
  induction m as [|c0 IH0 hash l c1 IH1]; intros T C s Hh Hm Hnd Hoff; cbn [map_release map_at] in *.
  { subst T. n_steps. exists C. split; [done|auto|done]. }
  destruct Hm as (T0 & Tl & T1 & -> & H0 & Hl & H1 & _). rewrite !off_cache_app in Hoff. destruct Hoff as (O0 & Ol & O1).
  rewrite !addrs_app in Hnd. apply NoDup_app in Hnd as (Hnd0 & Hd0 & (Hndl & Hdl & Hnd1)%NoDup_app).
  assert (off_cache (addrs T0) Tl /\ off_cache (addrs T0) T1 /\ off_cache (addrs T1) Tl) as (D0l & D01 & D1l).
  { split_and!; intros b Hb Hb'; [apply (Hd0 b Hb'), elem_of_app; by left|
      apply (Hd0 b Hb'), elem_of_app; by right|by apply (Hdl b)]. }
  step. wp_use (IH0 T0 C s Hh H0 Hnd0 O0) as (C1 & G1).
  destruct (given_back_keeps _ _ _ _ _ T1 G1 O1 D01) as [O1' F1]. destruct (given_back_keeps _ _ _ _ _ Tl G1 Ol D0l) as [Ol' Fl].
  step. wp_use (IH1 T1 C1 _ (gb_heap _ _ _ _ _ G1)) as (C2 & G2); [by eapply map_at_frame|done|done|].
  destruct (given_back_keeps _ _ _ _ _ Tl G2 Ol' D1l) as [Ol2 Fl2].
  unfold map_list_release. n_steps.
  lazymatch goal with |- wp _ ?s2 _ => assert (chain (hp_nodes s2) l Tl) as Hl2
    by (apply (nodes_chain_frame (hp_nodes s) _ _ _ Hl); intros b Hb; rewrite Fl2, Fl; done) end.
  wp_use (list_release_ok Tl _ C2 _ l (gb_heap _ _ _ _ _ G2) Hl2 Hndl Ol2) as (C3 & G3); [by eapply chain_fits|].
  exists C3. pose proof (given_back_trans _ _ _ _ _ _ _ _ (given_back_trans _ _ _ _ _ _ _ _ G1 G2) G3) as [H S F].
  split; [done| |]; intros b; rewrite !addrs_app, !elem_of_app.
  - intros Hb%S. rewrite !elem_of_app in Hb. tauto.
  - intros HC HR. apply F; [done|]. rewrite !elem_of_app. tauto.
Qed.

Lemma cleanup_loop_ok C : forall fuel s, heap_ok C s -> (length C <= fuel)%nat ->
  wp (cleanup_loop fuel) s (fun _ s' => heap_ok [] s' /\ forall b, b ∉ C -> hp_nodes s' !! b = hp_nodes s !! b).
Proof.
  induction C as [|a C IH]; intros fuel s Hh Hf; pose proof Hh as [Hc Hs Hm Hnd]; cbn [cache_at] in Hc.
  - destruct fuel; cbn [cleanup_loop]; step; apply wp_get; rewrite Hc; by n_steps.
  - destruct Hc as (E & x & Hx & Hc). cbn [length] in *. destruct fuel as [|fuel]; [lia|]. cbn [cleanup_loop].
    step. apply wp_get. rewrite E. n_steps. unfold n_free. n_steps. apply NoDup_cons in Hnd as [Ha Hnd].
    eapply wp_mono; [apply IH; [|lia]|].
    + split; cbn [hp_nodes hp_cache hp_csize]; [|rewrite Hs; unfold u32; rewrite Z.mod_small; unfold MAX_CACHE, two32 in *; lia|unfold MAX_CACHE in *; lia|done].
      apply (cache_frame _ _ _ _ Hc). intros b Hb. apply lookup_delete_ne. by intros ->.
    + intros _ s' [H1 H2]. split; [done|]. intros b [Hb1 Hb2]%not_elem_of_cons. rewrite H2 by done.
      cbn. by apply lookup_delete_ne.
Qed.

Lemma map_cleanup_ok C s : heap_ok C s ->
  wp map_cleanup s (fun _ s' => heap_ok [] s' /\ forall b, b ∉ C -> hp_nodes s' !! b = hp_nodes s !! b).
Proof.
  intros Hh. unfold map_cleanup. n_steps. eapply wp_mono; [apply (cleanup_loop_ok C); [done|]|].
  - apply dom_length; [apply Hh|]. apply (cache_dom _ _ _ (ho_cache _ _ Hh)).
  - intros _ s' [Hh' Hf]. n_steps. pose proof (ho_size _ _ Hh') as E. cbn in E.
    eapply wp_assert; [by apply bool_decide_eq_true_2|]. done.
Qed.

(** * Any number of maps *)

Record maps_state := MapsState { ms_heap : heap; ms_maps : gmap nat map }.

Definition on_heap {A} (m : M heap A) : M maps_state A :=
  lift ms_heap (fun h s => MapsState h (ms_maps s)) m.

Definition get_map (i : nat) : M maps_state map :=
  s ← get; match ms_maps s !! i with Some m => mret m | None => undef end.

Definition set_map (i : nat) (m : map) : M maps_state unit :=
  modify (fun s => MapsState (ms_heap s) (<[i:=m]> (ms_maps s))).

Inductive map_op : Type :=
| OInit
| OPut (k : key) (v : Z)
| OLookup (k : key)
| OIter
| ORelease
| OCleanup.

Inductive map_result : Type :=
| RUnit
| RData (d : Z)
| RVisits (l : list (key * Z)).

(** What the users of the maps do; an iteration records what it visits. *)
Definition exec_map_op (i : nat) (o : map_op) : M maps_state map_result :=
  match o with
  | OInit => set_map i map_init;; mret RUnit
  | OPut k v => m ← get_map i; r ← on_heap (map_put m k v); set_map i r.2;; mret (RData r.1)
  | OLookup k => m ← get_map i; d ← on_heap (map_lookup m k); mret (RData d)
  | OIter => m ← get_map i; l ← on_heap (map_iter (fun l k d => l ++ [(k, d)]) [] m); mret (RVisits l)
  | ORelease =>
      m ← get_map i; on_heap (map_release m);;
      modify (fun s => MapsState (ms_heap s) (delete i (ms_maps s)));; mret RUnit
  | OCleanup => on_heap map_cleanup;; mret RUnit
  end.

Fixpoint exec_map_ops (os : list (nat * map_op)) : M maps_state (list map_result) :=
  match os with
  | [] => mret []
  | (i, o) :: os => r ← exec_map_op i o; rs ← exec_map_ops os; mret (r :: rs)
  end.

(** The specification: finite maps. An iteration visits every key once, in the
    order of the hashes. *)
Definition result_ok (c : gmap key Z) (o : map_op) (r : map_result) : Prop :=
  match o with
  | OPut k _ | OLookup k => r = RData (default 0 (c !! k))
  | OIter => exists l, r = RVisits l /\ l ≡ₚ map_to_list c /\
      StronglySorted (fun x y => sdbm_hash x.1 <= sdbm_hash y.1) l
  | _ => r = RUnit
  end.

Definition spec_map_op (i : nat) (o : map_op) (g : gmap nat (gmap key Z)) : gmap nat (gmap key Z) :=
  match o with
  | OInit => <[i:=∅]> g
  | OPut k v => <[i:=<[k:=v]> (default ∅ (g !! i))]> g
  | ORelease => delete i g
  | _ => g
  end.

Definition valid_map_op (g : gmap nat (gmap key Z)) (i : nat) (o : map_op) : Prop :=
  match o with OInit => g !! i = None | OCleanup => True | _ => is_Some (g !! i) end.

Fixpoint valid_map_ops (g : gmap nat (gmap key Z)) (os : list (nat * map_op)) : Prop :=
  match os with [] => True | (i, o) :: os => valid_map_op g i o /\ valid_map_ops (spec_map_op i o g) os end.

#[export] Instance valid_map_ops_dec os : forall g, Decision (valid_map_ops g os).
Proof.
  induction os as [|[i o] os IH]; intros g; cbn; [apply _|]. apply and_dec; [destruct o; cbn; apply _|apply IH].
Defined.

Fixpoint results_ok (g : gmap nat (gmap key Z)) (os : list (nat * map_op)) (rs : list map_result) : Prop :=
  match os, rs with
  | [], [] => True
  | (i, o) :: os, r :: rs => result_ok (default ∅ (g !! i)) o r /\ results_ok (spec_map_op i o g) os rs
  | _, _ => False
  end.

Record maps_repr_at (C : list positive) (T : nat -> list entry) (s : maps_state) (g : gmap nat (gmap key Z)) : Prop := {
  mr_heap : heap_ok C (ms_heap s);
  mr_dom : forall i, is_Some (ms_maps s !! i) <-> is_Some (g !! i);
  mr_map : forall i m c, ms_maps s !! i = Some m -> g !! i = Some c ->
    map_at (hp_nodes (ms_heap s)) m (T i) /\ NoDup (addrs (T i)) /\ off_cache C (T i) /\ contents (T i) = c;
  mr_disj : forall i j, is_Some (g !! i) -> is_Some (g !! j) -> i <> j -> off_cache (addrs (T i)) (T j);
}.

Definition maps_repr (s : maps_state) (g : gmap nat (gmap key Z)) : Prop := exists C T, maps_repr_at C T s g.

Lemma off_cache_sym T1 T2 : off_cache (addrs T1) T2 -> off_cache (addrs T2) T1.
Proof. intros H a H1 H2. by apply (H a). Qed.

(** The maps other than [i] survive a change of map [i]. *)
Lemma maps_other C T s g i Ti C' h' Ti' j m c :
  maps_repr_at C T s g -> changed C (ms_heap s) Ti C' h' Ti' -> (Ti = T i /\ is_Some (g !! i) \/ Ti = []) ->
  j <> i -> ms_maps s !! j = Some m -> g !! j = Some c ->
  (map_at (hp_nodes h') m (T j) /\ NoDup (addrs (T j)) /\ off_cache C' (T j) /\ contents (T j) = c) /\
  off_cache (addrs Ti') (T j).
Proof.
  intros [Hh Hd Hm Hdj] [Ch Cn Co Cnew Cf] HTi Hne Hj Hc.
  destruct (Hm j m c Hj Hc) as (Hat & Hnd & Hoff & Hcon).
  assert (off_cache (addrs Ti) (T j)) as Hoffi.
  { destruct HTi as [[-> Hgi]| ->]; [apply Hdj; [done|by eauto|done]|]. intros a _ Ha. by apply elem_of_nil in Ha. }
  assert (forall a, a ∈ addrs (T j) -> is_Some (hp_nodes (ms_heap s) !! a)) as Hdom by (by apply (map_at_dom _ m)).
  assert (forall a, a ∈ addrs (T j) -> ~ (a ∈ C' \/ a ∈ addrs Ti')) as Hnew.
  { intros a Ha Hin. destruct (Cnew a Hin) as [?|[?|E]]; [by apply (Hoff a)|by apply (Hoffi a)|].
    destruct (Hdom a Ha) as [x Hx]. congruence. }
  split; [split; [|split; [done|split; [|done]]]|].
  - apply (map_at_frame _ _ _ _ Hat). intros a Ha. apply Cf; [by apply Hdom|by apply Hoff|by apply Hoffi].
  - intros a Ha Hin. apply (Hnew a Ha). by left.
  - intros a Ha Hin. apply (Hnew a Ha). by right.
Qed.

Lemma maps_update C T s g i Ti C' h' m' Ti' :
  maps_repr_at C T s g -> changed C (ms_heap s) Ti C' h' Ti' -> (Ti = T i /\ is_Some (g !! i) \/ Ti = []) ->
  map_at (hp_nodes h') m' Ti' ->
  maps_repr (MapsState h' (<[i:=m']> (ms_maps s))) (<[i:=contents Ti']> g).
Proof.
  intros HR Hch HTi Hm'. pose proof (fun j m c => maps_other C T s g i Ti C' h' Ti' j m c HR Hch HTi) as Hoth.
  destruct HR as [Hh Hd Hm Hdj]. exists C', (fun j => if decide (j = i) then Ti' else T j).
  assert (forall j, j <> i -> is_Some (g !! j) -> off_cache (addrs Ti') (T j)) as Hdj'.
  { intros j Hne [c Hc]. destruct (proj2 (Hd j)) as [m Hmj]; [by eauto|]. by destruct (Hoth j m c Hne Hmj Hc). }
  split; cbn [ms_heap ms_maps].
  - by eapply ch_heap.
  - intros j. rewrite !lookup_insert_is_Some. specialize (Hd j). tauto.
  - intros j m c. destruct (decide (j = i)) as [->|Hne].
    + rewrite !lookup_insert_eq. intros [= <-] [= <-]. split; [done|]. split; [by eapply ch_nodup|].
      split; [by eapply ch_off|done].
    + rewrite !lookup_insert_ne by congruence. intros Hj Hc. by apply (Hoth j m c).
  - intros j1 j2. rewrite !lookup_insert_is_Some'. intros H1 H2 Hne.
    destruct (decide (j1 = i)) as [->|N1], (decide (j2 = i)) as [->|N2]; [done|..].
    + apply Hdj'; [done|]. destruct H2; [congruence|done].
    + apply off_cache_sym, Hdj'; [done|]. destruct H1; [congruence|done].
    + apply Hdj; [destruct H1; [congruence|done]|destruct H2; [congruence|done]|done].
Qed.

Lemma maps_delete C T s g i Ti C' h' :
  maps_repr_at C T s g -> changed C (ms_heap s) Ti C' h' [] -> (Ti = T i /\ is_Some (g !! i) \/ Ti = []) ->
  maps_repr (MapsState h' (delete i (ms_maps s))) (delete i g).
Proof.
  intros HR Hch HTi. pose proof (fun j m c => maps_other C T s g i Ti C' h' [] j m c HR Hch HTi) as Hoth.
  destruct HR as [Hh Hd Hm Hdj]. exists C', T. split; cbn [ms_heap ms_maps].
  - by eapply ch_heap.
  - intros j. rewrite !lookup_delete_is_Some. specialize (Hd j). tauto.
  - intros j m c [Hne Hj]%lookup_delete_Some [_ Hc]%lookup_delete_Some. by apply (Hoth j m c).
  - intros j1 j2 [_ H1]%lookup_delete_is_Some [_ H2]%lookup_delete_is_Some. by apply Hdj.
Qed.

Lemma given_back_changed C T s C' s' : given_back C (addrs T) s C' s' -> changed C s T C' s' [].
Proof.
  intros [H1 H2 H3]. split; [done|apply NoDup_nil_2|intros a Ha; by apply elem_of_nil in Ha| |by auto].
  intros a [Ha|Ha]; [destruct (H2 a Ha); auto|by apply elem_of_nil in Ha].
Qed.

Lemma visit_list T : forall l, visit (fun l k d => l ++ [(k, d)]) l T = l ++ T.*2.
Proof.
  induction T as [|[a [k d]] T IH]; intros l; unfold visit in *; cbn; [by rewrite app_nil_r|].
  rewrite IH. by rewrite <- app_assoc.
Qed.

Lemma map_at_sorted h m : forall T, map_at h m T -> StronglySorted (fun x y => hash_of x <= hash_of y) T.
Proof.
  induction m as [|c0 IH0 hash l c1 IH1]; intros T; cbn [map_at]; [intros ->; constructor|].
  intros (T0 & Tl & T1 & -> & H0 & Hl & H1 & F0 & Fl & Hk & F1). rewrite Forall_forall in F0, Fl, F1.
  apply StronglySorted_app_mid; [by apply IH0|apply StronglySorted_app_mid; [|by apply IH1|]|].
  - clear -Fl. induction Tl as [|e Tl IH]; constructor.
    + apply IH. intros x Hx. apply Fl. by right.
    + apply Forall_forall. intros x Hx. rewrite (Fl e), (Fl x); [lia|by right|by left].
  - intros x y Hx Hy. specialize (Fl x Hx). specialize (F1 y Hy). lia.
  - intros x y Hx [Hy|Hy]%elem_of_app; specialize (F0 x Hx); [specialize (Fl y Hy)|specialize (F1 y Hy)]; lia.
Qed.

Lemma StronglySorted_map {A B} (f : A -> B) (R : B -> B -> Prop) l :
  StronglySorted (fun x y => R (f x) (f y)) l -> StronglySorted R (f <$> l).
Proof.
  induction 1 as [|x l Hl IH Hx]; [constructor|]. constructor; [done|]. apply Forall_fmap. exact Hx.
Qed.

Lemma wp_get_map i m s Q : ms_maps s !! i = Some m -> Q m s -> wp (get_map i) s Q.
Proof. intros H HQ. unfold get_map. steps. by rewrite H. Qed.

Lemma exec_map_op_ok s g i o :
  maps_repr s g -> valid_map_op g i o ->
  wp (exec_map_op i o) s (fun r s' => result_ok (default ∅ (g !! i)) o r /\ maps_repr s' (spec_map_op i o g)).
Proof.
  intros (C & T & HR) Hv. pose proof HR as [Hh Hd Hm Hdj].
  assert (o <> OInit -> o <> OCleanup -> exists m c, ms_maps s !! i = Some m /\ g !! i = Some c) as Hthere.
  { intros H1 H2. assert (is_Some (g !! i)) as [c Hc] by (destruct o; done).
    destruct (proj2 (Hd i)) as [m Hmi]; [by eauto|]. by exists m, c. }
  destruct o as [|k v|k| | |]; cbn [exec_map_op valid_map_op spec_map_op result_ok] in *.
  - step. unfold set_map. steps. split; [done|].
    apply (maps_update C T s g i [] C (ms_heap s) MNull [] HR); [|by right|done].
    split; [done|apply NoDup_nil_2|intros a Ha; by apply elem_of_nil in Ha|tauto|done].
  - destruct Hthere as (m & c & Hmi & Hc); [done..|]. destruct (Hm i m c Hmi Hc) as (Hat & Hnd & Hoff & <-).
    step. eapply wp_get_map; [exact Hmi|]. step. unfold on_heap. step.
    wp_use (map_put_ok k v C (ms_heap s) m (T i) Hh Hat Hnd Hoff) as (C' & T' & Hat' & Hch & -> & Hcon).
    step. unfold set_map. steps. rewrite Hc. cbn [from_option id]. split; [done|]. rewrite <- Hcon.
    cbn [ms_maps ms_heap]. eapply maps_update; [exact HR|exact Hch|left; by eauto|done].
  - destruct Hthere as (m & c & Hmi & Hc); [done..|]. destruct (Hm i m c Hmi Hc) as (Hat & Hnd & Hoff & <-).
    step. eapply wp_get_map; [exact Hmi|]. step. unfold on_heap. step.
    wp_use (map_lookup_ok (ms_heap s) k m (T i) Hat Hnd) as [-> ->]. step. rewrite Hc. split; [done|].
    exists C, T. by destruct s.
  - destruct Hthere as (m & c & Hmi & Hc); [done..|]. destruct (Hm i m c Hmi Hc) as (Hat & Hnd & Hoff & <-).
    step. eapply wp_get_map; [exact Hmi|]. step. unfold on_heap. step.
    wp_use (map_iter_ok (fun l k d => l ++ [(k, d)]) (ms_heap s) m (T i) [] Hat Hnd) as [-> ->]. step. rewrite Hc.
    split; [|exists C, T; by destruct s]. rewrite visit_list. cbn [app from_option id]. exists (T i).*2. split; [done|].
    split; [symmetry; apply map_to_list_to_map; exact (map_at_keys _ _ _ Hat)|].
    apply StronglySorted_map. exact (map_at_sorted _ _ _ Hat).
  - destruct Hthere as (m & c & Hmi & Hc); [done..|]. destruct (Hm i m c Hmi Hc) as (Hat & Hnd & Hoff & <-).
    step. eapply wp_get_map; [exact Hmi|]. step. unfold on_heap. step.
    wp_use (map_release_ok m (T i) C (ms_heap s) Hh Hat Hnd Hoff) as (C' & Hg). steps. split; [done|].
    cbn [ms_maps ms_heap]. eapply maps_delete; [exact HR|by apply given_back_changed|left; by eauto].
  - step. unfold on_heap. step. wp_use (map_cleanup_ok C (ms_heap s) Hh) as [Hh' Hf]. step. split; [done|].
    exists [], T. split; cbn [ms_maps ms_heap]; [done|done| |done].
    intros j m c Hj Hc. destruct (Hm j m c Hj Hc) as (Hat & Hnd & Hoff & Hcon). split; [|split; [done|split; [|done]]].
    + apply (map_at_frame _ _ _ _ Hat). intros b Hb. by apply Hf, Hoff.
    + intros b _. apply not_elem_of_nil.
Qed.

(** C34. Any valid operations on any number of maps that share the cache of list
    nodes give the results of finite maps: every [map_insert] finds the data last
    stored under the key (0 the first time), an iteration visits every key once
    and in the order of the hashes, and recycling nodes never lets one map
    disturb another. *)
Theorem map_ops_refine os : forall s g,
  maps_repr s g -> valid_map_ops g os ->
  wp (exec_map_ops os) s (fun rs s' => results_ok g os rs).
Proof.
  induction os as [|[i o] os IH]; intros s g HR Hv; cbn [exec_map_ops]; step; [done|].
  destruct Hv as [Hv1 Hv2]. wp_use (exec_map_op_ok s g i o HR Hv1) as [Hr HR1].
  step. wp_use (IH _ _ HR1 Hv2) as Hrs. step. by split.
Qed.

Definition no_maps : maps_state := MapsState (Heap ∅ None 0) ∅.

Lemma no_maps_repr : maps_repr no_maps ∅.
Proof.
  exists [], (fun _ => []). split.
  - split; [done|done|unfold MAX_CACHE; cbn; lia|apply NoDup_nil_2].
  - intros i. cbn. rewrite !lookup_empty. by split; intros [? ?].
  - intros i m c H. cbn in H. by rewrite lookup_empty in H.
  - intros i j [? H]. by rewrite lookup_empty in H.
Qed.

Definition key_a : key := [Init.Byte.x61].
Definition key_b : key := [Init.Byte.x62; Init.Byte.x00].

(** A node released by one map is recycled in another. *)
Definition wit_map_ops : list (nat * map_op) :=
  [(1%nat, OInit); (1%nat, OPut key_a 10); (1%nat, OPut key_b 20); (1%nat, OPut key_a 30); (1%nat, OIter);
   (2%nat, OInit); (1%nat, ORelease); (2%nat, OLookup key_a); (2%nat, OPut key_b 7); (2%nat, OLookup key_b);
   (2%nat, OCleanup); (2%nat, OLookup key_b)].

Lemma map_ops_refine_witness :
  wp (exec_map_ops wit_map_ops) no_maps (fun rs s' => results_ok ∅ wit_map_ops rs) /\
  (exists s, exec_map_ops wit_map_ops no_maps = Ret ([RUnit; RData 0; RData 0; RData 10;
     RVisits [(key_a, 30); (key_b, 20)]; RUnit; RUnit; RData 0; RData 0; RData 7; RUnit; RData 7], s)).
Proof.
  split; [|eexists; vm_compute; reflexivity].
  apply (map_ops_refine wit_map_ops no_maps ∅ no_maps_repr).
  apply (bool_decide_unpack _). vm_compute. exact I.
Defined.
