(* ===== verification/Time.v ===== *)
(** src/src/lib/time.c: from seconds to a date. *)
From stdpp Require Import base numbers list.
From Stdlib Require Import ZArith Lia.
From S2P Require Import Prelude.

(** * The code *)

Record tm := MkTm {
  tm_sec : Z;
  tm_min : Z;
  tm_hour : Z;
  tm_mday : Z;
  tm_mon : Z;
  tm_year : Z;
  tm_wday : Z;
  tm_yday : Z;
  tm_isdst : Z;
}.

(** The static structure that the function fills is an argument; only the time of the
    day is written. *)
Definition localtime (old : tm) (timep : Z) : tm :=
  let t := timep in
  let sec := t mod 60 in let t := t / 60 in
  let min := t mod 60 in let t := t / 60 in
  let hour := t mod 24 in
  MkTm sec min hour (tm_mday old) (tm_mon old) (tm_year old) (tm_wday old) (tm_yday old) (tm_isdst old).

Lemma localtime_ok old t : 0 <= t -> let x := localtime old t in
  t mod 86400 = 3600 * tm_hour x + 60 * tm_min x + tm_sec x /\ 0 <= tm_hour x < 24 /\ 0 <= tm_min x < 60 /\ 0 <= tm_sec x < 60.
Proof. intros Ht. cbn. Z.to_euclidean_division_equations. lia. Qed.

Definition LEAPOCH : Z := 946684800 + 86400 * (31 + 29).
Definition DAYS_PER_400Y : Z := 365 * 400 + 97.
Definition DAYS_PER_100Y : Z := 365 * 100 + 24.
Definition DAYS_PER_4Y : Z := 365 * 4 + 1.

Definition days_in_month : list Z := [31; 30; 31; 30; 31; 31; 30; 31; 30; 31; 31; 29].

(** [None] when the array is left. *)
Fixpoint month_loop (table : list Z) (months remdays : Z) : option (Z * Z) :=
  match table with
  | [] => None
  | n :: table => if decide (n <= remdays) then month_loop table (months + 1) (remdays - n) else Some (months, remdays)
  end.

Definition is_int (x : Z) : bool := bool_decide (- 2147483648 <= x < 2147483648).

(** Cycles of 400, 100, 4 years and years, and the days that remain. *)
Definition cycles_of (days : Z) : Z * Z * Z * Z * Z :=
  let qc_cycles := days / DAYS_PER_400Y in
  let remdays := days mod DAYS_PER_400Y in
  let c_cycles := remdays / DAYS_PER_100Y in
  let c_cycles := if decide (c_cycles = 4) then c_cycles - 1 else c_cycles in
  let remdays := remdays - c_cycles * DAYS_PER_100Y in
  let q_cycles := remdays / DAYS_PER_4Y in
  let q_cycles := if decide (q_cycles = 25) then q_cycles - 1 else q_cycles in
  let remdays := remdays - q_cycles * DAYS_PER_4Y in
  let remyears := remdays / 365 in
  let remyears := if decide (remyears = 4) then remyears - 1 else remyears in
  (qc_cycles, c_cycles, q_cycles, remyears, remdays - remyears * 365).

(** From the days and the rest in seconds; [None] when a signed computation overflows.
    Both are unsigned in the code, so no remainder is negative. *)
Definition tm_of_days (days remsecs : Z) (old : tm) : option tm :=
  let wday := (3 + days) mod 7 in
  let '(qc_cycles, c_cycles, q_cycles, remyears, remdays) := cycles_of days in
  let qc_cycles := i32 qc_cycles in
  let leap := if decide (remyears = 0 /\ (q_cycles <> 0 \/ c_cycles = 0)) then 1 else 0 in
  let yday := remdays + 31 + 28 + leap in
  let yday := if decide (yday >= 365 + leap) then yday - (365 + leap) else yday in
  if negb (is_int (400 * qc_cycles)) then None else
  let years := remyears + 4 * q_cycles + 100 * c_cycles + 400 * qc_cycles in
  if negb (is_int years) then None else
  match month_loop days_in_month 0 remdays with
  | None => None
  | Some (months, remdays) =>
      let year := years + 100 in
      let mon := months + 2 in
      let '(mon, year) := if decide (mon >= 12) then (mon - 12, year + 1) else (mon, year) in
      if negb (is_int year) then None else
      Some (MkTm (remsecs mod 60) (remsecs / 60 mod 60) (remsecs / 3600) (remdays + 1) mon year wday yday (tm_isdst old))
  end.

Definition secs_to_tm (t : Z) (old : tm) : option tm :=
  let secs := u64 (t - LEAPOCH) in
  tm_of_days (secs / 86400) (secs mod 86400) old.

(** * The calendar *)

(** Dates of the Gregorian calendar: months count from 0, days from 1. *)
Record date := Date { year : Z; month : Z; day : Z }.

Definition leap_year (y : Z) : bool :=
  bool_decide (y mod 4 = 0) && (negb (bool_decide (y mod 100 = 0)) || bool_decide (y mod 400 = 0)).

Definition month_days (y m : Z) : Z :=
  if decide (m = 1) then if leap_year y then 29 else 28
  else if decide (m = 3 \/ m = 5 \/ m = 8 \/ m = 10) then 30 else 31.

Definition next_date (x : date) : date :=
  let '(Date y m d) := x in
  if decide (d < month_days y m) then Date y m (d + 1)
  else if decide (m < 11) then Date y (m + 1) 1
  else Date (y + 1) 0 1.

(** The date [n] days after 1 January 1970, and its day of the week; that day was a
    Thursday. *)
Definition date_after (n : nat) : date := Nat.iter n next_date (Date 1970 0 1).
Definition weekday_after (n : nat) : Z := Nat.iter n (fun w => if decide (w = 6) then 0 else w + 1) 4.

(** Days from the first of January to the first of the month. *)
Definition days_before (y m : Z) : Z := foldr (fun k n => month_days y (Z.of_nat k) + n) 0 (seq 0 (Z.to_nat m)).

(** * What the code computes *)

(** [n] days are [qc] times 400, [c] times 100, [q] times 4 and [r] years, from March
    on, and [k] days. *)
Record decomp (n qc c q r k : Z) : Prop := {
  dc_sum : n = 146097 * qc + 36524 * c + 1461 * q + 365 * r + k;
  dc_qc : 0 <= qc;
  dc_c : 0 <= c <= 3;
  dc_q : 0 <= q <= 24;
  dc_r : 0 <= r <= 3;
  dc_k : 0 <= k <= 365;
  dc_leap : k = 365 -> r = 3 /\ (q < 24 \/ c = 3);
}.

Definition march_year (qc c q r : Z) : Z := 2000 + r + 4 * q + 100 * c + 400 * qc.

Lemma march_leap qc c q r : 0 <= c <= 3 -> 0 <= q <= 24 -> 0 <= r <= 3 ->
  leap_year (march_year qc c q r) = bool_decide (r = 0 /\ (q <> 0 \/ c = 0)).
Proof.
  intros Hc Hq Hr. unfold leap_year. set (y := march_year qc c q r).
  assert (y mod 4 = r) as -> by (symmetry; apply (Z.mod_unique _ _ (500 + q + 25 * c + 100 * qc)); unfold y, march_year; lia).
  assert (y mod 100 = 4 * q + r) as -> by (symmetry; apply (Z.mod_unique _ _ (20 + c + 4 * qc)); unfold y, march_year; lia).
  assert (y mod 400 = 100 * c + 4 * q + r) as -> by (symmetry; apply (Z.mod_unique _ _ (5 + qc)); unfold y, march_year; lia).
  repeat case_bool_decide; try done; exfalso; lia.
Qed.

Lemma march_leap_next qc c q r : 0 <= c <= 3 -> 0 <= q <= 24 -> 0 <= r <= 3 ->
  leap_year (march_year qc c q r + 1) = bool_decide (r = 3 /\ (q < 24 \/ c = 3)).
Proof.
  intros Hc Hq Hr.
  assert (exists qc' c' q' r', march_year qc c q r + 1 = march_year qc' c' q' r' /\ 0 <= c' <= 3 /\ 0 <= q' <= 24 /\ 0 <= r' <= 3 /\
    (r' = 0 /\ (q' <> 0 \/ c' = 0) <-> r = 3 /\ (q < 24 \/ c = 3))) as (qc' & c' & q' & r' & -> & H1 & H2 & H3 & H4).
  { unfold march_year. destruct (decide (r < 3)); [exists qc, c, q, (r + 1); lia|]. destruct (decide (q < 24)); [exists qc, c, (q + 1), 0; lia|].
    destruct (decide (c < 3)); [exists qc, (c + 1), 0, 0; lia|exists (qc + 1), 0, 0, 0; lia]. }
  rewrite march_leap by done. by apply bool_decide_ext.
Qed.

(** The days of the rest of a period are fewer than the period. *)
Lemma decomp_rest n qc c q r k : decomp n qc c q r k ->
  0 <= 365 * r + k <= 1460 /\ (365 * r + k = 1460 -> q < 24 \/ c = 3) /\ 0 <= 1461 * q + 365 * r + k <= 36524 /\
  (1461 * q + 365 * r + k = 36524 -> c = 3) /\ 0 <= 36524 * c + 1461 * q + 365 * r + k < 146097.
Proof.
  intros []. assert (365 * r + k <= 1460 /\ (365 * r + k = 1460 -> k = 365)) as [H1 H2] by (destruct (decide (k = 365)) as [Ek|Ek]; [destruct (dc_leap0 Ek)|]; lia).
  assert (365 * r + k = 1460 -> q < 24 \/ c = 3) as H3 by (intros E; by apply dc_leap0, H2).
  assert (1461 * q + 365 * r + k <= 36524 /\ (1461 * q + 365 * r + k = 36524 -> c = 3)) as [H4 H5].
  { split; [lia|]. intros E. destruct (decide (365 * r + k = 1460)) as [E'|E']; [destruct (H3 E'); lia|lia]. }
  split_and!; try done; try lia.
Qed.

Lemma decomp_uniq n qc c q r k qc' c' q' r' k' : decomp n qc c q r k -> decomp n qc' c' q' r' k' ->
  qc' = qc /\ c' = c /\ q' = q /\ r' = r /\ k' = k.
Proof.
  intros H H'. destruct (decomp_rest _ _ _ _ _ _ H) as (A1 & A2 & A3 & A4 & A5), (decomp_rest _ _ _ _ _ _ H') as (B1 & B2 & B3 & B4 & B5).
  destruct H as [E _ Hc Hq Hr Hk Hl], H' as [E' _ Hc' Hq' Hr' Hk' Hl'].
  assert (qc' = qc) as -> by lia. assert (c' = c) as ->.
  { set (x := 1461 * q + 365 * r + k) in *. set (x' := 1461 * q' + 365 * r' + k') in *. lia. }
  assert (q' = q) as ->.
  { set (x := 365 * r + k) in *. set (x' := 365 * r' + k') in *. lia. }
  assert (r' = r) as -> by lia. split_and!; lia.
Qed.

(** The day after: of the same year, or the first of the next. *)
Lemma decomp_next n qc c q r k qc' c' q' r' k' : decomp n qc c q r k -> decomp (n + 1) qc' c' q' r' k' ->
  let last := if leap_year (march_year qc c q r + 1) then 365 else 364 in
  (k < last /\ k' = k + 1 /\ march_year qc' c' q' r' = march_year qc c q r) \/
  (k = last /\ k' = 0 /\ march_year qc' c' q' r' = march_year qc c q r + 1).
Proof.
  intros H H' last. assert (last = if decide (r = 3 /\ (q < 24 \/ c = 3)) then 365 else 364) as El.
  { unfold last. rewrite march_leap_next by apply H. case_bool_decide; [by rewrite decide_True|by rewrite decide_False]. }
  clearbody last. assert (k <= last) as Hk by (rewrite El; destruct H; destruct (decide (r = 3 /\ (q < 24 \/ c = 3))); lia).
  destruct (decide (k < last)) as [Hlt|Hge].
  - left. assert (decomp (n + 1) qc c q r (k + 1)) as H2.
    { destruct H. split; try lia; destruct (decide (r = 3 /\ (q < 24 \/ c = 3))); try lia. }
    destruct (decomp_uniq _ _ _ _ _ _ _ _ _ _ _ H2 H') as (-> & -> & -> & -> & ->). lia.
  - right. assert (exists qc2 c2 q2 r2, decomp (n + 1) qc2 c2 q2 r2 0 /\ march_year qc2 c2 q2 r2 = march_year qc c q r + 1) as (qc2 & c2 & q2 & r2 & H2 & Ey).
    { unfold march_year. destruct H. destruct (decide (r < 3)).
      { exists qc, c, q, (r + 1). rewrite decide_False in El by lia. split; [split|]; lia. }
      destruct (decide (q < 24)).
      { exists qc, c, (q + 1), 0. rewrite decide_True in El by lia. split; [split|]; lia. }
      destruct (decide (c < 3)).
      { exists qc, (c + 1), 0, 0. rewrite decide_False in El by lia. split; [split|]; lia. }
      exists (qc + 1), 0, 0, 0. rewrite decide_True in El by lia. split; [split|]; lia. }
    destruct (decomp_uniq _ _ _ _ _ _ _ _ _ _ _ H2 H') as (-> & -> & -> & -> & ->). split_and!; [lia|done|exact Ey].
Qed.

(** ** Days of a year that begins in March *)

Definition mdays (leap : bool) (m : Z) : Z :=
  if decide (m = 1) then if leap then 29 else 28
  else if decide (m = 3 \/ m = 5 \/ m = 8 \/ m = 10) then 30 else 31.

(** Whether the year ends, and the month and the day of the next day. *)
Definition next_day (leap : bool) (m d : Z) : Z * Z * Z :=
  if decide (d < mdays leap m) then (0, m, d + 1) else if decide (m < 11) then (0, m + 1, 1) else (1, 0, 1).

(** Whether day [k] is of the next year, its month and its day in the month. *)
Definition march_day (k : Z) : Z * Z * Z :=
  match month_loop days_in_month 0 k with
  | Some (m, d) => if decide (m + 2 >= 12) then (1, m - 10, d + 1) else (0, m + 2, d + 1)
  | None => (0, 0, 0)
  end.

Definition march_date (y k : Z) : date := let '(c, m, d) := march_day k in Date (y + c) m d.

Lemma next_date_day y m d : next_date (Date y m d) = let '(c, m', d') := next_day (leap_year y) m d in Date (y + c) m' d'.
Proof.
  unfold next_date, next_day. change (month_days y m) with (mdays (leap_year y) m).
  destruct (decide _); [by rewrite Z.add_0_r|]. destruct (decide _); [by rewrite Z.add_0_r|done].
Qed.

Definition last_day (leap : bool) : Z := if leap then 365 else 364.

(** What has to hold of day [k] when the year is a leap year or not ([l0]), and the next
    one ([l1]). *)
Definition day_ok (l0 l1 : bool) (k : Z) : bool :=
  let '(c, m, d) := march_day k in
  let '(c', m', d') := next_day (if decide (c = 0) then l0 else l1) m d in
  let leap := if l0 then 1 else 0 in
  let yday := if decide (k + 31 + 28 + leap >= 365 + leap) then k + 31 + 28 + leap - (365 + leap) else k + 31 + 28 + leap in
  bool_decide (month_loop days_in_month 0 k <> None) &&
  bool_decide ((c = 0 \/ c = 1) /\
    (c + c', m', d') = (if decide (k = last_day l1) then (1, 2, 1) else march_day (k + 1)) /\
    yday = foldr (fun j n => mdays (if decide (c = 0) then l0 else l1) (Z.of_nat j) + n) 0 (seq 0 (Z.to_nat m)) + d - 1).

Lemma days_ok l0 l1 k : 0 <= k <= last_day l1 -> day_ok l0 l1 k = true.
Proof.
  intros Hk. assert (forallb (day_ok l0 l1) (map Z.of_nat (seq 0 (Datatypes.S (Z.to_nat (last_day l1))))) = true) as H by (destruct l0, l1; vm_compute; done).
  rewrite forallb_forall in H. apply H. rewrite <- (Z2Nat.id k) by lia. apply in_map, in_seq. lia.
Qed.

Lemma march_date_next y k : 0 <= k <= last_day (leap_year (y + 1)) ->
  next_date (march_date y k) = if decide (k = last_day (leap_year (y + 1))) then march_date (y + 1) 0 else march_date y (k + 1).
Proof.
  intros Hk. pose proof (days_ok (leap_year y) _ k Hk) as H. unfold day_ok in H. unfold march_date at 1.
  destruct (march_day k) as [[c m] d]. rewrite next_date_day.
  assert (c = 0 \/ c = 1 -> (if decide (c = 0) then leap_year y else leap_year (y + 1)) = leap_year (y + c)) as Hl.
  { intros [-> | ->]; [by rewrite Z.add_0_r|done]. }
  destruct (next_day _ m d) as [[c1 m1] d1] eqn:E1. apply andb_true_iff in H as [_ H]. apply bool_decide_eq_true_1 in H as (Hc & Hn & _).
  rewrite (Hl Hc) in E1. rewrite E1. unfold march_date. destruct (decide _).
  - injection Hn as Hcc -> ->. change (march_day 0) with (0, 2, 1). f_equal. lia.
  - rewrite <- Hn. f_equal. lia.
Qed.

(** * The code computes the calendar *)

(** What the code finds for [n] days. *)
Lemma cycles_decomp n : 0 <= n -> let '(qc, c, q, r, k) := cycles_of n in decomp n qc c q r k /\ qc = n / 146097.
Proof.
  intros Hn. unfold cycles_of. set (qc := n / DAYS_PER_400Y). set (r1 := n mod DAYS_PER_400Y).
  change DAYS_PER_400Y with 146097 in *. change DAYS_PER_100Y with 36524. change DAYS_PER_4Y with 1461. split; [|done].
  assert (n = 146097 * qc + r1 /\ 0 <= r1 < 146097 /\ 0 <= qc) as (E1 & B1 & Q1).
  { split; [apply Z.div_mod; lia|]. split; [by apply Z.mod_pos_bound|by apply Z.div_pos]. }
  clearbody qc r1. set (c := if decide (r1 / 36524 = 4) then _ else _). assert (0 <= c <= 3 /\ 0 <= r1 - c * 36524 <= 36524 /\ (r1 - c * 36524 = 36524 -> c = 3)) as (C1 & C2 & C3).
  { unfold c. destruct (decide _); Z.to_euclidean_division_equations; lia. }
  clearbody c. set (r2 := r1 - c * 36524). assert (r2 = r1 - c * 36524) as E2 by done. clearbody r2. rewrite <- E2 in C2, C3.
  set (q := if decide (r2 / 1461 = 25) then _ else _). assert (0 <= q <= 24 /\ 0 <= r2 - q * 1461 <= 1460 /\ (r2 - q * 1461 = 1460 -> q < 24 \/ c = 3)) as (D1 & D2 & D3).
  { unfold q. destruct (decide _); Z.to_euclidean_division_equations; lia. }
  clearbody q. set (r3 := r2 - q * 1461). assert (r3 = r2 - q * 1461) as E3 by done. clearbody r3. rewrite <- E3 in D2, D3.
  set (r := if decide (r3 / 365 = 4) then _ else _). assert (0 <= r <= 3 /\ 0 <= r3 - r * 365 <= 365 /\ (r3 - r * 365 = 365 -> r = 3 /\ r3 = 1460)) as (F1 & F2 & F3).
  { unfold r. destruct (decide _); Z.to_euclidean_division_equations; lia. }
  clearbody r. split; lia.
Qed.

Definition leapoch_days : nat := Z.to_nat 11017.

Lemma date_after_S n : date_after (Datatypes.S n) = next_date (date_after n).
Proof. done. Qed.

(** The date of every decomposition is the calendar's. *)
Lemma decomp_date n : forall qc c q r k, decomp (Z.of_nat n) qc c q r k -> date_after (leapoch_days + n) = march_date (march_year qc c q r) k.
Proof.
  induction n as [|n IH]; intros qc c q r k H.
  - assert (decomp 0 0 0 0 0 0) as H0 by (split; lia). destruct (decomp_uniq _ _ _ _ _ _ _ _ _ _ _ H0 H) as (-> & -> & -> & -> & ->).
    by vm_compute.
  - pose proof (cycles_decomp (Z.of_nat n) ltac:(lia)) as H0. destruct (cycles_of (Z.of_nat n)) as [[[[qc0 c0] q0] r0] k0]. destruct H0 as [H0 _].
    replace (leapoch_days + Datatypes.S n)%nat with (Datatypes.S (leapoch_days + n)) by lia.
    rewrite date_after_S. rewrite (IH _ _ _ _ _ H0).
    rewrite Nat2Z.inj_succ, <- Z.add_1_r in H. pose proof (decomp_next _ _ _ _ _ _ _ _ _ _ _ H0 H) as Hn. cbv zeta in Hn.
    change (if leap_year _ then 365 else 364) with (last_day (leap_year (march_year qc0 c0 q0 r0 + 1))) in Hn.
    destruct H0. rewrite march_date_next by (destruct Hn; lia). destruct Hn as [(Hk & -> & ->)|(Hk & -> & ->)].
    + by rewrite decide_False by lia.
    + by rewrite decide_True.
Qed.

Lemma weekday_ok n : weekday_after n = (4 + Z.of_nat n) mod 7.
Proof.
  induction n as [|n IH]; [done|]. change (weekday_after (Datatypes.S n)) with ((fun w => if decide (w = 6) then 0 else w + 1) (weekday_after n)).
  rewrite IH, Nat2Z.inj_succ. cbv beta. destruct (decide _); Z.to_euclidean_division_equations; lia.
Qed.

(** * Properties *)

Definition date_of (x : tm) : date := Date (1900 + tm_year x) (tm_mon x) (tm_mday x).
Definition t_of_day (x : tm) : Z := 3600 * tm_hour x + 60 * tm_min x + tm_sec x.

Lemma tm_of_days_ok days rs old : 0 <= days < 775463000000 -> 0 <= rs < 86400 -> exists x,
  tm_of_days days rs old = Some x /\ let n := (leapoch_days + Z.to_nat days)%nat in
  date_of x = date_after n /\ tm_wday x = weekday_after n /\
  tm_yday x = days_before (year (date_after n)) (tm_mon x) + tm_mday x - 1 /\ rs = t_of_day x /\
  0 <= tm_hour x < 24 /\ 0 <= tm_min x < 60 /\ 0 <= tm_sec x < 60 /\ tm_isdst x = tm_isdst old.
Proof.
  intros Hd Hrs. unfold tm_of_days.
  pose proof (cycles_decomp days ltac:(lia)) as Hc. destruct (cycles_of days) as [[[[qc c] q] r] k]. destruct Hc as [Hc Hq]. cbv zeta.
  assert (0 <= qc < 5307900) as Hqc by (rewrite Hq; split; [apply Z.div_pos; lia|apply Z.div_lt_upper_bound; lia]).
  rewrite i32_small by lia.
  assert (date_after (leapoch_days + Z.to_nat days) = march_date (march_year qc c q r) k) as Edate.
  { apply (decomp_date (Z.to_nat days)). by rewrite Z2Nat.id by lia. }
  rewrite weekday_ok, Edate. replace (Z.of_nat (leapoch_days + Z.to_nat days)) with (11017 + days) by (unfold leapoch_days; lia). clear Edate.
  assert ((if decide (r = 0 /\ (q <> 0 \/ c = 0)) then 1 else 0) = (if leap_year (march_year qc c q r) then 1 else 0)) as ->.
  { rewrite march_leap by apply Hc. case_bool_decide; [by rewrite decide_True|by rewrite decide_False]. }
  assert (0 <= k <= last_day (leap_year (march_year qc c q r + 1))) as Hk.
  { rewrite march_leap_next by apply Hc. destruct Hc. unfold last_day. case_bool_decide; lia. }
  pose proof (days_ok (leap_year (march_year qc c q r)) _ k Hk) as H. unfold day_ok, march_day in H. unfold march_date, march_day.
  assert (forall z, -1 <= z <= 2147000000 -> is_int z = true) as Hint by (intros z Hz; unfold is_int; apply bool_decide_eq_true_2; lia).
  assert (march_year qc c q r = 2000 + r + 4 * q + 100 * c + 400 * qc) as Ey by done.
  set (y := march_year qc c q r) in *. clearbody y.
  assert (0 <= y - 2000 <= 2146000000) as Hy by (destruct Hc; lia). rewrite (Hint (400 * qc)) by lia. rewrite (Hint (r + _ + _ + _)) by lia. cbn [negb].
  replace (r + 4 * q + 100 * c + 400 * qc + 100) with (y - 1900) by lia. clear Ey Hc.
  destruct (month_loop days_in_month 0 k) as [[m d]|]; [|done].
  assert (rs = 3600 * (rs / 3600) + 60 * (rs / 60 mod 60) + rs mod 60 /\ 0 <= rs / 3600 < 24 /\ 0 <= rs / 60 mod 60 < 60 /\ 0 <= rs mod 60 < 60) as (Ers & B1 & B2 & B3).
  { Z.to_euclidean_division_equations. lia. }
  assert ((4 + (11017 + days)) mod 7 = (3 + days) mod 7) as -> by (rewrite <- (Z.mod_add (3 + days) 1574 7) by lia; f_equal; lia).
  unfold date_of, t_of_day, days_before. destruct (decide (m + 2 >= 12)); destruct (next_day _ _ _) as [[c1 m1] d1]; apply andb_true_iff in H as [_ H];
    apply bool_decide_eq_true_1 in H as (_ & _ & Hyd); (rewrite Hint by lia); cbn [negb]; (eexists; split; [reflexivity|]);
    cbn [tm_sec tm_min tm_hour tm_mday tm_mon tm_year tm_wday tm_yday tm_isdst year]; rewrite Hyd.
  - split_and!; try done; try lia; [f_equal; lia|]. cbn. replace (m + 2 - 12) with (m - 10) by lia. by replace (y + 1) with (y + 1) by done.
  - split_and!; try done; try lia; [f_equal; lia|]. cbn. by rewrite Z.add_0_r.
Qed.

(** C17. For every time from 1 March 2000 on, for two thousand million years, the broken-down
    time is that of the Gregorian calendar: the date, the day of the week and the day of
    the year that many days after Thursday, 1 January 1970, where only the rule for the
    day after a day and the rule for leap years are given, and the hours, minutes and
    seconds of the day. Nothing overflows and the table of months is not left. *)
Theorem secs_to_tm_correct (t : Z) (old : tm) : LEAPOCH <= t < 67000000000000000 -> exists x,
  secs_to_tm t old = Some x /\ let n := Z.to_nat (t / 86400) in
  date_of x = date_after n /\ tm_wday x = weekday_after n /\
  tm_yday x = days_before (year (date_after n)) (tm_mon x) + tm_mday x - 1 /\
  t mod 86400 = t_of_day x /\
  0 <= tm_hour x < 24 /\ 0 <= tm_min x < 60 /\ 0 <= tm_sec x < 60 /\ tm_isdst x = tm_isdst old.
Proof.
  intros Ht. assert (LEAPOCH = 951868800) as EL by done. rewrite EL in Ht. unfold secs_to_tm. rewrite EL.
  rewrite u64_small by (unfold two64; lia). cbv zeta.
  assert (exists days rs, (t - 951868800) / 86400 = days /\ (t - 951868800) mod 86400 = rs /\ t / 86400 = 11017 + days /\ t mod 86400 = rs /\
    0 <= rs < 86400 /\ 0 <= days < 775463000000) as (days & rs & -> & -> & Ed & -> & Hrs & Hd).
  { do 2 eexists. split; [done|]. split; [done|]. Z.to_euclidean_division_equations. lia. }
  assert (Z.to_nat (t / 86400) = leapoch_days + Z.to_nat days)%nat as -> by (rewrite Ed, Z2Nat.inj_add by lia; done).
  by apply tm_of_days_ok.
Qed.

(** Wednesday, 29 February 2012, 13:30:45. *)
Lemma secs_to_tm_correct_witness : exists x, secs_to_tm 1330522245 (MkTm 0 0 0 0 0 0 0 0 0) = Some x /\
  date_of x = Date 2012 1 29 /\ tm_wday x = 3 /\ tm_yday x = 59 /\ t_of_day x = 13 * 3600 + 30 * 60 + 45.
Proof.
  destruct (secs_to_tm_correct 1330522245 (MkTm 0 0 0 0 0 0 0 0 0)) as (x & E & Hd & Hw & Hy & Ht & _); [split; [vm_compute; congruence|reflexivity]|].
  exists x. split; [exact E|]. assert (date_after (Z.to_nat (1330522245 / 86400)) = Date 2012 1 29) as Ed by (vm_compute; reflexivity).
  rewrite Ed in Hd, Hy. split; [exact Hd|]. split; [rewrite Hw; vm_compute; reflexivity|].
  injection Hd as Hyr Hm Hda. rewrite Hm, Hda in Hy. split; [rewrite Hy; reflexivity|]. rewrite <- Ht. reflexivity.
Defined.

Lemma tm_of_days_overflow days rs old : 213503982323584 <= days -> days < 213503982334700 -> tm_of_days days rs old = None.
Proof.
  intros H1 H2. unfold tm_of_days. pose proof (cycles_decomp days ltac:(lia)) as Hc.
  destruct (cycles_of days) as [[[[qc c] q] r] k]. destruct Hc as [_ Hq]. cbv zeta.
  assert (1461385000 <= qc < 1461386000) as H3 by (rewrite Hq; split; [apply Z.div_le_lower_bound; lia|apply Z.div_lt_upper_bound; lia]).
  rewrite i32_small by lia. assert (is_int (400 * qc) = false) as -> by (apply bool_decide_eq_false_2; lia). done.
Qed.

(** Before 1 March 2000 the subtraction of [LEAPOCH] wraps around, since the code
    this was taken from has signed seconds and this one has not: the number of years
    overflows an int for every such time, also for the files of a system whose clock has
    not been set. *)
Lemma secs_to_tm_before_2000 (t : Z) (old : tm) : 0 <= t < LEAPOCH -> secs_to_tm t old = None.
Proof.
  intros Ht. assert (LEAPOCH = 951868800) as EL by done. rewrite EL in Ht. unfold secs_to_tm. rewrite EL.
  assert (u64 (t - 951868800) = t - 951868800 + two64) as ->.
  { unfold u64. symmetry. apply (Z.mod_unique _ _ (-1)); unfold two64; lia. }
  cbv zeta. apply tm_of_days_overflow; [apply Z.div_le_lower_bound|apply Z.div_lt_upper_bound]; unfold two64; lia.
Qed.

Lemma secs_to_tm_before_2000_witness : secs_to_tm 0 (MkTm 0 0 0 0 0 0 0 0 0) = None.
Proof. apply (secs_to_tm_before_2000 0). split; [lia|reflexivity]. Defined.
