(* ===== verification/Memchan.v ===== *)
(** src/src/lib/memchan.c: memory channels, strings that grow, and formatted output
    into them. Characters are numbers from 0 to 255. *)
From stdpp Require Import base numbers list.
From Stdlib Require Import ZArith Lia Floats.SpecFloat.
From S2P Require Import Prelude CType CString.

(** * Memory channels *)

(** [mc_buf] is the allocated memory, [size] bytes. *)
Record mem_chan := MemChan { mc_buf : list Z; mc_size : Z; mc_offset : Z }.

Definition mc_alloc : mem_chan := MemChan [] 0 0.

(** What realloc leaves of [buf]; the bytes it adds are not read. *)
Definition mc_realloc (buf : list Z) (size : Z) : list Z :=
  take (Z.to_nat size) buf ++ replicate (Z.to_nat size - length buf) 0.

Definition mc_put (buf : list Z) (size : Z) : M mem_chan unit :=
  mc ← get;
  (if decide (u32 (mc_offset mc + size) > mc_size mc) then
     let sz := u32 (mc_size mc * 2) in
     let sz := if decide (u32 (mc_offset mc + size) > sz) then u32 (mc_offset mc + size) else sz in
     put (MemChan (mc_realloc (mc_buf mc) sz) sz (mc_offset mc))
   else mret tt);;
  mc ← get;
  if decide (Z.of_nat (length buf) < size \/ mc_size mc < mc_offset mc + size) then undef else
  put (MemChan (splice (Z.to_nat (mc_offset mc)) (take (Z.to_nat size) buf) (mc_buf mc)) (mc_size mc) (u32 (mc_offset mc + size))).

Definition mc_putc (c : Z) : M mem_chan unit := mc_put [c] 1.

(** A string up to its null character. *)
Fixpoint mc_puts (s : list Z) : M mem_chan unit :=
  match s with
  | [] => mret tt
  | c :: s => if decide (c = 0) then mret tt else mc_putc c;; mc_puts s
  end.

(** ** Integers *)

Definition mc_chars (caps : bool) : list Z :=
  seqZ 48 10 ++ seqZ (if caps then 65 else 97) 6.

(** The loop from the end of [buf]; [room] places are left below [p]. *)
Fixpoint mc_digits {S} (room : nat) (chars : list Z) (base d : Z) (p : list Z) : M S (list Z) :=
  if decide (d = 0) then mret p else
  match room with
  | O => undef
  | Datatypes.S room => c ← read_nth chars (Z.to_nat (d mod base)); mc_digits room chars base (d / base) (c :: p)
  end.

(** [buf] has 64 places, one for the null character. *)
Definition DIGIT_ROOM : nat := 63.

Definition bad_base : list Z := [60; 98; 97; 100; 32; 98; 97; 115; 101; 62].

Definition mc_unsigned_long_long (d base : Z) (caps : bool) : M mem_chan unit :=
  if decide (base < 2 \/ base > 16) then mc_puts bad_base else
  if decide (d = 0) then mc_putc 48 else
  p ← mc_digits DIGIT_ROOM (mc_chars caps) base d [];
  mc_puts p.

Definition mc_signed_long_long (d base : Z) (caps opt_plus opt_space : bool) : M mem_chan unit :=
  (if opt_plus then if decide (d >= 0) then mc_putc 43 else mret tt
   else if opt_space then if decide (d > 0) then mc_putc 32 else mret tt else mret tt);;
  if decide (base < 2 \/ base > 16) then mc_puts bad_base else
  if decide (d = 0) then mc_putc 48 else
  d ← (if decide (d < 0) then mc_putc 45;; signed 64 (- d) else mret d);
  p ← mc_digits DIGIT_ROOM (mc_chars caps) base d [];
  mc_puts p.

(** ** Floating point *)

(** IEEE double precision. *)
Definition double : Type := spec_float.
Definition d_of_Z (n : Z) : double := binary_normalize 53 1024 n 0 false.
Definition d_mul (x y : double) : double := SFmul 53 1024 x y.
Definition d_sub (x y : double) : double := SFsub 53 1024 x y.

Definition isnan (x : double) : bool := match x with S754_nan => true | _ => false end.
Definition isfinite (x : double) : bool := match x with S754_finite _ _ _ | S754_zero _ => true | _ => false end.

(** The value without its fraction, for a finite number. *)
Definition d_trunc (x : double) : Z :=
  match x with
  | S754_finite s m e => (if s then -1 else 1) * (if decide (e < 0) then Zpos m / 2 ^ (- e) else Zpos m * 2 ^ e)
  | _ => 0
  end.

(** Conversion to an unsigned type of [bits] bits, undefined out of its range. *)
Definition d_to_uint {S} (bits : Z) (x : double) : M S Z :=
  if decide (isfinite x = true /\ 0 <= d_trunc x < 2 ^ bits) then mret (d_trunc x) else undef.

(** The parts of a number that is not negative. *)
Definition modf (x : double) : double * double :=
  match x with
  | S754_infinity _ => (S754_zero false, x)
  | _ => (d_sub x (d_of_Z (d_trunc x)), d_of_Z (d_trunc x))
  end.

Definition DEFAULT_FLOAT_PRECISION : Z := 6.

Fixpoint mc_repeat (n : nat) (c : Z) : M mem_chan unit :=
  match n with
  | O => mret tt
  | Datatypes.S n => mc_putc c;; mc_repeat n c
  end.

(** The loop that takes the decimal digits: the fraction that is left, the digits as a
    number, the zeros before them, and whether all are nines. *)
Fixpoint frac_digits (n : nat) (frac : double) (digits zeros : Z) (nines : bool) : M mem_chan (double * Z * Z * bool) :=
  match n with
  | O => mret (frac, digits, zeros, nines)
  | Datatypes.S n =>
      let frac := d_mul frac (d_of_Z 10) in
      digit ← d_to_uint 32 frac;
      let digits := u64 (digits * 10 + digit) in
      frac_digits n (d_sub frac (d_of_Z digit)) digits
        (if decide (digits = 0 /\ digit = 0) then zeros + 1 else zeros)
        (if decide (digits <> 0 /\ digit <> 9) then false else nines)
  end.

Definition mc_signed_double (value : double) (precision : Z) (caps opt_plus opt_space : bool) : M mem_chan unit :=
  let zero := S754_zero false in
  (if opt_plus then if SFleb zero value then mc_putc 43 else mret tt
   else if opt_space then if SFltb zero value then mc_putc 32 else mret tt else mret tt);;
  if SFeqb value zero then
    mc_putc 48;;
    if decide (precision > 0) then mc_putc 46;; mc_repeat (Z.to_nat precision) 48 else mret tt
  else if isnan value then mc_puts (if caps then [78; 65; 78] else [110; 97; 110])
  else
  value ← (if SFltb value zero then mc_putc 45;; mret (SFopp value) else mret value);
  (if negb (isfinite value) then mc_puts (if caps then [73; 78; 70] else [105; 110; 102]) else mret tt);;
  let precision := if decide (precision = -1) then DEFAULT_FLOAT_PRECISION else precision in
  let '(frac_part, int_part) := modf value in
  int_value ← d_to_uint 64 int_part;
  if decide (precision = 0) then mc_unsigned_long_long int_value 10 caps else
  x ← frac_digits (Z.to_nat precision) frac_part 0 0 true;
  let '(frac_part, decimal_digits, leading_zeros, all_nines) := x in
  next ← d_to_uint 32 (d_mul frac_part (d_of_Z 10));
  let '(int_value, decimal_digits, leading_zeros, trailing_zeros) :=
    if decide (next >= 5) then
      let decimal_digits := u64 (decimal_digits + 1) in
      let leading_zeros := if all_nines : bool then leading_zeros - 1 else leading_zeros in
      if decide (leading_zeros < 0) then (u64 (int_value + 1), 0, leading_zeros, precision)
      else (int_value, decimal_digits, leading_zeros, 0)
    else (int_value, decimal_digits, leading_zeros, 0) in
  mc_unsigned_long_long int_value 10 caps;;
  mc_putc 46;;
  mc_repeat (Z.to_nat leading_zeros) 48;;
  (if decide (decimal_digits <> 0) then mc_unsigned_long_long decimal_digits 10 caps else mret tt);;
  mc_repeat (Z.to_nat trailing_zeros) 48.

(** * Formats *)

(** An argument, with the type it is passed with: [int] or [unsigned int], [long] or
    [unsigned long], a string, another pointer, a [double]. *)
Inductive va := VInt (x : Z) | VLong (x : Z) | VStr (s : list Z) | VPtr (p : Z) | VDouble (x : double).

Definition i64 (x : Z) : Z := if decide (u64 x < 2 ^ 63) then u64 x else u64 x - two64.

(** [va_arg] with another type than that of the argument is undefined. *)
Definition va_arg {S A} (f : va -> option A) (ap : list va) : M S (A * list va) :=
  match ap with
  | a :: ap => match f a with Some x => mret (x, ap) | None => undef end
  | [] => undef
  end.
Definition va_int (a : va) : option Z := match a with VInt x => Some (i32 x) | _ => None end.
Definition va_uint (a : va) : option Z := match a with VInt x => Some (u32 x) | _ => None end.
Definition va_long (a : va) : option Z := match a with VLong x => Some (i64 x) | _ => None end.
Definition va_ulong (a : va) : option Z := match a with VLong x => Some (u64 x) | _ => None end.
Definition va_str (a : va) : option (list Z) := match a with VStr s => Some s | _ => None end.
Definition va_ptr (a : va) : option Z := match a with VPtr p => Some (u64 p) | VStr _ => None | _ => None end.
Definition va_double (a : va) : option double := match a with VDouble x => Some x | _ => None end.

Record options := Options { opt_zero_padding : bool; opt_left_adjust : bool; opt_plus : bool; opt_space : bool }.

(** The flags after [%] and the format after them. *)
Fixpoint parse_flags (o : options) (fmt : list Z) : options * list Z :=
  match fmt with
  | c :: fmt' =>
      if decide (c = 48) then parse_flags (Options true (opt_left_adjust o) (opt_plus o) (opt_space o)) fmt'
      else if decide (c = 45) then parse_flags (Options (opt_zero_padding o) true (opt_plus o) (opt_space o)) fmt'
      else if decide (c = 43) then parse_flags (Options (opt_zero_padding o) (opt_left_adjust o) true (opt_space o)) fmt'
      else if decide (c = 32) then parse_flags (Options (opt_zero_padding o) (opt_left_adjust o) (opt_plus o) true) fmt'
      else (o, fmt)
  | [] => (o, [])
  end.

(** A number, by the arithmetic of its type. *)
Fixpoint parse_number {S} (arith : Z -> M S Z) (n : Z) (fmt : list Z) : M S (Z * list Z) :=
  match fmt with
  | c :: fmt' =>
      d ← isdigit (schar c);
      if decide (d <> 0) then
        n ← arith (n * 10);
        n ← arith (n + (schar c - 48));
        parse_number arith n fmt'
      else mret (n, fmt)
  | [] => mret (n, [])
  end.

Definition parse_precision {S} (fmt : list Z) (ap : list va) : M S (Z * list Z * list va) :=
  match fmt with
  | 46 :: 42 :: fmt => x ← va_arg va_uint ap; mret (i32 x.1, fmt, x.2)
  | 46 :: fmt => x ← parse_number (signed 32) 0 fmt; mret (x.1, x.2, ap)
  | _ => mret (-1, fmt, ap)
  end.

(** The modifiers have no effect. *)
Definition skip_modifier (fmt : list Z) : list Z :=
  match fmt with
  | 104 :: 104 :: fmt => fmt
  | 108 :: 108 :: fmt => fmt
  | c :: fmt' => if decide (c ∈ [104; 108; 106; 116; 122; 76]) then fmt' else fmt
  | [] => []
  end.

(** The text of one conversion, in a channel of its own, and the arguments left. *)
Definition mc_convert (c : Z) (o : options) (precision : Z) (ap : list va) : M mem_chan (list va) :=
  if decide (c = 99) then x ← va_arg va_int ap; mc_putc (x.1 mod 256);; mret x.2
  else if decide (c = 100 \/ c = 105) then x ← va_arg va_int ap; mc_signed_long_long x.1 10 false (opt_plus o) (opt_space o);; mret x.2
  else if decide (c = 68) then x ← va_arg va_long ap; mc_signed_long_long x.1 10 false (opt_plus o) (opt_space o);; mret x.2
  else if decide (c = 115) then x ← va_arg va_str ap; mc_puts x.1;; mret x.2
  else if decide (c = 117) then x ← va_arg va_uint ap; mc_unsigned_long_long x.1 10 false;; mret x.2
  else if decide (c = 85) then x ← va_arg va_ulong ap; mc_unsigned_long_long x.1 10 false;; mret x.2
  else if decide (c = 111) then x ← va_arg va_uint ap; mc_unsigned_long_long x.1 8 false;; mret x.2
  else if decide (c = 79) then x ← va_arg va_ulong ap; mc_unsigned_long_long x.1 8 false;; mret x.2
  else if decide (c = 120) then x ← va_arg va_uint ap; mc_unsigned_long_long x.1 16 false;; mret x.2
  else if decide (c = 88) then x ← va_arg va_ulong ap; mc_unsigned_long_long (u32 x.1) 16 true;; mret x.2
  else if decide (c = 112) then x ← va_arg va_ptr ap; mc_unsigned_long_long x.1 16 false;; mret x.2
  else if decide (c = 102) then x ← va_arg va_double ap; mc_signed_double x.1 precision false (opt_plus o) (opt_space o);; mret x.2
  else if decide (c = 70) then x ← va_arg va_double ap; mc_signed_double x.1 precision true (opt_plus o) (opt_space o);; mret x.2
  else mc_putc c;; mret ap.

(** The width that is left after [n] characters of padding. *)
Fixpoint mc_pad (n : nat) (c width : Z) : M mem_chan Z :=
  match n with
  | O => mret width
  | Datatypes.S n => mc_putc c;; mc_pad n c (width - 1)
  end.

Definition mc_field (c : Z) (o : options) (min_field_width precision : Z) (mc2 : mem_chan) : M mem_chan unit :=
  let precision := if decide (precision < 0) then i32 (mc_offset mc2)
                   else if decide (i32 (mc_offset mc2) < precision) then i32 (mc_offset mc2) else precision in
  width ← (if opt_left_adjust o then mret min_field_width
           else mc_pad (Z.to_nat (i32 min_field_width - precision)) (if opt_zero_padding o then 48 else 32) min_field_width);
  mc_put (mc_buf mc2) (if decide (c = 102 \/ c = 70) then mc_offset mc2 else u32 precision);;
  mc_pad (Z.to_nat (i32 width - precision)) 32 width;;
  mret tt.

(** Runs [m] on a new channel. *)
Definition on_new {A} (m : M mem_chan A) : M mem_chan (A * mem_chan) := fun s =>
  match m mc_alloc with
  | Ret (a, mc2) => Ret ((a, mc2), s)
  | Exit => Exit
  | Undef => Undef
  | OutOfFuel => OutOfFuel
  end.

(** The loop; every round takes at least one character of the format. *)
Fixpoint vprintf_loop (fuel : nat) (fmt : list Z) (ap : list va) : M mem_chan unit :=
  match fuel with
  | O => out_of_fuel
  | Datatypes.S fuel =>
      match fmt with
      | [] => mret tt
      | c :: fmt =>
          if decide (c <> 37) then mc_putc c;; vprintf_loop fuel fmt ap else
          let '(o, fmt) := parse_flags (Options false false false false) fmt in
          w ← parse_number (fun x => mret (u32 x)) 0 fmt;
          p ← parse_precision w.2 ap;
          let '(precision, fmt, ap) := p in
          match skip_modifier fmt with
          | [] => mret tt
          | c :: fmt =>
              x ← on_new (mc_convert c o precision ap);
              mc_field c o w.1 precision x.2;;
              vprintf_loop fuel fmt x.1
          end
      end
  end.

Definition mc_vprintf (fmt : list Z) (ap : list va) : M mem_chan unit := vprintf_loop (Datatypes.S (length fmt)) fmt ap.

(** What has been put into a channel. *)
Definition mc_text (mc : mem_chan) : list Z := take (Z.to_nat (mc_offset mc)) (mc_buf mc).
