(* ===== verification/MemchanProps.v ===== *)
(** What the functions of memchan.c put into a channel. *)
From stdpp Require Import base numbers list.
From Stdlib Require Import ZArith Lia Floats.SpecFloat.
From S2P Require Import Prelude Memory CType CString CStringMem CStringText Memchan.

(** * Channels *)

(** The channel holds the text [t]. *)
Definition mc_holds (mc : mem_chan) (t : list Z) : Prop :=
  Z.of_nat (length (mc_buf mc)) = mc_size mc /\ mc_size mc < two32 /\ mc_offset mc = Z.of_nat (length t) /\
  mc_offset mc <= mc_size mc /\ mc_text mc = t.

(** [m] returns [a] and appends [out], as long as the text stays below 2^32. *)
Definition emits {A} (m : M mem_chan A) (a : A) (out : list Z) : Prop := forall mc t,
  mc_holds mc t -> Z.of_nat (length t + length out) < two32 -> wp m mc (fun x mc' => x = a /\ mc_holds mc' (t ++ out)).

Lemma alloc_holds : mc_holds mc_alloc [].
Proof. by split_and!. Qed.

Lemma emits_ret {A} (a : A) : emits (mret a) a [].
Proof. intros mc t H _. step. rewrite app_nil_r. by split. Qed.

Lemma emits_bind {A B} (m : M mem_chan A) (k : A -> M mem_chan B) a b o1 o2 :
  emits m a o1 -> emits (k a) b o2 -> emits (mbind k m) b (o1 ++ o2).
Proof.
  intros H1 H2 mc t H Hl. rewrite length_app in Hl. step. eapply wp_mono; [apply (H1 mc t H); lia|]. intros x mc' [-> H'].
  rewrite app_assoc. apply (H2 mc' (t ++ o1) H'). rewrite length_app. lia.
Qed.

(** A pure step whose result is known. *)
Lemma emits_pure {A B} (m : M mem_chan A) (k : A -> M mem_chan B) a b o :
  (forall s, m s = Ret (a, s)) -> emits (k a) b o -> emits (mbind k m) b o.
Proof. intros H1 H2 mc t H Hl. step. unfold wp at 1. rewrite H1. by apply H2. Qed.

Lemma mc_put_emits buf size : 0 <= size <= Z.of_nat (length buf) -> emits (mc_put buf size) tt (take (Z.to_nat size) buf).
Proof.
  intros Hs mc t (Hb & Hsz & Ho & Hos & Ht) Hl. rewrite length_take in Hl. unfold mc_put. step. step.
  set (need := mc_offset mc + size) in *. assert (u32 need = need) as Eu by (apply u32_small; unfold is_u32, need; lia). rewrite Eu.
  step. apply (wp_mono _ _ (fun _ mc' => Z.of_nat (length (mc_buf mc')) = mc_size mc' /\ mc_size mc' < two32 /\ mc_offset mc' = mc_offset mc /\
    need <= mc_size mc' /\ mc_text mc' = t)).
  { destruct (decide (need > mc_size mc)) as [Hg|Hg]; step; [|split_and!; (done || lia)].
    set (sz := if decide _ then _ else _). assert (need <= sz < two32) as [H1 H2].
    { unfold sz. pose proof (u32_range (mc_size mc * 2)) as Hr. unfold is_u32 in Hr. destruct (decide _); unfold need in *; lia. }
    cbn [mc_buf mc_size mc_offset]. unfold mc_text in *. cbn [mc_buf mc_offset]. unfold mc_realloc.
    assert (length (mc_buf mc) <= Z.to_nat sz)%nat as Hle by lia. rewrite (take_ge (mc_buf mc)) by done. split_and!; try done.
    - rewrite length_app, length_replicate. lia.
    - rewrite take_app_le by lia. done. }
  intros _ mc' (Hb' & Hsz' & Ho' & Hn' & Ht'). step. step. rewrite decide_False by (unfold need in *; lia). step. split; [done|].
  rewrite Ho'. fold need. rewrite Eu. cbn [mc_buf mc_size mc_offset]. unfold mc_holds, mc_text in *. cbn [mc_buf mc_size mc_offset].
  set (d := take (Z.to_nat size) buf) in *. assert (length d = Z.to_nat size) as Hd by (unfold d; rewrite length_take; lia).
  split_and!; [|done| |done|].
  - rewrite length_splice by (rewrite Hd; unfold need in *; lia). done.
  - rewrite length_app, Hd. unfold need. lia.
  - replace (Z.to_nat need) with (Z.to_nat (mc_offset mc) + length d)%nat by (rewrite Hd; unfold need; lia).
    rewrite take_splice_app by (rewrite Hd; unfold need in *; lia). by rewrite <- Ht', Ho'.
Qed.

Lemma mc_putc_emits c : emits (mc_putc c) tt [c].
Proof. apply (mc_put_emits [c] 1). cbn. lia. Qed.

(** A character and what follows. *)
Lemma mc_putc_then {B} c (k : M mem_chan B) b o : emits k b o -> emits (mc_putc c;; k) b (c :: o).
Proof. intros H. apply (emits_bind _ (fun _ => k) tt b [c] o (mc_putc_emits c) H). Qed.

Lemma mc_puts_emits s : 0 ∉ s -> emits (mc_puts s) tt s.
Proof.
  induction s as [|c s IH]; intros H; [apply emits_ret|]. apply not_elem_of_cons in H as [Hc Hs]. cbn [mc_puts].
  rewrite decide_False by done. by apply mc_putc_then, IH.
Qed.

(** * Numbers *)

(** The digits of [n], least significant first. *)
Fixpoint digits_le (fuel : nat) (base n : Z) : list Z :=
  match fuel with
  | O => []
  | Datatypes.S fuel => if decide (n = 0) then [] else n mod base :: digits_le fuel base (n / base)
  end.

Definition digits_of (base n : Z) : list Z := rev (digits_le 64 base n).

Definition digit_char (caps : bool) (d : Z) : Z := if decide (d < 10) then 48 + d else (if caps then 55 else 87) + d.

Definition number_text (base : Z) (caps : bool) (n : Z) : list Z :=
  if decide (n = 0) then [48] else digit_char caps <$> digits_of base n.

(** The number that digits denote. *)
Definition digits_value (base : Z) (ds : list Z) : Z := foldl (fun v d => v * base + d) 0 ds.

Lemma digits_value_snoc base ds d : digits_value base (ds ++ [d]) = digits_value base ds * base + d.
Proof. unfold digits_value. by rewrite foldl_app. Qed.

Lemma digits_le_ok fuel : forall base n, 2 <= base -> 0 <= n < base ^ Z.of_nat fuel ->
  digits_value base (rev (digits_le fuel base n)) = n /\ Forall (fun d => 0 <= d < base) (digits_le fuel base n) /\
  (n <> 0 -> exists d, last (digits_le fuel base n) = Some d /\ d <> 0).
Proof.
  induction fuel as [|fuel IH]; intros base n Hb Hn; cbn [digits_le].
  - split; [cbn; lia|]. split; [constructor|lia].
  - destruct (decide (n = 0)) as [->|H0]; [split; [done|]; split; [constructor|lia]|].
    rewrite Nat2Z.inj_succ, Z.pow_succ_r in Hn by lia.
    destruct (IH base (n / base) Hb) as (H1 & H2 & H3); [split; [apply Z.div_pos; lia|apply Z.div_lt_upper_bound; lia]|].
    pose proof (Z.div_mod n base ltac:(lia)) as Hdm. pose proof (Z.mod_pos_bound n base ltac:(lia)) as Hm.
    cbn [rev]. rewrite digits_value_snoc, H1. split; [lia|]. split; [by constructor|]. intros _.
    destruct (decide (n / base = 0)) as [E|E].
    + rewrite E. exists (n mod base). destruct fuel; cbn [digits_le last]; (split; [done|lia]).
    + destruct (H3 E) as (d & Hd & Hd0). exists d. split; [|done]. by destruct (digits_le fuel base (n / base)).
Qed.

Lemma digits_of_ok base n : 2 <= base -> 0 <= n < two64 ->
  digits_value base (digits_of base n) = n /\ Forall (fun d => 0 <= d < base) (digits_of base n) /\
  (n <> 0 -> exists d ds, digits_of base n = d :: ds /\ d <> 0).
Proof.
  intros Hb Hn. assert (n < base ^ Z.of_nat 64) as Hlt.
  { apply (Z.lt_le_trans _ (2 ^ 64)); [exact (proj2 Hn)|]. apply Z.pow_le_mono_l. lia. }
  destruct (digits_le_ok 64 base n Hb ltac:(lia)) as (H1 & H2 & H3). split; [done|]. split; [by apply Forall_rev|]. intros H0.
  destruct (H3 H0) as (d & Hd & Hd0). unfold digits_of. apply last_Some in Hd as [l ->]. exists d, (rev l). by rewrite rev_app_distr.
Qed.

Lemma mc_chars_digit caps d : 0 <= d < 16 -> mc_chars caps !! Z.to_nat d = Some (digit_char caps d).
Proof.
  intros Hd. assert (forallb (fun k => bool_decide (mc_chars caps !! k = Some (digit_char caps (Z.of_nat k)))) (seq 0 16) = true) as H by by destruct caps.
  rewrite forallb_forall in H. specialize (H (Z.to_nat d)). rewrite in_seq in H. specialize (H ltac:(lia)).
  apply bool_decide_eq_true_1 in H. by rewrite Z2Nat.id in H by lia.
Qed.

Lemma mc_digits_ok {S} caps base room : forall n p (s : S), 2 <= base <= 16 -> 0 <= n < base ^ Z.of_nat room ->
  mc_digits room (mc_chars caps) base n p s = Ret ((digit_char caps <$> rev (digits_le (Datatypes.S room) base n)) ++ p, s).
Proof.
  induction room as [|room IH]; intros n p s Hb Hn.
  - assert (n = 0) as -> by (cbn in Hn; lia). done.
  - cbn [mc_digits]. change (digits_le (Datatypes.S (Datatypes.S room)) base n) with
      (if decide (n = 0) then [] else n mod base :: digits_le (Datatypes.S room) base (n / base)).
    destruct (decide (n = 0)) as [->|H0]; [done|].
    pose proof (Z.mod_pos_bound n base ltac:(lia)) as Hm. erewrite mbind_Ret; [|unfold read_nth; by rewrite mc_chars_digit by lia].
    rewrite Nat2Z.inj_succ, Z.pow_succ_r in Hn by lia. rewrite IH; [|done|].
    + cbn [rev]. by rewrite fmap_app, <- app_assoc.
    + split; [apply Z.div_pos; lia|apply Z.div_lt_upper_bound; [lia|]]. lia.
Qed.

Lemma digit_char_range caps d : 0 <= d < 16 -> 48 <= digit_char caps d < 128.
Proof. intros Hd. unfold digit_char. destruct caps; destruct (decide _); lia. Qed.

Lemma number_text_chars base caps n : 2 <= base <= 16 -> 0 <= n < two64 -> Forall (fun c => 48 <= c < 128) (number_text base caps n).
Proof.
  intros Hb Hn. unfold number_text. destruct (decide (n = 0)); [repeat constructor; lia|].
  destruct (digits_of_ok base n ltac:(lia) Hn) as (_ & H & _). apply Forall_fmap. eapply Forall_impl; [exact H|].
  intros d Hd. cbn in Hd |- *. apply digit_char_range. lia.
Qed.

Lemma number_text_no_null base caps n : 2 <= base <= 16 -> 0 <= n < two64 -> 0 ∉ number_text base caps n.
Proof. intros Hb Hn H. pose proof (number_text_chars base caps n Hb Hn) as F. rewrite Forall_forall in F. specialize (F 0 H). cbn in F. lia. Qed.

(** The text of a number that a [long long] can hold, in every base of the code but 2. *)
Lemma unsigned_emits base caps n : 3 <= base <= 16 -> 0 <= n < two64 ->
  emits (mc_unsigned_long_long n base caps) tt (number_text base caps n).
Proof.
  intros Hb Hn. unfold mc_unsigned_long_long. rewrite decide_False by lia. unfold number_text. destruct (decide (n = 0)) as [->|H0]; [apply mc_putc_emits|].
  eapply emits_pure.
  { intros s. apply (mc_digits_ok caps base DIGIT_ROOM n [] s); [lia|]. split; [lia|]. apply (Z.lt_le_trans _ (3 ^ Z.of_nat 63)); [|apply Z.pow_le_mono_l; lia].
    apply (Z.lt_trans _ two64); [lia|done]. }
  rewrite app_nil_r. pose proof (number_text_no_null base caps n ltac:(lia) Hn) as H. unfold number_text in H. rewrite decide_False in H by done.
  apply mc_puts_emits. exact H.
Qed.

(** The sign of a signed number, with the flags for plus and space. *)
Definition sign_chars (plus space : bool) (d : Z) : list Z :=
  (if plus then if decide (d >= 0) then [43] else [] else if space then if decide (d > 0) then [32] else [] else []) ++
  (if decide (d < 0) then [45] else []).

Lemma signed_emits base caps plus space d : 3 <= base <= 16 -> - 2 ^ 63 < d < 2 ^ 63 ->
  emits (mc_signed_long_long d base caps plus space) tt (sign_chars plus space d ++ number_text base caps (Z.abs d)).
Proof.
  intros Hb Hd. unfold mc_signed_long_long, sign_chars. rewrite <- app_assoc. eapply emits_bind.
  { destruct plus; [destruct (decide (d >= 0)); [apply mc_putc_emits|apply emits_ret]|].
    destruct space; [destruct (decide (d > 0)); [apply mc_putc_emits|apply emits_ret]|apply emits_ret]. }
  rewrite decide_False by lia. unfold number_text. destruct (decide (d = 0)) as [->|H0]; [apply mc_putc_emits|].
  rewrite (decide_False (P := Z.abs d = 0)) by lia. eapply emits_bind.
  { instantiate (1 := Z.abs d). destruct (decide (d < 0)).
    - apply mc_putc_then. intros mc t H Hl. unfold wp. rewrite signed_in by (change (2 ^ (64 - 1)) with (2 ^ 63); lia). rewrite app_nil_r. split; [lia|done].
    - replace (Z.abs d) with d by lia. apply emits_ret. }
  eapply emits_pure.
  { intros s. apply (mc_digits_ok caps base DIGIT_ROOM (Z.abs d) [] s); [lia|]. split; [lia|]. apply (Z.lt_le_trans _ (3 ^ Z.of_nat 63)); [|apply Z.pow_le_mono_l; lia].
    apply (Z.lt_trans _ (2 ^ 63)); [lia|done]. }
  rewrite app_nil_r. pose proof (number_text_no_null base caps (Z.abs d) ltac:(lia) ltac:(unfold two64; lia)) as H.
  unfold number_text in H. rewrite decide_False in H by lia. by apply mc_puts_emits.
Qed.

Lemma pad_emits n : forall c w, emits (mc_pad n c w) (w - Z.of_nat n) (replicate n c).
Proof.
  induction n as [|n IH]; intros c w; cbn [mc_pad replicate]; [rewrite Z.sub_0_r; apply emits_ret|].
  replace (w - Z.of_nat (Datatypes.S n)) with (w - 1 - Z.of_nat n) by lia. apply mc_putc_then, IH.
Qed.

(** * Formats *)

(** A directive's argument, with the conversion that prints it. *)
Inductive item :=
| IChar (c : Z) | IInt (d : Z) | ILong (d : Z) | IStr (s : list Z)
| IUint (n : Z) | IUlong (n : Z) | IOct (n : Z) | IUoct (n : Z) | IHex (n : Z) | IHEX (n : Z).

Definition item_conv (x : item) : Z :=
  match x with
  | IChar _ => 99 | IInt _ => 100 | ILong _ => 68 | IStr _ => 115 | IUint _ => 117 | IUlong _ => 85
  | IOct _ => 111 | IUoct _ => 79 | IHex _ => 120 | IHEX _ => 88
  end.

Definition item_arg (x : item) : va :=
  match x with
  | IChar c => VInt c | IInt d => VInt d | ILong d => VLong d | IStr s => VStr s | IUint n => VInt n | IUlong n => VLong n
  | IOct n => VInt n | IUoct n => VLong n | IHex n => VInt n | IHEX n => VLong n
  end.

Definition item_ok (x : item) : Prop :=
  match x with
  | IChar c => 0 <= c < 256
  | IInt d => - 2 ^ 31 <= d < 2 ^ 31
  | ILong d => - 2 ^ 63 < d < 2 ^ 63
  | IStr s => (0 ∉ s) /\ Z.of_nat (length s) < 2 ^ 31
  | IUint n | IOct n | IHex n | IHEX n => 0 <= n < two32
  | IUlong n | IUoct n => 0 <= n < two64
  end.

Definition item_text (o : options) (x : item) : list Z :=
  match x with
  | IChar c => [c]
  | IInt d | ILong d => sign_chars (opt_plus o) (opt_space o) d ++ number_text 10 false (Z.abs d)
  | IStr s => s
  | IUint n | IUlong n => number_text 10 false n
  | IOct n | IUoct n => number_text 8 false n
  | IHex n => number_text 16 false n
  | IHEX n => number_text 16 true n
  end.

Lemma item_emits x o p ap : item_ok x -> emits (mc_convert (item_conv x) o p (item_arg x :: ap)) ap (item_text o x).
Proof.
  assert (forall (m : M mem_chan unit) out, emits m tt out -> emits (m;; mret ap) ap out) as Hthen.
  { intros m out H. rewrite <- (app_nil_r out). eapply emits_bind; [exact H|apply emits_ret]. }
  intros Hx. unfold mc_convert. destruct x as [c|d|d|s|n|n|n|n|n|n]; cbn [item_conv item_arg item_ok item_text] in *;
    repeat (rewrite decide_False by lia); (rewrite decide_True by lia); (eapply emits_pure; [intros s0; reflexivity|]); apply Hthen; cbn [fst].
  - rewrite i32_small by lia. rewrite Z.mod_small by lia. apply mc_putc_emits.
  - rewrite i32_small by lia. apply signed_emits; lia.
  - assert (i64 d = d) as ->. { unfold i64, u64. destruct (decide (0 <= d)).
      - rewrite Z.mod_small by (unfold two64; lia). by rewrite decide_True by lia.
      - replace (d mod two64) with (d + two64) by (apply (Z.mod_unique _ _ (-1)); unfold two64; lia). rewrite decide_False by (unfold two64; lia). lia. }
    apply signed_emits; lia.
  - apply mc_puts_emits. apply Hx.
  - rewrite u32_small by done. apply unsigned_emits; unfold two32, two64 in *; lia.
  - rewrite u64_small by done. apply unsigned_emits; lia.
  - rewrite u32_small by done. apply unsigned_emits; unfold two32, two64 in *; lia.
  - rewrite u64_small by done. apply unsigned_emits; lia.
  - rewrite u32_small by done. apply unsigned_emits; unfold two32, two64 in *; lia.
  - rewrite u64_small, u32_small by (unfold is_u32, two32, two64 in *; lia). apply unsigned_emits; unfold two32, two64 in *; lia.
Qed.

(** What a field looks like: its text, cut to the precision, and filled to the width. *)
Definition field_text (o : options) (width : Z) (prec : option Z) (t : list Z) : list Z :=
  let t := match prec with Some p => take (Z.to_nat p) t | None => t end in
  let fill := Z.to_nat (width - Z.of_nat (length t)) in
  if opt_left_adjust o then t ++ replicate fill 32 else replicate fill (if opt_zero_padding o then 48 else 32) ++ t.

Inductive piece :=
| PText (c : Z)
| PField (o : options) (width : Z) (prec : option Z) (x : item).

Definition render_number (n : Z) : list Z := number_text 10 false n.

(** The directive in the format. *)
Definition render (p : piece) : list Z :=
  match p with
  | PText c => [c]
  | PField o width prec x =>
      37 :: (if opt_zero_padding o then [48] else []) ++ (if opt_left_adjust o then [45] else []) ++
      (if opt_plus o then [43] else []) ++ (if opt_space o then [32] else []) ++
      (if decide (width = 0) then [] else render_number width) ++
      (match prec with Some p => 46 :: render_number p | None => [] end) ++ [item_conv x]
  end.

Definition piece_args (p : piece) : list va :=
  match p with PText _ => [] | PField _ _ _ x => [item_arg x] end.

Definition piece_text (p : piece) : list Z :=
  match p with PText c => [c] | PField o width prec x => field_text o width prec (item_text o x) end.

Definition piece_ok (p : piece) : Prop :=
  match p with
  | PText c => c <> 37
  | PField o width prec x => item_ok x /\ 0 <= width < 2 ^ 31 /\ match prec with Some p => 0 <= p < 2 ^ 31 | None => True end
  end.

(** ** Parsing *)

(** The characters of the format that are no digits, flags or modifiers. *)
Lemma item_conv_plain x : 0 <= item_conv x < 128 /\ ~ 48 <= item_conv x <= 57 /\ item_conv x <> 45 /\ item_conv x <> 43 /\ item_conv x <> 32 /\
  item_conv x <> 46 /\ forall l, skip_modifier (item_conv x :: l) = item_conv x :: l.
Proof. destruct x; cbn [item_conv]; split_and!; (lia || done). Qed.

Lemma isdigit_of {S} c (s : S) : 0 <= c < 128 -> exists d, isdigit (schar c) s = Ret (d, s) /\ (d <> 0 <-> 48 <= c <= 57).
Proof.
  intros Hc. rewrite schar_small by lia. exists (ctype_val c CTYPE_IS_DIGIT). split; [apply ctype_mask_val; lia|apply isdigit_val; lia].
Qed.

Lemma parse_number_ok {S} (arith : Z -> M S Z) c rest : (forall x s, 0 <= x < 2 ^ 31 -> arith x s = Ret (x, s)) ->
  0 <= c < 128 -> ~ 48 <= c <= 57 -> forall ds n s, Forall (fun d => 0 <= d < 10) ds -> 0 <= n -> foldl (fun v d => v * 10 + d) n ds < 2 ^ 31 ->
  parse_number arith n ((digit_char false <$> ds) ++ c :: rest) s = Ret ((foldl (fun v d => v * 10 + d) n ds, c :: rest), s).
Proof.
  intros Ha Hc Hnd ds. induction ds as [|d ds IH]; intros n s F Hn Hv; cbn [fmap list_fmap app parse_number foldl] in *.
  - destruct (isdigit_of c s Hc) as (x & Hx & Hiff). erewrite mbind_Ret by exact Hx. by rewrite decide_False by tauto.
  - apply Forall_cons in F as [Hd F]. assert (digit_char false d = 48 + d) as -> by (unfold digit_char; by rewrite decide_True by lia).
    assert (forall l v, Forall (fun d => 0 <= d < 10) l -> 0 <= v -> v <= foldl (fun v d => v * 10 + d) v l) as Hmono.
    { clear. induction l as [|d l IH]; intros v F Hv; [cbn; lia|]. apply Forall_cons in F as [Hd F]. cbn [foldl]. specialize (IH (v * 10 + d) F ltac:(lia)). lia. }
    pose proof (Hmono ds (n * 10 + d) F ltac:(lia)) as Hle. destruct (isdigit_of (48 + d) s ltac:(lia)) as (x & Hx & Hiff).
    erewrite mbind_Ret by exact Hx. rewrite decide_True by (apply Hiff; lia). erewrite mbind_Ret by (apply Ha; lia).
    rewrite schar_small by lia. replace (n * 10 + (48 + d - 48)) with (n * 10 + d) by lia. erewrite mbind_Ret by (apply Ha; lia). apply IH; [done|lia|done].
Qed.

Lemma parse_rendered {S} (arith : Z -> M S Z) n c rest s : (forall x s, 0 <= x < 2 ^ 31 -> arith x s = Ret (x, s)) ->
  0 <= n < 2 ^ 31 -> 0 <= c < 128 -> ~ 48 <= c <= 57 ->
  parse_number arith 0 (render_number n ++ c :: rest) s = Ret ((n, c :: rest), s).
Proof.
  intros Ha Hn Hc Hnd. unfold render_number, number_text. destruct (decide (n = 0)) as [->|H0].
  - apply (parse_number_ok arith c rest Ha Hc Hnd [0] 0 s); [by repeat constructor|lia|cbn; lia].
  - destruct (digits_of_ok 10 n ltac:(lia) ltac:(unfold two64; lia)) as (Hv & F & _). unfold digits_value in Hv.
    rewrite (parse_number_ok arith c rest Ha Hc Hnd (digits_of 10 n) 0 s F ltac:(lia)) by lia. by rewrite Hv.
Qed.

(** A number that is printed does not begin with a flag. *)
Lemma render_number_head n : 0 < n < 2 ^ 31 -> exists c l, render_number n = c :: l /\ 49 <= c <= 57.
Proof.
  intros Hn. unfold render_number, number_text. rewrite decide_False by lia.
  destruct (digits_of_ok 10 n ltac:(lia) ltac:(unfold two64; lia)) as (_ & F & H). destruct (H ltac:(lia)) as (d & ds & E & Hd).
  rewrite E in *. apply Forall_cons in F as [Hr _]. cbn [fmap list_fmap]. do 2 eexists. split; [done|]. unfold digit_char. rewrite decide_True by lia. lia.
Qed.

Lemma parse_flags_ok o c l : c <> 48 -> c <> 45 -> c <> 43 -> c <> 32 ->
  parse_flags (Options false false false false) ((if opt_zero_padding o then [48] else []) ++ (if opt_left_adjust o then [45] else []) ++
    (if opt_plus o then [43] else []) ++ (if opt_space o then [32] else []) ++ c :: l) = (o, c :: l).
Proof.
  intros. destruct o as [[] [] [] []]; cbn [opt_zero_padding opt_left_adjust opt_plus opt_space app parse_flags];
    by repeat first [rewrite decide_True by done|rewrite decide_False by done].
Qed.

(** ** Output *)

Lemma field_emits c o width prec mc2 t : c <> 102 -> c <> 70 -> mc_holds mc2 t -> Z.of_nat (length t) < 2 ^ 31 -> 0 <= width < 2 ^ 31 ->
  match prec with Some p => 0 <= p < 2 ^ 31 | None => True end ->
  emits (mc_field c o width (default (-1) prec) mc2) tt (field_text o width prec t).
Proof.
  intros Hc1 Hc2 (Hb & Hsz & Ho & Hos & Ht) Hl Hw Hp. unfold mc_field, field_text. rewrite Ho. rewrite i32_small by lia.
  set (p := if decide _ then _ else _). set (t' := match prec with Some _ => _ | None => _ end).
  assert (t' = take (Z.to_nat p) t /\ p = Z.of_nat (length t')) as [Et Ep].
  { unfold t', p. destruct prec as [p0|]; cbn [default from_option id].
    - destruct (decide (p0 < 0)); [lia|]. destruct (decide (Z.of_nat (length t) < p0)); [|rewrite length_take; split; [done|lia]].
      rewrite Nat2Z.id, length_take. split; [|lia]. by rewrite !take_ge by lia.
    - rewrite decide_True by lia. rewrite Nat2Z.id. by rewrite take_ge by lia. }
  rewrite <- Ep. assert (Z.to_nat (i32 width - p) = Z.to_nat (width - p)) as Ew by (rewrite i32_small by lia; done). cbv zeta. rewrite Ew.
  assert (emits (mc_put (mc_buf mc2) (if decide (c = 102 \/ c = 70) then Z.of_nat (length t) else u32 p)) tt t') as Hput.
  { rewrite decide_False by tauto. assert (0 <= p <= Z.of_nat (length t)) as Hpb by (rewrite Ep, Et, length_take; lia).
    rewrite u32_small by (unfold is_u32, two32; lia).
    replace t' with (take (Z.to_nat p) (mc_buf mc2)); [apply mc_put_emits; lia|].
    rewrite Et, <- Ht. unfold mc_text. rewrite take_take. f_equal. lia. }
  destruct (opt_left_adjust o).
  - eapply emits_pure; [intros s; reflexivity|]. rewrite Ew. eapply emits_bind; [exact Hput|]. rewrite <- (app_nil_r (replicate _ _)).
    eapply emits_bind; [apply pad_emits|apply emits_ret].
  - set (n := Z.to_nat (width - p)). eapply emits_bind; [apply pad_emits|]. rewrite <- (app_nil_r t'). eapply emits_bind; [exact Hput|].
    replace (Z.to_nat (i32 (width - Z.of_nat n) - p)) with 0%nat by (unfold n; rewrite i32_small by lia; lia).
    cbn [mc_pad]. eapply emits_pure; [intros s; reflexivity|]. apply emits_ret.
Qed.

(** A computation on a new channel. *)
Lemma on_new_emits {A B} (m : M mem_chan A) (k : A * mem_chan -> M mem_chan B) a b t out :
  emits m a t -> Z.of_nat (length t) < two32 -> (forall mc2, mc_holds mc2 t -> emits (k (a, mc2)) b out) -> emits (mbind k (on_new m)) b out.
Proof.
  intros Hm Hl Hk mc u H Hlen. pose proof (Hm mc_alloc [] alloc_holds Hl) as H2. unfold wp in H2. step. unfold wp at 1, on_new.
  destruct (m mc_alloc) as [[x mc2]| | |]; try done. destruct H2 as [-> H2]. by apply (Hk mc2 H2).
Qed.

Definition args_of (ps : list piece) : list va := concat (map piece_args ps).

(** The items' texts fit an int. *)
Lemma item_text_length o x : item_ok x -> Z.of_nat (length (item_text o x)) < 2 ^ 31.
Proof.
  assert (forall base caps n, 2 <= base <= 16 -> 0 <= n < two64 -> Z.of_nat (length (number_text base caps n)) <= 64) as Hn.
  { intros base caps n Hb Hn. unfold number_text, digits_of. destruct (decide (n = 0)); [cbn; lia|]. rewrite length_fmap, length_rev.
    assert (forall fuel v, (length (digits_le fuel base v) <= fuel)%nat) as H.
    { induction fuel as [|fuel IH]; intros v; cbn [digits_le]; [done|]. destruct (decide (v = 0)); [cbn; lia|]. cbn [length]. specialize (IH (v / base)). lia. }
    specialize (H 64%nat n). lia. }
  assert (forall plus space d, (length (sign_chars plus space d) <= 2)%nat) as Hs by (intros [] [] d; unfold sign_chars; repeat destruct (decide _); cbn; lia).
  intros Hx. destruct x; cbn [item_ok item_text] in *; try (rewrite length_app; specialize (Hs (opt_plus o) (opt_space o) d));
    try match goal with |- context [number_text ?b ?c ?n] => specialize (Hn b c n ltac:(lia) ltac:(unfold two32, two64 in *; lia)) end; cbn; lia.
Qed.

(** ** Directives *)

Lemma parse_precision_number {S} d l ap (s : S) : d <> 42 ->
  parse_precision (46 :: d :: l) ap s = (x ← parse_number (signed 32) 0 (d :: l); mret (x.1, x.2, ap)) s.
Proof. intros H. destruct d as [|p|p]; try reflexivity. do 6 (destruct p as [p|p|]; try reflexivity). done. Qed.

Lemma parse_precision_ok {S} prec x rest ap (s : S) : match prec with Some p => 0 <= p < 2 ^ 31 | None => True end ->
  parse_precision ((match prec with Some p => 46 :: render_number p | None => [] end) ++ item_conv x :: rest) ap s =
  Ret ((default (-1) prec, item_conv x :: rest, ap), s).
Proof.
  intros Hp. destruct (item_conv_plain x) as (H1 & H2 & _). destruct prec as [p|]; [|by destruct x]. cbn [app default from_option id].
  assert (exists d l, render_number p = d :: l /\ d <> 42) as (d & l & E & Hd).
  { destruct (decide (p = 0)) as [->|H0]; [by exists 48, []|]. destruct (render_number_head p ltac:(lia)) as (d & l & E & Hd). exists d, l. split; [done|lia]. }
  rewrite E. cbn [app]. rewrite parse_precision_number by done. change (d :: l ++ item_conv x :: rest) with ((d :: l) ++ item_conv x :: rest). rewrite <- E.
  erewrite mbind_Ret; [|apply parse_rendered; [|done|done|done]]; [done|].
  intros v s' Hv. apply signed_in. change (2 ^ (32 - 1)) with (2 ^ 31). lia.
Qed.

Definition directive_rest (width : Z) (prec : option Z) (l : list Z) : list Z :=
  (if decide (width = 0) then [] else render_number width) ++ (match prec with Some p => 46 :: render_number p | None => [] end) ++ l.

Lemma parse_width_ok {S} width prec x rest (s : S) : 0 <= width < 2 ^ 31 ->
  parse_number (fun x => mret (u32 x)) 0 (directive_rest width prec (item_conv x :: rest)) s =
  Ret ((width, (match prec with Some p => 46 :: render_number p | None => [] end) ++ item_conv x :: rest), s).
Proof.
  intros Hw. destruct (item_conv_plain x) as (H1 & H2 & _). unfold directive_rest.
  assert (exists c l, (match prec with Some p => 46 :: render_number p | None => [] end) ++ item_conv x :: rest = c :: l /\ 0 <= c < 128 /\ ~ 48 <= c <= 57)
    as (c & l & -> & Hc & Hnd) by (destruct prec; cbn [app]; do 2 eexists; split; [done|lia|done|done]).
  assert (forall x (s : S), 0 <= x < 2 ^ 31 -> @mret _ M_ret _ (u32 x) s = Ret (x, s)) as Ha by (intros v s' Hv; unfold mret, M_ret; by rewrite u32_small by (unfold is_u32, two32; lia)).
  destruct (decide (width = 0)) as [->|H0]; [|by apply parse_rendered].
  apply (parse_number_ok _ c l Ha Hc Hnd [] 0 s); [constructor|lia|cbn; lia].
Qed.

Lemma directive_rest_head width prec x rest : 0 <= width < 2 ^ 31 ->
  exists c l, directive_rest width prec (item_conv x :: rest) = c :: l /\ c <> 48 /\ c <> 45 /\ c <> 43 /\ c <> 32.
Proof.
  intros Hw. destruct (item_conv_plain x) as (H1 & H2 & H3 & H4 & H5 & _). unfold directive_rest. destruct (decide (width = 0)) as [->|H0].
  - destruct prec; cbn [app]; do 2 eexists; (split; [done|]); split_and!; (done || lia).
  - destruct (render_number_head width ltac:(lia)) as (c & l & -> & Hc). cbn [app]. do 2 eexists. split; [done|]. lia.
Qed.

Lemma vprintf_loop_ok ps : forall fuel, Forall piece_ok ps -> (length (concat (map render ps)) < fuel)%nat ->
  emits (vprintf_loop fuel (concat (map render ps)) (args_of ps)) tt (concat (map piece_text ps)).
Proof.
  induction ps as [|p ps IH]; intros [|fuel] F Hf; cbn [map concat] in *; try lia; [apply emits_ret|].
  apply Forall_cons in F as [Hp F]. rewrite length_app in Hf. unfold args_of. cbn [map concat]. fold (args_of ps).
  destruct p as [c|o width prec x]; cbn [render piece_args piece_text app] in *.
  - cbn [vprintf_loop]. rewrite decide_True by done. apply mc_putc_then. apply IH; [done|cbn in Hf; lia].
  - destruct Hp as (Hx & Hw & Hpr). rewrite <- !app_assoc. cbn [app]. set (rest := concat (map render ps)) in *.
    cbn [vprintf_loop]. rewrite decide_False by (intros H; by apply H).
    change ((if decide (width = 0) then [] else render_number width) ++ (match prec with Some p => 46 :: render_number p | None => [] end) ++ item_conv x :: rest)
      with (directive_rest width prec (item_conv x :: rest)).
    destruct (directive_rest_head width prec x rest Hw) as (c & l & E & Hc1 & Hc2 & Hc3 & Hc4).
    assert (parse_flags (Options false false false false) ((if opt_zero_padding o then [48] else []) ++ (if opt_left_adjust o then [45] else []) ++
      (if opt_plus o then [43] else []) ++ (if opt_space o then [32] else []) ++ directive_rest width prec (item_conv x :: rest)) =
      (o, directive_rest width prec (item_conv x :: rest))) as -> by (rewrite E; by apply parse_flags_ok).
    eapply emits_pure; [intros s; by apply parse_width_ok|]. cbn [fst snd].
    eapply emits_pure; [intros s; by apply parse_precision_ok|]. destruct (item_conv_plain x) as (_ & _ & _ & _ & _ & _ & ->).
    eapply on_new_emits; [by apply item_emits|pose proof (item_text_length o x Hx); unfold two32; lia|]. intros mc2 Hmc2. cbn [fst snd].
    eapply emits_bind; [|apply IH; [done|]].
    + apply field_emits; [destruct x; done|destruct x; done|done|by apply item_text_length|done|done].
    + cbn [length] in Hf. rewrite !length_app in Hf. cbn [length] in Hf. lia.
Qed.

Lemma decimal_digits ds : decimal_value 0 ds = digits_value 10 ds.
Proof. unfold decimal_value, digits_value. generalize 0. induction ds as [|d ds IH]; intros v; [done|]. apply IH. Qed.

Lemma field_text_plain o t : field_text o 0 None t = t.
Proof.
  unfold field_text. cbv zeta. replace (Z.to_nat (0 - Z.of_nat (length t))) with 0%nat by lia. destruct (opt_left_adjust o); [apply app_nil_r|done].
Qed.

(** * Properties *)

(** C16. Formatted output is what its format describes: for any sequence of characters
    and directives with any flags, width and precision, a conversion of characters,
    strings, and signed and unsigned numbers in decimal, octal and hexadecimal, and the
    arguments that belong to them, [mc_vprintf] parses the format back into the directives
    and appends the field of each: the text of the argument, cut to the precision, with
    the sign the flags ask for, and filled to the width on the side they say. *)
Theorem mc_vprintf_correct (ps : list piece) (mc : mem_chan) (t : list Z) : Forall piece_ok ps -> mc_holds mc t ->
  Z.of_nat (length t + length (concat (map piece_text ps))) < two32 ->
  wp (mc_vprintf (concat (map render ps)) (args_of ps)) mc (fun _ mc' => mc_holds mc' (t ++ concat (map piece_text ps))).
Proof.
  intros F Hmc Hl. eapply wp_mono; [apply (vprintf_loop_ok ps _ F (Nat.lt_succ_diag_r _) mc t Hmc); lia|]. by intros [] mc' [_ H].
Qed.

(** "%-6d|%05x|%+.2s" with -42, 255 and "abc". *)
Definition wit_pieces : list piece :=
  [PField (Options false true false false) 6 None (IInt (-42)); PText 124; PField (Options true false false false) 5 None (IHex 255); PText 124;
   PField (Options false false true false) 0 (Some 2) (IStr [97; 98; 99])].

Lemma mc_vprintf_correct_witness :
  wp (mc_vprintf [37; 45; 54; 100; 124; 37; 48; 53; 120; 124; 37; 43; 46; 50; 115] [VInt (-42); VInt 255; VStr [97; 98; 99]]) mc_alloc
    (fun _ mc => mc_text mc = [45; 52; 50; 32; 32; 32; 124; 48; 48; 48; 102; 102; 124; 97; 98]).
Proof.
  eapply wp_mono; [apply (mc_vprintf_correct wit_pieces mc_alloc [])|].
  - repeat constructor; try (vm_compute; congruence). intros H. rewrite !elem_of_cons, elem_of_nil in H. lia.
  - by split_and!.
  - reflexivity.
  - intros [] mc (_ & _ & _ & _ & H). exact H.
Defined.



(** What is undefined after some output. *)
Lemma emits_undef {A B} (m : M mem_chan A) (k : A -> M mem_chan B) a out mc t : emits m a out -> mc_holds mc t ->
  Z.of_nat (length t + length out) < two32 -> (forall mc', mc_holds mc' (t ++ out) -> k a mc' = Undef) -> mbind k m mc = Undef.
Proof.
  intros Hm Hmc Hl Hk. specialize (Hm mc t Hmc Hl). unfold wp in Hm. unfold mbind, M_bind. destruct (m mc) as [[x mc']| | |]; try done.
  destruct Hm as [-> Hm]. by apply Hk.
Qed.

(** Printing an infinity is undefined: after "inf" the function goes on with the digits
    and converts it to an integer. So is printing the smallest [long], whose sign is
    changed. *)
Lemma print_infinity_undef (precision : Z) (s caps plus space : bool) (mc : mem_chan) (t : list Z) :
  mc_holds mc t -> Z.of_nat (length t) + 5 < two32 ->
  mc_signed_double (S754_infinity s) precision caps plus space mc = Undef /\
  mc_signed_long_long (- 2 ^ 63) 10 caps plus space mc = Undef.
Proof.
  intros Hmc Hl. split.
  - unfold mc_signed_double. cbv zeta. eapply (emits_undef _ _ tt (if plus then if s then [] else [43] else if space then if s then [] else [32] else [])); [|exact Hmc|destruct plus, space, s; cbn; lia|].
    { destruct plus, space, s; cbn; (apply mc_putc_emits || apply emits_ret). }
    intros mc1 H1. replace (SFeqb (S754_infinity s) (S754_zero false)) with false by by destruct s. cbn [isnan].
    eapply (emits_undef _ _ (S754_infinity false) (if s then [45] else [])); [|exact H1|rewrite length_app; destruct plus, space, s; cbn; lia|].
    { destruct s; cbn; [apply mc_putc_then, emits_ret|apply emits_ret]. }
    intros mc2 H2. cbn [isfinite negb].
    eapply (emits_undef _ _ tt (if caps then [73; 78; 70] else [105; 110; 102])); [|exact H2|rewrite !length_app; destruct plus, space, s, caps; cbn; lia|].
    { destruct caps; apply mc_puts_emits; rewrite !elem_of_cons, elem_of_nil; lia. }
    intros mc3 _. cbn [modf]. apply mbind_Undef. unfold d_to_uint. by rewrite decide_False by (intros [Hf _]; discriminate).
  - unfold mc_signed_long_long. eapply (emits_undef _ _ tt []); [|exact Hmc|cbn; lia|].
    { destruct plus, space; cbn; apply emits_ret. }
    intros mc1 H1. rewrite decide_False by lia. rewrite decide_False by lia. apply mbind_Undef. rewrite decide_True by lia.
    eapply (emits_undef _ _ tt [45]); [apply mc_putc_emits|exact H1|rewrite !length_app; cbn; lia|]. intros mc2 _. by apply signed_out.
Qed.

Lemma print_infinity_undef_witness :
  mc_signed_double (S754_infinity true) 2 false false false mc_alloc = Undef /\ mc_signed_long_long (- 2 ^ 63) 10 false false false mc_alloc = Undef.
Proof. apply (print_infinity_undef 2 true false false false mc_alloc []); [apply alloc_holds|reflexivity]. Defined.

(** What a format with one number prints. *)
Definition printed (fmt : list Z) (x : double) : option (list Z) :=
  match mc_vprintf fmt [VDouble x] mc_alloc with Ret (_, mc) => Some (mc_text mc) | _ => None end.

(** 3.5 with %f, -0.0625 with %.3f, which is rounded away from zero, and 1.75 with %.0f,
    which is cut: C rounds it to 2. *)
Example print_doubles :
  printed [37; 102] (binary_normalize 53 1024 7 (-1) false) = Some [51; 46; 53; 48; 48; 48; 48; 48] /\
  printed [37; 46; 51; 102] (binary_normalize 53 1024 (-1) (-4) false) = Some [45; 48; 46; 48; 54; 51] /\
  printed [37; 46; 48; 102] (binary_normalize 53 1024 7 (-2) false) = Some [49].
Proof. by vm_compute. Qed.
