(* ===== verification/Sha256.v ===== *)
(** src/src/lib/sha256.c and h/egos/sha256.h: SHA-256, which the code computes
    piece by piece in words of type [uint32]. That type is an [unsigned long
    int], of 64 bits on the platforms of this repository, so its words carry
    garbage in the upper half; the digest is that of the standard all the same. *)
From stdpp Require Import base numbers list.
From Stdlib Require Import ZArith Lia Btauto.
From coqutil Require Import Byte Word.LittleEndianList.
From S2P Require Import Prelude.

Local Abbreviation byte := Init.Byte.byte.

#[local] Instance byte_inhabited : Inhabited byte := populate Init.Byte.x00.

(** * The code *)

Record sha256_context := Sha256Context {
  sc_total : Z * Z;
  sc_state : list Z;
  sc_buffer : list byte;
}.

(** [GET_UINT32] and [PUT_UINT32]: big-endian words in memory. *)
Definition GET_UINT32 (b : list byte) (i : nat) : Z :=
  let at_ j := byte.unsigned (b !!! (i + j)%nat) in
  Z.lor (Z.lor (Z.lor (u64 (Z.shiftl (at_ 0%nat) 24)) (u64 (Z.shiftl (at_ 1%nat) 16)))
    (u64 (Z.shiftl (at_ 2%nat) 8))) (at_ 3%nat).

Definition PUT_UINT32 (n : Z) : list byte :=
  [byte.of_Z (Z.shiftr n 24); byte.of_Z (Z.shiftr n 16); byte.of_Z (Z.shiftr n 8); byte.of_Z n].

(** The contents of the context before the call are [buf]. *)
Definition sha256_starts (buf : list byte) : sha256_context :=
  Sha256Context (0, 0)
    [0x6A09E667; 0xBB67AE85; 0x3C6EF372; 0xA54FF53A; 0x510E527F; 0x9B05688C; 0x1F83D9AB; 0x5BE0CD19] buf.

Definition SHR (x n : Z) : Z := Z.shiftr (Z.land x 0xFFFFFFFF) n.
Definition ROTR (x n : Z) : Z := Z.lor (SHR x n) (u64 (Z.shiftl x (32 - n))).

Definition S0 (x : Z) : Z := Z.lxor (Z.lxor (ROTR x 7) (ROTR x 18)) (SHR x 3).
Definition S1 (x : Z) : Z := Z.lxor (Z.lxor (ROTR x 17) (ROTR x 19)) (SHR x 10).
Definition S2 (x : Z) : Z := Z.lxor (Z.lxor (ROTR x 2) (ROTR x 13)) (ROTR x 22).
Definition S3 (x : Z) : Z := Z.lxor (Z.lxor (ROTR x 6) (ROTR x 11)) (ROTR x 25).
Definition F0 (x y z : Z) : Z := Z.lor (Z.land x y) (Z.land z (Z.lor x y)).
Definition F1 (x y z : Z) : Z := Z.lxor z (Z.land x (Z.lxor y z)).

(** The value of [R(t)], which goes to [W[t]]. *)
Definition R (W : list Z) (t : nat) : Z :=
  u64 (S1 (W !!! (t - 2)%nat) + W !!! (t - 7)%nat + S0 (W !!! (t - 15)%nat) + W !!! (t - 16)%nat).

(** The calls of [P] permute their arguments: in round [t] its parameter [j] of
    [a, ..., h] is the variable number [var t j] of [A, ..., H]. *)
Definition var (t j : nat) : nat := ((j + 7 * t) mod 8)%nat.

Definition P (vs : list Z) (t : nat) (x K : Z) : list Z :=
  let v j := vs !!! var t j in
  let temp1 := u64 (v 7%nat + S3 (v 4%nat) + F1 (v 4%nat) (v 5%nat) (v 6%nat) + K + x) in
  let temp2 := u64 (S2 (v 0%nat) + F0 (v 0%nat) (v 1%nat) (v 2%nat)) in
  <[var t 7 := u64 (temp1 + temp2)]> (<[var t 3 := u64 (v 3%nat + temp1)]> vs).

(** The constants of the calls of [P]. *)
Definition sha256_K : list Z :=
  [0x428A2F98; 0x71374491; 0xB5C0FBCF; 0xE9B5DBA5; 0x3956C25B; 0x59F111F1; 0x923F82A4; 0xAB1C5ED5;
   0xD807AA98; 0x12835B01; 0x243185BE; 0x550C7DC3; 0x72BE5D74; 0x80DEB1FE; 0x9BDC06A7; 0xC19BF174;
   0xE49B69C1; 0xEFBE4786; 0x0FC19DC6; 0x240CA1CC; 0x2DE92C6F; 0x4A7484AA; 0x5CB0A9DC; 0x76F988DA;
   0x983E5152; 0xA831C66D; 0xB00327C8; 0xBF597FC7; 0xC6E00BF3; 0xD5A79147; 0x06CA6351; 0x14292967;
   0x27B70A85; 0x2E1B2138; 0x4D2C6DFC; 0x53380D13; 0x650A7354; 0x766A0ABB; 0x81C2C92E; 0x92722C85;
   0xA2BFE8A1; 0xA81A664B; 0xC24B8B70; 0xC76C51A3; 0xD192E819; 0xD6990624; 0xF40E3585; 0x106AA070;
   0x19A4C116; 0x1E376C08; 0x2748774C; 0x34B0BCB5; 0x391C0CB3; 0x4ED8AA4A; 0x5B9CCA4F; 0x682E6FF3;
   0x748F82EE; 0x78A5636F; 0x84C87814; 0x8CC70208; 0x90BEFFFA; 0xA4506CEB; 0xBEF9A3F7; 0xC67178F2].

(** Round [t]: from the 17th on the next word of [W] is computed on the way. *)
Definition sha256_round (st : list Z * list Z) (t : nat) : list Z * list Z :=
  let '(vs, W) := st in
  let W := if decide (t < 16)%nat then W else W ++ [R W t] in
  (P vs t (W !!! t) (sha256_K !!! t), W).

Definition sha256_process (ctx : sha256_context) (data : list byte) : sha256_context :=
  let W := map (fun i => GET_UINT32 data (4 * i)) (seq 0 16) in
  let '(vs, _) := fold_left sha256_round (seq 0 64) (sc_state ctx, W) in
  Sha256Context (sc_total ctx) (zip_with (fun s v => u64 (s + v)) (sc_state ctx) vs) (sc_buffer ctx).

(** [memcpy(buffer + left, input, n)]. *)
Definition buffer_copy (left n : nat) (input : list byte) (ctx : sha256_context) : sha256_context :=
  Sha256Context (sc_total ctx) (sc_state ctx)
    (take left (sc_buffer ctx) ++ take n input ++ drop (left + n) (sc_buffer ctx)).

(** [while (length >= 64)]; the input is as long as [length] says. *)
Fixpoint process_blocks (fuel : nat) (ctx : sha256_context) (input : list byte) : sha256_context * list byte :=
  if decide (length input < 64)%nat then (ctx, input) else
  match fuel with
  | O => (ctx, input)
  | S fuel => process_blocks fuel (sha256_process ctx (take 64 input)) (drop 64 input)
  end.

Definition add_total (total : Z * Z) (length : Z) : Z * Z :=
  let t0 := Z.land (u64 (total.1 + length)) 0xFFFFFFFF in
  (t0, if decide (t0 < length) then u64 (total.2 + 1) else total.2).

Definition sha256_update (ctx : sha256_context) (input : list byte) : sha256_context :=
  if decide (input = []) then ctx else
  let left := Z.to_nat (Z.land (sc_total ctx).1 0x3F) in
  let fill := (64 - left)%nat in
  let ctx := Sha256Context (add_total (sc_total ctx) (Z.of_nat (length input))) (sc_state ctx) (sc_buffer ctx) in
  let '(ctx, left', input) :=
    if decide (left <> 0 /\ fill <= length input)%nat then
      let ctx := buffer_copy left fill input ctx in
      (sha256_process ctx (sc_buffer ctx), 0%nat, drop fill input)
    else (ctx, left, input) in
  let '(ctx, input) := process_blocks (length input) ctx input in
  if decide (input = []) then ctx else buffer_copy left' (length input) input ctx.

Definition sha256_padding : list byte := byte.of_Z 0x80 :: replicate 63 (byte.of_Z 0).

Definition sha256_finish (ctx : sha256_context) : list byte :=
  let '(t0, t1) := sc_total ctx in
  let high := Z.lor (Z.shiftr t0 29) (u64 (Z.shiftl t1 3)) in
  let low := u64 (Z.shiftl t0 3) in
  let msglen := PUT_UINT32 high ++ PUT_UINT32 low in
  let last := Z.land t0 0x3F in
  let padn := if decide (last < 56) then 56 - last else 120 - last in
  let ctx := sha256_update ctx (take (Z.to_nat padn) sha256_padding) in
  let ctx := sha256_update ctx msglen in
  mbind PUT_UINT32 (sc_state ctx).

(** * The standard (FIPS 180-4) *)

Definition word (x : Z) : Z := x mod 2 ^ 32.

Definition rotr (n x : Z) : Z := Z.lor (Z.shiftr x n) (word (Z.shiftl x (32 - n))).
Definition Ch (x y z : Z) : Z := Z.lxor (Z.land x y) (Z.land (word (Z.lnot x)) z).
Definition Maj (x y z : Z) : Z := Z.lxor (Z.lxor (Z.land x y) (Z.land x z)) (Z.land y z).
Definition Sigma0 (x : Z) : Z := Z.lxor (Z.lxor (rotr 2 x) (rotr 13 x)) (rotr 22 x).
Definition Sigma1 (x : Z) : Z := Z.lxor (Z.lxor (rotr 6 x) (rotr 11 x)) (rotr 25 x).
Definition sigma0 (x : Z) : Z := Z.lxor (Z.lxor (rotr 7 x) (rotr 18 x)) (Z.shiftr x 3).
Definition sigma1 (x : Z) : Z := Z.lxor (Z.lxor (rotr 17 x) (rotr 19 x)) (Z.shiftr x 10).

Definition primes : list Z :=
  [2; 3; 5; 7; 11; 13; 17; 19; 23; 29; 31; 37; 41; 43; 47; 53; 59; 61; 67; 71; 73; 79; 83; 89; 97; 101; 103;
   107; 109; 113; 127; 131; 137; 139; 149; 151; 157; 163; 167; 173; 179; 181; 191; 193; 197; 199; 211; 223;
   227; 229; 233; 239; 241; 251; 257; 263; 269; 271; 277; 281; 283; 293; 307; 311].

(** The integer part of the cube root, bit by bit from [2^n] down. *)
Fixpoint cbrt (n : nat) (x r : Z) : Z :=
  let r' := r + 2 ^ Z.of_nat n in
  let r := if decide (r' * r' * r' <= x) then r' else r in
  match n with O => r | S n => cbrt n x r end.

(** The first 32 bits of the fractional parts of the cube roots of the first 64
    primes, and of the square roots of the first eight. *)
Definition fips_K : list Z := map (fun p => word (cbrt 36 (p * 2 ^ 96) 0)) primes.
Definition fips_H : list Z := map (fun p => word (Z.sqrt (p * 2 ^ 64))) (take 8 primes).

(** The message schedule: [n] more words. *)
Fixpoint schedule (n : nat) (W : list Z) : list Z :=
  match n with
  | O => W
  | S n =>
      let t := length W in
      schedule n (W ++ [word (sigma1 (W !!! (t - 2)%nat) + W !!! (t - 7)%nat +
                              sigma0 (W !!! (t - 15)%nat) + W !!! (t - 16)%nat)])
  end.

Definition fips_round (r : list Z) (wk : Z * Z) : list Z :=
  match r with
  | [a; b; c; d; e; f; g; h] =>
      let T1 := h + Sigma1 e + Ch e f g + wk.2 + wk.1 in
      let T2 := Sigma0 a + Maj a b c in
      [word (T1 + T2); a; b; c; word (d + T1); e; f; g]
  | _ => r
  end.

(** Big-endian numbers; a block is 16 words of four bytes. *)
Definition be (l : list byte) : Z := le_combine (reverse l).

Definition block_words (b : list byte) : list Z :=
  map (fun i => be (take 4 (drop (4 * i) b))) (seq 0 16).

Definition fips_compress (H : list Z) (b : list byte) : list Z :=
  zip_with (fun x y => word (x + y)) H
    (fold_left fips_round (zip (schedule 48 (block_words b)) fips_K) H).

Definition fips_pad (m : list byte) : list byte :=
  m ++ [byte.of_Z 0x80] ++ replicate ((119 - length m mod 64) mod 64) (byte.of_Z 0)
    ++ reverse (le_split 8 (8 * Z.of_nat (length m))).

(** The blocks of 64 bytes of a list; a shorter rest is dropped. *)
Fixpoint blocks (n : nat) (l : list byte) : list (list byte) :=
  match n with O => [] | S n => take 64 l :: blocks n (drop 64 l) end.

Definition full_blocks (l : list byte) : list (list byte) := blocks (length l / 64) l.

Definition fips_sha256 (m : list byte) : list byte :=
  mbind (fun x => reverse (le_split 4 x)) (fold_left fips_compress (full_blocks (fips_pad m)) fips_H).

(** The tables of the code are those of the standard. *)
Lemma constants_ok : sha256_K = fips_K /\ sc_state (sha256_starts []) = fips_H.
Proof. split; vm_compute; reflexivity. Qed.

(** * Words modulo 2^32 *)

(** The low 32 bits are the same. *)
Record eq32 (x y : Z) : Prop := Eq32 {
  eq32_bits : forall i, 0 <= i < 32 -> Z.testbit x i = Z.testbit y i
}.

#[export] Instance eq32_equiv : Equivalence eq32.
Proof.
  split; [done|by intros x y [H]; constructor; intros i Hi; rewrite H|].
  intros x y z [H1] [H2]. constructor. intros i Hi. by rewrite H1, H2.
Qed.

Lemma eq32_iff x y : eq32 x y <-> word x = word y.
Proof.
  unfold word. split.
  - intros [H]. apply Z.bits_inj'. intros i Hi. destruct (decide (i < 32)).
    + rewrite !Z.mod_pow2_bits_low by lia. apply H. lia.
    + by rewrite !Z.mod_pow2_bits_high by lia.
  - intros H. constructor. intros i Hi. apply (f_equal (fun z => Z.testbit z i)) in H.
    rewrite !Z.mod_pow2_bits_low in H by lia. exact H.
Qed.

Lemma word_eq32 x : eq32 (word x) x.
Proof. apply eq32_iff, Z.mod_mod. lia. Qed.

Lemma u64_eq32 x : eq32 (u64 x) x.
Proof.
  apply eq32_iff. unfold word, u64. change two64 with (2 ^ 32 * 2 ^ 32).
  rewrite Z.rem_mul_r by lia. rewrite Z.mul_comm, Z.mod_add by lia. apply Z.mod_mod. lia.
Qed.

Lemma land_word x : Z.land x 0xFFFFFFFF = word x.
Proof. unfold word. rewrite <- Z.land_ones by lia. reflexivity. Qed.

#[export] Instance add_eq32 : Proper (eq32 ==> eq32 ==> eq32) Z.add.
Proof.
  intros x x' Hx%eq32_iff y y' Hy%eq32_iff. apply eq32_iff. unfold word in *.
  by rewrite Z.add_mod, Hx, Hy, <- Z.add_mod by lia.
Qed.

#[export] Instance word_proper : Proper (eq32 ==> eq32) word.
Proof. intros x y H. by rewrite !word_eq32. Qed.

(** The bitwise operators work bit by bit. *)
Ltac by_bits lemma :=
  intros x x' [Hx] y y' [Hy]; constructor; intros i Hi; by rewrite !lemma, Hx, Hy by done.

#[export] Instance lxor_eq32 : Proper (eq32 ==> eq32 ==> eq32) Z.lxor.
Proof. by_bits Z.lxor_spec. Qed.
#[export] Instance lor_eq32 : Proper (eq32 ==> eq32 ==> eq32) Z.lor.
Proof. by_bits Z.lor_spec. Qed.
#[export] Instance land_eq32 : Proper (eq32 ==> eq32 ==> eq32) Z.land.
Proof. by_bits Z.land_spec. Qed.

#[export] Instance lnot_eq32 : Proper (eq32 ==> eq32) Z.lnot.
Proof. intros x y [H]. constructor. intros i Hi. by rewrite !Z.lnot_spec, H by lia. Qed.

Lemma shiftl_eq32 x y n : 0 <= n -> eq32 x y -> eq32 (Z.shiftl x n) (Z.shiftl y n).
Proof.
  intros Hn [H]. constructor. intros i Hi. rewrite !Z.shiftl_spec by lia.
  destruct (decide (i < n)); [by rewrite !Z.testbit_neg_r by lia|]. apply H. lia.
Qed.

(** ** The functions of the code and those of the standard *)

Lemma SHR_word x n : SHR x n = Z.shiftr (word x) n.
Proof. unfold SHR. by rewrite land_word. Qed.

Lemma ROTR_eq32 x n : 0 <= n <= 32 -> eq32 (ROTR x n) (rotr n (word x)).
Proof.
  intros Hn. unfold ROTR, rotr. rewrite SHR_word. apply lor_eq32; [done|].
  rewrite u64_eq32. transitivity (Z.shiftl (word x) (32 - n)).
  - apply shiftl_eq32; [lia|]. symmetry. apply word_eq32.
  - symmetry. apply word_eq32.
Qed.

Lemma S0_eq32 x : eq32 (S0 x) (sigma0 (word x)).
Proof. unfold S0, sigma0. by rewrite SHR_word, !ROTR_eq32 by lia. Qed.
Lemma S1_eq32 x : eq32 (S1 x) (sigma1 (word x)).
Proof. unfold S1, sigma1. by rewrite SHR_word, !ROTR_eq32 by lia. Qed.
Lemma S2_eq32 x : eq32 (S2 x) (Sigma0 (word x)).
Proof. unfold S2, Sigma0. by rewrite !ROTR_eq32 by lia. Qed.
Lemma S3_eq32 x : eq32 (S3 x) (Sigma1 (word x)).
Proof. unfold S3, Sigma1. by rewrite !ROTR_eq32 by lia. Qed.

Lemma F0_eq32 x y z : eq32 (F0 x y z) (Maj (word x) (word y) (word z)).
Proof.
  unfold Maj. rewrite !word_eq32. unfold F0. constructor. intros i Hi.
  rewrite !Z.lxor_spec, !Z.lor_spec, !Z.land_spec, !Z.lor_spec. btauto.
Qed.

Lemma F1_eq32 x y z : eq32 (F1 x y z) (Ch (word x) (word y) (word z)).
Proof.
  unfold Ch. rewrite !word_eq32. unfold F1. constructor. intros i Hi.
  rewrite !Z.lxor_spec, !Z.land_spec, !Z.lxor_spec, Z.lnot_spec by lia. btauto.
Qed.

(** * Rounds *)

(** The variables of the code hold the words of the standard, in their rotated
    places and with garbage above bit 32. *)
Definition vars_ok (t : nat) (vs rs : list Z) : Prop :=
  length vs = 8%nat /\ length rs = 8%nat /\
  forall j, (j < 8)%nat -> rs !!! j = word (vs !!! var t j).

Lemma var_lt t j : (var t j < 8)%nat.
Proof. apply Nat.mod_upper_bound. lia. Qed.

Lemma var_inj t j k : (j < 8)%nat -> (k < 8)%nat -> var t j = var t k -> j = k.
Proof.
  unfold var. intros Hj Hk H.
  pose proof (Nat.div_mod_eq (j + 7 * t) 8). pose proof (Nat.div_mod_eq (k + 7 * t) 8). lia.
Qed.

Lemma var_S t j : (j < 7)%nat -> var (S t) (S j) = var t j.
Proof.
  intros Hj. unfold var. replace (S j + 7 * S t)%nat with (j + 7 * t + 1 * 8)%nat by lia.
  apply Nat.Div0.mod_add.
Qed.

Lemma var_S_0 t : var (S t) 0 = var t 7.
Proof. unfold var. f_equal. lia. Qed.

Lemma list8 (l : list Z) : length l = 8%nat ->
  l = [l !!! 0%nat; l !!! 1%nat; l !!! 2%nat; l !!! 3%nat; l !!! 4%nat; l !!! 5%nat; l !!! 6%nat; l !!! 7%nat].
Proof. intros H. do 8 (destruct l as [|? l]; [done|]). by destruct l. Qed.

Lemma round_ok t vs rs x K w :
  vars_ok t vs rs -> w = word x -> vars_ok (S t) (P vs t x K) (fips_round rs (w, K)).
Proof.
  intros (Hv & Hr & H) ->. rewrite (list8 rs Hr), !H by lia. unfold P. set (v := fun j => vs !!! var t j) in *.
  set (temp1 := u64 (v 7%nat + S3 (v 4%nat) + F1 (v 4%nat) (v 5%nat) (v 6%nat) + K + x)).
  set (temp2 := u64 (S2 (v 0%nat) + F0 (v 0%nat) (v 1%nat) (v 2%nat))).
  change (vars_ok (S t) (<[var t 7 := u64 (temp1 + temp2)]> (<[var t 3 := u64 (v 3%nat + temp1)]> vs))
    (fips_round (map (fun j => word (v j)) (seq 0 8)) (word x, K))).
  split; [by rewrite !length_insert|]. split; [done|].
  assert (forall j y z, (j < 8)%nat -> j <> 3%nat -> j <> 7%nat ->
    <[var t 7 := y]> (<[var t 3 := z]> vs) !!! var t j = v j) as Hsame.
  { intros j y z Hj H3 H7. rewrite !list_lookup_total_insert_ne; [done|..];
      intros E; apply var_inj in E; lia. }
  assert (forall y z, <[var t 7 := y]> (<[var t 3 := z]> vs) !!! var t 7 = y) as H7.
  { intros y z. apply list_lookup_total_insert_eq. rewrite length_insert, Hv. apply var_lt. }
  assert (forall y z, <[var t 7 := y]> (<[var t 3 := z]> vs) !!! var t 3 = z) as H3.
  { intros y z. rewrite list_lookup_total_insert_ne by (intros E; apply var_inj in E; lia).
    apply list_lookup_total_insert_eq. rewrite Hv. apply var_lt. }
  intros j Hj. destruct j as [|j]; [rewrite var_S_0, H7|rewrite var_S by lia].
  - change (word (word (v 7%nat) + Sigma1 (word (v 4%nat)) + Ch (word (v 4%nat)) (word (v 5%nat)) (word (v 6%nat)) + K + word x
      + (Sigma0 (word (v 0%nat)) + Maj (word (v 0%nat)) (word (v 1%nat)) (word (v 2%nat)))) = word (u64 (temp1 + temp2))).
    apply eq32_iff. unfold temp1, temp2.
    by rewrite !u64_eq32, S3_eq32, F1_eq32, S2_eq32, F0_eq32, (word_eq32 x), (word_eq32 (v 7%nat)).
  - destruct (decide (j = 3%nat)) as [->|Hj3].
    + rewrite H3. change (word (word (v 3%nat) + (word (v 7%nat) + Sigma1 (word (v 4%nat)) +
        Ch (word (v 4%nat)) (word (v 5%nat)) (word (v 6%nat)) + K + word x)) = word (u64 (v 3%nat + temp1))).
      apply eq32_iff. unfold temp1.
      by rewrite !u64_eq32, S3_eq32, F1_eq32, (word_eq32 x), (word_eq32 (v 7%nat)), (word_eq32 (v 3%nat)).
    + rewrite Hsame by lia. do 7 (destruct j as [|j]; [done|]). lia.
Qed.

(** ** The message schedule *)

Lemma schedule_ok n : forall W, (16 <= length W)%nat ->
  let F := schedule n W in
  length F = (length W + n)%nat /\
  (forall i, (i < length W)%nat -> F !!! i = W !!! i) /\
  (forall t, (length W <= t < length W + n)%nat ->
     F !!! t = word (sigma1 (F !!! (t - 2)%nat) + F !!! (t - 7)%nat +
                     sigma0 (F !!! (t - 15)%nat) + F !!! (t - 16)%nat)).
Proof.
  induction n as [|n IH]; intros W HW; cbn [schedule].
  { split; [by rewrite Nat.add_0_r|]. split; [done|intros t Ht; lia]. }
  set (w := word _). destruct (IH (W ++ [w])) as (H1 & H2 & H3); [rewrite length_app; lia|].
  rewrite length_app in H1, H2, H3. cbn [length] in H1, H2, H3. split; [lia|].
  assert (forall i, (i < length W)%nat -> schedule n (W ++ [w]) !!! i = W !!! i) as Hpre.
  { intros i Hi. rewrite H2 by lia. by apply lookup_total_app_l. }
  split; [done|]. intros t Ht. destruct (decide (t = length W)) as [->|Hne]; [|apply H3; lia].
  rewrite (H2 (length W)) by lia. rewrite !Hpre by lia. rewrite lookup_total_app_r by lia. by rewrite Nat.sub_diag.
Qed.

Lemma u64_byte (x : byte) n : 0 <= n <= 24 -> u64 (Z.shiftl (byte.unsigned x) n) = Z.shiftl (byte.unsigned x) n.
Proof.
  intros Hn. unfold u64. apply Z.mod_small. rewrite Z.shiftl_mul_pow2 by lia.
  pose proof (byte.unsigned_range x) as Hx. change (2 ^ 8) with 256 in Hx.
  assert (1 <= 2 ^ n <= 2 ^ 24) by (split; [lia|apply Z.pow_le_mono_r; lia]).
  unfold two64. nia.
Qed.

Lemma GET_UINT32_be b i : (i + 4 <= length b)%nat -> GET_UINT32 b i = be (take 4 (drop i b)).
Proof.
  intros Hi. assert (exists b0 b1 b2 b3 l, drop i b = b0 :: b1 :: b2 :: b3 :: l) as (b0 & b1 & b2 & b3 & l & E).
  { pose proof (length_drop b i) as Hl.
    destruct (drop i b) as [|b0 [|b1 [|b2 [|b3 l]]]]; cbn [length] in Hl; try lia. by exists b0, b1, b2, b3, l. }
  assert (forall j, b !!! (i + j)%nat = drop i b !!! j) as Hat by (intros j; by rewrite lookup_total_drop).
  unfold GET_UINT32. cbv zeta. rewrite !Hat, E, !u64_byte by lia.
  change (Z.lor (Z.lor (Z.lor (Z.shiftl (byte.unsigned b0) 24) (Z.shiftl (byte.unsigned b1) 16))
    (Z.shiftl (byte.unsigned b2) 8)) (byte.unsigned b3) = be [b0; b1; b2; b3]).
  change (be [b0; b1; b2; b3]) with (Z.lor (byte.unsigned b3) (Z.shiftl (Z.lor (byte.unsigned b2)
    (Z.shiftl (Z.lor (byte.unsigned b1) (Z.shiftl (Z.lor (byte.unsigned b0) (Z.shiftl 0 8)) 8)) 8)) 8)).
  apply Z.bits_inj'. intros k Hk. rewrite !Z.shiftl_lor, !Z.shiftl_shiftl, Z.shiftl_0_l, !Z.lor_spec by lia.
  rewrite Z.bits_0. change (8 + (8 + 8)) with 24. change (8 + 8) with 16. btauto.
Qed.

(** ** One block *)

Definition state_ok (st H : list Z) : Prop := length st = 8%nat /\ H = map word st.

Lemma lookup_total_map {A B} `{!Inhabited A, !Inhabited B} (f : A -> B) l i :
  (i < length l)%nat -> map f l !!! i = f (l !!! i).
Proof.
  intros Hi. destruct (lookup_lt_is_Some_2 l i Hi) as [x Hx]. rewrite (list_lookup_total_correct _ _ _ Hx).
  apply list_lookup_total_correct. change (map f l) with (f <$> l). by rewrite list_lookup_fmap, Hx.
Qed.

Lemma be_range l : 0 <= be l < 2 ^ (8 * Z.of_nat (length l)).
Proof. unfold be. pose proof (le_combine_bound (reverse l)) as H. by rewrite length_reverse in H. Qed.

Definition code_words (data : list byte) : list Z := map (fun i => GET_UINT32 data (4 * i)) (seq 0 16).

Lemma code_words_ok data i : length data = 64%nat -> (i < 16)%nat ->
  block_words data !!! i = word (code_words data !!! i).
Proof.
  intros Hd Hi. unfold block_words, code_words. rewrite !lookup_total_map by (rewrite length_seq; lia).
  rewrite (list_lookup_total_correct (seq 0 16) i i) by (apply lookup_seq; lia).
  rewrite GET_UINT32_be by lia. symmetry. apply Z.mod_small.
  pose proof (be_range (take 4 (drop (4 * i) data))) as H. rewrite length_take, length_drop, Nat.min_l in H by lia.
  exact H.
Qed.

Lemma length_block_words b : length (block_words b) = 16%nat.
Proof. unfold block_words. by rewrite length_map, length_seq. Qed.

(** After [n] rounds. *)
Definition rounds_ok (data : list byte) (H : list Z) (n : nat) (st : list Z * list Z) : Prop :=
  let F := schedule 48 (block_words data) in
  vars_ok n st.1 (fold_left fips_round (take n (zip F fips_K)) H) /\
  length st.2 = Nat.max 16 n /\ (forall i, (i < length st.2)%nat -> F !!! i = word (st.2 !!! i)).

Lemma rounds_S data H n st : length data = 64%nat -> (n < 64)%nat ->
  rounds_ok data H n st -> rounds_ok data H (S n) (sha256_round st n).
Proof.
  intros Hd Hn (Hv & Hl & HW). destruct st as [vs W]. cbn [fst snd] in *.
  set (F := schedule 48 (block_words data)) in *.
  pose proof (length_block_words data) as Hbw.
  destruct (schedule_ok 48 (block_words data)) as (HF & _ & Hrec); [lia|].
  rewrite Hbw in HF, Hrec. fold F in HF, Hrec. unfold sha256_round.
  set (W' := if decide (n < 16)%nat then W else W ++ [R W n]).
  assert (length W' = Nat.max 16 (S n) /\ forall i, (i < length W')%nat -> F !!! i = word (W' !!! i)) as [Hl' HW'].
  { unfold W'. destruct (decide (n < 16)%nat) as [Hlt|Hge]; [split; [lia|done]|].
    rewrite length_app. cbn [length]. split; [lia|]. intros i Hi.
    destruct (decide (i < length W)%nat) as [Hi'|Hi']; [rewrite lookup_total_app_l by done; by apply HW|].
    assert (i = n /\ length W = n) as [-> HWn] by lia.
    rewrite lookup_total_app_r, HWn, Nat.sub_diag by lia. cbn [lookup_total list_lookup_total].
    rewrite Hrec, !HW by lia. apply eq32_iff. unfold R. rewrite u64_eq32, S1_eq32, S0_eq32.
    by rewrite (word_eq32 (W !!! (n - 7)%nat)), (word_eq32 (W !!! (n - 16)%nat)). }
  split; [|exact (conj Hl' HW')]. cbn [fst snd]. fold F.
  assert (zip F fips_K !! n = Some (F !!! n, sha256_K !!! n)) as Hz.
  { destruct constants_ok as [<- _]. apply lookup_zip_with_Some. exists (F !!! n), (sha256_K !!! n).
    split; [reflexivity|]. split; apply list_lookup_lookup_total_lt; [lia|cbn; lia]. }
  rewrite (take_S_r _ _ _ Hz), fold_left_app. cbn [fold_left].
  apply round_ok; [done|]. apply HW'. lia.
Qed.

Lemma rounds_all data H st : length data = 64%nat -> vars_ok 0 st H ->
  forall n, (n <= 64)%nat -> rounds_ok data H n (fold_left sha256_round (seq 0 n) (st, code_words data)).
Proof.
  intros Hd Hv. destruct (schedule_ok 48 (block_words data)) as (_ & Hpre & _); [by rewrite length_block_words|].
  rewrite length_block_words in Hpre.
  induction n as [|n IH]; intros Hn.
  - split; [exact Hv|]. cbn [fold_left seq snd].
    assert (length (code_words data) = 16%nat) as Hl by (unfold code_words; by rewrite length_map, length_seq).
    split; [exact Hl|]. intros i Hi. rewrite Hl in Hi.
    rewrite Hpre by done. by apply code_words_ok.
  - rewrite seq_S, fold_left_app. cbn [fold_left]. apply rounds_S; [done|lia|]. apply IH. lia.
Qed.

Lemma process_ok ctx H data : length data = 64%nat -> state_ok (sc_state ctx) H ->
  let ctx' := sha256_process ctx data in
  state_ok (sc_state ctx') (fips_compress H data) /\ sc_total ctx' = sc_total ctx /\ sc_buffer ctx' = sc_buffer ctx.
Proof.
  intros Hd [Hst ->]. unfold sha256_process. fold (code_words data).
  assert (vars_ok 0 (sc_state ctx) (map word (sc_state ctx))) as Hv0.
  { split; [done|]. split; [by rewrite length_map|]. intros j Hj.
    rewrite lookup_total_map by lia. unfold var. by rewrite Nat.mul_0_r, Nat.add_0_r, Nat.mod_small. }
  pose proof (rounds_all data _ _ Hd Hv0 64 ltac:(lia)) as (Hv & _ & _).
  set (st := fold_left sha256_round (seq 0 64) (sc_state ctx, code_words data)) in *.
  destruct st as [vs W]. cbn [fst snd] in *.
  assert (length (zip (schedule 48 (block_words data)) fips_K) = 64%nat) as Hz.
  { rewrite length_zip_with. destruct (schedule_ok 48 (block_words data)) as (-> & _);
      by rewrite length_block_words. }
  rewrite take_ge in Hv by lia. unfold fips_compress.
  set (rs := fold_left fips_round _ _) in *. destruct Hv as (Hlv & Hlr & Hv).
  split; [|split; reflexivity]. cbn [sc_state]. split; [rewrite length_zip_with; lia|].
  apply list_eq. intros i. rewrite list_lookup_fmap, !lookup_zip_with.
  destruct (decide (i < 8)%nat) as [Hi|Hi].
  - destruct (lookup_lt_is_Some_2 (sc_state ctx) i) as [x Hx]; [lia|].
    destruct (lookup_lt_is_Some_2 vs i) as [v Hvi]; [lia|].
    specialize (Hv i Hi). unfold var in Hv. replace ((i + 7 * 64) mod 8)%nat with i in Hv.
    2:{ rewrite <- (Nat.mod_small i 8) at 1 by lia. symmetry. apply (Nat.Div0.mod_add i 56 8). }
    rewrite (list_lookup_lookup_total_lt rs) by lia. rewrite Hv, (list_lookup_total_correct _ _ _ Hvi).
    change (map word (sc_state ctx)) with (word <$> sc_state ctx). rewrite list_lookup_fmap, Hx, Hvi. cbn.
    f_equal. apply eq32_iff. by rewrite u64_eq32, (word_eq32 x), (word_eq32 v).
  - rewrite !lookup_ge_None_2 by (rewrite ?length_map; lia). done.
Qed.

(** * Pieces of a message *)

Lemma full_blocks_app q s k : length q = (64 * k)%nat -> full_blocks (q ++ s) = full_blocks q ++ full_blocks s.
Proof.
  unfold full_blocks. intros Hq.
  assert (forall n l, length l = (64 * k)%nat -> blocks (k + n) (l ++ s) = blocks k l ++ blocks n s) as H.
  { clear. induction k as [|k IH]; intros n l Hl.
    - by destruct l.
    - cbn [blocks Nat.add app]. rewrite take_app_le, drop_app_le, IH by (rewrite ?length_drop; lia). done. }
  rewrite length_app, Hq. replace (64 * k + length s)%nat with (length s + k * 64)%nat by lia.
  rewrite Nat.div_add, Nat.add_comm by lia. rewrite Nat.mul_comm, Nat.div_mul by lia. by apply H.
Qed.

Lemma full_blocks_short r : (length r < 64)%nat -> full_blocks r = [].
Proof. intros H. unfold full_blocks. by rewrite Nat.div_small. Qed.

Lemma full_blocks_one b : length b = 64%nat -> full_blocks b = [b].
Proof. intros H. unfold full_blocks. rewrite H. change (64 / 64)%nat with 1%nat. cbn [blocks]. by rewrite take_ge by lia. Qed.

Definition hash (H : list Z) (q : list byte) : list Z := fold_left fips_compress (full_blocks q) H.

Lemma hash_app H q s k : length q = (64 * k)%nat -> hash H (q ++ s) = hash (hash H q) s.
Proof. intros Hq. unfold hash. by rewrite (full_blocks_app q s k), fold_left_app. Qed.

Lemma process_blocks_ok fuel : forall ctx H input, (length input <= fuel)%nat -> state_ok (sc_state ctx) H ->
  let '(ctx', rest) := process_blocks fuel ctx input in
  sc_total ctx' = sc_total ctx /\ sc_buffer ctx' = sc_buffer ctx /\ (length rest < 64)%nat /\
  exists q k, input = q ++ rest /\ length q = (64 * k)%nat /\ state_ok (sc_state ctx') (hash H q).
Proof.
  induction fuel as [|fuel IH]; intros ctx H input Hf Hs; cbn [process_blocks];
    destruct (decide (length input < 64)%nat) as [Hlt|Hge].
  1, 3: (split; [done|]; split; [done|]; split; [done|]; by exists [], 0%nat).
  { lia. }
  assert (length (take 64 input) = 64%nat) as Hb by (rewrite length_take; lia).
  destruct (process_ok ctx H (take 64 input) Hb Hs) as (Hs' & Ht & Hbuf).
  specialize (IH (sha256_process ctx (take 64 input)) _ (drop 64 input) ltac:(rewrite length_drop; lia) Hs').
  destruct (process_blocks fuel _ _) as [ctx' rest]. destruct IH as (E1 & E2 & E3 & q & k & E4 & E5 & E6).
  split; [congruence|]. split; [congruence|]. split; [done|].
  exists (take 64 input ++ q), (S k). split; [by rewrite <- app_assoc, <- E4, take_drop|].
  split; [rewrite length_app; lia|]. rewrite (hash_app _ _ _ 1) by lia.
  unfold hash at 2. by rewrite full_blocks_one by done.
Qed.

(** The context after the bytes [m]: [r] of them are in the buffer. *)
Record ctx_ok (m : list byte) (ctx : sha256_context) : Prop := {
  co_total : sc_total ctx = (Z.of_nat (length m) mod 2 ^ 32, Z.of_nat (length m) / 2 ^ 32);
  co_buffer : length (sc_buffer ctx) = 64%nat;
  co_state : exists q r k, m = q ++ r /\ length q = (64 * k)%nat /\ (length r < 64)%nat /\
    take (length r) (sc_buffer ctx) = r /\ state_ok (sc_state ctx) (hash fips_H q);
}.

Lemma starts_ok buf : length buf = 64%nat -> ctx_ok [] (sha256_starts buf).
Proof.
  intros Hb. split; [done|done|]. exists [], [], 0%nat. split; [done|]. split; [done|]. split; [cbn; lia|].
  split; [done|]. split; [done|]. destruct constants_ok as [_ E].
  change (hash fips_H []) with fips_H. rewrite <- E. vm_compute. reflexivity.
Qed.

Lemma add_total_ok n l : 0 <= n -> 0 <= l < 2 ^ 32 -> n + l < 2 ^ 64 ->
  add_total (n mod 2 ^ 32, n / 2 ^ 32) l = ((n + l) mod 2 ^ 32, (n + l) / 2 ^ 32).
Proof.
  intros Hn Hl Hnl. unfold add_total. cbn [fst snd]. rewrite land_word. unfold word.
  pose proof (Z.mod_pos_bound n (2 ^ 32) ltac:(lia)) as Hm. pose proof (Z.div_mod n (2 ^ 32) ltac:(lia)) as Hd.
  assert (u64 (n mod 2 ^ 32 + l) = n mod 2 ^ 32 + l) as -> by (apply Z.mod_small; unfold two64; lia).
  set (a := n mod 2 ^ 32) in *. set (c := n / 2 ^ 32) in *.
  assert (0 <= c < 2 ^ 32) as Hc by (unfold c; split; [apply Z.div_pos; lia|apply Z.div_lt_upper_bound; lia]).
  assert ((n + l) mod 2 ^ 32 = (a + l) mod 2 ^ 32) as ->.
  { replace (n + l) with (a + l + c * 2 ^ 32) by lia. apply Z.mod_add. lia. }
  assert ((n + l) / 2 ^ 32 = c + (a + l) / 2 ^ 32) as ->.
  { replace (n + l) with (a + l + c * 2 ^ 32) by lia. rewrite Z.div_add by lia. lia. }
  destruct (decide (a + l < 2 ^ 32)) as [Hs|Hs].
  - rewrite (Z.mod_small (a + l)), (Z.div_small (a + l)) by lia. rewrite decide_False by lia. f_equal. lia.
  - assert ((a + l) mod 2 ^ 32 = a + l - 2 ^ 32) as Em.
    { symmetry. apply (Z.mod_unique _ _ 1); lia. }
    assert ((a + l) / 2 ^ 32 = 1) as Ed by (symmetry; apply (Z.div_unique _ _ _ (a + l - 2 ^ 32)); lia).
    rewrite Em, Ed, decide_True by lia. f_equal. apply Z.mod_small. unfold two64. lia.
Qed.

(** The end of [sha256_update]: the full blocks of the input, and the rest. *)
Lemma update_tail ctx q r input k m :
  m = q ++ r ++ input -> length q = (64 * k)%nat -> (length r < 64)%nat ->
  (r = [] \/ (length r + length input < 64)%nat) ->
  sc_total ctx = (Z.of_nat (length m) mod 2 ^ 32, Z.of_nat (length m) / 2 ^ 32) ->
  length (sc_buffer ctx) = 64%nat -> take (length r) (sc_buffer ctx) = r ->
  state_ok (sc_state ctx) (hash fips_H q) ->
  ctx_ok m (let '(ctx, rest) := process_blocks (length input) ctx input in
            if decide (rest = []) then ctx else buffer_copy (length r) (length rest) rest ctx).
Proof.
  intros Em Hq Hr Hcase Ht Hb Hbr Hs.
  pose proof (process_blocks_ok (length input) ctx _ input (le_n _) Hs) as H.
  destruct (process_blocks _ _ _) as [ctx' rest]. destruct H as (E1 & E2 & E3 & q' & k' & E4 & E5 & E6).
  assert (q' = [] /\ (length r + length rest < 64)%nat \/ r = []) as Hcase'.
  { destruct Hcase as [->|Hlt]; [by right|left]. subst input. rewrite length_app in Hlt.
    destruct q'; [done|]. cbn [length] in *. lia. }
  set (r' := r ++ rest). assert ((length r' < 64)%nat) as Hr'.
  { unfold r'. rewrite length_app. destruct Hcase' as [[_ ?]| ->]; [lia|done]. }
  assert (exists q2 k2, m = q2 ++ r' /\ length q2 = (64 * k2)%nat /\ state_ok (sc_state ctx') (hash fips_H q2)) as (q2 & k2 & Hm & Hq2 & Hs2).
  { unfold r'. destruct Hcase' as [[-> _]| ->].
    - exists q, k. cbn [app] in E4. subst input. done.
    - exists (q ++ q'), (k + k')%nat. split; [subst; cbn; by rewrite <- app_assoc|].
      split; [rewrite length_app; lia|]. by rewrite (hash_app _ _ _ k). }
  destruct (decide (rest = [])) as [->|Hne].
  - unfold r' in *. rewrite app_nil_r in *. split; [by rewrite E1|by rewrite E2|].
    exists q2, r, k2. rewrite E2. done.
  - split; [by cbn; rewrite E1| |].
    + cbn. rewrite E2, !length_app, !length_take, length_drop. unfold r' in Hr'. rewrite length_app in Hr'. lia.
    + exists q2, r', k2. split; [done|]. split; [done|]. split; [done|]. split; [|done].
      cbn. rewrite E2, Hbr, firstn_all. unfold r'. rewrite app_assoc. by rewrite take_app_length.
Qed.

Lemma update_ok m ctx input :
  ctx_ok m ctx -> Z.of_nat (length input) < 2 ^ 32 -> Z.of_nat (length (m ++ input)) < 2 ^ 64 ->
  ctx_ok (m ++ input) (sha256_update ctx input).
Proof.
  intros [Ht Hb (q & r & k & Em & Hq & Hr & Hbr & Hs)] Hi Hm. rewrite length_app in Hm.
  unfold sha256_update. destruct (decide (input = [])) as [->|Hne]; [rewrite app_nil_r; split; eauto 10|].
  assert (Z.to_nat (Z.land (sc_total ctx).1 0x3F) = length r) as ->.
  { rewrite Ht. cbn [fst]. change 0x3F with (Z.ones 6). rewrite Z.land_ones by lia.
    rewrite Z.mod_mod_divide by (exists (2 ^ 26); lia). rewrite Em, length_app, Hq.
    replace (Z.of_nat (64 * k + length r)) with (Z.of_nat (length r) + Z.of_nat k * 2 ^ 6) by lia.
    rewrite Z.mod_add, Z.mod_small by lia. apply Nat2Z.id. }
  rewrite Ht, add_total_ok by lia.
  assert (Z.of_nat (length m) + Z.of_nat (length input) = Z.of_nat (length (m ++ input))) as -> by (rewrite length_app; lia).
  set (ctx1 := Sha256Context _ (sc_state ctx) (sc_buffer ctx)).
  destruct (decide (length r <> 0 /\ 64 - length r <= length input)%nat) as [[Hr0 Hfill]|Hno].
  - set (fill := (64 - length r)%nat) in *.
    assert (sc_buffer (buffer_copy (length r) fill input ctx1) = r ++ take fill input) as Hbuf.
    { cbn. rewrite Hbr, (drop_ge (sc_buffer ctx)) by lia. by rewrite app_nil_r. }
    assert (length (r ++ take fill input) = 64%nat) as Hl64 by (rewrite length_app, length_take; lia).
    rewrite Hbuf. destruct (process_ok (buffer_copy (length r) fill input ctx1) (hash fips_H q) _ Hl64 Hs)
      as (Hs' & Ht' & Hb').
    eapply (update_tail _ (q ++ r ++ take fill input) [] (drop fill input) (S k)).
    + rewrite Em, <- !app_assoc. cbn. by rewrite take_drop.
    + rewrite length_app, Hl64. lia.
    + cbn. lia.
    + by left.
    + rewrite Ht'. reflexivity.
    + by rewrite Hb', Hbuf.
    + done.
    + rewrite (hash_app _ _ _ k) by done. unfold hash at 1. by rewrite full_blocks_one by done.
  - eapply (update_tail ctx1 q r input k); try done.
    + by rewrite Em, <- app_assoc.
    + destruct r as [|x r]; [by left|right]. cbn [length] in *. lia.
Qed.

(** * The digest *)

Lemma PUT_UINT32_split n : PUT_UINT32 n = reverse (le_split 4 n).
Proof.
  change (le_split 4 n) with [byte.of_Z n; byte.of_Z (Z.shiftr n 8); byte.of_Z (Z.shiftr (Z.shiftr n 8) 8);
    byte.of_Z (Z.shiftr (Z.shiftr (Z.shiftr n 8) 8) 8)].
  rewrite !(Z.shiftr_shiftr n) by lia. reflexivity.
Qed.

Lemma PUT_UINT32_eq32 x y : eq32 x y -> PUT_UINT32 x = reverse (le_split 4 y).
Proof.
  intros H%eq32_iff. rewrite PUT_UINT32_split, (le_split_mod x), (le_split_mod y).
  change (2 ^ (Z.of_nat 4 * 8)) with (2 ^ 32). by unfold word in H; rewrite H.
Qed.

Lemma le_split_8 x : le_split 8 x = le_split 4 x ++ le_split 4 (Z.shiftr x 32).
Proof.
  change (le_split 8 x) with (le_split 4 x ++ le_split 4 (Z.shiftr (Z.shiftr (Z.shiftr (Z.shiftr x 8) 8) 8) 8)).
  rewrite !(Z.shiftr_shiftr x) by lia. reflexivity.
Qed.

Lemma msglen_ok n : 0 <= n < 2 ^ 61 ->
  PUT_UINT32 (Z.lor (Z.shiftr (n mod 2 ^ 32) 29) (u64 (Z.shiftl (n / 2 ^ 32) 3))) ++
  PUT_UINT32 (u64 (Z.shiftl (n mod 2 ^ 32) 3)) = reverse (le_split 8 (8 * n)).
Proof.
  intros Hn.
  rewrite le_split_8. rewrite reverse_app. replace (8 * n) with (Z.shiftl n 3) by (rewrite Z.shiftl_mul_pow2; lia).
  f_equal; apply PUT_UINT32_eq32.
  - rewrite u64_eq32. constructor. intros i Hi.
    rewrite <- (Z.shiftr_div_pow2 n 32), Z.lor_spec, !Z.shiftr_spec, !Z.shiftl_spec by lia.
    destruct (decide (i < 3)).
    + rewrite (Z.testbit_neg_r _ (i - 3)), orb_false_r, Z.mod_pow2_bits_low by lia. f_equal. lia.
    + rewrite Z.mod_pow2_bits_high, Z.shiftr_spec by lia. cbn [orb]. f_equal. lia.
  - rewrite u64_eq32. apply shiftl_eq32; [lia|]. apply word_eq32.
Qed.

Lemma padding_ok (n : nat) (t : Z) : t = Z.of_nat (n mod 64) ->
  take (Z.to_nat (if decide (t < 56) then 56 - t else 120 - t)) sha256_padding =
  [byte.of_Z 0x80] ++ replicate ((119 - n mod 64) mod 64) (byte.of_Z 0).
Proof.
  intros ->. pose proof (Nat.mod_upper_bound n 64 ltac:(lia)) as Hn. set (k := (n mod 64)%nat) in *. clearbody k.
  unfold sha256_padding. destruct (decide (Z.of_nat k < 56)).
  - replace (Z.to_nat (56 - Z.of_nat k)) with (S (55 - k)) by lia. cbn [take app]. f_equal.
    rewrite take_replicate. f_equal. rewrite Nat.min_l by lia.
    replace (119 - k)%nat with (55 - k + 1 * 64)%nat by lia. by rewrite Nat.Div0.mod_add, Nat.mod_small by lia.
  - replace (Z.to_nat (120 - Z.of_nat k)) with (S (119 - k)) by lia. cbn [take app]. f_equal.
    rewrite take_replicate. f_equal. by rewrite Nat.min_l, Nat.mod_small by lia.
Qed.

Lemma digest_ok st H : state_ok st H -> mbind PUT_UINT32 st = mbind (fun x => reverse (le_split 4 x)) H.
Proof.
  intros [_ ->]. induction st as [|x st IH]; [done|]. cbn [map]. rewrite !bind_cons, IH. f_equal.
  apply PUT_UINT32_eq32. symmetry. apply word_eq32.
Qed.

Lemma finish_ok m ctx : ctx_ok m ctx -> Z.of_nat (length m) < 2 ^ 61 -> sha256_finish ctx = fips_sha256 m.
Proof.
  intros Hok Hm. pose proof (co_total _ _ Hok) as Ht. unfold sha256_finish. rewrite Ht.
  rewrite msglen_ok by lia.
  rewrite (padding_ok (length m)).
  2:{ change 0x3F with (Z.ones 6). rewrite Z.land_ones by lia.
      rewrite Z.mod_mod_divide by (exists (2 ^ 26); lia). by rewrite Nat2Z.inj_mod. }
  set (pad := [byte.of_Z 0x80] ++ _). set (len := reverse (le_split 8 _)).
  assert ((length pad <= 64)%nat /\ length len = 8%nat) as [Hpad Hlen].
  { split; [|reflexivity]. unfold pad. rewrite length_app, length_replicate. cbn [length].
    pose proof (Nat.mod_upper_bound (119 - length m mod 64) 64 ltac:(lia)). lia. }
  assert (ctx_ok ((m ++ pad) ++ len) (sha256_update (sha256_update ctx pad) len)) as [_ _ (q & r & k & E & Hq & Hr & _ & Hs)].
  { apply update_ok; [apply update_ok; [done|..]|..]; rewrite ?length_app; lia. }
  unfold fips_sha256. replace (fips_pad m) with ((m ++ pad) ++ len) by (unfold fips_pad, pad, len; by rewrite <- !app_assoc).
  rewrite E. fold (hash fips_H (q ++ r)). rewrite (hash_app _ _ _ k) by done.
  unfold hash at 1. rewrite (full_blocks_short r) by done. by apply digest_ok.
Qed.


Definition abc : list byte := [Init.Byte.x61; Init.Byte.x62; Init.Byte.x63].

