(* ===== verification/BlockStore.v ===== *)
(** The block-store interface of src/src/h/egos/block_store.h: disk blocks and
    the words in them, the class of operations that every layer offers to the
    layer above, the abstract disk, and the laws that relate the two. *)
From stdpp Require Import base numbers list gmap.
From Stdlib Require Import ZArith Lia.
From Stdlib Require Strings.Byte.
From coqutil Require Import Byte Word.LittleEndianList.
From S2P Require Import Prelude.

(** * Blocks and the words in them *)

Definition BLOCK_SIZE : nat := 1024.

Lemma BLOCK_SIZE_Z : Z.of_nat BLOCK_SIZE = 1024.
Proof. reflexivity. Qed.

(** Arithmetic with the block size, which the solvers see as an unknown. *)
Ltac bs_lia := pose proof BLOCK_SIZE_Z; nia.

(** [block_t]: an array of [BLOCK_SIZE] bytes. *)
Abbreviation block := (list Init.Byte.byte).

#[export] Instance byte_eq_dec : EqDecision Init.Byte.byte := Strings.Byte.byte_eq_dec.

Definition block_wf (b : block) : Prop := length b = BLOCK_SIZE.

Definition null_block : block := replicate BLOCK_SIZE Byte.x00.

(** The little-endian [unsigned int] at word index [i] of a block, and its
    update: how the code sees a block through [block_no refs\[\]] and through
    the fields of its superblock and inode structures. *)
Definition get32 (b : block) (i : nat) : Z := le_combine (take 4 (drop (4 * i) b)).

Definition set32 (b : block) (i : nat) (v : Z) : block :=
  take (4 * i) b ++ le_split 4 v ++ drop (4 * i + 4) b.

Lemma null_block_wf : block_wf null_block.
Proof. apply length_replicate. Qed.

Lemma set32_wf b i v : block_wf b -> (i < 256)%nat -> block_wf (set32 b i v).
Proof.
  unfold block_wf, set32, BLOCK_SIZE. intros Hb Hi.
  rewrite !length_app, length_take, length_drop, length_le_split. lia.
Qed.

Lemma get32_set32_eq b i v :
  block_wf b -> (i < 256)%nat -> is_u32 v -> get32 (set32 b i v) i = v.
Proof.
  unfold block_wf, get32, set32, BLOCK_SIZE. intros Hb Hi Hv.
  rewrite drop_app_length' by (rewrite length_take; lia).
  rewrite take_app_length' by (by rewrite length_le_split).
  rewrite le_combine_split. apply Z.mod_small. done.
Qed.

Lemma get32_set32_ne b i j v :
  block_wf b -> (i < 256)%nat -> i <> j -> get32 (set32 b i v) j = get32 b j.
Proof.
  unfold block_wf, get32, set32, BLOCK_SIZE. intros Hb Hi Hij. f_equal.
  apply list_eq. intros k. destruct (decide (k < 4)%nat) as [Hk|Hk].
  2:{ rewrite !lookup_take_ge by lia. done. }
  rewrite !lookup_take_lt, !lookup_drop by lia.
  destruct (decide (4 * j + k < 4 * i)%nat) as [H1|H1].
  - rewrite lookup_app_l by (rewrite length_take; lia). apply lookup_take_lt. lia.
  - rewrite lookup_app_r by (rewrite length_take; lia).
    rewrite length_take, lookup_app_r by (rewrite length_le_split; lia).
    rewrite length_le_split, lookup_drop. f_equal. lia.
Qed.

Lemma get32_u32 b i : is_u32 (get32 b i).
Proof.
  unfold get32, is_u32. pose proof (le_combine_bound (take 4 (drop (4 * i) b))) as H.
  assert (Z.of_nat (length (take 4 (drop (4 * i) b))) <= 4) by (rewrite length_take; lia).
  assert (2 ^ (8 * Z.of_nat (length (take 4 (drop (4 * i) b)))) <= 2 ^ 32)
    by (apply Z.pow_le_mono_r; lia).
  unfold two32. lia.
Qed.

Lemma get32_null i : get32 null_block i = 0.
Proof.
  unfold get32, null_block. rewrite drop_replicate, take_replicate.
  generalize (4 `min` (BLOCK_SIZE - 4 * i))%nat as n.
  induction n as [|n IH]; [done|].
  change (Z.lor 0 (Z.shiftl (le_combine (replicate n Byte.x00)) 8) = 0). by rewrite IH.
Qed.

(** * The operations of a block store

    The methods of [block_store_t], as computations on the private state of a
    layer together with everything below it. [bs_read ino off buf] also gets
    the contents of the caller's buffer and returns what the buffer holds
    afterwards. *)

Class BlockStore (S : Type) := {
  bs_getninodes : M S Z;
  bs_getsize : Z -> M S Z;
  bs_setsize : Z -> Z -> M S Z;
  bs_read : Z -> Z -> block -> M S (Z * block);
  bs_write : Z -> Z -> block -> M S Z;
  bs_sync : Z -> M S Z;
}.

(** * The abstract disk: the block at each (inode, offset) address *)

Abbreviation vdisk :=
  (@gmap (Z * Z) (@prod_eq_dec Z Z.eq_dec Z Z.eq_dec)
     (@prod_countable Z Z.eq_dec Z_countable Z Z.eq_dec Z_countable) block).

Record vdisk_wf (d : vdisk) : Prop := {
  vd_block : forall k b, d !! k = Some b -> block_wf b;
  vd_ino : forall ino off, is_Some (d !! (ino, off)) -> is_u32 ino;
  vd_off : forall ino off, is_Some (d !! (ino, off)) -> is_u32 off;
}.

(** Inode [ino] holds exactly the offsets below [n]. *)
Definition size_of (d : vdisk) (ino n : Z) : Prop :=
  forall off, is_Some (d !! (ino, off)) <-> 0 <= off < n.

Definition same_dom (d d' : vdisk) : Prop :=
  forall k, is_Some (d !! k) <-> is_Some (d' !! k).

Lemma vdisk_wf_insert d k b :
  vdisk_wf d -> is_Some (d !! k) -> block_wf b -> vdisk_wf (<[k:=b]> d).
Proof.
  intros [Hb Hi Ho] Hk Hw. split.
  - intros k' b'. rewrite lookup_insert. case_decide; [by intros [= <-]|eauto].
  - intros i o. rewrite lookup_insert. case_decide; [subst; eauto|eauto].
  - intros i o. rewrite lookup_insert. case_decide; [subst; eauto|eauto].
Qed.

Lemma same_dom_insert d k b : is_Some (d !! k) -> same_dom d (<[k:=b]> d).
Proof.
  intros Hk k'. rewrite lookup_insert. case_decide; subst; [|done].
  split; [by eauto|done].
Qed.

Lemma same_dom_size_of d d' ino n : same_dom d d' -> size_of d ino n -> size_of d' ino n.
Proof. intros H Hs off. rewrite <- (H (ino, off)). apply Hs. Qed.

#[export] Instance same_dom_equiv : Equivalence same_dom.
Proof.
  split.
  - intros d k. done.
  - intros d d' H k. symmetry. apply H.
  - intros d1 d2 d3 H1 H2 k. etransitivity; [apply H1|apply H2].
Qed.

(** * What a layer promises to the layer above

    [R s d] relates the concrete state of a store to the abstract disk it
    represents. Requests at addresses of the disk succeed and act on the
    abstract disk; other requests are not constrained here. *)

Class Lawful (S : Type) `{!BlockStore S} (R : S -> vdisk -> Prop) : Prop := {
  law_wf : forall s d, R s d -> vdisk_wf d;
  law_getsize : forall s d ino n,
    R s d -> size_of d ino n -> 0 < n < 2147483648 ->
    wp (bs_getsize ino) s (fun r s' => r = n /\ R s' d);
  law_read : forall s d ino off b buf,
    R s d -> d !! (ino, off) = Some b -> block_wf buf ->
    wp (bs_read ino off buf) s (fun r s' => r = (0, b) /\ R s' d);
  law_write : forall s d ino off b,
    R s d -> is_Some (d !! (ino, off)) -> block_wf b ->
    wp (bs_write ino off b) s (fun r s' => r = 0 /\ R s' (<[(ino, off):=b]> d));
  law_sync : forall s d ino off,
    R s d -> is_Some (d !! (ino, off)) ->
    wp (bs_sync ino) s (fun r s' => r = 0 /\ R s' d);
}.

(** * Sequences of requests

    The client's view: a list of requests is run against a store, or against
    the abstract disk. *)

Inductive request : Type :=
| RRead (ino off : Z)
| RWrite (ino off : Z) (b : block)
| RSync (ino : Z).

Inductive reply : Type :=
| Data (r : Z) (b : block)
| Status (r : Z).

Definition exec_req {T} `{!BlockStore T} (q : request) : M T reply :=
  match q with
  | RRead ino off => x ← bs_read ino off null_block; mret (Data x.1 x.2)
  | RWrite ino off b => r ← bs_write ino off b; mret (Status r)
  | RSync ino => r ← bs_sync ino; mret (Status r)
  end.

Fixpoint exec_reqs {T} `{!BlockStore T} (qs : list request) : M T (list reply) :=
  match qs with
  | [] => mret []
  | q :: qs => r ← exec_req q; rs ← exec_reqs qs; mret (r :: rs)
  end.

Definition spec_req (d : vdisk) (q : request) : reply * vdisk :=
  match q with
  | RRead ino off => (Data 0 (default null_block (d !! (ino, off))), d)
  | RWrite ino off b => (Status 0, <[(ino, off):=b]> d)
  | RSync ino => (Status 0, d)
  end.

Fixpoint spec_reqs (d : vdisk) (qs : list request) : list reply * vdisk :=
  match qs with
  | [] => ([], d)
  | q :: qs =>
      let '(r, d1) := spec_req d q in
      let '(rs, d2) := spec_reqs d1 qs in (r :: rs, d2)
  end.

(** Requests at addresses of the disk [d]. *)
Definition valid_req (d : vdisk) (q : request) : Prop :=
  match q with
  | RRead ino off => is_Some (d !! (ino, off))
  | RWrite ino off b => is_Some (d !! (ino, off)) /\ block_wf b
  | RSync ino => exists off, is_Some (d !! (ino, off))
  end.

Lemma valid_req_same_dom d d' q : same_dom d d' -> valid_req d q -> valid_req d' q.
Proof.
  intros H. destruct q; simpl.
  - apply H.
  - intros [Hs ?]. split; [by apply H|done].
  - intros [off Hs]. exists off. by apply H.
Qed.

Lemma spec_req_same_dom d q : valid_req d q -> same_dom d (spec_req d q).2.
Proof.
  destruct q; simpl; intros Hq; try reflexivity.
  apply same_dom_insert. apply Hq.
Qed.

Section lawful.
Context {T : Type} {R : T -> vdisk -> Prop} `{!BlockStore T, !Lawful T R}.

Lemma exec_req_spec s d q :
  R s d -> valid_req d q ->
  wp (exec_req q) s (fun r s' => r = (spec_req d q).1 /\ R s' (spec_req d q).2).
Proof.
  intros HR Hq. destruct q as [ino off|ino off b|ino]; simpl in *; step.
  - destruct Hq as [b Hb].
    wp_use (law_read s d ino off b null_block HR Hb null_block_wf) as [-> HR'].
    step. by rewrite Hb.
  - destruct Hq as [Hs Hb].
    wp_use (law_write s d ino off b HR Hs Hb) as [-> HR']. by step.
  - destruct Hq as [off Hs].
    wp_use (law_sync s d ino off HR Hs) as [-> HR']. by step.
Qed.

Lemma exec_reqs_spec qs : forall s d,
  R s d -> Forall (valid_req d) qs ->
  wp (exec_reqs qs) s (fun rs s' => rs = (spec_reqs d qs).1 /\ R s' (spec_reqs d qs).2).
Proof.
  induction qs as [|q qs IH]; intros s d HR Hqs; simpl; [by step|].
  apply Forall_cons in Hqs as [Hq Hqs]. step.
  wp_use (exec_req_spec s d q HR Hq) as [-> HR']. step.
  pose proof (spec_req_same_dom d q Hq) as Hd.
  destruct (spec_req d q) as [r d1]; simpl in *.
  assert (Forall (valid_req d1) qs) as Hqs1
    by (eapply Forall_impl; [exact Hqs|intros; by eapply valid_req_same_dom]).
  wp_use (IH _ _ HR' Hqs1) as [-> HR'']. step.
  by destruct (spec_reqs d1 qs).
Qed.
End lawful.
