(* ===== verification/RamDisk.v ===== *)
(** src/src/block/ramdisk.c: a block store in an array of memory. *)
From stdpp Require Import base numbers list gmap.
From Stdlib Require Import ZArith Lia.
From S2P Require Import Prelude BlockStore.

(** [struct ramdisk_state]. The list is the whole memory area the caller gave
    to [ramdisk_init]; [nblocks] is the size of the store, which
    [ramdisk_setsize] changes without touching the memory. *)
Record ramdisk_state := RamDisk {
  rs_blocks : list block;
  rs_nblocks : Z;
}.

Definition ramdisk_getninodes : M ramdisk_state Z := mret 1.

Definition ramdisk_getsize (ino : Z) : M ramdisk_state Z :=
  if decide (ino <> 0) then mret (-1) else
  rs ← get;
  mret (i32 (rs_nblocks rs)).

Definition ramdisk_setsize (ino nblocks : Z) : M ramdisk_state Z :=
  rs ← get;
  let before := i32 (rs_nblocks rs) in
  put (RamDisk (rs_blocks rs) nblocks);;
  mret before.

Definition ramdisk_read (ino offset : Z) (buf : block) : M ramdisk_state (Z * block) :=
  rs ← get;
  if decide (ino <> 0) then mret (-1, buf) else
  if decide (offset >= rs_nblocks rs) then mret (-1, buf) else
  b ← read_nth (rs_blocks rs) (Z.to_nat offset);
  mret (0, b).

Definition ramdisk_write (ino offset : Z) (b : block) : M ramdisk_state Z :=
  rs ← get;
  if decide (ino <> 0) then mret (-1) else
  if decide (offset >= rs_nblocks rs) then mret (-1) else
  (* outside the memory area the copy is undefined *)
  if decide (offset >= Z.of_nat (length (rs_blocks rs))) then undef else
  put (RamDisk (<[Z.to_nat offset:=b]> (rs_blocks rs)) (rs_nblocks rs));;
  mret 0.

Definition ramdisk_sync (ino : Z) : M ramdisk_state Z := mret 0.

(** [ramdisk_release] frees the state; the memory area remains the caller's. *)
Definition ramdisk_release (rs : ramdisk_state) : list block := rs_blocks rs.

Definition ramdisk_init (blocks : list block) (nblocks : Z) : ramdisk_state :=
  RamDisk blocks nblocks.

#[export] Instance ramdisk_bs : BlockStore ramdisk_state := {
  bs_getninodes := ramdisk_getninodes;
  bs_getsize := ramdisk_getsize;
  bs_setsize := ramdisk_setsize;
  bs_read := ramdisk_read;
  bs_write := ramdisk_write;
  bs_sync := ramdisk_sync;
}.

(** * The disk a ramdisk represents *)

Definition ram_lookup (rs : ramdisk_state) (k : Z * Z) : option block :=
  if decide (k.1 = 0 /\ 0 <= k.2 < rs_nblocks rs) then rs_blocks rs !! Z.to_nat k.2 else None.

Record ram_repr (rs : ramdisk_state) (d : vdisk) : Prop := {
  rr_size : 0 <= rs_nblocks rs <= Z.of_nat (length (rs_blocks rs));
  rr_u32 : Z.of_nat (length (rs_blocks rs)) <= two32;
  rr_wf : Forall block_wf (rs_blocks rs);
  rr_lookup : forall k, d !! k = ram_lookup rs k;
}.

(** The disk held by an array of blocks. *)
Fixpoint disk_of_from (off : Z) (l : list block) : vdisk :=
  match l with
  | [] => ∅
  | b :: l => <[(0, off):=b]> (disk_of_from (off + 1) l)
  end.

Definition disk_of (l : list block) : vdisk := disk_of_from 0 l.

Lemma disk_of_from_lookup l : forall off ino i,
  disk_of_from off l !! (ino, i) =
  if decide (ino = 0 /\ off <= i < off + Z.of_nat (length l)) then l !! Z.to_nat (i - off) else None.
Proof.
  induction l as [|b l IH]; intros off ino i; simpl.
  - rewrite lookup_empty. case_decide; [lia|done].
  - rewrite lookup_insert. case_decide as Hk; [injection Hk as <- <-|].
    + rewrite decide_True by lia. by rewrite Z.sub_diag.
    + rewrite IH. destruct (decide (ino = 0 /\ off + 1 <= i < off + 1 + Z.of_nat (length l))).
      * rewrite decide_True by lia.
        replace (Z.to_nat (i - off)) with (Datatypes.S (Z.to_nat (i - (off + 1)))) by lia. done.
      * rewrite decide_False; [done|]. intros [-> Hi]. destruct (decide (i = off)); [congruence|lia].
Qed.

Lemma disk_of_lookup l ino i :
  disk_of l !! (ino, i) =
  if decide (ino = 0 /\ 0 <= i < Z.of_nat (length l)) then l !! Z.to_nat i else None.
Proof. unfold disk_of. by rewrite disk_of_from_lookup, Z.sub_0_r. Qed.

Lemma ramdisk_init_repr l :
  Forall block_wf l -> Z.of_nat (length l) <= two32 ->
  ram_repr (ramdisk_init l (Z.of_nat (length l))) (disk_of l).
Proof.
  intros Hl Hn. split; simpl; [lia|done|done|].
  intros [ino i]. by rewrite disk_of_lookup.
Qed.

Lemma ram_repr_dom rs d ino off :
  ram_repr rs d -> is_Some (d !! (ino, off)) <-> ino = 0 /\ 0 <= off < rs_nblocks rs.
Proof.
  intros [Hs Hu Hw Hd]. rewrite Hd. unfold ram_lookup; simpl. case_decide as H; split; intros H'.
  - done.
  - apply lookup_lt_is_Some. lia.
  - by destruct H'.
  - lia.
Qed.

Lemma ram_repr_wf rs d : ram_repr rs d -> vdisk_wf d.
Proof.
  intros Hr. pose proof Hr as [Hs Hu Hw Hd]. split.
  - intros k b. rewrite Hd. unfold ram_lookup. case_decide; [|done].
    intros Hb. by eapply Forall_lookup_1.
  - intros ino off Hk. apply (ram_repr_dom _ _ _ _ Hr) in Hk as [-> ?]. done.
  - intros ino off Hk. apply (ram_repr_dom _ _ _ _ Hr) in Hk as [-> ?]. unfold is_u32. lia.
Qed.

#[export] Instance ramdisk_lawful : Lawful ramdisk_state ram_repr.
Proof.
  split.
  - apply ram_repr_wf.
  - intros rs d ino n Hr Hn Hb. cbn [bs_getsize ramdisk_bs]. unfold ramdisk_getsize.
    assert (is_Some (d !! (ino, 0)) /\ ~ is_Some (d !! (ino, n)) /\ is_Some (d !! (ino, n - 1)))
      as (H0 & H1 & H2) by (rewrite !(Hn _); lia).
    rewrite !(ram_repr_dom _ _ _ _ Hr) in *. rewrite decide_False by lia. steps.
    split; [|done]. rewrite i32_small; lia.
  - intros rs d ino off b buf Hr Hk Hbuf. cbn [bs_read ramdisk_bs]. unfold ramdisk_read. steps.
    assert (is_Some (d !! (ino, off))) as Hd by eauto.
    apply (ram_repr_dom _ _ _ _ Hr) in Hd as [-> Ho].
    rewrite decide_False by lia. rewrite decide_False by lia. step.
    rewrite (rr_lookup _ _ Hr) in Hk. unfold ram_lookup in Hk; simpl in Hk.
    rewrite decide_True in Hk by lia. eapply wp_read_nth; [done|]. by step.
  - intros rs d ino off b Hr Hk Hb. cbn [bs_write ramdisk_bs]. unfold ramdisk_write. steps.
    apply (ram_repr_dom _ _ _ _ Hr) in Hk as [-> Ho]. destruct Hr as [Hs Hu Hw Hd].
    rewrite !decide_False by lia. steps. split; [done|].
    split; simpl; rewrite ?length_insert; [done|done|by apply Forall_insert|].
    intros [ino i]. rewrite lookup_insert, Hd. unfold ram_lookup; simpl.
    case_decide as Hk; [injection Hk as <- <-|].
    + rewrite decide_True by lia. by rewrite list_lookup_insert_eq by lia.
    + case_decide; [|done]. rewrite list_lookup_insert_ne; [done|].
      intros ?. apply Hk. f_equal; lia.
  - intros rs d ino off Hr Hk. cbn [bs_sync ramdisk_bs]. by unfold ramdisk_sync; step.
Qed.

(** * Properties *)

(** Reading an address outside a ramdisk fails with [-1], and leaves the
    caller's buffer and the store untouched; a write there fails with [-1] and
    leaves the store untouched. *)
Lemma ramdisk_out_of_range rs ino offset buf b :
  ino <> 0 \/ rs_nblocks rs <= offset ->
  ramdisk_read ino offset buf rs = Ret ((-1, buf), rs) /\
  ramdisk_write ino offset b rs = Ret (-1, rs).
Proof.
  intros H. unfold ramdisk_read, ramdisk_write, mbind, M_bind, get; cbn beta iota.
  destruct (decide (ino <> 0)); [done|]. by rewrite !decide_True by lia.
Qed.

(** [ramdisk_setsize] to a size the memory area has room for returns the
    old size and makes exactly the blocks of that prefix addressable: blocks cut
    off by a shrink come back unchanged by a later grow. *)
Lemma ramdisk_setsize_repr rs d n d' :
  ram_repr rs d -> rs_nblocks rs < 2147483648 ->
  0 <= n <= Z.of_nat (length (rs_blocks rs)) ->
  (forall ino off, d' !! (ino, off) =
     if decide (ino = 0 /\ 0 <= off < n) then rs_blocks rs !! Z.to_nat off else None) ->
  wp (ramdisk_setsize 0 n) rs (fun r rs' => r = rs_nblocks rs /\ ram_repr rs' d').
Proof.
  intros [Hs Hu Hw Hd] Hm Hn Hd'. unfold ramdisk_setsize. steps.
  split; [by rewrite i32_small by lia|]. split; simpl; [lia|done|done|].
  intros [ino i]. apply Hd'.
Qed.

(** A ramdisk of two null blocks, at which theorems about layers are instantiated. *)
Definition wit_ram : ramdisk_state := ramdisk_init [null_block; null_block] 2.

Lemma wit_ram_repr : ram_repr wit_ram (disk_of [null_block; null_block]).
Proof.
  apply (ramdisk_init_repr [null_block; null_block]); [|done].
  repeat constructor; apply null_block_wf.
Qed.

Definition wit_reqs : list request :=
  [RWrite 0 0 null_block; RRead 0 1; RWrite 0 1 null_block; RRead 0 0].

Lemma wit_reqs_valid : Forall (valid_req (disk_of [null_block; null_block])) wit_reqs.
Proof.
  repeat constructor; simpl; try apply null_block_wf; eexists; vm_compute; reflexivity.
Qed.

Lemma ramdisk_out_of_range_witness :
  ramdisk_read 0 2 null_block wit_ram = Ret ((-1, null_block), wit_ram) /\
  ramdisk_write 0 2 null_block wit_ram = Ret (-1, wit_ram).
Proof. apply ramdisk_out_of_range. right. reflexivity. Defined.

Lemma ramdisk_setsize_repr_witness :
  wp (ramdisk_setsize 0 1) wit_ram (fun r rs' => r = 2 /\ ram_repr rs' (disk_of [null_block])).
Proof.
  apply (ramdisk_setsize_repr wit_ram (disk_of [null_block; null_block]));
    [exact wit_ram_repr|reflexivity|split; [done|vm_compute; congruence]|].
  intros ino off. rewrite disk_of_lookup. simpl.
  destruct (decide (ino = 0 /\ 0 <= off < 1)) as [[-> H]|H]; [|by rewrite decide_False by lia].
  assert (off = 0) as -> by lia. reflexivity.
Defined.
