(* ===== verification/FileDisk.v ===== *)
(** src/src/block/filedisk.c: a block store in a file of the host, and the part
    of the C library's [FILE] that it uses. *)
From stdpp Require Import base numbers list gmap.
From Stdlib Require Import ZArith Lia.
From S2P Require Import Prelude BlockStore.

(** * A stream: the bytes of the file and the file position

    [fseek], [fread] and [fwrite] on a regular file open for update, without
    I/O errors. Writing beyond the end fills the gap with null bytes. *)

Record FILE := File { f_bytes : list Byte.byte; f_pos : Z }.

Definition fseek_set (off : Z) (fp : FILE) : FILE :=
  if decide (off < 0) then fp else File (f_bytes fp) off.

(** [fread(buf, n, 1, fp)]: the number of items read, the bytes, the stream. *)
Definition fread1 (n : nat) (fp : FILE) : Z * list Byte.byte * FILE :=
  let chunk := take n (drop (Z.to_nat (f_pos fp)) (f_bytes fp)) in
  let fp' := File (f_bytes fp) (f_pos fp + Z.of_nat (length chunk)) in
  if decide (length chunk = n) then (1, chunk, fp') else (0, chunk, fp').

Definition file_splice (pos : nat) (data bytes : list Byte.byte) : list Byte.byte :=
  let padded := bytes ++ replicate (pos - length bytes) Byte.x00 in
  take pos padded ++ data ++ drop (pos + length data) padded.

Definition fwrite1 (data : list Byte.byte) (fp : FILE) : Z * FILE :=
  (1, File (file_splice (Z.to_nat (f_pos fp)) data (f_bytes fp))
           (f_pos fp + Z.of_nat (length data))).

(** * The block store *)

Record filedisk_state := FileDisk {
  fd_fp : FILE;
  fd_nblocks : Z;   (* desired #blocks *)
  fd_current : Z;   (* current #blocks *)
}.

Definition filedisk_getninodes : M filedisk_state Z := mret 1.

Definition filedisk_getsize (ino : Z) : M filedisk_state Z :=
  rs ← get;
  if decide (ino <> 0) then mret (-1) else mret (i32 (fd_nblocks rs)).

Definition filedisk_setsize (ino nblocks : Z) : M filedisk_state Z :=
  rs ← get;
  let before := i32 (fd_nblocks rs) in
  put (FileDisk (fd_fp rs) nblocks (fd_current rs));;
  mret before.

(** [offset * BLOCK_SIZE] is computed in [unsigned int]. *)
Definition file_position (offset : Z) : Z := u32 (offset * Z.of_nat BLOCK_SIZE).

Definition filedisk_read (ino offset : Z) (buf : block) : M filedisk_state (Z * block) :=
  rs ← get;
  if decide (ino <> 0) then mret (-1, buf) else
  if decide (offset >= fd_nblocks rs) then mret (-1, buf) else
  if decide (offset >= fd_current rs) then mret (0, null_block) else
  let fp := fseek_set (file_position offset) (fd_fp rs) in
  let '(n, b, fp) := fread1 BLOCK_SIZE fp in
  put (FileDisk fp (fd_nblocks rs) (fd_current rs));;
  assert_ (bool_decide (n = 1));;
  mret (0, b).

Definition filedisk_write (ino offset : Z) (b : block) : M filedisk_state Z :=
  rs ← get;
  if decide (ino <> 0) then mret (-1) else
  if decide (offset >= fd_nblocks rs) then mret (-1) else
  let current := if decide (offset >= fd_current rs) then offset + 1 else fd_current rs in
  let fp := fseek_set (file_position offset) (fd_fp rs) in
  let '(n, fp) := fwrite1 b fp in
  put (FileDisk fp (fd_nblocks rs) current);;
  assert_ (bool_decide (n = 1));;
  mret 0.

(** [fflush] does not change what the stream reads back. *)
Definition filedisk_sync (ino : Z) : M filedisk_state Z := mret 0.

(** [filedisk_release] closes the stream: the bytes of the file remain. *)
Definition filedisk_release (rs : filedisk_state) : list Byte.byte := f_bytes (fd_fp rs).

(** [fopen] with mode ["w+"] truncates; [None] is a failing [fopen]. *)
Definition filedisk_init (fopen : option FILE) (nblocks : Z) : option filedisk_state :=
  fp ← fopen;
  let fp := fseek_set (nblocks * Z.of_nat BLOCK_SIZE - 1) fp in
  let fp := (fwrite1 [Byte.x00] fp).2 in
  Some (FileDisk fp nblocks 0).

#[export] Instance filedisk_bs : BlockStore filedisk_state := {
  bs_getninodes := filedisk_getninodes;
  bs_getsize := filedisk_getsize;
  bs_setsize := filedisk_setsize;
  bs_read := filedisk_read;
  bs_write := filedisk_write;
  bs_sync := filedisk_sync;
}.

(** * The disk a filedisk represents *)

Definition file_byte (bytes : list Byte.byte) (k : nat) : Byte.byte := default Byte.x00 (bytes !! k).

Definition file_block (bytes : list Byte.byte) (i : nat) : block :=
  file_byte bytes <$> seq (i * BLOCK_SIZE) BLOCK_SIZE.

Lemma file_block_wf bytes i : block_wf (file_block bytes i).
Proof. unfold block_wf, file_block. by rewrite length_fmap, length_seq. Qed.

Lemma file_byte_splice pos data bytes k :
  file_byte (file_splice pos data bytes) k =
  if decide (pos <= k < pos + length data)%nat then file_byte data (k - pos) else file_byte bytes k.
Proof.
  unfold file_byte, file_splice. set (padded := bytes ++ _).
  assert (length padded = max (length bytes) pos) as Hl
    by (unfold padded; rewrite length_app, length_replicate; lia).
  assert (default Byte.x00 (padded !! k) = default Byte.x00 (bytes !! k)) as Hp.
  { unfold padded. destruct (decide (k < length bytes)%nat) as [H|H].
    - by rewrite lookup_app_l by lia.
    - rewrite lookup_app_r by lia. rewrite (lookup_ge_None_2 bytes k) by lia.
      destruct (replicate (pos - length bytes) Byte.x00 !! _) eqn:E; [|done].
      by apply lookup_replicate in E as [-> _]. }
  case_decide as Hk.
  - rewrite lookup_app_r by (rewrite length_take; lia).
    rewrite length_take, lookup_app_l by lia. do 2 f_equal. lia.
  - destruct (decide (k < pos)%nat).
    + rewrite lookup_app_l by (rewrite length_take; lia). by rewrite lookup_take_lt by lia.
    + rewrite lookup_app_r by (rewrite length_take; lia).
      rewrite length_take, lookup_app_r by lia. rewrite lookup_drop. rewrite <- Hp. do 2 f_equal. lia.
Qed.

Lemma length_file_splice pos data bytes :
  length (file_splice pos data bytes) = max (length bytes) (pos + length data).
Proof.
  unfold file_splice. rewrite !length_app, length_take, length_drop, length_app, length_replicate. lia.
Qed.

#[local] Opaque BLOCK_SIZE.

Lemma file_block_splice pos data bytes i j :
  pos = (i * BLOCK_SIZE)%nat -> block_wf data ->
  file_block (file_splice pos data bytes) j = if decide (j = i) then data else file_block bytes j.
Proof.
  intros -> Hd. unfold block_wf in Hd. apply list_eq. intros k. unfold file_block.
  destruct (decide (k < BLOCK_SIZE)%nat) as [Hk|Hk].
  - rewrite list_lookup_fmap, lookup_seq_lt by done. simpl. rewrite file_byte_splice, Hd.
    case_decide as Hj; case_decide as Hji; subst.
    + unfold file_byte. replace (i * BLOCK_SIZE + k - i * BLOCK_SIZE)%nat with k by lia.
      destruct (data !! k) eqn:E; [done|]. apply lookup_ge_None in E. lia.
    + exfalso. clear Hd. revert Hk Hj. generalize BLOCK_SIZE. intros B Hk Hj. nia.
    + exfalso. lia.
    + rewrite list_lookup_fmap, lookup_seq_lt by done. done.
  - rewrite !lookup_ge_None_2; [done|..].
    + case_decide; [lia|]. rewrite length_fmap, length_seq. lia.
    + rewrite length_fmap, length_seq. lia.
Qed.

Lemma fread1_block bytes i :
  (i * BLOCK_SIZE + BLOCK_SIZE <= length bytes)%nat ->
  take BLOCK_SIZE (drop (i * BLOCK_SIZE) bytes) = file_block bytes i.
Proof.
  intros Hl. apply list_eq. intros k. unfold file_block.
  destruct (decide (k < BLOCK_SIZE)%nat) as [Hk|Hk].
  - rewrite lookup_take_lt, lookup_drop, list_lookup_fmap, lookup_seq_lt by done. simpl.
    unfold file_byte. destruct (bytes !! (i * BLOCK_SIZE + k)%nat) eqn:E; [done|].
    apply lookup_ge_None in E. lia.
  - rewrite !lookup_ge_None_2; [done|..]; rewrite ?length_fmap, ?length_seq, ?length_take; lia.
Qed.

(** Offsets below 2^22 do not wrap the seek position. *)
Lemma file_position_small off :
  0 <= off <= 4194303 -> file_position off = off * Z.of_nat BLOCK_SIZE.
Proof. intros. apply u32_small. unfold is_u32, two32. bs_lia. Qed.

Record fd_repr (rs : filedisk_state) (d : vdisk) : Prop := {
  fr_size : 0 <= fd_nblocks rs <= 4194304;
  fr_current : 0 <= fd_current rs;
  fr_bytes : fd_current rs * Z.of_nat BLOCK_SIZE <= Z.of_nat (length (f_bytes (fd_fp rs)));
  fr_zero : forall i, fd_current rs <= Z.of_nat i -> file_block (f_bytes (fd_fp rs)) i = null_block;
  fr_lookup : forall ino off, d !! (ino, off) =
    if decide (ino = 0 /\ 0 <= off < fd_nblocks rs)
    then Some (file_block (f_bytes (fd_fp rs)) (Z.to_nat off)) else None;
}.

Lemma fd_repr_dom rs d ino off :
  fd_repr rs d -> is_Some (d !! (ino, off)) <-> ino = 0 /\ 0 <= off < fd_nblocks rs.
Proof.
  intros H. rewrite (fr_lookup _ _ H).
  case_decide as Hc; split; intros Hx; [done|eauto|by destruct Hx|by destruct Hc].
Qed.

Lemma fd_repr_wf rs d : fd_repr rs d -> vdisk_wf d.
Proof.
  intros H. split.
  - intros [ino off] b. rewrite (fr_lookup _ _ H). case_decide; [|done].
    intros [= <-]. apply file_block_wf.
  - intros ino off Hk. apply (fd_repr_dom _ _ _ _ H) in Hk as [-> _]. done.
  - intros ino off Hk. apply (fd_repr_dom _ _ _ _ H) in Hk as [-> Ho].
    pose proof (fr_size _ _ H). unfold is_u32, two32. lia.
Qed.

Lemma fd_read_spec rs d off b buf :
  fd_repr rs d -> d !! (0, off) = Some b ->
  wp (filedisk_read 0 off buf) rs (fun r rs' => r = (0, b) /\ fd_repr rs' d).
Proof.
  intros Hr Hk. pose proof Hr as [Hs Hc Hb Hz Hd].
  rewrite Hd in Hk. case_decide as Ho; [|done]. injection Hk as <-. destruct Ho as [_ Ho].
  unfold filedisk_read. steps. rewrite !decide_False by lia. case_decide as Hcur.
  { step. split; [|done]. f_equal. symmetry. apply Hz. lia. }
  unfold fseek_set. rewrite file_position_small by lia. rewrite decide_False by lia.
  unfold fread1; cbn [f_bytes f_pos].
  replace (Z.to_nat (off * Z.of_nat BLOCK_SIZE)) with (Z.to_nat off * BLOCK_SIZE)%nat by lia.
  rewrite fread1_block by bs_lia.
  rewrite decide_True by (apply file_block_wf). steps.
  eapply wp_assert; [done|]. step. split; [done|]. by split.
Qed.

Lemma fd_write_spec rs d off b :
  fd_repr rs d -> is_Some (d !! (0, off)) -> block_wf b ->
  wp (filedisk_write 0 off b) rs (fun r rs' => r = 0 /\ fd_repr rs' (<[(0, off):=b]> d)).
Proof.
  intros Hr Hk Hw. pose proof Hr as [Hs Hc Hb Hz Hd].
  apply (fd_repr_dom _ _ _ _ Hr) in Hk as [_ Ho].
  unfold filedisk_write. steps. rewrite !decide_False by lia.
  unfold fseek_set. rewrite file_position_small by lia. rewrite decide_False by lia.
  unfold fwrite1; cbn [f_bytes f_pos]. steps. eapply wp_assert; [done|]. step. split; [done|].
  replace (Z.to_nat (off * Z.of_nat BLOCK_SIZE)) with (Z.to_nat off * BLOCK_SIZE)%nat by lia.
  pose proof (fun j => file_block_splice _ b (f_bytes (fd_fp rs)) (Z.to_nat off) j eq_refl Hw) as Hsp.
  split; cbn [fd_nblocks fd_current fd_fp f_bytes].
  - done.
  - case_decide; lia.
  - rewrite length_file_splice. unfold block_wf in Hw. rewrite Hw.
    case_decide; bs_lia.
  - intros i Hi. rewrite Hsp. rewrite decide_False by (case_decide; lia).
    apply Hz. case_decide; lia.
  - intros ino o. rewrite lookup_insert. case_decide as He.
    + injection He as <- <-. rewrite decide_True by lia. by rewrite Hsp, decide_True by done.
    + rewrite Hd. case_decide as Ho'; [|done]. f_equal. rewrite Hsp.
      rewrite decide_False; [done|]. intros ?. apply He. f_equal; lia.
Qed.

#[export] Instance filedisk_lawful : Lawful filedisk_state fd_repr.
Proof.
  split.
  - apply fd_repr_wf.
  - intros rs d ino n Hr Hn Hb. cbn [bs_getsize filedisk_bs]. unfold filedisk_getsize. steps.
    assert (is_Some (d !! (ino, 0)) /\ ~ is_Some (d !! (ino, n)) /\ is_Some (d !! (ino, n - 1)))
      as (H0 & H1 & H2) by (rewrite !(Hn _); lia).
    rewrite !(fd_repr_dom _ _ _ _ Hr) in *. rewrite decide_False by lia. steps.
    split; [|done]. rewrite i32_small; lia.
  - intros rs d ino off b buf Hr Hk _.
    assert (is_Some (d !! (ino, off))) as H by eauto.
    apply (fd_repr_dom _ _ _ _ Hr) in H as [-> _]. by apply fd_read_spec.
  - intros rs d ino off b Hr Hk Hb. pose proof Hk as H.
    apply (fd_repr_dom _ _ _ _ Hr) in H as [-> _]. by apply fd_write_spec.
  - intros rs d ino off Hr Hk. cbn [bs_sync filedisk_bs]. by unfold filedisk_sync; step.
Qed.

(** * Properties *)

(** The seek position of block [2^22 + i] wraps around to that of block [i]:
    on a filedisk of more than 2^22 blocks, writing the one overwrites the
    other. *)
Lemma filedisk_write_aliases rs i b buf :
  0 <= i < 4194304 -> 4194304 + i < fd_nblocks rs < two32 -> block_wf b ->
  wp (r ← filedisk_write 0 (4194304 + i) b; filedisk_read 0 i buf) rs
     (fun r _ => r = (0, b)).
Proof.
  intros Hi Hn Hb.
  assert (file_position (4194304 + i) = i * Z.of_nat BLOCK_SIZE) as Hp.
  { unfold file_position, u32, two32. rewrite BLOCK_SIZE_Z.
    replace ((4194304 + i) * 1024) with (i * 1024 + 1 * 4294967296) by lia.
    rewrite Z.mod_add, Z.mod_small; lia. }
  unfold filedisk_write. steps. rewrite !decide_False by lia. rewrite Hp.
  unfold fseek_set at 1. rewrite decide_False by lia. unfold fwrite1; cbn [f_bytes f_pos].
  steps. eapply wp_assert; [done|]. steps. unfold filedisk_read. steps.
  cbn [fd_nblocks fd_current fd_fp].
  rewrite !decide_False by (try case_decide; lia). unfold fseek_set.
  rewrite file_position_small, decide_False by lia. unfold fread1; cbn [f_bytes f_pos].
  replace (Z.to_nat (i * Z.of_nat BLOCK_SIZE)) with (Z.to_nat i * BLOCK_SIZE)%nat by lia.
  rewrite fread1_block by (rewrite length_file_splice, Hb; lia).
  rewrite decide_True by apply file_block_wf. steps. eapply wp_assert; [done|]. step.
  by rewrite (file_block_splice _ b _ (Z.to_nat i)), decide_True by done.
Qed.

Lemma filedisk_write_aliases_witness :
  wp (r ← filedisk_write 0 4194304 null_block; filedisk_read 0 0 null_block)
     (FileDisk (File [] 0) 5000000 0) (fun r _ => r = (0, null_block)).
Proof.
  apply (filedisk_write_aliases (FileDisk (File [] 0) 5000000 0) 0 null_block null_block);
    [lia|unfold two32; simpl; lia|reflexivity].
Defined.
