(* ===== verification/ForwardDisks.v ===== *)
(** The layers that forward every request to one store below:
    src/src/block/debugdisk.c (prints), statdisk.c (counts) and mapdisk.c
    (selects one inode). *)
From stdpp Require Import base numbers list gmap strings.
From Stdlib Require Import ZArith Lia.
From S2P Require Import Prelude BlockStore RamDisk.

(** * debugdisk *)

(** A line printed on [stderr], with the description of the layer. *)
Inductive debug_line : Type :=
| InvokeGetsize (descr : string) (ino : Z)
| ReturnGetsize (descr : string) (ino nblocks : Z)
| InvokeSetsize (descr : string) (ino nblocks : Z)
| ReturnSetsize (descr : string) (ino nblocks r : Z)
| InvokeRead (descr : string) (ino offset : Z)
| ReturnRead (descr : string) (ino offset r : Z)
| InvokeWrite (descr : string) (ino offset : Z)
| ReturnWrite (descr : string) (ino offset r : Z)
| Release (descr : string).

Record debugdisk_state (S : Type) := DebugDisk {
  dd_below : S;
  dd_descr : string;
  dd_stderr : list debug_line;   (* what has been printed, oldest first *)
}.
Arguments DebugDisk {S}.
Arguments dd_below {S}.
Arguments dd_descr {S}.
Arguments dd_stderr {S}.

Section debugdisk.
Context {S : Type} `{!BlockStore S}.
Abbreviation st := (debugdisk_state S).

Definition dd_call {A} (m : M S A) : M st A :=
  lift dd_below (fun b ds => DebugDisk b (dd_descr ds) (dd_stderr ds)) m.

Definition dd_fprintf (line : string -> debug_line) : M st unit :=
  modify (fun ds => DebugDisk (dd_below ds) (dd_descr ds) (dd_stderr ds ++ [line (dd_descr ds)])).

Definition debugdisk_getninodes : M st Z := dd_call bs_getninodes.

Definition debugdisk_getsize (ino : Z) : M st Z :=
  dd_fprintf (fun descr => InvokeGetsize descr ino);;
  nblocks ← dd_call (bs_getsize ino);
  dd_fprintf (fun descr => ReturnGetsize descr ino nblocks);;
  mret nblocks.

Definition debugdisk_setsize (ino nblocks : Z) : M st Z :=
  dd_fprintf (fun descr => InvokeSetsize descr ino nblocks);;
  r ← dd_call (bs_setsize ino nblocks);
  dd_fprintf (fun descr => ReturnSetsize descr ino nblocks r);;
  mret r.

Definition debugdisk_read (ino offset : Z) (buf : block) : M st (Z * block) :=
  dd_fprintf (fun descr => InvokeRead descr ino offset);;
  r ← dd_call (bs_read ino offset buf);
  dd_fprintf (fun descr => ReturnRead descr ino offset r.1);;
  mret r.

Definition debugdisk_write (ino offset : Z) (b : block) : M st Z :=
  dd_fprintf (fun descr => InvokeWrite descr ino offset);;
  r ← dd_call (bs_write ino offset b);
  dd_fprintf (fun descr => ReturnWrite descr ino offset r);;
  mret r.

Definition debugdisk_sync (ino : Z) : M st Z := dd_call (bs_sync ino).

(** [debugdisk_release]: what is left is the store below and the output. *)
Definition debugdisk_release (ds : st) : S * list debug_line :=
  (dd_below ds, dd_stderr ds ++ [Release (dd_descr ds)]).

Definition debugdisk_init (below : S) (descr : string) : st := DebugDisk below descr [].

#[export] Instance debugdisk_bs : BlockStore st := {
  bs_getninodes := debugdisk_getninodes;
  bs_getsize := debugdisk_getsize;
  bs_setsize := debugdisk_setsize;
  bs_read := debugdisk_read;
  bs_write := debugdisk_write;
  bs_sync := debugdisk_sync;
}.

Context {R : S -> vdisk -> Prop} `{!Lawful S R}.

#[export] Instance debugdisk_lawful : Lawful st (fun ds d => R (dd_below ds) d).
Proof.
  split.
  - intros s d HR. by eapply law_wf.
  - intros s d ino n HR Hn Hb. cbn [bs_getsize debugdisk_bs].
    unfold debugdisk_getsize, dd_fprintf, dd_call. steps.
    wp_use (law_getsize _ _ _ _ HR Hn Hb) as [-> HR']. by steps.
  - intros s d ino off b buf HR Hk Hbuf. cbn [bs_read debugdisk_bs].
    unfold debugdisk_read, dd_fprintf, dd_call. steps.
    wp_use (law_read _ _ _ _ _ _ HR Hk Hbuf) as [-> HR']. by steps.
  - intros s d ino off b HR Hk Hb. cbn [bs_write debugdisk_bs].
    unfold debugdisk_write, dd_fprintf, dd_call. steps.
    wp_use (law_write _ _ _ _ _ HR Hk Hb) as [-> HR']. by steps.
  - intros s d ino off HR Hk. cbn [bs_sync debugdisk_bs].
    unfold debugdisk_sync, dd_call. steps. by wp_use (law_sync _ _ _ _ HR Hk) as [-> HR'].
Qed.
End debugdisk.

(** * statdisk *)

Record statdisk_state (S : Type) := StatDisk {
  sds_below : S;
  sds_ngetsize : Z;
  sds_nsetsize : Z;
  sds_nread : Z;
  sds_nwrite : Z;
  sds_nsync : Z;
}.
Arguments StatDisk {S}.
Arguments sds_below {S}.
Arguments sds_ngetsize {S}.
Arguments sds_nsetsize {S}.
Arguments sds_nread {S}.
Arguments sds_nwrite {S}.
Arguments sds_nsync {S}.

Section statdisk.
Context {S : Type} `{!BlockStore S}.
Abbreviation st := (statdisk_state S).

Definition sds_call {A} (m : M S A) : M st A :=
  lift sds_below (fun b s => StatDisk b (sds_ngetsize s) (sds_nsetsize s)
                               (sds_nread s) (sds_nwrite s) (sds_nsync s)) m.

Definition statdisk_getninodes : M st Z := sds_call bs_getninodes.

Definition statdisk_getsize (ino : Z) : M st Z :=
  modify (fun s => StatDisk (sds_below s) (u32 (sds_ngetsize s + 1)) (sds_nsetsize s)
                     (sds_nread s) (sds_nwrite s) (sds_nsync s));;
  sds_call (bs_getsize ino).

Definition statdisk_setsize (ino nblocks : Z) : M st Z :=
  modify (fun s => StatDisk (sds_below s) (sds_ngetsize s) (u32 (sds_nsetsize s + 1))
                     (sds_nread s) (sds_nwrite s) (sds_nsync s));;
  sds_call (bs_setsize ino nblocks).

Definition statdisk_read (ino offset : Z) (buf : block) : M st (Z * block) :=
  modify (fun s => StatDisk (sds_below s) (sds_ngetsize s) (sds_nsetsize s)
                     (u32 (sds_nread s + 1)) (sds_nwrite s) (sds_nsync s));;
  sds_call (bs_read ino offset buf).

Definition statdisk_write (ino offset : Z) (b : block) : M st Z :=
  modify (fun s => StatDisk (sds_below s) (sds_ngetsize s) (sds_nsetsize s)
                     (sds_nread s) (u32 (sds_nwrite s + 1)) (sds_nsync s));;
  sds_call (bs_write ino offset b).

Definition statdisk_sync (ino : Z) : M st Z :=
  modify (fun s => StatDisk (sds_below s) (sds_ngetsize s) (sds_nsetsize s)
                     (sds_nread s) (sds_nwrite s) (u32 (sds_nsync s + 1)));;
  sds_call (bs_sync ino).

Definition statdisk_release (s : st) : S := sds_below s.

(** The five numbers [statdisk_dump_stats] prints, in its order. *)
Definition statdisk_dump_stats (s : st) : list Z :=
  [sds_ngetsize s; sds_nsetsize s; sds_nread s; sds_nwrite s; sds_nsync s].

Definition statdisk_init (below : S) : st := StatDisk below 0 0 0 0 0.

#[export] Instance statdisk_bs : BlockStore st := {
  bs_getninodes := statdisk_getninodes;
  bs_getsize := statdisk_getsize;
  bs_setsize := statdisk_setsize;
  bs_read := statdisk_read;
  bs_write := statdisk_write;
  bs_sync := statdisk_sync;
}.

Context {R : S -> vdisk -> Prop} `{!Lawful S R}.

#[export] Instance statdisk_lawful : Lawful st (fun s d => R (sds_below s) d).
Proof.
  split.
  - intros s d HR. by eapply law_wf.
  - intros s d ino n HR Hn Hb. cbn [bs_getsize statdisk_bs].
    unfold statdisk_getsize, sds_call. steps.
    by wp_use (law_getsize _ _ _ _ HR Hn Hb) as [-> HR'].
  - intros s d ino off b buf HR Hk Hbuf. cbn [bs_read statdisk_bs].
    unfold statdisk_read, sds_call. steps.
    by wp_use (law_read _ _ _ _ _ _ HR Hk Hbuf) as [-> HR'].
  - intros s d ino off b HR Hk Hb. cbn [bs_write statdisk_bs].
    unfold statdisk_write, sds_call. steps.
    by wp_use (law_write _ _ _ _ _ HR Hk Hb) as [-> HR'].
  - intros s d ino off HR Hk. cbn [bs_sync statdisk_bs].
    unfold statdisk_sync, sds_call. steps. by wp_use (law_sync _ _ _ _ HR Hk) as [-> HR'].
Qed.

(** What a request adds to the counters. *)
Definition stat_counts (q : request) : Z * Z * Z :=
  match q with
  | RRead _ _ => (1, 0, 0)
  | RWrite _ _ _ => (0, 1, 0)
  | RSync _ => (0, 0, 1)
  end.

Definition stat_counters (s : st) : Z * Z * Z := (sds_nread s, sds_nwrite s, sds_nsync s).

Definition add3 (x y : Z * Z * Z) : Z * Z * Z :=
  (u32 (x.1.1 + y.1.1), u32 (x.1.2 + y.1.2), u32 (x.2 + y.2)).

(** Every counter is an [unsigned int]. *)
Definition counters_u32 (x : Z * Z * Z) : Prop := is_u32 x.1.1 /\ is_u32 x.1.2 /\ is_u32 x.2.

Lemma add3_u32 x y : counters_u32 (add3 x y).
Proof. repeat split; apply u32_range. Qed.

Lemma stat_exec_req q s d :
  R (sds_below s) d -> valid_req d q -> counters_u32 (stat_counters s) ->
  wp (exec_req q) s (fun r s' => r = (spec_req d q).1 /\ R (sds_below s') (spec_req d q).2 /\
                                 stat_counters s' = add3 (stat_counters s) (stat_counts q)).
Proof.
  intros HR Hq (U1 & U2 & U3). unfold add3, stat_counters in *; simpl in *.
  destruct q as [ino off|ino off b|ino]; simpl in *; rewrite !Z.add_0_r.
  - destruct Hq as [b Hb]. unfold statdisk_read, sds_call. steps.
    wp_use (law_read _ _ _ _ _ _ HR Hb null_block_wf) as [-> HR']. steps.
    simpl. rewrite Hb, !(u32_small _ U2), !(u32_small _ U3). done.
  - destruct Hq as [Hs Hb]. unfold statdisk_write, sds_call. steps.
    wp_use (law_write _ _ _ _ _ HR Hs Hb) as [-> HR']. steps.
    simpl. rewrite !(u32_small _ U1), !(u32_small _ U3). done.
  - destruct Hq as [off Hs]. unfold statdisk_sync, sds_call. steps.
    wp_use (law_sync _ _ _ _ HR Hs) as [-> HR']. steps.
    simpl. rewrite !(u32_small _ U1), !(u32_small _ U2). done.
Qed.
End statdisk.

(** * mapdisk *)

Record mapdisk_state (S : Type) := MapDisk {
  ms_below : S;
  ms_ino : Z;
}.
Arguments MapDisk {S}.
Arguments ms_below {S}.
Arguments ms_ino {S}.

Section mapdisk.
Context {S : Type} `{!BlockStore S}.
Abbreviation st := (mapdisk_state S).

Definition ms_call {A} (m : Z -> M S A) : M st A :=
  ms ← get;
  lift ms_below (fun b ms => MapDisk b (ms_ino ms)) (m (ms_ino ms)).

Definition mapdisk_getninodes : M st Z := mret 1.

Definition mapdisk_getsize (ino : Z) : M st Z :=
  if decide (ino <> 0) then mret (-1) else ms_call (fun i => bs_getsize i).

Definition mapdisk_setsize (ino nblocks : Z) : M st Z :=
  if decide (ino <> 0) then mret (-1) else ms_call (fun i => bs_setsize i nblocks).

Definition mapdisk_read (ino offset : Z) (buf : block) : M st (Z * block) :=
  if decide (ino <> 0) then mret (-1, buf) else ms_call (fun i => bs_read i offset buf).

Definition mapdisk_write (ino offset : Z) (b : block) : M st Z :=
  if decide (ino <> 0) then mret (-1) else ms_call (fun i => bs_write i offset b).

Definition mapdisk_release (ms : st) : S := ms_below ms.

Definition mapdisk_sync (ino : Z) : M st Z :=
  if decide (ino <> 0) then mret (-1) else ms_call (fun i => bs_sync i).

Definition mapdisk_init (below : S) (ino : Z) : st := MapDisk below ino.

#[export] Instance mapdisk_bs : BlockStore st := {
  bs_getninodes := mapdisk_getninodes;
  bs_getsize := mapdisk_getsize;
  bs_setsize := mapdisk_setsize;
  bs_read := mapdisk_read;
  bs_write := mapdisk_write;
  bs_sync := mapdisk_sync;
}.

Context {R : S -> vdisk -> Prop} `{!Lawful S R}.

(** Inode 0 of the layer is inode [ms_ino] of the store below. *)
Definition map_repr (ms : st) (d : vdisk) : Prop :=
  exists dB, R (ms_below ms) dB /\
    forall ino off, d !! (ino, off) = if decide (ino = 0) then dB !! (ms_ino ms, off) else None.

#[export] Instance mapdisk_lawful : Lawful st map_repr.
Proof.
  split.
  - intros ms d (dB & HR & Hd). pose proof (law_wf _ _ HR) as [Hb Hi Ho]. split.
    + intros [ino off] b. rewrite Hd. case_decide; [eauto|done].
    + intros ino off. rewrite Hd. case_decide as H; [by subst|]. by intros [].
    + intros ino off. rewrite Hd. case_decide as H; [eauto|]. by intros [].
  - intros ms d ino n (dB & HR & Hd) Hn Hb. cbn [bs_getsize mapdisk_bs].
    assert (ino = 0) as ->.
    { assert (is_Some (d !! (ino, 0))) as H by (apply Hn; lia). rewrite Hd in H.
      case_decide; [done|by destruct H]. }
    assert (size_of dB (ms_ino ms) n) as HnB by (intros off; rewrite <- (Hn off), Hd; done).
    unfold mapdisk_getsize. rewrite decide_False by lia. unfold ms_call. steps.
    wp_use (law_getsize _ _ _ _ HR HnB Hb) as [-> HR']. split; [done|]. by exists dB.
  - intros ms d ino off b buf (dB & HR & Hd) Hk Hbuf. cbn [bs_read mapdisk_bs].
    rewrite Hd in Hk. case_decide; [subst|done].
    unfold mapdisk_read. rewrite decide_False by lia. unfold ms_call. steps.
    wp_use (law_read _ _ _ _ _ _ HR Hk Hbuf) as [-> HR']. split; [done|]. by exists dB.
  - intros ms d ino off b (dB & HR & Hd) Hk Hb. cbn [bs_write mapdisk_bs].
    rewrite Hd in Hk. case_decide; [subst|by destruct Hk].
    unfold mapdisk_write. rewrite decide_False by lia. unfold ms_call. steps.
    wp_use (law_write _ _ _ _ _ HR Hk Hb) as [-> HR']. split; [done|].
    exists (<[(ms_ino ms, off):=b]> dB). split; [done|]. intros ino o. simpl.
    rewrite !lookup_insert, Hd. destruct (decide (ino = 0)) as [->|Hne].
    + destruct (decide (off = o)) as [->|Ho]; [by rewrite !decide_True|].
      rewrite !decide_False by congruence. done.
    + by rewrite decide_False by congruence.
  - intros ms d ino off (dB & HR & Hd) Hk. cbn [bs_sync mapdisk_bs].
    rewrite Hd in Hk. case_decide; [subst|by destruct Hk].
    unfold mapdisk_sync. rewrite decide_False by lia. unfold ms_call. steps.
    wp_use (law_sync _ _ _ _ HR Hk) as [-> HR']. split; [done|]. by exists dB.
Qed.
End mapdisk.

(** * Properties *)

Definition is_read (q : request) : bool := if q is RRead _ _ then true else false.
Definition is_write (q : request) : bool := if q is RWrite _ _ _ then true else false.
Definition is_sync (q : request) : bool := if q is RSync _ then true else false.
Definition count (f : request -> bool) (qs : list request) : Z :=
  Z.of_nat (length (base.filter f qs)).

Lemma count_cons f q qs : count f (q :: qs) = (if f q then 1 else 0) + count f qs.
Proof. unfold count. rewrite filter_cons. destruct (f q); simpl; lia. Qed.

Lemma u32_add_l a b : u32 (u32 a + b) = u32 (a + b).
Proof. unfold u32. apply Zplus_mod_idemp_l. Qed.

(** Above any lawful store, a statdisk answers every sequence of requests
    as the abstract disk does, and each counter has grown by the number of
    requests of its kind, modulo 2^32. *)
Lemma statdisk_counts {S : Type} {R : S -> vdisk -> Prop} `{!BlockStore S, !Lawful S R} qs :
  forall s d, R (sds_below s) d -> Forall (valid_req d) qs -> counters_u32 (stat_counters s) ->
  wp (exec_reqs qs) s (fun rs s' => rs = (spec_reqs d qs).1 /\
    sds_nread s' = u32 (sds_nread s + count is_read qs) /\
    sds_nwrite s' = u32 (sds_nwrite s + count is_write qs) /\
    sds_nsync s' = u32 (sds_nsync s + count is_sync qs)).
Proof.
  induction qs as [|q qs IH]; intros s d HR Hqs HU; cbn [exec_reqs spec_reqs].
  { step. destruct HU as (U1 & U2 & U3). unfold count; simpl in *.
    rewrite !Z.add_0_r, !u32_small by done. done. }
  apply Forall_cons in Hqs as [Hq Hqs]. step.
  wp_use (stat_exec_req q s d HR Hq HU) as (-> & HR' & HC). step.
  pose proof (spec_req_same_dom d q Hq) as Hd.
  destruct (spec_req d q) as [r d1]; simpl in *.
  assert (Forall (valid_req d1) qs) as Hqs1
    by (eapply Forall_impl; [exact Hqs|intros; by eapply valid_req_same_dom]).
  assert (counters_u32 (stat_counters s')) as HU' by (rewrite HC; apply add3_u32).
  wp_use (IH _ _ HR' Hqs1 HU') as (-> & N1 & N2 & N3). step.
  split; [by destruct (spec_reqs d1 qs)|].
  injection HC as C1 C2 C3. rewrite N1, N2, N3, C1, C2, C3, !u32_add_l, !count_cons.
  destruct q; simpl; repeat split; f_equal; lia.
Qed.

Lemma statdisk_counts_witness :
  wp (exec_reqs wit_reqs) (statdisk_init wit_ram) (fun rs s' =>
    rs = (spec_reqs (disk_of [null_block; null_block]) wit_reqs).1 /\
    sds_nread s' = 2 /\ sds_nwrite s' = 2 /\ sds_nsync s' = 0).
Proof.
  apply (statdisk_counts wit_reqs (statdisk_init wit_ram) (disk_of [null_block; null_block]));
    [exact wit_ram_repr|exact wit_reqs_valid|by repeat split].
Defined.
