(* ===== verification/PartDisk.v ===== *)
(** src/src/block/partdisk.c: partitions of inode 0 of the store below. *)
From stdpp Require Import base numbers list gmap.
From Stdlib Require Import ZArith Lia.
From S2P Require Import Prelude BlockStore RamDisk.

Record partdisk_state (S : Type) := PartDisk {
  ps_below : S;
  ps_ninodes : Z;            (* number of partitions *)
  ps_partsizes : list Z;     (* sizes of partitions *)
}.
Arguments PartDisk {S}.
Arguments ps_below {S}.
Arguments ps_ninodes {S}.
Arguments ps_partsizes {S}.

(** [noffset = offset; for (i = 0; i < ino; i++) noffset += partsizes\[i\];] *)
Definition part_noffset (partsizes : list Z) (ino offset : Z) : Z :=
  fold_left (fun noffset size => u32 (noffset + size)) (take (Z.to_nat ino) partsizes) offset.

Section partdisk.
Context {S : Type} `{!BlockStore S}.
Abbreviation st := (partdisk_state S).

Definition ps_call {A} (m : M S A) : M st A :=
  lift ps_below (fun b ps => PartDisk b (ps_ninodes ps) (ps_partsizes ps)) m.

Definition partdisk_getninodes : M st Z := ps ← get; mret (i32 (ps_ninodes ps)).

(** The inode number is not checked. *)
Definition partdisk_getsize (ino : Z) : M st Z :=
  ps ← get;
  size ← read_nth (ps_partsizes ps) (Z.to_nat ino);
  mret (i32 size).

Definition partdisk_setsize (ino nblocks : Z) : M st Z := mret (-1).

Definition partdisk_read (ino offset : Z) (buf : block) : M st (Z * block) :=
  n ← partdisk_getninodes;
  let ninodes := u32 n in
  ps ← get;
  if decide (ino >= ninodes) then mret (-1, buf) else
  size ← read_nth (ps_partsizes ps) (Z.to_nat ino);
  if decide (offset >= size) then mret (-1, buf) else
  let noffset := part_noffset (ps_partsizes ps) ino offset in
  ps_call (bs_read 0 noffset buf).

Definition partdisk_write (ino offset : Z) (b : block) : M st Z :=
  n ← partdisk_getninodes;
  let ninodes := u32 n in
  ps ← get;
  if decide (ino >= ninodes) then mret (-1) else
  size ← read_nth (ps_partsizes ps) (Z.to_nat ino);
  if decide (offset >= size) then mret (-1) else
  let noffset := part_noffset (ps_partsizes ps) ino offset in
  ps_call (bs_write 0 noffset b).

Definition partdisk_release (ps : st) : S := ps_below ps.

Definition partdisk_sync (ino : Z) : M st Z := ps_call (bs_sync 0).

(** The sizes are copied, so [ninodes] of them must exist. *)
Definition partdisk_init (below : S) (ninodes : Z) (partsizes : list Z) : st :=
  PartDisk below ninodes (take (Z.to_nat ninodes) partsizes).

#[export] Instance partdisk_bs : BlockStore st := {
  bs_getninodes := partdisk_getninodes;
  bs_getsize := partdisk_getsize;
  bs_setsize := partdisk_setsize;
  bs_read := partdisk_read;
  bs_write := partdisk_write;
  bs_sync := partdisk_sync;
}.
End partdisk.

(** * The layout of the partitions *)

Lemma part_noffset_eq sizes ino offset :
  Forall (fun x => 0 <= x) sizes -> 0 <= offset ->
  offset + prefix_sum sizes (Z.to_nat ino) < two32 ->
  part_noffset sizes ino offset = offset + prefix_sum sizes (Z.to_nat ino).
Proof.
  intros Hs. unfold part_noffset, prefix_sum.
  assert (Forall (fun x => 0 <= x) (take (Z.to_nat ino) sizes)) as Ht by by apply Forall_take.
  revert offset Ht. generalize (take (Z.to_nat ino) sizes) as l.
  induction l as [|x l IH]; intros offset Ht Ho Hb; simpl in *; [lia|].
  apply Forall_cons in Ht as [Hx Ht]. pose proof (sum_list_Z_nonneg l Ht).
  rewrite (u32_small (offset + x)) by (unfold is_u32; lia). rewrite IH by (done || lia). lia.
Qed.

Section partdisk_lawful.
Context {S : Type} {R : S -> vdisk -> Prop} `{!BlockStore S, !Lawful S R}.
Abbreviation st := (partdisk_state S).

(** Partition [ino] is the range of [partsizes\[ino\]] blocks from its base. *)
Definition part_lookup (sizes : list Z) (dB : vdisk) (k : Z * Z) : option block :=
  if decide (0 <= k.1) then
    match sizes !! Z.to_nat k.1 with
    | Some size =>
        if decide (0 <= k.2 < size)
        then dB !! (0, prefix_sum sizes (Z.to_nat k.1) + k.2) else None
    | None => None
    end
  else None.

Record part_repr (ps : st) (d : vdisk) : Prop := {
  pr_len : ps_ninodes ps = Z.of_nat (length (ps_partsizes ps));
  pr_int : ps_ninodes ps < 2147483648;
  pr_sizes : Forall (fun x => 0 <= x) (ps_partsizes ps);
  pr_below : exists dB, R (ps_below ps) dB /\
    (forall off, 0 <= off < sum_list_Z (ps_partsizes ps) -> is_Some (dB !! (0, off))) /\
    (forall k, d !! k = part_lookup (ps_partsizes ps) dB k);
}.

(** What an address of the partitioned disk gives. *)
Lemma part_repr_inv ps d dB ino off :
  part_repr ps d -> R (ps_below ps) dB ->
  (forall o, 0 <= o < sum_list_Z (ps_partsizes ps) -> is_Some (dB !! (0, o))) ->
  (forall k, d !! k = part_lookup (ps_partsizes ps) dB k) ->
  is_Some (d !! (ino, off)) ->
  exists size, ps_partsizes ps !! Z.to_nat ino = Some size /\
    0 <= ino < ps_ninodes ps /\ 0 <= off < size /\
    part_noffset (ps_partsizes ps) ino off = prefix_sum (ps_partsizes ps) (Z.to_nat ino) + off /\
    is_u32 (prefix_sum (ps_partsizes ps) (Z.to_nat ino) + off) /\
    d !! (ino, off) = dB !! (0, prefix_sum (ps_partsizes ps) (Z.to_nat ino) + off).
Proof.
  intros [Hl Hint Hs _] HR Hall Hd. rewrite Hd. unfold part_lookup; cbn [fst snd].
  case_decide as Hi; [|by intros []].
  destruct (ps_partsizes ps !! Z.to_nat ino) as [size|] eqn:E; [|by intros []].
  case_decide as Ho; [|by intros []]. intros Hk. exists size.
  pose proof (prefix_in_total _ _ _ Hs E) as [Hb1 Hb2].
  assert (is_Some (dB !! (0, prefix_sum (ps_partsizes ps) (Z.to_nat ino) + off))) as Hk'
    by (apply Hall; lia).
  apply (vd_off _ (law_wf _ _ HR)) in Hk'. unfold is_u32 in Hk'.
  pose proof (lookup_lt_Some _ _ _ E).
  split; [done|]. split; [lia|]. split; [lia|].
  split; [rewrite part_noffset_eq by (done || lia); lia|]. split; [unfold is_u32; lia|done].
Qed.

#[export] Instance partdisk_lawful : Lawful st part_repr.
Proof.
  split.
  - intros ps d Hr. pose proof (pr_below _ _ Hr) as (dB & HR & Hall & Hd). split.
    + intros [ino off] b Hk.
      destruct (part_repr_inv _ _ _ ino off Hr HR Hall Hd ltac:(eauto))
        as (size & _ & _ & _ & _ & _ & He).
      rewrite He in Hk. by eapply (vd_block _ (law_wf _ _ HR)).
    + intros ino off Hk. pose proof (pr_int _ _ Hr).
      destruct (part_repr_inv _ _ _ ino off Hr HR Hall Hd Hk)
        as (size & _ & Hi & _). unfold is_u32, two32. lia.
    + intros ino off Hk.
      destruct (part_repr_inv _ _ _ ino off Hr HR Hall Hd Hk)
        as (size & Hs & Hi & Ho & Hn & Hu & He). unfold is_u32 in *.
      pose proof (prefix_in_total _ _ _ (pr_sizes _ _ Hr) Hs). lia.
  - intros ps d ino n Hr Hn Hb. pose proof (pr_below _ _ Hr) as (dB & HR & Hall & Hd).
    assert (is_Some (d !! (ino, 0)) /\ ~ is_Some (d !! (ino, n)) /\ is_Some (d !! (ino, n - 1)))
      as (H0 & H1 & H2) by (rewrite !(Hn _); lia).
    destruct (part_repr_inv _ _ _ ino _ Hr HR Hall Hd H2) as (size & E & Hi & Ho & _).
    assert (size = n) as ->.
    { destruct (decide (n < size)); [|lia]. exfalso. apply H1. rewrite Hd.
      unfold part_lookup; cbn [fst snd]. rewrite decide_True, E, decide_True by lia.
      apply Hall. pose proof (prefix_in_total _ _ _ (pr_sizes _ _ Hr) E). lia. }
    cbn [bs_getsize partdisk_bs]. unfold partdisk_getsize. steps.
    eapply wp_read_nth; [done|]. steps. split; [|done]. apply i32_small. lia.
  - intros ps d ino off b buf Hr Hk Hbuf. pose proof (pr_below _ _ Hr) as (dB & HR & Hall & Hd).
    destruct (part_repr_inv _ _ _ ino off Hr HR Hall Hd ltac:(eauto))
      as (size & E & Hi & Ho & Hn & Hu & He). pose proof (pr_int _ _ Hr).
    rewrite He in Hk.
    cbn [bs_read partdisk_bs]. unfold partdisk_read, partdisk_getninodes. steps.
    rewrite i32_small, u32_small by (unfold is_u32, two32; lia).
    rewrite decide_False by lia. steps. eapply wp_read_nth; [done|].
    rewrite decide_False by lia. unfold ps_call. steps. rewrite Hn.
    wp_use (law_read _ _ _ _ _ _ HR Hk Hbuf) as [-> HR']. split; [done|].
    destruct Hr. split; simpl; [done|done|done|]. by exists dB.
  - intros ps d ino off b Hr Hk Hb. pose proof (pr_below _ _ Hr) as (dB & HR & Hall & Hd).
    destruct (part_repr_inv _ _ _ ino off Hr HR Hall Hd Hk)
      as (size & E & Hi & Ho & Hn & Hu & He). pose proof (pr_int _ _ Hr).
    rewrite He in Hk.
    cbn [bs_write partdisk_bs]. unfold partdisk_write, partdisk_getninodes. steps.
    rewrite i32_small, u32_small by (unfold is_u32, two32; lia).
    rewrite decide_False by lia. steps. eapply wp_read_nth; [done|].
    rewrite decide_False by lia. unfold ps_call. steps. rewrite Hn.
    wp_use (law_write _ _ _ _ _ HR Hk Hb) as [-> HR']. split; [done|].
    destruct Hr as [Hl Hint Hs _]. split; simpl; [done|done|done|].
    eexists; split_and!; [done| |].
    + intros o Ho'. rewrite lookup_insert. case_decide; [done|]. by apply Hall.
    + intros [ino' off']. rewrite lookup_insert, Hd. unfold part_lookup; cbn [fst snd].
      case_decide as Hk'.
      * injection Hk' as <- <-. rewrite !decide_True, E, decide_True by lia.
        by rewrite lookup_insert_eq.
      * case_decide; [|done]. destruct (ps_partsizes ps !! Z.to_nat ino') eqn:E'; [|done].
        case_decide; [|done]. rewrite lookup_insert_ne; [done|]. intros [= Heq].
        destruct (prefix_disjoint _ _ _ _ _ _ _ Hs E E' Ho ltac:(done) Heq).
        apply Hk'. f_equal; lia.
  - intros ps d ino off Hr Hk. pose proof (pr_below _ _ Hr) as (dB & HR & Hall & Hd).
    destruct (part_repr_inv _ _ _ ino off Hr HR Hall Hd Hk)
      as (size & E & Hi & Ho & Hn & Hu & He). rewrite He in Hk.
    cbn [bs_sync partdisk_bs]. unfold partdisk_sync, ps_call. steps.
    wp_use (law_sync _ _ _ _ HR Hk) as [-> HR']. split; [done|].
    destruct Hr. split; simpl; [done|done|done|]. by exists dB.
Qed.

(** * Properties *)

(** Writing a block of one partition is what later reads of that block
    return, and no block of another partition, nor any other block of the
    same partition, changes: the store below keeps them at distinct
    addresses. *)
Lemma partdisk_isolation ps d ino off ino' off' b b' buf :
  part_repr ps d -> block_wf b -> block_wf buf ->
  is_Some (d !! (ino, off)) -> d !! (ino', off') = Some b' ->
  wp (r ← partdisk_write ino off b; x ← partdisk_read ino' off' buf; mret (r, x)) ps
     (fun r _ => r = (0, (0, if decide ((ino, off) = (ino', off')) then b else b'))).
Proof.
  intros Hr Hb Hbuf Hk Hk'. step.
  pose proof (law_write ps d ino off b Hr Hk Hb) as W. cbn [bs_write partdisk_bs] in W.
  wp_use W as [-> Hr']. step.
  assert (<[(ino, off):=b]> d !! (ino', off') =
          Some (if decide ((ino, off) = (ino', off')) then b else b')) as He.
  { rewrite lookup_insert. by destruct (decide _). }
  pose proof (law_read _ _ ino' off' _ buf Hr' He Hbuf) as L. cbn [bs_read partdisk_bs] in L.
  wp_use L as [-> _]. by step.
Qed.

(** Reads and writes outside the partitions fail with [-1] before the
    store below is touched. *)
Lemma partdisk_out_of_range ps ino offset buf b :
  ps_ninodes ps = Z.of_nat (length (ps_partsizes ps)) -> ps_ninodes ps < 2147483648 ->
  0 <= ino ->
  ps_ninodes ps <= ino \/
    (exists size, ps_partsizes ps !! Z.to_nat ino = Some size /\ size <= offset) ->
  partdisk_read ino offset buf ps = Ret ((-1, buf), ps) /\
  partdisk_write ino offset b ps = Ret (-1, ps).
Proof.
  intros Hl Hint Hi H. unfold partdisk_read, partdisk_write, partdisk_getninodes.
  unfold mbind, M_bind, get, mret, M_ret; cbn beta iota.
  rewrite i32_small, u32_small by (unfold is_u32, two32; lia).
  case_decide as Hc; [done|]. destruct H as [H|(size & E & H)]; [lia|].
  unfold read_nth. rewrite E. unfold mret, M_ret. by rewrite !decide_True by lia.
Qed.
End partdisk_lawful.

(** Two partitions of one block each. *)
Definition wit_part : partdisk_state ramdisk_state := partdisk_init wit_ram 2 [1; 1].
Definition wit_part_disk : vdisk := {[(0, 0) := null_block; (1, 0) := null_block]}.

Lemma wit_part_repr : part_repr (R:=ram_repr) wit_part wit_part_disk.
Proof.
  split; [done|done|by repeat constructor|]. exists (disk_of [null_block; null_block]).
  split; [exact wit_ram_repr|]. split.
  - intros off Ho. rewrite disk_of_lookup, decide_True by (simpl in *; lia).
    apply lookup_lt_is_Some_2. simpl in *. lia.
  - intros [i o]. unfold part_lookup. cbn [fst snd].
    destruct (decide (i = 0 \/ i = 1)) as [Hi|Hi].
    + destruct (decide (o = 0)) as [->|Ho]; [destruct Hi as [->| ->]; reflexivity|].
      assert (wit_part_disk !! (i, o) = None) as ->.
      { unfold wit_part_disk. rewrite lookup_insert_ne by congruence. by rewrite lookup_singleton_ne by congruence. }
      assert (ps_partsizes wit_part !! Z.to_nat i = Some 1) as -> by (by destruct Hi as [->| ->]).
      rewrite decide_True by lia. by rewrite decide_False by lia.
    + assert (wit_part_disk !! (i, o) = None) as ->.
      { unfold wit_part_disk. rewrite lookup_insert_ne by (intros [= E _]; lia).
        by rewrite lookup_singleton_ne by (intros [= E _]; lia). }
      destruct (decide (0 <= i)); [|done].
      by rewrite (lookup_ge_None_2 (ps_partsizes wit_part)) by (simpl; lia).
Qed.

Lemma partdisk_isolation_witness :
  wp (r ← partdisk_write 0 0 (set32 null_block 0 7); x ← partdisk_read 1 0 null_block; mret (r, x))
    wit_part (fun r _ => r = (0, (0, null_block))).
Proof.
  apply (partdisk_isolation wit_part wit_part_disk 0 0 1 0 (set32 null_block 0 7) null_block null_block
    wit_part_repr); [reflexivity|reflexivity|by eexists|reflexivity].
Defined.

Lemma partdisk_out_of_range_witness :
  partdisk_read 1 1 null_block wit_part = Ret ((-1, null_block), wit_part) /\
  partdisk_write 1 1 null_block wit_part = Ret (-1, wit_part).
Proof. apply partdisk_out_of_range; [done|done|done|]. right. by exists 1. Defined.
