(* ===== verification/CombineDisk.v ===== *)
(** src/src/block/combinedisk.c: the inodes of several stores, one after the
    other, as the inodes of one store. *)
From stdpp Require Import base numbers list gmap.
From Stdlib Require Import ZArith Lia.
From S2P Require Import Prelude BlockStore RamDisk.

Record combinedisk_state (S : Type) := CombineDisk {
  cbs_below : list S;            (* block stores below, [nbelow] of them *)
  cbs_nbelow : Z;
  cbs_belowninodes : list Z;     (* ninodes of block stores below *)
}.
Arguments CombineDisk {S}.
Arguments cbs_below {S}.
Arguments cbs_nbelow {S}.
Arguments cbs_belowninodes {S}.

(** [while ((int) (nino - belowninodes\[i\]) >= 0) { nino -= belowninodes\[i\]; i++; }],
    from the remaining counts; [None] when the loop reads past the array. *)
Fixpoint combine_locate (counts : list Z) (i : nat) (nino : Z) : option (nat * Z) :=
  match counts with
  | [] => None
  | c :: counts =>
      if decide (i32 (nino - c) >= 0)
      then combine_locate counts (Datatypes.S i) (u32 (nino - c))
      else Some (i, nino)
  end.

Section combinedisk.
Context {S : Type} `{!BlockStore S}.
Abbreviation st := (combinedisk_state S).

(** The store and the inode number in it that stand for [ino]. *)
Definition combinedisk_locate (ino : Z) : M st (nat * Z) :=
  cs ← get;
  match combine_locate (cbs_belowninodes cs) 0 ino with
  | None => undef
  | Some (i, nino) =>
      assert_ (bool_decide (Z.of_nat i <= cbs_nbelow cs));;
      mret (i, nino)
  end.

Definition cbs_call {A} (i : nat) (m : M S A) : M st A :=
  lift cbs_below (fun b cs => CombineDisk b (cbs_nbelow cs) (cbs_belowninodes cs)) (lift_nth i m).

Definition combinedisk_getninodes : M st Z :=
  cs ← get;
  mret (i32 (fold_left (fun n c => u32 (n + c))
               (take (Z.to_nat (cbs_nbelow cs)) (cbs_belowninodes cs)) 0)).

Definition combinedisk_getsize (ino : Z) : M st Z :=
  x ← combinedisk_locate ino; cbs_call x.1 (bs_getsize x.2).

Definition combinedisk_setsize (ino nblocks : Z) : M st Z :=
  x ← combinedisk_locate ino; cbs_call x.1 (bs_setsize x.2 nblocks).

Definition combinedisk_read (ino offset : Z) (buf : block) : M st (Z * block) :=
  x ← combinedisk_locate ino; cbs_call x.1 (bs_read x.2 offset buf).

Definition combinedisk_write (ino offset : Z) (b : block) : M st Z :=
  x ← combinedisk_locate ino; cbs_call x.1 (bs_write x.2 offset b).

Definition combinedisk_release (cs : st) : list S := cbs_below cs.

Definition combinedisk_sync (ino : Z) : M st Z :=
  x ← combinedisk_locate ino; cbs_call x.1 (bs_sync x.2).

(** [for (i = 0; i < nbelow; i++) belowninodes\[i\] = getninodes(below\[i\]);] *)
Fixpoint combine_count (n i : nat) : M (list S) (list Z) :=
  match n with
  | O => mret []
  | Datatypes.S n =>
      c ← lift_nth i bs_getninodes;
      cs ← combine_count n (Datatypes.S i);
      mret (u32 c :: cs)
  end.

Definition combinedisk_init (below : list S) (nbelow : Z) : outcome st :=
  match combine_count (Z.to_nat nbelow) 0 below with
  | Ret (counts, below) => Ret (CombineDisk below nbelow counts)
  | Exit => Exit
  | Undef => Undef
  | OutOfFuel => OutOfFuel
  end.

#[export] Instance combinedisk_bs : BlockStore st := {
  bs_getninodes := combinedisk_getninodes;
  bs_getsize := combinedisk_getsize;
  bs_setsize := combinedisk_setsize;
  bs_read := combinedisk_read;
  bs_write := combinedisk_write;
  bs_sync := combinedisk_sync;
}.
End combinedisk.

(** * Which store and inode an inode number stands for *)

Definition counts_ok (counts : list Z) : Prop :=
  Forall (fun x => 0 <= x) counts /\ sum_list_Z counts < 2147483648.

Lemma counts_ok_cons c counts : counts_ok (c :: counts) -> 0 <= c < 2147483648 /\ counts_ok counts.
Proof.
  intros [Hf Hs]. apply Forall_cons in Hf as [Hc Hf]. simpl in Hs.
  pose proof (sum_list_Z_nonneg counts Hf). split; [lia|]. split; [done|lia].
Qed.

(** The loop finds the store whose range of inode numbers contains [ino], and
    the position in that range. *)
Lemma combine_locate_Some counts : forall i ino j nino,
  counts_ok counts -> 0 <= ino < 2147483648 ->
  combine_locate counts i ino = Some (j, nino) <->
  exists k c, j = (i + k)%nat /\ counts !! k = Some c /\ 0 <= nino < c /\
    ino = prefix_sum counts k + nino.
Proof.
  induction counts as [|c counts IH]; intros i ino j nino Hok Hi; simpl.
  { split; [done|]. intros (k & c & _ & ? & _). done. }
  apply counts_ok_cons in Hok as [Hc Hok].
  pose proof (sum_list_Z_nonneg counts (proj1 Hok)).
  rewrite (i32_small (ino - c)) by lia. case_decide as Hd.
  - rewrite u32_small by (unfold is_u32, two32; lia). rewrite IH by (done || lia).
    split.
    + intros (k & c' & -> & Hk & Hn & He). exists (Datatypes.S k), c'.
      split_and!; [lia|done|lia|lia|]. unfold prefix_sum in *. simpl. lia.
    + intros (k & c' & -> & Hk & Hn & He). destruct k as [|k].
      { simpl in Hk. injection Hk as ->. unfold prefix_sum in He. simpl in He. lia. }
      exists k, c'. split_and!; [lia|done|lia|lia|]. unfold prefix_sum in *. simpl in He. lia.
  - split.
    + intros [= <- <-]. exists 0%nat, c. unfold prefix_sum; simpl. split_and!; [lia|done|lia..].
    + intros (k & c' & -> & Hk & Hn & He). destruct k as [|k].
      { unfold prefix_sum in He. simpl in *. rewrite He, Nat.add_0_r. done. }
      simpl in Hk. pose proof (prefix_in_total counts k c' (proj1 Hok) Hk).
      unfold prefix_sum in *. simpl in He. lia.
Qed.

(** Past the last inode the loop runs off the array. *)
Lemma combine_locate_None counts : forall i ino,
  counts_ok counts -> sum_list_Z counts <= ino < 2147483648 ->
  combine_locate counts i ino = None.
Proof.
  induction counts as [|c counts IH]; intros i ino Hok Hi; simpl; [done|].
  apply counts_ok_cons in Hok as [Hc Hok]. simpl in Hi.
  pose proof (sum_list_Z_nonneg counts (proj1 Hok)).
  rewrite (i32_small (ino - c)) by lia. rewrite decide_True by lia.
  rewrite u32_small by (unfold is_u32, two32; lia). apply IH; [done|lia].
Qed.

Section combinedisk_lawful.
Context {S : Type} {R : S -> vdisk -> Prop} `{!BlockStore S, !Lawful S R}.
Abbreviation st := (combinedisk_state S).

Definition combine_lookup (counts : list Z) (ds : list vdisk) (k : Z * Z) : option block :=
  if decide (0 <= k.1 < 2147483648) then
    match combine_locate counts 0 k.1 with
    | Some (i, nino) => dB ← ds !! i; dB !! (nino, k.2)
    | None => None
    end
  else None.

Definition combine_repr (cs : st) (d : vdisk) : Prop :=
  exists ds, Forall2 R (cbs_below cs) ds /\
    counts_ok (cbs_belowninodes cs) /\
    Z.of_nat (length (cbs_belowninodes cs)) = cbs_nbelow cs /\
    forall k, d !! k = combine_lookup (cbs_belowninodes cs) ds k.

(** What an address of the combined disk stands for. *)
Lemma combine_repr_inv (cs : st) (d : vdisk) (ds : list vdisk) ino off b :
  Forall2 R (cbs_below cs) ds -> counts_ok (cbs_belowninodes cs) ->
  Z.of_nat (length (cbs_belowninodes cs)) = cbs_nbelow cs ->
  (forall k, d !! k = combine_lookup (cbs_belowninodes cs) ds k) ->
  d !! (ino, off) = Some b ->
  exists i nino s dB,
    0 <= ino < 2147483648 /\
    combine_locate (cbs_belowninodes cs) 0 ino = Some (i, nino) /\
    combinedisk_locate ino cs = Ret ((i, nino), cs) /\
    cbs_below cs !! i = Some s /\ ds !! i = Some dB /\ R s dB /\ dB !! (nino, off) = Some b.
Proof.
  intros HR Hok Hlen Hd Hk. rewrite Hd in Hk. unfold combine_lookup in Hk; cbn [fst snd] in Hk.
  case_decide as Hi; [|done].
  destruct (combine_locate _ 0 ino) as [[i nino]|] eqn:E; [|done].
  destruct (ds !! i) as [dB|] eqn:Ed; [|done]. simpl in Hk.
  destruct (Forall2_lookup_r _ _ _ _ _ HR Ed) as (s & Es & HRs).
  exists i, nino, s, dB. split_and!; [lia|lia|done| |done..].
  unfold combinedisk_locate, mbind, M_bind, get; cbn beta iota. rewrite E.
  pose proof (proj1 (combine_locate_Some _ _ _ _ _ Hok Hi) E) as (k & c & -> & Hk' & _).
  apply lookup_lt_Some in Hk'. unfold assert_. rewrite bool_decide_true by lia. done.
Qed.

(** A step at a located inode is a step of the store it lies in. *)
Lemma combine_call {A} (f : Z -> M S A) cs ino i nino s (Q : A -> st -> Prop) :
  combinedisk_locate ino cs = Ret ((i, nino), cs) -> cbs_below cs !! i = Some s ->
  wp (f nino) s (fun a s' =>
    Q a (CombineDisk (<[i:=s']> (cbs_below cs)) (cbs_nbelow cs) (cbs_belowninodes cs))) ->
  wp (x ← combinedisk_locate ino; cbs_call x.1 (f x.2)) cs Q.
Proof.
  intros HL Hs Hf. step. eapply Ret_wp; [exact HL|]. unfold cbs_call. cbn [fst snd]. step.
  eapply wp_lift_nth; [done|]. done.
Qed.

Lemma combine_repr_same (cs : st) (d : vdisk) (ds : list vdisk) i s s' dB :
  Forall2 R (cbs_below cs) ds -> counts_ok (cbs_belowninodes cs) ->
  Z.of_nat (length (cbs_belowninodes cs)) = cbs_nbelow cs ->
  (forall k, d !! k = combine_lookup (cbs_belowninodes cs) ds k) ->
  cbs_below cs !! i = Some s -> ds !! i = Some dB -> R s' dB ->
  combine_repr (CombineDisk (<[i:=s']> (cbs_below cs)) (cbs_nbelow cs) (cbs_belowninodes cs)) d.
Proof.
  intros HR Hok Hlen Hd Hs HdB HR'. exists ds. cbn [cbs_below cbs_belowninodes cbs_nbelow].
  split_and!; try done. rewrite <- (list_insert_id ds i dB HdB). by apply Forall2_insert.
Qed.

Lemma combine_size_below (cs : st) (d : vdisk) (ds : list vdisk) ino n i nino dB :
  counts_ok (cbs_belowninodes cs) ->
  (forall k, d !! k = combine_lookup (cbs_belowninodes cs) ds k) ->
  0 <= ino < 2147483648 ->
  combine_locate (cbs_belowninodes cs) 0 ino = Some (i, nino) -> ds !! i = Some dB ->
  size_of d ino n -> size_of dB nino n.
Proof.
  intros Hok Hd Hi E HdB Hn off. rewrite <- (Hn off), Hd. unfold combine_lookup; cbn [fst snd].
  rewrite decide_True by lia. rewrite E, HdB. done.
Qed.

#[export] Instance combinedisk_lawful : Lawful st combine_repr.
Proof.
  split.
  - intros cs d (ds & HR & Hok & Hlen & Hd). split.
    + intros [ino off] b Hk.
      destruct (combine_repr_inv _ _ _ _ _ _ HR Hok Hlen Hd Hk)
        as (i & nino & s & dB & _ & _ & _ & _ & _ & HRs & Hb).
      by eapply (vd_block _ (law_wf _ _ HRs)).
    + intros ino off [b Hk].
      destruct (combine_repr_inv _ _ _ _ _ _ HR Hok Hlen Hd Hk)
        as (i & nino & s & dB & Hi & _). unfold is_u32, two32. lia.
    + intros ino off [b Hk].
      destruct (combine_repr_inv _ _ _ _ _ _ HR Hok Hlen Hd Hk)
        as (i & nino & s & dB & _ & _ & _ & _ & _ & HRs & Hb).
      by eapply (vd_off _ (law_wf _ _ HRs)).
  - intros cs d ino n (ds & HR & Hok & Hlen & Hd) Hn Hb.
    assert (is_Some (d !! (ino, 0))) as [b Hk] by (apply Hn; lia).
    destruct (combine_repr_inv _ _ _ _ _ _ HR Hok Hlen Hd Hk)
      as (i & nino & s & dB & Hi & E & HL & Hs & HdB & HRs & _).
    pose proof (combine_size_below _ _ _ _ _ _ _ _ Hok Hd Hi E HdB Hn) as HnB.
    cbn [bs_getsize combinedisk_bs]. unfold combinedisk_getsize.
    eapply combine_call; [done|done|].
    wp_use (law_getsize _ _ _ _ HRs HnB Hb) as [-> HR']. split; [done|].
    by eapply combine_repr_same.
  - intros cs d ino off b buf (ds & HR & Hok & Hlen & Hd) Hk Hbuf.
    destruct (combine_repr_inv _ _ _ _ _ _ HR Hok Hlen Hd Hk)
      as (i & nino & s & dB & Hi & E & HL & Hs & HdB & HRs & HkB).
    cbn [bs_read combinedisk_bs]. unfold combinedisk_read.
    eapply (combine_call (fun n => bs_read n off buf)); [done|done|].
    wp_use (law_read _ _ _ _ _ _ HRs HkB Hbuf) as [-> HR']. split; [done|].
    by eapply combine_repr_same.
  - intros cs d ino off b (ds & HR & Hok & Hlen & Hd) [b0 Hk] Hb.
    destruct (combine_repr_inv _ _ _ _ _ _ HR Hok Hlen Hd Hk)
      as (i & nino & s & dB & Hi & E & HL & Hs & HdB & HRs & HkB).
    cbn [bs_write combinedisk_bs]. unfold combinedisk_write.
    eapply (combine_call (fun n => bs_write n off b)); [done|done|].
    wp_use (law_write _ _ _ _ _ HRs (mk_is_Some _ _ HkB) Hb) as [-> HR']. split; [done|].
    exists (<[i:=<[(nino, off):=b]> dB]> ds). cbn [cbs_below cbs_belowninodes cbs_nbelow].
    split_and!; [by apply Forall2_insert|done|done|].
    intros [ino' off']. rewrite lookup_insert, Hd. unfold combine_lookup; cbn [fst snd].
    pose proof (lookup_lt_Some _ _ _ HdB) as Hlt.
    case_decide as Heq.
    + injection Heq as <- <-. rewrite decide_True by lia. rewrite E.
      rewrite list_lookup_insert_eq by done. simpl. by rewrite lookup_insert_eq.
    + case_decide as Hi'; [|done].
      destruct (combine_locate _ 0 ino') as [[i' nino']|] eqn:E'; [|done].
      destruct (decide (i = i')) as [<-|Hne]; [|by rewrite list_lookup_insert_ne].
      rewrite list_lookup_insert_eq, HdB by done. simpl. rewrite lookup_insert_ne; [done|].
      intros [= -> ->]. apply Heq.
      apply (combine_locate_Some _ _ _ _ _ Hok Hi) in E as (k & c & Hk1 & _ & _ & ->).
      apply (combine_locate_Some _ _ _ _ _ Hok Hi') in E' as (k' & c' & Hk2 & _ & _ & ->).
      assert (k = k') as -> by lia. done.
  - intros cs d ino off (ds & HR & Hok & Hlen & Hd) [b0 Hk].
    destruct (combine_repr_inv _ _ _ _ _ _ HR Hok Hlen Hd Hk)
      as (i & nino & s & dB & Hi & E & HL & Hs & HdB & HRs & HkB).
    cbn [bs_sync combinedisk_bs]. unfold combinedisk_sync.
    eapply (combine_call bs_sync); [done|done|].
    wp_use (law_sync _ _ _ _ HRs (mk_is_Some _ _ HkB)) as [-> HR']. split; [done|].
    by eapply combine_repr_same.
Qed.

(** * Properties *)

(** For an inode number below the total, the loop of every combinedisk
    operation stops at the store whose range contains it, with the number of
    inodes before that store subtracted, and the [assert] passes. *)
Lemma combinedisk_locate_ok (cs : st) i c nino :
  counts_ok (cbs_belowninodes cs) ->
  Z.of_nat (length (cbs_belowninodes cs)) = cbs_nbelow cs ->
  cbs_belowninodes cs !! i = Some c -> 0 <= nino < c ->
  combinedisk_locate (prefix_sum (cbs_belowninodes cs) i + nino) cs = Ret ((i, nino), cs).
Proof.
  intros Hok Hlen Hc Hn. pose proof (prefix_in_total _ _ _ (proj1 Hok) Hc) as [Hb1 Hb2].
  pose proof (proj2 Hok). pose proof (lookup_lt_Some _ _ _ Hc).
  assert (combine_locate (cbs_belowninodes cs) 0 (prefix_sum (cbs_belowninodes cs) i + nino) =
          Some (i, nino)) as E.
  { apply combine_locate_Some; [done|lia|]. exists i, c. split_and!; [done|done|lia..]. }
  unfold combinedisk_locate, mbind, M_bind, get; cbn beta iota. rewrite E.
  unfold assert_. rewrite bool_decide_true by lia. done.
Qed.

(** For an inode number at or past the total, every operation reads past
    the end of the array of counts before its [assert] is reached: the
    [assert(i <= nbelow)] never guards an access. *)
Lemma combinedisk_overrun (cs : st) ino offset buf b nblocks :
  counts_ok (cbs_belowninodes cs) -> sum_list_Z (cbs_belowninodes cs) <= ino < 2147483648 ->
  combinedisk_getsize ino cs = Undef /\ combinedisk_setsize ino nblocks cs = Undef /\
  combinedisk_read ino offset buf cs = Undef /\ combinedisk_write ino offset b cs = Undef /\
  combinedisk_sync ino cs = Undef.
Proof.
  intros Hok Hi. assert (combinedisk_locate ino cs = Undef) as HL.
  { unfold combinedisk_locate, mbind, M_bind, get; cbn beta iota.
    by rewrite combine_locate_None. }
  unfold combinedisk_getsize, combinedisk_setsize, combinedisk_read, combinedisk_write,
    combinedisk_sync, mbind, M_bind. by rewrite HL.
Qed.
End combinedisk_lawful.

(** Two ramdisks, of one inode each. *)
Definition wit_combine : combinedisk_state ramdisk_state := CombineDisk [wit_ram; wit_ram] 2 [1; 1].

Lemma wit_counts_ok : counts_ok [1; 1].
Proof. split; [by repeat constructor|done]. Qed.

Lemma combinedisk_locate_ok_witness :
  combinedisk_locate 1 wit_combine = Ret ((1%nat, 0), wit_combine).
Proof. apply (combinedisk_locate_ok wit_combine 1 1 0 wit_counts_ok); done. Defined.

Lemma combinedisk_overrun_witness : combinedisk_read 2 0 null_block wit_combine = Undef.
Proof.
  destruct (combinedisk_overrun wit_combine 2 0 null_block null_block 0 wit_counts_ok ltac:(done))
    as (_ & _ & H & _). exact H.
Defined.
