(* ===== verification/Raid.v ===== *)
(** src/src/block/raid0disk.c (striping), raid1disk.c (mirroring) and
    raid4disk.c (a skeleton: its reads and writes are not implemented). *)
From stdpp Require Import base numbers list gmap.
From Stdlib Require Import ZArith Lia.
From S2P Require Import Prelude BlockStore RamDisk.

(** * raid0disk *)

Record raid0disk_state (S : Type) := Raid0Disk {
  r0_below : list S;      (* block stores below *)
  r0_nbelow : Z;          (* #block stores *)
}.
Arguments Raid0Disk {S}.
Arguments r0_below {S}.
Arguments r0_nbelow {S}.

Section raid0disk.
Context {S : Type} `{!BlockStore S}.
Abbreviation st := (raid0disk_state S).

Definition r0_call {A} (i : nat) (m : M S A) : M st A :=
  lift r0_below (fun b rds => Raid0Disk b (r0_nbelow rds)) (lift_nth i m).

Definition raid0disk_getninodes : M st Z := mret 1.

(** [n] more rounds of the loop; every round asks the first store, and the
    signed sum must not overflow. *)
Fixpoint raid0_total (n : nat) (ino total : Z) : M st Z :=
  match n with
  | O => mret total
  | Datatypes.S n =>
      r ← r0_call 0 (bs_getsize ino);
      if decide (r < 0) then mret r else
      if decide (total + r >= 2147483648) then undef else
      raid0_total n ino (total + r)
  end.

Definition raid0disk_getsize (ino : Z) : M st Z :=
  if decide (ino <> 0) then mret (-1) else
  rds ← get;
  raid0_total (Z.to_nat (r0_nbelow rds)) ino 0.

Definition raid0disk_setsize (ino nblocks : Z) : M st Z := mret (-1).

Definition raid0disk_read (ino offset : Z) (buf : block) : M st (Z * block) :=
  if decide (ino <> 0) then mret (-1, buf) else
  rds ← get;
  if decide (r0_nbelow rds = 0) then undef else   (* division by zero *)
  let i := offset mod r0_nbelow rds in
  r0_call (Z.to_nat i) (bs_read ino (offset / r0_nbelow rds) buf).

Definition raid0disk_write (ino offset : Z) (b : block) : M st Z :=
  if decide (ino <> 0) then mret (-1) else
  rds ← get;
  if decide (r0_nbelow rds = 0) then undef else
  let i := offset mod r0_nbelow rds in
  r0_call (Z.to_nat i) (bs_write ino (offset / r0_nbelow rds) b).

Definition raid0disk_release (rds : st) : list S := r0_below rds.

(** [n] more rounds of the loop, from store [i]. *)
Fixpoint raid_sync_loop (n i : nat) (ino : Z) : M (list S) Z :=
  match n with
  | O => mret 0
  | Datatypes.S n =>
      r ← lift_nth i (bs_sync ino);
      if decide (r < 0) then mret (-1) else raid_sync_loop n (Datatypes.S i) ino
  end.

Definition raid0disk_sync (ino : Z) : M st Z :=
  rds ← get;
  lift r0_below (fun b rds => Raid0Disk b (r0_nbelow rds))
    (raid_sync_loop (Z.to_nat (r0_nbelow rds)) 0 ino).

Definition raid0disk_init (below : list S) (nbelow : Z) : st := Raid0Disk below nbelow.

#[export] Instance raid0disk_bs : BlockStore st := {
  bs_getninodes := raid0disk_getninodes;
  bs_getsize := raid0disk_getsize;
  bs_setsize := raid0disk_setsize;
  bs_read := raid0disk_read;
  bs_write := raid0disk_write;
  bs_sync := raid0disk_sync;
}.
End raid0disk.

Section raid0_lawful.
Context {S : Type} {R : S -> vdisk -> Prop} `{!BlockStore S, !Lawful S R}.
Abbreviation st := (raid0disk_state S).

(** Block [offset] is block [offset / n] of store [offset mod n]; inode 0 of
    every store has [m] blocks. *)
Definition raid0_lookup (n : Z) (ds : list vdisk) (k : Z * Z) : option block :=
  if decide (k.1 = 0 /\ 0 <= k.2) then
    dB ← ds !! Z.to_nat (k.2 mod n); dB !! (0, k.2 / n)
  else None.

Record raid0_repr (rds : st) (d : vdisk) : Prop := {
  r0_len : r0_nbelow rds = Z.of_nat (length (r0_below rds));
  r0_pos : 0 < r0_nbelow rds;
  r0_disks : exists ds m, Forall2 R (r0_below rds) ds /\
    Forall (fun dB => size_of dB 0 m) ds /\
    r0_nbelow rds * m < 2147483648 /\
    forall k, d !! k = raid0_lookup (r0_nbelow rds) ds k;
}.

Lemma raid0_repr_inv (rds : st) (d : vdisk) (ds : list vdisk) (m ino off : Z) b :
  Forall2 R (r0_below rds) ds -> Forall (fun dB => size_of dB 0 m) ds ->
  (forall k, d !! k = raid0_lookup (r0_nbelow rds) ds k) -> 0 < r0_nbelow rds ->
  d !! (ino, off) = Some b ->
  ino = 0 /\ 0 <= off < r0_nbelow rds * m /\
  exists s dB, r0_below rds !! Z.to_nat (off mod r0_nbelow rds) = Some s /\
    ds !! Z.to_nat (off mod r0_nbelow rds) = Some dB /\ R s dB /\
    dB !! (0, off / r0_nbelow rds) = Some b.
Proof.
  intros HR Hm Hd Hp Hk. rewrite Hd in Hk. unfold raid0_lookup in Hk; cbn [fst snd] in Hk.
  case_decide as Hi; [|done]. destruct Hi as [-> Ho].
  destruct (ds !! Z.to_nat (off mod r0_nbelow rds)) as [dB|] eqn:E; [|done]. simpl in Hk.
  assert (0 <= off / r0_nbelow rds < m) as Hq.
  { apply (Forall_lookup_1 _ _ _ _ Hm E (off / r0_nbelow rds)). eauto. }
  pose proof (Z.div_mod off (r0_nbelow rds) ltac:(lia)).
  pose proof (Z.mod_pos_bound off (r0_nbelow rds) Hp).
  destruct (Forall2_lookup_r _ _ _ _ _ HR E) as (s & Es & HRs).
  split; [done|]. split; [nia|]. by exists s, dB.
Qed.

Lemma raid0_repr_same (rds : st) (d : vdisk) (ds : list vdisk) (m : Z) i s s' dB :
  raid0_repr rds d -> Forall2 R (r0_below rds) ds -> Forall (fun dB => size_of dB 0 m) ds ->
  r0_nbelow rds * m < 2147483648 ->
  (forall k, d !! k = raid0_lookup (r0_nbelow rds) ds k) ->
  r0_below rds !! i = Some s -> ds !! i = Some dB -> R s' dB ->
  raid0_repr (Raid0Disk (<[i:=s']> (r0_below rds)) (r0_nbelow rds)) d.
Proof.
  intros Hr HR Hm Hb Hd Hs HdB HR'. split; cbn [r0_below r0_nbelow].
  - rewrite length_insert. apply Hr.
  - apply Hr.
  - exists ds, m. split_and!; [|done..].
    rewrite <- (list_insert_id ds i dB HdB). by apply Forall2_insert.
Qed.

Lemma raid0_sync_spec (ds : list vdisk) : forall n i l,
  Forall2 R l ds -> (i + n = length l)%nat ->
  (forall dB, dB ∈ ds -> is_Some (dB !! (0, 0))) ->
  wp (raid_sync_loop n i 0) l (fun r l' => r = 0 /\ Forall2 R l' ds /\ length l' = length l).
Proof.
  induction n as [|n IH]; intros i l HR Hn H0; cbn [raid_sync_loop]; [by step|].
  destruct (lookup_lt_is_Some_2 l i ltac:(lia)) as [s Hs].
  destruct (Forall2_lookup_l _ _ _ _ _ HR Hs) as (dB & HdB & HRs). step.
  eapply wp_lift_nth; [done|].
  wp_use (law_sync _ _ _ 0 HRs (H0 _ (list_elem_of_lookup_2 _ _ _ HdB))) as [-> HR'].
  rewrite decide_False by lia.
  wp_use (IH (Datatypes.S i) (<[i:=s']> l)) as (-> & HR2 & Hl2).
  - rewrite <- (list_insert_id ds i dB HdB). by apply Forall2_insert.
  - rewrite length_insert. lia.
  - done.
  - split_and!; [done|done|]. by rewrite Hl2, length_insert.
Qed.

Lemma raid0_total_spec (ds : list vdisk) (m : Z) (d : vdisk) : forall n (rds : st) total,
  raid0_repr rds d -> Forall2 R (r0_below rds) ds -> Forall (fun dB => size_of dB 0 m) ds ->
  r0_nbelow rds * m < 2147483648 -> (forall k, d !! k = raid0_lookup (r0_nbelow rds) ds k) ->
  0 < m -> 0 <= total -> total + Z.of_nat n * m <= r0_nbelow rds * m ->
  wp (raid0_total n 0 total) rds (fun r rds' => r = total + Z.of_nat n * m /\ raid0_repr rds' d).
Proof.
  induction n as [|n IH]; intros rds total Hr HR Hm Hb Hd Hp Ht Hn; cbn [raid0_total].
  { step. split; [lia|done]. }
  pose proof (r0_len _ _ Hr). pose proof (r0_pos _ _ Hr).
  destruct (lookup_lt_is_Some_2 (r0_below rds) 0 ltac:(lia)) as [s Hs].
  destruct (Forall2_lookup_l _ _ _ _ _ HR Hs) as (dB & HdB & HRs).
  unfold r0_call. steps. eapply wp_lift_nth; [done|].
  wp_use (law_getsize _ _ 0 m HRs (Forall_lookup_1 _ _ _ _ Hm HdB)) as [-> HR']; [nia|].
  rewrite decide_False by lia. rewrite decide_False by nia.
  pose proof (raid0_repr_same _ _ _ _ _ _ _ _ Hr HR Hm Hb Hd Hs HdB HR') as Hr'.
  wp_use (IH _ (total + m) Hr') as [-> Hr'']; cbn [r0_below r0_nbelow]; try done; [|lia|lia|].
  - rewrite <- (list_insert_id ds 0 dB HdB). by apply Forall2_insert.
  - split; [lia|done].
Qed.

#[export] Instance raid0_lawful : Lawful st raid0_repr.
Proof.
  split.
  - intros rds d Hr. pose proof (r0_disks _ _ Hr) as (ds & m & HR & Hm & Hb & Hd). split.
    + intros [ino off] b Hk.
      destruct (raid0_repr_inv _ _ _ _ _ _ _ HR Hm Hd (r0_pos _ _ Hr) Hk)
        as (_ & _ & s & dB & _ & _ & HRs & HkB). by eapply (vd_block _ (law_wf _ _ HRs)).
    + intros ino off [b Hk].
      by destruct (raid0_repr_inv _ _ _ _ _ _ _ HR Hm Hd (r0_pos _ _ Hr) Hk) as (-> & _).
    + intros ino off [b Hk].
      destruct (raid0_repr_inv _ _ _ _ _ _ _ HR Hm Hd (r0_pos _ _ Hr) Hk) as (_ & Ho & _).
      unfold is_u32, two32. lia.
  - intros rds d ino n Hr Hn Hbn. pose proof (r0_disks _ _ Hr) as (ds & m & HR & Hm & Hb & Hd).
    pose proof (r0_pos _ _ Hr) as Hp. pose proof (r0_len _ _ Hr) as Hlen.
    assert (is_Some (d !! (ino, n - 1))) as [b Hk] by (apply Hn; lia).
    destruct (raid0_repr_inv _ _ _ _ _ _ _ HR Hm Hd Hp Hk) as (-> & Ho & _).
    assert (n = r0_nbelow rds * m) as ->.
    { destruct (decide (n < r0_nbelow rds * m)) as [Hlt|]; [exfalso|lia].
      enough (is_Some (d !! (0, n))) as H by (apply Hn in H; lia).
      rewrite Hd. unfold raid0_lookup; cbn [fst snd]. rewrite decide_True by lia.
      pose proof (Z.mod_pos_bound n _ Hp).
      pose proof (Forall2_length _ _ _ HR) as Hl.
      destruct (lookup_lt_is_Some_2 ds (Z.to_nat (n mod r0_nbelow rds)) ltac:(lia)) as [dB E].
      rewrite E. simpl. apply (Forall_lookup_1 _ _ _ _ Hm E).
      split; [apply Z.div_pos; lia|apply Z.div_lt_upper_bound; lia]. }
    cbn [bs_getsize raid0disk_bs]. unfold raid0disk_getsize. rewrite decide_False by lia. steps.
    wp_use (raid0_total_spec ds m d) as [-> Hr']; try done; [nia|lia|]. split; [lia|done].
  - intros rds d ino off b buf Hr Hk Hbuf.
    pose proof (r0_disks _ _ Hr) as (ds & m & HR & Hm & Hb & Hd).
    destruct (raid0_repr_inv _ _ _ _ _ _ _ HR Hm Hd (r0_pos _ _ Hr) Hk)
      as (-> & Ho & s & dB & Hs & HdB & HRs & HkB). pose proof (r0_pos _ _ Hr).
    cbn [bs_read raid0disk_bs]. unfold raid0disk_read, r0_call.
    rewrite decide_False by lia. steps. rewrite decide_False by lia. steps.
    eapply wp_lift_nth; [done|].
    wp_use (law_read _ _ _ _ _ _ HRs HkB Hbuf) as [-> HR']. split; [done|].
    by eapply raid0_repr_same.
  - intros rds d ino off b Hr [b0 Hk] Hbl.
    pose proof (r0_disks _ _ Hr) as (ds & m & HR & Hm & Hb & Hd).
    destruct (raid0_repr_inv _ _ _ _ _ _ _ HR Hm Hd (r0_pos _ _ Hr) Hk)
      as (-> & Ho & s & dB & Hs & HdB & HRs & HkB). pose proof (r0_pos _ _ Hr) as Hp.
    cbn [bs_write raid0disk_bs]. unfold raid0disk_write, r0_call.
    rewrite decide_False by lia. steps. rewrite decide_False by lia. steps.
    eapply wp_lift_nth; [done|].
    wp_use (law_write _ _ _ _ _ HRs (mk_is_Some _ _ HkB) Hbl) as [-> HR']. split; [done|].
    split; cbn [r0_below r0_nbelow]; [rewrite length_insert; apply Hr|done|].
    exists (<[Z.to_nat (off mod r0_nbelow rds):=<[(0, off / r0_nbelow rds):=b]> dB]> ds), m.
    split_and!; [by apply Forall2_insert| |done|].
    { apply Forall_insert; [done|]. eapply same_dom_size_of; [by apply same_dom_insert|].
      exact (Forall_lookup_1 _ _ _ _ Hm HdB). }
    intros [ino' off']. rewrite lookup_insert, Hd. unfold raid0_lookup; cbn [fst snd].
    pose proof (lookup_lt_Some _ _ _ HdB) as Hlt. case_decide as Heq.
    + injection Heq as <- <-. rewrite decide_True by lia.
      rewrite list_lookup_insert_eq by done. simpl. by rewrite lookup_insert_eq.
    + case_decide as Hi'; [|done]. destruct Hi' as [-> Ho'].
      destruct (decide (Z.to_nat (off mod r0_nbelow rds) = Z.to_nat (off' mod r0_nbelow rds)))
        as [He|Hne]; [|by rewrite list_lookup_insert_ne].
      rewrite <- He, list_lookup_insert_eq, HdB by done. simpl.
      rewrite lookup_insert_ne; [done|]. intros [= Hq]. apply Heq. f_equal.
      pose proof (Z.div_mod off (r0_nbelow rds) ltac:(lia)).
      pose proof (Z.div_mod off' (r0_nbelow rds) ltac:(lia)).
      pose proof (Z.mod_pos_bound off _ Hp). pose proof (Z.mod_pos_bound off' _ Hp). nia.
  - intros rds d ino off Hr [b Hk].
    pose proof (r0_disks _ _ Hr) as (ds & m & HR & Hm & Hb & Hd).
    destruct (raid0_repr_inv _ _ _ _ _ _ _ HR Hm Hd (r0_pos _ _ Hr) Hk) as (-> & Ho & _).
    pose proof (r0_len _ _ Hr). pose proof (r0_pos _ _ Hr).
    cbn [bs_sync raid0disk_bs]. unfold raid0disk_sync. steps.
    wp_use (raid0_sync_spec ds) as (-> & HR' & Hl'); [done|lia| |].
    + intros dB HdB. apply list_elem_of_lookup in HdB as [i HdB].
      apply (Forall_lookup_1 _ _ _ _ Hm HdB). nia.
    + split; [done|]. split; cbn [r0_below r0_nbelow]; [lia|done|]. by exists ds, m.
Qed.
End raid0_lawful.

(** * raid1disk *)

Record raid1disk_state (S : Type) := Raid1Disk {
  r1_below : list S;        (* block stores below *)
  r1_nbelow : Z;            (* #block stores *)
  r1_broken : list bool;    (* keeps track of which stores are broken *)
}.
Arguments Raid1Disk {S}.
Arguments r1_below {S}.
Arguments r1_nbelow {S}.
Arguments r1_broken {S}.

Section raid1disk.
Context {S : Type} `{!BlockStore S}.
Abbreviation st := (raid1disk_state S).

Definition r1_call {A} (i : nat) (m : M S A) : M st A :=
  lift r1_below (fun b rds => Raid1Disk b (r1_nbelow rds) (r1_broken rds)) (lift_nth i m).

Definition r1_is_broken (i : nat) : M st bool :=
  rds ← get; read_nth (r1_broken rds) i.

Definition r1_break (i : nat) : M st unit :=
  modify (fun rds => Raid1Disk (r1_below rds) (r1_nbelow rds) (<[i:=true]> (r1_broken rds))).

(** Try the stores from [i] on until one works: the loop of
    [raid1disk_getninodes] and [raid1disk_getsize]. *)
Fixpoint raid1_first (n i : nat) (m : M S Z) : M st Z :=
  match n with
  | O => mret (-1)
  | Datatypes.S n =>
      br ← r1_is_broken i;
      if br : bool then raid1_first n (Datatypes.S i) m else
      r ← r1_call i m;
      if decide (r < 0) then r1_break i;; raid1_first n (Datatypes.S i) m else
      mret r
  end.

(** Run [m] on all the stores from [i] on: the loop of [raid1disk_write] and
    [raid1disk_sync]. *)
Fixpoint raid1_all (n i : nat) (result : Z) (m : M S Z) : M st Z :=
  match n with
  | O => mret result
  | Datatypes.S n =>
      br ← r1_is_broken i;
      if br : bool then raid1_all n (Datatypes.S i) result m else
      r ← r1_call i m;
      if decide (r < 0) then r1_break i;; raid1_all n (Datatypes.S i) result m else
      raid1_all n (Datatypes.S i) 0 m
  end.

Definition raid1disk_getninodes : M st Z :=
  rds ← get; raid1_first (Z.to_nat (r1_nbelow rds)) 0 bs_getninodes.

Definition raid1disk_getsize (ino : Z) : M st Z :=
  rds ← get; raid1_first (Z.to_nat (r1_nbelow rds)) 0 (bs_getsize ino).

(** Broken stores are asked too. *)
Fixpoint raid1_setsize_loop (n i : nat) (oldsize ino nblocks : Z) : M st Z :=
  match n with
  | O => mret oldsize
  | Datatypes.S n =>
      r ← r1_call i (bs_setsize ino nblocks);
      if decide (r < 0)
      then r1_break i;; raid1_setsize_loop n (Datatypes.S i) oldsize ino nblocks
      else raid1_setsize_loop n (Datatypes.S i) r ino nblocks
  end.

Definition raid1disk_setsize (ino nblocks : Z) : M st Z :=
  rds ← get; raid1_setsize_loop (Z.to_nat (r1_nbelow rds)) 0 (-1) ino nblocks.

Fixpoint raid1_read_loop (n i : nat) (ino offset : Z) (buf : block) : M st (Z * block) :=
  match n with
  | O => mret (-1, buf)
  | Datatypes.S n =>
      br ← r1_is_broken i;
      if br : bool then raid1_read_loop n (Datatypes.S i) ino offset buf else
      x ← r1_call i (bs_read ino offset buf);
      if decide (x.1 >= 0) then mret (0, x.2)
      else raid1_read_loop n (Datatypes.S i) ino offset x.2
  end.

Definition raid1disk_read (ino offset : Z) (buf : block) : M st (Z * block) :=
  rds ← get; raid1_read_loop (Z.to_nat (r1_nbelow rds)) 0 ino offset buf.

Definition raid1disk_write (ino offset : Z) (b : block) : M st Z :=
  rds ← get; raid1_all (Z.to_nat (r1_nbelow rds)) 0 (-1) (bs_write ino offset b).

Definition raid1disk_release (rds : st) : list S := r1_below rds.

Definition raid1disk_sync (ino : Z) : M st Z :=
  rds ← get; raid1_all (Z.to_nat (r1_nbelow rds)) 0 (-1) (bs_sync ino).

Definition raid1disk_init (below : list S) (nbelow : Z) : st :=
  Raid1Disk below nbelow (replicate (Z.to_nat nbelow) false).

#[export] Instance raid1disk_bs : BlockStore st := {
  bs_getninodes := raid1disk_getninodes;
  bs_getsize := raid1disk_getsize;
  bs_setsize := raid1disk_setsize;
  bs_read := raid1disk_read;
  bs_write := raid1disk_write;
  bs_sync := raid1disk_sync;
}.
End raid1disk.

(** * raid4disk *)

Record raid4disk_state (S : Type) := Raid4Disk {
  r4_below : list S;      (* block stores below *)
  r4_nbelow : Z;          (* #block stores *)
}.
Arguments Raid4Disk {S}.
Arguments r4_below {S}.
Arguments r4_nbelow {S}.

Section raid4disk.
Context {S : Type} `{!BlockStore S}.
Abbreviation st := (raid4disk_state S).

Definition r4_lift {A} (m : M (list S) A) : M st A :=
  lift r4_below (fun b rds => Raid4Disk b (r4_nbelow rds)) m.

Definition raid4disk_getninodes : M st Z := mret 1.

(** Not implemented: fails for every inode. *)
Definition raid4disk_getsize (ino : Z) : M st Z :=
  if decide (ino <> 0) then mret (-1) else mret (-1).

Fixpoint raid4_setsize_loop (n i : nat) (nblocks : Z) : M (list S) unit :=
  match n with
  | O => mret tt
  | Datatypes.S n =>
      r ← lift_nth i (bs_setsize 0 nblocks);
      raid4_setsize_loop n (Datatypes.S i) nblocks
  end.

Definition raid4disk_setsize (ino nblocks : Z) : M st Z :=
  if decide (ino <> 0) then mret (-1) else
  rds ← get;
  r4_lift (raid4_setsize_loop (Z.to_nat (r4_nbelow rds)) 0 nblocks);;
  mret 0.

(** Not implemented: reports success without filling the buffer. *)
Definition raid4disk_read (ino offset : Z) (buf : block) : M st (Z * block) :=
  if decide (ino <> 0) then mret (-1, buf) else mret (0, buf).

(** Not implemented: fails. *)
Definition raid4disk_write (ino offset : Z) (b : block) : M st Z :=
  if decide (ino <> 0) then mret (-1) else mret (-1).

Definition raid4disk_release (rds : st) : list S := r4_below rds.

Definition raid4disk_sync (ino : Z) : M st Z :=
  rds ← get; r4_lift (raid_sync_loop (Z.to_nat (r4_nbelow rds)) 0 ino).

(** [None] is the null pointer. *)
Definition raid4disk_init (below : list S) (nbelow : Z) : option st :=
  if decide (nbelow <= 1) then None else Some (Raid4Disk below nbelow).

#[export] Instance raid4disk_bs : BlockStore st := {
  bs_getninodes := raid4disk_getninodes;
  bs_getsize := raid4disk_getsize;
  bs_setsize := raid4disk_setsize;
  bs_read := raid4disk_read;
  bs_write := raid4disk_write;
  bs_sync := raid4disk_sync;
}.
End raid4disk.

(** * Mirroring survives failures

    A fail-stop store may fail any request; while it does not fail it behaves
    as the disk it represents. *)
Class FailStop (S : Type) `{!BlockStore S} (R : S -> vdisk -> Prop) : Prop := {
  fs_getsize : forall s d ino n,
    R s d -> size_of d ino n -> 0 < n < 2147483648 ->
    wp (bs_getsize ino) s (fun r s' => 0 <= r -> r = n /\ R s' d);
  fs_read : forall s d ino off b buf,
    R s d -> d !! (ino, off) = Some b -> block_wf buf ->
    wp (bs_read ino off buf) s
      (fun r s' => R s' d /\ block_wf r.2 /\ (0 <= r.1 -> r.2 = b));
  fs_write : forall s d ino off b,
    R s d -> is_Some (d !! (ino, off)) -> block_wf b ->
    wp (bs_write ino off b) s (fun r s' => 0 <= r -> R s' (<[(ino, off):=b]> d));
  fs_sync : forall s d ino off,
    R s d -> is_Some (d !! (ino, off)) ->
    wp (bs_sync ino) s (fun r s' => 0 <= r -> R s' d);
}.

(** Every lawful store is fail-stop. *)
Lemma lawful_failstop S R `{!BlockStore S, !Lawful S R} : FailStop S R.
Proof.
  split.
  - intros s d ino n HR Hn Hb. by wp_use (law_getsize _ _ _ _ HR Hn Hb) as [-> ?].
  - intros s d ino off b buf HR Hk Hb. wp_use (law_read _ _ _ _ _ _ HR Hk Hb) as [-> ?].
    split_and!; [done| |done]. by eapply (vd_block _ (law_wf _ _ HR)).
  - intros s d ino off b HR Hk Hb. by wp_use (law_write _ _ _ _ _ HR Hk Hb) as [-> ?].
  - intros s d ino off HR Hk. by wp_use (law_sync _ _ _ _ HR Hk) as [-> ?].
Qed.

Section raid1_mirror.
Context {S : Type} {R RL : S -> vdisk -> Prop} `{!BlockStore S, !FailStop S R, !Lawful S RL}.
Abbreviation st := (raid1disk_state S).

(** Shape of the state, and what holds of the stores not marked broken: those
    before [i] represent [d'], the others [d]. *)
Record mirrors (i : nat) (d d' : vdisk) (rds : st) : Prop := {
  mi_len : length (r1_broken rds) = length (r1_below rds);
  mi_n : r1_nbelow rds = Z.of_nat (length (r1_below rds));
  mi_repr : forall k s, r1_below rds !! k = Some s -> r1_broken rds !! k = Some false ->
    R s (if decide (k < i)%nat then d' else d);
}.

(** Store [j] is a lawful store, not marked broken, that holds [d]. *)
Definition survivor (j : nat) (d : vdisk) (rds : st) : Prop :=
  r1_broken rds !! j = Some false /\ exists s, r1_below rds !! j = Some s /\ RL s d.

Lemma mirrors_skip i d d' rds :
  mirrors i d d' rds -> r1_broken rds !! i = Some true -> mirrors (Datatypes.S i) d d' rds.
Proof.
  intros [Hl Hn Hr] Hb. split; [done|done|]. intros k s Hs Hk.
  assert (k <> i) by congruence. pose proof (Hr k s Hs Hk) as Hx.
  repeat case_decide; (done || lia).
Qed.

Lemma mirrors_step i d d' rds s' :
  mirrors i d d' rds -> R s' d' ->
  mirrors (Datatypes.S i) d d' (Raid1Disk (<[i:=s']> (r1_below rds)) (r1_nbelow rds) (r1_broken rds)).
Proof.
  intros [Hl Hn Hr] HR. split; cbn [r1_below r1_nbelow r1_broken]; rewrite ?length_insert; try done.
  intros k s Hs Hk. destruct (decide (k = i)) as [->|Hne].
  - rewrite decide_True by lia. apply list_lookup_insert_Some in Hs as [(_ & <- & _)|(? & _)]; done.
  - rewrite list_lookup_insert_ne in Hs by done. pose proof (Hr k s Hs Hk) as Hx.
    repeat case_decide; (done || lia).
Qed.

Lemma mirrors_break i d d' rds s' :
  mirrors i d d' rds ->
  mirrors (Datatypes.S i) d d'
    (Raid1Disk (<[i:=s']> (r1_below rds)) (r1_nbelow rds) (<[i:=true]> (r1_broken rds))).
Proof.
  intros [Hl Hn Hr]. split; cbn [r1_below r1_nbelow r1_broken]; rewrite ?length_insert; try done.
  intros k s Hs Hk. destruct (decide (k = i)) as [->|Hne].
  - apply list_lookup_insert_Some in Hk as [(_ & [=] & _)|(? & _)]; done.
  - rewrite list_lookup_insert_ne in Hs by done. rewrite list_lookup_insert_ne in Hk by done. pose proof (Hr k s Hs Hk) as Hx.
    repeat case_decide; (done || lia).
Qed.

Lemma mirrors_same d i j rds : mirrors i d d rds -> mirrors j d d rds.
Proof.
  intros [Hl Hn Hr]. split; [done|done|]. intros k s Hs Hk.
  pose proof (Hr k s Hs Hk) as Hx. by repeat case_decide.
Qed.

Lemma mirrors_start d d' rds : mirrors 0 d d rds -> mirrors 0 d d' rds.
Proof.
  intros [Hl Hn Hr]. split; [done|done|]. intros k s Hs Hk.
  pose proof (Hr k s Hs Hk) as Hx. repeat case_decide; (done || lia).
Qed.

Lemma mirrors_end n d d' rds :
  mirrors n d d' rds -> n = length (r1_below rds) -> mirrors 0 d' d' rds.
Proof.
  intros [Hl Hn Hr] ->. split; [done|done|]. intros k s Hs Hk.
  pose proof (Hr k s Hs Hk) as Hx. apply lookup_lt_Some in Hs.
  rewrite decide_True in Hx by lia. by destruct (decide (k < 0)%nat).
Qed.

(** What [raid1_all] does when [m] turns a fail-stop [d] into [d'], and a
    lawful [d] into [d'] without failing. *)
Lemma raid1_all_spec d d' m :
  (forall s, R s d -> wp m s (fun r s' => 0 <= r -> R s' d')) ->
  (forall s, RL s d -> wp m s (fun r s' => r = 0 /\ RL s' d')) ->
  forall n i j result rds,
    mirrors i d d' rds -> (i + n = length (r1_below rds))%nat ->
    survivor j (if decide (j < i)%nat then d' else d) rds -> ((j < i)%nat -> result = 0) ->
    wp (raid1_all n i result m) rds
      (fun r rds' => r = 0 /\ mirrors 0 d' d' rds' /\ survivor j d' rds').
Proof.
  intros HR HL. induction n as [|n IH]; intros i j result rds Hm Hn Hj Hres; cbn [raid1_all].
  { step. pose proof Hj as (_ & s & Hs & _). apply lookup_lt_Some in Hs.
    rewrite decide_True in Hj by lia. split; [apply Hres; lia|].
    split; [|done]. eapply mirrors_end; [done|lia]. }
  destruct (lookup_lt_is_Some_2 (r1_broken rds) i) as [br Hbr]; [rewrite (mi_len _ _ _ _ Hm); lia|].
  destruct (lookup_lt_is_Some_2 (r1_below rds) i ltac:(lia)) as [s Hs].
  unfold r1_is_broken. steps. eapply wp_read_nth; [done|]. destruct br.
  { assert (j <> i) by (intros ->; destruct Hj as [Hj _]; congruence).
    apply (IH _ j); [by apply mirrors_skip|lia| |].
    - repeat case_decide; (done || lia).
    - intros. apply Hres. lia. }
  pose proof (mi_repr _ _ _ _ Hm i s Hs Hbr) as HRs. rewrite decide_False in HRs by lia.
  unfold r1_call. steps. eapply wp_lift_nth; [done|].
  destruct (decide (j = i)) as [->|Hne].
  - destruct Hj as (_ & s2 & Hs2 & HLs). rewrite decide_False in HLs by lia.
    assert (s2 = s) as -> by congruence.
    wp_use (wp_and _ _ _ _ (HR s HRs) (HL s HLs)) as (HR' & -> & HL').
    rewrite decide_False by lia. apply (IH _ i).
    + apply mirrors_step; [done|by apply HR'].
    + cbn. rewrite length_insert. lia.
    + rewrite decide_True by lia. split; [done|]. eexists. split; [|done].
      cbn. by rewrite list_lookup_insert_eq by lia.
    + done.
  - assert (forall s' br, survivor j (if decide (j < Datatypes.S i)%nat then d' else d)
       (Raid1Disk (<[i:=s']> (r1_below rds)) (r1_nbelow rds)
          (if br : bool then <[i:=true]> (r1_broken rds) else r1_broken rds))) as Hj'.
    { intros s' br. destruct Hj as (Hb & s2 & Hs2 & HLs). split; cbn.
      - destruct br; [by rewrite list_lookup_insert_ne|done].
      - exists s2. rewrite list_lookup_insert_ne by done. split; [done|].
        repeat case_decide; (done || lia). }
    wp_use (HR s HRs) as HR'. decide_goal as Hr.
    + unfold r1_break. steps. cbn [r1_below r1_nbelow r1_broken]. apply (IH _ j).
      * by apply mirrors_break.
      * cbn. rewrite length_insert. lia.
      * apply (Hj' _ true).
      * intros. apply Hres. lia.
    + apply (IH _ j); [apply mirrors_step; [done|apply HR'; lia]|cbn; rewrite length_insert; lia| |done].
      apply (Hj' _ false).
Qed.

Lemma raid1_first_spec d m v :
  0 <= v ->
  (forall s, R s d -> wp m s (fun r s' => 0 <= r -> r = v /\ R s' d)) ->
  (forall s, RL s d -> wp m s (fun r s' => r = v /\ RL s' d)) ->
  forall n i j rds,
    mirrors 0 d d rds -> (i + n = length (r1_below rds))%nat ->
    survivor j d rds -> (i <= j)%nat ->
    wp (raid1_first n i m) rds (fun r rds' => r = v /\ mirrors 0 d d rds' /\ survivor j d rds').
Proof.
  intros Hv HR HL. induction n as [|n IH]; intros i j rds Hm Hn Hj Hij; cbn [raid1_first].
  { exfalso. destruct Hj as (_ & s & Hs & _). apply lookup_lt_Some in Hs. lia. }
  destruct (lookup_lt_is_Some_2 (r1_broken rds) i) as [br Hbr]; [rewrite (mi_len _ _ _ _ Hm); lia|].
  destruct (lookup_lt_is_Some_2 (r1_below rds) i ltac:(lia)) as [s Hs].
  unfold r1_is_broken. steps. eapply wp_read_nth; [done|]. destruct br.
  { assert (j <> i) by (intros ->; destruct Hj as [Hj _]; congruence).
    apply (IH _ j); (done || lia). }
  pose proof (mi_repr _ _ _ _ (mirrors_same _ _ i _ Hm) i s Hs Hbr) as HRs.
  rewrite decide_False in HRs by lia.
  unfold r1_call. steps. eapply wp_lift_nth; [done|].
  destruct (decide (j = i)) as [->|Hne].
  - destruct Hj as (Hb & s2 & Hs2 & HLs). assert (s2 = s) as -> by congruence.
    wp_use (wp_and _ _ _ _ (HR s HRs) (HL s HLs)) as (HR' & -> & HL').
    destruct (HR' Hv) as [_ HR2].
    rewrite decide_False by lia. step. split; [done|]. split.
    + eapply mirrors_same. apply (mirrors_step i); [by eapply mirrors_same|done].
    + split; [done|]. eexists. split; [|done]. cbn. by rewrite list_lookup_insert_eq by lia.
  - assert (forall s' br, survivor j d
       (Raid1Disk (<[i:=s']> (r1_below rds)) (r1_nbelow rds)
          (if br : bool then <[i:=true]> (r1_broken rds) else r1_broken rds))) as Hj'.
    { intros s' br. destruct Hj as (Hb & s2 & Hs2 & HLs). split; cbn.
      - destruct br; [by rewrite list_lookup_insert_ne|done].
      - exists s2. by rewrite list_lookup_insert_ne. }
    wp_use (HR s HRs) as HR'. decide_goal as Hr.
    + unfold r1_break. steps. cbn [r1_below r1_nbelow r1_broken]. apply (IH _ j).
      * eapply mirrors_same. apply (mirrors_break i). by eapply mirrors_same.
      * cbn. rewrite length_insert. lia.
      * apply (Hj' _ true).
      * lia.
    + step. destruct (HR' ltac:(lia)) as [-> HR2]. split; [done|]. split; [|apply (Hj' _ false)].
      eapply mirrors_same. apply (mirrors_step i); [by eapply mirrors_same|done].
Qed.

Lemma raid1_read_loop_spec d ino off b :
  vdisk_wf d -> d !! (ino, off) = Some b ->
  forall n i j rds buf,
    mirrors 0 d d rds -> (i + n = length (r1_below rds))%nat ->
    survivor j d rds -> (i <= j)%nat -> block_wf buf ->
    wp (raid1_read_loop n i ino off buf) rds
      (fun r rds' => r = (0, b) /\ mirrors 0 d d rds' /\ survivor j d rds').
Proof.
  intros Hwf Hk. induction n as [|n IH]; intros i j rds buf Hm Hn Hj Hij Hbuf; cbn [raid1_read_loop].
  { exfalso. destruct Hj as (_ & s & Hs & _). apply lookup_lt_Some in Hs. lia. }
  destruct (lookup_lt_is_Some_2 (r1_broken rds) i) as [br Hbr]; [rewrite (mi_len _ _ _ _ Hm); lia|].
  destruct (lookup_lt_is_Some_2 (r1_below rds) i ltac:(lia)) as [s Hs].
  unfold r1_is_broken. steps. eapply wp_read_nth; [done|]. destruct br.
  { assert (j <> i) by (intros ->; destruct Hj as [Hj _]; congruence).
    apply (IH _ j); (done || lia). }
  pose proof (mi_repr _ _ _ _ (mirrors_same _ _ i _ Hm) i s Hs Hbr) as HRs.
  rewrite decide_False in HRs by lia.
  unfold r1_call. steps. eapply wp_lift_nth; [done|].
  assert (forall s', R s' d -> mirrors 0 d d
     (Raid1Disk (<[i:=s']> (r1_below rds)) (r1_nbelow rds) (r1_broken rds))) as Hm'.
  { intros s' HR'. eapply mirrors_same. apply (mirrors_step i); [by eapply mirrors_same|done]. }
  destruct (decide (j = i)) as [->|Hne].
  - destruct Hj as (Hb & s2 & Hs2 & HLs). assert (s2 = s) as -> by congruence.
    wp_use (wp_and _ _ _ _ (fs_read _ _ _ _ _ _ HRs Hk Hbuf) (law_read _ _ _ _ _ _ HLs Hk Hbuf))
      as ((HR' & _ & _) & -> & HL').
    cbn [fst snd]. rewrite decide_True by lia. step. split; [done|]. split; [by apply Hm'|].
    split; [done|]. eexists. split; [|done]. cbn. by rewrite list_lookup_insert_eq by lia.
  - assert (forall s', survivor j d
       (Raid1Disk (<[i:=s']> (r1_below rds)) (r1_nbelow rds) (r1_broken rds))) as Hj'.
    { intros s'. destruct Hj as (Hb & s2 & Hs2 & HLs). split; [done|]. exists s2.
      cbn. by rewrite list_lookup_insert_ne. }
    wp_use (fs_read _ _ _ _ _ _ HRs Hk Hbuf) as (HR' & Hw' & Hv). decide_goal as Hr.
    + step. rewrite Hv by lia. split; [done|]. split; [by apply Hm'|apply Hj'].
    + apply (IH _ j); [by apply Hm'|cbn; rewrite length_insert; lia|apply Hj'|lia|done].
Qed.

(** The array as a whole, with store [j] surviving. *)
Definition raid1_repr (j : nat) (rds : st) (d : vdisk) : Prop :=
  mirrors 0 d d rds /\ survivor j d rds.

#[export] Instance raid1_lawful j : Lawful st (raid1_repr j).
Proof.
  split.
  - intros rds d [_ (_ & s & _ & HL)]. by eapply law_wf.
  - intros rds d ino n [Hm Hj] Hn Hb. cbn [bs_getsize raid1disk_bs].
    unfold raid1disk_getsize. steps.
    wp_use (raid1_first_spec d (bs_getsize ino) n) as (-> & Hm' & Hj').
    1: lia. 3: done. 3: rewrite (mi_n _ _ _ _ Hm); lia. 3: done. 3: lia. 3: done.
    + intros s HR. by apply fs_getsize.
    + intros s HL. by apply law_getsize.
  - intros rds d ino off b buf [Hm Hj] Hk Hbuf. cbn [bs_read raid1disk_bs].
    unfold raid1disk_read. steps.
    assert (vdisk_wf d) as Hwf by (destruct Hj as (_ & s & _ & HL); by eapply law_wf).
    wp_use (raid1_read_loop_spec d ino off b) as (-> & Hm' & Hj'); try done; [|lia].
    rewrite (mi_n _ _ _ _ Hm). lia.
  - intros rds d ino off b [Hm Hj] Hk Hb. cbn [bs_write raid1disk_bs].
    unfold raid1disk_write. steps.
    apply (raid1_all_spec d _ _) with (j := j); [| |by apply mirrors_start| | |lia].
    + intros s HR. by apply fs_write.
    + intros s HL. by apply law_write.
    + rewrite (mi_n _ _ _ _ Hm). lia.
    + by rewrite decide_False by lia.
  - intros rds d ino off [Hm Hj] Hk. cbn [bs_sync raid1disk_bs].
    unfold raid1disk_sync. steps.
    apply (raid1_all_spec d _ _) with (j := j); [| |by apply mirrors_start| | |lia].
    + intros s HR. by eapply fs_sync.
    + intros s HL. by eapply law_sync.
    + rewrite (mi_n _ _ _ _ Hm). lia.
    + by rewrite decide_False by lia.
Qed.

(** C27. A RAID1 array keeps answering every sequence of requests exactly as the
    disk does, as long as one mirror does not fail and the others are fail-stop: they may
    fail any request, but what succeeds is right. Writes reach every mirror that has not
    failed, and a mirror that missed a write is never read again. *)
Theorem raid1_survives j rds d qs :
  mirrors 0 d d rds -> survivor j d rds -> Forall (valid_req d) qs ->
  wp (exec_reqs qs) rds (fun rs rds' =>
    rs = (spec_reqs d qs).1 /\ survivor j (spec_reqs d qs).2 rds' /\
    mirrors 0 (spec_reqs d qs).2 (spec_reqs d qs).2 rds').
Proof.
  intros Hm Hj Hqs. assert (raid1_repr j rds d) as HR by done.
  by wp_use (exec_reqs_spec qs rds d HR Hqs) as (-> & Hm' & Hj').
Qed.
End raid1_mirror.

(** A store that stops answering after a number of requests, or never: what the
    theorem above is instantiated with. *)
Record flaky (S : Type) := Flaky {
  fl_store : S;
  fl_fuse : option nat;
}.
Arguments Flaky {S}.
Arguments fl_store {S}.
Arguments fl_fuse {S}.

Section flaky.
Context {S : Type} `{!BlockStore S}.

Definition fl_try {A} (dead : A) (m : M S A) : M (flaky S) A :=
  f ← get;
  match fl_fuse f with
  | Some O => mret dead
  | Some (Datatypes.S n) => put (Flaky (fl_store f) (Some n));;
                            lift fl_store (fun s f => Flaky s (fl_fuse f)) m
  | None => lift fl_store (fun s f => Flaky s (fl_fuse f)) m
  end.

#[export] Instance flaky_bs : BlockStore (flaky S) := {
  bs_getninodes := fl_try (-1) bs_getninodes;
  bs_getsize ino := fl_try (-1) (bs_getsize ino);
  bs_setsize ino n := fl_try (-1) (bs_setsize ino n);
  bs_read ino off buf := fl_try (-1, buf) (bs_read ino off buf);
  bs_write ino off b := fl_try (-1) (bs_write ino off b);
  bs_sync ino := fl_try (-1) (bs_sync ino);
}.

Context {R : S -> vdisk -> Prop} `{!Lawful S R}.

Definition flaky_repr (f : flaky S) (d : vdisk) : Prop := R (fl_store f) d.
Definition steady_repr (f : flaky S) (d : vdisk) : Prop := fl_fuse f = None /\ R (fl_store f) d.

Lemma fl_try_failstop {A} (dead : A) m f (Q : A -> S -> Prop) :
  Q dead (fl_store f) -> wp m (fl_store f) Q ->
  wp (fl_try dead m) f (fun a f' => Q a (fl_store f')).
Proof.
  intros Hd Hm. unfold fl_try. steps.
  destruct (fl_fuse f) as [[|n]|]; steps; [done| |]; wp_use Hm as HQ; done.
Qed.

Lemma fl_try_steady {A} (dead : A) m f (Q : A -> S -> Prop) :
  fl_fuse f = None -> wp m (fl_store f) Q ->
  wp (fl_try dead m) f (fun a f' => fl_fuse f' = None /\ Q a (fl_store f')).
Proof.
  intros Hf Hm. unfold fl_try. steps. rewrite Hf. steps. by wp_use Hm as HQ.
Qed.

#[export] Instance flaky_failstop : FailStop (flaky S) flaky_repr.
Proof.
  split; unfold flaky_repr; intros f d ino; cbn [bs_getsize bs_read bs_write bs_sync flaky_bs].
  - intros n HR Hn Hb. apply (fl_try_failstop (-1) _ f (fun r s => 0 <= r -> r = n /\ R s d)); [lia|].
    by wp_use (law_getsize _ _ _ _ HR Hn Hb) as [-> ?].
  - intros off b buf HR Hk Hb.
    apply (fl_try_failstop _ _ f (fun r s => R s d /\ block_wf r.2 /\ (0 <= r.1 -> r.2 = b))); [done|].
    wp_use (law_read _ _ _ _ _ _ HR Hk Hb) as [-> ?].
    split_and!; [done| |done]. by eapply (vd_block _ (law_wf _ _ HR)).
  - intros off b HR Hk Hb.
    apply (fl_try_failstop _ _ f (fun r s => 0 <= r -> R s (<[(ino, off):=b]> d))); [lia|].
    by wp_use (law_write _ _ _ _ _ HR Hk Hb) as [-> ?].
  - intros off HR Hk. apply (fl_try_failstop _ _ f (fun r s => 0 <= r -> R s d)); [lia|].
    by wp_use (law_sync _ _ _ _ HR Hk) as [-> ?].
Qed.

#[export] Instance flaky_lawful : Lawful (flaky S) steady_repr.
Proof.
  split; [intros f d [_ HR]; by eapply law_wf|..];
    intros f d ino; cbn [bs_getsize bs_read bs_write bs_sync flaky_bs].
  - intros n [Hf HR] Hn Hb.
    wp_use (fl_try_steady _ _ _ _ Hf (law_getsize _ _ _ _ HR Hn Hb)) as (? & -> & ?). done.
  - intros off b buf [Hf HR] Hk Hb.
    wp_use (fl_try_steady _ _ _ _ Hf (law_read _ _ _ _ _ _ HR Hk Hb)) as (? & -> & ?). done.
  - intros off b [Hf HR] Hk Hb.
    wp_use (fl_try_steady _ _ _ _ Hf (law_write _ _ _ _ _ HR Hk Hb)) as (? & -> & ?). done.
  - intros off [Hf HR] Hk.
    wp_use (fl_try_steady _ _ _ _ Hf (law_sync _ _ _ _ HR Hk)) as (? & -> & ?). done.
Qed.
End flaky.

(** Two mirrors, of which the first stops answering after one request. *)
Definition wit_raid1 : raid1disk_state (flaky ramdisk_state) :=
  raid1disk_init [Flaky wit_ram (Some 1%nat); Flaky wit_ram None] 2.

Lemma raid1_survives_witness :
  wp (exec_reqs [RWrite 0 0 null_block; RRead 0 0; RSync 0]) wit_raid1
    (fun rs rds' => rs = [Status 0; Data 0 null_block; Status 0] /\ r1_broken rds' = [true; false]).
Proof.
  set (d := disk_of [null_block; null_block]).
  assert (mirrors (R := flaky_repr (R := ram_repr)) 0 d d wit_raid1) as Hm.
  { split; [done|done|]. intros [|[|k]] s [= <-] _; simpl; apply wit_ram_repr. }
  assert (survivor (RL := steady_repr (R := ram_repr)) 1 d wit_raid1) as Hj.
  { split; [done|]. exists (Flaky wit_ram None). split; [done|]. split; [done|]. apply wit_ram_repr. }
  assert (is_Some (d !! (0, 0))) as Hd by (vm_compute; eauto).
  assert (Forall (valid_req d) [RWrite 0 0 null_block; RRead 0 0; RSync 0]) as Hq.
  { repeat constructor; [done| |]; simpl; eauto. }
  pose proof (raid1_survives 1 wit_raid1 d _ Hm Hj Hq) as (rs & rds' & E & -> & _)%wp_Ret.
  eapply Ret_wp; [exact E|]. split.
  - vm_compute. done.
  - revert E. vm_compute. intros E. injection E as <-. done.
Defined.
