(* ===== verification/CheckDisk.v ===== *)
(** src/src/block/checkdisk.c: forwards every request and checks that reads
    return what was last read or written. *)
From stdpp Require Import base numbers list gmap strings.
From Stdlib Require Import ZArith Lia.
From S2P Require Import Prelude BlockStore RamDisk.

(** [struct block_list], as a list from the head. *)
Record block_entry := BlockEntry {
  be_ino : Z;
  be_offset : Z;
  be_block : block;
}.

Record checkdisk_state (S : Type) := CheckDisk {
  cd_below : S;
  cd_descr : string;           (* to disambiguate multiple instances *)
  cd_bl : list block_entry;    (* info about data written *)
}.
Arguments CheckDisk {S}.
Arguments cd_below {S}.
Arguments cd_descr {S}.
Arguments cd_bl {S}.

Definition entry_is (ino offset : Z) (e : block_entry) : Prop :=
  be_ino e = ino /\ be_offset e = offset.

#[export] Instance entry_is_dec ino offset e : Decision (entry_is ino offset e).
Proof. apply and_dec; apply Z.eq_dec. Defined.

Section checkdisk.
Context {S : Type} `{!BlockStore S}.
Abbreviation st := (checkdisk_state S).

Definition cd_call {A} (m : M S A) : M st A :=
  lift cd_below (fun b cs => CheckDisk b (cd_descr cs) (cd_bl cs)) m.

Definition cd_set_bl (bl : list block_entry) : M st unit :=
  modify (fun cs => CheckDisk (cd_below cs) (cd_descr cs) bl).

Definition checkdisk_getninodes : M st Z := cd_call bs_getninodes.

Definition checkdisk_getsize (ino : Z) : M st Z := cd_call (bs_getsize ino).

Definition checkdisk_setsize (ino nblocks : Z) : M st Z :=
  cs ← get;
  cd_set_bl (base.filter (fun e => ~ (be_ino e = ino /\ be_offset e >= nblocks)) (cd_bl cs));;
  cd_call (bs_setsize ino nblocks).

Definition checkdisk_read (ino offset : Z) (buf : block) : M st (Z * block) :=
  x ← cd_call (bs_read ino offset buf);
  let '(r, buf) := x : Z * block in
  if decide (r < 0) then mret (-1, buf) else
  cs ← get;
  match list_find (entry_is ino offset) (cd_bl cs) with
  | Some (_, e) =>
      if decide (be_block e <> buf) then panic else mret (0, buf)
  | None =>
      cd_set_bl (BlockEntry ino offset buf :: cd_bl cs);;
      mret (0, buf)
  end.

Definition checkdisk_write (ino offset : Z) (b : block) : M st Z :=
  result ← cd_call (bs_write ino offset b);
  if decide (result < 0) then mret (-1) else
  cs ← get;
  match list_find (entry_is ino offset) (cd_bl cs) with
  | Some (i, e) => cd_set_bl (<[i:=BlockEntry (be_ino e) (be_offset e) b]> (cd_bl cs))
  | None => cd_set_bl (BlockEntry ino offset b :: cd_bl cs)
  end;;
  mret result.

Definition checkdisk_release (cs : st) : S := cd_below cs.

Definition checkdisk_sync (ino : Z) : M st Z := cd_call (bs_sync ino).

Definition checkdisk_init (below : S) (descr : string) : st := CheckDisk below descr [].

#[export] Instance checkdisk_bs : BlockStore st := {
  bs_getninodes := checkdisk_getninodes;
  bs_getsize := checkdisk_getsize;
  bs_setsize := checkdisk_setsize;
  bs_read := checkdisk_read;
  bs_write := checkdisk_write;
  bs_sync := checkdisk_sync;
}.
End checkdisk.

(** * What the list knows about an address *)

Definition known (bl : list block_entry) (ino offset : Z) : option block :=
  match list_find (entry_is ino offset) bl with
  | Some (_, e) => Some (be_block e)
  | None => None
  end.

Lemma known_cons e bl ino offset :
  known (e :: bl) ino offset =
  if decide (entry_is ino offset e) then Some (be_block e) else known bl ino offset.
Proof.
  unfold known. simpl. destruct (decide (entry_is ino offset e)); [done|].
  by destruct (list_find _ bl) as [[??]|].
Qed.

(** Updating the entry that the search finds. *)
Lemma known_update bl i e ino offset b ino' offset' :
  list_find (entry_is ino offset) bl = Some (i, e) ->
  known (<[i:=BlockEntry (be_ino e) (be_offset e) b]> bl) ino' offset' =
  if decide ((ino, offset) = (ino', offset')) then Some b else known bl ino' offset'.
Proof.
  revert i. induction bl as [|e0 bl IH]; intros i Hf; [done|].
  simpl in Hf. destruct (decide (entry_is ino offset e0)) as [He|He].
  - injection Hf as <- <-. simpl. rewrite !known_cons. destruct e0 as [i0 o0 b0].
    destruct He as [E1 E2]. simpl in E1, E2. subst i0 o0.
    destruct (decide ((ino, offset) = (ino', offset'))) as [[= -> ->]|Hne].
    + by rewrite decide_True by done.
    + rewrite !decide_False; [done|..]; intros [E1 E2]; simpl in *; congruence.
  - destruct (list_find (entry_is ino offset) bl) as [[i0 e1]|] eqn:E; [|done].
    simpl in Hf. injection Hf as <- <-. simpl. rewrite !known_cons, (IH _ eq_refl).
    destruct (decide (entry_is ino' offset' e0)) as [He'|]; [|done].
    rewrite decide_False; [done|]. intros [= -> ->]. done.
Qed.

Section checkdisk_lawful.
Context {S : Type} {R : S -> vdisk -> Prop} `{!BlockStore S, !Lawful S R}.
Abbreviation st := (checkdisk_state S).

(** Everything the list knows is what the disk holds. *)
Definition check_repr (cs : st) (d : vdisk) : Prop :=
  R (cd_below cs) d /\ forall ino off b, known (cd_bl cs) ino off = Some b -> d !! (ino, off) = Some b.

#[export] Instance checkdisk_lawful : Lawful st check_repr.
Proof.
  split.
  - intros cs d [HR _]. by eapply law_wf.
  - intros cs d ino n [HR Hk] Hn Hb. cbn [bs_getsize checkdisk_bs].
    unfold checkdisk_getsize, cd_call. steps.
    by wp_use (law_getsize _ _ _ _ HR Hn Hb) as [-> HR'].
  - intros cs d ino off b buf [HR Hbl] Hk Hbuf. cbn [bs_read checkdisk_bs].
    unfold checkdisk_read, cd_call. steps.
    wp_use (law_read _ _ _ _ _ _ HR Hk Hbuf) as [-> HR']. rewrite decide_False by lia. steps.
    cbn [cd_bl]. pose proof (Hbl ino off) as Hkn. unfold known in Hkn.
    destruct (list_find _ (cd_bl cs)) as [[i e]|] eqn:E.
    + specialize (Hkn _ eq_refl). rewrite decide_False by congruence. by step.
    + unfold cd_set_bl. steps. split; [done|]. split; [done|]. cbn [cd_bl].
      intros ino' off' b'. rewrite known_cons. decide_goal as He; [|by apply Hbl].
      destruct He as [<- <-]. by intros [= <-].
  - intros cs d ino off b [HR Hbl] Hk Hb. cbn [bs_write checkdisk_bs].
    unfold checkdisk_write, cd_call. steps.
    wp_use (law_write _ _ _ _ _ HR Hk Hb) as [-> HR']. rewrite decide_False by lia. steps.
    cbn [cd_bl].
    destruct (list_find _ (cd_bl cs)) as [[i e]|] eqn:E; unfold cd_set_bl; steps;
      (split; [done|]); (split; [done|]); cbn [cd_bl]; intros ino' off' b'; rewrite lookup_insert.
    + rewrite (known_update _ _ _ _ _ b ino' off' E). decide_goal as He; [done|]. apply Hbl.
    + rewrite known_cons. unfold entry_is; cbn [be_ino be_offset be_block].
      decide_goal as He.
      * destruct He as [-> ->]. by rewrite decide_True.
      * rewrite decide_False by (intros [= ? ?]; auto). apply Hbl.
  - intros cs d ino off [HR Hbl] Hk. cbn [bs_sync checkdisk_bs].
    unfold checkdisk_sync, cd_call. steps. by wp_use (law_sync _ _ _ _ HR Hk) as [-> HR'].
Qed.
End checkdisk_lawful.

(** * Properties *)

Section checkdisk_detects.
Context {S : Type} `{!BlockStore S}.
Abbreviation st := (checkdisk_state S).

(** [writes_to qs ino off]: one of the requests writes that address. *)
Definition writes_to (ino off : Z) (q : request) : Prop :=
  match q with RWrite i o _ => i = ino /\ o = off | _ => False end.

(** What a call of the store below leaves alone. *)
Lemma cd_call_bl {A} (m : M S A) (cs : st) a cs' :
  cd_call m cs = Ret (a, cs') -> cd_bl cs' = cd_bl cs.
Proof.
  unfold cd_call, lift. destruct (m (cd_below cs)) as [[a0 s]| | |]; [|done..].
  by intros [= <- <-].
Qed.

Lemma checkdisk_read_known ino off buf (cs : st) r x cs' :
  checkdisk_read ino off buf cs = Ret ((r, x), cs') ->
  (r = -1 /\ cd_bl cs' = cd_bl cs) \/
  (r = 0 /\ known (cd_bl cs') ino off = Some x /\
   forall i o, known (cd_bl cs) i o <> None -> known (cd_bl cs') i o = known (cd_bl cs) i o).
Proof.
  unfold checkdisk_read, mbind, M_bind.
  destruct (cd_call (bs_read ino off buf) cs) as [[[r0 x0] cs0]| | |] eqn:E; [|done..].
  apply cd_call_bl in E. decide_goal as Hr; [intros [= <- <- <-]; by left|].
  unfold get. cbn beta iota. rewrite E. unfold known at 1.
  destruct (list_find (entry_is ino off) (cd_bl cs)) as [[i e]|] eqn:F.
  - decide_goal as Hne; [done|]. intros [= <- <- <-]. right. rewrite E, F.
    split; [done|]. split; [|done]. f_equal. by apply dec_stable.
  - intros [= <- <- <-]. right. split; [done|]. cbn [cd_bl]. split.
    + cbn [list_find]. by rewrite decide_True by done.
    + intros i o Hk. rewrite known_cons. decide_goal as He; [|done].
      destruct He as [<- <-]. cbn [be_ino be_offset] in Hk. unfold known in Hk. by rewrite F in Hk.
Qed.

Lemma checkdisk_write_known ino off b (cs : st) r cs' :
  checkdisk_write ino off b cs = Ret (r, cs') ->
  (r = -1 /\ cd_bl cs' = cd_bl cs) \/
  (0 <= r /\ forall i o, known (cd_bl cs') i o =
     if decide ((ino, off) = (i, o)) then Some b else known (cd_bl cs) i o).
Proof.
  unfold checkdisk_write, mbind, M_bind.
  destruct (cd_call (bs_write ino off b) cs) as [[r0 cs0]| | |] eqn:E; [|done..].
  apply cd_call_bl in E. decide_goal as Hr; [intros [= <- <-]; by left|].
  unfold get. cbn beta iota. rewrite E.
  destruct (list_find (entry_is ino off) (cd_bl cs)) as [[i e]|] eqn:F;
    intros [= <- <-]; right; (split; [lia|]); intros i' o'; cbn [cd_bl].
  - by apply known_update.
  - rewrite known_cons. unfold entry_is; cbn [be_ino be_offset be_block].
    destruct (decide (ino = i' /\ off = o')) as [[-> ->]|He]; [by rewrite decide_True|].
    rewrite decide_False by (intros [= ? ?]; auto). done.
Qed.

Lemma exec_req_known ino off b q (cs : st) r cs' :
  ~ writes_to ino off q -> known (cd_bl cs) ino off = Some b ->
  exec_req q cs = Ret (r, cs') -> known (cd_bl cs') ino off = Some b.
Proof.
  intros Hw Hk. destruct q as [i o|i o b'|i]; cbn [exec_req bs_read bs_write bs_sync checkdisk_bs];
    unfold mbind, M_bind.
  - destruct (checkdisk_read i o null_block cs) as [[[r0 x] cs0]| | |] eqn:E; [|done..].
    intros [= <- <-]. apply checkdisk_read_known in E as [[_ ->]|(_ & _ & E)]; [done|].
    by rewrite E; rewrite Hk.
  - destruct (checkdisk_write i o b' cs) as [[r0 cs0]| | |] eqn:E; [|done..].
    intros [= <- <-]. apply checkdisk_write_known in E as [[_ ->]|(_ & E)]; [done|].
    rewrite E, decide_False; [done|]. intros [= -> ->]. by apply Hw.
  - destruct (checkdisk_sync i cs) as [[r0 cs0]| | |] eqn:E; [|done..].
    intros [= <- <-]. apply cd_call_bl in E. by rewrite E.
Qed.

Lemma exec_reqs_known ino off b qs : forall (cs : st) rs cs',
  Forall (fun q => ~ writes_to ino off q) qs -> known (cd_bl cs) ino off = Some b ->
  exec_reqs qs cs = Ret (rs, cs') -> known (cd_bl cs') ino off = Some b.
Proof.
  induction qs as [|q qs IH]; intros cs rs cs' Hw Hk; cbn [exec_reqs].
  { by intros [= <- <-]. }
  apply Forall_cons in Hw as [Hq Hw]. unfold mbind, M_bind.
  destruct (exec_req q cs) as [[r cs1]| | |] eqn:E1; [|done..].
  destruct (exec_reqs qs cs1) as [[rs2 cs2]| | |] eqn:E2; [|done..].
  intros [= <- <-]. eapply IH; [done| |exact E2]. by eapply exec_req_known.
Qed.

(** C28. Whatever the store below does, once a write of [b] has been
    acknowledged, and as long as that address is not written again, every
    later read of it through the checkdisk that reports success returns [b]:
    corruption ends the process, it is never passed on. *)
Theorem checkdisk_no_silent_corruption ino off b r1 (cs cs1 cs2 cs3 : st) qs rs buf r x :
  checkdisk_write ino off b cs = Ret (r1, cs1) -> 0 <= r1 ->
  Forall (fun q => ~ writes_to ino off q) qs ->
  exec_reqs qs cs1 = Ret (rs, cs2) ->
  checkdisk_read ino off buf cs2 = Ret ((r, x), cs3) -> 0 <= r -> x = b.
Proof.
  intros Hw Hr1 Hqs Hex Hrd Hr.
  apply checkdisk_write_known in Hw as [[-> _]|(_ & Hk)]; [lia|].
  specialize (Hk ino off). rewrite decide_True in Hk by done.
  eapply exec_reqs_known in Hex; [|done|done].
  apply checkdisk_read_known in Hrd as [[-> _]|(_ & Hk2 & Hsame)]; [lia|].
  rewrite Hsame in Hk2 by congruence. congruence.
Qed.
End checkdisk_detects.

Definition wit_check : checkdisk_state ramdisk_state := checkdisk_init wit_ram EmptyString.

Definition final {S A} (o : outcome (A * S)) (s : S) : S := if o is Ret (_, s') then s' else s.

Definition wit_check1 := final (checkdisk_write 0 1 (set32 null_block 0 7) wit_check) wit_check.
Definition wit_check2 := final (exec_reqs [RWrite 0 0 null_block] wit_check1) wit_check1.
Definition wit_check3 := final (checkdisk_read 0 1 null_block wit_check2) wit_check2.

Lemma checkdisk_no_silent_corruption_witness :
  exists x, checkdisk_read 0 1 null_block wit_check2 = Ret ((0, x), wit_check3) /\
    x = set32 null_block 0 7.
Proof.
  assert (exists x, checkdisk_read 0 1 null_block wit_check2 = Ret ((0, x), wit_check3)) as [x Hx]
    by (eexists; vm_compute; reflexivity).
  exists x. split; [exact Hx|].
  apply (checkdisk_no_silent_corruption 0 1 (set32 null_block 0 7) 0 wit_check wit_check1 wit_check2
    wit_check3 [RWrite 0 0 null_block] [Status 0] null_block 0 x).
  - vm_compute. reflexivity.
  - done.
  - constructor; [|constructor]. by intros [_ ?].
  - vm_compute. reflexivity.
  - exact Hx.
  - done.
Defined.
