(* ===== verification/ClockDisk.v ===== *)
(** src/src/block/clockdisk.c: a write-back block cache with the CLOCK
    replacement strategy. *)
From stdpp Require Import base numbers list gmap.
From Stdlib Require Import ZArith Lia.
From S2P Require Import Prelude BlockStore RamDisk.

Inductive block_status := EMPTY | OLD | NEW.

#[export] Instance block_status_eq_dec : EqDecision block_status.
Proof. solve_decision. Defined.

Record block_info := BlockInfo {
  bi_status : block_status;
  bi_dirty : Z;
  bi_ino : Z;
  bi_offset : Z;
}.

(** [struct clockdisk_state]: the store below, the cache slots (the caller's
    memory and the array that [calloc] returned, both of [nblocks] elements),
    the clock hand, the statistics, and the statistics printed so far. *)
Record clock_stats := ClockStats {
  read_hit : Z;
  read_miss : Z;
  write_hit : Z;
  write_miss : Z;
  nops : Z;
}.

Record clock_cache := ClockCache {
  c_blocks : list block;
  c_infos : list block_info;
  c_nblocks : Z;
  c_hand : Z;
}.

Record clockdisk_state (S : Type) := ClockDisk {
  cs_below : S;
  cs_cache : clock_cache;
  cs_stats : clock_stats;
  cs_stdout : list (Z * Z * Z * Z);
}.
Arguments ClockDisk {S}.
Arguments cs_below {S}.
Arguments cs_cache {S}.
Arguments cs_stats {S}.
Arguments cs_stdout {S}.

(** The condition of the search loops. *)
Definition slot_is (ino offset : Z) (bi : block_info) : Prop :=
  bi_status bi <> EMPTY /\ bi_ino bi = ino /\ bi_offset bi = offset.

#[export] Instance slot_is_dec ino offset bi : Decision (slot_is ino offset bi).
Proof. unfold slot_is. apply _. Defined.

Definition set_status (s : block_status) (bi : block_info) : block_info :=
  BlockInfo s (bi_dirty bi) (bi_ino bi) (bi_offset bi).

Definition set_dirty (d : Z) (bi : block_info) : block_info :=
  BlockInfo (bi_status bi) d (bi_ino bi) (bi_offset bi).

Section clockdisk.
Context {S : Type} `{!BlockStore S}.
Abbreviation st := (clockdisk_state S).

Definition cs_call {A} (m : M S A) : M st A :=
  lift cs_below (fun b cs => ClockDisk b (cs_cache cs) (cs_stats cs) (cs_stdout cs)) m.

Definition cs_set_cache (f : clock_cache -> clock_cache) : M st unit :=
  modify (fun cs => ClockDisk (cs_below cs) (f (cs_cache cs)) (cs_stats cs) (cs_stdout cs)).

Definition cs_set_stats (f : clock_stats -> clock_stats) : M st unit :=
  modify (fun cs => ClockDisk (cs_below cs) (cs_cache cs) (f (cs_stats cs)) (cs_stdout cs)).

(** [cs->block_infos\[i\] = f (cs->block_infos\[i\])] for an [i] in range. *)
Definition set_info (i : nat) (f : block_info -> block_info) (c : clock_cache) : clock_cache :=
  ClockCache (c_blocks c) (alter f i (c_infos c)) (c_nblocks c) (c_hand c).

Definition set_block (i : nat) (b : block) (c : clock_cache) : clock_cache :=
  ClockCache (<[i:=b]> (c_blocks c)) (c_infos c) (c_nblocks c) (c_hand c).

Definition set_hand (h : Z) (c : clock_cache) : clock_cache :=
  ClockCache (c_blocks c) (c_infos c) (c_nblocks c) h.

Definition clockdisk_dump_stats : M st unit :=
  modify (fun cs => ClockDisk (cs_below cs) (cs_cache cs) (cs_stats cs)
    (cs_stdout cs ++ [(read_hit (cs_stats cs), read_miss (cs_stats cs),
                       write_hit (cs_stats cs), write_miss (cs_stats cs))])).

Definition clockdisk_dump_stats_if_needed : M st unit :=
  cs ← get;
  if decide (nops (cs_stats cs) mod 20 = 0) then clockdisk_dump_stats else mret tt.

Definition count_op : M st unit :=
  cs_set_stats (fun s => ClockStats (read_hit s) (read_miss s) (write_hit s) (write_miss s)
                           (u32 (nops s + 1))).
Definition count_read_hit : M st unit :=
  cs_set_stats (fun s => ClockStats (u32 (read_hit s + 1)) (read_miss s) (write_hit s)
                           (write_miss s) (nops s)).
Definition count_read_miss : M st unit :=
  cs_set_stats (fun s => ClockStats (read_hit s) (u32 (read_miss s + 1)) (write_hit s)
                           (write_miss s) (nops s)).
Definition count_write_hit : M st unit :=
  cs_set_stats (fun s => ClockStats (read_hit s) (read_miss s) (u32 (write_hit s + 1))
                           (write_miss s) (nops s)).
Definition count_write_miss : M st unit :=
  cs_set_stats (fun s => ClockStats (read_hit s) (read_miss s) (write_hit s)
                           (u32 (write_miss s + 1)) (nops s)).

Definition clockdisk_getninodes : M st Z :=
  count_op;; clockdisk_dump_stats_if_needed;; cs_call bs_getninodes.

Definition clockdisk_getsize (ino : Z) : M st Z :=
  count_op;; clockdisk_dump_stats_if_needed;; cs_call (bs_getsize ino).

(** Empties the slots of the blocks about to be deleted. *)
Definition clear_beyond (ino nblocks : Z) (bi : block_info) : block_info :=
  if decide (bi_status bi <> EMPTY /\ bi_ino bi = ino /\ bi_offset bi >= nblocks)
  then set_status EMPTY bi else bi.

Definition clockdisk_setsize (ino nblocks : Z) : M st Z :=
  count_op;;
  cs_set_cache (fun c => ClockCache (c_blocks c) (clear_beyond ino nblocks <$> c_infos c)
                           (c_nblocks c) (c_hand c));;
  clockdisk_dump_stats_if_needed;;
  cs_call (bs_setsize ino nblocks).

(** [cache_update]: the clock hand goes round until it finds a slot that is
    not [NEW]; what the slot holds is written back if it is dirty. *)
Fixpoint cache_update (fuel : nat) (ino offset : Z) (b : block) (dirty : Z) : M st unit :=
  match fuel with
  | O => out_of_fuel
  | Datatypes.S fuel =>
      cs ← get;
      let c := cs_cache cs in
      let i := Z.to_nat (c_hand c) in
      bi ← read_nth (c_infos c) i;
      if decide (bi_status bi <> NEW) then
        (if decide (bi_status bi <> EMPTY /\ bi_dirty bi <> 0) then
           victim ← read_nth (c_blocks c) i;
           r ← cs_call (bs_write (bi_ino bi) (bi_offset bi) victim);
           mret tt
         else mret tt);;
        cs_set_cache (set_info i (fun _ => BlockInfo NEW dirty ino offset));;
        cs_set_cache (set_block i b);;
        cs_set_cache (set_hand (u32 (c_hand c + 1) mod c_nblocks c))
      else
        cs_set_cache (set_info i (set_status OLD));;
        cs_set_cache (set_hand (u32 (c_hand c + 1) mod c_nblocks c));;
        cache_update fuel ino offset b dirty
  end.

(** One round of the clock, and one more slot. *)
Definition update_fuel (c : clock_cache) : nat := Datatypes.S (length (c_infos c)).

Definition clockdisk_read (ino offset : Z) (buf : block) : M st (Z * block) :=
  count_op;;
  cs ← get;
  match list_find (slot_is ino offset) (c_infos (cs_cache cs)) with
  | Some (i, _) =>   (* cache hit *)
      b ← read_nth (c_blocks (cs_cache cs)) i;
      cs_set_cache (set_info i (set_status NEW));;
      count_read_hit;;
      clockdisk_dump_stats_if_needed;;
      mret (0, b)
  | None =>          (* cache miss *)
      count_read_miss;;
      x ← cs_call (bs_read ino offset buf);
      clockdisk_dump_stats_if_needed;;
      if decide (x.1 = -1) then mret x else
      cache_update (update_fuel (cs_cache cs)) ino offset x.2 0;;
      mret (0, x.2)
  end.

Definition clockdisk_write (ino offset : Z) (b : block) : M st Z :=
  count_op;;
  cs ← get;
  match list_find (slot_is ino offset) (c_infos (cs_cache cs)) with
  | Some (i, _) =>   (* cache hit *)
      cs_set_cache (set_block i b);;
      cs_set_cache (set_info i (set_status NEW));;
      cs_set_cache (set_info i (set_dirty 1));;
      count_write_hit;;
      clockdisk_dump_stats_if_needed;;
      mret 0
  | None =>          (* cache miss *)
      count_write_miss;;
      clockdisk_dump_stats_if_needed;;
      cache_update (update_fuel (cs_cache cs)) ino offset b 1;;
      mret 0
  end.

(** The loop of [clockdisk_sync], [n] slots from slot [i] on. *)
Fixpoint sync_slots (n i : nat) (ino : Z) : M st unit :=
  match n with
  | O => mret tt
  | Datatypes.S n =>
      cs ← get;
      bi ← read_nth (c_infos (cs_cache cs)) i;
      (if decide (bi_status bi <> EMPTY /\ bi_dirty bi <> 0 /\
                  (bi_ino bi = ino \/ ino = minus1_u)) then
         b ← read_nth (c_blocks (cs_cache cs)) i;
         r ← cs_call (bs_write (bi_ino bi) (bi_offset bi) b);
         cs_set_cache (set_info i (set_dirty 0))
       else mret tt);;
      sync_slots n (Datatypes.S i) ino
  end.

Definition clockdisk_sync (ino : Z) : M st Z :=
  count_op;;
  cs ← get;
  sync_slots (Z.to_nat (c_nblocks (cs_cache cs))) 0 ino;;
  clockdisk_dump_stats_if_needed;;
  cs_call (bs_sync ino).

(** [clockdisk_release] frees the cache: what it has not written is gone. *)
Definition clockdisk_release (cs : st) : S := cs_below cs.

Definition clockdisk_init (below : S) (blocks : list block) (nblocks : Z) : st :=
  ClockDisk below
    (ClockCache blocks (replicate (Z.to_nat nblocks) (BlockInfo EMPTY 0 0 0)) nblocks 0)
    (ClockStats 0 0 0 0 0) [].

#[export] Instance clockdisk_bs : BlockStore st := {
  bs_getninodes := clockdisk_getninodes;
  bs_getsize := clockdisk_getsize;
  bs_setsize := clockdisk_setsize;
  bs_read := clockdisk_read;
  bs_write := clockdisk_write;
  bs_sync := clockdisk_sync;
}.
End clockdisk.

(** * What the slots hold *)

(** The address, contents and dirty bit of a slot in use. *)
Definition slot (c : clock_cache) (i : nat) : option (Z * Z * block * Z) :=
  bi ← c_infos c !! i;
  b ← c_blocks c !! i;
  if decide (bi_status bi = EMPTY) then None
  else Some (bi_ino bi, bi_offset bi, b, bi_dirty bi).

Record cache_shape (c : clock_cache) : Prop := {
  sh_pos : 0 < c_nblocks c < two32;
  sh_infos : Z.of_nat (length (c_infos c)) = c_nblocks c;
  sh_blocks : Z.of_nat (length (c_blocks c)) = c_nblocks c;
  sh_hand : 0 <= c_hand c < c_nblocks c;
}.

(** The cache [c] over a store holding [dB] stands for the disk [d]. *)
Record clock_rel (c : clock_cache) (dB d : vdisk) : Prop := {
  cr_shape : cache_shape c;
  cr_wf : vdisk_wf d;
  cr_dom : same_dom dB d;
  cr_slot : forall i k b dty, slot c i = Some (k, b, dty) -> d !! k = Some b;
  cr_clean : forall i k b, slot c i = Some (k, b, 0) -> dB !! k = Some b;
  cr_miss : forall k, (forall i b dty, slot c i <> Some (k, b, dty)) -> d !! k = dB !! k;
  cr_uniq : forall i j k b dty b' dty',
    slot c i = Some (k, b, dty) -> slot c j = Some (k, b', dty') -> i = j;
}.

Lemma clock_rel_ext c c' dB d :
  cache_shape c' -> (forall i, slot c' i = slot c i) -> clock_rel c dB d -> clock_rel c' dB d.
Proof.
  intros Hsh Hs [_ Hw Hd H1 H2 H3 H4]. split; [done|done|done| | | |].
  - intros i k b dty. rewrite Hs. apply H1.
  - intros i k b. rewrite Hs. apply H2.
  - intros k Hk. apply H3. intros i b dty. rewrite <- Hs. apply Hk.
  - intros i j k b dty b' dty'. rewrite !Hs. apply H4.
Qed.

Lemma slot_lookup c i bi b :
  c_infos c !! i = Some bi -> c_blocks c !! i = Some b -> bi_status bi <> EMPTY ->
  slot c i = Some (bi_ino bi, bi_offset bi, b, bi_dirty bi).
Proof. intros H1 H2 H3. unfold slot. rewrite H1, H2. simpl. by rewrite decide_False. Qed.

Lemma slot_Some c i k b dty :
  slot c i = Some (k, b, dty) ->
  exists bi, c_infos c !! i = Some bi /\ c_blocks c !! i = Some b /\ bi_status bi <> EMPTY /\
    k = (bi_ino bi, bi_offset bi) /\ dty = bi_dirty bi.
Proof.
  unfold slot. destruct (c_infos c !! i) as [bi|]; [|done].
  destruct (c_blocks c !! i) as [b0|]; [|done]. simpl.
  decide_goal as He; [done|]. intros [= <- <- <-]. by exists bi.
Qed.

Lemma shape_lookup c i :
  cache_shape c -> 0 <= i < c_nblocks c ->
  exists bi b, c_infos c !! Z.to_nat i = Some bi /\ c_blocks c !! Z.to_nat i = Some b.
Proof.
  intros [Hp Hi Hb Hh] H.
  destruct (Zto_nat_lookup_lt (c_infos c) i ltac:(lia)) as [bi E1].
  destruct (Zto_nat_lookup_lt (c_blocks c) i ltac:(lia)) as [b E2]. eauto.
Qed.

Lemma shape_next c : cache_shape c -> 0 <= u32 (c_hand c + 1) mod c_nblocks c < c_nblocks c.
Proof. intros [Hp _ _ _]. apply Z.mod_pos_bound. lia. Qed.

Lemma shape_set_info i f c : cache_shape c -> cache_shape (set_info i f c).
Proof. intros []. split; simpl; rewrite ?length_alter; done. Qed.

Lemma shape_set_block i b c : cache_shape c -> cache_shape (set_block i b c).
Proof. intros []. split; simpl; rewrite ?length_insert; done. Qed.

Lemma shape_set_hand h c : cache_shape c -> 0 <= h < c_nblocks c -> cache_shape (set_hand h c).
Proof. intros []. by split. Qed.

Create HintDb clock.
#[export] Hint Resolve shape_set_info shape_set_block shape_set_hand shape_next : clock.

Lemma slot_set_hand h c i : slot (set_hand h c) i = slot c i.
Proof. done. Qed.

Lemma slot_set_info i f c j :
  slot (set_info i f c) j =
  if decide (i = j) then
    bi ← f <$> c_infos c !! i; b ← c_blocks c !! i;
    if decide (bi_status bi = EMPTY) then None
    else Some (bi_ino bi, bi_offset bi, b, bi_dirty bi)
  else slot c j.
Proof.
  unfold slot, set_info; simpl. decide_goal as He.
  - subst. by rewrite list_lookup_alter_eq.
  - by rewrite list_lookup_alter_ne.
Qed.

Lemma slot_set_block i b c j :
  slot (set_block i b c) j =
  if decide (i = j) then (fun x => (x.1.1, b, x.2)) <$> slot c i else slot c j.
Proof.
  unfold slot, set_block; simpl. decide_goal as He; [|by rewrite list_lookup_insert_ne].
  subst. destruct (c_infos c !! j) as [bi|]; simpl; [|done].
  destruct (decide (j < length (c_blocks c))%nat) as [Hl|Hl].
  - rewrite list_lookup_insert_eq by done.
    destruct (lookup_lt_is_Some_2 _ _ Hl) as [b0 ->]. simpl. by destruct (decide _).
  - rewrite list_insert_ge by lia. by rewrite lookup_ge_None_2 by lia.
Qed.

Lemma slot_set_status s i bi c j :
  s <> EMPTY -> c_infos c !! i = Some bi -> bi_status bi <> EMPTY ->
  slot (set_info i (set_status s) c) j = slot c j.
Proof.
  intros Hs Hb Hn. rewrite slot_set_info. decide_goal as He; [|done]. subst.
  unfold slot. rewrite Hb. simpl. destruct (c_blocks c !! j); [|done]. simpl.
  by rewrite !decide_False.
Qed.

(** What the search loop returns. *)
Lemma find_hit c dB d ino off i bi :
  clock_rel c dB d -> list_find (slot_is ino off) (c_infos c) = Some (i, bi) ->
  exists b, c_infos c !! i = Some bi /\ c_blocks c !! i = Some b /\ bi_status bi <> EMPTY /\
    slot c i = Some (ino, off, b, bi_dirty bi).
Proof.
  intros Hr (Hi & (Hn & <- & <-) & _)%list_find_Some.
  pose proof (lookup_lt_Some _ _ _ Hi) as Hlt. pose proof (cr_shape _ _ _ Hr) as [Hp H1 H2 _].
  destruct (lookup_lt_is_Some_2 (c_blocks c) i ltac:(lia)) as [b Hb].
  exists b. split_and!; [done..|]. by apply slot_lookup.
Qed.

Lemma find_miss c ino off :
  list_find (slot_is ino off) (c_infos c) = None ->
  forall i b dty, slot c i <> Some (ino, off, b, dty).
Proof.
  intros Hf i b dty (bi & Hi & _ & Hn & [= -> ->] & _)%slot_Some.
  apply list_find_None in Hf. by apply (Forall_lookup_1 _ _ _ _ Hf Hi).
Qed.

(** ** Changes to the slots *)

(** A dirty slot is written back: the store below catches up. *)
Lemma clock_rel_writeback c dB d i k b dty :
  clock_rel c dB d -> slot c i = Some (k, b, dty) -> clock_rel c (<[k:=b]> dB) d.
Proof.
  intros Hr Hi. pose proof Hr as [Hsh Hw Hd H1 H2 H3 H4]. split; try done.
  - etransitivity; [|exact Hd]. symmetry. apply same_dom_insert. apply Hd. eauto.
  - intros j k' b' Hj. rewrite lookup_insert. decide_goal as He; [|eauto].
    subst k'. f_equal. apply H1 in Hi. apply H1 in Hj. congruence.
  - intros k' Hk'. rewrite lookup_insert. decide_goal as He; [|by apply H3].
    subst k'. by destruct (Hk' i b dty).
Qed.

(** After the write-back the slot may be marked clean. *)
Lemma clock_rel_mark_clean c dB d i k b dty :
  clock_rel c dB d -> slot c i = Some (k, b, dty) -> dB !! k = Some b ->
  clock_rel (set_info i (set_dirty 0) c) dB d.
Proof.
  intros Hr Hi Hk. pose proof Hr as [Hsh Hw Hd H1 H2 H3 H4].
  assert (forall j, slot (set_info i (set_dirty 0) c) j =
                    if decide (i = j) then Some (k, b, 0) else slot c j) as Hs.
  { intros j. rewrite slot_set_info. decide_goal as He; [|done]. subst j.
    apply slot_Some in Hi as (bi & E1 & E2 & E3 & -> & _). rewrite E1, E2. simpl.
    by rewrite decide_False. }
  split; [by apply shape_set_info|done|done| | | |].
  - intros j k' b' dty'. rewrite Hs. decide_goal as He; [|apply H1]. intros [= <- <- <-]. eauto.
  - intros j k' b'. rewrite Hs. decide_goal as He; [|apply H2]. by intros [= <- <-].
  - intros k' Hk'. apply H3. intros j b' dty' Hj. specialize (Hk' j b'). rewrite Hs in Hk'.
    destruct (decide (i = j)) as [<-|]; [|by eapply Hk'].
    apply (Hk' 0). rewrite Hi in Hj. by injection Hj as <- <- <-.
  - intros j1 j2 k' b1 d1 b2 d2. rewrite !Hs.
    destruct (decide (i = j1)) as [<-|], (decide (i = j2)) as [<-|]; try done.
    + intros [= <- <- <-] Hj. by eapply H4.
    + intros Hj [= <- <- <-]. by eapply H4.
    + apply H4.
Qed.

(** A write hit. *)
Lemma clock_rel_write_hit c dB d i k b0 dty b bi :
  clock_rel c dB d -> slot c i = Some (k, b0, dty) -> block_wf b ->
  c_infos c !! i = Some bi ->
  clock_rel (set_info i (set_dirty 1) (set_info i (set_status NEW) (set_block i b c))) dB (<[k:=b]> d).
Proof.
  intros Hr Hi Hb Hbi. pose proof Hr as [Hsh Hw Hd H1 H2 H3 H4].
  assert (forall j, slot (set_info i (set_dirty 1) (set_info i (set_status NEW) (set_block i b c))) j =
                    if decide (i = j) then Some (k, b, 1) else slot c j) as Hs.
  { intros j. rewrite !slot_set_info, slot_set_block. decide_goal as He; [|done]. subst j.
    apply slot_Some in Hi as (bi' & E1 & E2 & E3 & -> & _). simpl.
    rewrite list_lookup_alter_eq, E1. simpl.
    rewrite list_lookup_insert_eq by (eapply lookup_lt_Some; eauto). done. }
  assert (is_Some (d !! k)) as Hk by eauto.
  split; [eauto with clock|by apply vdisk_wf_insert| | | | |].
  - etransitivity; [exact Hd|]. by apply same_dom_insert.
  - intros j k' b' dty'. rewrite Hs. decide_goal as He.
    + intros [= <- <- <-]. apply lookup_insert_eq.
    + intros Hj. rewrite lookup_insert_ne; [by eapply H1|]. intros <-. eapply He, H4; eauto.
  - intros j k' b'. rewrite Hs. decide_goal as He; [done|]. apply H2.
  - intros k' Hk'. assert (k' <> k) as Hne.
    { intros ->. specialize (Hk' i b 1). rewrite Hs, decide_True in Hk' by done. done. }
    rewrite lookup_insert_ne by done. apply H3. intros j b' dty' Hj.
    specialize (Hk' j b' dty'). rewrite Hs in Hk'. destruct (decide (i = j)) as [<-|]; [|done].
    rewrite Hi in Hj. congruence.
  - intros j1 j2 k' b1 d1 b2 d2. rewrite !Hs.
    destruct (decide (i = j1)) as [<-|], (decide (i = j2)) as [<-|]; try done.
    + intros [= <- <- <-] Hj. by eapply H4.
    + intros Hj [= <- <- <-]. by eapply H4.
    + apply H4.
Qed.

(** A slot that is empty or clean is filled with an address not in the cache. *)
Lemma clock_rel_fill c dB d i ino off b dirty h :
  clock_rel c dB d -> (i < length (c_infos c))%nat ->
  (forall k b dty, slot c i = Some (k, b, dty) -> dB !! k = Some b) ->
  (forall j b dty, slot c j <> Some (ino, off, b, dty)) ->
  is_Some (d !! (ino, off)) -> block_wf b ->
  (dirty = 0 -> dB !! (ino, off) = Some b) -> 0 <= h < c_nblocks c ->
  clock_rel (set_hand h (set_block i b (set_info i (fun _ => BlockInfo NEW dirty ino off) c)))
    dB (<[(ino, off):=b]> d).
Proof.
  intros Hr Hlt Hold Hnew Hk Hb Hdirty Hh. pose proof Hr as [Hsh Hw Hd H1 H2 H3 H4].
  assert (forall j, slot (set_hand h (set_block i b (set_info i (fun _ => BlockInfo NEW dirty ino off) c))) j =
                    if decide (i = j) then Some (ino, off, b, dirty) else slot c j) as Hs.
  { intros j. rewrite slot_set_hand, slot_set_block, !slot_set_info.
    rewrite (decide_True (P := i = i)) by done. decide_goal as He; [|done].
    destruct (lookup_lt_is_Some_2 _ _ Hlt) as [bi ->].
    pose proof (sh_infos _ Hsh). pose proof (sh_blocks _ Hsh).
    destruct (lookup_lt_is_Some_2 (c_blocks c) i ltac:(lia)) as [b0 ->]. done. }
  split; [eauto with clock|by apply vdisk_wf_insert| | | | |].
  - etransitivity; [exact Hd|]. by apply same_dom_insert.
  - intros j k' b' dty'. rewrite Hs. decide_goal as He.
    + intros [= <- <- <-]. apply lookup_insert_eq.
    + intros Hj. rewrite lookup_insert_ne; [by eapply H1|]. intros <-. by eapply Hnew.
  - intros j k' b'. rewrite Hs. decide_goal as He; [|apply H2]. intros [= <- <- ->]. by apply Hdirty.
  - intros k' Hk'. assert (k' <> (ino, off)) as Hne.
    { intros ->. specialize (Hk' i b dirty). rewrite Hs, decide_True in Hk' by done. done. }
    rewrite lookup_insert_ne by done.
    destruct (slot c i) as [[[k0 b0] dty0]|] eqn:Ei; [destruct (decide (k0 = k')) as [<-|Hk0]|].
    + rewrite (Hold _ _ _ eq_refl). by eapply H1.
    + apply H3. intros j b' dty' Hj. specialize (Hk' j b' dty'). rewrite Hs in Hk'.
      destruct (decide (i = j)) as [<-|]; [congruence|done].
    + apply H3. intros j b' dty' Hj. specialize (Hk' j b' dty'). rewrite Hs in Hk'.
      destruct (decide (i = j)) as [<-|]; [congruence|done].
  - intros j1 j2 k' b1 d1 b2 d2. rewrite !Hs.
    destruct (decide (i = j1)) as [<-|], (decide (i = j2)) as [<-|]; try done.
    + intros [= <- <- <-] Hj. by destruct (Hnew j2 b2 d2).
    + intros Hj [= <- <- <-]. by destruct (Hnew j1 b1 d1).
    + apply H4.
Qed.

(** The slots the clock hand has to pass: those marked [NEW]. *)
Definition count_new (infos : list block_info) : nat :=
  length (filter (fun bi => bi_status bi = NEW) infos).

Lemma count_new_le infos : (count_new infos <= length infos)%nat.
Proof. apply length_filter. Qed.

Lemma count_new_alter infos i bi :
  infos !! i = Some bi -> bi_status bi = NEW ->
  count_new infos = Datatypes.S (count_new (alter (set_status OLD) i infos)).
Proof.
  unfold count_new. revert i.
  induction infos as [|x l IH]; intros [|i] Hi Hs; simplify_eq/=.
  - by rewrite filter_cons_True, filter_cons_False.
  - rewrite !filter_cons. destruct (decide (bi_status x = NEW)); simpl; [f_equal|]; by apply IH.
Qed.

(** ** The operations keep the relation *)

Section clockdisk_spec.
Context {S : Type} {R : S -> vdisk -> Prop} `{!BlockStore S, !Lawful S R}.
Abbreviation st := (clockdisk_state S).

(** The cache over a lawful store stands for [d]. *)
Definition clock_repr (cs : st) (d : vdisk) : Prop :=
  exists dB, R (cs_below cs) dB /\ clock_rel (cs_cache cs) dB d.

(** Steps that only count and print. *)
Definition quiet (m : M st unit) : Prop :=
  forall cs, wp m cs (fun _ cs' => cs_below cs' = cs_below cs /\ cs_cache cs' = cs_cache cs).

Lemma quiet_count : quiet count_op /\ quiet count_read_hit /\ quiet count_read_miss /\
                    quiet count_write_hit /\ quiet count_write_miss.
Proof. split_and!; intros cs; by split. Qed.

Lemma quiet_dump : quiet clockdisk_dump_stats_if_needed.
Proof.
  intros cs. unfold clockdisk_dump_stats_if_needed. steps.
  decide_goal as H; by split.
Qed.

Lemma wp_quiet (m : M st unit) cs Q :
  quiet m ->
  (forall cs', cs_below cs' = cs_below cs -> cs_cache cs' = cs_cache cs -> Q tt cs') ->
  wp m cs Q.
Proof. intros Hm Hk. wp_use Hm as [H1 H2]. destruct a. by apply Hk. Qed.

(** The same, on the representation. *)
Lemma clock_repr_eq cs cs' d :
  cs_below cs' = cs_below cs -> cs_cache cs' = cs_cache cs -> clock_repr cs d -> clock_repr cs' d.
Proof. unfold clock_repr. by intros -> ->. Qed.

Lemma clock_repr_intro (cs : st) (dB d : vdisk) :
  R (cs_below cs) dB -> clock_rel (cs_cache cs) dB d -> clock_repr cs d.
Proof. intros. by exists dB. Qed.

(** The clock hand stops within one round: the new block ends up in a slot,
    what was there has reached the store below, and the rest of the disk is
    what it was. *)
Lemma cache_update_spec (fuel : nat) (ino off : Z) (b : block) (dirty : Z) :
  forall (cs : st) (dB d : vdisk),
  (count_new (c_infos (cs_cache cs)) < fuel)%nat ->
  R (cs_below cs) dB -> clock_rel (cs_cache cs) dB d ->
  (forall j b dty, slot (cs_cache cs) j <> Some (ino, off, b, dty)) ->
  is_Some (d !! (ino, off)) -> block_wf b -> (dirty = 0 -> d !! (ino, off) = Some b) ->
  wp (cache_update fuel ino off b dirty) cs
    (fun _ cs' => clock_repr cs' (<[(ino, off):=b]> d)).
Proof.
  induction fuel as [|fuel IH]; intros cs dB d Hf HR Hr Hnew Hk Hb Hd; [lia|].
  pose proof (cr_shape _ _ _ Hr) as Hsh.
  destruct (shape_lookup _ (c_hand (cs_cache cs)) Hsh (sh_hand _ Hsh)) as (bi & b0 & Hi & Hb0).
  assert (dirty = 0 -> dB !! (ino, off) = Some b) as HdB
    by (intros E; rewrite <- (cr_miss _ _ _ Hr); auto).
  simpl. steps. eapply wp_read_nth; [exact Hi|]. destruct (decide (bi_status bi <> NEW)) as [Hn|Hn].
  - step. decide_goal as Hv.
    + step. eapply wp_read_nth; [exact Hb0|]. destruct Hv as [He Hdty].
      pose proof (slot_lookup _ _ _ _ Hi Hb0 He) as Hs.
      unfold cs_call. steps.
      assert (is_Some (dB !! (bi_ino bi, bi_offset bi))) as HkB
        by (apply (cr_dom _ _ _ Hr); eapply mk_is_Some, cr_slot; eauto).
      assert (block_wf b0) as Hwb by (eapply vd_block, cr_slot; eauto using cr_wf).
      wp_use (law_write (R:=R) (cs_below cs) dB _ _ b0 HR HkB Hwb) as [-> HR']. steps.
      unfold cs_set_cache. steps. simpl. eapply clock_repr_intro; [exact HR'|].
      apply clock_rel_fill; eauto using clock_rel_writeback, shape_next, lookup_lt_Some.
      * intros k b' dty' Hs'. rewrite Hs in Hs'. injection Hs' as <- <- <-.
        apply lookup_insert_eq.
      * intros E. rewrite lookup_insert_ne; [by apply HdB|].
        intros [= <- <-]. by eapply Hnew.
    + unfold cs_set_cache. steps. simpl. eapply clock_repr_intro; [exact HR|].
      apply clock_rel_fill; eauto using shape_next, lookup_lt_Some.
      intros k b' dty' Hs'. pose proof Hs' as (bi' & Hi' & _ & He & -> & Hdty)%slot_Some.
      rewrite Hi in Hi'. injection Hi' as <-.
      destruct (decide (bi_dirty bi = 0)) as [E|E]; [|by destruct Hv].
      eapply cr_clean; [exact Hr|]. by rewrite Hs', Hdty, E.
  - apply dec_stable in Hn. unfold cs_set_cache. steps. simpl.
    assert (forall j, slot (set_hand (u32 (c_hand (cs_cache cs) + 1) mod c_nblocks (cs_cache cs))
              (set_info (Z.to_nat (c_hand (cs_cache cs))) (set_status OLD) (cs_cache cs))) j =
            slot (cs_cache cs) j) as Hsl.
    { intros j. rewrite slot_set_hand. eapply slot_set_status; [done|exact Hi|congruence]. }
    eapply IH; simpl; [|exact HR| |..]; eauto.
    + pose proof (count_new_alter _ _ _ Hi Hn). lia.
    + eapply clock_rel_ext; [|exact Hsl|exact Hr].
      apply shape_set_hand; [by apply shape_set_info|by apply (shape_next _ Hsh)].
    + intros j b' dty'. rewrite Hsl. apply Hnew.
Qed.

Lemma update_fuel_enough c : (count_new (c_infos c) < update_fuel c)%nat.
Proof. pose proof (count_new_le (c_infos c)). unfold update_fuel. lia. Qed.

#[local] Opaque update_fuel.

Lemma clockdisk_read_spec (cs : st) (d : vdisk) ino off b buf :
  clock_repr cs d -> d !! (ino, off) = Some b -> block_wf buf ->
  wp (clockdisk_read ino off buf) cs (fun r cs' => r = (0, b) /\ clock_repr cs' d).
Proof.
  intros (dB & HR & Hr) Hk Hbuf. unfold clockdisk_read.
  steps; apply wp_quiet; [apply quiet_count|intros cs1 E1 E2]; steps. rewrite <- E1 in HR.
  rewrite <- E2 in Hr. clear E1 E2. steps.
  destruct (list_find _ _) as [[i bi]|] eqn:Ef.
  - destruct (find_hit _ _ _ _ _ _ _ Hr Ef) as (b0 & Hi & Hb0 & He & Hs).
    assert (b0 = b) as -> by (apply (cr_slot _ _ _ Hr) in Hs; congruence).
    step. eapply wp_read_nth; [exact Hb0|]. unfold cs_set_cache at 1. steps.
    steps; apply wp_quiet; [apply quiet_count|intros cs2 E1 E2]; steps.
    steps; apply wp_quiet; [apply quiet_dump|intros cs3 E3 E4]; steps.
    split; [done|]. eapply clock_repr_eq; [exact E3|exact E4|].
    eapply clock_repr_eq; [exact E1|exact E2|].
    eapply clock_repr_intro; [exact HR|]. eapply clock_rel_ext; [..|exact Hr].
    + apply shape_set_info, Hr.
    + intros j. by eapply slot_set_status.
  - pose proof (find_miss _ _ _ Ef) as Hm.
    steps; apply wp_quiet; [apply quiet_count|intros cs2 E1 E2]; steps. rewrite <- E1 in HR.
    rewrite <- E2 in Hr, Hm. unfold cs_call. steps.
    assert (dB !! (ino, off) = Some b) as HkB by (rewrite <- (cr_miss _ _ _ Hr); eauto).
    wp_use (law_read (R:=R) (cs_below cs2) dB ino off b buf HR HkB Hbuf) as [-> HR'].
    steps; apply wp_quiet; [apply quiet_dump|simpl; intros cs3 E3 E4]; steps.
    rewrite <- E3 in HR'. rewrite <- E4 in Hr, Hm. rewrite <- E2, <- E4.
    wp_use cache_update_spec as Hpost; eauto using update_fuel_enough.
    + eapply vd_block; [apply Hr|exact Hk].
    + step. split; [done|]. by rewrite insert_id in Hpost.
Qed.

Lemma clockdisk_write_spec (cs : st) (d : vdisk) ino off b :
  clock_repr cs d -> is_Some (d !! (ino, off)) -> block_wf b ->
  wp (clockdisk_write ino off b) cs
    (fun r cs' => r = 0 /\ clock_repr cs' (<[(ino, off):=b]> d)).
Proof.
  intros (dB & HR & Hr) Hk Hb. unfold clockdisk_write.
  steps; apply wp_quiet; [apply quiet_count|intros cs1 E1 E2]; steps. rewrite <- E1 in HR.
  rewrite <- E2 in Hr. clear E1 E2. steps.
  destruct (list_find _ _) as [[i bi]|] eqn:Ef.
  - destruct (find_hit _ _ _ _ _ _ _ Hr Ef) as (b0 & Hi & Hb0 & He & Hs).
    unfold cs_set_cache. steps.
    steps; apply wp_quiet; [apply quiet_count|intros cs2 E1 E2]; steps.
    steps; apply wp_quiet; [apply quiet_dump|intros cs3 E3 E4]; steps.
    split; [done|]. eapply clock_repr_eq; [exact E3|exact E4|].
    eapply clock_repr_eq; [exact E1|exact E2|].
    eapply clock_repr_intro; [exact HR|]. by eapply clock_rel_write_hit.
  - pose proof (find_miss _ _ _ Ef) as Hm.
    steps; apply wp_quiet; [apply quiet_count|intros cs2 E1 E2]; steps.
    steps; apply wp_quiet; [apply quiet_dump|intros cs3 E3 E4]; steps.
    rewrite <- E1, <- E3 in HR. rewrite <- E2, <- E4 in Hr, Hm. rewrite <- E2, <- E4.
    wp_use cache_update_spec as Hpost; eauto using update_fuel_enough; [done|by step].
Qed.

Lemma clockdisk_getsize_spec (cs : st) (d : vdisk) ino n :
  clock_repr cs d -> size_of d ino n -> 0 < n < 2147483648 ->
  wp (clockdisk_getsize ino) cs (fun r cs' => r = n /\ clock_repr cs' d).
Proof.
  intros (dB & HR & Hr) Hsz Hn. unfold clockdisk_getsize.
  steps; apply wp_quiet; [apply quiet_count|intros cs1 E1 E2]; steps.
  steps; apply wp_quiet; [apply quiet_dump|intros cs2 E3 E4]; steps.
  rewrite <- E1, <- E3 in HR. rewrite <- E2, <- E4 in Hr. unfold cs_call. step.
  assert (size_of dB ino n) as HsB
    by (eapply same_dom_size_of; [symmetry; apply Hr|done]).
  wp_use (law_getsize (R:=R) (cs_below cs2) dB ino n HR HsB Hn) as [-> HR'].
  split; [done|]. by eapply clock_repr_intro.
Qed.

(** Every block of the inodes that are synced is the same below. *)
Definition flushed (ino : Z) (dB d : vdisk) : Prop :=
  forall i off, i = ino \/ ino = minus1_u -> dB !! (i, off) = d !! (i, off).

Definition clean_below (n : nat) (ino : Z) (c : clock_cache) : Prop :=
  forall j i off b dty, (j < n)%nat -> slot c j = Some (i, off, b, dty) ->
    i = ino \/ ino = minus1_u -> dty = 0.

Lemma sync_slots_spec (ino : Z) (d : vdisk) (n : nat) : forall (i : nat) (cs : st) (dB : vdisk),
  R (cs_below cs) dB -> clock_rel (cs_cache cs) dB d ->
  (i + n = length (c_infos (cs_cache cs)))%nat -> clean_below i ino (cs_cache cs) ->
  wp (sync_slots n i ino) cs (fun _ cs' => exists dB',
    R (cs_below cs') dB' /\ clock_rel (cs_cache cs') dB' d /\
    clean_below (length (c_infos (cs_cache cs'))) ino (cs_cache cs')).
Proof.
  induction n as [|n IH]; intros i cs dB HR Hr Hl Hc; simpl.
  { step. exists dB. split_and!; try done. by replace (length _) with i by lia. }
  pose proof (cr_shape _ _ _ Hr) as Hsh. pose proof (sh_infos _ Hsh) as Hli.
  destruct (shape_lookup _ (Z.of_nat i) Hsh ltac:(lia)) as (bi & b & Hi & Hb).
  rewrite Nat2Z.id in Hi, Hb. steps. eapply wp_read_nth; [exact Hi|]. step.
  decide_goal as Hd.
  - destruct Hd as (He & Hdty & Hino). pose proof (slot_lookup _ _ _ _ Hi Hb He) as Hs.
    step. eapply wp_read_nth; [exact Hb|]. unfold cs_call. steps.
    assert (is_Some (dB !! (bi_ino bi, bi_offset bi))) as HkB
      by (apply (cr_dom _ _ _ Hr); eapply mk_is_Some, cr_slot; eauto).
    assert (block_wf b) as Hwb by (eapply vd_block, cr_slot; eauto using cr_wf).
    wp_use (law_write (R:=R) (cs_below cs) dB _ _ b HR HkB Hwb) as [-> HR'].
    unfold cs_set_cache. steps. eapply IH; simpl; [exact HR'| | |].
    + eapply clock_rel_mark_clean; [by eapply clock_rel_writeback|exact Hs|].
      apply lookup_insert_eq.
    + rewrite length_alter. lia.
    + intros j i' off b' dty' Hj. rewrite slot_set_info. decide_goal as Ej.
      * subst j. rewrite Hi, Hb. simpl. by destruct (decide _); [|intros [= <- <- <- <-]].
      * intros Hs'. apply (Hc j i' off b'); [lia|done].
  - step. eapply IH; [exact HR|exact Hr|lia|].
    intros j i' off b' dty' Hj Hs' Hino. destruct (decide (j = i)) as [->|].
    + apply slot_Some in Hs' as (bi' & E1 & _ & E2 & [= -> ->] & ->).
      rewrite Hi in E1. injection E1 as <-. destruct (decide (bi_dirty bi = 0)); [done|].
      by destruct Hd.
    + apply (Hc j i' off b'); [lia|done|done].
Qed.

Lemma clean_flushed (c : clock_cache) (dB d : vdisk) (ino : Z) :
  clock_rel c dB d -> clean_below (length (c_infos c)) ino c -> flushed ino dB d.
Proof.
  intros Hr Hc i off Hino. destruct (list_find (slot_is i off) (c_infos c)) as [[j bi]|] eqn:Ef.
  - destruct (find_hit _ _ _ _ _ _ _ Hr Ef) as (b & Hi & Hb & He & Hs).
    rewrite (cr_slot _ _ _ Hr _ _ _ _ Hs).
    rewrite (Hc j i off b (bi_dirty bi)) in Hs by eauto using lookup_lt_Some.
    by rewrite (cr_clean _ _ _ Hr _ _ _ Hs).
  - symmetry. apply (cr_miss _ _ _ Hr). by apply find_miss.
Qed.

(** What [clockdisk_sync] does before it calls the layer below. *)
Lemma clockdisk_sync_spec (cs : st) (d : vdisk) (ino : Z) (Q : Z -> st -> Prop) :
  clock_repr cs d ->
  (forall (cs1 : st) (dB : vdisk), R (cs_below cs1) dB -> clock_rel (cs_cache cs1) dB d ->
     flushed ino dB d ->
     wp (bs_sync ino) (cs_below cs1)
       (fun r s' => Q r (ClockDisk s' (cs_cache cs1) (cs_stats cs1) (cs_stdout cs1)))) ->
  wp (clockdisk_sync ino) cs Q.
Proof.
  intros (dB & HR & Hr) HQ. unfold clockdisk_sync.
  steps; apply wp_quiet; [apply quiet_count|intros cs1 E1 E2]; steps. rewrite <- E1 in HR.
  rewrite <- E2 in Hr. clear E1 E2. steps.
  pose proof (sh_infos _ (cr_shape _ _ _ Hr)).
  wp_use (sync_slots_spec ino d _ 0 cs1 dB HR Hr) as (dB' & HR' & Hr' & Hc'); [lia|intros j; lia|].
  steps; apply wp_quiet; [apply quiet_dump|intros cs2 E1 E2]; steps. rewrite <- E1 in HR'.
  rewrite <- E2 in Hr', Hc'. unfold cs_call. step. eapply HQ; eauto using clean_flushed.
Qed.

#[export] Instance clockdisk_lawful : Lawful st clock_repr.
Proof.
  split.
  - intros s d (dB & _ & Hr). apply Hr.
  - exact clockdisk_getsize_spec.
  - exact clockdisk_read_spec.
  - exact clockdisk_write_spec.
  - intros s d ino off Hr Hk. apply (clockdisk_sync_spec s d ino _ Hr).
    intros cs1 dB HR Hr1 _.
    wp_use (law_sync (R:=R) (cs_below cs1) dB ino off HR) as [-> HR']; [by apply Hr1|].
    split; [done|]. by eapply clock_repr_intro.
Qed.

Lemma clockdisk_init_repr (below : S) (d : vdisk) (blocks : list block) (n : Z) :
  R below d -> 0 < n < two32 -> Z.of_nat (length blocks) = n ->
  clock_repr (clockdisk_init below blocks n) d.
Proof.
  intros HR Hn Hl.
  assert (forall i, slot (cs_cache (clockdisk_init below blocks n)) i = None) as Hs.
  { intros i. destruct (slot _ i) as [[[k b] dty]|] eqn:E; [|done].
    apply slot_Some in E as (bi & Hi & _ & He & _). simpl in Hi.
    apply lookup_replicate in Hi as [-> _]. done. }
  eapply clock_repr_intro; [exact HR|].
  split; [|by eapply law_wf|reflexivity|..]; try (intros; by rewrite Hs in *).
  - split; simpl; rewrite ?length_replicate; lia.
  - done.
Qed.

(** C20. Whatever sequence of reads, writes and syncs is run through a fresh
    cache, every reply is the reply of the abstract disk: the cache, with its
    evictions and write-backs, cannot be told from the store it caches. All
    requests return, so the clock hand always finds a slot. *)
Theorem clockdisk_transparent (below : S) (d : vdisk) (blocks : list block) (n : Z) (qs : list request) :
  R below d -> 0 < n < two32 -> Z.of_nat (length blocks) = n -> Forall (valid_req d) qs ->
  wp (exec_reqs qs) (clockdisk_init below blocks n)
    (fun rs cs' => rs = (spec_reqs d qs).1 /\ clock_repr cs' (spec_reqs d qs).2).
Proof. intros HR Hn Hl Hqs. apply exec_reqs_spec; [by apply clockdisk_init_repr|done]. Qed.

(** C23. What a client has written is in the store below once it has called
    [sync(-1)]: after any sequence of requests and that call, what is left
    when the cache is released represents the same disk as the cache did. *)
Theorem clockdisk_sync_durable (below : S) (d : vdisk) (blocks : list block) (n : Z) (qs : list request) :
  (forall (s : S) (d' : vdisk), R s d' -> wp (bs_sync minus1_u) s (fun r s' => r = 0 /\ R s' d')) ->
  R below d -> 0 < n < two32 -> Z.of_nat (length blocks) = n -> Forall (valid_req d) qs ->
  wp (exec_reqs qs;; clockdisk_sync minus1_u) (clockdisk_init below blocks n)
    (fun r cs' => r = 0 /\ R (clockdisk_release cs') (spec_reqs d qs).2).
Proof.
  intros Hsync HR Hn Hl Hqs. step.
  wp_use (exec_reqs_spec (R:=clock_repr) qs _ d) as [_ Hr]; [by apply clockdisk_init_repr|done|].
  apply (clockdisk_sync_spec _ _ _ _ Hr). intros cs1 dB HR1 Hr1 Hfl.
  assert (dB = (spec_reqs d qs).2) as -> by (apply map_eq; intros [i off]; apply Hfl; by right).
  by apply Hsync.
Qed.

(** Growing or shrinking a file through the cache leaves no slot for a
    block beyond the new end, so no deleted block is read from the cache or
    written back later. *)
Lemma clockdisk_setsize_clears (cs : st) (ino n : Z) :
  wp (bs_setsize ino n) (cs_below cs) (fun _ _ => True) ->
  wp (clockdisk_setsize ino n) cs (fun _ cs' =>
    forall i off b dty, slot (cs_cache cs') i = Some (ino, off, b, dty) -> off < n).
Proof.
  intros Hs. unfold clockdisk_setsize, cs_call, cs_set_cache.
  steps; apply wp_quiet; [apply quiet_count|intros cs1 E1 E2]; steps.
  apply wp_quiet; [apply quiet_dump|simpl; intros cs2 E3 E4]; steps.
  rewrite E3, E1. wp_use Hs as _. simpl. rewrite E4.
  intros i off b dty (bi & Hi & _ & He & [= Ei Eo] & _)%slot_Some. simpl in Hi.
  rewrite list_lookup_fmap in Hi. destruct (c_infos (cs_cache cs1) !! i) as [bi0|]; [|done].
  simpl in Hi. injection Hi as Hbi. unfold clear_beyond in Hbi. revert Hbi.
  decide_goal as Hc; intros <-; [by destruct He|].
  destruct (decide (off < n)); [done|]. destruct Hc. split_and!; [done..|lia].
Qed.
End clockdisk_spec.

(** The cache is a write-back cache: the first write to a fresh cache
    touches nothing below and reports success, at any address, even one that
    the store below does not have. *)
Lemma clockdisk_write_back {S : Type} `{!BlockStore S} (below : S) (blocks : list block)
    (n ino off : Z) (b : block) :
  0 < n < two32 -> Z.of_nat (length blocks) = n ->
  wp (clockdisk_write ino off b) (clockdisk_init below blocks n)
    (fun r cs' => r = 0 /\ clockdisk_release cs' = below /\
                  slot (cs_cache cs') 0 = Some (ino, off, b, 1)).
Proof.
  intros Hn Hl. unfold clockdisk_write. steps.
  apply wp_quiet; [apply quiet_count|intros cs1 E1 E2]; steps.
  destruct (list_find _ _) as [[i bi]|] eqn:Ef.
  { apply list_find_Some in Ef as (Hi & [He _] & _). rewrite E2 in Hi. simpl in Hi.
    apply lookup_replicate in Hi as [-> _]. done. }
  steps; apply wp_quiet; [apply quiet_count|intros cs2 E3 E4]; steps.
  apply wp_quiet; [apply quiet_dump|intros cs3 E5 E6]; steps.
  rewrite <- E4, <- E6 in E2. rewrite <- E3, <- E5 in E1. clear E3 E4 E5 E6 Ef.
  unfold update_fuel. simpl. steps.
  assert (exists m, Z.to_nat n = Datatypes.S m) as [m Em] by (exists (Nat.pred (Z.to_nat n)); lia).
  rewrite E2. simpl. rewrite Em. simpl. eapply wp_read_nth; [done|]. unfold cs_set_cache. steps.
  split; [done|]. split; [exact E1|]. unfold slot. rewrite E2. simpl. rewrite Em. simpl.
  destruct blocks as [|b0 blocks]; [simpl in Hl; lia|]. done.
Qed.

(** ** A cache of one slot over a ramdisk *)

Definition wit_cache : clockdisk_state ramdisk_state := clockdisk_init wit_ram [null_block] 1.

Lemma wit_ram_key : is_Some (disk_of [null_block; null_block] !! (0, 1)).
Proof. eexists. vm_compute. reflexivity. Qed.

Lemma clockdisk_transparent_witness :
  wp (exec_reqs wit_reqs) wit_cache (fun rs cs' =>
    rs = (spec_reqs (disk_of [null_block; null_block]) wit_reqs).1 /\
    clock_repr (R:=ram_repr) cs' (spec_reqs (disk_of [null_block; null_block]) wit_reqs).2).
Proof.
  apply clockdisk_transparent; [exact wit_ram_repr|done|done|exact wit_reqs_valid].
Defined.

Lemma clockdisk_sync_durable_witness :
  wp (exec_reqs wit_reqs;; clockdisk_sync minus1_u) wit_cache (fun r cs' => r = 0 /\
    ram_repr (clockdisk_release cs') (spec_reqs (disk_of [null_block; null_block]) wit_reqs).2).
Proof.
  apply clockdisk_sync_durable;
    [by intros s d Hs; split|exact wit_ram_repr|done|done|exact wit_reqs_valid].
Defined.

Lemma clockdisk_setsize_clears_witness :
  wp (clockdisk_setsize 0 1) wit_cache (fun _ cs' =>
    forall i off b dty, slot (cs_cache cs') i = Some (0, off, b, dty) -> off < 1).
Proof. apply clockdisk_setsize_clears. done. Defined.

Lemma clockdisk_write_back_witness :
  wp (clockdisk_write 0 77 null_block) wit_cache
    (fun r cs' => r = 0 /\ clockdisk_release cs' = wit_ram /\
                  slot (cs_cache cs') 0 = Some (0, 77, null_block, 1)).
Proof. apply clockdisk_write_back; done. Defined.
