(* ===== verification/WtClockDisk.v ===== *)
(** src/src/block/wtclockdisk.c: the write-through version of the CLOCK cache.

    Its slots are those of the write-back cache without a dirty bit. [embed]
    sees them as slots that are always clean, so that the lemmas of [ClockDisk]
    on the contents of slots carry the proofs. *)
From stdpp Require Import base numbers list gmap.
From Stdlib Require Import ZArith Lia.
From S2P Require Import Prelude BlockStore RamDisk ClockDisk.

Record wt_block_info := WtInfo {
  wi_status : block_status;
  wi_ino : Z;
  wi_offset : Z;
}.

Record wt_cache := WtCache {
  w_blocks : list block;
  w_infos : list wt_block_info;
  w_nblocks : Z;
  w_hand : Z;
}.

Record wtclockdisk_state (S : Type) := WtClockDisk {
  ws_below : S;
  ws_cache : wt_cache;
  ws_stats : clock_stats;
  ws_stdout : list (Z * Z * Z * Z);
}.
Arguments WtClockDisk {S}.
Arguments ws_below {S}.
Arguments ws_cache {S}.
Arguments ws_stats {S}.
Arguments ws_stdout {S}.

(** The condition of the search loops. *)
Definition wt_slot_is (ino offset : Z) (wi : wt_block_info) : Prop :=
  wi_status wi <> EMPTY /\ wi_ino wi = ino /\ wi_offset wi = offset.

#[export] Instance wt_slot_is_dec ino offset wi : Decision (wt_slot_is ino offset wi).
Proof. unfold wt_slot_is. apply _. Defined.

Definition wt_set_status (s : block_status) (wi : wt_block_info) : wt_block_info :=
  WtInfo s (wi_ino wi) (wi_offset wi).

Section wtclockdisk.
Context {S : Type} `{!BlockStore S}.
Abbreviation st := (wtclockdisk_state S).

Definition ws_call {A} (m : M S A) : M st A :=
  lift ws_below (fun b ws => WtClockDisk b (ws_cache ws) (ws_stats ws) (ws_stdout ws)) m.

Definition ws_set_cache (f : wt_cache -> wt_cache) : M st unit :=
  modify (fun ws => WtClockDisk (ws_below ws) (f (ws_cache ws)) (ws_stats ws) (ws_stdout ws)).

Definition ws_set_stats (f : clock_stats -> clock_stats) : M st unit :=
  modify (fun ws => WtClockDisk (ws_below ws) (ws_cache ws) (f (ws_stats ws)) (ws_stdout ws)).

Definition wt_set_info (i : nat) (f : wt_block_info -> wt_block_info) (c : wt_cache) : wt_cache :=
  WtCache (w_blocks c) (alter f i (w_infos c)) (w_nblocks c) (w_hand c).

Definition wt_set_block (i : nat) (b : block) (c : wt_cache) : wt_cache :=
  WtCache (<[i:=b]> (w_blocks c)) (w_infos c) (w_nblocks c) (w_hand c).

Definition wt_set_hand (h : Z) (c : wt_cache) : wt_cache :=
  WtCache (w_blocks c) (w_infos c) (w_nblocks c) h.

Definition wtclockdisk_dump_stats : M st unit :=
  modify (fun ws => WtClockDisk (ws_below ws) (ws_cache ws) (ws_stats ws)
    (ws_stdout ws ++ [(read_hit (ws_stats ws), read_miss (ws_stats ws),
                       write_hit (ws_stats ws), write_miss (ws_stats ws))])).

Definition wtclockdisk_dump_stats_if_needed : M st unit :=
  ws ← get;
  if decide (nops (ws_stats ws) mod 20 = 0) then wtclockdisk_dump_stats else mret tt.

Definition wt_count_op : M st unit :=
  ws_set_stats (fun s => ClockStats (read_hit s) (read_miss s) (write_hit s) (write_miss s)
                           (u32 (nops s + 1))).
Definition wt_count_read_hit : M st unit :=
  ws_set_stats (fun s => ClockStats (u32 (read_hit s + 1)) (read_miss s) (write_hit s)
                           (write_miss s) (nops s)).
Definition wt_count_read_miss : M st unit :=
  ws_set_stats (fun s => ClockStats (read_hit s) (u32 (read_miss s + 1)) (write_hit s)
                           (write_miss s) (nops s)).
Definition wt_count_write_hit : M st unit :=
  ws_set_stats (fun s => ClockStats (read_hit s) (read_miss s) (u32 (write_hit s + 1))
                           (write_miss s) (nops s)).
Definition wt_count_write_miss : M st unit :=
  ws_set_stats (fun s => ClockStats (read_hit s) (read_miss s) (write_hit s)
                           (u32 (write_miss s + 1)) (nops s)).

Definition wtclockdisk_getninodes : M st Z :=
  wt_count_op;; wtclockdisk_dump_stats_if_needed;; ws_call bs_getninodes.

Definition wtclockdisk_getsize (ino : Z) : M st Z :=
  wt_count_op;; wtclockdisk_dump_stats_if_needed;; ws_call (bs_getsize ino).

Definition wt_clear_beyond (ino nblocks : Z) (wi : wt_block_info) : wt_block_info :=
  if decide (wi_status wi <> EMPTY /\ wi_ino wi = ino /\ wi_offset wi >= nblocks)
  then wt_set_status EMPTY wi else wi.

Definition wtclockdisk_setsize (ino nblocks : Z) : M st Z :=
  wt_count_op;;
  ws_set_cache (fun c => WtCache (w_blocks c) (wt_clear_beyond ino nblocks <$> w_infos c)
                           (w_nblocks c) (w_hand c));;
  wtclockdisk_dump_stats_if_needed;;
  ws_call (bs_setsize ino nblocks).

(** [cache_update] of wtclockdisk.c. *)
Fixpoint wt_cache_update (fuel : nat) (ino offset : Z) (b : block) : M st unit :=
  match fuel with
  | O => out_of_fuel
  | Datatypes.S fuel =>
      ws ← get;
      let c := ws_cache ws in
      let i := Z.to_nat (w_hand c) in
      wi ← read_nth (w_infos c) i;
      if decide (wi_status wi <> NEW) then
        ws_set_cache (wt_set_info i (fun _ => WtInfo NEW ino offset));;
        ws_set_cache (wt_set_block i b);;
        ws_set_cache (wt_set_hand (u32 (w_hand c + 1) mod w_nblocks c))
      else
        ws_set_cache (wt_set_info i (wt_set_status OLD));;
        ws_set_cache (wt_set_hand (u32 (w_hand c + 1) mod w_nblocks c));;
        wt_cache_update fuel ino offset b
  end.

Definition wt_update_fuel (c : wt_cache) : nat := Datatypes.S (length (w_infos c)).

Definition wtclockdisk_read (ino offset : Z) (buf : block) : M st (Z * block) :=
  wt_count_op;;
  ws ← get;
  match list_find (wt_slot_is ino offset) (w_infos (ws_cache ws)) with
  | Some (i, _) =>   (* cache hit *)
      b ← read_nth (w_blocks (ws_cache ws)) i;
      ws_set_cache (wt_set_info i (wt_set_status NEW));;
      wt_count_read_hit;;
      wtclockdisk_dump_stats_if_needed;;
      mret (0, b)
  | None =>          (* cache miss *)
      wt_count_read_miss;;
      x ← ws_call (bs_read ino offset buf);
      wtclockdisk_dump_stats_if_needed;;
      if decide (x.1 = -1) then mret x else
      wt_cache_update (wt_update_fuel (ws_cache ws)) ino offset x.2;;
      mret (0, x.2)
  end.

Definition wtclockdisk_write (ino offset : Z) (b : block) : M st Z :=
  wt_count_op;;
  ws ← get;
  match list_find (wt_slot_is ino offset) (w_infos (ws_cache ws)) with
  | Some (i, _) =>   (* cache hit *)
      ws_set_cache (wt_set_block i b);;
      ws_set_cache (wt_set_info i (wt_set_status NEW));;
      wt_count_write_hit;;
      wtclockdisk_dump_stats_if_needed;;
      ws_call (bs_write ino offset b)
  | None =>          (* cache miss *)
      wt_count_write_miss;;
      w ← ws_call (bs_write ino offset b);
      wtclockdisk_dump_stats_if_needed;;
      if decide (w = -1) then mret w else
      wt_cache_update (wt_update_fuel (ws_cache ws)) ino offset b;;
      mret 0
  end.

Definition wtclockdisk_sync (ino : Z) : M st Z :=
  wt_count_op;; wtclockdisk_dump_stats_if_needed;; ws_call (bs_sync ino).

Definition wtclockdisk_release (ws : st) : S := ws_below ws.

Definition wtclockdisk_init (below : S) (blocks : list block) (nblocks : Z) : st :=
  WtClockDisk below
    (WtCache blocks (replicate (Z.to_nat nblocks) (WtInfo EMPTY 0 0)) nblocks 0)
    (ClockStats 0 0 0 0 0) [].

#[export] Instance wtclockdisk_bs : BlockStore st := {
  bs_getninodes := wtclockdisk_getninodes;
  bs_getsize := wtclockdisk_getsize;
  bs_setsize := wtclockdisk_setsize;
  bs_read := wtclockdisk_read;
  bs_write := wtclockdisk_write;
  bs_sync := wtclockdisk_sync;
}.
End wtclockdisk.

(** * The slots as slots that are always clean *)

Definition embed_info (wi : wt_block_info) : block_info :=
  BlockInfo (wi_status wi) 0 (wi_ino wi) (wi_offset wi).

Definition embed (c : wt_cache) : clock_cache :=
  ClockCache (w_blocks c) (embed_info <$> w_infos c) (w_nblocks c) (w_hand c).

Lemma embed_set_info i f g c :
  (forall wi, embed_info (f wi) = g (embed_info wi)) ->
  embed (wt_set_info i f c) = set_info i g (embed c).
Proof.
  intros H. unfold embed, set_info; simpl. f_equal. apply list_eq. intros j.
  rewrite list_lookup_fmap. destruct (decide (i = j)) as [<-|Hne].
  - rewrite !list_lookup_alter_eq, list_lookup_fmap.
    destruct (w_infos c !! i); simpl; [by rewrite H|done].
  - by rewrite !list_lookup_alter_ne, list_lookup_fmap.
Qed.

Lemma embed_set_block i b c : embed (wt_set_block i b c) = set_block i b (embed c).
Proof. done. Qed.

Lemma embed_set_hand h c : embed (wt_set_hand h c) = set_hand h (embed c).
Proof. done. Qed.

Lemma embed_lookup c i wi : w_infos c !! i = Some wi -> c_infos (embed c) !! i = Some (embed_info wi).
Proof. intros H. simpl. by rewrite list_lookup_fmap, H. Qed.

Lemma embed_slot_clean c i k b dty : slot (embed c) i = Some (k, b, dty) -> dty = 0.
Proof.
  intros (bi & Hi & _ & _ & _ & ->)%slot_Some. simpl in Hi.
  rewrite list_lookup_fmap in Hi. destruct (w_infos c !! i); [|done]. by simplify_eq/=.
Qed.

(** The search loop finds the slot that the write-back cache would find. *)
Lemma embed_find ino off c :
  list_find (slot_is ino off) (c_infos (embed c)) =
  prod_map id embed_info <$> list_find (wt_slot_is ino off) (w_infos c).
Proof.
  simpl. induction (w_infos c) as [|wi l IH]; [done|]. csimpl.
  destruct (decide (wt_slot_is ino off wi)) as [H|H].
  - by rewrite decide_True.
  - rewrite decide_False by done. rewrite IH. by destruct (list_find _ l) as [[? ?]|].
Qed.

(** A write hit that goes through to the store below. *)
Lemma clock_rel_write_through (c : clock_cache) (d : vdisk) (i : nat) (k : Z * Z) (b0 : block)
    (dty : Z) (b : block) (bi : block_info) :
  clock_rel c d d -> slot c i = Some (k, b0, dty) -> block_wf b -> c_infos c !! i = Some bi ->
  clock_rel (set_info i (set_dirty 0) (set_info i (set_dirty 1) (set_info i (set_status NEW)
    (set_block i b c)))) (<[k:=b]> d) (<[k:=b]> d).
Proof.
  intros Hr Hi Hb Hbi. pose proof (clock_rel_write_hit _ _ _ _ _ _ _ _ _ Hr Hi Hb Hbi) as Hr1.
  assert (slot (set_info i (set_dirty 1) (set_info i (set_status NEW) (set_block i b c))) i =
          Some (k, b, 1)) as Hs.
  { rewrite slot_set_info, decide_True by done. simpl.
    apply slot_Some in Hi as (bi' & E1 & E2 & E3 & -> & _). simplify_eq.
    rewrite list_lookup_alter_eq, E1. simpl.
    by rewrite list_lookup_insert_eq by (eapply lookup_lt_Some; eauto). }
  eapply clock_rel_mark_clean; [by eapply clock_rel_writeback|exact Hs|apply lookup_insert_eq].
Qed.

(** A write below to an address that is not cached. *)
Lemma clock_rel_below_write (c : clock_cache) (d : vdisk) (k : Z * Z) (b : block) :
  clock_rel c d d -> is_Some (d !! k) -> block_wf b ->
  (forall j b' dty, slot c j <> Some (k, b', dty)) -> clock_rel c (<[k:=b]> d) (<[k:=b]> d).
Proof.
  intros Hr Hk Hb Hm. pose proof Hr as [Hsh Hw Hd H1 H2 H3 H4].
  assert (forall i k' b' dty, slot c i = Some (k', b', dty) -> k <> k') as Hne
    by (intros i k' b' dty Hs <-; by eapply Hm).
  split; [done|by apply vdisk_wf_insert|reflexivity| | |done|done].
  - intros i k' b' dty Hs. rewrite lookup_insert_ne by eauto. eauto.
  - intros i k' b' Hs. rewrite lookup_insert_ne by eauto. eauto.
Qed.

(** ** The operations keep the relation *)

Section wtclockdisk_spec.
Context {S : Type} {R : S -> vdisk -> Prop} `{!BlockStore S, !Lawful S R}.
Abbreviation st := (wtclockdisk_state S).

(** The store below holds everything, and every slot agrees with it. *)
Definition wt_repr (ws : st) (d : vdisk) : Prop :=
  R (ws_below ws) d /\ clock_rel (embed (ws_cache ws)) d d.

Definition wt_quiet (m : M st unit) : Prop :=
  forall ws, wp m ws (fun _ ws' => ws_below ws' = ws_below ws /\ ws_cache ws' = ws_cache ws).

Lemma wt_quiet_count :
  wt_quiet wt_count_op /\ wt_quiet wt_count_read_hit /\ wt_quiet wt_count_read_miss /\
  wt_quiet wt_count_write_hit /\ wt_quiet wt_count_write_miss.
Proof. split_and!; intros ws; by split. Qed.

Lemma wt_quiet_dump : wt_quiet wtclockdisk_dump_stats_if_needed.
Proof.
  intros ws. unfold wtclockdisk_dump_stats_if_needed. steps. decide_goal as H; by split.
Qed.

Lemma wp_wt_quiet (m : M st unit) ws Q :
  wt_quiet m ->
  (forall ws', ws_below ws' = ws_below ws -> ws_cache ws' = ws_cache ws -> Q tt ws') ->
  wp m ws Q.
Proof. intros Hm Hk. wp_use Hm as [H1 H2]. destruct a. by apply Hk. Qed.

Lemma wt_repr_eq (ws ws' : st) (d : vdisk) :
  ws_below ws' = ws_below ws -> ws_cache ws' = ws_cache ws -> wt_repr ws d -> wt_repr ws' d.
Proof. unfold wt_repr. by intros -> ->. Qed.

Lemma wt_cache_update_spec (fuel : nat) (ino off : Z) (b : block) :
  forall (ws : st) (d : vdisk),
  (count_new (c_infos (embed (ws_cache ws))) < fuel)%nat -> wt_repr ws d ->
  (forall j b dty, slot (embed (ws_cache ws)) j <> Some (ino, off, b, dty)) ->
  d !! (ino, off) = Some b ->
  wp (wt_cache_update fuel ino off b) ws (fun _ ws' => wt_repr ws' d).
Proof.
  induction fuel as [|fuel IH]; intros ws d Hf [HR Hr] Hnew Hk; [lia|].
  pose proof (cr_shape _ _ _ Hr) as Hsh.
  assert (exists wi, w_infos (ws_cache ws) !! Z.to_nat (w_hand (ws_cache ws)) = Some wi)
    as [wi Hi].
  { apply Zto_nat_lookup_lt. pose proof (sh_infos _ Hsh) as Hl. pose proof (sh_hand _ Hsh) as Hh.
    simpl in Hl, Hh. rewrite length_fmap in Hl. lia. }
  simpl. steps. eapply wp_read_nth; [exact Hi|]. apply embed_lookup in Hi.
  destruct (decide (wi_status wi <> NEW)) as [Hn|Hn].
  - unfold ws_set_cache. steps. split; [exact HR|]. cbn [ws_cache].
    rewrite embed_set_hand, embed_set_block,
      (embed_set_info _ _ (fun _ => BlockInfo NEW 0 ino off)) by done.
    rewrite <- (insert_id d (ino, off) b) at 2 by done.
    apply clock_rel_fill; eauto using lookup_lt_Some, mk_is_Some.
    + intros k b' dty' Hs. pose proof (embed_slot_clean _ _ _ _ _ Hs) as ->.
      eapply cr_clean; eauto.
    + eapply vd_block; [apply Hr|exact Hk].
    + apply (shape_next _ Hsh).
  - apply dec_stable in Hn. unfold ws_set_cache. steps.
    assert (embed (wt_set_hand (u32 (w_hand (ws_cache ws) + 1) mod w_nblocks (ws_cache ws))
              (wt_set_info (Z.to_nat (w_hand (ws_cache ws))) (wt_set_status OLD) (ws_cache ws))) =
            set_hand (u32 (c_hand (embed (ws_cache ws)) + 1) mod c_nblocks (embed (ws_cache ws)))
              (set_info (Z.to_nat (c_hand (embed (ws_cache ws)))) (set_status OLD)
                 (embed (ws_cache ws)))) as He
      by (by rewrite embed_set_hand, (embed_set_info _ _ (set_status OLD)) by done).
    assert (forall j, slot (set_hand (u32 (c_hand (embed (ws_cache ws)) + 1) mod c_nblocks (embed (ws_cache ws)))
              (set_info (Z.to_nat (c_hand (embed (ws_cache ws)))) (set_status OLD)
                 (embed (ws_cache ws)))) j = slot (embed (ws_cache ws)) j) as Hsl.
    { intros j. rewrite slot_set_hand. eapply slot_set_status; [done|exact Hi|]. simpl. congruence. }
    eapply IH; unfold wt_repr; cbn [ws_cache ws_below]; rewrite ?He.
    + pose proof (count_new_alter _ _ _ Hi Hn). cbn [set_hand set_info c_infos].
      cbn [embed c_hand] in *. lia.
    + split; [exact HR|]. eapply clock_rel_ext; [|exact Hsl|exact Hr].
      apply shape_set_hand; [by apply shape_set_info|by apply (shape_next _ Hsh)].
    + intros j b' dty'. rewrite Hsl. apply Hnew.
    + exact Hk.
Qed.

Lemma wt_update_fuel_enough (c : wt_cache) : (count_new (c_infos (embed c)) < wt_update_fuel c)%nat.
Proof.
  pose proof (count_new_le (c_infos (embed c))) as H. simpl in H.
  rewrite length_fmap in H. unfold wt_update_fuel. simpl. lia.
Qed.
#[local] Opaque wt_update_fuel.

Ltac quiet_pair ws E1 E2 :=
  steps; apply wp_wt_quiet; [first [apply wt_quiet_dump | apply wt_quiet_count]|intros ws E1 E2]; steps.

Lemma wtclockdisk_read_spec (ws : st) (d : vdisk) ino off b buf :
  wt_repr ws d -> d !! (ino, off) = Some b -> block_wf buf ->
  wp (wtclockdisk_read ino off buf) ws (fun r ws' => r = (0, b) /\ wt_repr ws' d).
Proof.
  intros Hr Hk Hbuf. unfold wtclockdisk_read. steps. quiet_pair ws1 E1 E2.
  apply (wt_repr_eq _ _ _ E1 E2) in Hr. clear E1 E2.
  pose proof (embed_find ino off (ws_cache ws1)) as Ef.
  destruct (list_find (wt_slot_is _ _) _) as [[i wi]|] eqn:Ew; simpl in Ef.
  - destruct (find_hit _ _ _ _ _ _ _ (proj2 Hr) Ef) as (b0 & Hi & Hb0 & He & Hs).
    assert (b0 = b) as -> by (apply (cr_slot _ _ _ (proj2 Hr)) in Hs; congruence).
    step. eapply wp_read_nth; [exact Hb0|]. unfold ws_set_cache at 1. steps.
    quiet_pair ws2 E1 E2. quiet_pair ws3 E3 E4. split; [done|].
    eapply wt_repr_eq; [exact E3|exact E4|]. eapply wt_repr_eq; [exact E1|exact E2|].
    split; [apply Hr|]. cbn [ws_cache]. rewrite (embed_set_info _ _ (set_status NEW)) by done.
    eapply clock_rel_ext; [..|apply Hr]; [apply shape_set_info, Hr|].
    intros j. by eapply slot_set_status.
  - pose proof (find_miss (embed (ws_cache ws1)) _ _ Ef) as Hm. quiet_pair ws2 E1 E2.
    rewrite <- E2 in Hm. apply (wt_repr_eq _ _ _ E1 E2) in Hr. unfold ws_call. steps.
    wp_use (law_read (R:=R) (ws_below ws2) d ino off b buf (proj1 Hr) Hk Hbuf) as [-> HR].
    steps. quiet_pair ws3 E3 E4.
    assert (wt_repr ws3 d) as Hr3
      by (split; [by rewrite E3|rewrite E4; apply Hr]).
    rewrite <- E2. cbn [ws_cache] in E4. rewrite <- E4 in *.
    cbn [fst snd]. rewrite decide_False by done. step.
    wp_use wt_cache_update_spec as Hpost; eauto using wt_update_fuel_enough. by step.
Qed.

Lemma wtclockdisk_write_spec (ws : st) (d : vdisk) ino off b :
  wt_repr ws d -> is_Some (d !! (ino, off)) -> block_wf b ->
  wp (wtclockdisk_write ino off b) ws
    (fun r ws' => r = 0 /\ wt_repr ws' (<[(ino, off):=b]> d)).
Proof.
  intros Hr Hk Hb. unfold wtclockdisk_write. steps. quiet_pair ws1 E1 E2.
  apply (wt_repr_eq _ _ _ E1 E2) in Hr. clear E1 E2.
  pose proof (embed_find ino off (ws_cache ws1)) as Ef.
  destruct (list_find (wt_slot_is _ _) _) as [[i wi]|] eqn:Ew; simpl in Ef.
  - destruct (find_hit _ _ _ _ _ _ _ (proj2 Hr) Ef) as (b0 & Hi & Hb0 & He & Hs).
    unfold ws_set_cache. steps. quiet_pair ws2 E1 E2. quiet_pair ws3 E3 E4.
    unfold ws_call. steps.
    assert (R (ws_below ws3) d) as HR by (rewrite E3, E1; apply Hr).
    wp_use (law_write (R:=R) (ws_below ws3) d ino off b HR Hk Hb) as [-> HR']. split; [done|].
    split; [done|]. cbn [ws_cache]. rewrite E4, E2. cbn [ws_cache].
    rewrite (embed_set_info _ _ (fun x => set_dirty 0 (set_dirty 1 (set_status NEW x)))) by done.
    rewrite embed_set_block.
    pose proof (clock_rel_write_through _ _ _ _ _ _ _ _ (proj2 Hr) Hs Hb Hi) as Hw.
    unfold set_info in Hw |- *. cbn [c_blocks c_infos c_nblocks c_hand] in Hw |- *.
    by rewrite !list_alter_alter_eq in Hw.
  - pose proof (find_miss (embed (ws_cache ws1)) _ _ Ef) as Hm. quiet_pair ws2 E1 E2.
    rewrite <- E2 in Hm. apply (wt_repr_eq _ _ _ E1 E2) in Hr. unfold ws_call. steps.
    wp_use (law_write (R:=R) (ws_below ws2) d ino off b (proj1 Hr) Hk Hb) as [-> HR].
    steps. quiet_pair ws3 E3 E4. cbn [ws_cache] in E4. rewrite <- E2.
    rewrite <- E4 in *.
    rewrite decide_False by done. step.
    wp_use (wt_cache_update_spec (wt_update_fuel (ws_cache ws3)) ino off b ws3 (<[(ino, off):=b]> d))
      as Hpost; [apply wt_update_fuel_enough| |done|apply lookup_insert_eq|by step].
    split; [by rewrite E3|]. rewrite E4 in Hm |- *. apply clock_rel_below_write; [apply Hr|done..].
Qed.

Lemma wtclockdisk_getsize_spec (ws : st) (d : vdisk) ino n :
  wt_repr ws d -> size_of d ino n -> 0 < n < 2147483648 ->
  wp (wtclockdisk_getsize ino) ws (fun r ws' => r = n /\ wt_repr ws' d).
Proof.
  intros Hr Hsz Hn. unfold wtclockdisk_getsize. steps. quiet_pair ws1 E1 E2.
  quiet_pair ws2 E3 E4. unfold ws_call. step.
  apply (wt_repr_eq _ _ _ E1 E2), (wt_repr_eq _ _ _ E3 E4) in Hr as [HR Hr].
  wp_use (law_getsize (R:=R) (ws_below ws2) d ino n HR Hsz Hn) as [-> HR']. by split.
Qed.

Lemma wtclockdisk_sync_spec (ws : st) (d : vdisk) ino off :
  wt_repr ws d -> is_Some (d !! (ino, off)) ->
  wp (wtclockdisk_sync ino) ws (fun r ws' => r = 0 /\ wt_repr ws' d).
Proof.
  intros Hr Hk. unfold wtclockdisk_sync. steps. quiet_pair ws1 E1 E2.
  quiet_pair ws2 E3 E4. unfold ws_call. step.
  apply (wt_repr_eq _ _ _ E1 E2), (wt_repr_eq _ _ _ E3 E4) in Hr as [HR Hr].
  wp_use (law_sync (R:=R) (ws_below ws2) d ino off HR Hk) as [-> HR']. by split.
Qed.

#[export] Instance wtclockdisk_lawful : Lawful st wt_repr.
Proof.
  split.
  - intros s d [_ Hr]. apply Hr.
  - exact wtclockdisk_getsize_spec.
  - exact wtclockdisk_read_spec.
  - exact wtclockdisk_write_spec.
  - exact wtclockdisk_sync_spec.
Qed.

Lemma wtclockdisk_init_repr (below : S) (d : vdisk) (blocks : list block) (n : Z) :
  R below d -> 0 < n < two32 -> Z.of_nat (length blocks) = n ->
  wt_repr (wtclockdisk_init below blocks n) d.
Proof.
  intros HR Hn Hl. split; [done|].
  assert (forall i, slot (embed (ws_cache (wtclockdisk_init below blocks n))) i = None) as Hs.
  { intros i. destruct (slot _ i) as [[[k b] dty]|] eqn:E; [|done].
    apply slot_Some in E as (bi & Hi & _ & He & _). simpl in Hi.
    rewrite list_lookup_fmap in Hi. destruct (replicate _ _ !! i) as [wi|] eqn:Ew; [|done].
    apply lookup_replicate in Ew as [-> _]. by simplify_eq/=. }
  split; [|by eapply law_wf|reflexivity|..]; try (intros; by rewrite Hs in *).
  - split; simpl; rewrite ?length_fmap, ?length_replicate; lia.
  - done.
Qed.

(** C24. The write-through cache never holds anything back: after any sequence
    of requests the replies are those of the abstract disk, and the store
    below, when the cache is released without a sync, represents the same
    disk. *)
Theorem wtclockdisk_write_through (below : S) (d : vdisk) (blocks : list block) (n : Z)
    (qs : list request) :
  R below d -> 0 < n < two32 -> Z.of_nat (length blocks) = n -> Forall (valid_req d) qs ->
  wp (exec_reqs qs) (wtclockdisk_init below blocks n)
    (fun rs ws' => rs = (spec_reqs d qs).1 /\ R (wtclockdisk_release ws') (spec_reqs d qs).2).
Proof.
  intros HR Hn Hl Hqs.
  wp_use (exec_reqs_spec (R:=wt_repr) qs _ d) as [-> Hr];
    [by apply wtclockdisk_init_repr|done|]. split; [done|apply Hr].
Qed.
End wtclockdisk_spec.

Lemma wtclockdisk_write_through_witness :
  wp (exec_reqs wit_reqs) (wtclockdisk_init wit_ram [null_block] 1) (fun rs ws' =>
    rs = (spec_reqs (disk_of [null_block; null_block]) wit_reqs).1 /\
    ram_repr (wtclockdisk_release ws') (spec_reqs (disk_of [null_block; null_block]) wit_reqs).2).
Proof.
  apply wtclockdisk_write_through; [exact wit_ram_repr|done|done|exact wit_reqs_valid].
Defined.
