(* ===== verification/TreeDisk.v ===== *)
(** src/src/block/treedisk.c and treedisk.h: many virtual block stores (files)
    inside one inode of the block store below. This file holds the operations;
    [TreeInv] the invariant of the layout and [TreeSpec] what the operations do
    to it. *)
From stdpp Require Import base numbers list gmap.
From Stdlib Require Import ZArith Lia.
From S2P Require Import Prelude BlockStore.

Definition INODES_PER_BLOCK : Z := 128.
Definition REFS_PER_BLOCK : nat := 256.

(** [treedisk_init] computes the log of the number of references per block. *)
Fixpoint log_rpb_loop (fuel : nat) (l : Z) : Z :=
  match fuel with
  | O => l
  | S fuel =>
      let l := l + 1 in
      if decide (Z.shiftr (Z.of_nat REFS_PER_BLOCK - 1) l <> 0) then log_rpb_loop fuel l else l
  end.

Definition log_rpb : Z := log_rpb_loop 32 0.

Definition log_shift_r (x nbits : Z) : Z :=
  if decide (nbits >= 32) then 0 else Z.shiftr x nbits.

(** The loop that counts the levels of a tree that reaches offset [x]. *)
Fixpoint count_levels (fuel : nat) (x : Z) (nlevels : nat) : option nat :=
  match fuel with
  | O => None
  | S fuel =>
      if decide (log_shift_r x (Z.of_nat nlevels * log_rpb) <> 0)
      then count_levels fuel x (S nlevels) else Some nlevels
  end.

(** A 32-bit offset needs at most four rounds of eight bits, and a last test. *)
Definition level_fuel : nat := 5.

Definition nlevels_of (nblocks : Z) : option nat :=
  if decide (nblocks > 0) then count_levels level_fuel (nblocks - 1) 0 else Some 0%nat.

(** The index into an indirect block, [nlevels] levels above the data. *)
Definition tree_index (offset : Z) (nlevels : nat) : nat :=
  Z.to_nat (log_shift_r offset (Z.of_nat nlevels * log_rpb) mod Z.of_nat REFS_PER_BLOCK).

(** [struct treedisk_snapshot]; [sn_inode] is the index of the inode in its block. *)
Record snapshot := Snapshot {
  sn_superblock : block;
  sn_inodeblock : block;
  sn_inode_blockno : Z;
  sn_inode : nat;
}.

(** The fields of the structures of treedisk.h as words of their blocks. *)
Definition sb_n_inodeblocks (b : block) : Z := get32 b 0.
Definition sb_free_list (b : block) : Z := get32 b 1.
Definition sb_set_free_list (b : block) (v : Z) : block := set32 b 1 v.
Definition root_word (idx : nat) : nat := (2 * idx)%nat.
Definition nblocks_word (idx : nat) : nat := (2 * idx + 1)%nat.

Definition sn_root (sn : snapshot) : Z := get32 (sn_inodeblock sn) (root_word (sn_inode sn)).
Definition sn_nblocks (sn : snapshot) : Z := get32 (sn_inodeblock sn) (nblocks_word (sn_inode sn)).
Definition sn_set_root (v : Z) (sn : snapshot) : snapshot :=
  Snapshot (sn_superblock sn) (set32 (sn_inodeblock sn) (root_word (sn_inode sn)) v)
    (sn_inode_blockno sn) (sn_inode sn).
Definition sn_set_nblocks (v : Z) (sn : snapshot) : snapshot :=
  Snapshot (sn_superblock sn) (set32 (sn_inodeblock sn) (nblocks_word (sn_inode sn)) v)
    (sn_inode_blockno sn) (sn_inode sn).
Definition sn_set_free_list (v : Z) (sn : snapshot) : snapshot :=
  Snapshot (sb_set_free_list (sn_superblock sn) v) (sn_inodeblock sn)
    (sn_inode_blockno sn) (sn_inode sn).

(** [for (i = REFS_PER_BLOCK; --i > 0;) if (refs\[i\] != 0) break;] *)
Fixpoint scan_used (b : block) (i : nat) : nat :=
  match i with
  | O => O
  | S j =>
      if decide (j = 0%nat) then 0%nat
      else if decide (get32 b j <> 0) then j else scan_used b j
  end.

(** [for (i = 1; i < REFS_PER_BLOCK; i++) if (refs\[i\] == 0) break;] with [n]
    rounds left. *)
Fixpoint scan_empty (b : block) (n i : nat) : nat :=
  match n with
  | O => i
  | S n => if decide (get32 b i = 0) then i else scan_empty b n (S i)
  end.

(** The references in an indirect block. *)
Definition refs (b : block) : list Z := get32 b <$> seq 0 REFS_PER_BLOCK.

(** The number of levels that [treedisk_free_file] works out. *)
Fixpoint free_levels (fuel : nat) (max_capacity : Z) (level : nat) (nblocks : Z) : option nat :=
  match fuel with
  | O => None
  | S fuel =>
      if decide (max_capacity < nblocks)
      then free_levels fuel (u32 (max_capacity * Z.of_nat REFS_PER_BLOCK)) (S level) nblocks
      else Some level
  end.

Record treedisk_state (S : Type) := TreeDisk {
  ts_below : S;
  ts_below_ino : Z;
}.
Arguments TreeDisk {S}.
Arguments ts_below {S}.
Arguments ts_below_ino {S}.

(** The result of a loop that had enough fuel. *)
Definition done_ {S A} (o : option A) : M S A :=
  match o with Some a => mret a | None => out_of_fuel end.

Section treedisk.
Context {S : Type} `{!BlockStore S}.
Abbreviation st := (treedisk_state S).

Definition td_call {A} (m : Z -> M S A) : M st A :=
  ts ← get; lift ts_below (fun b ts => TreeDisk b (ts_below_ino ts)) (m (ts_below_ino ts)).

Definition td_read (off : Z) (buf : block) : M st (Z * block) :=
  td_call (fun ino => bs_read ino off buf).

(** A read or a write whose failure ends the process. *)
Definition td_read_or_panic (off : Z) : M st block :=
  x ← td_read off null_block; if decide (x.1 < 0) then panic else mret x.2.

Definition td_write_or_panic (off : Z) (b : block) : M st unit :=
  w ← td_call (fun ino => bs_write ino off b); if decide (w < 0) then panic else mret tt.

(** [None] stands for the result [-1]. *)
Definition treedisk_get_snapshot (inode_no : Z) : M st (option snapshot) :=
  x ← td_read 0 null_block;
  if decide (x.1 < 0) then mret None else
  if decide (inode_no >= sb_n_inodeblocks x.2 * INODES_PER_BLOCK) then mret None else
  let inode_blockno := u32 (1 + inode_no / INODES_PER_BLOCK) in
  y ← td_read inode_blockno null_block;
  if decide (y.1 < 0) then mret None else
  mret (Some (Snapshot x.2 y.2 inode_blockno (Z.to_nat (inode_no mod INODES_PER_BLOCK)))).

Definition treedisk_alloc_block (sn : snapshot) : M st (Z * snapshot) :=
  let b := sb_free_list (sn_superblock sn) in
  if decide (b = 0) then panic else
  fb ← td_read_or_panic b;
  let i := scan_used fb REFS_PER_BLOCK in
  if decide (i = 0%nat) then
    let sn := sn_set_free_list (get32 fb 0) sn in
    td_write_or_panic 0 (sn_superblock sn);;
    mret (b, sn)
  else
    td_write_or_panic b (set32 fb i 0);;
    mret (get32 fb i, sn).

Definition treedisk_free_block (sn : snapshot) (target : Z) : M st snapshot :=
  td_write_or_panic target null_block;;
  let b := sb_free_list (sn_superblock sn) in
  if decide (b = 0) then
    let sn := sn_set_free_list target sn in
    td_write_or_panic 0 (sn_superblock sn);;
    mret sn
  else
  fb ← td_read_or_panic b;
  let i := scan_empty fb (REFS_PER_BLOCK - 1) 1 in
  if decide (i <> REFS_PER_BLOCK) then
    td_write_or_panic b (set32 fb i target);;
    mret sn
  else
    let sn := sn_set_free_list target sn in
    td_write_or_panic 0 (sn_superblock sn);;
    td_write_or_panic target (set32 null_block 0 b);;
    mret sn.

(** Calls [f] on the references that are not holes. *)
Fixpoint for_refs (f : snapshot -> Z -> M st snapshot) (rs : list Z) (sn : snapshot) : M st snapshot :=
  match rs with
  | [] => mret sn
  | r :: rs => sn ← (if decide (r <> 0) then f sn r else mret sn); for_refs f rs sn
  end.

Fixpoint recursive_free_file (fuel : nat) (level curr_level : nat) (sn : snapshot) (b : Z)
    : M st snapshot :=
  match fuel with
  | O => out_of_fuel
  | Datatypes.S fuel =>
      if decide (level = curr_level) then treedisk_free_block sn b else
      ib ← td_read_or_panic b;
      sn ← for_refs (recursive_free_file fuel level (Datatypes.S curr_level)) (refs ib) sn;
      treedisk_free_block sn b
  end.

Definition treedisk_free_file (fuel : nat) (sn : snapshot) : M st snapshot :=
  if decide (sn_nblocks sn = 0) then mret sn else
  if decide (sn_nblocks sn = 1) then treedisk_free_block sn (sn_root sn) else
  level ← done_ (free_levels fuel (Z.of_nat REFS_PER_BLOCK) 1 (sn_nblocks sn));
  recursive_free_file (Datatypes.S level) level 0 sn (sn_root sn).

Definition treedisk_getninodes : M st Z :=
  x ← td_read 0 null_block;
  if decide (x.1 < 0) then mret (-1) else
  mret (i32 (sb_n_inodeblocks x.2 * INODES_PER_BLOCK)).

Definition treedisk_getsize (ino : Z) : M st Z :=
  osn ← treedisk_get_snapshot ino;
  match osn with
  | None => mret (-1)
  | Some sn => mret (i32 (sn_nblocks sn))
  end.

(** The result of [treedisk_get_snapshot] is not looked at: when it fails the
    snapshot is uninitialised, and using it has undefined behaviour. *)
Definition treedisk_setsize_fuel (fuel : nat) (ino nblocks : Z) : M st Z :=
  osn ← treedisk_get_snapshot ino;
  match osn with
  | None => undef
  | Some sn =>
      if decide (nblocks = sn_nblocks sn) then mret (i32 nblocks) else
      if decide (nblocks > 0) then mret (-1) else
      let oldsize := sn_nblocks sn in
      sn ← treedisk_free_file fuel sn;
      let sn := sn_set_root 0 (sn_set_nblocks 0 sn) in
      td_write_or_panic (sn_inode_blockno sn) (sn_inodeblock sn);;
      mret (i32 oldsize)
  end.

Definition treedisk_setsize (ino nblocks : Z) : M st Z :=
  treedisk_setsize_fuel level_fuel ino nblocks.

(** The walk of [treedisk_read], [nlevels] levels above the data. *)
Fixpoint read_walk (nlevels : nat) (offset b : Z) (buf : block) : M st (Z * block) :=
  if decide (b = 0) then mret (0, null_block) else
  x ← td_read b buf;
  if decide (x.1 < 0) then mret x else
  match nlevels with
  | O => mret (0, x.2)
  | Datatypes.S nlevels =>
      read_walk nlevels offset (get32 x.2 (tree_index offset nlevels)) x.2
  end.

Definition treedisk_read (ino offset : Z) (buf : block) : M st (Z * block) :=
  osn ← treedisk_get_snapshot ino;
  match osn with
  | None => mret (-1, buf)
  | Some sn =>
      if decide (offset >= sn_nblocks sn) then mret (-1, buf) else
      nlevels ← done_ (nlevels_of (sn_nblocks sn));
      read_walk nlevels offset (sn_root sn) buf
  end.

(** The loop that inserts [n] indirect blocks above the root. *)
Fixpoint grow_levels (n : nat) (sn : snapshot) : M st snapshot :=
  match n with
  | O => mret sn
  | Datatypes.S n =>
      x ← treedisk_alloc_block sn;
      let '(indir, sn) := x in
      let tib := set32 null_block 0 (sn_root sn) in
      let sn := sn_set_root indir sn in
      td_write_or_panic indir tib;;
      grow_levels n sn
  end.

(** The walk of [treedisk_write]: [parent_block\[parent_no\]] is the reference
    to the next block, and [parent_block] is stored at [parent_off]. The
    result is the block that the data goes to. *)
Fixpoint write_walk (nlevels : nat) (offset : Z) (sn : snapshot)
    (parent_off : Z) (parent_block : block) (parent_no : nat) : M st Z :=
  let b := get32 parent_block parent_no in
  if decide (b = 0) then
    x ← treedisk_alloc_block sn;
    let '(b, sn) := x in
    td_write_or_panic parent_off (set32 parent_block parent_no b);;
    match nlevels with
    | O => mret b
    | Datatypes.S nlevels =>
        write_walk nlevels offset sn b null_block (tree_index offset nlevels)
    end
  else
    match nlevels with
    | O => mret b
    | Datatypes.S nlevels =>
        tib ← td_read_or_panic b;
        write_walk nlevels offset sn b tib (tree_index offset nlevels)
    end.

(** The number of levels needed after the write, and the new size. *)
Definition write_size (nlevels : nat) (offset : Z) (sn : snapshot) : M st (nat * snapshot * bool) :=
  if decide (offset >= sn_nblocks sn) then
    l ← done_ (count_levels level_fuel offset 0);
    mret (l, sn_set_nblocks (u32 (offset + 1)) sn, true)
  else mret (nlevels, sn, false).

(** The number of levels is grown to that number. *)
Definition write_grow (nlevels nlevels_after : nat) (sn : snapshot) (dirty_inode : bool)
    : M st (nat * snapshot * bool) :=
  if decide (sn_nblocks sn = 0) then mret (nlevels_after, sn, dirty_inode) else
  if decide (nlevels < nlevels_after)%nat then
    sn ← grow_levels (nlevels_after - nlevels) sn;
    mret (nlevels_after, sn, true)
  else mret (nlevels, sn, dirty_inode).

Definition write_inode (sn : snapshot) (dirty_inode : bool) : M st unit :=
  if dirty_inode then td_write_or_panic (sn_inode_blockno sn) (sn_inodeblock sn) else mret tt.

Definition treedisk_write (ino offset : Z) (b : block) : M st Z :=
  osn ← treedisk_get_snapshot ino;
  match osn with
  | None => mret (-1)
  | Some sn =>
      nlevels ← done_ (nlevels_of (sn_nblocks sn));
      x ← write_size nlevels offset sn;
      let '(nlevels_after, sn, dirty_inode) := x in
      y ← write_grow nlevels nlevels_after sn dirty_inode;
      let '(nlevels, sn, dirty_inode) := y in
      write_inode sn dirty_inode;;
      bno ← write_walk nlevels offset sn (sn_inode_blockno sn) (sn_inodeblock sn)
              (root_word (sn_inode sn));
      td_write_or_panic bno b;;
      mret 0
  end.

Definition treedisk_sync (ino : Z) : M st Z := td_call (fun below_ino => bs_sync below_ino).

Definition treedisk_release (ts : st) : S := ts_below ts.

Definition treedisk_init (below : S) (below_ino : Z) : st := TreeDisk below below_ino.

#[export] Instance treedisk_bs : BlockStore st := {
  bs_getninodes := treedisk_getninodes;
  bs_getsize := treedisk_getsize;
  bs_setsize := treedisk_setsize;
  bs_read := treedisk_read;
  bs_write := treedisk_write;
  bs_sync := treedisk_sync;
}.

(** ** Creating a file system, on the store below *)

(** The references of one free-list block: the next block on the list, then
    as many free blocks as there are, then zeros. *)
Fixpoint fill_refs (n i : nat) (b : block) (next_free nblocks : Z) : block * Z :=
  match n with
  | O => (b, next_free)
  | Datatypes.S n =>
      if decide (next_free < nblocks)
      then fill_refs n (Datatypes.S i) (set32 b i next_free) (next_free + 1) nblocks
      else fill_refs n (Datatypes.S i) (set32 b i 0) next_free nblocks
  end.

Fixpoint setup_freelist (fuel : nat) (below_ino next_free nblocks freelist_block : Z)
    (freelist_data : block) : M S Z :=
  match fuel with
  | O => out_of_fuel
  | Datatypes.S fuel =>
      if decide (next_free < nblocks) then
        let data := set32 freelist_data 0 freelist_block in
        let freelist_block := next_free in
        let '(data, next_free) :=
          fill_refs (REFS_PER_BLOCK - 1) 1 data (next_free + 1) nblocks in
        w ← bs_write below_ino freelist_block data;
        if decide (w < 0) then panic else
        setup_freelist fuel below_ino next_free nblocks freelist_block data
      else mret freelist_block
  end.

(** The loop that clears the inode blocks [i], [i+1], ..., [n] of them. *)
Fixpoint clear_inodes (n : nat) (below_ino i : Z) : M S bool :=
  match n with
  | O => mret true
  | Datatypes.S n =>
      w ← bs_write below_ino i null_block;
      if decide (w < 0) then mret false else clear_inodes n below_ino (i + 1)
  end.

Definition treedisk_create (below_ino ninodes : Z) : M S Z :=
  let n_inodeblocks := u32 ((ninodes + INODES_PER_BLOCK - 1) / INODES_PER_BLOCK) in
  r ← bs_getsize below_ino;
  let nblocks := u32 r in
  if decide (nblocks < u32 (n_inodeblocks + 2)) then mret (-1) else
  x ← bs_read below_ino 0 null_block;
  if decide (x.1 < 0) then mret (-1) else
  if decide (sb_n_inodeblocks x.2 = 0) then
    fl ← setup_freelist (Datatypes.S (Z.to_nat nblocks)) below_ino (u32 (n_inodeblocks + 1))
           nblocks 0 null_block;
    w ← bs_write below_ino 0 (set32 (set32 null_block 0 n_inodeblocks) 1 fl);
    if decide (w < 0) then mret (-1) else
    ok ← clear_inodes (Z.to_nat n_inodeblocks) below_ino 1;
    mret (if (ok : bool) then 0 else -1)
  else
    assert_ (bool_decide (sb_n_inodeblocks x.2 >= n_inodeblocks));;
    mret 0.
End treedisk.
