(* ===== verification/TreeInv.v ===== *)
(** The layout of a treedisk file system and its invariant: the free list, the
    trees that hold the files, and which block is used for what. *)
From stdpp Require Import base numbers list gmap.
From Stdlib Require Import Permutation.
From Stdlib Require Import ZArith Lia.
From S2P Require Import Prelude BlockStore TreeDisk.

(** * Levels *)

Lemma log_rpb_8 : log_rpb = 8.
Proof. reflexivity. Qed.

Lemma log_shift_r_div x l :
  is_u32 x -> log_shift_r x (Z.of_nat l * log_rpb) = x / 256 ^ Z.of_nat l.
Proof.
  intros Hx. rewrite log_rpb_8. unfold log_shift_r.
  assert (256 ^ Z.of_nat l = 2 ^ (Z.of_nat l * 8)) as ->
    by (rewrite Z.mul_comm, Z.pow_mul_r by lia; done).
  decide_goal as H.
  - symmetry. apply Z.div_small. split; [apply Hx|].
    assert (2 ^ 32 <= 2 ^ (Z.of_nat l * 8)) by (apply Z.pow_le_mono_r; lia).
    unfold is_u32, two32 in Hx. lia.
  - apply Z_shiftr_div. lia.
Qed.

Lemma pow256_S l : 256 ^ Z.of_nat (S l) = 256 * 256 ^ Z.of_nat l.
Proof. rewrite Nat2Z.inj_succ. apply Z.pow_succ_r. lia. Qed.

Lemma pow256_pos l : 0 < 256 ^ Z.of_nat l.
Proof. apply Z.pow_pos_nonneg; lia. Qed.

Lemma div_zero_iff x l : 0 <= x -> x / 256 ^ Z.of_nat l = 0 <-> x < 256 ^ Z.of_nat l.
Proof.
  intros Hx. pose proof (pow256_pos l). split; intros H1.
  - apply Z.div_small_iff in H1; lia.
  - apply Z.div_small. lia.
Qed.

(** What the loop that counts levels returns. *)
Lemma count_levels_from fuel : forall x l,
  is_u32 x -> (5 <= l + fuel)%nat -> (l <= 4)%nat -> (forall j, (j < l)%nat -> 256 ^ Z.of_nat j <= x) ->
  exists L, count_levels fuel x l = Some L /\ (L <= 4)%nat /\
    x < 256 ^ Z.of_nat L /\ (forall j, (j < L)%nat -> 256 ^ Z.of_nat j <= x).
Proof.
  induction fuel as [|fuel IH]; intros x l Hx Hf Hl Hlow; [lia|]. simpl.
  rewrite log_shift_r_div by done. pose proof (div_zero_iff x l (proj1 Hx)) as Hz.
  decide_goal as H.
  - assert (256 ^ Z.of_nat l <= x) as Hge by lia.
    assert (l <> 4)%nat as Hne by (intros ->; unfold is_u32, two32 in Hx; simpl in Hge; lia).
    apply IH; [done|lia|lia|]. intros j Hj.
    destruct (decide (j = l)) as [->|]; [done|]. apply Hlow. lia.
  - exists l. split_and!; [done|done|lia|done].
Qed.

Lemma count_levels_spec x : is_u32 x ->
  exists L, count_levels level_fuel x 0 = Some L /\ (L <= 4)%nat /\
    x < 256 ^ Z.of_nat L /\ (forall j, (j < L)%nat -> 256 ^ Z.of_nat j <= x).
Proof. intros Hx. apply count_levels_from; [done|unfold level_fuel; lia|lia|lia]. Qed.

(** The number of levels of a file of [n] blocks. *)
Definition tree_levels (n : Z) : nat := default 0%nat (nlevels_of n).

Lemma tree_levels_spec n : is_u32 n ->
  nlevels_of n = Some (tree_levels n) /\ (tree_levels n <= 4)%nat /\
  n <= 256 ^ Z.of_nat (tree_levels n) /\
  (forall j, (j < tree_levels n)%nat -> 256 ^ Z.of_nat j < n).
Proof.
  intros Hn. unfold tree_levels, nlevels_of. decide_goal as H.
  - destruct (count_levels_spec (n - 1)) as (L & -> & H1 & H2 & H3);
      [unfold is_u32, two32 in *; lia|]. simpl.
    split_and!; [done|done|lia|]. intros j Hj. specialize (H3 j Hj). lia.
  - simpl. split_and!; [done|lia|unfold is_u32 in Hn; lia|lia].
Qed.

Lemma tree_levels_unique n L :
  is_u32 n -> n <= 256 ^ Z.of_nat L -> (forall j, (j < L)%nat -> 256 ^ Z.of_nat j < n) ->
  tree_levels n = L.
Proof.
  intros Hn H1 H2. destruct (tree_levels_spec n Hn) as (_ & _ & H3 & H4).
  destruct (Nat.lt_trichotomy (tree_levels n) L) as [H|[H|H]]; [|done|].
  - specialize (H2 _ H). lia.
  - specialize (H4 _ H). lia.
Qed.

Lemma tree_levels_mono n m : is_u32 n -> is_u32 m -> n <= m -> (tree_levels n <= tree_levels m)%nat.
Proof.
  intros Hn Hm Hle. destruct (tree_levels_spec n Hn) as (_ & _ & _ & H4).
  destruct (tree_levels_spec m Hm) as (_ & _ & H5 & _).
  destruct (decide (tree_levels n <= tree_levels m)%nat) as [|H]; [done|].
  assert (256 ^ Z.of_nat (tree_levels m) < n) by (apply H4; lia). lia.
Qed.

(** The levels needed to reach [offset] are those of a file that ends there. *)
Lemma count_levels_offset off :
  is_u32 (off + 1) -> 0 <= off -> count_levels level_fuel off 0 = Some (tree_levels (off + 1)).
Proof.
  intros H Ho. destruct (count_levels_spec off) as (L & E & HL & H1 & H2);
    [unfold is_u32 in *; lia|].
  rewrite E. f_equal. symmetry. apply tree_levels_unique; [done|lia|].
  intros j Hj. specialize (H2 j Hj). lia.
Qed.

Lemma tree_index_spec off l :
  is_u32 off -> tree_index off l = Z.to_nat (off / 256 ^ Z.of_nat l mod 256).
Proof. intros H. unfold tree_index. by rewrite log_shift_r_div. Qed.

Lemma tree_index_lt off l : (tree_index off l < 256)%nat.
Proof.
  unfold tree_index. change (Z.of_nat REFS_PER_BLOCK) with 256.
  pose proof (Z.mod_pos_bound (log_shift_r off (Z.of_nat l * log_rpb)) 256). lia.
Qed.

(** The position at which the walk to [off] is, [l] levels above the data. *)
Lemma div256_S off l : 0 <= off -> off / 256 ^ Z.of_nat (S l) = off / 256 ^ Z.of_nat l / 256.
Proof.
  intros H. rewrite pow256_S, Z.mul_comm. rewrite Z.div_div by (pose proof (pow256_pos l); lia).
  done.
Qed.

(** What a block of the file system is used for: superblock and inode blocks,
    free blocks, and the block [l] levels above the data at position [p] of
    file [i]. *)
Inductive role := RMeta | RFree | RNode (i : Z) (l : nat) (p : Z).

(** Taking an element out of the middle of a list. *)
Lemma perm_take {A} (h v : A) (l l' l0 : list A) :
  l ≡ₚ v :: l' -> h :: l ++ l0 ≡ₚ v :: h :: l' ++ l0.
Proof.
  intros H. etransitivity; [apply perm_skip, Permutation_app_tail, H|]. apply perm_swap.
Qed.

(** * Blocks of the file system *)

Section layout.
Context (bino : Z).

(** Block [n] of the file system on the disk [dB]. *)
Definition blk (dB : vdisk) (n : Z) : block := default null_block (dB !! (bino, n)).

Definition present (dB : vdisk) (n : Z) : Prop := is_Some (dB !! (bino, n)).

Lemma blk_insert dB n b m :
  blk (<[(bino, n):=b]> dB) m = if decide (n = m) then b else blk dB m.
Proof.
  unfold blk. decide_goal as H; [by subst; rewrite lookup_insert_eq|].
  by rewrite lookup_insert_ne by congruence.
Qed.

Lemma blk_insert_eq dB n b : blk (<[(bino, n):=b]> dB) n = b.
Proof. by rewrite blk_insert, decide_True. Qed.

Lemma blk_insert_ne dB n b m : n <> m -> blk (<[(bino, n):=b]> dB) m = blk dB m.
Proof. intros. by rewrite blk_insert, decide_False. Qed.

Lemma blk_present dB n : present dB n -> dB !! (bino, n) = Some (blk dB n).
Proof. unfold blk. by intros [b ->]. Qed.

Lemma blk_wf dB n : vdisk_wf dB -> block_wf (blk dB n).
Proof.
  intros Hw. unfold blk. destruct (dB !! (bino, n)) as [b|] eqn:E; [|apply null_block_wf].
  by eapply vd_block.
Qed.

Lemma present_insert dB n b m : present dB n -> present (<[(bino, n):=b]> dB) m <-> present dB m.
Proof. intros Hn. symmetry. apply (same_dom_insert dB (bino, n) b Hn). Qed.

(** ** Inodes *)

Definition n_inodes (dB : vdisk) : Z := sb_n_inodeblocks (blk dB 0) * INODES_PER_BLOCK.

Definition inode_block (i : Z) : Z := 1 + i / INODES_PER_BLOCK.
Definition inode_idx (i : Z) : nat := Z.to_nat (i mod INODES_PER_BLOCK).

Definition inode_root (dB : vdisk) (i : Z) : Z :=
  get32 (blk dB (inode_block i)) (root_word (inode_idx i)).
Definition inode_size (dB : vdisk) (i : Z) : Z :=
  get32 (blk dB (inode_block i)) (nblocks_word (inode_idx i)).

Definition valid_ino (dB : vdisk) (i : Z) : Prop := 0 <= i < n_inodes dB.

Lemma inode_idx_lt i : (inode_idx i < 128)%nat.
Proof.
  unfold inode_idx, INODES_PER_BLOCK. pose proof (Z.mod_pos_bound i 128). lia.
Qed.

Lemma inode_block_meta dB i :
  valid_ino dB i -> 1 <= inode_block i <= sb_n_inodeblocks (blk dB 0).
Proof.
  unfold valid_ino, n_inodes, inode_block, INODES_PER_BLOCK. intros H.
  pose proof (Z.div_pos i 128). pose proof (Z.div_lt_upper_bound i 128 (sb_n_inodeblocks (blk dB 0))).
  lia.
Qed.

(** Inodes of one block have different words. *)
Lemma inode_slot_inj i j :
  inode_block i = inode_block j -> inode_idx i = inode_idx j -> 0 <= i -> 0 <= j -> i = j.
Proof.
  unfold inode_block, inode_idx, INODES_PER_BLOCK. intros H1 H2 Hi Hj.
  pose proof (Z.mod_pos_bound i 128). pose proof (Z.mod_pos_bound j 128).
  rewrite (Z.div_mod i 128), (Z.div_mod j 128) by lia. lia.
Qed.

(** ** The free list *)

(** The free blocks that a block of the free list refers to. *)
Definition entries (b : block) : list Z :=
  filter (fun r => r <> 0) (get32 b <$> seq 1 255).

Inductive free_at (dB : vdisk) : Z -> list Z -> Prop :=
| fa_nil : free_at dB 0 []
| fa_cons h fl :
    h <> 0 -> free_at dB (get32 (blk dB h) 0) fl ->
    free_at dB h (h :: entries (blk dB h) ++ fl).

Lemma free_at_frame dB dB' h fl :
  (forall n, n ∈ fl -> blk dB' n = blk dB n) -> free_at dB h fl -> free_at dB' h fl.
Proof.
  intros Hb Hf. induction Hf as [|h fl Hh Hf IH]; [constructor|].
  rewrite <- (Hb h) by set_solver. constructor; [done|].
  rewrite (Hb h) by set_solver. apply IH. set_solver.
Qed.

Lemma free_at_cons dB h fl : free_at dB h fl -> h <> 0 ->
  exists fl0, fl = h :: entries (blk dB h) ++ fl0 /\ free_at dB (get32 (blk dB h) 0) fl0.
Proof. intros Hf Hh. destruct Hf as [|h fl0 _ Hf]; [done|]. eauto. Qed.

Lemma free_at_head dB h fl : free_at dB h fl -> h = 0 <-> fl = [].
Proof. intros Hf. by destruct Hf. Qed.

Lemma map_set32_notin b i v (l : list nat) :
  block_wf b -> (i < 256)%nat -> i ∉ l -> get32 (set32 b i v) <$> l = get32 b <$> l.
Proof.
  intros Hb Hi Hn. apply list_fmap_ext. intros k j Hj. apply get32_set32_ne; [done|done|].
  intros ->. apply Hn. by eapply list_elem_of_lookup_2.
Qed.

Lemma entries_split i :
  (1 <= i < 256)%nat ->
  exists l1 l2, seq 1 255 = l1 ++ i :: l2 /\ i ∉ l1 /\ i ∉ l2.
Proof.
  intros Hi. assert (i ∈ seq 1 255) as Hin by (apply elem_of_seq; lia).
  apply list_elem_of_split in Hin as (l1 & l2 & E). exists l1, l2. split; [done|].
  pose proof (NoDup_seq 1 255) as Hnd. rewrite E in Hnd.
  apply NoDup_app in Hnd as (_ & H1 & H2). apply NoDup_cons in H2 as [H2 _].
  split; [|done]. intros Hin. apply (H1 _ Hin). by left.
Qed.

(** Writing a reference into an empty slot, and emptying a slot. *)
Lemma entries_set b i v :
  block_wf b -> (1 <= i < 256)%nat -> is_u32 v -> v <> 0 -> get32 b i = 0 ->
  entries (set32 b i v) ≡ₚ v :: entries b.
Proof.
  intros Hb Hi Hv Hv0 H0. destruct (entries_split i Hi) as (l1 & l2 & E & H1 & H2).
  unfold entries. rewrite E, !fmap_app, !fmap_cons, !filter_app.
  rewrite !map_set32_notin by (done || lia). rewrite get32_set32_eq by (done || lia).
  rewrite H0, filter_cons_True by done. rewrite (filter_cons_False _ 0) by lia.
  by rewrite Permutation_middle.
Qed.

Lemma entries_clear b i :
  block_wf b -> (1 <= i < 256)%nat -> get32 b i <> 0 ->
  entries b ≡ₚ get32 b i :: entries (set32 b i 0).
Proof.
  intros Hb Hi H0. destruct (entries_split i Hi) as (l1 & l2 & E & H1 & H2).
  unfold entries. rewrite E, !fmap_app, !fmap_cons, !filter_app.
  rewrite !map_set32_notin by (done || lia).
  rewrite get32_set32_eq by (done || lia || (split; reflexivity)).
  rewrite filter_cons_True by done. rewrite (filter_cons_False _ 0) by lia.
  by rewrite Permutation_middle.
Qed.

Lemma entries_zero b : (forall i, (1 <= i < 256)%nat -> get32 b i = 0) -> entries b = [].
Proof.
  intros H. unfold entries.
  assert (forall l, (forall i, i ∈ l -> get32 b i = 0) ->
            filter (fun r => r <> 0) (get32 b <$> l) = []) as Hl.
  { induction l as [|i l IH]; intros Hz; [done|]. csimpl.
    rewrite (Hz i) by (by left). rewrite filter_cons_False by lia.
    apply IH. intros j Hj. apply Hz. by right. }
  apply Hl. intros i Hi%elem_of_seq. apply H. lia.
Qed.

Lemma scan_used_spec b n :
  (forall i, (1 <= i < n)%nat -> get32 b i = 0) /\ scan_used b n = 0%nat \/
  (1 <= scan_used b n < n)%nat /\ get32 b (scan_used b n) <> 0.
Proof.
  induction n as [|n IH]; simpl; [left; split; [lia|done]|].
  decide_goal as H0; [left; split; [lia|done]|].
  decide_goal as H; [right; split; [lia|done]|].
  apply dec_stable in H. destruct IH as [[H1 H2]|[H1 H2]]; [left|right; split; [lia|done]].
  split; [|done]. intros i Hi. destruct (decide (i = n)) as [->|]; [done|]. apply H1. lia.
Qed.

Lemma scan_empty_spec b n i :
  (forall j, (i <= j < i + n)%nat -> get32 b j <> 0) /\ scan_empty b n i = (i + n)%nat \/
  (i <= scan_empty b n i < i + n)%nat /\ get32 b (scan_empty b n i) = 0.
Proof.
  revert i. induction n as [|n IH]; intros i; simpl; [left; split; [lia|lia]|].
  decide_goal as H; [right; split; [lia|done]|].
  destruct (IH (S i)) as [[H1 H2]|[H1 H2]]; [left|right; split; [lia|done]].
  split; [|lia]. intros j Hj. destruct (decide (j = i)) as [->|]; [done|]. apply H1. lia.
Qed.
(** ** Trees *)

(** The block at depth [k] below the root, at position [p] among the blocks of
    that depth; 0 is a hole. *)
Fixpoint node (dB : vdisk) (root : Z) (k : nat) (p : Z) : Z :=
  match k with
  | O => if decide (p = 0) then root else 0
  | S k =>
      let b := node dB root k (p / 256) in
      if decide (b = 0) then 0 else get32 (blk dB b) (Z.to_nat (p mod 256))
  end.

Lemma node_hole dB k p : node dB 0 k p = 0.
Proof.
  revert p. induction k as [|k IH]; intros p; simpl; [by destruct (decide _)|].
  by rewrite IH, decide_True.
Qed.

Lemma node_neg dB root k p : p < 0 -> node dB root k p = 0.
Proof.
  revert p. induction k as [|k IH]; intros p Hp; simpl; [by rewrite decide_False by lia|].
  rewrite IH by (apply Z.div_lt_upper_bound; lia). by rewrite decide_True.
Qed.

Lemma node_frame dB dB' root k : forall p,
  (forall j q, (j < k)%nat -> node dB root j q <> 0 ->
     blk dB' (node dB root j q) = blk dB (node dB root j q)) ->
  node dB' root k p = node dB root k p.
Proof.
  induction k as [|k IH]; intros p H; simpl; [done|].
  rewrite IH by (intros; apply H; [lia|done]).
  decide_goal as H0; [done|]. f_equal. apply H; [lia|done].
Qed.

(** A new root above the old one. *)
Lemma node_grow dB r root :
  r <> 0 -> blk dB r = set32 null_block 0 root -> is_u32 root ->
  forall k p, 0 <= p -> node dB r (S k) p = node dB root k p.
Proof.
  intros Hr Hb Hroot. induction k as [|k IH]; intros p Hp.
  - simpl. pose proof (Z.div_mod p 256 ltac:(lia)). pose proof (Z.mod_pos_bound p 256 ltac:(lia)).
    destruct (decide (p / 256 = 0)) as [H1|H1].
    + rewrite (decide_False (P := r = 0)) by done. rewrite Hb.
      destruct (decide (p = 0)) as [->|H2].
      * rewrite get32_set32_eq; [done|apply null_block_wf|lia|done].
      * rewrite get32_set32_ne; [apply get32_null|apply null_block_wf|lia|lia].
    + rewrite (decide_True (P := 0 = 0)) by done. by rewrite decide_False by (intros ->; by apply H1).
  - change (node dB r (S (S k)) p) with
      (let b := node dB r (S k) (p / 256) in
       if decide (b = 0) then 0 else get32 (blk dB b) (Z.to_nat (p mod 256))).
    cbv zeta. rewrite IH by (apply Z.div_pos; lia). done.
Qed.

(** A reference is written into the slot of a hole: only the node there changes. *)
Lemma node_attach dB dB' root L k0 p0 idx nb :
  let P := node dB root k0 p0 in
  vdisk_wf dB -> P <> 0 -> (k0 < L)%nat -> (idx < 256)%nat -> is_u32 nb -> nb <> 0 -> nb <> P ->
  (forall j q, (j < L)%nat -> 0 <= q -> node dB root j q = P -> j = k0 /\ q = p0) ->
  (forall j q, (j < L)%nat -> 0 <= q -> node dB root j q <> nb) ->
  get32 (blk dB P) idx = 0 ->
  blk dB' P = set32 (blk dB P) idx nb ->
  ((S k0 < L)%nat -> blk dB' nb = null_block) ->
  (forall b, b <> P -> b <> nb -> blk dB' b = blk dB b) ->
  forall j p, (j <= L)%nat -> 0 <= p ->
  node dB' root j p =
    if decide (j = S k0 /\ p = p0 * 256 + Z.of_nat idx) then nb else node dB root j p.
Proof.
  intros P Hw HP HkL Hidx Hnb Hnb0 HnbP Huniq Hfresh H0 HbP Hbn Hb.
  induction j as [|j IH]; intros p Hj Hp.
  { rewrite decide_False; [|intros [? _]; lia]. done. }
  cbn [node]. rewrite IH by (lia || (apply Z.div_pos; lia)).
  pose proof (Z.div_mod p 256 ltac:(lia)). pose proof (Z.mod_pos_bound p 256 ltac:(lia)).
  assert (0 <= p / 256) by (apply Z.div_pos; lia).
  assert (node dB root (S k0) (p0 * 256 + Z.of_nat idx) = 0) as Hhole.
  { cbn [node]. rewrite Z.div_add_l, (Z.div_small (Z.of_nat idx)), Z.add_0_r by lia. fold P.
    rewrite decide_False by done. rewrite Z.add_comm, Z.mod_add, Z.mod_small, Nat2Z.id by lia.
    done. }
  destruct (decide (j = S k0 /\ p / 256 = p0 * 256 + Z.of_nat idx)) as [[-> E]|Hne].
  - rewrite E, Hhole, (decide_False (P := nb = 0)), (decide_True (P := 0 = 0)) by done.
    rewrite Hbn by lia. rewrite get32_null. by rewrite decide_False by lia.
  - destruct (decide (node dB root j (p / 256) = 0)) as [Hz|Hz].
    { rewrite decide_False; [done|]. intros [Ej Ep]. apply HP. unfold P.
      replace k0 with j by lia. replace p0 with (p / 256); [done|].
      rewrite Ep, Z.div_add_l, (Z.div_small (Z.of_nat idx)) by lia. lia. }
    destruct (decide (node dB root j (p / 256) = P)) as [HeP|HeP].
    + destruct (Huniq j (p / 256)) as [-> Ep]; [lia|done|done|].
      rewrite HeP, HbP. decide_goal as Hd.
      * destruct Hd as [_ Hd]. replace (Z.to_nat (p mod 256)) with idx by lia.
        rewrite get32_set32_eq; [done|by apply blk_wf|done|done].
      * rewrite get32_set32_ne; [done|by apply blk_wf|done|].
        intros Hi. apply Hd. split; [done|]. lia.
    + rewrite Hb; [|done|by apply Hfresh; [lia|]].
      rewrite decide_False; [done|]. intros [Ej Ep]. apply HeP. unfold P.
      replace k0 with j by lia. replace p0 with (p / 256); [done|].
      rewrite Ep, Z.div_add_l, (Z.div_small (Z.of_nat idx)) by lia. lia.
Qed.

(** The first block of an empty tree. *)
Lemma node_new dB nb L :
  nb <> 0 -> ((0 < L)%nat -> blk dB nb = null_block) ->
  forall j p, (j <= L)%nat -> 0 <= p ->
  node dB nb j p = if decide (j = 0%nat /\ p = 0) then nb else 0.
Proof.
  intros Hn Hb. induction j as [|j IH]; intros p Hj Hp.
  - simpl. destruct (decide (p = 0)); [by rewrite decide_True|].
    rewrite decide_False; [done|]. by intros [_ ?].
  - cbn [node]. rewrite IH by (lia || (apply Z.div_pos; lia)).
    rewrite (decide_False (P := S j = 0%nat /\ p = 0)) by lia.
    destruct (decide (j = 0%nat /\ p / 256 = 0)); [|by rewrite decide_True].
    rewrite decide_False by done. rewrite Hb by lia. apply get32_null.
Qed.

Definition fnode (dB : vdisk) (i : Z) (k : nat) (p : Z) : Z := node dB (inode_root dB i) k p.

(** The invariant. [lv] gives the number of levels of every file, [rl] what
    each block is used for, [fl] the free blocks. That every block has at
    most one use keeps files and the free list apart. *)
Record td_inv (lv : Z -> nat) (rl : Z -> role) (fl : list Z) (dB : vdisk) : Prop := {
  ti_wf : vdisk_wf dB;
  ti_meta : forall m, 0 <= m <= sb_n_inodeblocks (blk dB 0) -> present dB m /\ rl m = RMeta;
  ti_free : free_at dB (sb_free_list (blk dB 0)) fl;
  ti_nodup : NoDup fl;
  ti_fl : forall b, b ∈ fl -> present dB b /\ rl b = RFree;
  ti_node : forall i k p, valid_ino dB i -> (k <= lv i)%nat -> 0 <= p -> fnode dB i k p <> 0 ->
    present dB (fnode dB i k p) /\ rl (fnode dB i k p) = RNode i (lv i - k) p;
  ti_beyond : forall i p, valid_ino dB i -> inode_size dB i <= p -> 0 <= p ->
    fnode dB i (lv i) p = 0;
}.

(** Block [off] of file [i]. *)
Definition content (lv : Z -> nat) (dB : vdisk) (i off : Z) : block :=
  let b := fnode dB i (lv i) off in if decide (b = 0) then null_block else blk dB b.

Section inv.
Context {lv : Z -> nat} {rl : Z -> role} {fl : list Z} {dB : vdisk}.
Context (HI : td_inv lv rl fl dB).

Lemma ti_zero_meta : present dB 0 /\ rl 0 = RMeta.
Proof. apply (ti_meta _ _ _ _ HI). pose proof (get32_u32 (blk dB 0) 0). unfold sb_n_inodeblocks. destruct H. lia. Qed.

Lemma ti_inode_meta i : valid_ino dB i -> present dB (inode_block i) /\ rl (inode_block i) = RMeta.
Proof. intros Hi. apply (ti_meta _ _ _ _ HI). pose proof (inode_block_meta _ _ Hi). lia. Qed.

Lemma ti_fl_nonzero b : b ∈ fl -> b <> 0.
Proof. intros Hb ->. apply (ti_fl _ _ _ _ HI) in Hb as [_ Hb]. by rewrite (proj2 ti_zero_meta) in Hb. Qed.

Lemma ti_fl_u32 b : b ∈ fl -> is_u32 b.
Proof. intros [Hb _]%(ti_fl _ _ _ _ HI). by eapply vd_off, Hb; apply HI. Qed.

Lemma ti_node_uniq i k p i' k' p' :
  valid_ino dB i -> (k <= lv i)%nat -> 0 <= p ->
  valid_ino dB i' -> (k' <= lv i')%nat -> 0 <= p' ->
  fnode dB i k p = fnode dB i' k' p' -> fnode dB i k p <> 0 -> i = i' /\ k = k' /\ p = p'.
Proof.
  intros Hi Hk Hp Hi' Hk' Hp' E H0.
  destruct (ti_node _ _ _ _ HI i k p Hi Hk Hp H0) as [_ H1].
  destruct (ti_node _ _ _ _ HI i' k' p' Hi' Hk' Hp') as [_ H2]; [congruence|].
  rewrite E, H2 in H1. injection H1 as <- E1 <-. split_and!; [done|lia|done].
Qed.

Lemma ti_node_role i k p b :
  valid_ino dB i -> (k <= lv i)%nat -> 0 <= p -> rl b = RMeta \/ rl b = RFree ->
  fnode dB i k p <> 0 -> fnode dB i k p <> b.
Proof.
  intros Hi Hk Hp Hr H0 <-. destruct (ti_node _ _ _ _ HI i k p Hi Hk Hp H0) as [_ H1].
  destruct Hr; congruence.
Qed.

(** Changes that leave the trees alone. *)
Lemma fnode_same dB' i :
  valid_ino dB i -> inode_root dB' i = inode_root dB i ->
  (forall b l p, rl b = RNode i (S l) p -> blk dB' b = blk dB b) ->
  forall k p, (k <= lv i)%nat -> 0 <= p -> fnode dB' i k p = fnode dB i k p.
Proof.
  intros Hi Hroot Hb. unfold fnode. rewrite Hroot.
  induction k as [|k IH]; intros p Hk Hp; [done|]. cbn [node].
  rewrite IH by (lia || (apply Z.div_pos; lia)).
  decide_goal as H0; [done|].
  destruct (ti_node _ _ _ _ HI i k (p / 256) Hi) as [_ Hr]; [lia|apply Z.div_pos; lia|done|].
  f_equal. eapply (Hb _ (lv i - S k)%nat). unfold fnode in Hr. rewrite Hr. f_equal. lia.
Qed.

Lemma td_inv_frame dB' fl' :
  vdisk_wf dB' -> same_dom dB dB' ->
  sb_n_inodeblocks (blk dB' 0) = sb_n_inodeblocks (blk dB 0) ->
  (forall i, valid_ino dB i -> inode_root dB' i = inode_root dB i /\
                               inode_size dB i <= inode_size dB' i) ->
  (forall i b l p, rl b = RNode i (S l) p -> blk dB' b = blk dB b) ->
  free_at dB' (sb_free_list (blk dB' 0)) fl' -> NoDup fl' ->
  (forall b, b ∈ fl' -> present dB b /\ rl b = RFree) ->
  td_inv lv rl fl' dB'.
Proof.
  intros Hw Hd Hn Hino Hb Hf Hnd Hfl.
  assert (forall i, valid_ino dB' i <-> valid_ino dB i) as Hv
    by (intros i; unfold valid_ino, n_inodes; by rewrite Hn).
  assert (forall b, present dB' b <-> present dB b) as Hp by (intros b; symmetry; apply Hd).
  split; [done| |done|done| | |].
  - intros m. rewrite Hn, Hp. apply HI.
  - intros b Hin. rewrite Hp. by apply Hfl.
  - intros i k p Hi Hk Hp0. rewrite Hv in Hi. destruct (Hino i Hi) as [Hr _].
    rewrite (fnode_same dB' i Hi Hr) by eauto. rewrite Hp. by apply HI.
  - intros i p Hi Hsz Hp0. rewrite Hv in Hi. destruct (Hino i Hi) as [Hr Hle].
    rewrite (fnode_same dB' i Hi Hr) by eauto. apply HI; [done|lia|done].
Qed.

(** A hole is filled: [nb] becomes the node at depth [k0], position [p0] of
    file [i0]. *)
Lemma td_inv_attach dB' i0 k0 p0 nb :
  vdisk_wf dB' -> same_dom dB dB' ->
  sb_n_inodeblocks (blk dB' 0) = sb_n_inodeblocks (blk dB 0) ->
  free_at dB' (sb_free_list (blk dB' 0)) fl ->
  (forall i, valid_ino dB i -> inode_size dB' i = inode_size dB i) ->
  (k0 <= lv i0)%nat -> (k0 = lv i0 -> p0 < inode_size dB i0) ->
  present dB nb -> rl nb = RFree -> nb ∉ fl ->
  (forall i k p, valid_ino dB i -> (k <= lv i)%nat -> 0 <= p ->
     fnode dB' i k p = if decide (i = i0 /\ k = k0 /\ p = p0) then nb else fnode dB i k p) ->
  td_inv lv (fun b => if decide (b = nb) then RNode i0 (lv i0 - k0) p0 else rl b) fl dB'.
Proof.
  intros Hw Hd Hn Hf Hsz Hk0 Hp0 Hnb Hrl Hfl Hnode.
  assert (forall i, valid_ino dB' i <-> valid_ino dB i) as Hv
    by (intros i; unfold valid_ino, n_inodes; by rewrite Hn).
  assert (forall b, present dB' b <-> present dB b) as Hp by (intros b; symmetry; apply Hd).
  split; [done| |done|apply HI| | |].
  - intros m. rewrite Hn, Hp. intros Hm. destruct (ti_meta _ _ _ _ HI m Hm) as [H1 H2].
    split; [done|]. rewrite decide_False; [done|]. intros ->. congruence.
  - intros b Hin. rewrite Hp, decide_False by (intros ->; done). by apply HI.
  - intros i k p Hi Hk Hpp. rewrite Hv in Hi. rewrite Hnode by done. rewrite Hp.
    destruct (decide (i = i0 /\ k = k0 /\ p = p0)) as [(-> & -> & ->)|Hne].
    + by rewrite decide_True.
    + intros H0. rewrite decide_False; [by apply HI|]. apply ti_node_role; auto.
  - intros i p Hi Hs Hpp. rewrite Hv in Hi. rewrite Hsz in Hs by done. rewrite Hnode by done.
    rewrite decide_False; [by apply HI|]. intros (-> & E & ->). specialize (Hp0 (eq_sym E)). lia.
Qed.

(** [dB'] differs from [dB] in the free list only. *)
Definition free_change (dB' : vdisk) : Prop :=
  vdisk_wf dB' /\ same_dom dB dB' /\
  sb_n_inodeblocks (blk dB' 0) = sb_n_inodeblocks (blk dB 0) /\
  (forall n, n <> 0 -> rl n <> RFree -> blk dB' n = blk dB n).

Lemma free_change_insert n x :
  block_wf x -> (n = 0 /\ get32 x 0 = get32 (blk dB 0) 0) \/ (present dB n /\ rl n = RFree) ->
  free_change (<[(bino, n):=x]> dB).
Proof.
  intros Hx Hn.
  assert (present dB n) as Hp by (destruct Hn as [[-> _]|[? _]]; [apply ti_zero_meta|done]).
  split; [apply vdisk_wf_insert; [apply HI|done|done]|].
  split; [by apply same_dom_insert|]. split.
  - rewrite blk_insert. decide_goal as E; [|done]. subst n. destruct Hn as [[_ E]|[_ E]]; [done|].
    by rewrite (proj2 ti_zero_meta) in E.
  - intros m H0 Hm. rewrite blk_insert_ne; [done|]. intros <-.
    destruct Hn as [[? _]|[_ ?]]; done.
Qed.

Lemma free_change_inode dB' i : free_change dB' -> valid_ino dB i ->
  blk dB' (inode_block i) = blk dB (inode_block i).
Proof.
  intros (_ & _ & _ & H) Hi. pose proof (inode_block_meta _ _ Hi).
  apply H; [lia|]. by rewrite (proj2 (ti_inode_meta i Hi)).
Qed.

Lemma free_change_node dB' i l p b : free_change dB' -> rl b = RNode i l p -> blk dB' b = blk dB b.
Proof.
  intros (_ & _ & _ & H) Hb. apply H; [|congruence]. intros ->.
  by rewrite (proj2 ti_zero_meta) in Hb.
Qed.

Lemma free_change_fnode dB' i k p :
  free_change dB' -> valid_ino dB i -> (k <= lv i)%nat -> 0 <= p ->
  fnode dB' i k p = fnode dB i k p.
Proof.
  intros Hf Hi Hk Hp. apply fnode_same; [done| | |done|done].
  - unfold inode_root. by rewrite free_change_inode.
  - intros. by eapply free_change_node.
Qed.

Lemma free_change_content dB' i off :
  free_change dB' -> valid_ino dB i -> 0 <= off -> content lv dB' i off = content lv dB i off.
Proof.
  intros Hf Hi Ho. unfold content. rewrite free_change_fnode by done.
  decide_goal as H0; [done|].
  destruct (ti_node _ _ _ _ HI i (lv i) off Hi) as [_ Hr]; [done..|]. by eapply free_change_node.
Qed.

Lemma free_change_inv dB' fl' :
  free_change dB' -> free_at dB' (sb_free_list (blk dB' 0)) fl' -> NoDup fl' ->
  (forall b, b ∈ fl' -> present dB b /\ rl b = RFree) -> td_inv lv rl fl' dB'.
Proof.
  intros Hc Hf Hnd Hfl. pose proof Hc as (Hw & Hd & Hn & Hb).
  apply td_inv_frame; try done.
  - intros i Hi. unfold inode_root, inode_size. rewrite (free_change_inode _ _ Hc Hi).
    split; [done|lia].
  - intros. by eapply free_change_node.
Qed.

(** What taking a block off the free list does. *)
Lemma alloc_inv :
  fl <> [] ->
  let h := sb_free_list (blk dB 0) in
  let i := scan_used (blk dB h) REFS_PER_BLOCK in
  h ∈ fl /\
  exists fl',
    fl ≡ₚ (if decide (i = 0%nat) then h else get32 (blk dB h) i) :: fl' /\
    let dB' := if decide (i = 0%nat)
               then <[(bino, 0):=sb_set_free_list (blk dB 0) (get32 (blk dB h) 0)]> dB
               else <[(bino, h):=set32 (blk dB h) i 0]> dB in
    free_change dB' /\ td_inv lv rl fl' dB'.
Proof.
  intros Hne h i. pose proof (ti_free _ _ _ _ HI) as Hf. fold h in Hf.
  assert (h <> 0) as Hh by (by rewrite (free_at_head _ _ _ Hf)).
  destruct (free_at_cons _ _ _ Hf Hh) as (fl0 & Efl & Hf0).
  pose proof (ti_nodup _ _ _ _ HI) as Hnd. rewrite Efl in Hnd.
  apply NoDup_cons in Hnd as [Hh_notin Hnd].
  assert (h ∈ fl) as Hin by (rewrite Efl; by left). split; [done|].
  destruct (ti_fl _ _ _ _ HI h Hin) as [Hph Hrh].
  pose proof (blk_wf dB h (ti_wf _ _ _ _ HI)) as Hwb.
  assert (forall b, b ∈ fl0 -> b ∈ fl) as Hsub
    by (intros b Hb; rewrite Efl; right; apply elem_of_app; by right).
  destruct (scan_used_spec (blk dB h) REFS_PER_BLOCK) as [[Hz Ei]|[Hi Hnz]].
  - (* no reference left: the block itself is taken *)
    exists fl0. rewrite !(decide_True (P := i = 0%nat)) by done.
    rewrite Efl, (entries_zero _ Hz). simpl. split; [done|].
    assert (block_wf (sb_set_free_list (blk dB 0) (get32 (blk dB h) 0))) as Hwx
      by (apply set32_wf; [apply blk_wf, HI|lia]).
    assert (free_change (<[(bino, 0):=sb_set_free_list (blk dB 0) (get32 (blk dB h) 0)]> dB)) as Hc.
    { apply free_change_insert; [done|]. left. split; [done|].
      apply get32_set32_ne; [apply blk_wf, HI|lia|lia]. }
    split; [done|]. apply free_change_inv;
      [done| | |intros b Hb; by apply (ti_fl _ _ _ _ HI), Hsub].
    + rewrite blk_insert_eq. unfold sb_free_list, sb_set_free_list.
      rewrite get32_set32_eq; [|apply blk_wf, HI|lia|apply get32_u32].
      eapply free_at_frame; [|exact Hf0]. intros n Hn. apply blk_insert_ne.
      apply not_eq_sym. by apply ti_fl_nonzero, Hsub.
    + apply NoDup_app in Hnd as (_ & _ & Hnd). done.
  - (* a reference is taken out of the block *)
    rewrite !(decide_False (P := i = 0%nat)) by (fold i in Hi; lia).
    fold i in Hi, Hnz. change REFS_PER_BLOCK with 256%nat in Hi.
    set (fb' := set32 (blk dB h) i 0).
    exists (h :: entries fb' ++ fl0).
    assert (fl ≡ₚ get32 (blk dB h) i :: h :: entries fb' ++ fl0) as Hperm.
    { rewrite Efl. by apply perm_take, entries_clear. }
    split; [done|].
    assert (free_change (<[(bino, h):=fb']> dB)) as Hc
      by (apply free_change_insert; [apply set32_wf; [done|lia]|by right]).
    split; [done|]. apply free_change_inv; [done| | |].
    + rewrite blk_insert_ne by done.
      assert (get32 fb' 0 = get32 (blk dB h) 0) as E0
        by (apply get32_set32_ne; [done|lia|lia]).
      replace fb' with (blk (<[(bino, h):=fb']> dB) h) at 2 by apply blk_insert_eq.
      constructor; [done|]. rewrite blk_insert_eq, E0.
      eapply free_at_frame; [|exact Hf0]. intros n Hn. apply blk_insert_ne.
      intros <-. apply Hh_notin, elem_of_app. by right.
    + pose proof (ti_nodup _ _ _ _ HI) as Hnd'. rewrite Hperm in Hnd'.
      by apply NoDup_cons in Hnd' as [_ ?].
    + intros b Hb. apply (ti_fl _ _ _ _ HI). rewrite Hperm. by right.
Qed.

(** ** Filling a hole *)

(** The reference to node [(k, p)] of file [i] is word [pidx] of block [poff]. *)
Definition slot_at (i : Z) (k : nat) (p poff : Z) (pidx : nat) : Prop :=
  match k with
  | O => p = 0 /\ poff = inode_block i /\ pidx = root_word (inode_idx i)
  | S k0 => poff = fnode dB i k0 (p / 256) /\ poff <> 0 /\ pidx = Z.to_nat (p mod 256)
  end.

Lemma slot_at_get i k p poff pidx :
  slot_at i k p poff pidx -> get32 (blk dB poff) pidx = fnode dB i k p.
Proof.
  destruct k as [|k0]; simpl.
  - by intros (-> & -> & ->).
  - intros (E & H0 & ->). unfold fnode in *. cbn [node]. rewrite <- E.
    by rewrite decide_False.
Qed.

Lemma slot_at_idx i k p poff pidx : slot_at i k p poff pidx -> (pidx < 256)%nat.
Proof.
  destruct k as [|k0]; simpl.
  - intros (_ & _ & ->). pose proof (inode_idx_lt i). unfold root_word. lia.
  - intros (_ & _ & ->). pose proof (Z.mod_pos_bound p 256). lia.
Qed.

(** The block that holds the reference is an inode block or a node above the
    data. *)
Lemma slot_at_role i k p poff pidx :
  valid_ino dB i -> (k <= lv i)%nat -> 0 <= p -> slot_at i k p poff pidx ->
  present dB poff /\ poff <> 0 /\
  (k = 0%nat /\ rl poff = RMeta \/
   exists k0, k = S k0 /\ rl poff = RNode i (lv i - k0) (p / 256)).
Proof.
  intros Hi Hk Hp. destruct k as [|k0]; simpl.
  - intros (_ & -> & _). destruct (ti_inode_meta i Hi) as [H1 H2].
    pose proof (inode_block_meta _ _ Hi). split_and!; [done|lia|by left].
  - intros (-> & H0 & _). destruct (ti_node _ _ _ _ HI i k0 (p / 256) Hi) as [H1 H2];
      [lia|apply Z.div_pos; lia|done|]. split_and!; [done|done|right; by exists k0].
Qed.

Section attach.
Context (i : Z) (k : nat) (p poff nb : Z) (pidx : nat).
Context (Hi : valid_ino dB i) (Hk : (k <= lv i)%nat) (Hp : 0 <= p)
  (Hslot : slot_at i k p poff pidx) (Hhole : fnode dB i k p = 0)
  (Hnb : present dB nb) (Hrl : rl nb = RFree) (Hfl : nb ∉ fl).

Definition attach1 : vdisk := <[(bino, poff):=set32 (blk dB poff) pidx nb]> dB.
Definition attached : vdisk :=
  if decide (k < lv i)%nat then <[(bino, nb):=null_block]> attach1 else attach1.

Lemma attach_ne : nb <> 0 /\ nb <> poff /\ is_u32 nb.
Proof.
  destruct (slot_at_role _ _ _ _ _ Hi Hk Hp Hslot) as (_ & H0 & Hr).
  pose proof (proj2 ti_zero_meta) as Hz. split_and!.
  - intros ->. congruence.
  - intros <-. destruct Hr as [[_ Hr]|(? & _ & Hr)]; congruence.
  - eapply vd_off; [apply HI|exact Hnb].
Qed.

Lemma attached_blk b : b <> poff -> b <> nb -> blk attached b = blk dB b.
Proof.
  intros H1 H2. unfold attached, attach1.
  destruct (decide _); rewrite !blk_insert_ne by done; done.
Qed.

Lemma attached_poff : blk attached poff = set32 (blk dB poff) pidx nb.
Proof.
  destruct attach_ne as (_ & H & _). unfold attached, attach1.
  destruct (decide _); [rewrite blk_insert_ne by done|]; apply blk_insert_eq.
Qed.

Lemma attached_nb : (k < lv i)%nat -> blk attached nb = null_block.
Proof. intros H. unfold attached. rewrite decide_True by done. apply blk_insert_eq. Qed.

Lemma attached_wf : vdisk_wf attached /\ same_dom dB attached.
Proof.
  destruct (slot_at_role _ _ _ _ _ Hi Hk Hp Hslot) as (Hpp & _).
  assert (vdisk_wf attach1) as Hw1.
  { apply vdisk_wf_insert; [apply HI|done|]. apply set32_wf; [apply blk_wf, HI|].
    by eapply slot_at_idx. }
  assert (same_dom dB attach1) as Hd1 by (by apply same_dom_insert).
  unfold attached. destruct (decide _); [|done]. split.
  - apply vdisk_wf_insert; [done|by apply Hd1|apply null_block_wf].
  - etransitivity; [exact Hd1|]. apply same_dom_insert. by apply Hd1.
Qed.

(** Words of inode blocks other than the reference keep their values. *)
Lemma attached_inode_word i' w :
  valid_ino dB i' -> (poff = inode_block i' -> pidx <> w) ->
  get32 (blk attached (inode_block i')) w = get32 (blk dB (inode_block i')) w.
Proof.
  intros Hi' Hw. destruct (ti_inode_meta i' Hi') as [_ Hm].
  destruct (decide (poff = inode_block i')) as [E|Hne].
  - rewrite <- E, attached_poff. apply get32_set32_ne; [apply blk_wf, HI| |exact (Hw E)].
    by eapply slot_at_idx.
  - rewrite attached_blk; [done|by apply not_eq_sym|congruence].
Qed.

Lemma slot_root_only : poff = inode_block i -> k = 0%nat /\ pidx = root_word (inode_idx i).
Proof.
  destruct (ti_inode_meta i Hi) as [_ Hm].
  destruct (slot_at_role _ _ _ _ _ Hi Hk Hp Hslot) as (_ & _ & [[-> Hr]|(k0 & -> & Hr)]).
  - by destruct Hslot as (_ & _ & ->).
  - intros E. congruence.
Qed.

Lemma slot_inode_only i' : valid_ino dB i' -> poff = inode_block i' ->
  k = 0%nat /\ pidx = root_word (inode_idx i) /\ inode_block i = inode_block i'.
Proof.
  intros Hi' E. destruct (ti_inode_meta i' Hi') as [_ Hm].
  destruct (slot_at_role _ _ _ _ _ Hi Hk Hp Hslot) as (_ & _ & [[-> Hr]|(k0 & -> & Hr)]).
  - destruct Hslot as (_ & E2 & ->). split_and!; [done|done|congruence].
  - congruence.
Qed.

Lemma attached_size i' : valid_ino dB i' -> inode_size attached i' = inode_size dB i'.
Proof.
  intros Hi'. apply attached_inode_word; [done|]. intros E.
  destruct (slot_inode_only _ Hi' E) as (_ & -> & _). unfold root_word, nblocks_word. lia.
Qed.

Lemma attached_root_ne i' :
  valid_ino dB i' -> i' <> i -> inode_root attached i' = inode_root dB i'.
Proof.
  intros Hi' Hne. apply attached_inode_word; [done|]. intros E.
  destruct (slot_inode_only _ Hi' E) as (_ & -> & Eb). unfold root_word. intros Ew.
  apply Hne. symmetry. apply inode_slot_inj; [done|lia|apply Hi|apply Hi'].
Qed.

Lemma fresh_node j q : (j <= lv i)%nat -> 0 <= q -> fnode dB i j q <> nb.
Proof.
  intros Hj Hq E. destruct attach_ne as (H0 & _ & _).
  apply (ti_node_role i j q nb); auto. congruence.
Qed.

Lemma slot_at_O : k = 0%nat -> p = 0 /\ poff = inode_block i /\ pidx = root_word (inode_idx i).
Proof. intros E. rewrite E in Hslot. exact Hslot. Qed.

Lemma slot_at_S k0 :
  k = S k0 -> poff = fnode dB i k0 (p / 256) /\ poff <> 0 /\ pidx = Z.to_nat (p mod 256).
Proof. intros E. rewrite E in Hslot. exact Hslot. Qed.

(** The hole was the root. *)
Lemma attached_fnode_root j q :
  k = 0%nat -> (j <= lv i)%nat -> 0 <= q ->
  fnode attached i j q = if decide (j = k /\ q = p) then nb else fnode dB i j q.
Proof.
  intros Ek Hj Hq. destruct attach_ne as (Hnb0 & Hnbp & Hu).
  destruct (slot_at_O Ek) as (Ep & Epo & Epi).
  assert (inode_root attached i = nb) as Er.
  { unfold inode_root. rewrite <- Epo, <- Epi, attached_poff.
    apply get32_set32_eq; [apply blk_wf, HI|by eapply slot_at_idx|done]. }
  assert (inode_root dB i = 0) as Er0.
  { pose proof Hhole as Hh. unfold fnode in Hh. rewrite Ek, Ep in Hh. done. }
  unfold fnode. rewrite Er, Er0, node_hole, Ep, Ek.
  apply (node_new attached nb (lv i)); [done| |done|done].
  intros Hl. apply attached_nb. lia.
Qed.

(** The hole was below an indirect block. *)
Lemma attached_fnode_indirect k0 j q :
  k = S k0 -> (j <= lv i)%nat -> 0 <= q ->
  fnode attached i j q = if decide (j = k /\ q = p) then nb else fnode dB i j q.
Proof.
  intros Ek Hj Hq. destruct attach_ne as (Hnb0 & Hnbp & Hu).
  destruct (slot_at_S k0 Ek) as (Epo & H0 & Epi).
  assert (inode_root attached i = inode_root dB i) as Er.
  { apply attached_inode_word; [done|]. intros E.
    destruct (slot_inode_only _ Hi E) as (E0 & _). congruence. }
  pose proof (Z.div_mod p 256 ltac:(lia)) as Hdm.
  pose proof (Z.mod_pos_bound p 256 ltac:(lia)) as Hmb.
  assert (0 <= p / 256) as Hp' by (apply Z.div_pos; lia).
  assert (p = p / 256 * 256 + Z.of_nat pidx) as Epp by lia.
  assert (get32 (blk dB poff) pidx = 0) as Hg by (erewrite slot_at_get; eauto).
  unfold fnode in *. rewrite Er.
  transitivity (if decide (j = S k0 /\ q = p / 256 * 256 + Z.of_nat pidx) then nb
                else node dB (inode_root dB i) j q);
    [|by rewrite <- Ek, <- Epp].
  apply (node_attach dB attached (inode_root dB i) (lv i) k0 (p / 256) pidx nb);
    rewrite <- ?Epo; try done; try lia.
  - apply HI.
  - intros j' q' Hj' Hq' E. rewrite Epo in E.
    destruct (ti_node_uniq i j' q' i k0 (p / 256)) as (_ & -> & ->);
      try done; try lia. unfold fnode. congruence.
  - intros j' q' Hj' Hq'. apply fresh_node; [lia|done].
  - apply attached_poff.
  - intros Hl. apply attached_nb. lia.
  - intros b Hb1 Hb2. by apply attached_blk.
Qed.

Lemma attached_fnode i' j q :
  valid_ino dB i' -> (j <= lv i')%nat -> 0 <= q ->
  fnode attached i' j q =
    if decide (i' = i /\ j = k /\ q = p) then nb else fnode dB i' j q.
Proof.
  intros Hi' Hj Hq.
  destruct (slot_at_role _ _ _ _ _ Hi Hk Hp Hslot) as (_ & _ & Hr).
  destruct (decide (i' = i)) as [E|Hne].
  - rewrite E in *. transitivity (if decide (j = k /\ q = p) then nb else fnode dB i j q).
    + destruct Hr as [[Ek _]|(k0 & Ek & _)];
        [by apply attached_fnode_root|by eapply attached_fnode_indirect].
    + destruct (decide (j = k /\ q = p)) as [Hd|Hd];
        [by rewrite decide_True|]. rewrite decide_False; [done|]. by intros [_ ?].
  - rewrite decide_False by (by intros [? _]). apply fnode_same; [done| | |done|done].
    + by apply attached_root_ne.
    + intros b l q' Hb. apply attached_blk; intros E; rewrite E in Hb; [|congruence].
      destruct Hr as [[_ Hr]|(? & _ & Hr)]; congruence.
Qed.

Lemma attached_inv :
  (k = lv i -> p < inode_size dB i) ->
  td_inv lv (fun b => if decide (b = nb) then RNode i (lv i - k) p else rl b) fl attached.
Proof.
  intros Hsz. destruct attached_wf as [Hw Hd]. destruct attach_ne as (Hnb0 & Hnbp & _).
  destruct (slot_at_role _ _ _ _ _ Hi Hk Hp Hslot) as (_ & Hpo0 & Hr).
  apply td_inv_attach; try done.
  - by rewrite attached_blk.
  - rewrite attached_blk by done. eapply free_at_frame; [|apply HI].
    intros n Hn. destruct (ti_fl _ _ _ _ HI n Hn) as [_ Hrn].
    apply attached_blk; intros E; rewrite E in *; [|done].
    destruct Hr as [[_ Hr]|(? & _ & Hr)]; congruence.
  - apply attached_size.
  - apply attached_fnode.
Qed.

(** Only the block that filled the hole can have new contents. *)
Lemma attached_content i' o :
  valid_ino dB i' -> 0 <= o -> ~ (i' = i /\ lv i = k /\ o = p) ->
  content lv attached i' o = content lv dB i' o.
Proof.
  intros Hi' Ho Hne. unfold content. rewrite attached_fnode by done.
  rewrite (decide_False (P := i' = i /\ lv i' = k /\ o = p))
    by (intros (E & Ek & Ep); rewrite E in Ek; by apply Hne).
  decide_goal as H0; [done|].
  destruct (ti_node _ _ _ _ HI i' (lv i') o Hi') as [_ Hb]; [done..|].
  destruct (slot_at_role _ _ _ _ _ Hi Hk Hp Hslot) as (_ & _ & Hr).
  apply attached_blk; intros E; rewrite E in Hb; [|congruence].
  destruct Hr as [[_ Hr]|(k0 & Ek & Hr)]; [congruence|].
  rewrite Hr in Hb. injection Hb as E1 E2 E3. rewrite E1 in *. lia.
Qed.
End attach.

(** ** Inode updates *)

Definition set_inode_word (i : Z) (w : nat) (v : Z) : vdisk :=
  <[(bino, inode_block i):=set32 (blk dB (inode_block i)) w v]> dB.

Lemma set_inode_get i w v i' w' :
  (w < 256)%nat -> is_u32 v ->
  get32 (blk (set_inode_word i w v) (inode_block i')) w' =
    if decide (inode_block i = inode_block i' /\ w = w') then v
    else get32 (blk dB (inode_block i')) w'.
Proof.
  intros Hw Hv. unfold set_inode_word. rewrite blk_insert.
  destruct (decide (inode_block i = inode_block i')) as [E|Hne].
  - destruct (decide (w = w')) as [<-|Hne'].
    + rewrite decide_True by done. apply get32_set32_eq; [apply blk_wf, HI|done|done].
    + rewrite decide_False by (by intros [_ ?]). rewrite E.
      apply get32_set32_ne; [apply blk_wf, HI|done|done].
  - by rewrite decide_False by (by intros [? _]).
Qed.

Lemma set_inode_wf i w v :
  valid_ino dB i -> (w < 256)%nat ->
  vdisk_wf (set_inode_word i w v) /\ same_dom dB (set_inode_word i w v).
Proof.
  intros Hi Hw. destruct (ti_inode_meta i Hi) as [Hp _]. split.
  - apply vdisk_wf_insert; [apply HI|done|]. apply set32_wf; [apply blk_wf, HI|done].
  - by apply same_dom_insert.
Qed.

Lemma set_inode_blk i w v n :
  n <> inode_block i -> blk (set_inode_word i w v) n = blk dB n.
Proof. intros. by apply blk_insert_ne, not_eq_sym. Qed.

Lemma set_inode_free i w v h :
  valid_ino dB i -> free_at dB h fl -> free_at (set_inode_word i w v) h fl.
Proof.
  intros Hi Hf. eapply free_at_frame; [|exact Hf]. intros n Hn. apply set_inode_blk.
  intros ->. destruct (ti_fl _ _ _ _ HI _ Hn), (ti_inode_meta i Hi). congruence.
Qed.

Lemma set_inode_0 i w v : valid_ino dB i -> blk (set_inode_word i w v) 0 = blk dB 0.
Proof. intros Hi. apply set_inode_blk. pose proof (inode_block_meta _ _ Hi). lia. Qed.

Lemma set_inode_node_blk i w v b i' l q :
  valid_ino dB i -> rl b = RNode i' l q -> blk (set_inode_word i w v) b = blk dB b.
Proof.
  intros Hi Hb. apply set_inode_blk. intros ->. destruct (ti_inode_meta i Hi). congruence.
Qed.

Lemma words_lt i : (root_word (inode_idx i) < 256)%nat /\ (nblocks_word (inode_idx i) < 256)%nat.
Proof. pose proof (inode_idx_lt i). unfold root_word, nblocks_word. lia. Qed.

(** The file gets longer: what it gains are holes. *)
Lemma td_inv_set_size i n :
  valid_ino dB i -> is_u32 n -> inode_size dB i <= n ->
  let dB' := set_inode_word i (nblocks_word (inode_idx i)) n in
  td_inv lv rl fl dB' /\
  (forall i', valid_ino dB i' -> inode_root dB' i' = inode_root dB i' /\
     inode_size dB' i' = if decide (i' = i) then n else inode_size dB i') /\
  (forall i' k p, valid_ino dB i' -> (k <= lv i')%nat -> 0 <= p ->
     fnode dB' i' k p = fnode dB i' k p).
Proof.
  intros Hi Hn Hle dB'. destruct (words_lt i) as [Hw1 Hw2].
  destruct (set_inode_wf i (nblocks_word (inode_idx i)) n Hi Hw2) as [Hwf Hd].
  assert (forall i', valid_ino dB i' -> inode_root dB' i' = inode_root dB i' /\
     inode_size dB' i' = if decide (i' = i) then n else inode_size dB i') as Hino.
  { intros i' Hi'. unfold inode_root, inode_size, dB'. rewrite !set_inode_get by done. split.
    - rewrite decide_False; [done|]. unfold root_word, nblocks_word. lia.
    - destruct (decide (i' = i)) as [->|Hne]; [by rewrite decide_True|].
      rewrite decide_False; [done|]. intros [E1 E2]. apply Hne. symmetry.
      apply inode_slot_inj; [done|unfold nblocks_word in E2; lia|apply Hi|apply Hi']. }
  split; [|split; [done|]].
  - apply td_inv_frame; try done.
    + unfold dB'. by rewrite set_inode_0.
    + intros i' Hi'. destruct (Hino i' Hi') as [H1 H2]. split; [done|]. rewrite H2.
      destruct (decide (i' = i)) as [->|]; lia.
    + intros. by eapply set_inode_node_blk.
    + unfold dB'. rewrite set_inode_0 by done. apply set_inode_free; [done|apply HI].
    + apply HI.
    + apply HI.
  - intros i' k p Hi' Hk Hp. apply fnode_same; [done|by apply Hino| |done|done].
    intros. by eapply set_inode_node_blk.
Qed.

(** A level is added to the tree: [r] becomes the root. *)
Section grow.
Context (i r : Z) (Hi : valid_ino dB i) (Hr : present dB r) (Hrl : rl r = RFree) (Hfl : r ∉ fl).

Definition grown : vdisk :=
  <[(bino, r):=set32 null_block 0 (inode_root dB i)]>
    (set_inode_word i (root_word (inode_idx i)) r).

Definition lv_grown (j : Z) : nat := if decide (j = i) then S (lv j) else lv j.
Definition rl_grown (b : Z) : role := if decide (b = r) then RNode i (S (lv i)) 0 else rl b.

Lemma grow_ne : r <> 0 /\ is_u32 r /\ forall i', valid_ino dB i' -> r <> inode_block i'.
Proof.
  split_and!.
  - intros E. pose proof (proj2 ti_zero_meta). congruence.
  - eapply vd_off; [apply HI|exact Hr].
  - intros i' Hi' E. destruct (ti_inode_meta i' Hi'). congruence.
Qed.

Lemma grown_wf : vdisk_wf grown /\ same_dom dB grown.
Proof.
  destruct (words_lt i) as [Hw1 _]. destruct (set_inode_wf i (root_word (inode_idx i)) r Hi Hw1) as [Hw Hd].
  unfold grown. split.
  - apply vdisk_wf_insert; [done|by apply Hd|]. apply set32_wf; [apply null_block_wf|lia].
  - etransitivity; [exact Hd|]. apply same_dom_insert. by apply Hd.
Qed.

Lemma grown_blk b : b <> r -> b <> inode_block i -> blk grown b = blk dB b.
Proof. intros H1 H2. unfold grown. rewrite blk_insert_ne by done. by apply set_inode_blk. Qed.

Lemma grown_inode i' :
  valid_ino dB i' -> inode_size grown i' = inode_size dB i' /\
  inode_root grown i' = if decide (i' = i) then r else inode_root dB i'.
Proof.
  intros Hi'. destruct grow_ne as (_ & Hu & Hm). destruct (words_lt i) as [Hw1 _].
  unfold inode_size, inode_root, grown. rewrite blk_insert_ne by auto.
  rewrite !set_inode_get by done. split.
  - rewrite decide_False; [done|]. unfold root_word, nblocks_word. lia.
  - destruct (decide (i' = i)) as [->|Hne]; [by rewrite decide_True|].
    rewrite decide_False; [done|]. intros [E1 E2]. apply Hne. symmetry.
    apply inode_slot_inj; [done|unfold root_word in E2; lia|apply Hi|apply Hi'].
Qed.

Lemma grown_node_blk b i' l q : rl b = RNode i' l q -> blk grown b = blk dB b.
Proof.
  intros Hb. apply grown_blk; [congruence|]. intros ->. destruct (ti_inode_meta i Hi). congruence.
Qed.

Lemma grown_fnode_ne i' k p :
  valid_ino dB i' -> i' <> i -> (k <= lv i')%nat -> 0 <= p ->
  fnode grown i' k p = fnode dB i' k p.
Proof.
  intros Hi' Hne Hk Hp. apply fnode_same; [done| |by eauto using grown_node_blk|done|done].
  destruct (grown_inode i' Hi') as [_ ->]. by rewrite decide_False.
Qed.

Lemma grown_fnode_S k p :
  (k <= lv i)%nat -> 0 <= p -> fnode grown i (S k) p = fnode dB i k p.
Proof.
  intros Hk Hp. destruct grow_ne as (Hr0 & Hu & _). unfold fnode.
  destruct (grown_inode i Hi) as [_ ->]. rewrite decide_True by done.
  rewrite (node_grow _ _ (inode_root dB i)); [|done| |apply get32_u32|done].
  - apply node_frame. intros j q Hj H0.
    destruct (decide (0 <= q)) as [Hq|Hq]; [|by rewrite node_neg in H0 by lia].
    destruct (ti_node _ _ _ _ HI i j q Hi) as [_ Hb]; [lia|done|done|].
    by eapply grown_node_blk.
  - unfold grown. apply blk_insert_eq.
Qed.

Lemma grown_fnode_0 p : fnode grown i 0 p = if decide (p = 0) then r else 0.
Proof.
  unfold fnode. destruct (grown_inode i Hi) as [_ ->]. by rewrite decide_True.
Qed.

Lemma grown_inv : td_inv lv_grown rl_grown fl grown.
Proof.
  destruct grown_wf as [Hw Hd]. destruct grow_ne as (Hr0 & _ & Hm).
  assert (blk grown 0 = blk dB 0) as E0.
  { pose proof (inode_block_meta _ _ Hi). apply grown_blk; [done|lia]. }
  assert (forall j, valid_ino grown j <-> valid_ino dB j) as Hv
    by (intros j; unfold valid_ino, n_inodes; by rewrite E0).
  assert (forall b, present grown b <-> present dB b) as Hp by (intros b; symmetry; apply Hd).
  split; [done| | |apply HI| | |].
  - intros m. rewrite E0, Hp. intros Hmm. destruct (ti_meta _ _ _ _ HI m Hmm) as [H1 H2].
    split; [done|]. unfold rl_grown. rewrite decide_False; [done|]. congruence.
  - rewrite E0. eapply free_at_frame; [|apply HI]. intros n Hn.
    destruct (ti_fl _ _ _ _ HI n Hn) as [_ Hrn]. apply grown_blk; [congruence|].
    intros ->. destruct (ti_inode_meta i Hi). congruence.
  - intros b Hb. rewrite Hp. unfold rl_grown. rewrite decide_False by congruence. by apply HI.
  - intros j k p Hj Hk Hpp. rewrite Hv in Hj. rewrite Hp. unfold lv_grown in *.
    destruct (decide (j = i)) as [->|Hne]; [destruct k as [|k]|].
    + rewrite grown_fnode_0. destruct (decide (p = 0)) as [->|]; [|done]. intros _.
      unfold rl_grown. by rewrite decide_True, Nat.sub_0_r.
    + rewrite grown_fnode_S by lia. intros H0.
      destruct (ti_node _ _ _ _ HI i k p Hi) as [H1 H2]; [lia|done|done|].
      split; [done|]. unfold rl_grown. rewrite decide_False by congruence. by rewrite H2.
    + rewrite grown_fnode_ne by done. intros H0.
      destruct (ti_node _ _ _ _ HI j k p Hj) as [H1 H2]; [lia|done|done|].
      split; [done|]. unfold rl_grown. rewrite decide_False by congruence. by rewrite H2.
  - intros j p Hj Hs Hpp. rewrite Hv in Hj. destruct (grown_inode j Hj) as [Es _].
    rewrite Es in Hs. unfold lv_grown. destruct (decide (j = i)) as [->|Hne].
    + rewrite grown_fnode_S by done. by apply HI.
    + rewrite grown_fnode_ne by done. by apply HI.
Qed.

Lemma grown_content j o : valid_ino dB j -> 0 <= o -> content lv_grown grown j o = content lv dB j o.
Proof.
  intros Hj Ho. unfold content, lv_grown.
  assert (fnode grown j (if decide (j = i) then S (lv j) else lv j) o = fnode dB j (lv j) o) as ->.
  { destruct (decide (j = i)) as [->|Hne]; [by apply grown_fnode_S|by apply grown_fnode_ne]. }
  decide_goal as H0; [done|].
  destruct (ti_node _ _ _ _ HI j (lv j) o Hj) as [_ Hb]; [done..|]. by eapply grown_node_blk.
Qed.
End grow.

(** Data is written into a block at the bottom of a tree. *)
Section data.
Context (i off : Z) (x : block) (Hi : valid_ino dB i) (Ho : 0 <= off)
  (Hb0 : fnode dB i (lv i) off <> 0) (Hx : block_wf x).

Let n := fnode dB i (lv i) off.

Lemma data_blk_ne b : rl b <> RNode i 0 off -> b <> n.
Proof.
  intros Hb ->. destruct (ti_node _ _ _ _ HI i (lv i) off Hi) as [_ Hr]; [done..|].
  apply Hb. unfold n. rewrite Hr. f_equal. lia.
Qed.

Lemma data_inv :
  td_inv lv rl fl (<[(bino, n):=x]> dB) /\
  (forall i', valid_ino dB i' ->
     inode_size (<[(bino, n):=x]> dB) i' = inode_size dB i' /\
     inode_root (<[(bino, n):=x]> dB) i' = inode_root dB i') /\
  blk (<[(bino, n):=x]> dB) 0 = blk dB 0.
Proof.
  destruct (ti_node _ _ _ _ HI i (lv i) off Hi) as [Hp Hr]; [done..|]. fold n in Hp, Hr.
  assert (forall b, rl b <> RNode i 0 off -> blk (<[(bino, n):=x]> dB) b = blk dB b) as Hb
    by (intros b Hb; apply blk_insert_ne, not_eq_sym; by apply data_blk_ne).
  assert (blk (<[(bino, n):=x]> dB) 0 = blk dB 0) as E0
    by (apply Hb; by rewrite (proj2 ti_zero_meta)).
  assert (forall i', valid_ino dB i' ->
     inode_size (<[(bino, n):=x]> dB) i' = inode_size dB i' /\
     inode_root (<[(bino, n):=x]> dB) i' = inode_root dB i') as Hino.
  { intros i' Hi'. unfold inode_size, inode_root.
    by rewrite Hb by (by rewrite (proj2 (ti_inode_meta i' Hi'))). }
  split_and!; [|done|done]. apply td_inv_frame.
  - by apply vdisk_wf_insert; [apply HI| |].
  - by apply same_dom_insert.
  - by rewrite E0.
  - intros i' Hi'. destruct (Hino i' Hi') as [-> ->]. split; [done|lia].
  - intros i' b l p Hbl. apply Hb. by rewrite Hbl.
  - rewrite E0. eapply free_at_frame; [|apply HI]. intros m Hm. apply Hb.
    by rewrite (proj2 (ti_fl _ _ _ _ HI m Hm)).
  - apply HI.
  - apply HI.
Qed.

Lemma data_content i' o :
  valid_ino dB i' -> 0 <= o ->
  content lv (<[(bino, n):=x]> dB) i' o =
    if decide (i' = i /\ o = off) then x else content lv dB i' o.
Proof.
  intros Hi' Ho'. destruct (ti_node _ _ _ _ HI i (lv i) off Hi) as [Hp Hr]; [done..|].
  fold n in Hp, Hr. unfold content.
  assert (fnode (<[(bino, n):=x]> dB) i' (lv i') o = fnode dB i' (lv i') o) as ->.
  { apply fnode_same; [done|by apply data_inv| |done|done].
    intros b l q Hb. apply blk_insert_ne, not_eq_sym, data_blk_ne. by rewrite Hb. }
  destruct (decide (i' = i /\ o = off)) as [[-> ->]|Hne].
  - fold n. rewrite decide_False by done. apply blk_insert_eq.
  - decide_goal as H0; [done|]. apply blk_insert_ne. intros E.
    destruct (ti_node_uniq i (lv i) off i' (lv i') o) as (<- & _ & <-); try done.
    by apply Hne.
Qed.
End data.
End inv.
End layout.
