(* ===== verification/TreeSpec.v ===== *)
(** What the operations of treedisk.c do to the files that a layout holds. *)
From stdpp Require Import base numbers list gmap.
From Stdlib Require Import ZArith Lia Permutation.
From S2P Require Import Prelude BlockStore TreeDisk TreeInv.

(** * The abstract file system

    For every inode a size and, at every offset, a block; the blocks from the
    size on are null. *)
Record files := Files {
  f_ninodes : Z;
  f_size : Z -> Z;
  f_data : Z -> Z -> block;
}.

Definition f_write (f : files) (ino off : Z) (b : block) : files :=
  Files (f_ninodes f)
    (fun i => if decide (i = ino) then Z.max (f_size f i) (off + 1) else f_size f i)
    (fun i o => if decide (i = ino /\ o = off) then b else f_data f i o).

(** The most blocks that a write can take off the free list: those of the levels
    it adds and those of the path to the data. *)
Definition blocks_needed (f : files) (ino off : Z) : nat :=
  let L := tree_levels (f_size f ino) in
  let L' := tree_levels (Z.max (f_size f ino) (off + 1)) in
  (L' - L + S L')%nat.

Section spec.
Context {S : Type} {R : S -> vdisk -> Prop} `{!BlockStore S, !Lawful S R} (bino : Z).
Abbreviation st := (treedisk_state S).

Definition st_repr (ts : st) (dB : vdisk) : Prop := R (ts_below ts) dB /\ ts_below_ino ts = bino.

(** The disk below holds the files [f], and the free blocks [fl]. *)
Definition disk_files (fl : list Z) (f : files) (dB : vdisk) : Prop :=
  exists lv rl, td_inv bino lv rl fl dB /\ n_inodes bino dB = f_ninodes f /\
    forall i, valid_ino bino dB i ->
      lv i = tree_levels (inode_size bino dB i) /\ inode_size bino dB i = f_size f i /\
      (0 < f_size f i -> inode_root bino dB i <> 0) /\
      forall off, 0 <= off -> content bino lv dB i off = f_data f i off.

Definition tree_repr (ts : st) (fl : list Z) (f : files) : Prop :=
  exists dB, st_repr ts dB /\ disk_files fl f dB.

(** ** The calls to the store below *)

Lemma td_read_ok (ts : st) (dB : vdisk) (n : Z) (buf : block) :
  st_repr ts dB -> present bino dB n -> block_wf buf ->
  wp (td_read n buf) ts (fun x ts' => x = (0, blk bino dB n) /\ st_repr ts' dB).
Proof.
  intros [HR E] Hp Hb. unfold td_read, td_call. steps. rewrite E.
  wp_use (law_read (R:=R) (ts_below ts) dB bino n (blk bino dB n) buf HR) as [-> HR'];
    [by apply blk_present|done|]. by repeat split.
Qed.

Lemma td_read_or_panic_ok (ts : st) (dB : vdisk) (n : Z) :
  st_repr ts dB -> present bino dB n ->
  wp (td_read_or_panic n) ts (fun x ts' => x = blk bino dB n /\ st_repr ts' dB).
Proof.
  intros Hs Hp. unfold td_read_or_panic. step.
  wp_use (td_read_ok ts dB n null_block Hs Hp null_block_wf) as [-> Hs'].
  cbn [fst snd]. rewrite decide_False by lia. by step.
Qed.

Lemma td_write_or_panic_ok (ts : st) (dB : vdisk) (n : Z) (b : block) :
  st_repr ts dB -> present bino dB n -> block_wf b ->
  wp (td_write_or_panic n b) ts (fun _ ts' => st_repr ts' (<[(bino, n):=b]> dB)).
Proof.
  intros [HR E] Hp Hb. unfold td_write_or_panic, td_call. steps. rewrite E.
  wp_use (law_write (R:=R) (ts_below ts) dB bino n b HR Hp Hb) as [-> HR'].
  rewrite decide_False by lia. by step.
Qed.

(** ** The snapshot *)

Definition snapshot_of (dB : vdisk) (i : Z) : snapshot :=
  Snapshot (blk bino dB 0) (blk bino dB (inode_block i)) (inode_block i) (inode_idx i).

Lemma sn_root_of dB i : sn_root (snapshot_of dB i) = inode_root bino dB i.
Proof. done. Qed.

Lemma sn_nblocks_of dB i : sn_nblocks (snapshot_of dB i) = inode_size bino dB i.
Proof. done. Qed.

Lemma get_snapshot_ok lv rl fl (ts : st) (dB : vdisk) (i : Z) :
  st_repr ts dB -> td_inv bino lv rl fl dB -> is_u32 i ->
  wp (treedisk_get_snapshot i) ts (fun o ts' =>
    o = (if decide (i < n_inodes bino dB) then Some (snapshot_of dB i) else None) /\ st_repr ts' dB).
Proof.
  intros Hs HI Hu. unfold treedisk_get_snapshot. step.
  wp_use (td_read_ok ts dB 0 null_block Hs (proj1 (ti_zero_meta bino HI)) null_block_wf) as [-> Hs1].
  cbn [fst snd]. rewrite (decide_False (P := 0 < 0)) by lia. unfold n_inodes.
  destruct (decide (i < sb_n_inodeblocks (blk bino dB 0) * INODES_PER_BLOCK)) as [Hi|Hi].
  2:{ rewrite decide_True by lia. by step. }
  rewrite decide_False by lia. step.
  assert (valid_ino bino dB i) as Hv by (split; [apply Hu|exact Hi]).
  assert (u32 (1 + i / INODES_PER_BLOCK) = inode_block i) as ->.
  { unfold inode_block. apply u32_small. unfold is_u32, two32, INODES_PER_BLOCK in *.
    pose proof (Z.div_pos i 128). pose proof (Z.div_le_upper_bound i 128 33554432). lia. }
  wp_use (td_read_ok _ dB (inode_block i) null_block Hs1 (proj1 (ti_inode_meta bino HI i Hv)) null_block_wf)
    as [-> Hs2].
  cbn [fst snd]. rewrite (decide_False (P := 0 < 0)) by lia. by step.
Qed.

(** ** Reading *)

Lemma node_step (dB : vdisk) (root off : Z) (k n : nat) :
  is_u32 off ->
  node bino dB root k (off / 256 ^ Z.of_nat (Datatypes.S n)) <> 0 ->
  get32 (blk bino dB (node bino dB root k (off / 256 ^ Z.of_nat (Datatypes.S n)))) (tree_index off n) =
  node bino dB root (Datatypes.S k) (off / 256 ^ Z.of_nat n).
Proof.
  intros Hu H0. cbn [node]. rewrite <- div256_S by apply Hu.
  rewrite decide_False by done. by rewrite tree_index_spec.
Qed.

Lemma read_walk_ok lv rl fl (dB : vdisk) (i off : Z) (n : nat) : forall (k : nat) (ts : st) (buf : block),
  st_repr ts dB -> td_inv bino lv rl fl dB -> valid_ino bino dB i -> is_u32 off ->
  (k + n = lv i)%nat -> block_wf buf ->
  wp (read_walk n off (fnode bino dB i k (off / 256 ^ Z.of_nat n)) buf) ts (fun x ts' =>
    x = (0, content bino lv dB i off) /\ st_repr ts' dB).
Proof.
  induction n as [|n IH]; intros k ts buf Hs HI Hi Hu Hk Hb; cbn [read_walk].
  - replace (off / 256 ^ Z.of_nat 0) with off by (by rewrite Z.div_1_r).
    unfold content. replace (lv i) with k by lia.
    destruct (decide (fnode bino dB i k off = 0)) as [H0|H0]; [by step|]. step.
    destruct (ti_node _ _ _ _ _ HI i k off Hi) as [Hp _]; [lia|apply Hu|done|].
    wp_use (td_read_ok ts dB _ buf Hs Hp Hb) as [-> Hs']. cbn [fst snd].
    rewrite decide_False by lia. by step.
  - assert (0 <= off / 256 ^ Z.of_nat (Datatypes.S n)) as Hq
      by (apply Z.div_pos; [apply Hu|apply pow256_pos]).
    destruct (decide (fnode bino dB i k (off / 256 ^ Z.of_nat (Datatypes.S n)) = 0)) as [H0|H0].
    + step. split; [|done]. f_equal. unfold content.
      rewrite decide_True; [done|]. unfold fnode in *.
      assert (forall m, (m <= Datatypes.S n)%nat ->
        node bino dB (inode_root bino dB i) (k + m) (off / 256 ^ Z.of_nat (Datatypes.S n - m)) = 0) as Hz.
      { induction m as [|m IHm]; intros Hm; [by rewrite Nat.add_0_r, Nat.sub_0_r|].
        rewrite Nat.add_succ_r. cbn [node]. rewrite <- div256_S by apply Hu.
        replace (Datatypes.S (Datatypes.S n - Datatypes.S m)) with (Datatypes.S n - m)%nat by lia.
        by rewrite IHm, decide_True by lia. }
      specialize (Hz (Datatypes.S n) ltac:(lia)). rewrite Nat.sub_diag, Z.div_1_r in Hz.
      by rewrite Hk in Hz.
    + step. destruct (ti_node _ _ _ _ _ HI i k (off / 256 ^ Z.of_nat (Datatypes.S n)) Hi) as [Hp _];
        [lia|exact Hq|exact H0|].
      wp_use (td_read_ok ts dB _ buf Hs Hp Hb) as [-> Hs']. cbn [fst snd].
      rewrite decide_False by lia.
      unfold fnode at 1. rewrite node_step by done.
      eapply (IH (Datatypes.S k)); try done; [lia|]. apply blk_wf, HI.
Qed.

Lemma treedisk_read_ok (ts : st) (fl : list Z) (f : files) (ino off : Z) (buf : block) :
  tree_repr ts fl f -> is_u32 ino -> is_u32 off -> block_wf buf ->
  wp (treedisk_read ino off buf) ts (fun x ts' => tree_repr ts' fl f /\
    x = if decide (ino < f_ninodes f /\ off < f_size f ino) then (0, f_data f ino off) else (-1, buf)).
Proof.
  intros (dB & Hs & lv & rl & HI & Hn & Hf) Hino Hoff Hb. unfold treedisk_read. step.
  wp_use (get_snapshot_ok _ _ _ ts dB ino Hs HI Hino) as [-> Hs'].
  assert (forall ts', st_repr ts' dB -> tree_repr ts' fl f) as Hrep
    by (intros ts' H; exists dB; split; [done|by exists lv, rl]).
  rewrite Hn. destruct (decide (ino < f_ninodes f)) as [Hi|Hi].
  2:{ rewrite decide_False by (by intros [? _]). step. auto. }
  assert (valid_ino bino dB ino) as Hv by (split; [apply Hino|by rewrite Hn]).
  destruct (Hf ino Hv) as (Hlv & Hsz & _ & Hd). rewrite sn_nblocks_of, Hsz.
  destruct (decide (off < f_size f ino)) as [Ho|Ho].
  2:{ rewrite decide_True by lia. rewrite decide_False by (by intros [_ ?]). step. auto. }
  rewrite decide_False by lia. rewrite (decide_True (P := _ /\ _)) by done. step.
  assert (is_u32 (inode_size bino dB ino)) as Hu by apply get32_u32.
  rewrite Hsz in Hlv, Hu. destruct (tree_levels_spec _ Hu) as (E & _ & Hle & _). rewrite E.
  unfold done_. step. rewrite sn_root_of.
  assert (inode_root bino dB ino =
    fnode bino dB ino 0 (off / 256 ^ Z.of_nat (tree_levels (f_size f ino)))) as ->.
  { unfold fnode. simpl. rewrite Z.div_small by (unfold is_u32 in Hoff; lia). by rewrite decide_True. }
  wp_use (read_walk_ok lv rl fl dB ino off _ 0 _ buf Hs' HI Hv Hoff) as [-> Hs2]; [by rewrite Hlv|done|].
  split; [auto|]. rewrite Hd; [done|apply Hoff].
Qed.

(** ** Taking a block off the free list *)

(** The disk [dBp] below may lack changes that are still in memory; [dB] is
    the disk with those changes. The free list is the same on both. *)
Lemma alloc_block_ok lv rl fl (ts : st) (dBp dB : vdisk) (sn : snapshot) :
  st_repr ts dBp -> td_inv bino lv rl fl dB -> fl <> [] ->
  sn_superblock sn = blk bino dB 0 -> present bino dBp 0 ->
  (forall n, n ∈ fl -> dBp !! (bino, n) = dB !! (bino, n)) ->
  wp (treedisk_alloc_block sn) ts (fun x ts' => exists n y fl',
    (n = 0 \/ n ∈ fl) /\ st_repr ts' (<[(bino, n):=y]> dBp) /\ fl ≡ₚ x.1 :: fl' /\
    td_inv bino lv rl fl' (<[(bino, n):=y]> dB) /\
    free_change bino (rl:=rl) (dB:=dB) (<[(bino, n):=y]> dB) /\
    x.2 = Snapshot (blk bino (<[(bino, n):=y]> dB) 0) (sn_inodeblock sn) (sn_inode_blockno sn) (sn_inode sn)).
Proof.
  intros Hs HI Hne Hsb Hp0 Hsame. unfold treedisk_alloc_block. rewrite Hsb.
  pose proof (ti_free _ _ _ _ _ HI) as Hf.
  rewrite decide_False by (by rewrite (free_at_head _ _ _ _ Hf)).
  destruct (alloc_inv bino HI Hne) as (Hin & fl' & Hperm & Hc & HI').
  set (h := sb_free_list (blk bino dB 0)) in *.
  assert (present bino dBp h) as Hph.
  { unfold present. rewrite Hsame by done. by apply (ti_fl _ _ _ _ _ HI). }
  assert (blk bino dBp h = blk bino dB h) as Eh by (unfold blk; by rewrite Hsame).
  step. wp_use (td_read_or_panic_ok ts dBp h Hs Hph) as [-> Hs']. rewrite Eh.
  pose proof (blk_wf bino dB h (ti_wf _ _ _ _ _ HI)) as Hwb.
  destruct (scan_used_spec (blk bino dB h) REFS_PER_BLOCK) as [[_ Ei]|[Hi _]].
  - rewrite !(decide_True (P := scan_used _ _ = 0%nat)) in * by done. step.
    assert (block_wf (sb_set_free_list (blk bino dB 0) (get32 (blk bino dB h) 0))) as Hwx
      by (apply set32_wf; [apply blk_wf, HI|lia]).
    cbn [sn_superblock sn_set_free_list]. rewrite Hsb.
    wp_use (td_write_or_panic_ok _ dBp 0 _ Hs' Hp0 Hwx) as Hs2. step. cbn [fst snd].
    eexists 0, _, fl'. split_and!; [by left|exact Hs2|done|done|done|].
    unfold sn_set_free_list. by rewrite blk_insert_eq, Hsb.
  - rewrite !(decide_False (P := scan_used _ _ = 0%nat)) in * by lia.
    change REFS_PER_BLOCK with 256%nat in *. step.
    assert (block_wf (set32 (blk bino dB h) (scan_used (blk bino dB h) 256) 0)) as Hwx
      by (apply set32_wf; [done|lia]).
    wp_use (td_write_or_panic_ok _ dBp h _ Hs' Hph Hwx) as Hs2. step. cbn [fst snd].
    eexists h, _, fl'. split_and!; [by right|exact Hs2|done|done|done|].
    rewrite blk_insert_ne; [|by apply (ti_fl_nonzero bino HI)].
    rewrite <- Hsb. by destruct sn.
Qed.

(** A full disk ends the process. *)
Lemma alloc_block_full (ts : st) (dB : vdisk) (sn : snapshot) :
  sn_superblock sn = blk bino dB 0 -> free_at bino dB (sb_free_list (blk bino dB 0)) [] ->
  treedisk_alloc_block sn ts = Exit.
Proof.
  intros Hsb Hf. unfold treedisk_alloc_block. rewrite Hsb, decide_True; [done|].
  by apply (free_at_head _ _ _ _ Hf).
Qed.

(** ** Writing *)

(** [dB'] holds the files of [dB], except for the blocks in [X]. *)
Definition files_le (X : Z -> Z -> Prop) (lv : Z -> nat) (dB : vdisk) (lv' : Z -> nat) (dB' : vdisk)
    : Prop :=
  n_inodes bino dB' = n_inodes bino dB /\
  forall j, valid_ino bino dB j ->
    inode_size bino dB' j = inode_size bino dB j /\
    (inode_root bino dB j <> 0 -> inode_root bino dB' j <> 0) /\
    forall o, 0 <= o -> ~ X j o -> content bino lv' dB' j o = content bino lv dB j o.

Lemma files_le_valid X lv dB lv' dB' j :
  files_le X lv dB lv' dB' -> valid_ino bino dB' j <-> valid_ino bino dB j.
Proof. intros [E _]. unfold valid_ino. by rewrite E. Qed.

Lemma files_le_refl X lv dB : files_le X lv dB lv dB.
Proof. split; [done|]. intros j Hj. by split_and!. Qed.

Lemma files_le_trans X lv1 dB1 lv2 dB2 lv3 dB3 :
  files_le X lv1 dB1 lv2 dB2 -> files_le X lv2 dB2 lv3 dB3 -> files_le X lv1 dB1 lv3 dB3.
Proof.
  intros H1 H2. split; [etransitivity; [apply H2|apply H1]|]. intros j Hj.
  assert (valid_ino bino dB2 j) as Hj2 by (by eapply files_le_valid).
  destruct (proj2 H1 j Hj) as (A1 & A2 & A3), (proj2 H2 j Hj2) as (B1 & B2 & B3).
  split_and!; [congruence|auto|]. intros o Ho HX. rewrite B3 by done. by apply A3.
Qed.

Lemma files_le_mono (X Y : Z -> Z -> Prop) lv dB lv' dB' :
  (forall j o, X j o -> Y j o) -> files_le X lv dB lv' dB' -> files_le Y lv dB lv' dB'.
Proof.
  intros HXY [H1 H2]. split; [done|]. intros j Hj. destruct (H2 j Hj) as (A1 & A2 & A3).
  split_and!; auto.
Qed.

Lemma files_le_free X lv rl fl (dB dB' : vdisk) :
  td_inv bino lv rl fl dB -> free_change bino (rl:=rl) (dB:=dB) dB' -> files_le X lv dB lv dB'.
Proof.
  intros HI Hc. split; [unfold n_inodes; by rewrite (proj1 (proj2 (proj2 Hc)))|].
  intros j Hj. unfold inode_size, inode_root.
  rewrite (free_change_inode bino HI _ _ Hc Hj). split_and!; [done|done|].
  intros o Ho _. by eapply free_change_content.
Qed.

Lemma root_of_node (dB : vdisk) i k p : fnode bino dB i k p <> 0 -> inode_root bino dB i <> 0.
Proof. intros H E. apply H. unfold fnode. rewrite E. apply node_hole. Qed.

Lemma files_le_attach lv rl fl (dB : vdisk) i k p poff nb pidx (X : Z -> Z -> Prop) :
  td_inv bino lv rl fl dB -> valid_ino bino dB i -> (k <= lv i)%nat -> 0 <= p ->
  slot_at bino (dB:=dB) i k p poff pidx -> fnode bino dB i k p = 0 ->
  present bino dB nb -> rl nb = RFree -> nb ∉ fl ->
  (k = lv i -> X i p) ->
  files_le X lv dB lv (attached bino (lv:=lv) (dB:=dB) i k poff nb pidx).
Proof.
  intros HI Hi Hk Hp Hs Hh Hnb Hrl Hfl HX.
  destruct (slot_at_role bino HI _ _ _ _ _ Hi Hk Hp Hs) as (_ & Hpo0 & _).
  pose proof (attach_ne bino HI i k p poff nb pidx Hi Hk Hp Hs Hnb Hrl Hfl) as (Hnb0 & _).
  split.
  - unfold n_inodes. by rewrite attached_blk.
  - intros j Hj. split_and!.
    + by eapply attached_size.
    + intros Hr. apply (root_of_node _ j 0 0).
      rewrite (attached_fnode bino HI i k p poff nb pidx) by (done || lia).
      destruct (decide _); [done|exact Hr].
    + intros o Ho Hn. eapply (attached_content bino HI i k p); try done.
      intros (-> & E & ->). by apply Hn, HX.
Qed.

Lemma files_le_grown X lv rl fl (dB : vdisk) i r :
  td_inv bino lv rl fl dB -> valid_ino bino dB i ->
  present bino dB r -> rl r = RFree -> r ∉ fl ->
  files_le X lv dB (lv_grown (lv:=lv) i) (grown bino (dB:=dB) i r).
Proof.
  intros HI Hi Hp Hrl Hfl. pose proof (grow_ne bino HI r Hp Hrl) as (Hr0 & _ & _).
  pose proof (inode_block_meta _ _ _ Hi). split.
  - unfold n_inodes. by rewrite grown_blk by (done || lia).
  - intros j Hj. destruct (grown_inode bino HI i r Hi Hp Hrl j Hj) as [E1 E2].
    split_and!; [done| |].
    + intros Hr. rewrite E2. by destruct (decide _).
    + intros o Ho _. by apply (grown_content bino HI).
Qed.

Definition at_block (i off j o : Z) : Prop := j = i /\ o = off.

Lemma slot_at_dB lv rl fl (dB dB' : vdisk) i k p poff pidx :
  td_inv bino lv rl fl dB -> free_change bino (rl:=rl) (dB:=dB) dB' -> valid_ino bino dB i ->
  (k <= lv i)%nat -> 0 <= p ->
  slot_at bino (dB:=dB) i k p poff pidx -> slot_at bino (dB:=dB') i k p poff pidx.
Proof.
  intros HI Hc Hi Hk Hp. destruct k as [|k0]; simpl; [done|].
  rewrite (free_change_fnode bino HI dB'); [done|done|done|lia|apply Z.div_pos; lia].
Qed.

(** Allocating a block for a hole and storing the reference to it. [dBp] is
    what is on the disk below, [dB] includes the parent block in memory. *)
Lemma fill_hole_ok {A} lv rl fl (i : Z) (k : nat) (p : Z) (ts : st) (dBp dB : vdisk) (sn : snapshot)
    (poff : Z) (pblk : block) (pidx : nat) (K : Z -> snapshot -> M st A) (Q : A -> st -> Prop) :
  st_repr ts dBp -> dB = <[(bino, poff):=pblk]> dBp -> td_inv bino lv rl fl dB ->
  valid_ino bino dB i -> (k <= lv i)%nat -> 0 <= p -> (k = lv i -> p < inode_size bino dB i) ->
  slot_at bino (dB:=dB) i k p poff pidx -> get32 pblk pidx = 0 ->
  present bino dBp poff -> sn_superblock sn = blk bino dB 0 -> fl <> [] ->
  (forall nb sn' ts' dBp' dB' rl' fl',
     st_repr ts' dBp' -> dB' = (if decide (k < lv i)%nat then <[(bino, nb):=null_block]> dBp' else dBp') ->
     td_inv bino lv rl' fl' dB' ->
     files_le (fun j o => k = lv i /\ j = i /\ o = p) lv dB lv dB' ->
     fnode bino dB' i k p = nb -> nb <> 0 -> present bino dBp' nb ->
     sn_superblock sn' = blk bino dB' 0 -> length fl = Datatypes.S (length fl') ->
     wp (K nb sn') ts' Q) ->
  wp (x ← treedisk_alloc_block sn;
      let '(b, sn) := x in td_write_or_panic poff (set32 pblk pidx b);; K b sn) ts Q.
Proof.
  intros Hs EdB HI Hi Hk Hp Hsz Hslot Hhole Hpp Hsb Hne HK.
  destruct (slot_at_role bino HI _ _ _ _ _ Hi Hk Hp Hslot) as (_ & Hpo0 & Hr).
  assert (forall m, m ∈ fl -> m <> poff) as Hflp.
  { intros m Hm ->. destruct (ti_fl _ _ _ _ _ HI _ Hm) as [_ Hrm].
    destruct Hr as [[_ Hr]|(? & _ & Hr)]; congruence. }
  assert (present bino dBp 0) as Hp0.
  { destruct (ti_zero_meta bino HI) as [H0 _]. rewrite EdB in H0. by apply present_insert in H0. }
  step. wp_use (alloc_block_ok lv rl fl ts dBp dB sn Hs HI Hne Hsb Hp0)
    as (m & y & fl' & Hm & Hs1 & Hperm & HI1 & Hc & Esn).
  { intros m Hm. rewrite EdB, lookup_insert_ne; [done|]. intros [= E]. by apply (Hflp m). }
  destruct a as [nb sn']. cbn [fst snd] in *.
  assert (m <> poff) as Hmp by (destruct Hm as [->|Hm]; [done|by apply Hflp]).
  set (dB1 := <[(bino, m):=y]> dB) in *. set (dB1p := <[(bino, m):=y]> dBp) in *.
  assert (dB1 = <[(bino, poff):=pblk]> dB1p) as EdB1.
  { unfold dB1, dB1p. rewrite EdB. apply insert_insert_ne. intros [= E]. done. }
  assert (valid_ino bino dB1 i) as Hi1.
  { eapply files_le_valid; [eapply (files_le_free (fun _ _ => False)); [exact HI|exact Hc]|done]. }
  pose proof (slot_at_dB _ _ _ _ _ _ _ _ _ _ HI Hc Hi Hk Hp Hslot) as Hslot1.
  assert (blk bino dB1 poff = pblk) as Epb by (rewrite EdB1; apply blk_insert_eq).
  assert (fnode bino dB1 i k p = 0) as Hh1
    by (by rewrite <- (slot_at_get bino _ _ _ _ _ Hslot1), Epb).
  assert (nb ∈ fl) as Hnb by (rewrite Hperm; by left).
  destruct (ti_fl _ _ _ _ _ HI nb Hnb) as [Hpn Hrn].
  assert (present bino dB1 nb) as Hpn1 by (by apply (proj1 (proj2 Hc))).
  assert (nb ∉ fl') as Hfl'.
  { pose proof (ti_nodup _ _ _ _ _ HI) as Hnd. rewrite Hperm in Hnd. by apply NoDup_cons in Hnd as [? _]. }
  assert (present bino dB1p poff) as Hpp1.
  { destruct (slot_at_role bino HI1 _ _ _ _ _ Hi1 Hk Hp Hslot1) as (H1 & _).
    unfold dB1p, present. by rewrite lookup_insert_ne by (intros [= E]; done). }
  assert (block_wf (set32 pblk pidx nb)) as Hwx.
  { apply set32_wf; [rewrite <- Epb; apply blk_wf, HI1|by eapply slot_at_idx]. }
  assert (inode_size bino dB1 i = inode_size bino dB i) as Esz.
  { unfold inode_size. by rewrite (free_change_inode bino HI dB1 i Hc Hi). }
  pose proof (attach_ne bino HI1 i k p poff nb pidx Hi1 Hk Hp Hslot1 Hpn1 Hrn Hfl') as (Hnb0 & Hnbp & _).
  step. wp_use (td_write_or_panic_ok _ dB1p poff _ Hs1 Hpp1 Hwx) as Hs2.
  assert (attach1 bino (dB:=dB1) poff nb pidx = <[(bino, poff):=set32 pblk pidx nb]> dB1p) as Ea1.
  { unfold attach1. rewrite Epb, EdB1. apply insert_insert_eq. }
  eapply (HK nb sn' _ _ (attached bino (lv:=lv) (dB:=dB1) i k poff nb pidx)); [exact Hs2|..].
  - unfold attached. by rewrite Ea1.
  - apply (attached_inv bino HI1 i k p poff nb pidx); try done. by rewrite Esz.
  - eapply files_le_trans; [by eapply files_le_free|]. by eapply files_le_attach.
  - rewrite (attached_fnode bino HI1 i k p poff nb pidx) by done. by rewrite decide_True.
  - done.
  - rewrite <- Ea1. unfold attach1. rewrite present_insert; [done|].
    by destruct (slot_at_role bino HI1 _ _ _ _ _ Hi1 Hk Hp Hslot1).
  - rewrite Esn. cbn [sn_superblock]. by rewrite attached_blk.
  - rewrite Hperm. done.
Qed.
Lemma write_walk_ok lv (i off : Z) (n : nat) :
  forall (k : nat) rl fl (ts : st) (dBp dB : vdisk) (sn : snapshot) (poff : Z) (pblk : block) (pidx : nat),
  st_repr ts dBp -> dB = <[(bino, poff):=pblk]> dBp -> td_inv bino lv rl fl dB ->
  valid_ino bino dB i -> is_u32 off -> off < inode_size bino dB i -> (k + n = lv i)%nat ->
  slot_at bino (dB:=dB) i k (off / 256 ^ Z.of_nat n) poff pidx ->
  dBp !! (bino, poff) = Some pblk \/ pblk = null_block -> present bino dBp poff ->
  sn_superblock sn = blk bino dB 0 -> (n < length fl)%nat ->
  wp (write_walk n off sn poff pblk pidx) ts (fun r ts' => exists dB' rl' fl',
    st_repr ts' dB' /\ td_inv bino lv rl' fl' dB' /\ files_le (at_block i off) lv dB lv dB' /\
    r = fnode bino dB' i (lv i) off /\ r <> 0 /\ (length fl <= length fl' + Datatypes.S n)%nat).
Proof.
  induction n as [|n IH]; intros k rl fl ts dBp dB sn poff pblk pidx
    Hs EdB HI Hi Hu Hsz Hk Hslot Hpend Hpp Hsb Hlen.
  all: assert (blk bino dB poff = pblk) as Epb by (rewrite EdB; apply blk_insert_eq).
  all: pose proof (slot_at_get bino _ _ _ _ _ Hslot) as Eg; rewrite Epb in Eg.
  all: pose proof (proj1 Hu) as Hoff0.
  all: assert (fl <> []) as Hne by (intros ->; simpl in Hlen; lia).
  all: assert (get32 pblk pidx <> 0 -> dBp = dB) as Ephys
    by (intros Hb; rewrite EdB; symmetry; apply insert_id;
        destruct Hpend as [|Hpb]; [done|rewrite Hpb, get32_null in Hb; done]).
  all: cbn [write_walk]; destruct (decide (get32 pblk pidx = 0)) as [Hb|Hb].
  - (* the data block is a hole *)
    rewrite Z.div_1_r in Hslot. rewrite Nat.add_0_r in Hk.
    eapply (fill_hole_ok lv rl fl i k off); try done; [lia|].
    intros nb sn' ts' dBp' dB' rl' fl' Hs' EdB' HI' Hle Hnode Hnb Hpn Hsb' Hl. step.
    rewrite decide_False in EdB' by lia. subst dBp'. exists dB', rl', fl'.
    rewrite <- Hk. split_and!; try done; [|lia].
    eapply files_le_mono; [|exact Hle]. intros j o. unfold at_block. tauto.
  - (* the data block exists *)
    rewrite Z.div_1_r in Eg. rewrite Nat.add_0_r in Hk. step. exists dB, rl, fl.
    rewrite <- Hk, <- Eg. split_and!; try done; [by rewrite <- Ephys|lia].
  - (* an indirect block is a hole *)
    assert (0 <= off / 256 ^ Z.of_nat (Datatypes.S n)) as Hq
      by (apply Z.div_pos; [done|apply pow256_pos]).
    eapply (fill_hole_ok lv rl fl i k (off / 256 ^ Z.of_nat (Datatypes.S n))); try done; [lia|lia|].
    intros nb sn' ts' dBp' dB' rl' fl' Hs' EdB' HI' Hle Hnode Hnb Hpn Hsb' Hl.
    rewrite decide_True in EdB' by lia.
    assert (valid_ino bino dB' i) as Hi' by (by eapply files_le_valid).
    destruct (proj2 Hle i Hi) as (Esz & _ & _).
    wp_use (IH (Datatypes.S k) rl' fl' ts' dBp' dB' sn' nb null_block (tree_index off n)) as Hpost;
      try done; [by rewrite Esz|lia| |by right|lia|].
    + cbn [slot_at]. rewrite <- div256_S by done. rewrite Hnode.
      split_and!; [done|done|by rewrite tree_index_spec].
    + destruct Hpost as (dB2 & rl2 & fl2 & H1 & H2 & H3 & H4 & H5 & H6).
      exists dB2, rl2, fl2. split_and!; try done; [|lia].
      eapply files_le_trans; [|exact H3]. eapply files_le_mono; [|exact Hle].
      intros j o (Ek & _). lia.
  - (* an indirect block exists *)
    assert (0 <= off / 256 ^ Z.of_nat (Datatypes.S n)) as Hq
      by (apply Z.div_pos; [done|apply pow256_pos]).
    rewrite (Ephys Hb) in *. clear Ephys EdB Hpend.
    rewrite Eg in *. destruct (ti_node _ _ _ _ _ HI i k _ Hi ltac:(lia) Hq Hb) as [Hpn Hrn].
    step. wp_use (td_read_or_panic_ok ts dB _ Hs Hpn) as [-> Hs'].
    wp_use (IH (Datatypes.S k) rl fl _ dB dB sn) as Hpost; try done.
    + symmetry. apply insert_id. by apply blk_present.
    + lia.
    + cbn [slot_at]. rewrite <- div256_S by done.
      split_and!; [done|done|by rewrite tree_index_spec].
    + left. by apply blk_present.
    + lia.
    + destruct Hpost as (dB2 & rl2 & fl2 & H1 & H2 & H3 & H4 & H5 & H6).
      exists dB2, rl2, fl2. split_and!; try done. lia.
Qed.

(** The new root blocks. The inode block is still in memory, in the snapshot. *)
Lemma grow_levels_ok (i : Z) (n : nat) :
  forall lv rl fl (ts : st) (dBp dB : vdisk) (sn : snapshot),
  st_repr ts dBp -> dB = <[(bino, inode_block i):=sn_inodeblock sn]> dBp ->
  td_inv bino lv rl fl dB -> valid_ino bino dB i -> present bino dBp (inode_block i) ->
  sn = snapshot_of dB i -> (n <= length fl)%nat ->
  wp (grow_levels n sn) ts (fun sn' ts' => exists dBp' dB' lv' rl' fl',
    st_repr ts' dBp' /\ dB' = <[(bino, inode_block i):=sn_inodeblock sn']> dBp' /\
    td_inv bino lv' rl' fl' dB' /\ present bino dBp' (inode_block i) /\
    sn' = snapshot_of dB' i /\ length fl = (length fl' + n)%nat /\
    (forall j, lv' j = if decide (j = i) then (n + lv j)%nat else lv j) /\
    files_le (fun _ _ => False) lv dB lv' dB').
Proof.
  induction n as [|n IH]; intros lv rl fl ts dBp dB sn Hs EdB HI Hi Hpp Esn Hlen; cbn [grow_levels].
  { step. exists dBp, dB, lv, rl, fl. split_and!; try done; try lia.
    intros j. by destruct (decide _). }
  destruct (ti_inode_meta bino HI i Hi) as [Hpi Hri].
  pose proof (inode_block_meta _ _ _ Hi) as Hib.
  assert (present bino dBp 0) as Hp0.
  { destruct (ti_zero_meta bino HI) as [H0 _]. rewrite EdB in H0. by apply present_insert in H0. }
  assert (fl <> []) as Hne by (intros ->; simpl in Hlen; lia).
  assert (forall m, m ∈ fl -> m <> inode_block i) as Hflp.
  { intros m Hm ->. destruct (ti_fl _ _ _ _ _ HI _ Hm). congruence. }
  step. wp_use (alloc_block_ok lv rl fl ts dBp dB sn Hs HI Hne) as (m & y & fl' & Hm & Hs1 & Hperm & HI1 & Hc & Esn1);
    [by rewrite Esn|done| |].
  { intros m Hm. rewrite EdB, lookup_insert_ne; [done|]. intros [= E]. by apply (Hflp m). }
  destruct a as [r sn1]. cbn [fst snd] in *.
  assert (m <> inode_block i) as Hmp by (destruct Hm as [->|Hm]; [lia|by apply Hflp]).
  set (dB1 := <[(bino, m):=y]> dB) in *. set (dB1p := <[(bino, m):=y]> dBp) in *.
  assert (dB1 = <[(bino, inode_block i):=sn_inodeblock sn]> dB1p) as EdB1.
  { unfold dB1, dB1p. rewrite EdB. apply insert_insert_ne. intros [= E]. done. }
  assert (files_le (fun _ _ => False) lv dB lv dB1) as Hle1 by (by eapply files_le_free).
  assert (valid_ino bino dB1 i) as Hi1 by (by eapply files_le_valid).
  assert (r ∈ fl) as Hr by (rewrite Hperm; by left).
  destruct (ti_fl _ _ _ _ _ HI r Hr) as [Hpr Hrr].
  assert (present bino dB1 r) as Hpr1 by (by apply (proj1 (proj2 Hc))).
  assert (r ∉ fl') as Hfl'.
  { pose proof (ti_nodup _ _ _ _ _ HI) as Hnd. rewrite Hperm in Hnd. by apply NoDup_cons in Hnd as [? _]. }
  assert (sn1 = snapshot_of dB1 i) as Esn1'.
  { rewrite Esn1, Esn. unfold snapshot_of. cbn [sn_inodeblock sn_inode_blockno sn_inode].
    by rewrite (free_change_inode bino HI dB1 i Hc Hi). }
  assert (present bino dB1p r) as Hprp.
  { revert Hpr1. rewrite EdB1. unfold present. rewrite lookup_insert_ne; [done|].
    intros [= E]. by apply (Hflp r). }
  assert (block_wf (set32 null_block 0 (sn_root sn1))) as Hwt
    by (apply set32_wf; [apply null_block_wf|lia]).
  step. wp_use (td_write_or_panic_ok _ dB1p r _ Hs1 Hprp Hwt) as Hs2.
  pose proof (grown_inv bino HI1 i r Hi1 Hpr1 Hrr Hfl') as HIg.
  assert (grown bino (dB:=dB1) i r =
          <[(bino, inode_block i):=sn_inodeblock (sn_set_root r sn1)]>
            (<[(bino, r):=set32 null_block 0 (sn_root sn1)]> dB1p)) as Eg.
  { unfold grown, set_inode_word. rewrite Esn1'. cbn [sn_inodeblock sn_set_root snapshot_of sn_inode].
    rewrite sn_root_of. rewrite EdB1 at 3. rewrite insert_insert_eq.
    apply insert_insert_ne. intros [= E]. by apply (Hflp r). }
  pose proof (files_le_grown (fun _ _ => False) _ _ _ _ i r HI1 Hi1 Hpr1 Hrr Hfl') as Hle2.
  pose proof (grow_ne bino HI1 r Hpr1 Hrr) as (Hr0 & _ & Hrib).
  assert (length fl = Datatypes.S (length fl')) as Hl by (by rewrite Hperm).
  wp_use (IH _ _ _ _ _ _ (sn_set_root r sn1) Hs2 Eg HIg) as Hpost; [| | |lia|].
  - by eapply files_le_valid.
  - apply present_insert; [done|]. unfold dB1p, present.
    by rewrite lookup_insert_ne by (intros [= E]; done).
  - unfold snapshot_of. rewrite grown_blk by (done || lia). rewrite Eg, blk_insert_eq, Esn1'. done.
  - destruct Hpost as (dBp' & dB' & lv' & rl' & fl2 & H1 & H2 & H3 & H4 & H5 & H6 & H7 & H8).
    exists dBp', dB', lv', rl', fl2. split_and!; try done; [lia| |].
    + intros j. rewrite H7. unfold lv_grown. destruct (decide (j = i)); lia.
    + eapply files_le_trans; [exact Hle1|]. eapply files_le_trans; [exact Hle2|done].
Qed.

(** The end of a write: the walk, and the data. *)
Lemma write_tail_ok lv rl fl (i off : Z) (b : block) (ts : st) (dB : vdisk) :
  st_repr ts dB -> td_inv bino lv rl fl dB -> valid_ino bino dB i -> is_u32 off ->
  off < inode_size bino dB i -> off < 256 ^ Z.of_nat (lv i) -> (lv i < length fl)%nat -> block_wf b ->
  wp (bno ← write_walk (lv i) off (snapshot_of dB i) (inode_block i) (blk bino dB (inode_block i))
             (root_word (inode_idx i));
      td_write_or_panic bno b;; mret 0) ts (fun r ts' => r = 0 /\ exists dB' rl' fl',
    st_repr ts' dB' /\ td_inv bino lv rl' fl' dB' /\
    n_inodes bino dB' = n_inodes bino dB /\ (length fl <= length fl' + Datatypes.S (lv i))%nat /\
    inode_root bino dB' i <> 0 /\
    forall j, valid_ino bino dB j ->
      inode_size bino dB' j = inode_size bino dB j /\
      (inode_root bino dB j <> 0 -> inode_root bino dB' j <> 0) /\
      forall o, 0 <= o ->
        content bino lv dB' j o = if decide (j = i /\ o = off) then b else content bino lv dB j o).
Proof.
  intros Hs HI Hi Hu Hsz Hlv Hlen Hb. destruct (ti_inode_meta bino HI i Hi) as [Hpi _]. step.
  wp_use (write_walk_ok lv i off (lv i) 0 rl fl ts dB dB (snapshot_of dB i) (inode_block i)
    (blk bino dB (inode_block i)) (root_word (inode_idx i)) Hs) as Hpost; try done.
  - symmetry. apply insert_id. by apply blk_present.
  - simpl. split_and!; [|done|done]. apply Z.div_small. unfold is_u32 in Hu. lia.
  - left. by apply blk_present.
  - destruct Hpost as (dB1 & rl1 & fl1 & Hs1 & HI1 & Hle & -> & Hr0 & Hl).
    assert (valid_ino bino dB1 i) as Hi1 by (by eapply files_le_valid).
    pose proof (proj1 Hu) as Hoff0.
    destruct (ti_node _ _ _ _ _ HI1 i (lv i) off Hi1) as [Hpn _]; [done..|].
    destruct (data_inv bino HI1 i off b Hi1 Hoff0 Hr0 Hb) as (HI2 & Hino & E0).
    step. wp_use (td_write_or_panic_ok _ dB1 _ b Hs1 Hpn Hb) as Hs2. step. split; [done|].
    eexists _, rl1, fl1. split_and!; [exact Hs2|exact HI2| |done| |].
    + unfold n_inodes. rewrite E0. apply Hle.
    + destruct (Hino i Hi1) as [_ ->]. by eapply root_of_node.
    + intros j Hj. assert (valid_ino bino dB1 j) as Hj1 by (by eapply files_le_valid).
      destruct (Hino j Hj1) as [-> ->]. destruct (proj2 Hle j Hj) as (A1 & A2 & A3).
      split_and!; [done|done|]. intros o Ho.
      rewrite (data_content bino HI1 i off b Hi1 Hoff0 Hr0) by done.
      destruct (decide (j = i /\ o = off)); [done|]. by apply A3.
Qed.

(** A write inside the file. *)
Lemma treedisk_write_inside (ts : st) (fl : list Z) (f : files) (ino off : Z) (b : block) :
  tree_repr ts fl f -> is_u32 ino -> is_u32 off -> block_wf b ->
  ino < f_ninodes f -> off < f_size f ino ->
  (tree_levels (f_size f ino) < length fl)%nat ->
  wp (treedisk_write ino off b) ts (fun r ts' => r = 0 /\ exists fl',
    tree_repr ts' fl' (f_write f ino off b) /\
    (length fl <= length fl' + Datatypes.S (tree_levels (f_size f ino)))%nat).
Proof.
  intros (dB & Hs & lv & rl & HI & Hn & Hf) Hino Hoff Hb Hi Ho Hlen. unfold treedisk_write. step.
  wp_use (get_snapshot_ok _ _ _ ts dB ino Hs HI Hino) as [-> Hs'].
  rewrite Hn, decide_True by done.
  assert (valid_ino bino dB ino) as Hv by (split; [apply Hino|by rewrite Hn]).
  destruct (Hf ino Hv) as (Hlv & Hsz & _ & _).
  assert (is_u32 (f_size f ino)) as Hu by (rewrite <- Hsz; apply get32_u32).
  destruct (tree_levels_spec _ Hu) as (E & _ & Hle & _).
  rewrite sn_nblocks_of, Hsz, E. unfold done_. steps.
  unfold write_size. rewrite sn_nblocks_of, Hsz, decide_False by lia. steps.
  unfold write_grow. rewrite sn_nblocks_of, Hsz. unfold is_u32 in Hoff.
  rewrite !decide_False by lia. steps. unfold write_inode. step. rewrite Hsz in Hlv. rewrite <- Hlv in *.
  wp_use (write_tail_ok lv rl fl ino off b _ dB Hs' HI Hv Hoff) as [-> Hpost]; [by rewrite Hsz|lia|done|done|].
  destruct Hpost as (dB' & rl' & fl' & Hs2 & HI2 & Hn2 & Hl2 & Hr2 & Hf2).
  split; [done|]. exists fl'. split; [|done]. exists dB'. split; [done|]. exists lv, rl'.
  split; [done|]. split; [by rewrite Hn2|]. intros j Hj.
  assert (valid_ino bino dB j) as Hj' by (unfold valid_ino in *; by rewrite <- Hn2).
  destruct (Hf2 j Hj') as (A1 & A2 & A3). destruct (Hf j Hj') as (B1 & B2 & B3 & B4).
  rewrite A1. split_and!; [done| | |].
  - rewrite B2. simpl. destruct (decide (j = ino)) as [->|]; lia.
  - simpl. destruct (decide (j = ino)) as [->|]; [done|auto].
  - intros o Ho'. rewrite A3 by done. simpl. destruct (decide (j = ino /\ o = off)); auto.
Qed.

Lemma write_grow_ok (ts : st) (L L' : nat) (sn : snapshot) (Q : nat * snapshot * bool -> st -> Prop) :
  sn_nblocks sn <> 0 -> (L <= L')%nat ->
  wp (grow_levels (L' - L) sn) ts (fun sn' ts' => Q (L', sn', true) ts') ->
  wp (write_grow L L' sn true) ts Q.
Proof.
  intros Hn HL Hg. unfold write_grow. rewrite decide_False by done.
  destruct (decide (L < L')%nat) as [Hlt|Hge].
  - step. wp_use Hg as H. by step.
  - assert (L = L') as -> by lia. rewrite Nat.sub_diag in Hg. exact Hg.
Qed.

Lemma content_set_size lv rl fl (dB : vdisk) i n j o :
  td_inv bino lv rl fl dB -> valid_ino bino dB i -> is_u32 n -> inode_size bino dB i <= n ->
  valid_ino bino dB j -> 0 <= o ->
  content bino lv (set_inode_word bino (dB:=dB) i (nblocks_word (inode_idx i)) n) j o =
  content bino lv dB j o.
Proof.
  intros HI Hi Hn Hle Hj Ho. destruct (td_inv_set_size bino HI i n Hi Hn Hle) as (_ & _ & Hnode).
  unfold content. rewrite Hnode by done. decide_goal as H0; [done|].
  destruct (ti_node _ _ _ _ _ HI j (lv j) o Hj) as [_ Hr]; [done..|].
  by eapply set_inode_node_blk.
Qed.

(** A write at or beyond the end. *)
Lemma treedisk_write_extend (ts : st) (fl : list Z) (f : files) (ino off : Z) (b : block) :
  tree_repr ts fl f -> is_u32 ino -> 0 <= off -> is_u32 (off + 1) -> block_wf b ->
  ino < f_ninodes f -> f_size f ino <= off ->
  let L := tree_levels (f_size f ino) in let L' := tree_levels (off + 1) in
  (L' - L + L' < length fl)%nat ->
  wp (treedisk_write ino off b) ts (fun r ts' => r = 0 /\ exists fl',
    tree_repr ts' fl' (f_write f ino off b) /\
    (length fl <= length fl' + (L' - L + Datatypes.S L'))%nat).
Proof.
  intros (dB & Hs & lv & rl & HI & Hn & Hf) Hino Hoff0 Hoff1 Hb Hi Ho L L' Hlen.
  assert (is_u32 off) as Hoff by (unfold is_u32 in *; lia).
  unfold treedisk_write. step.
  wp_use (get_snapshot_ok _ _ _ ts dB ino Hs HI Hino) as [-> Hs'].
  rewrite Hn, decide_True by done.
  assert (valid_ino bino dB ino) as Hv by (split; [apply Hino|by rewrite Hn]).
  destruct (Hf ino Hv) as (Hlv & Hsz & _ & _).
  assert (is_u32 (f_size f ino)) as Hu by (rewrite <- Hsz; apply get32_u32).
  destruct (tree_levels_spec _ Hu) as (E & _ & _ & _).
  rewrite sn_nblocks_of, Hsz, E. fold L. unfold done_ at 1. steps.
  unfold write_size. rewrite sn_nblocks_of, Hsz, decide_True by lia.
  rewrite count_levels_offset by done. fold L'. unfold done_. steps.
  rewrite u32_small by done.
  destruct (td_inv_set_size bino HI ino (off + 1) Hv Hoff1) as (HI1 & Hino1 & Hnode1); [lia|].
  set (dB1 := set_inode_word bino (dB:=dB) ino (nblocks_word (inode_idx ino)) (off + 1)) in *.
  set (sn1 := sn_set_nblocks (off + 1) (snapshot_of dB ino)).
  assert (dB1 = <[(bino, inode_block ino):=sn_inodeblock sn1]> dB) as EdB1 by done.
  pose proof (set_inode_0 bino (dB:=dB) ino (nblocks_word (inode_idx ino)) (off + 1) Hv) as E0.
  fold dB1 in E0.
  assert (sn1 = snapshot_of dB1 ino) as Esn1.
  { unfold snapshot_of. rewrite E0. unfold dB1, set_inode_word. by rewrite blk_insert_eq. }
  assert (forall j, valid_ino bino dB1 j <-> valid_ino bino dB j) as Hv1
    by (intros j; unfold valid_ino, n_inodes; by rewrite E0).
  assert (sn_nblocks sn1 = off + 1) as Enb.
  { rewrite Esn1, sn_nblocks_of. rewrite (proj2 (Hino1 ino Hv)). by rewrite decide_True. }
  assert (L <= L')%nat as HLL by (apply tree_levels_mono; [done|done|lia]).
  destruct (ti_inode_meta bino HI ino Hv) as [Hpi _].
  apply write_grow_ok; [rewrite Enb; lia|done|].
  wp_use (grow_levels_ok ino (L' - L) lv rl fl _ dB dB1 sn1 Hs' EdB1 HI1) as Hg;
    [by apply Hv1|done|done|lia|].
  destruct Hg as (dBp & dB2 & lv' & rl' & fl' & Hs2 & EdB2 & HI2 & Hpp & Esn2 & Hl2 & Hlv2 & Hle2).
  assert (valid_ino bino dB2 ino) as Hi2 by (eapply files_le_valid; [exact Hle2|by apply Hv1]).
  assert (block_wf (sn_inodeblock a)) as Hwb by (rewrite Esn2; apply blk_wf, HI2).
  steps. unfold write_inode.
  assert (sn_inode_blockno a = inode_block ino) as Ebn by (by rewrite Esn2).
  rewrite Ebn. wp_use (td_write_or_panic_ok _ dBp (inode_block ino) _ Hs2 Hpp Hwb) as Hs3.
  rewrite <- EdB2 in Hs3. rewrite Esn2. cbn [sn_inodeblock snapshot_of sn_inode].
  assert (lv' ino = L') as Elv.
  { rewrite Hlv2, decide_True by done. rewrite Hlv, Hsz. fold L. lia. }
  rewrite <- Elv.
  assert (inode_size bino dB2 ino = off + 1) as Esz2.
  { rewrite (proj1 (proj2 Hle2 ino (proj2 (Hv1 ino) Hv))), (proj2 (Hino1 ino Hv)).
    by rewrite decide_True. }
  destruct (tree_levels_spec _ Hoff1) as (_ & _ & Hpow & _). fold L' in Hpow.
  wp_use (write_tail_ok lv' rl' fl' ino off b _ dB2 Hs3 HI2 Hi2 Hoff) as [-> Hpost];
    [lia|rewrite Elv; lia|rewrite Elv; lia|done|].
  destruct Hpost as (dB3 & rl3 & fl3 & Hs4 & HI3 & Hn3 & Hl3 & Hr3 & Hf3).
  split; [done|]. exists fl3. split; [|lia]. exists dB3. split; [done|]. exists lv', rl3.
  assert (n_inodes bino dB3 = n_inodes bino dB) as Hn4.
  { rewrite Hn3, (proj1 Hle2). unfold n_inodes. by rewrite E0. }
  split; [done|]. split; [by rewrite Hn4|]. intros j Hj.
  assert (valid_ino bino dB j) as Hj0 by (unfold valid_ino in *; by rewrite <- Hn4).
  assert (valid_ino bino dB2 j) as Hj2 by (unfold valid_ino in *; by rewrite <- Hn3).
  assert (valid_ino bino dB1 j) as Hj1 by (by apply Hv1).
  destruct (Hf3 j Hj2) as (A1 & A2 & A3). destruct (proj2 Hle2 j Hj1) as (B1 & B2 & B3).
  destruct (Hino1 j Hj0) as [C1 C2]. destruct (Hf j Hj0) as (D1 & D2 & D3 & D4).
  assert (inode_size bino dB3 j = if decide (j = ino) then off + 1 else f_size f j) as Esz3.
  { rewrite A1, B1, C2. by destruct (decide (j = ino)). }
  rewrite Esz3. split_and!.
  - rewrite Hlv2. destruct (decide (j = ino)) as [->|]; [|by rewrite D1, D2].
    rewrite D1, D2. fold L L'. lia.
  - simpl. destruct (decide (j = ino)) as [->|]; lia.
  - simpl. destruct (decide (j = ino)) as [->|]; [done|]. intros Hpos. apply A2, B2.
    rewrite C1. by apply D3.
  - intros o Ho'. rewrite A3 by done. simpl. destruct (decide (j = ino /\ o = off)); [done|].
    rewrite B3 by (done || tauto). unfold dB1. rewrite (content_set_size lv rl fl); auto. lia.
Qed.

(** A write succeeds when there are enough free blocks, and changes the one
    block it is about; it uses up at most the blocks it needs. *)
Lemma treedisk_write_ok (ts : st) (fl : list Z) (f : files) (ino off : Z) (b : block) :
  tree_repr ts fl f -> is_u32 ino -> 0 <= off -> is_u32 (off + 1) -> block_wf b ->
  ino < f_ninodes f -> (blocks_needed f ino off <= length fl)%nat ->
  wp (treedisk_write ino off b) ts (fun r ts' => r = 0 /\ exists fl',
    tree_repr ts' fl' (f_write f ino off b) /\
    (length fl <= length fl' + blocks_needed f ino off)%nat).
Proof.
  intros Hr Hino Ho Ho1 Hb Hi Hlen. unfold blocks_needed in *.
  destruct (decide (off < f_size f ino)) as [Hlt|Hge].
  - rewrite Z.max_l in * by lia. rewrite Nat.sub_diag in *.
    apply treedisk_write_inside; try done; unfold is_u32 in *; lia.
  - rewrite Z.max_r in * by lia. apply treedisk_write_extend; try done; lia.
Qed.
End spec.
