(* ===== verification/TreeFree.v ===== *)
(** treedisk.c: freeing the blocks of a file and setting its size to zero. *)
From stdpp Require Import base numbers list gmap.
From Stdlib Require Import ZArith Lia Permutation.
From S2P Require Import Prelude BlockStore TreeDisk TreeInv TreeSpec.

(** * The number of levels that [treedisk_free_file] works out *)

Lemma free_levels_ok n :
  2 <= n <= 16777216 -> free_levels level_fuel 256 1 n = Some (tree_levels n).
Proof.
  intros Hn. assert (is_u32 n) as Hu by (unfold is_u32, two32; lia).
  unfold level_fuel. cbn [free_levels]. change (u32 (256 * Z.of_nat REFS_PER_BLOCK)) with 65536.
  change (u32 (65536 * Z.of_nat REFS_PER_BLOCK)) with 16777216.
  assert (forall L, 256 ^ Z.of_nat L >= n -> (L <> 0%nat) -> 256 ^ Z.of_nat (pred L) < n ->
            tree_levels n = L) as HL.
  { intros L H1 H0 H2. apply tree_levels_unique; [done|lia|]. intros j Hj.
    assert (256 ^ Z.of_nat j <= 256 ^ Z.of_nat (pred L)) by (apply Z.pow_le_mono_r; lia). lia. }
  destruct (decide (256 < n)) as [H1|H1]; [|f_equal; symmetry; apply HL; simpl; lia].
  destruct (decide (65536 < n)) as [H2|H2]; [|f_equal; symmetry; apply HL; simpl; lia].
  rewrite decide_False by lia. f_equal; symmetry; apply HL; simpl; lia.
Qed.

(** For a longer file the capacity wraps around to zero, and the loop never ends. *)
Lemma free_levels_zero fuel level n : 0 < n -> free_levels fuel 0 level n = None.
Proof.
  intros Hn. revert level. induction fuel as [|fuel IH]; intros level; [done|]. cbn [free_levels].
  rewrite decide_True by done. apply IH.
Qed.

Lemma free_levels_diverges fuel n : 16777216 < n -> free_levels fuel 256 1 n = None.
Proof.
  intros Hn. destruct fuel as [|fuel]; [done|]. cbn [free_levels]. rewrite decide_True by lia.
  change (u32 (256 * Z.of_nat REFS_PER_BLOCK)) with 65536.
  destruct fuel as [|fuel]; [done|]. cbn [free_levels]. rewrite decide_True by lia.
  change (u32 (65536 * Z.of_nat REFS_PER_BLOCK)) with 16777216.
  destruct fuel as [|fuel]; [done|]. cbn [free_levels]. rewrite decide_True by lia.
  change (u32 (16777216 * Z.of_nat REFS_PER_BLOCK)) with 0. apply free_levels_zero. lia.
Qed.

(** * The blocks of a tree, in the order in which they are freed *)

Section subtree.
Context (bino : Z).

Fixpoint subtree (dB : vdisk) (d : nat) (b : Z) : list Z :=
  match d with
  | O => [b]
  | S d =>
      (refs (blk bino dB b) ≫= fun r => if decide (r = 0) then [] else subtree dB d r) ++ [b]
  end.

Definition forest (dB : vdisk) (d : nat) (rs : list Z) : list Z :=
  rs ≫= fun r => if decide (r = 0) then [] else subtree dB d r.

Lemma forest_cons dB d r rs :
  forest dB d (r :: rs) = (if decide (r = 0) then [] else subtree dB d r) ++ forest dB d rs.
Proof. done. Qed.

Lemma subtree_frame dB dB' d : forall b,
  (forall n, n ∈ subtree dB d b -> blk bino dB' n = blk bino dB n) ->
  subtree dB' d b = subtree dB d b.
Proof.
  induction d as [|d IH]; intros b H; [done|]. cbn [subtree] in *. f_equal.
  rewrite (H b) by (apply elem_of_app; right; by left).
  assert (forall n, n ∈ forest dB d (refs (blk bino dB b)) -> blk bino dB' n = blk bino dB n) as H'
    by (intros n Hn; apply H, elem_of_app; by left).
  clear H. induction (refs (blk bino dB b)) as [|r rs IHr]; [done|]. csimpl. f_equal.
  - decide_goal as H0; [done|]. apply IH. intros n Hn. apply H'. unfold forest. csimpl.
    rewrite decide_False by done. apply elem_of_app. by left.
  - apply IHr. intros n Hn. apply H'. unfold forest. csimpl. apply elem_of_app. by right.
Qed.

Lemma forest_frame dB dB' d rs :
  (forall n, n ∈ forest dB d rs -> blk bino dB' n = blk bino dB n) ->
  forest dB' d rs = forest dB d rs.
Proof.
  intros H. induction rs as [|r rs IH]; [done|]. rewrite !forest_cons in *. f_equal.
  - decide_goal as H0; [done|]. apply subtree_frame. intros n Hn. apply H.
    apply elem_of_app. by left.
  - apply IH. intros n Hn. apply H. apply elem_of_app. by right.
Qed.

Lemma elem_of_refs_forest dB d (l : list nat) b x :
  x ∈ forest dB d (get32 b <$> l) <->
  exists idx, idx ∈ l /\ get32 b idx <> 0 /\ x ∈ subtree dB d (get32 b idx).
Proof.
  unfold forest. rewrite list_elem_of_bind. split.
  - intros (r & Hx & (idx & -> & Hi)%list_elem_of_fmap). destruct (decide (get32 b idx = 0)) as [H|H];
      [by apply elem_of_nil in Hx|]. eauto.
  - intros (idx & Hi & H0 & Hx). exists (get32 b idx). rewrite decide_False by done.
    split; [done|]. by apply list_elem_of_fmap_2.
Qed.

Lemma NoDup_forest dB d (l : list nat) b :
  NoDup l ->
  (forall i, i ∈ l -> get32 b i <> 0 -> NoDup (subtree dB d (get32 b i))) ->
  (forall i j x, i ∈ l -> j ∈ l -> get32 b i <> 0 -> get32 b j <> 0 ->
     x ∈ subtree dB d (get32 b i) -> x ∈ subtree dB d (get32 b j) -> i = j) ->
  NoDup (forest dB d (get32 b <$> l)).
Proof.
  intros Hl H1 H2. induction l as [|i l IH]; [by constructor|].
  apply NoDup_cons in Hl as [Hi Hl]. unfold forest. csimpl. fold (forest dB d (get32 b <$> l)).
  apply NoDup_app. split_and!.
  - destruct (decide (get32 b i = 0)); [constructor|]. apply H1; [by left|done].
  - intros x Hx (j & Hj & Hj0 & Hxj)%elem_of_refs_forest.
    destruct (decide (get32 b i = 0)) as [H0|H0]; [by apply elem_of_nil in Hx|].
    apply Hi. assert (i = j) as ->; [|done]. apply (H2 i j x); try done; [by left|by right].
  - apply IH; [done| |]; intros; [apply H1|eapply H2]; eauto; by right.
Qed.

(** The blocks below a node are nodes of the same file, each once. *)
Lemma subtree_nodes lv rl fl (dB : vdisk) (i : Z) (HI : td_inv bino lv rl fl dB)
    (Hi : valid_ino bino dB i) (d : nat) : forall (k : nat) (p : Z),
  (k + d = lv i)%nat -> 0 <= p -> fnode bino dB i k p <> 0 ->
  NoDup (subtree dB d (fnode bino dB i k p)) /\
  forall x, x ∈ subtree dB d (fnode bino dB i k p) -> exists j q,
    (j <= d)%nat /\ 0 <= q /\ q / 256 ^ Z.of_nat j = p /\ x = fnode bino dB i (k + j) q /\ x <> 0.
Proof.
  induction d as [|d IH]; intros k p Hk Hp H0; cbn [subtree].
  { split; [apply NoDup_singleton|]. intros x ->%list_elem_of_singleton. exists 0%nat, p.
    rewrite Nat.add_0_r, Z.div_1_r. split_and!; done. }
  set (b := fnode bino dB i k p) in *. fold (forest dB d (refs (blk bino dB b))).
  assert (forall idx, idx ∈ seq 0 REFS_PER_BLOCK ->
            get32 (blk bino dB b) idx = fnode bino dB i (S k) (p * 256 + Z.of_nat idx)) as Hchild.
  { intros idx Hidx%elem_of_seq. change REFS_PER_BLOCK with 256%nat in Hidx.
    unfold fnode. cbn [node]. rewrite Z.div_add_l, (Z.div_small (Z.of_nat idx)), Z.add_0_r by lia.
    fold (fnode bino dB i k p). fold b. rewrite decide_False by done.
    rewrite Z.add_comm, Z.mod_add, Z.mod_small, Nat2Z.id by lia. done. }
  assert (forall idx x, idx ∈ seq 0 REFS_PER_BLOCK -> get32 (blk bino dB b) idx <> 0 ->
            x ∈ subtree dB d (get32 (blk bino dB b) idx) -> exists j q,
            (j <= d)%nat /\ 0 <= q /\ q / 256 ^ Z.of_nat j = p * 256 + Z.of_nat idx /\
            x = fnode bino dB i (S k + j) q /\ x <> 0) as Hin.
  { intros idx x Hidx Hn0 Hx. rewrite Hchild in Hn0, Hx by done.
    apply (IH (S k) (p * 256 + Z.of_nat idx)); [lia|lia|done|done]. }
  assert (forall x, x ∈ forest dB d (refs (blk bino dB b)) -> exists j q,
    (1 <= j <= S d)%nat /\ 0 <= q /\ q / 256 ^ Z.of_nat j = p /\ x = fnode bino dB i (k + j) q /\ x <> 0)
    as Hfor.
  { intros x (idx & Hidx & Hn0 & Hx)%elem_of_refs_forest.
    destruct (Hin idx x Hidx Hn0 Hx) as (j & q & Hj & Hq & Hdiv & Hx' & Hx0).
    exists (S j), q. split_and!; [lia|lia|done| |by rewrite Nat.add_succ_r|done].
    rewrite div256_S, Hdiv by done. apply elem_of_seq in Hidx.
    change REFS_PER_BLOCK with 256%nat in Hidx.
    rewrite Z.div_add_l, (Z.div_small (Z.of_nat idx)) by lia. lia. }
  split.
  - apply NoDup_app. split_and!; [|intros x Hx ->%list_elem_of_singleton|apply NoDup_singleton].
    + apply NoDup_forest; [apply NoDup_seq| |].
      * intros idx Hidx Hn0. rewrite Hchild in Hn0 |- * by done.
        apply (IH (S k) (p * 256 + Z.of_nat idx)); [lia|lia|done].
      * intros i1 i2 x Hi1 Hi2 Hn1 Hn2 Hx1 Hx2.
        destruct (Hin i1 x Hi1 Hn1 Hx1) as (j1 & q1 & A1 & A2 & A3 & A4 & A5).
        destruct (Hin i2 x Hi2 Hn2 Hx2) as (j2 & q2 & B1 & B2 & B3 & B4 & _).
        destruct (ti_node_uniq bino HI i (S k + j1) q1 i (S k + j2) q2) as (_ & Ej & <-);
          try done; try lia; try congruence.
        assert (j1 = j2) as -> by lia. lia.
    + destruct (Hfor _ Hx) as (j & q & Hj & Hq & _ & E & _).
      destruct (ti_node_uniq bino HI i k p i (k + j) q) as (_ & Ej & _); try done; lia.
  - intros x [Hx|Hx]%elem_of_app.
    + destruct (Hfor x Hx) as (j & q & Hj & Hq & H). exists j, q. split; [lia|done].
    + apply list_elem_of_singleton in Hx as ->. exists 0%nat, p.
      rewrite Nat.add_0_r, Z.div_1_r. split_and!; try done. lia.
Qed.
End subtree.

(** * Freeing blocks *)

Section free.
Context {S : Type} {R : S -> vdisk -> Prop} `{!BlockStore S, !Lawful S R} (bino : Z).
Abbreviation st := (treedisk_state S).

(** Blocks other than the superblock and those in [X] keep their contents. *)
Definition only_changed (X : list Z) (dB dB' : vdisk) : Prop :=
  same_dom dB dB' /\
  sb_n_inodeblocks (blk bino dB' 0) = sb_n_inodeblocks (blk bino dB 0) /\
  forall n, n <> 0 -> n ∉ X -> blk bino dB' n = blk bino dB n.

(** The blocks [X] can be freed: they are not free, and they are on the disk. *)
Definition freeable (X : list Z) (sn : snapshot) (ts : st) (fl : list Z) (dB : vdisk) : Prop :=
  st_repr (R:=R) bino ts dB /\ sn_superblock sn = blk bino dB 0 /\
  free_at bino dB (sb_free_list (blk bino dB 0)) fl /\ NoDup (X ++ fl) /\ present bino dB 0 /\
  forall n, n ∈ X ++ fl -> n <> 0 /\ present bino dB n.

(** They have been freed. *)
Definition freed (X : list Z) (sn : snapshot) (fl : list Z) (dB : vdisk) (sn' : snapshot) (ts' : st)
    : Prop :=
  exists dB' fl', st_repr (R:=R) bino ts' dB' /\
    sn' = Snapshot (blk bino dB' 0) (sn_inodeblock sn) (sn_inode_blockno sn) (sn_inode sn) /\
    free_at bino dB' (sb_free_list (blk bino dB' 0)) fl' /\ fl' ≡ₚ X ++ fl /\
    only_changed (X ++ fl) dB dB'.

Lemma only_changed_refl X dB : only_changed X dB dB.
Proof. by split_and!. Qed.

Lemma only_changed_trans X dB1 dB2 dB3 :
  only_changed X dB1 dB2 -> only_changed X dB2 dB3 -> only_changed X dB1 dB3.
Proof.
  intros (A1 & A2 & A3) (B1 & B2 & B3). split_and!; [by etransitivity|congruence|].
  intros n H0 Hn. rewrite B3 by done. by apply A3.
Qed.

Lemma only_changed_insert X (dB : vdisk) n b :
  present bino dB n -> n ∈ X -> n <> 0 -> only_changed X dB (<[(bino, n):=b]> dB).
Proof.
  intros Hp Hn H0. split_and!; [by apply same_dom_insert|by rewrite blk_insert_ne|].
  intros m Hm0 Hm. apply blk_insert_ne. by intros <-.
Qed.

Lemma only_changed_super X (dB : vdisk) v :
  present bino dB 0 -> block_wf (blk bino dB 0) ->
  only_changed X dB (<[(bino, 0):=sb_set_free_list (blk bino dB 0) v]> dB).
Proof.
  intros Hp Hw. split_and!; [by apply same_dom_insert| |].
  - rewrite blk_insert_eq. apply get32_set32_ne; [done|lia|lia].
  - intros m Hm0 _. by apply blk_insert_ne.
Qed.

Lemma only_changed_present X dB dB' n : only_changed X dB dB' -> present bino dB n -> present bino dB' n.
Proof. intros (Hd & _ & _). apply Hd. Qed.

Lemma free_block_ok (ts : st) (sn : snapshot) (target : Z) (fl : list Z) (dB : vdisk) :
  freeable [target] sn ts fl dB ->
  wp (treedisk_free_block sn target) ts (freed [target] sn fl dB).
Proof.
  intros (Hs & Hsb & Hf & Hnd & Hp0 & Hall). simpl in Hnd. apply NoDup_cons in Hnd as [Hnt Hnd].
  destruct (Hall target) as [Ht0 Hpt]; [by left|].
  assert (vdisk_wf dB) as Hw by (eapply law_wf, Hs).
  assert (is_u32 target) as Hu by (eapply vd_off; [exact Hw|exact Hpt]).
  unfold treedisk_free_block. step.
  wp_use (td_write_or_panic_ok bino ts dB target null_block Hs Hpt null_block_wf) as Hs1.
  set (dB1 := <[(bino, target):=null_block]> dB) in *.
  assert (only_changed (target :: fl) dB dB1) as Hc1 by (apply only_changed_insert; [done|by left|done]).
  assert (vdisk_wf dB1) as Hw1 by (by apply vdisk_wf_insert).
  assert (blk bino dB1 0 = blk bino dB 0) as E0 by (by apply blk_insert_ne).
  assert (free_at bino dB1 (sb_free_list (blk bino dB 0)) fl) as Hf1.
  { eapply free_at_frame; [|exact Hf]. intros n Hn. apply blk_insert_ne. by intros <-. }
  assert (present bino dB1 0) as Hp01 by (by eapply only_changed_present).
  rewrite Hsb. set (h := sb_free_list (blk bino dB 0)) in *.
  assert (block_wf (sb_set_free_list (blk bino dB 0) target)) as Hwx
    by (apply set32_wf; [by apply blk_wf|lia]).
  assert (get32 (sb_set_free_list (blk bino dB 0) target) 1 = target) as Egx
    by (apply get32_set32_eq; [by apply blk_wf|lia|done]).
  destruct (decide (h = 0)) as [Hh|Hh].
  - (* the free list was empty *)
    rewrite Hh in Hf1. assert (fl = []) as -> by (by apply (free_at_head _ _ _ _ Hf1)).
    steps. cbn [sn_superblock sn_set_free_list]. rewrite Hsb.
    wp_use (td_write_or_panic_ok bino _ dB1 0 _ Hs1 Hp01 Hwx) as Hs2. step.
    eexists _, [target]. split; [exact Hs2|].
    split; [unfold sn_set_free_list; by rewrite blk_insert_eq, Hsb|].
    rewrite blk_insert_eq. unfold sb_free_list. rewrite Egx. split; [|split; [done|]].
    + assert (entries (blk bino (<[(bino, 0):=sb_set_free_list (blk bino dB 0) target]> dB1) target) = [])
        as He.
      { apply entries_zero. intros j _. rewrite blk_insert_ne by done. unfold dB1.
        rewrite blk_insert_eq. apply get32_null. }
      replace [target] with (target :: entries (blk bino
        (<[(bino, 0):=sb_set_free_list (blk bino dB 0) target]> dB1) target) ++ []) by (by rewrite He).
      constructor; [done|]. rewrite blk_insert_ne by done. unfold dB1 at 2.
      rewrite blk_insert_eq, get32_null. constructor.
    + eapply only_changed_trans; [exact Hc1|]. rewrite <- E0. apply only_changed_super; [done|by apply blk_wf].
  - (* a block of the free list has room, or [target] becomes the new head *)
    destruct (free_at_cons bino _ _ _ Hf1 Hh) as (fl0 & Efl & Hf0).
    assert (h ∈ fl) as Hhin by (rewrite Efl; by left).
    destruct (Hall h) as [_ Hph]; [by right|].
    assert (present bino dB1 h) as Hph1 by (by eapply only_changed_present).
    step. wp_use (td_read_or_panic_ok bino _ dB1 h Hs1 Hph1) as [-> Hs2].
    set (fb := blk bino dB1 h) in *. assert (block_wf fb) as Hwf by (by apply blk_wf).
    destruct (scan_empty_spec fb (REFS_PER_BLOCK - 1) 1) as [[Hfull Ei]|[Hi Hz]].
    + rewrite Ei. change (1 + (REFS_PER_BLOCK - 1))%nat with REFS_PER_BLOCK.
      rewrite decide_False by (by intros H; apply H). steps.
      cbn [sn_superblock sn_set_free_list]. rewrite Hsb.
      wp_use (td_write_or_panic_ok bino _ dB1 0 _ Hs2 Hp01 Hwx) as Hs3.
      set (dB2 := <[(bino, 0):=sb_set_free_list (blk bino dB 0) target]> dB1) in *.
      assert (only_changed (target :: fl) dB1 dB2) as Hc2
        by (unfold dB2; rewrite <- E0; apply only_changed_super; [done|by apply blk_wf]).
      assert (present bino dB2 target) as Hpt2
        by (eapply only_changed_present; [exact Hc2|by eapply only_changed_present]).
      assert (block_wf (set32 null_block 0 h)) as Hwh by (apply set32_wf; [apply null_block_wf|lia]).
      assert (is_u32 h) as Huh by apply get32_u32.
      step. wp_use (td_write_or_panic_ok bino _ dB2 target _ Hs3 Hpt2 Hwh) as Hs4. step.
      eexists _, (target :: fl). split; [exact Hs4|].
      assert (blk bino (<[(bino, target):=set32 null_block 0 h]> dB2) 0 =
              sb_set_free_list (blk bino dB 0) target) as Eb0
        by (rewrite blk_insert_ne by done; apply blk_insert_eq).
      split; [unfold sn_set_free_list; by rewrite Eb0, Hsb|].
      rewrite Eb0. unfold sb_free_list. rewrite Egx. split; [|split; [done|]].
      * assert (entries (blk bino (<[(bino, target):=set32 null_block 0 h]> dB2) target) = []) as He.
        { apply entries_zero. intros j Hj. rewrite blk_insert_eq.
          rewrite get32_set32_ne; [apply get32_null|apply null_block_wf|lia|lia]. }
        replace (target :: fl) with (target ::
          entries (blk bino (<[(bino, target):=set32 null_block 0 h]> dB2) target) ++ fl) by (by rewrite He).
        constructor; [done|]. rewrite blk_insert_eq.
        rewrite get32_set32_eq; [|apply null_block_wf|lia|done].
        eapply free_at_frame; [|exact Hf1]. intros n Hn. rewrite blk_insert_ne by (by intros <-).
        apply blk_insert_ne. intros <-. by destruct (Hall 0) as [? _]; [right|].
      * eapply only_changed_trans; [exact Hc1|]. eapply only_changed_trans; [exact Hc2|].
        apply only_changed_insert; [done|by left|done].
    + change (1 + (REFS_PER_BLOCK - 1))%nat with 256%nat in Hi.
      set (i := scan_empty fb (REFS_PER_BLOCK - 1) 1) in *.
      change REFS_PER_BLOCK with 256%nat. rewrite decide_True by lia.
      assert (block_wf (set32 fb i target)) as Hwt by (apply set32_wf; [done|lia]).
      step. wp_use (td_write_or_panic_ok bino _ dB1 h _ Hs2 Hph1 Hwt) as Hs3. step.
      set (fb' := set32 fb i target) in *.
      eexists _, (h :: entries fb' ++ fl0). split; [exact Hs3|].
      assert (blk bino (<[(bino, h):=fb']> dB1) 0 = blk bino dB 0) as Eb0
        by (by rewrite blk_insert_ne).
      rewrite Eb0. split; [rewrite <- Hsb; by destruct sn|]. fold h. split; [|split].
      * replace fb' with (blk bino (<[(bino, h):=fb']> dB1) h) at 2 by apply blk_insert_eq.
        constructor; [done|]. rewrite blk_insert_eq. unfold fb' at 2.
        rewrite get32_set32_ne by (done || lia). eapply free_at_frame; [|exact Hf0].
        intros n Hn. apply blk_insert_ne. intros <-. rewrite Efl in Hnd.
        apply NoDup_cons in Hnd as [Hnd _]. apply Hnd, elem_of_app. by right.
      * rewrite Efl. apply perm_take. by apply entries_set.
      * eapply only_changed_trans; [exact Hc1|]. apply only_changed_insert; [done|by right|done].
Qed.

Lemma only_changed_mono (X Y : list Z) dB dB' :
  (forall n, n ∈ X -> n ∈ Y) -> only_changed X dB dB' -> only_changed Y dB dB'.
Proof. intros HXY (A1 & A2 & A3). split_and!; [done|done|]. intros n H0 Hn. apply A3; auto. Qed.

Lemma freeable_app_l X Y sn ts fl dB : freeable (X ++ Y) sn ts fl dB -> freeable X sn ts fl dB.
Proof.
  intros (H1 & H2 & H3 & H4 & H5 & H6). split_and!; try done.
  - rewrite <- app_assoc in H4. apply NoDup_app in H4 as (A1 & A2 & A3).
    apply NoDup_app in A3 as (_ & _ & A3). apply NoDup_app. split_and!; [done| |done].
    intros x Hx Hf. apply (A2 x Hx). apply elem_of_app. by right.
  - intros n Hn. apply H6. rewrite <- app_assoc.
    apply elem_of_app in Hn as [Hn|Hn]; apply elem_of_app; [by left|right; apply elem_of_app; by right].
Qed.

(** Freeing [X], then [Y]. *)
Lemma freed_seq X Y (m1 : M st snapshot) (m2 : snapshot -> M st snapshot)
    (sn : snapshot) (ts : st) (fl : list Z) (dB : vdisk) :
  freeable (X ++ Y) sn ts fl dB ->
  (freeable X sn ts fl dB -> wp m1 ts (freed X sn fl dB)) ->
  (forall sn' ts' fl' dB', freeable Y sn' ts' fl' dB' -> only_changed (X ++ fl) dB dB' ->
     wp (m2 sn') ts' (freed Y sn' fl' dB')) ->
  wp (sn' ← m1; m2 sn') ts (freed (X ++ Y) sn fl dB).
Proof.
  intros HXY H1 H2. step. wp_use (H1 (freeable_app_l _ _ _ _ _ _ HXY))
    as (dB1 & fl1 & Hs1 & Esn & Hf1 & Hp1 & Hc1).
  destruct HXY as (Hs & Hsb & Hf & Hnd & Hp0 & Hall).
  assert ((X ++ Y) ++ fl ≡ₚ Y ++ fl1) as Hperm.
  { etransitivity; [apply Permutation_app_tail, Permutation_app_comm|].
    rewrite <- app_assoc. apply Permutation_app_head. by symmetry. }
  assert (freeable Y a s' fl1 dB1) as HY.
  { split_and!; [done|by rewrite Esn|done|by rewrite <- Hperm|by eapply only_changed_present|].
    intros n Hn. rewrite <- Hperm in Hn. destruct (Hall n Hn).
    split; [done|by eapply only_changed_present]. }
  wp_use (H2 _ _ _ _ HY Hc1) as (dB2 & fl2 & Hs2 & Esn2 & Hf2 & Hp2 & Hc2).
  exists dB2, fl2. split_and!; [done| |done| |].
  - rewrite Esn2, Esn. done.
  - by rewrite Hp2, <- Hperm.
  - eapply only_changed_trans.
    + eapply only_changed_mono; [|exact Hc1]. intros n Hn.
      apply elem_of_app in Hn as [Hn|Hn]; apply elem_of_app; [left; apply elem_of_app; by left|by right].
    + eapply only_changed_mono; [|exact Hc2]. intros n Hn. by rewrite Hperm.
Qed.

Lemma freed_nil sn ts fl dB : freeable [] sn ts fl dB -> freed [] sn fl dB sn ts.
Proof.
  intros (Hs & Hsb & Hf & _). exists dB, fl. split_and!; try done.
  rewrite <- Hsb. by destruct sn.
Qed.

Lemma for_refs_ok (d : nat) (f : snapshot -> Z -> M st snapshot) :
  (forall sn ts fl dB r, freeable (subtree bino dB d r) sn ts fl dB ->
     wp (f sn r) ts (freed (subtree bino dB d r) sn fl dB)) ->
  forall rs sn ts fl dB, freeable (forest bino dB d rs) sn ts fl dB ->
    wp (for_refs f rs sn) ts (freed (forest bino dB d rs) sn fl dB).
Proof.
  intros Hf. induction rs as [|r rs IH]; intros sn ts fl dB HX; cbn [for_refs].
  { step. by apply freed_nil. }
  rewrite forest_cons in *. apply freed_seq; [done| |].
  - intros HX1. destruct (decide (r = 0)) as [H0|H0].
    + rewrite decide_False by (by intros H; apply H). step. by apply freed_nil.
    + rewrite decide_True by done. by apply Hf.
  - intros sn' ts' fl' dB' HY Hc.
    assert (forest bino dB' d rs = forest bino dB d rs) as E.
    { destruct HX as (_ & _ & _ & Hnd & _ & Hall). apply forest_frame. intros n Hn.
      apply Hc; [apply Hall, elem_of_app; left; apply elem_of_app; by right|].
      rewrite <- app_assoc in Hnd. apply NoDup_app in Hnd as (_ & A1 & A2).
      apply NoDup_app in A2 as (_ & A2 & _). intros [Hn'|Hn']%elem_of_app.
      - apply (A1 n Hn'), elem_of_app. by left.
      - by apply (A2 n). }
    rewrite <- E in HY |- *. by apply IH.
Qed.

Lemma recursive_free_ok (fuel : nat) : forall (d level curr : nat) sn ts fl dB b,
  (d < fuel)%nat -> level = (curr + d)%nat -> freeable (subtree bino dB d b) sn ts fl dB ->
  wp (recursive_free_file fuel level curr sn b) ts (freed (subtree bino dB d b) sn fl dB).
Proof.
  induction fuel as [|fuel IH]; intros d level curr sn ts fl dB b Hd Hl HX; [lia|].
  cbn [recursive_free_file]. destruct d as [|d].
  - rewrite decide_True by lia. by apply free_block_ok.
  - rewrite decide_False by lia. cbn [subtree] in *. fold (forest bino dB d (refs (blk bino dB b))) in *.
    assert (present bino dB b) as Hpb.
    { destruct HX as (_ & _ & _ & _ & _ & Hall). apply Hall. rewrite <- app_assoc.
      apply elem_of_app. right. by left. }
    step. wp_use (td_read_or_panic_ok bino ts dB b) as [-> Hs']; [apply HX|done|].
    apply freed_seq; [by destruct HX as (_ & HX)| |].
    + intros HX1. apply for_refs_ok; [|done]. intros sn1 ts1 fl1 dB1 r Hr. apply (IH d); [lia|lia|done].
    + intros sn1 ts1 fl1 dB1 Hb _. by apply free_block_ok.
Qed.

(** ** Freeing a file *)

Section file.
Context {lv : Z -> nat} {rl : Z -> role} {fl : list Z} {dB : vdisk} (HI : td_inv bino lv rl fl dB).
Context (i : Z) (Hi : valid_ino bino dB i).

(** The blocks of the file. *)
Definition file_blocks : list Z :=
  if decide (inode_root bino dB i = 0) then []
  else subtree bino dB (lv i) (inode_root bino dB i).

Lemma file_blocks_spec :
  NoDup file_blocks /\
  forall x, x ∈ file_blocks -> x <> 0 /\ present bino dB x /\ exists l q, rl x = RNode i l q.
Proof.
  unfold file_blocks. destruct (decide (inode_root bino dB i = 0)) as [H0|H0].
  { split; [constructor|]. by intros x ?%elem_of_nil. }
  destruct (subtree_nodes bino lv rl fl dB i HI Hi (lv i) 0 0) as [H1 H2]; [lia|done|done|].
  split; [done|]. intros x Hx. destruct (H2 x Hx) as (j & q & Hj & Hq & _ & -> & Hx0).
  destruct (ti_node _ _ _ _ _ HI i (0 + j) q Hi) as [A1 A2]; [lia|done|done|]. eauto.
Qed.

Lemma file_blocks_freeable (ts : st) (sn : snapshot) :
  st_repr (R:=R) bino ts dB -> sn_superblock sn = blk bino dB 0 -> freeable file_blocks sn ts fl dB.
Proof.
  intros Hs Hsb. destruct file_blocks_spec as [Hnd Hx]. split_and!; [done|done|apply HI| | |].
  - apply NoDup_app. split_and!; [done| |apply HI]. intros x Hxf Hfl.
    destruct (Hx x Hxf) as (_ & _ & l & q & Hr). destruct (ti_fl _ _ _ _ _ HI x Hfl). congruence.
  - by destruct (ti_zero_meta bino HI).
  - intros n [Hn|Hn]%elem_of_app; [destruct (Hx n Hn) as (A1 & A2 & _); done|].
    split; [by apply (ti_fl_nonzero bino HI)|by apply (ti_fl _ _ _ _ _ HI)].
Qed.

Lemma free_file_ok (ts : st) :
  st_repr (R:=R) bino ts dB ->
  lv i = tree_levels (inode_size bino dB i) -> inode_size bino dB i <= 16777216 ->
  (0 < inode_size bino dB i -> inode_root bino dB i <> 0) ->
  wp (treedisk_free_file level_fuel (snapshot_of bino dB i)) ts
    (freed file_blocks (snapshot_of bino dB i) fl dB).
Proof.
  intros Hs Hlv Hsz Hroot. pose proof (file_blocks_freeable ts (snapshot_of bino dB i) Hs eq_refl) as HX.
  unfold treedisk_free_file. rewrite sn_nblocks_of, sn_root_of.
  assert (is_u32 (inode_size bino dB i)) as Hu by apply get32_u32. destruct Hu as [Hu _].
  destruct (decide (inode_size bino dB i = 0)) as [E0|E0].
  { step. apply freed_nil. revert HX. unfold file_blocks. rewrite decide_True; [done|].
    destruct (decide (inode_root bino dB i = 0)) as [|Hr]; [done|].
    destruct (ti_node _ _ _ _ _ HI i 0 0 Hi) as [_ A]; [lia|done|done|].
    pose proof (ti_beyond _ _ _ _ _ HI i 0 Hi) as B. rewrite Hlv, E0 in B. by apply B. }
  assert (inode_root bino dB i <> 0) as Hr0 by (apply Hroot; lia).
  unfold file_blocks in *. rewrite (decide_False (P := inode_root bino dB i = 0)) in HX |- * by done.
  destruct (decide (inode_size bino dB i = 1)) as [E1|E1].
  { rewrite Hlv, E1 in HX |- *. by apply free_block_ok. }
  change (Z.of_nat REFS_PER_BLOCK) with 256. rewrite free_levels_ok by lia. unfold done_. step.
  rewrite <- Hlv. apply recursive_free_ok; [lia|lia|done].
Qed.

(** The inode after its blocks are freed. *)
Lemma truncate_inv (dB1 : vdisk) (fl1 : list Z) :
  vdisk_wf dB1 -> free_at bino dB1 (sb_free_list (blk bino dB1 0)) fl1 ->
  fl1 ≡ₚ file_blocks ++ fl -> only_changed (file_blocks ++ fl) dB dB1 ->
  let ib := set32 (set32 (blk bino dB (inode_block i)) (nblocks_word (inode_idx i)) 0)
              (root_word (inode_idx i)) 0 in
  let dB2 := <[(bino, inode_block i):=ib]> dB1 in
  let lv2 := fun j => if decide (j = i) then 0%nat else lv j in
  (exists rl2, td_inv bino lv2 rl2 fl1 dB2) /\ n_inodes bino dB2 = n_inodes bino dB /\
  forall j, valid_ino bino dB j ->
    inode_size bino dB2 j = (if decide (j = i) then 0 else inode_size bino dB j) /\
    inode_root bino dB2 j = (if decide (j = i) then 0 else inode_root bino dB j) /\
    forall o, 0 <= o -> content bino lv2 dB2 j o =
      if decide (j = i) then null_block else content bino lv dB j o.
Proof.
  intros Hw1 Hf1 Hp1 (Hd1 & Hn1 & Hb1) ib dB2 lv2.
  destruct file_blocks_spec as [HndX HX].
  destruct (ti_inode_meta bino HI i Hi) as [Hpi Hri]. pose proof (inode_block_meta _ _ _ Hi) as Hib.
  destruct (words_lt i) as [Hwr Hwn].
  assert (forall n, rl n = RMeta \/ (exists j l q, rl n = RNode j l q /\ j <> i) ->
            n ∉ file_blocks ++ fl) as Hout.
  { intros n Hn [Hx|Hx]%elem_of_app.
    - destruct (HX n Hx) as (_ & _ & l & q & Hr). destruct Hn as [Hn|(j & l' & q' & Hn & Hj)]; congruence.
    - destruct (ti_fl _ _ _ _ _ HI n Hx) as [_ Hr]. destruct Hn as [Hn|(j & l' & q' & Hn & Hj)]; congruence. }
  assert (forall n, n <> 0 -> n <> inode_block i -> rl n = RMeta \/ (exists j l q, rl n = RNode j l q /\ j <> i) ->
            blk bino dB2 n = blk bino dB n) as Hsame.
  { intros n H0 Hni Hn. unfold dB2. rewrite blk_insert_ne by congruence. apply Hb1; [done|by apply Hout]. }
  assert (blk bino dB2 0 = blk bino dB1 0) as E0 by (unfold dB2; apply blk_insert_ne; lia).
  assert (n_inodes bino dB2 = n_inodes bino dB) as Hn2 by (unfold n_inodes; by rewrite E0, Hn1).
  assert (forall j, valid_ino bino dB2 j <-> valid_ino bino dB j) as Hv
    by (intros j; unfold valid_ino; by rewrite Hn2).
  assert (block_wf (blk bino dB (inode_block i))) as Hwi by (apply blk_wf, HI).
  assert (forall j w, valid_ino bino dB j -> get32 (blk bino dB2 (inode_block j)) w =
    if decide (inode_block j = inode_block i) then get32 ib w
    else get32 (blk bino dB (inode_block j)) w) as Hword.
  { intros j w Hj. destruct (decide (inode_block j = inode_block i)) as [E|E].
    - rewrite E. unfold dB2. by rewrite blk_insert_eq.
    - rewrite Hsame; [done| |done|].
      + pose proof (inode_block_meta _ _ _ Hj). lia.
      + left. by destruct (ti_inode_meta bino HI j Hj). }
  assert (forall w, get32 ib w = if decide (w = root_word (inode_idx i) \/ w = nblocks_word (inode_idx i))
            then 0 else get32 (blk bino dB (inode_block i)) w) as Hibw.
  { intros w. unfold ib.
    destruct (decide (w = root_word (inode_idx i))) as [->|H1].
    { rewrite decide_True by tauto. apply get32_set32_eq; [by apply set32_wf|done|by split]. }
    rewrite get32_set32_ne; [|by apply set32_wf|done|congruence].
    destruct (decide (w = nblocks_word (inode_idx i))) as [->|H2].
    { rewrite decide_True by tauto. by apply get32_set32_eq. }
    rewrite decide_False by tauto. apply get32_set32_ne; [done|done|congruence]. }
  assert (forall j, valid_ino bino dB j ->
    inode_size bino dB2 j = (if decide (j = i) then 0 else inode_size bino dB j) /\
    inode_root bino dB2 j = (if decide (j = i) then 0 else inode_root bino dB j)) as Hino.
  { intros j Hj. unfold inode_size, inode_root. rewrite !Hword, !Hibw by done.
    destruct (decide (j = i)) as [->|Hne].
    - by rewrite !decide_True by tauto.
    - destruct (decide (inode_block j = inode_block i)) as [E|E]; [|done].
      assert (inode_idx j <> inode_idx i) as Hidx.
      { intros E2. apply Hne. apply inode_slot_inj; [done|done|apply Hj|apply Hi]. }
      rewrite E. unfold root_word, nblocks_word.
      rewrite !decide_False by lia. done. }
  assert (forall j k p, valid_ino bino dB j -> j <> i -> (k <= lv j)%nat -> 0 <= p ->
            fnode bino dB2 j k p = fnode bino dB j k p) as Hfn.
  { intros j k p Hj Hne Hk Hp. apply (fnode_same bino HI dB2 j Hj); [|intros b l q Hb|done|done].
    - destruct (Hino j Hj) as [_ ->]. by rewrite decide_False.
    - apply Hsame; [| |right; by exists j, (Datatypes.S l), q].
      + intros ->. destruct (ti_zero_meta bino HI). congruence.
      + intros ->. congruence. }
  assert (forall k p, fnode bino dB2 i k p = 0) as Hfi.
  { intros k p. unfold fnode. destruct (Hino i Hi) as [_ ->]. rewrite decide_True by done.
    apply node_hole. }
  split; [|split; [done|]].
  - exists (fun b => if decide (b ∈ file_blocks) then RFree else rl b).
    assert (same_dom dB dB2) as Hd2.
    { etransitivity; [exact Hd1|]. apply same_dom_insert. by apply Hd1. }
    assert (forall b, present bino dB2 b <-> present bino dB b) as Hp by (intros b; symmetry; apply Hd2).
    split.
    + apply vdisk_wf_insert; [done|by apply Hd1|]. by repeat apply set32_wf.
    + intros m. rewrite E0, Hn1, Hp. intros Hm. destruct (ti_meta _ _ _ _ _ HI m Hm) as [A1 A2].
      split; [done|]. rewrite decide_False; [done|]. intros Hx.
      apply (Hout m); [by left|apply elem_of_app; by left].
    + rewrite E0. eapply free_at_frame; [|exact Hf1]. intros n Hn. apply blk_insert_ne.
      intros <-. rewrite Hp1 in Hn. apply (Hout (inode_block i)); [by left|done].
    + rewrite Hp1. apply NoDup_app. split_and!; [done| |apply HI]. intros x Hx Hfl.
      destruct (HX x Hx) as (_ & _ & l & q & Hr). destruct (ti_fl _ _ _ _ _ HI x Hfl). congruence.
    + intros b Hb. rewrite Hp1 in Hb. rewrite Hp. destruct (decide (b ∈ file_blocks)) as [Hx|Hx].
      * by destruct (HX b Hx) as (_ & ? & _).
      * apply elem_of_app in Hb as [Hb|Hb]; [done|]. by apply (ti_fl _ _ _ _ _ HI).
    + intros j k p Hj. rewrite Hv in Hj. unfold lv2. destruct (decide (j = i)) as [->|Hne].
      * intros _ _ Hc. by rewrite Hfi in Hc.
      * intros Hk Hp0. rewrite Hfn by done. intros H0. rewrite Hp.
        destruct (ti_node _ _ _ _ _ HI j k p Hj Hk Hp0 H0) as [A1 A2]. split; [done|].
        rewrite decide_False; [done|]. intros Hx.
        apply (Hout (fnode bino dB j k p)); [right; eauto 10|apply elem_of_app; by left].
    + intros j p Hj Hs Hp0. rewrite Hv in Hj. unfold lv2. destruct (decide (j = i)) as [->|Hne]; [apply Hfi|].
      rewrite Hfn by done. destruct (Hino j Hj) as [Es _]. rewrite Es, decide_False in Hs by done.
      by apply (ti_beyond _ _ _ _ _ HI).
  - intros j Hj. destruct (Hino j Hj) as [A1 A2]. split_and!; [done|done|]. intros o Ho.
    unfold content, lv2. destruct (decide (j = i)) as [->|Hne]; [by rewrite Hfi, decide_True|].
    rewrite Hfn by done. decide_goal as H0; [done|].
    destruct (ti_node _ _ _ _ _ HI j (lv j) o Hj) as [B1 B2]; [done..|].
    apply Hsame; [done| |right; eauto 10]. intros E. rewrite E in B2. congruence.
Qed.
End file.

(** Setting the size of a file to zero. *)
Definition f_truncate (f : files) (ino : Z) : files :=
  Files (f_ninodes f) (fun i => if decide (i = ino) then 0 else f_size f i)
    (fun i o => if decide (i = ino) then null_block else f_data f i o).

Lemma treedisk_setsize_zero (ts : st) (fl : list Z) (f : files) (ino : Z) :
  tree_repr (R:=R) bino ts fl f -> is_u32 ino -> ino < f_ninodes f -> f_size f ino <= 16777216 ->
  wp (treedisk_setsize ino 0) ts (fun r ts' => r = f_size f ino /\ exists freed_blocks fl',
    tree_repr (R:=R) bino ts' fl' (f_truncate f ino) /\ fl' ≡ₚ freed_blocks ++ fl).
Proof.
  intros (dB & Hs & lv & rl & HI & Hn & Hf) Hino Hi Hsz.
  assert (valid_ino bino dB ino) as Hv by (split; [apply Hino|by rewrite Hn]).
  destruct (Hf ino Hv) as (Hlv & Esz & Hroot & Hdata).
  assert (is_u32 (f_size f ino)) as [Hu _] by (rewrite <- Esz; apply get32_u32).
  unfold treedisk_setsize, treedisk_setsize_fuel. step.
  wp_use (get_snapshot_ok bino lv rl fl ts dB ino Hs HI Hino) as [-> Hs'].
  rewrite Hn, decide_True by done. rewrite sn_nblocks_of, Esz.
  destruct (decide (0 = f_size f ino)) as [E0|E0].
  - (* the file was empty already *)
    step. rewrite <- E0. split; [done|]. exists [], fl. split; [|done]. exists dB. split; [done|].
    exists lv, rl. split; [done|]. split; [done|]. intros j Hj. destruct (Hf j Hj) as (A1 & A2 & A3 & A4).
    simpl. destruct (decide (j = ino)) as [->|Hne]; [|done]. split_and!; [done|by rewrite A2|done|].
    intros off Ho. unfold content. rewrite decide_True; [done|].
    apply (ti_beyond _ _ _ _ _ HI); [done|lia|done].
  - rewrite decide_False by lia. rewrite Esz in Hlv. step.
    wp_use (free_file_ok HI ino Hv _ Hs') as (dB1 & fl1 & Hs1 & Esn & Hf1 & Hp1 & Hc1);
      [by rewrite Esz|by rewrite Esz|by rewrite Esz|].
    assert (vdisk_wf dB1) as Hw1 by (eapply law_wf, Hs1).
    destruct (truncate_inv HI ino Hv dB1 fl1 Hw1 Hf1 Hp1 Hc1) as ((rl2 & HI2) & Hn2 & Hf2).
    destruct (ti_inode_meta bino HI ino Hv) as [Hpi _].
    assert (present bino dB1 (inode_block ino)) as Hpi1 by (by eapply only_changed_present).
    destruct (words_lt ino) as [Hwr Hwn].
    step. rewrite Esn. cbn [sn_set_root sn_set_nblocks sn_inode_blockno sn_inodeblock sn_inode snapshot_of].
    assert (block_wf (blk bino dB (inode_block ino))) as Hwi by (apply blk_wf, HI).
    wp_use (td_write_or_panic_ok bino _ dB1 (inode_block ino)
      (set32 (set32 (blk bino dB (inode_block ino)) (nblocks_word (inode_idx ino)) 0)
         (root_word (inode_idx ino)) 0) Hs1 Hpi1) as Hs2; [by repeat apply set32_wf|].
    step. split; [apply i32_small; lia|]. exists (file_blocks (lv:=lv) (dB:=dB) ino), fl1.
    split; [|done]. eexists. split; [exact Hs2|]. eexists _, rl2. split; [exact HI2|].
    split; [by rewrite Hn2|]. intros j Hj.
    assert (valid_ino bino dB j) as Hj0 by (unfold valid_ino in *; by rewrite <- Hn2).
    destruct (Hf2 j Hj0) as (A1 & A2 & A3). destruct (Hf j Hj0) as (B1 & B2 & B3 & B4).
    simpl. rewrite A1, A2. destruct (decide (j = ino)) as [->|Hne].
    + split_and!; [done|done|lia|]. intros o Ho. by rewrite A3 by done.
    + split_and!; [done|done|done|]. intros o Ho. rewrite A3 by done. auto.
Qed.
End free.
