(* ===== verification/TreeCreate.v ===== *)
(** treedisk.c: creating a file system. *)
From stdpp Require Import base numbers list gmap.
From Stdlib Require Import ZArith Lia Permutation.
From S2P Require Import Prelude BlockStore TreeDisk TreeInv TreeSpec.

(** * One block of the initial free list *)

Lemma fill_refs_ok (n : nat) : forall (i : nat) (b : block) (nf nblocks : Z),
  block_wf b -> (i + n <= 256)%nat -> 0 < nf <= nblocks -> nblocks < two32 ->
  let '(b', nf') := fill_refs n i b nf nblocks in
  block_wf b' /\ nf <= nf' <= nblocks /\ (nf' < nblocks -> nf' = nf + Z.of_nat n) /\
  (forall j, (j < i)%nat -> get32 b' j = get32 b j) /\
  filter (fun r => r <> 0) (get32 b' <$> seq i n) = seqZ nf (nf' - nf).
Proof.
  induction n as [|n IH]; intros i b nf nblocks Hb Hi Hnf Hu; cbn [fill_refs].
  - rewrite Z.sub_diag. split_and!; try done; lia.
  - destruct (decide (nf < nblocks)) as [Hlt|Hge].
    + specialize (IH (S i) (set32 b i nf) (nf + 1) nblocks).
      destruct (fill_refs n (S i) (set32 b i nf) (nf + 1) nblocks) as [b' nf'].
      destruct IH as (H1 & H2 & H3 & H4 & H5); [by apply set32_wf; [|lia]|lia|lia|done|].
      assert (is_u32 nf) as Hn by (unfold is_u32; lia).
      split_and!; [done|lia|lia|lia| |].
      * intros j Hj. rewrite H4 by lia. apply get32_set32_ne; [done|lia|lia].
      * cbn [seq]. csimpl. rewrite H4, get32_set32_eq by (done || lia).
        rewrite filter_cons_True by lia. rewrite H5.
        rewrite (seqZ_cons nf) by lia. f_equal. f_equal; lia.
    + specialize (IH (S i) (set32 b i 0) nf nblocks).
      destruct (fill_refs n (S i) (set32 b i 0) nf nblocks) as [b' nf'].
      destruct IH as (H1 & H2 & H3 & H4 & H5); [by apply set32_wf; [|lia]|lia|lia|done|].
      split_and!; [done|lia|lia|lia| |].
      * intros j Hj. rewrite H4 by lia. apply get32_set32_ne; [done|lia|lia].
      * cbn [seq]. csimpl. rewrite H4, get32_set32_eq by (done || lia || (split; reflexivity)).
        rewrite filter_cons_False by lia. done.
Qed.

Section create.
Context {S : Type} {R : S -> vdisk -> Prop} `{!BlockStore S, !Lawful S R} (bino : Z).

Lemma store_write_ok (s : S) (dB : vdisk) n b :
  R s dB -> present bino dB n -> block_wf b ->
  wp (bs_write bino n b) s (fun r s' => r = 0 /\ R s' (<[(bino, n):=b]> dB)).
Proof. intros HR Hp Hb. by apply law_write. Qed.

(** The list takes in every block from [next_free] on, and no other. *)
Lemma setup_freelist_ok (fuel : nat) :
  forall (s : S) (dB : vdisk) (nf nblocks n0 head : Z) (data : block) (fl : list Z),
  R s dB -> block_wf data -> 0 < n0 <= nf -> nf <= nblocks < two32 -> nblocks - nf < Z.of_nat fuel ->
  (forall n, n0 <= n < nblocks -> present bino dB n) ->
  free_at bino dB head fl -> fl ≡ₚ seqZ n0 (nf - n0) ->
  wp (setup_freelist fuel bino nf nblocks head data) s (fun h s' => exists dB' fl',
    R s' dB' /\ free_at bino dB' h fl' /\ fl' ≡ₚ seqZ n0 (nblocks - n0) /\ same_dom dB dB' /\
    forall n, ~ (nf <= n < nblocks) -> blk bino dB' n = blk bino dB n).
Proof.
  induction fuel as [|fuel IH]; intros s dB nf nblocks n0 head data fl HR Hd Hn0 Hnf Hfuel Hp Hf Hfl;
    [lia|]. cbn [setup_freelist].
  destruct (decide (nf < nblocks)) as [Hlt|Hge].
  2:{ step. assert (nf = nblocks) as -> by lia. exists dB, fl. by split_and!. }
  assert (is_u32 head) as Huh.
  { destruct Hf as [|h fl0 Hh _]; [by split|].
    assert (h ∈ seqZ n0 (nf - n0)) as Hin by (rewrite <- Hfl; by left).
    apply elem_of_seqZ in Hin. unfold is_u32. lia. }
  assert (block_wf (set32 data 0 head)) as Hd0 by (apply set32_wf; [done|lia]).
  pose proof (fill_refs_ok (REFS_PER_BLOCK - 1) 1 (set32 data 0 head) (nf + 1) nblocks Hd0) as Hfill.
  destruct (fill_refs _ _ _ _ _) as [data' nf'].
  destruct Hfill as (Hd' & Hnf' & _ & Hlow & Hent); [change REFS_PER_BLOCK with 256%nat; lia|lia|lia|].
  change (REFS_PER_BLOCK - 1)%nat with 255%nat in Hent.
  assert (present bino dB nf) as Hpn by (apply Hp; lia).
  step. wp_use (store_write_ok s dB nf data' HR Hpn Hd') as [-> HR1]. rewrite decide_False by lia.
  set (dB1 := <[(bino, nf):=data']> dB) in *.
  assert (free_at bino dB1 nf (nf :: seqZ (nf + 1) (nf' - (nf + 1)) ++ fl)) as Hf1.
  { replace (seqZ (nf + 1) (nf' - (nf + 1))) with (entries (blk bino dB1 nf))
      by (unfold dB1; rewrite blk_insert_eq; exact Hent).
    constructor; [lia|]. unfold dB1 at 2. rewrite blk_insert_eq, Hlow by lia.
    rewrite get32_set32_eq by (done || lia). eapply free_at_frame; [|exact Hf].
    intros n Hn. apply blk_insert_ne. rewrite Hfl in Hn. apply elem_of_seqZ in Hn. lia. }
  wp_use (IH _ dB1 nf' nblocks n0 nf data' _ HR1 Hd') as Hpost;
    [lia|lia|lia| |exact Hf1| |].
  - intros n Hn. apply present_insert; [done|]. by apply Hp.
  - replace (nf' - n0) with ((nf - n0) + (1 + (nf' - (nf + 1)))) by lia.
    rewrite seqZ_app by lia. replace (n0 + (nf - n0)) with nf by lia.
    rewrite (seqZ_cons nf) by lia. replace (Z.pred (1 + (nf' - (nf + 1)))) with (nf' - (nf + 1)) by lia.
    rewrite app_comm_cons. etransitivity; [apply Permutation_app_comm|]. by apply Permutation_app_tail.
  - destruct Hpost as (dB2 & fl2 & A1 & A2 & A3 & A4 & A5). exists dB2, fl2.
    split_and!; [done|done|done| |].
    + etransitivity; [|exact A4]. by apply same_dom_insert.
    + intros n Hn. rewrite A5 by lia. apply blk_insert_ne. lia.
Qed.

Lemma clear_inodes_ok (n : nat) : forall (s : S) (dB : vdisk) (i : Z),
  R s dB -> (forall m, i <= m < i + Z.of_nat n -> present bino dB m) ->
  wp (clear_inodes n bino i) s (fun ok s' => ok = true /\ exists dB',
    R s' dB' /\ same_dom dB dB' /\
    forall m, blk bino dB' m = if decide (i <= m < i + Z.of_nat n) then null_block else blk bino dB m).
Proof.
  induction n as [|n IH]; intros s dB i HR Hp; cbn [clear_inodes].
  { step. split; [done|]. exists dB. split_and!; [done|done|]. intros m. by rewrite decide_False by lia. }
  assert (present bino dB i) as Hpi by (apply Hp; lia).
  step. wp_use (store_write_ok s dB i null_block HR Hpi null_block_wf) as [-> HR1].
  rewrite decide_False by lia. wp_use (IH _ _ (i + 1) HR1) as Hpost.
  - intros m Hm. apply present_insert; [done|]. apply Hp. lia.
  - destruct Hpost as (-> & dB' & A1 & A2 & A3). split; [done|]. exists dB'. split_and!; [done| |].
    + etransitivity; [|exact A2]. by apply same_dom_insert.
    + intros m. rewrite A3. destruct (decide (i = m)) as [<-|Hm].
      * rewrite decide_False by lia. rewrite decide_True by lia. apply blk_insert_eq.
      * rewrite blk_insert_ne by done. repeat case_decide; try done; lia.
Qed.

(** A file system in which every file is empty. *)
Definition f_empty (ninodes : Z) : files := Files ninodes (fun _ => 0) (fun _ _ => null_block).

Lemma empty_disk_files (dB : vdisk) (nib nblocks : Z) (fl : list Z) :
  vdisk_wf dB -> (forall n, 0 <= n < nblocks -> present bino dB n) -> 0 <= nib < nblocks ->
  sb_n_inodeblocks (blk bino dB 0) = nib ->
  free_at bino dB (sb_free_list (blk bino dB 0)) fl -> fl ≡ₚ seqZ (nib + 1) (nblocks - (nib + 1)) ->
  (forall m, 1 <= m <= nib -> blk bino dB m = null_block) ->
  disk_files bino fl (f_empty (nib * INODES_PER_BLOCK)) dB.
Proof.
  intros Hw Hp Hnib En Hf Hfl Hnull.
  assert (forall i, valid_ino bino dB i -> inode_root bino dB i = 0 /\ inode_size bino dB i = 0) as Hino.
  { intros i Hi. pose proof (inode_block_meta bino dB i Hi) as Hb. rewrite En in Hb.
    unfold inode_root, inode_size. by rewrite Hnull, !get32_null. }
  assert (forall i k p, valid_ino bino dB i -> fnode bino dB i k p = 0) as Hnode.
  { intros i k p Hi. unfold fnode. rewrite (proj1 (Hino i Hi)). apply node_hole. }
  exists (fun _ => 0%nat), (fun b => if decide (b <= nib) then RMeta else RFree).
  split; [split|split; [unfold n_inodes; by rewrite En|]].
  - done.
  - intros m. rewrite En. intros Hm. split; [apply Hp; lia|]. by rewrite decide_True by lia.
  - done.
  - rewrite Hfl. apply NoDup_seqZ.
  - intros b Hb. rewrite Hfl in Hb. apply elem_of_seqZ in Hb. split; [apply Hp; lia|].
    by rewrite decide_False by lia.
  - intros i k p Hi _ _ Hc. by rewrite Hnode in Hc.
  - intros i p Hi _ _. by apply Hnode.
  - intros i Hi. destruct (Hino i Hi) as [_ E]. rewrite E. split_and!; [done|done|simpl; lia|].
    intros off _. unfold content. by rewrite Hnode, decide_True.
Qed.

Lemma treedisk_create_ok (s : S) (dB : vdisk) (nblocks ninodes : Z) :
  R s dB -> size_of dB bino nblocks -> nblocks < 2147483648 -> is_u32 ninodes ->
  let nib := (ninodes + 127) / 128 in
  nib + 2 <= nblocks -> sb_n_inodeblocks (blk bino dB 0) = 0 ->
  wp (treedisk_create bino ninodes) s (fun r s' => r = 0 /\ exists dB' fl,
    R s' dB' /\ disk_files bino fl (f_empty (nib * INODES_PER_BLOCK)) dB' /\
    fl ≡ₚ seqZ (nib + 1) (nblocks - (nib + 1)) /\ same_dom dB dB').
Proof.
  intros HR Hsz Hnb Hin nib Hroom H0. unfold treedisk_create.
  change (INODES_PER_BLOCK) with 128. replace (ninodes + 128 - 1) with (ninodes + 127) by lia. fold nib.
  assert (0 <= nib <= 33554433) as Hnib.
  { unfold nib, is_u32, two32 in *. split; [apply Z.div_pos; lia|apply Z.div_le_upper_bound; lia]. }
  assert (forall n, 0 <= n < nblocks -> present bino dB n) as Hp by (intros n Hn; by apply Hsz).
  step. wp_use (law_getsize s dB bino nblocks HR Hsz) as [-> HR1]; [lia|].
  rewrite (u32_small nib), (u32_small nblocks), (u32_small (nib + 2)), (u32_small (nib + 1))
    by (unfold is_u32, two32; lia).
  rewrite decide_False by lia. assert (present bino dB 0) as Hp0 by (apply Hp; lia).
  step. wp_use (law_read _ dB bino 0 (blk bino dB 0) null_block HR1) as [-> HR2];
    [by apply blk_present|apply null_block_wf|].
  cbn [fst snd]. rewrite (decide_False (P := 0 < 0)) by lia. rewrite decide_True by done.
  step. wp_use (setup_freelist_ok _ _ dB (nib + 1) nblocks (nib + 1) 0 null_block [] HR2 null_block_wf)
    as (dB1 & fl & HR3 & Hf1 & Hfl & Hd1 & Hb1);
    [lia|unfold two32; lia|lia|intros n Hn; apply Hp; lia|constructor|by rewrite Z.sub_diag|].
  assert (block_wf (set32 (set32 null_block 0 nib) 1 a)) as Hwsb
    by (apply set32_wf; [apply set32_wf; [apply null_block_wf|lia]|lia]).
  assert (present bino dB1 0) as Hp1 by (by apply Hd1).
  step. wp_use (store_write_ok _ dB1 0 _ HR3 Hp1 Hwsb) as [-> HR4]. rewrite decide_False by lia.
  set (dB2 := <[(bino, 0):=set32 (set32 null_block 0 nib) 1 a]> dB1) in *.
  assert (same_dom dB1 dB2) as Hd2 by (by apply same_dom_insert).
  step. wp_use (clear_inodes_ok (Z.to_nat nib) _ dB2 1 HR4) as (-> & dB3 & HR5 & Hd3 & Hb3).
  { intros m Hm. apply Hd2, Hd1, Hp. lia. }
  step. split; [done|]. exists dB3, fl.
  assert (same_dom dB dB3) as Hd by (etransitivity; [exact Hd1|]; by etransitivity).
  split_and!; [done| |done|done].
  assert (is_u32 a) as Hua.
  { destruct Hf1 as [|h fl0 Hh _]; [by split|].
    assert (h ∈ seqZ (nib + 1) (nblocks - (nib + 1))) as Hin' by (rewrite <- Hfl; by left).
    apply elem_of_seqZ in Hin'. unfold is_u32, two32. lia. }
  assert (blk bino dB3 0 = set32 (set32 null_block 0 nib) 1 a) as E0.
  { rewrite Hb3, decide_False by lia. apply blk_insert_eq. }
  assert (block_wf (set32 null_block 0 nib)) as Hw0 by (apply set32_wf; [apply null_block_wf|lia]).
  apply (empty_disk_files dB3 nib nblocks); [by eapply law_wf| |lia| | |done|].
  - intros n Hn. by apply Hd, Hp.
  - rewrite E0. unfold sb_n_inodeblocks. rewrite get32_set32_ne by (done || lia).
    apply get32_set32_eq; [apply null_block_wf|lia|unfold is_u32, two32; lia].
  - rewrite E0. unfold sb_free_list. rewrite get32_set32_eq by (done || lia).
    eapply free_at_frame; [|exact Hf1]. intros n Hn. rewrite Hfl in Hn. apply elem_of_seqZ in Hn.
    rewrite Hb3, decide_False by lia. apply blk_insert_ne. lia.
  - intros m Hm. by rewrite Hb3, decide_True by lia.
Qed.
End create.
