(* ===== verification/TreeProps.v ===== *)
(** The properties of the tree file system, for its clients: sequences of
    operations against the abstract files, and what happens at the limits. *)
From stdpp Require Import base numbers list gmap.
From Stdlib Require Import ZArith Lia Permutation.
From S2P Require Import Prelude BlockStore RamDisk ClockDisk TreeDisk TreeInv TreeSpec TreeFree TreeCreate.

(** * Sequences of operations *)

Inductive fs_op : Type :=
| OpRead (ino off : Z)
| OpWrite (ino off : Z) (b : block)
| OpTruncate (ino : Z)
| OpGetsize (ino : Z).

Definition exec_op {S} `{!BlockStore S} (o : fs_op) : M (treedisk_state S) reply :=
  match o with
  | OpRead ino off => x ← treedisk_read ino off null_block; mret (Data x.1 x.2)
  | OpWrite ino off b => r ← treedisk_write ino off b; mret (Status r)
  | OpTruncate ino => r ← treedisk_setsize ino 0; mret (Status r)
  | OpGetsize ino => r ← treedisk_getsize ino; mret (Status r)
  end.

Fixpoint exec_ops {S} `{!BlockStore S} (os : list fs_op) : M (treedisk_state S) (list reply) :=
  match os with
  | [] => mret []
  | o :: os => r ← exec_op o; rs ← exec_ops os; mret (r :: rs)
  end.

(** What the operations mean on the abstract files. *)
Definition spec_op (f : files) (o : fs_op) : reply * files :=
  match o with
  | OpRead ino off =>
      (if decide (ino < f_ninodes f /\ off < f_size f ino) then Data 0 (f_data f ino off)
       else Data (-1) null_block, f)
  | OpWrite ino off b => (Status 0, f_write f ino off b)
  | OpTruncate ino => (Status (f_size f ino), f_truncate f ino)
  | OpGetsize ino => (Status (if decide (ino < f_ninodes f) then f_size f ino else -1), f)
  end.

Fixpoint spec_ops (f : files) (os : list fs_op) : list reply * files :=
  match os with
  | [] => ([], f)
  | o :: os =>
      let '(r, f1) := spec_op f o in
      let '(rs, f2) := spec_ops f1 os in (r :: rs, f2)
  end.

(** Operations within the limits of the implementation. *)
Definition valid_op (f : files) (o : fs_op) : Prop :=
  match o with
  | OpRead ino off => is_u32 ino /\ is_u32 off
  | OpWrite ino off b => 0 <= ino < f_ninodes f /\ is_u32 ino /\ 0 <= off /\ is_u32 (off + 1) /\ block_wf b
  | OpTruncate ino => 0 <= ino < f_ninodes f /\ is_u32 ino /\ f_size f ino <= 16777216
  | OpGetsize ino => is_u32 ino /\ f_size f ino < 2147483648
  end.

Fixpoint valid_ops (f : files) (os : list fs_op) : Prop :=
  match os with
  | [] => True
  | o :: os => valid_op f o /\ valid_ops (spec_op f o).2 os
  end.

(** The blocks that the writes of a sequence can take off the free list. *)
Fixpoint budget (f : files) (os : list fs_op) : nat :=
  match os with
  | [] => 0
  | o :: os =>
      (match o with OpWrite ino off _ => blocks_needed f ino off | _ => 0 end
       + budget (spec_op f o).2 os)%nat
  end.

Section ops.
Context {S : Type} {R : S -> vdisk -> Prop} `{!BlockStore S, !Lawful S R} (bino : Z).
Abbreviation st := (treedisk_state S).
Abbreviation repr := (tree_repr (R:=R) bino).

Lemma treedisk_getsize_ok (ts : st) (fl : list Z) (f : files) (ino : Z) :
  repr ts fl f -> is_u32 ino -> f_size f ino < 2147483648 ->
  wp (treedisk_getsize ino) ts (fun r ts' => repr ts' fl f /\
    r = if decide (ino < f_ninodes f) then f_size f ino else -1).
Proof.
  intros (dB & Hs & lv & rl & HI & Hn & Hf) Hino Hsz. unfold treedisk_getsize. step.
  wp_use (get_snapshot_ok bino lv rl fl ts dB ino Hs HI Hino) as [-> Hs'].
  assert (forall ts', st_repr (R:=R) bino ts' dB -> repr ts' fl f) as Hrep
    by (intros ts' H; exists dB; split; [done|by exists lv, rl]).
  rewrite Hn. destruct (decide (ino < f_ninodes f)) as [Hi|Hi]; step; split; auto.
  assert (valid_ino bino dB ino) as Hv by (split; [apply Hino|by rewrite Hn]).
  destruct (Hf ino Hv) as (_ & Esz & _). rewrite sn_nblocks_of.
  assert (is_u32 (inode_size bino dB ino)) as [Hu _] by apply get32_u32.
  rewrite Esz in Hu |- *. apply i32_small. lia.
Qed.

Lemma exec_op_ok (ts : st) (fl : list Z) (f : files) (o : fs_op) :
  repr ts fl f -> valid_op f o -> (budget f [o] <= length fl)%nat ->
  wp (exec_op o) ts (fun r ts' => r = (spec_op f o).1 /\ exists fl',
    repr ts' fl' (spec_op f o).2 /\ (length fl <= length fl' + budget f [o])%nat).
Proof.
  intros Hr Hv Hb. destruct o as [ino off|ino off b|ino|ino]; cbn [exec_op budget spec_op fst snd] in *; step.
  - destruct Hv as [Hi Ho].
    wp_use (treedisk_read_ok bino ts fl f ino off null_block Hr Hi Ho null_block_wf) as [Hr' ->].
    step. split; [by destruct (decide _)|]. exists fl. split; [done|lia].
  - destruct Hv as (Hi & Hu & Ho & Ho1 & Hw). rewrite Nat.add_0_r in *.
    wp_use (treedisk_write_ok bino ts fl f ino off b Hr Hu Ho Ho1 Hw) as [-> Hpost]; [lia|done|].
    by step.
  - destruct Hv as (Hi & Hu & Hsz).
    wp_use (treedisk_setsize_zero bino ts fl f ino Hr Hu) as [-> (X & fl' & Hr' & Hp)]; [lia|done|].
    step. split; [done|]. exists fl'. split; [done|]. rewrite Hp, length_app. lia.
  - destruct Hv as [Hu Hsz].
    wp_use (treedisk_getsize_ok ts fl f ino Hr Hu Hsz) as [Hr' ->].
    step. split; [done|]. exists fl. split; [done|lia].
Qed.

Lemma exec_ops_ok (os : list fs_op) : forall (ts : st) (fl : list Z) (f : files),
  repr ts fl f -> valid_ops f os -> (budget f os <= length fl)%nat ->
  wp (exec_ops os) ts (fun rs ts' => rs = (spec_ops f os).1 /\ exists fl',
    repr ts' fl' (spec_ops f os).2).
Proof.
  induction os as [|o os IH]; intros ts fl f Hr Hv Hb; cbn [exec_ops spec_ops]; step; [by eauto|].
  destruct Hv as [Hv1 Hv2]. cbn [budget] in Hb.
  wp_use (exec_op_ok ts fl f o Hr Hv1) as [-> (fl1 & Hr1 & Hl1)]; [simpl; lia|].
  cbn [budget] in Hl1. destruct (spec_op f o) as [r f1]. cbn [fst snd] in *.
  step. wp_use (IH _ fl1 f1 Hr1 Hv2) as [-> (fl2 & Hr2)]; [lia|]. step.
  destruct (spec_ops f1 os) as [rs f2]. by eauto.
Qed.
End ops.

(** * Properties *)

Section properties.
Context {S : Type} {R : S -> vdisk -> Prop} `{!BlockStore S, !Lawful S R} (bino : Z).
Abbreviation st := (treedisk_state S).
Abbreviation repr := (tree_repr (R:=R) bino).

(** C1. A file system created on a store that has no file system yet, and then
    used by any sequence of reads, writes, truncations and size queries within
    the limits of the implementation, gives exactly the replies of the
    abstract files: every file is a zero-filled array of blocks, independent
    of all other files. The sequence may use every block that the inodes do
    not take. *)
Theorem treedisk_fs_correct (s : S) (dB : vdisk) (nblocks ninodes : Z) (os : list fs_op) :
  let nib := (ninodes + 127) / 128 in
  R s dB -> size_of dB bino nblocks -> nblocks < 2147483648 -> is_u32 ninodes ->
  nib + 2 <= nblocks -> sb_n_inodeblocks (blk bino dB 0) = 0 ->
  valid_ops (f_empty (nib * INODES_PER_BLOCK)) os ->
  Z.of_nat (budget (f_empty (nib * INODES_PER_BLOCK)) os) <= nblocks - (nib + 1) ->
  wp (treedisk_create bino ninodes) s (fun r s' => r = 0 /\
    wp (exec_ops os) (treedisk_init s' bino)
      (fun rs _ => rs = (spec_ops (f_empty (nib * INODES_PER_BLOCK)) os).1)).
Proof.
  intros nib HR Hsz Hnb Hin Hroom H0 Hv Hb.
  wp_use (treedisk_create_ok bino s dB nblocks ninodes HR Hsz Hnb Hin Hroom H0)
    as [-> (dB' & fl & HR' & Hf & Hfl & _)].
  split; [done|]. wp_use (exec_ops_ok (R:=R) bino os _ fl) as [-> _]; [|exact Hv| |done].
  - exists dB'. split; [by split|exact Hf].
  - rewrite Hfl, length_seqZ. fold nib. lia.
Qed.

(** After a write, a read of any block of any file returns the data written
    if it is the block written, and otherwise what it would have returned
    before; blocks skipped by a write beyond the end read as null blocks. *)
Lemma treedisk_write_read (ts : st) (fl : list Z) (f : files) (ino off : Z) (b : block)
    (ino' off' : Z) (buf : block) :
  repr ts fl f -> is_u32 ino -> 0 <= off -> is_u32 (off + 1) -> block_wf b -> ino < f_ninodes f ->
  (blocks_needed f ino off <= length fl)%nat ->
  is_u32 ino' -> is_u32 off' -> block_wf buf ->
  wp (treedisk_write ino off b;; treedisk_read ino' off' buf) ts (fun x _ =>
    x = if decide (ino' = ino /\ off' = off) then (0, b)
        else if decide (ino' < f_ninodes f /\ off' < f_size f ino') then (0, f_data f ino' off')
        else if decide (ino' = ino /\ off' < off) then (0, f_data f ino' off') else (-1, buf)).
Proof.
  intros Hr Hu Ho Ho1 Hb Hi Hlen Hu' Ho' Hbuf. step.
  wp_use (treedisk_write_ok bino ts fl f ino off b Hr Hu Ho Ho1 Hb Hi Hlen) as [_ (fl' & Hr' & _)].
  wp_use (treedisk_read_ok bino _ fl' _ ino' off' buf Hr' Hu' Ho' Hbuf) as [_ ->].
  simpl. destruct (decide (ino' = ino /\ off' = off)) as [[-> ->]|Hne].
  { rewrite (decide_True (P := ino = ino)) by done. by rewrite decide_True by lia. }
  destruct (decide (ino' = ino)) as [->|Hni].
  - destruct (decide (off' < f_size f ino)) as [Hlt|Hge].
    + rewrite (decide_True (P := ino < _ /\ off' < Z.max _ _)) by lia.
      by rewrite (decide_True (P := ino < _ /\ off' < f_size f ino)) by lia.
    + rewrite (decide_False (P := ino < _ /\ off' < f_size f ino)) by lia.
      destruct (decide (off' < off)) as [Hlt|Hge'].
      * rewrite (decide_True (P := ino < _ /\ _)) by lia. by rewrite decide_True.
      * rewrite (decide_False (P := ino < _ /\ _)) by (intros [_ ?]; apply Hne; lia).
        rewrite decide_False; [done|]. by intros [_ ?].
  - rewrite (decide_False (P := ino' = ino /\ off' < off)) by (by intros [? _]). done.
Qed.

(** Truncating a file of up to 2^24 blocks returns its old size; after it
    the file reads as empty, every other file as before, and the free list has
    kept all its blocks and gained those of the file. *)
Lemma treedisk_truncate_read (ts : st) (fl : list Z) (f : files) (ino ino' off' : Z) (buf : block) :
  repr ts fl f -> is_u32 ino -> ino < f_ninodes f -> f_size f ino <= 16777216 ->
  is_u32 ino' -> is_u32 off' -> block_wf buf ->
  wp (r ← treedisk_setsize ino 0; x ← treedisk_read ino' off' buf; mret (r, x)) ts (fun p ts' =>
    p.1 = f_size f ino /\
    p.2 = (if decide (ino' <> ino /\ ino' < f_ninodes f /\ off' < f_size f ino')
           then (0, f_data f ino' off') else (-1, buf)) /\
    exists gained fl', repr ts' fl' (f_truncate f ino) /\ fl' ≡ₚ gained ++ fl).
Proof.
  intros Hr Hu Hi Hsz Hu' Ho' Hbuf. step.
  wp_use (treedisk_setsize_zero bino ts fl f ino Hr Hu Hi Hsz) as [-> (X & fl' & Hr' & Hp)].
  step. wp_use (treedisk_read_ok bino _ fl' _ ino' off' buf Hr' Hu' Ho' Hbuf) as [Hr'' ->].
  step. split; [done|]. split; [|by exists X, fl']. simpl.
  destruct (decide (ino' = ino)) as [->|Hne].
  - rewrite !decide_False; [done| |]; [by intros [? _]|]. unfold is_u32 in *. lia.
  - destruct (decide (ino' < f_ninodes f /\ off' < f_size f ino')) as [H|H].
    + by rewrite decide_True.
    + rewrite decide_False; [done|]. tauto.
Qed.

(** C25. The capacity that [treedisk_free_file] computes wraps around to zero
    for files longer than 2^24 blocks: truncating such a file never ends,
    whatever the number of rounds. *)
Theorem treedisk_truncate_diverges (ts : st) (fl : list Z) (f : files) (ino : Z) (fuel : nat) :
  repr ts fl f -> is_u32 ino -> ino < f_ninodes f -> 16777216 < f_size f ino ->
  treedisk_setsize_fuel fuel ino 0 ts = OutOfFuel.
Proof.
  intros (dB & Hs & lv & rl & HI & Hn & Hf) Hu Hi Hsz.
  assert (valid_ino bino dB ino) as Hv by (split; [apply Hu|by rewrite Hn]).
  destruct (Hf ino Hv) as (_ & Esz & _).
  unfold treedisk_setsize_fuel. eapply wp_bind_ends;
    [exact (get_snapshot_ok bino lv rl fl ts dB ino Hs HI Hu)|].
  intros o ts' [-> Hs']. rewrite Hn, decide_True by done. rewrite sn_nblocks_of, Esz.
  rewrite !decide_False by lia. apply bind_OutOfFuel. unfold treedisk_free_file.
  rewrite sn_nblocks_of, Esz, !decide_False by lia. apply bind_OutOfFuel.
  change (Z.of_nat REFS_PER_BLOCK) with 256. by rewrite free_levels_diverges.
Qed.

(** Writing to an empty file when no block is free does not fail with
    [-1]: it ends the process. *)
Lemma treedisk_full_exits (ts : st) (f : files) (ino off : Z) (b : block) :
  repr ts [] f -> is_u32 ino -> ino < f_ninodes f -> f_size f ino = 0 ->
  0 <= off -> is_u32 (off + 1) ->
  treedisk_write ino off b ts = Exit.
Proof.
  intros (dB & Hs & lv & rl & HI & Hn & Hf) Hu Hi Hsz Ho Ho1.
  assert (valid_ino bino dB ino) as Hv by (split; [apply Hu|by rewrite Hn]).
  destruct (Hf ino Hv) as (Hlv & Esz & _). rewrite Esz, Hsz in Hlv.
  assert (inode_root bino dB ino = 0) as Hroot.
  { pose proof (ti_beyond _ _ _ _ _ HI ino 0 Hv) as Hb. rewrite Hlv, Esz, Hsz in Hb. by apply Hb. }
  pose proof (ti_free _ _ _ _ _ HI) as Hfree.
  assert (forall (ts' : st) sn, sn_superblock sn = blk bino dB 0 -> treedisk_alloc_block sn ts' = Exit)
    as Hfull by (intros; by eapply alloc_block_full).
  unfold treedisk_write. eapply wp_bind_ends; [exact (get_snapshot_ok bino lv rl [] ts dB ino Hs HI Hu)|].
  intros o ts1 [-> Hs1]. rewrite Hn, decide_True by done. rewrite sn_nblocks_of, Esz, Hsz.
  change (nlevels_of 0) with (Some 0%nat). cbn [done_].
  eapply (wp_bind_ends _ _ _ (fun a s => a = 0%nat /\ s = ts1)); [done|]. intros ? ? [-> ->].
  unfold write_size. rewrite sn_nblocks_of, Esz, Hsz, decide_True by lia.
  rewrite count_levels_offset by done. cbn [done_].
  set (sn1 := sn_set_nblocks (u32 (off + 1)) (snapshot_of bino dB ino)).
  eapply (wp_bind_ends _ _ _ (fun a s => a = (tree_levels (off + 1), sn1, true) /\ s = ts1)); [done|].
  intros ? ? [-> ->].
  assert (sn_nblocks sn1 = off + 1) as Enb.
  { unfold sn1, sn_nblocks, sn_set_nblocks. cbn [sn_inodeblock sn_inode snapshot_of].
    rewrite u32_small by done.
    apply get32_set32_eq; [apply blk_wf, HI|by destruct (words_lt ino)|done]. }
  assert (sn_root sn1 = 0) as Er.
  { unfold sn1, sn_root, sn_set_nblocks. cbn [sn_inodeblock sn_inode snapshot_of].
    rewrite get32_set32_ne; [exact Hroot|apply blk_wf, HI|by destruct (words_lt ino)|].
    unfold root_word, nblocks_word. lia. }
  unfold write_grow. rewrite Enb, decide_False by lia.
  destruct (decide (0 < tree_levels (off + 1))%nat) as [HL|HL].
  - apply bind_Exit, bind_Exit. replace (tree_levels (off + 1) - 0)%nat with
      (Datatypes.S (pred (tree_levels (off + 1)))) by lia.
    cbn [grow_levels]. apply bind_Exit. by apply Hfull.
  - eapply (wp_bind_ends _ _ _ (fun a s => a = (0%nat, sn1, true) /\ s = ts1)); [done|].
    intros ? ? [-> ->]. destruct (ti_inode_meta bino HI ino Hv) as [Hpi _].
    eapply wp_bind_ends; [eapply (td_write_or_panic_ok bino ts1 dB (inode_block ino)); [exact Hs1|exact Hpi|]|].
    { apply set32_wf; [apply blk_wf, HI|by destruct (words_lt ino)]. }
    intros ? ts2 Hs2. apply bind_Exit. cbn [write_walk]. fold (sn_root sn1). rewrite Er.
    rewrite decide_True by done. apply bind_Exit. by apply Hfull.
Qed.

(** Setting a size other than zero is not supported: unless it is the size
    the file has, the call fails with [-1] and nothing changes. *)
Lemma treedisk_setsize_unsupported (ts : st) (fl : list Z) (f : files) (ino n : Z) :
  repr ts fl f -> is_u32 ino -> ino < f_ninodes f -> is_u32 n -> 0 < n ->
  wp (treedisk_setsize ino n) ts (fun r ts' => repr ts' fl f /\
    r = if decide (n = f_size f ino) then i32 n else -1).
Proof.
  intros (dB & Hs & lv & rl & HI & Hn & Hf) Hu Hi Hnu Hpos.
  assert (valid_ino bino dB ino) as Hv by (split; [apply Hu|by rewrite Hn]).
  destruct (Hf ino Hv) as (_ & Esz & _). unfold treedisk_setsize, treedisk_setsize_fuel. step.
  wp_use (get_snapshot_ok bino lv rl fl ts dB ino Hs HI Hu) as [-> Hs'].
  assert (forall ts', st_repr (R:=R) bino ts' dB -> repr ts' fl f) as Hrep
    by (intros ts' H; exists dB; split; [done|by exists lv, rl]).
  rewrite Hn, decide_True by done. rewrite sn_nblocks_of, Esz.
  destruct (decide (n = f_size f ino)) as [E|E]; [step; auto|].
  rewrite decide_True by lia. step. auto.
Qed.

(** [treedisk_setsize] does not look at the result of
    [treedisk_get_snapshot]: for an inode number that is too large it goes on
    with an uninitialised snapshot. *)
Lemma treedisk_setsize_bad_inode (ts : st) (fl : list Z) (f : files) (ino n : Z) :
  repr ts fl f -> is_u32 ino -> f_ninodes f <= ino -> treedisk_setsize ino n ts = Undef.
Proof.
  intros (dB & Hs & lv & rl & HI & Hn & Hf) Hu Hi. unfold treedisk_setsize, treedisk_setsize_fuel.
  eapply wp_bind_ends; [exact (get_snapshot_ok bino lv rl fl ts dB ino Hs HI Hu)|].
  intros o ts' [-> Hs']. by rewrite Hn, decide_False by lia.
Qed.
End properties.

(** * File systems at which the properties are instantiated *)

Definition wit_blocks : list block := replicate 14 null_block.
Definition wit_store : ramdisk_state := ramdisk_init wit_blocks 14.

Lemma wit_store_repr : ram_repr wit_store (disk_of wit_blocks).
Proof.
  apply (ramdisk_init_repr wit_blocks); [|done]. apply Forall_replicate, null_block_wf.
Qed.

Lemma disk_of_size l : size_of (disk_of l) 0 (Z.of_nat (length l)).
Proof.
  intros off. rewrite disk_of_lookup. split.
  - intros [b Hb]. destruct (decide _) as [H|H] in Hb; [|done]. apply lookup_lt_Some in Hb. lia.
  - intros H. rewrite decide_True by lia. apply lookup_lt_is_Some_2. lia.
Qed.

Lemma wit_store_new : sb_n_inodeblocks (blk 0 (disk_of wit_blocks) 0) = 0.
Proof. vm_compute. reflexivity. Qed.

(** An empty file system with twelve free blocks. *)
Lemma wit_tree : exists ts fl,
  tree_repr (R:=ram_repr) 0 ts fl (f_empty 128) /\ length fl = 12%nat.
Proof.
  pose proof (treedisk_create_ok 0 wit_store (disk_of wit_blocks) 14 128 wit_store_repr
    (disk_of_size wit_blocks) ltac:(lia) ltac:(done) ltac:(done) wit_store_new) as H.
  apply wp_Ret in H as (r & s' & _ & _ & dB' & fl & HR & Hf & Hfl & _).
  exists (treedisk_init s' 0), fl. split; [by exists dB'|]. by rewrite Hfl.
Qed.

(** A file of 2^24 + 1 blocks, all of them holes but the last. *)
Lemma wit_tree_big : exists ts fl,
  tree_repr (R:=ram_repr) 0 ts fl (f_write (f_empty 128) 0 16777216 null_block).
Proof.
  destruct wit_tree as (ts & fl & Hr & Hl).
  pose proof (treedisk_write_ok 0 ts fl _ 0 16777216 null_block Hr ltac:(done) ltac:(done) ltac:(done)
    null_block_wf ltac:(done)) as H.
  apply wp_Ret in H as (r & ts' & _ & _ & fl' & Hr' & _); [eauto|].
  rewrite Hl. vm_compute. lia.
Qed.

(** A file system without free blocks. *)
Definition wit_full_blocks : list block := [set32 null_block 0 1; null_block].

Lemma wit_tree_full : exists ts, tree_repr (R:=ram_repr) 0 ts [] (f_empty 128).
Proof.
  assert (ram_repr (ramdisk_init wit_full_blocks 2) (disk_of wit_full_blocks)) as HR.
  { apply (ramdisk_init_repr wit_full_blocks); [|done]. repeat constructor. }
  exists (treedisk_init (ramdisk_init wit_full_blocks 2) 0), (disk_of wit_full_blocks).
  split; [by split|]. apply (empty_disk_files 0 _ 1 2).
  - by eapply law_wf.
  - intros n Hn. by apply (disk_of_size wit_full_blocks).
  - lia.
  - vm_compute. reflexivity.
  - change (free_at 0 (disk_of wit_full_blocks) (sb_free_list (blk 0 (disk_of wit_full_blocks) 0)) []).
    replace (sb_free_list (blk 0 (disk_of wit_full_blocks) 0)) with 0 by (vm_compute; reflexivity).
    constructor.
  - done.
  - intros m Hm. assert (m = 1) as -> by lia. vm_compute. reflexivity.
Qed.

Definition wit_ops : list fs_op :=
  [OpWrite 0 5 null_block; OpRead 0 3; OpWrite 7 0 null_block; OpTruncate 0; OpGetsize 0; OpRead 7 0].

Lemma wit_ops_valid : valid_ops (f_empty 128) wit_ops.
Proof. repeat split; vm_compute; congruence. Qed.

Lemma treedisk_fs_correct_witness :
  wp (treedisk_create 0 128) wit_store (fun r s' => r = 0 /\
    wp (exec_ops wit_ops) (treedisk_init s' 0) (fun rs _ => rs = (spec_ops (f_empty 128) wit_ops).1)).
Proof.
  apply (treedisk_fs_correct 0 wit_store (disk_of wit_blocks) 14 128 wit_ops);
    [exact wit_store_repr|exact (disk_of_size wit_blocks)|done|done|done|exact wit_store_new
    |exact wit_ops_valid|vm_compute; congruence].
Defined.

Lemma treedisk_write_read_witness : exists ts : treedisk_state ramdisk_state,
  wp (treedisk_write 0 5 null_block;; treedisk_read 0 5 null_block) ts (fun x _ => x = (0, null_block)).
Proof.
  destruct wit_tree as (ts & fl & Hr & Hl). exists ts.
  apply (treedisk_write_read 0 ts fl (f_empty 128) 0 5 null_block 0 5 null_block Hr);
    try done. rewrite Hl. vm_compute. lia.
Defined.

Lemma treedisk_truncate_read_witness : exists ts : treedisk_state ramdisk_state,
  wp (r ← treedisk_setsize 3 0; x ← treedisk_read 4 0 null_block; mret (r, x)) ts (fun p _ =>
    p.1 = 0 /\ p.2 = (-1, null_block)).
Proof.
  destruct wit_tree as (ts & fl & Hr & Hl). exists ts.
  eapply wp_mono.
  - apply (treedisk_truncate_read 0 ts fl (f_empty 128) 3 4 0 null_block Hr); done.
  - intros p ts' (H1 & H2 & _). by split.
Defined.

Lemma treedisk_truncate_diverges_witness : exists ts : treedisk_state ramdisk_state,
  forall fuel, treedisk_setsize_fuel fuel 0 0 ts = OutOfFuel.
Proof.
  destruct wit_tree_big as (ts & fl & Hr). exists ts. intros fuel.
  apply (treedisk_truncate_diverges 0 ts fl _ 0 fuel Hr); done.
Defined.

Lemma treedisk_full_exits_witness : exists ts : treedisk_state ramdisk_state,
  treedisk_write 5 300 null_block ts = Exit.
Proof.
  destruct wit_tree_full as (ts & Hr). exists ts.
  apply (treedisk_full_exits 0 ts (f_empty 128) 5 300 null_block Hr); done.
Defined.

Lemma treedisk_setsize_unsupported_witness : exists ts : treedisk_state ramdisk_state,
  wp (treedisk_setsize 5 10) ts (fun r _ => r = -1).
Proof.
  destruct wit_tree as (ts & fl & Hr & _). exists ts.
  eapply wp_mono; [apply (treedisk_setsize_unsupported 0 ts fl (f_empty 128) 5 10 Hr); done|].
  by intros r ts' [_ ->].
Defined.

Lemma treedisk_setsize_bad_inode_witness : exists ts : treedisk_state ramdisk_state,
  treedisk_setsize 128 0 ts = Undef.
Proof.
  destruct wit_tree as (ts & fl & Hr & _). exists ts.
  apply (treedisk_setsize_bad_inode 0 ts fl (f_empty 128) 128 0 Hr); done.
Defined.
