(* ===== verification/BlockProt.v ===== *)
(** The block protocol: src/src/h/egos/block.h (messages), lib/block.c (the
    client's stubs), apps/blocksvr.c (the server over a stack of block stores)
    and block/protdisk.c (a block store whose operations are calls to such a
    server). A message is a list of bytes; a structure in it is a sequence of
    little-endian words. *)
From stdpp Require Import base numbers list gmap.
From Stdlib Require Import ZArith Lia.
From coqutil Require Import Word.LittleEndianList.
From S2P Require Import Prelude BlockStore RamDisk ClockDisk TreeDisk TreeSpec TreeCreate TreeProps.

Abbreviation message := (list Init.Byte.byte).

(** The words of a structure. *)
Definition words (ws : list Z) : message := foldr (fun w m => le_split 4 w ++ m) [] ws.

(** [enum type] of [struct block_request]. *)
Definition BLOCK_READ : Z := 1.
Definition BLOCK_WRITE : Z := 2.
Definition BLOCK_GETSIZE : Z := 3.
Definition BLOCK_SETSIZE : Z := 4.
Definition BLOCK_SYNC : Z := 5.
Definition BLOCK_GETNINODES : Z := 6.

(** [enum block_status]. *)
Definition BLOCK_OK : Z := 0.
Definition BLOCK_ERROR : Z := 1.

Definition block_request (type ino offset_nblock : Z) : message := words [type; ino; offset_nblock].
Definition block_reply (status size_nblock : Z) : message := words [status; size_nblock].
Definition sizeof_request : nat := 12.
Definition sizeof_reply : nat := 8.
Definition PAGESIZE : nat := Z.to_nat 16384.

(** What [sys_rpc] offers to the stubs: a request message, the room for the
    reply; [None] when the call fails, else the part of the reply that fits. *)
Class Rpc (T : Type) := sys_rpc : Z -> message -> nat -> M T (option message).

(** * The client's stubs *)

Section client.
Context {T : Type} `{!Rpc T}.

Definition block_read (svr ino offset : Z) (addr : block) : M T (bool * block) :=
  let reply_size := (sizeof_reply + BLOCK_SIZE)%nat in
  n ← sys_rpc svr (block_request BLOCK_READ ino offset) reply_size;
  match n with
  | None => mret (false, addr)
  | Some reply =>
      if decide (length reply < reply_size)%nat then mret (false, addr) else
      if decide (get32 reply 0 <> BLOCK_OK) then mret (false, addr) else
      mret (true, take BLOCK_SIZE (drop sizeof_reply reply))
  end.

(** The part that the other stubs share: the first words of the reply. *)
Definition short_rpc (svr : Z) (req : message) : M T (option (Z * Z)) :=
  n ← sys_rpc svr req sizeof_reply;
  match n with
  | None => mret None
  | Some reply =>
      if decide (length reply < sizeof_reply)%nat then mret None
      else mret (Some (get32 reply 0, get32 reply 1))
  end.

Definition block_write (svr ino offset : Z) (addr : block) : M T bool :=
  rep ← short_rpc svr (block_request BLOCK_WRITE ino offset ++ addr);
  match rep with None => mret false | Some (status, _) => mret (bool_decide (status = BLOCK_OK)) end.

Definition block_sync (svr ino : Z) : M T bool :=
  rep ← short_rpc svr (block_request BLOCK_SYNC ino 0);
  match rep with None => mret false | Some (status, _) => mret (bool_decide (status = BLOCK_OK)) end.

(** [*psize] is set even when the status is an error. *)
Definition block_getsize (svr ino psize : Z) : M T (bool * Z) :=
  rep ← short_rpc svr (block_request BLOCK_GETSIZE ino 0);
  match rep with
  | None => mret (false, psize)
  | Some (status, size) => mret (bool_decide (status = BLOCK_OK), size)
  end.

Definition block_setsize (svr ino size : Z) : M T bool :=
  rep ← short_rpc svr (block_request BLOCK_SETSIZE ino size);
  match rep with None => mret false | Some (status, _) => mret (bool_decide (status = BLOCK_OK)) end.

Definition block_getninodes (svr ninodes : Z) : M T (bool * Z) :=
  rep ← short_rpc svr (block_request BLOCK_GETNINODES 0 0);
  match rep with
  | None => mret (false, ninodes)
  | Some (status, n) => mret (bool_decide (status = BLOCK_OK), n)
  end.
End client.

(** * protdisk *)

Record protdisk_state (T : Type) := ProtDisk {
  pd_kernel : T;    (* what the calls go through *)
  pd_below : Z;
  pd_ino : Z;
}.
Arguments ProtDisk {T}.
Arguments pd_kernel {T}.
Arguments pd_below {T}.
Arguments pd_ino {T}.

Section protdisk.
Context {T : Type} `{!Rpc T}.
Abbreviation st := (protdisk_state T).

Definition pd_call {A} (m : Z -> Z -> M T A) : M st A :=
  ps ← get;
  lift pd_kernel (fun t ps => ProtDisk t (pd_below ps) (pd_ino ps)) (m (pd_below ps) (pd_ino ps)).

(** The variable [ninodes] is uninitialised before the call; a reply with an
    error status fails the assertion. *)
Definition protdisk_getninodes : M st Z :=
  x ← pd_call (fun below _ => block_getninodes below 0);
  assert_ x.1;;
  mret (i32 x.2).

Definition protdisk_getsize (ino : Z) : M st Z :=
  if decide (ino <> 0) then mret (-1) else
  x ← pd_call (fun below pino => block_getsize below pino 0);
  assert_ x.1;;
  mret (i32 x.2).

Definition protdisk_setsize (ino nblocks : Z) : M st Z := panic.

Definition protdisk_read (ino offset : Z) (buf : block) : M st (Z * block) :=
  if decide (ino <> 0) then mret (-1, buf) else
  x ← pd_call (fun below pino => block_read below pino offset buf);
  mret (if (x.1 : bool) then 0 else -1, x.2).

Definition protdisk_write (ino offset : Z) (b : block) : M st Z :=
  if decide (ino <> 0) then mret (-1) else
  r ← pd_call (fun below pino => block_write below pino offset b);
  mret (if (r : bool) then 0 else -1).

Definition protdisk_release (ps : st) : T := pd_kernel ps.

Definition protdisk_sync (ino : Z) : M st Z :=
  if decide (ino <> 0) then mret (-1) else
  r ← pd_call (fun below pino => block_sync below pino);
  mret (if (r : bool) then 0 else -1).

Definition protdisk_init (kernel : T) (below ino : Z) : st := ProtDisk kernel below ino.

#[export] Instance protdisk_bs : BlockStore st := {
  bs_getninodes := protdisk_getninodes;
  bs_getsize := protdisk_getsize;
  bs_setsize := protdisk_setsize;
  bs_read := protdisk_read;
  bs_write := protdisk_write;
  bs_sync := protdisk_sync;
}.
End protdisk.

(** * The block server *)

(** [bss->sp] points at the top of the stack of stores, which owns the rest;
    [bss_sent] is what the server has sent, newest first. *)
Record block_server_state (S : Type) := BlockServer {
  bss_top : S;
  bss_sent : list (Z * message);
}.
Arguments BlockServer {S}.
Arguments bss_top {S}.
Arguments bss_sent {S}.

Section server.
Context {S : Type} `{!BlockStore S}.
Abbreviation st := (block_server_state S).

Definition bss_call {A} (m : M S A) : M st A :=
  lift bss_top (fun s bss => BlockServer s (bss_sent bss)) m.

Definition sys_send (dst : Z) (m : message) : M st unit :=
  modify (fun bss => BlockServer (bss_top bss) ((dst, m) :: bss_sent bss)).

(** [block_respond] with no data, as all its calls have it. *)
Definition block_respond (status src : Z) : M st unit := sys_send src (block_reply status 0).

Definition block_do_read (ino offset_nblock src : Z) : M st unit :=
  x ← bss_call (bs_read ino offset_nblock null_block);
  if decide (x.1 < 0) then block_respond BLOCK_ERROR src
  else sys_send src (block_reply BLOCK_OK 1 ++ x.2).

Definition block_do_write (ino offset_nblock : Z) (data : message) (nblock src : Z) : M st unit :=
  if decide (nblock <> 1) then block_respond BLOCK_ERROR src else
  result ← bss_call (bs_write ino offset_nblock (take BLOCK_SIZE data));
  if decide (result < 0) then block_respond BLOCK_ERROR src else block_respond BLOCK_OK src.

Definition block_do_sync (ino src : Z) : M st unit :=
  if decide (ino <> minus1_u) then block_respond BLOCK_ERROR src else
  result ← bss_call (bs_sync ino);
  if decide (result < 0) then block_respond BLOCK_ERROR src else block_respond BLOCK_OK src.

Definition block_do_getsize (ino src : Z) : M st unit :=
  size ← bss_call (bs_getsize ino);
  sys_send src (block_reply BLOCK_OK (u32 size)).

Definition block_do_setsize (ino offset_nblock src : Z) : M st unit :=
  result ← bss_call (bs_setsize ino offset_nblock);
  if decide (result < 0) then block_respond BLOCK_ERROR src else block_respond BLOCK_OK src.

Definition block_do_getninodes (src : Z) : M st unit :=
  ninodes ← bss_call bs_getninodes;
  sys_send src (block_reply BLOCK_OK (u32 ninodes)).

(** One round of the loop of [block_proc], for the message [msg] from [src];
    the receive takes [sizeof(req) + PAGESIZE] bytes, [req] being a pointer. *)
Definition block_proc_round (msg : message) (src : Z) : M st unit :=
  let req := take (8 + PAGESIZE) msg in
  let req_size := Z.of_nat (length req) in
  assert_ (bool_decide (req_size >= Z.of_nat sizeof_request));;
  let type := get32 req 0 in
  let ino := get32 req 1 in
  let offset_nblock := get32 req 2 in
  if decide (type = BLOCK_READ) then block_do_read ino offset_nblock src else
  if decide (type = BLOCK_WRITE) then
    block_do_write ino offset_nblock (drop sizeof_request req)
      ((req_size - Z.of_nat sizeof_request) / Z.of_nat BLOCK_SIZE) src else
  if decide (type = BLOCK_SYNC) then block_do_sync ino src else
  if decide (type = BLOCK_GETSIZE) then block_do_getsize ino src else
  if decide (type = BLOCK_SETSIZE) then block_do_setsize ino offset_nblock src else
  if decide (type = BLOCK_GETNINODES) then block_do_getninodes src else
  panic.

(** A call to the server: [None] is a server that has died. A call to a dead
    server fails, and so does the call that the server dies of; a server that
    sends nothing leaves the caller waiting. *)
Definition server_rpc (msg : message) (repsize : nat) : M (option S) (option message) := fun o =>
  match o with
  | None => Ret (None, None)
  | Some s =>
      match block_proc_round msg 0 (BlockServer s []) with
      | Ret (_, bss) =>
          match last (bss_sent bss) with
          | Some (_, rep) => Ret (Some (take repsize rep), Some (bss_top bss))
          | None => OutOfFuel
          end
      | Exit => Ret (None, None)
      | Undef => Undef
      | OutOfFuel => OutOfFuel
      end
  end.

#[export] Instance block_server_rpc : Rpc (option S) := fun _ msg repsize => server_rpc msg repsize.
End server.

(** [block_init] with the configuration "tree": the file system over a
    write-back cache of [NCACHE_BLOCKS] blocks over the bottom store. *)
Definition NCACHE_BLOCKS : Z := 20.
Definition NINODES : Z := 256.
Definition BOTTOM_INODE : Z := 0.

Definition block_init {S} `{!BlockStore S} (bot : S) (cache : list block)
    : outcome (treedisk_state (clockdisk_state S)) :=
  match treedisk_create BOTTOM_INODE NINODES (clockdisk_init bot cache NCACHE_BLOCKS) with
  | Ret (r, cs) => if decide (r < 0) then Exit else Ret (treedisk_init cs BOTTOM_INODE)
  | Exit => Exit
  | Undef => Undef
  | OutOfFuel => OutOfFuel
  end.

(** * Messages *)

Lemma get32_head (w : Z) (rest : message) : is_u32 w -> get32 (le_split 4 w ++ rest) 0 = w.
Proof.
  intros Hw. unfold get32. change (4 * 0)%nat with 0%nat. rewrite drop_0.
  rewrite take_app_length' by (by rewrite length_le_split).
  rewrite le_combine_split. by apply Z.mod_small.
Qed.

Lemma get32_tail (w : Z) (rest : message) i :
  get32 (le_split 4 w ++ rest) (S i) = get32 rest i.
Proof.
  unfold get32. replace (4 * S i)%nat with (length (le_split 4 w) + 4 * i)%nat
    by (rewrite length_le_split; lia).
  by rewrite drop_app_add.
Qed.

Lemma length_words ws : length (words ws) = (4 * length ws)%nat.
Proof.
  induction ws as [|w ws IH]; [done|]. cbn [words foldr length].
  rewrite length_app, length_le_split. unfold words in IH. rewrite IH. lia.
Qed.

Lemma get32_words ws rest i w :
  ws !! i = Some w -> is_u32 w -> get32 (words ws ++ rest) i = w.
Proof.
  revert i. induction ws as [|w' ws IH]; intros i Hi Hw; [done|].
  cbn [words foldr]. rewrite <- app_assoc. destruct i as [|i]; simpl in Hi.
  - injection Hi as ->. by apply get32_head.
  - rewrite get32_tail. by apply IH.
Qed.

Lemma get32_words_nil ws i w : ws !! i = Some w -> is_u32 w -> get32 (words ws) i = w.
Proof. intros. rewrite <- (app_nil_r (words ws)). by apply get32_words. Qed.

Lemma drop_words ws rest n : n = (4 * length ws)%nat -> drop n (words ws ++ rest) = rest.
Proof. intros ->. apply drop_app_length'. by rewrite length_words. Qed.

Opaque words.

(** * What a call amounts to *)

(** The outcome of a call, from that of the store operation behind it. *)
Definition call_result {S A B} (o : outcome (A * S)) (ok : A -> B) (dead : B) : outcome (B * option S) :=
  match o with
  | Ret (a, s) => Ret (ok a, Some s)
  | Exit => Ret (dead, None)
  | Undef => Undef
  | OutOfFuel => OutOfFuel
  end.

Lemma reply_word0 st v rest : is_u32 st -> get32 (block_reply st v ++ rest) 0 = st.
Proof. by apply get32_words. Qed.

Lemma reply_word1 st v rest : is_u32 v -> get32 (block_reply st v ++ rest) 1 = v.
Proof. by apply get32_words. Qed.

Lemma request_words type ino off data :
  is_u32 type -> is_u32 ino -> is_u32 off ->
  get32 (block_request type ino off ++ data) 0 = type /\
  get32 (block_request type ino off ++ data) 1 = ino /\
  get32 (block_request type ino off ++ data) 2 = off /\
  drop sizeof_request (block_request type ino off ++ data) = data.
Proof. intros. repeat split; first [by apply get32_words | by apply drop_words]. Qed.

Lemma length_reply st v : length (block_reply st v) = sizeof_reply.
Proof. apply length_words. Qed.

Section calls.
Context {S : Type} `{!BlockStore S}.

(** The round of the server for a request that fits its buffer. *)
Definition serve (type ino off : Z) (data : message) : M (block_server_state S) unit :=
  let nblock := (Z.of_nat (length data)) / Z.of_nat BLOCK_SIZE in
  if decide (type = BLOCK_READ) then block_do_read ino off 0 else
  if decide (type = BLOCK_WRITE) then block_do_write ino off data nblock 0 else
  if decide (type = BLOCK_SYNC) then block_do_sync ino 0 else
  if decide (type = BLOCK_GETSIZE) then block_do_getsize ino 0 else
  if decide (type = BLOCK_SETSIZE) then block_do_setsize ino off 0 else
  if decide (type = BLOCK_GETNINODES) then block_do_getninodes 0 else panic.

Lemma round_serve type ino off data (bss : block_server_state S) :
  is_u32 type -> is_u32 ino -> is_u32 off -> (length data <= BLOCK_SIZE)%nat ->
  block_proc_round (block_request type ino off ++ data) 0 bss = serve type ino off data bss.
Proof.
  intros Ht Hi Ho Hd. unfold block_proc_round.
  assert (length (block_request type ino off ++ data) = (sizeof_request + length data)%nat) as Hl
    by (unfold block_request; by rewrite length_app, length_words).
  rewrite take_ge by (rewrite Hl; unfold BLOCK_SIZE in Hd; vm_compute (8 + PAGESIZE)%nat; unfold sizeof_request; lia).
  rewrite Hl. rewrite bool_decide_eq_true_2 by (unfold sizeof_request; lia).
  destruct (request_words type ino off data) as (-> & -> & -> & ->); [done..|].
  replace (Z.of_nat (sizeof_request + length data) - Z.of_nat sizeof_request) with (Z.of_nat (length data)) by lia.
  reflexivity.
Qed.

(** A call whose store operation [m] is followed by one reply. *)
Lemma rpc_serve {A} type ino off data repsize (m : M S A) (rep : A -> message) (s : S) :
  is_u32 type -> is_u32 ino -> is_u32 off -> (length data <= BLOCK_SIZE)%nat ->
  (forall bss, serve type ino off data bss = mbind (fun a => sys_send 0 (rep a)) (bss_call m) bss) ->
  server_rpc (block_request type ino off ++ data) repsize (Some s) =
  call_result (m s) (fun a => Some (take repsize (rep a))) None.
Proof.
  intros Ht Hi Ho Hd Hm. unfold server_rpc. rewrite round_serve, Hm by done.
  unfold mbind, M_bind, bss_call, lift, call_result. cbn [bss_top].
  by destruct (m s) as [[a s']| | |].
Qed.

Lemma short_serve {A} type ino off data svr (m : M S A) (status size : A -> Z) (s : S) :
  is_u32 type -> is_u32 ino -> is_u32 off -> (length data <= BLOCK_SIZE)%nat ->
  (forall a, is_u32 (status a) /\ is_u32 (size a)) ->
  (forall bss, serve type ino off data bss =
     mbind (fun a => sys_send 0 (block_reply (status a) (size a))) (bss_call m) bss) ->
  short_rpc svr (block_request type ino off ++ data) (Some s) =
  call_result (m s) (fun a => Some (status a, size a)) None.
Proof.
  intros Ht Hi Ho Hd Hu Hm. unfold short_rpc. unfold mbind at 1, M_bind at 1, sys_rpc, block_server_rpc.
  rewrite (rpc_serve type ino off data _ m _ s Ht Hi Ho Hd Hm).
  unfold call_result. destruct (m s) as [[a s']| | |]; [|done..].
  rewrite take_ge by (by rewrite length_reply). rewrite length_reply, decide_False by lia.
  rewrite <- (app_nil_r (block_reply _ _)).
  by rewrite reply_word0, reply_word1 by apply Hu.
Qed.

(** The reply to an operation that reports failure with a negative result. *)
Definition status_of (r : Z) : Z := if decide (r < 0) then BLOCK_ERROR else BLOCK_OK.

Lemma status_u32 r : is_u32 (status_of r).
Proof. unfold status_of. by destruct (decide _). Qed.

Lemma status_ok r : bool_decide (status_of r = BLOCK_OK) = bool_decide (0 <= r).
Proof.
  apply bool_decide_ext. unfold status_of, BLOCK_OK, BLOCK_ERROR. destruct (decide (r < 0)); split; (done || lia).
Qed.

Lemma call_result_bind {A B C} (o : outcome (A * S)) (ok : A -> B) (dead : B) (f : B -> C) :
  match call_result o ok dead with
  | Ret (a, s') => Ret (f a, s')
  | Exit => Exit | Undef => Undef | OutOfFuel => OutOfFuel
  end = call_result o (fun a => f (ok a)) (f dead).
Proof. by destruct o as [[a s]| | |]. Qed.

(** The stubs of operations whose reply is only a status. *)
Lemma status_call type ino off data svr (m : M S Z) (s : S) :
  is_u32 type -> is_u32 ino -> is_u32 off -> (length data <= BLOCK_SIZE)%nat ->
  (forall bss, serve type ino off data bss =
     mbind (fun r => block_respond (status_of r) 0) (bss_call m) bss) ->
  (rep ← short_rpc svr (block_request type ino off ++ data);
   match rep with
   | None => mret false
   | Some (status, _) => mret (bool_decide (status = BLOCK_OK))
   end) (Some s) = call_result (m s) (fun r => bool_decide (0 <= r)) false.
Proof.
  intros Ht Hi Ho Hd Hm. unfold mbind, M_bind.
  rewrite (short_serve type ino off data svr m status_of (fun _ => 0) s); [|done|done|done|done| |exact Hm].
  2:{ intros a. split; [apply status_u32|done]. }
  unfold call_result. destruct (m s) as [[a s']| | |]; try done. cbn. by rewrite status_ok.
Qed.

(** The stubs of operations whose reply is a number, always with status OK. *)
Lemma number_call type ino svr (m : M S Z) (s : S) (x : Z) :
  is_u32 type -> is_u32 ino ->
  (forall bss, serve type ino 0 [] bss =
     mbind (fun r => sys_send 0 (block_reply BLOCK_OK (u32 r))) (bss_call m) bss) ->
  (rep ← short_rpc svr (block_request type ino 0);
   match rep with
   | None => mret (false, x)
   | Some (status, n) => mret (bool_decide (status = BLOCK_OK), n)
   end) (Some s) = call_result (m s) (fun r => (true, u32 r)) (false, x).
Proof.
  intros Ht Hi Hm. unfold mbind, M_bind. rewrite <- (app_nil_r (block_request type ino 0)).
  rewrite (short_serve type ino 0 [] svr m (fun _ => BLOCK_OK) u32 s); [|done|done|done|simpl; lia| |exact Hm].
  2:{ intros a. split; [done|apply u32_range]. }
  unfold call_result. by destruct (m s) as [[a s']| | |].
Qed.

Lemma block_write_call svr ino off b s :
  is_u32 ino -> is_u32 off -> block_wf b ->
  block_write svr ino off b (Some s) = call_result (bs_write ino off b s) (fun r => bool_decide (0 <= r)) false.
Proof.
  intros Hi Ho Hb. apply status_call; [done..|by rewrite Hb|]. intros bss. unfold serve.
  rewrite decide_False, decide_True by done. unfold block_do_write. rewrite Hb, Z.div_same by done.
  rewrite decide_False by lia. rewrite take_ge by (by rewrite Hb).
  unfold mbind, M_bind. destruct (bss_call _ bss) as [[r bss']| | |]; [|done..].
  unfold status_of. by destruct (decide (r < 0)).
Qed.

Lemma block_sync_call svr ino s :
  is_u32 ino ->
  block_sync svr ino (Some s) =
  if decide (ino = minus1_u) then call_result (bs_sync ino s) (fun r => bool_decide (0 <= r)) false
  else Ret (false, Some s).
Proof.
  intros Hi. unfold block_sync. rewrite <- (app_nil_r (block_request _ _ _)).
  destruct (decide (ino = minus1_u)) as [E|E].
  - apply status_call; [done..|simpl; lia|]. intros bss. unfold serve.
    do 2 rewrite decide_False by done. rewrite decide_True by done.
    unfold block_do_sync. rewrite decide_False by (intros ?; done).
    unfold mbind, M_bind. destruct (bss_call _ bss) as [[r bss']| | |]; [|done..].
    unfold status_of. by destruct (decide (r < 0)).
  - pose proof (status_call BLOCK_SYNC ino 0 [] svr (mret (-1)) s) as H. rewrite H; try done; [simpl; lia|].
    intros bss. unfold serve. do 2 rewrite decide_False by done. rewrite decide_True by done.
    unfold block_do_sync. by rewrite decide_True.
Qed.

Lemma block_setsize_call svr ino n s :
  is_u32 ino -> is_u32 n ->
  block_setsize svr ino n (Some s) = call_result (bs_setsize ino n s) (fun r => bool_decide (0 <= r)) false.
Proof.
  intros Hi Hn. unfold block_setsize. rewrite <- (app_nil_r (block_request _ _ _)).
  apply status_call; [done..|simpl; lia|]. intros bss. unfold serve.
  do 4 rewrite decide_False by done. rewrite decide_True by done. unfold block_do_setsize.
  unfold mbind, M_bind. destruct (bss_call _ bss) as [[r bss']| | |]; [|done..].
  unfold status_of. by destruct (decide (r < 0)).
Qed.

Lemma block_getsize_call svr ino x s :
  is_u32 ino ->
  block_getsize svr ino x (Some s) = call_result (bs_getsize ino s) (fun r => (true, u32 r)) (false, x).
Proof.
  intros Hi. apply number_call; [done..|]. intros bss. unfold serve.
  do 3 rewrite decide_False by done. by rewrite decide_True.
Qed.

Lemma block_getninodes_call svr x s :
  block_getninodes svr x (Some s) = call_result (bs_getninodes s) (fun r => (true, u32 r)) (false, x).
Proof.
  apply number_call; [done..|]. intros bss. unfold serve.
  do 5 rewrite decide_False by done. by rewrite decide_True.
Qed.

Lemma block_read_call svr ino off addr s :
  is_u32 ino -> is_u32 off ->
  (forall r b s', bs_read ino off null_block s = Ret ((r, b), s') -> 0 <= r -> block_wf b) ->
  block_read svr ino off addr (Some s) =
  call_result (bs_read ino off null_block s)
    (fun x => if decide (x.1 < 0) then (false, addr) else (true, x.2)) (false, addr).
Proof.
  intros Hi Ho Hw. unfold block_read. unfold mbind at 1, M_bind at 1, sys_rpc, block_server_rpc.
  rewrite <- (app_nil_r (block_request _ _ _)).
  rewrite (rpc_serve BLOCK_READ ino off [] _ (bs_read ino off null_block)
    (fun x => if decide (x.1 < 0) then block_reply BLOCK_ERROR 0 else block_reply BLOCK_OK 1 ++ x.2) s);
    [|done..|simpl; lia|].
  2:{ intros bss. unfold serve. rewrite decide_True by done. unfold block_do_read, mbind, M_bind.
      destruct (bss_call _ bss) as [[[r b] bss']| | |]; [|done..]. by destruct (decide _). }
  destruct (bs_read ino off null_block s) as [[[r b] s']| | |] eqn:E; [|done..]. cbn [call_result fst snd].
  destruct (decide (r < 0)) as [Hr|Hr].
  - rewrite take_ge by (rewrite length_reply; unfold sizeof_reply; lia).
    by rewrite length_reply, decide_True by (unfold BLOCK_SIZE; lia).
  - assert (length (block_reply BLOCK_OK 1 ++ b) = (sizeof_reply + BLOCK_SIZE)%nat) as Hl
      by (rewrite length_app, length_reply, (Hw r b s' eq_refl); lia).
    rewrite take_ge by lia. rewrite Hl, decide_False by lia.
    rewrite reply_word0 by done. rewrite decide_False by (intros H; by apply H).
    rewrite drop_app_length' by (by rewrite length_reply).
    rewrite take_ge; [done|]. by rewrite (Hw r b s' eq_refl ltac:(lia)).
Qed.
End calls.

(** * The file system behind the server *)

Inductive client_reply : Type :=
| CData (ok : bool) (b : block)
| CStatus (ok : bool)
| CSize (ok : bool) (n : Z).

(** The operations of a client, through the stubs. *)
Definition client_op {T} `{!Rpc T} (svr : Z) (o : fs_op) : M T client_reply :=
  match o with
  | OpRead ino off => x ← block_read svr ino off null_block; mret (CData x.1 x.2)
  | OpWrite ino off b => r ← block_write svr ino off b; mret (CStatus r)
  | OpTruncate ino => r ← block_setsize svr ino 0; mret (CStatus r)
  | OpGetsize ino => x ← block_getsize svr ino 0; mret (CSize x.1 x.2)
  end.

Fixpoint client_ops {T} `{!Rpc T} (svr : Z) (os : list fs_op) : M T (list client_reply) :=
  match os with
  | [] => mret []
  | o :: os => r ← client_op svr o; rs ← client_ops svr os; mret (r :: rs)
  end.

(** What the client sees of the replies of the file system: the error of a size
    query arrives as the size 2^32 - 1. *)
Definition client_view (o : fs_op) (r : reply) : client_reply :=
  match r with
  | Data n b => CData (bool_decide (0 <= n)) b
  | Status n =>
      match o with
      | OpGetsize _ => CSize true (u32 n)
      | _ => CStatus (bool_decide (0 <= n))
      end
  end.

Lemma f_data_wf {S} {R : S -> vdisk -> Prop} `{!BlockStore S, !Lawful S R} bino ts fl f i off :
  tree_repr (R:=R) bino ts fl f -> is_u32 i -> i < f_ninodes f -> 0 <= off -> block_wf (f_data f i off).
Proof.
  intros (dB & _ & lv & rl & HI & Hn & Hf) Hi Hlt Ho.
  destruct (Hf i) as (_ & _ & _ & Hc); [by split; [apply Hi|rewrite Hn]|]. rewrite <- Hc by done.
  unfold TreeInv.content. cbv zeta. destruct (decide _); [apply null_block_wf|].
  apply TreeInv.blk_wf. by destruct HI.
Qed.

Section client_ops.
Context {S : Type} {R : S -> vdisk -> Prop} `{!BlockStore S, !Lawful S R} (bino svr : Z).
Abbreviation repr := (tree_repr (R:=R) bino).

Lemma wp_call {T A B} (m : M T A) (e : M (option T) B) s (ok : A -> B) dead (Q : A -> T -> Prop)
    (QB : B -> option T -> Prop) :
  e (Some s) = call_result (m s) ok dead -> wp m s Q ->
  (forall a s', Q a s' -> QB (ok a) (Some s')) -> wp e (Some s) QB.
Proof. unfold wp. intros ->. destruct (m s) as [[a s']| | |]; simpl; [auto|done..]. Qed.

Lemma wp_bind_inv {T A B} (m : M T A) (f : A -> M T B) s Q :
  wp (mbind f m) s Q -> wp m s (fun a s' => wp (f a) s' Q).
Proof. unfold wp, mbind, M_bind. by destruct (m s) as [[a s']| | |]. Qed.

Lemma client_op_ok (ts : treedisk_state S) (fl : list Z) (f : files) (o : fs_op) :
  repr ts fl f -> valid_op f o -> (budget f [o] <= length fl)%nat ->
  wp (client_op svr o) (Some ts) (fun r o' => r = client_view o (spec_op f o).1 /\ exists ts' fl',
    o' = Some ts' /\ repr ts' fl' (spec_op f o).2 /\ (length fl <= length fl' + budget f [o])%nat).
Proof.
  intros Hr Hv Hb. pose proof (exec_op_ok bino ts fl f o Hr Hv Hb) as He.
  destruct o as [ino off|ino off b|ino|ino]; cbn [exec_op client_op] in *;
    apply wp_bind_inv in He; apply wp_bind.
  - destruct Hv as [Hi Ho].
    assert (forall r b s', bs_read ino off null_block ts = Ret ((r, b), s') -> 0 <= r -> block_wf b) as Hw.
    { intros r b s' E Hpos. pose proof (treedisk_read_ok bino ts fl f ino off null_block Hr Hi Ho null_block_wf) as H.
      unfold wp in H. cbn [bs_read treedisk_bs] in E. rewrite E in H. destruct H as [_ H].
      destruct (decide _) as [[Hlt _]|_]; injection H as -> ->; [|apply null_block_wf].
      eapply f_data_wf; [exact Hr|exact Hi|exact Hlt|apply Ho]. }
    eapply wp_call; [by apply block_read_call|exact He|]. intros [r b] ts' H. apply wp_ret.
    destruct H as [E (fl' & Hr' & Hl)]. split; [|by eauto]. rewrite <- E. cbn [fst snd client_view].
    cbn [spec_op fst] in E. destruct (decide (r < 0)) as [Hn|Hn].
    + rewrite bool_decide_eq_false_2 by lia. f_equal.
      destruct (decide _) in E; injection E as -> ->; [lia|done].
    + by rewrite bool_decide_eq_true_2 by lia.
  - destruct Hv as (Hi & Hu & Ho & Ho1 & Hw).
    eapply wp_call; [apply block_write_call; [done| |done]|exact He|]; [unfold is_u32 in *; lia|].
    intros r ts' [E (fl' & Hr' & Hl)]. apply wp_ret. split; [|by eauto]. by rewrite <- E.
  - destruct Hv as (Hi & Hu & Hsz).
    eapply wp_call; [apply block_setsize_call; [done|done]|exact He|].
    intros r ts' [E (fl' & Hr' & Hl)]. apply wp_ret. split; [|by eauto]. by rewrite <- E.
  - destruct Hv as [Hu Hsz].
    eapply wp_call; [apply block_getsize_call; done|exact He|].
    intros r ts' [E (fl' & Hr' & Hl)]. apply wp_ret. split; [|by eauto]. by rewrite <- E.
Qed.

Lemma client_ops_ok (os : list fs_op) : forall (ts : treedisk_state S) (fl : list Z) (f : files),
  repr ts fl f -> valid_ops f os -> (budget f os <= length fl)%nat ->
  wp (client_ops svr os) (Some ts)
    (fun rs _ => rs = zip_with client_view os (spec_ops f os).1).
Proof.
  induction os as [|o os IH]; intros ts fl f Hr Hv Hb; cbn [client_ops]; step; [done|].
  destruct Hv as [Hv1 Hv2]. cbn [budget] in Hb.
  wp_use (client_op_ok ts fl f o Hr Hv1) as [-> (ts1 & fl1 & -> & Hr1 & Hl1)]; [simpl; lia|].
  cbn [budget spec_ops] in *. destruct (spec_op f o) as [r f1]. cbn [fst snd] in *.
  step. wp_use (IH ts1 fl1 f1 Hr1 Hv2) as ->; [lia|]. step.
  by destruct (spec_ops f1 os) as [rs f2].
Qed.
End client_ops.

(** * Properties *)

Section properties.
Context {S : Type} `{!BlockStore S}.


(** A message that is shorter than a request, or whose type is none of the
    six, ends the block server, whoever sent it; its own call and every later
    call fail. *)
Lemma block_server_dies (svr : Z) (msg : message) (repsize : nat) (s : S) :
  (length msg < sizeof_request)%nat \/ 6 < get32 (take (8 + PAGESIZE) msg) 0
    \/ get32 (take (8 + PAGESIZE) msg) 0 = 0 ->
  sys_rpc svr msg repsize (Some s) = Ret (None, None) /\
  forall svr' msg' repsize', sys_rpc svr' msg' repsize' (@None S) = Ret (None, None).
Proof.
  intros H. split; [|done]. unfold sys_rpc, block_server_rpc, server_rpc.
  enough (block_proc_round msg 0 (BlockServer s []) = Exit) as -> by done.
  unfold block_proc_round. destruct H as [H|H].
  - apply bind_Exit. rewrite bool_decide_eq_false_2; [done|]. rewrite length_take. lia.
  - set (req := take (8 + PAGESIZE) msg) in *. clearbody req. cbv zeta.
    unfold mbind, M_bind, assert_. destruct (bool_decide _); [|done]. cbn [mret M_ret].
    unfold BLOCK_READ, BLOCK_WRITE, BLOCK_SYNC, BLOCK_GETSIZE, BLOCK_SETSIZE, BLOCK_GETNINODES.
    by rewrite !decide_False by lia.
Qed.

(** A protdisk over a block server cannot be synced: the server accepts
    [sync] only for inode -1, the protdisk passes its own inode number. *)
Lemma protdisk_sync_refused (s : S) (svr pino ino : Z) :
  is_u32 pino -> pino <> minus1_u ->
  protdisk_sync ino (ProtDisk (Some s) svr pino) = Ret (-1, ProtDisk (Some s) svr pino).
Proof.
  intros Hp Hne. unfold protdisk_sync. destruct (decide (ino <> 0)); [done|].
  unfold pd_call, mbind, M_bind, get, lift. cbn [pd_kernel pd_below pd_ino].
  by rewrite block_sync_call, decide_False by done.
Qed.
End properties.

(** Through a protdisk over a block server, with its inode [pino]: a write
    followed by a read returns the data written, or what the block held. *)
Lemma protdisk_write_read {S} {R : S -> vdisk -> Prop} `{!BlockStore S, !Lawful S R}
    (s : S) (d : vdisk) (svr pino off off' : Z) (b b' buf : block) :
  R s d -> is_Some (d !! (pino, off)) -> block_wf b -> d !! (pino, off') = Some b' ->
  wp (r ← protdisk_write 0 off b; x ← protdisk_read 0 off' buf; mret (r, x)) (ProtDisk (Some s) svr pino)
    (fun p _ => p = (0, (0, if decide (off' = off) then b else b'))).
Proof.
  intros HR Hk Hb Hk'. destruct (law_wf _ _ HR) as [_ Hui Huo].
  assert (is_u32 pino /\ is_u32 off /\ is_u32 off') as (Hp & Ho & Ho') by eauto 10.
  step. unfold protdisk_write. rewrite decide_False by (intros H; by apply H). unfold pd_call. steps.
  eapply wp_call; [by apply block_write_call|by apply (law_write s d pino off b HR)|].
  intros r s1 [-> HR1]. steps. unfold protdisk_read. rewrite decide_False by (intros H; by apply H).
  unfold pd_call. steps. cbn [pd_kernel pd_below pd_ino].
  set (b1 := if decide (off' = off) then b else b').
  assert (<[(pino, off):=b]> d !! (pino, off') = Some b1) as Hk1.
  { unfold b1. destruct (decide (off' = off)) as [->|Hne]; [by rewrite lookup_insert_eq|].
    rewrite lookup_insert_ne by congruence. done. }
  pose proof (law_read s1 _ pino off' b1 null_block HR1 Hk1 null_block_wf) as Hrd.
  eapply wp_call; [apply block_read_call; [done|done|]|exact Hrd|].
  { intros r b0 s' E _. unfold wp in Hrd. rewrite E in Hrd. destruct Hrd as [[= -> ->] _].
    eapply vd_block; [by eapply law_wf|exact Hk1]. }
  intros x s2 [-> _]. by steps.
Qed.

(** C2. The whole stack that [block_init] builds on an empty bottom store, seen
    through messages: any sequence of client calls within the limits of the
    file system gets the replies of the abstract files. *)
Theorem block_server_fs_correct {S} {R : S -> vdisk -> Prop} `{!BlockStore S, !Lawful S R}
    (bot : S) (d : vdisk) (cache : list block) (nblocks svr : Z) (os : list fs_op) :
  R bot d -> size_of d 0 nblocks -> 4 <= nblocks < 2147483648 ->
  sb_n_inodeblocks (TreeInv.blk 0 d 0) = 0 -> length cache = 20%nat ->
  valid_ops (f_empty NINODES) os -> Z.of_nat (budget (f_empty NINODES) os) <= nblocks - 3 ->
  exists ts, block_init bot cache = Ret ts /\
    wp (client_ops svr os) (Some ts)
      (fun rs _ => rs = zip_with client_view os (spec_ops (f_empty NINODES) os).1).
Proof.
  intros HR Hsz Hnb H0 Hc Hv Hb.
  assert (clock_repr (clockdisk_init bot cache NCACHE_BLOCKS) d) as HC
    by (apply clockdisk_init_repr; [exact HR|done|by rewrite Hc]).
  pose proof (treedisk_create_ok 0 _ d nblocks NINODES HC Hsz ltac:(lia) ltac:(done)) as H.
  change ((NINODES + 127) / 127) with 2 in H. change ((NINODES + 127) / 128) with 2 in H.
  apply wp_Ret in H as (r & s' & E & -> & dB' & fl & HR' & Hf & Hfl & _); [|lia|done].
  exists (treedisk_init s' BOTTOM_INODE). split; [unfold block_init, BOTTOM_INODE; by rewrite E|].
  apply (client_ops_ok 0 svr os _ fl (f_empty NINODES)).
  - exists dB'. split; [by split|exact Hf].
  - exact Hv.
  - rewrite Hfl, length_seqZ. lia.
Qed.

(** * The properties at concrete servers *)


Lemma block_server_dies_witness :
  sys_rpc 7 (block_request 9 0 0) 8 (Some wit_ram) = Ret (None, None).
Proof.
  apply (block_server_dies 7 (block_request 9 0 0) 8 wit_ram).
  right. left. vm_compute. reflexivity.
Defined.

Lemma protdisk_sync_refused_witness :
  protdisk_sync 0 (ProtDisk (Some wit_ram) 7 0) = Ret (-1, ProtDisk (Some wit_ram) 7 0).
Proof. apply protdisk_sync_refused; done. Defined.

Lemma protdisk_write_read_witness :
  wp (r ← protdisk_write 0 1 null_block; x ← protdisk_read 0 0 null_block; mret (r, x))
    (ProtDisk (Some wit_ram) 7 0) (fun p _ => p = (0, (0, null_block))).
Proof.
  apply (protdisk_write_read (R:=ram_repr) wit_ram _ 7 0 1 0 null_block null_block null_block wit_ram_repr);
    [vm_compute; by eauto|done|vm_compute; reflexivity].
Defined.

Definition wit_client_ops : list fs_op :=
  [OpWrite 0 300 null_block; OpRead 0 3; OpGetsize 0; OpGetsize 999; OpTruncate 0; OpRead 0 0].

Lemma wit_client_ops_valid : valid_ops (f_empty NINODES) wit_client_ops.
Proof. repeat split; vm_compute; congruence. Qed.

Lemma block_server_fs_correct_witness :
  exists ts, block_init wit_store (replicate 20 null_block) = Ret ts /\
    wp (client_ops 11 wit_client_ops) (Some ts)
      (fun rs _ => rs = [CStatus true; CData true null_block; CSize true 301; CSize true 4294967295;
                         CStatus true; CData false null_block]).
Proof.
  eapply (block_server_fs_correct wit_store (disk_of wit_blocks) (replicate 20 null_block) 14 11);
    [exact wit_store_repr|exact (disk_of_size wit_blocks)|done|exact wit_store_new|done
    |exact wit_client_ops_valid|vm_compute; congruence].
Defined.
