(* ===== verification/TreeCheck.v ===== *)
(** src/src/block/treedisk_chk.c: the integrity check of a treedisk file system.
    It is compared with a reference, the list of all blocks the file system uses
    in the order in which the check marks them, and shown to accept what the
    operations of treedisk.c leave behind. *)
From stdpp Require Import base numbers list gmap.
From Stdlib Require Import ZArith Lia Permutation.
From S2P Require Import Prelude BlockStore RamDisk TreeDisk TreeInv TreeSpec TreeFree TreeCreate TreeProps.

(** [struct block_info]. *)
Inductive bi_status := BI_UNKNOWN | BI_SUPER | BI_INODE | BI_INDIR | BI_DATA | BI_FREELIST | BI_FREE.

#[export] Instance bi_status_eq_dec : EqDecision bi_status.
Proof. solve_decision. Defined.

Abbreviation block_info := (list bi_status).

Section check.
Context {S : Type} `{!BlockStore S}.

(** [binfo[b].status], read and written. *)
Definition bi_get (binfo : block_info) (b : Z) : M S bi_status := read_nth binfo (Z.to_nat b).

Definition bi_set (binfo : block_info) (b : Z) (x : bi_status) : M S block_info :=
  if decide (Z.to_nat b < length binfo)%nat then mret (<[Z.to_nat b:=x]> binfo) else undef.

(** A read into an uninitialised variable, whose result is not looked at: when it
    fails the contents are undefined. *)
Definition chk_read (b : Z) : M S block :=
  x ← bs_read 0 b null_block; if decide (x.1 < 0) then undef else mret x.2.

(** The loop over the references of an indirect block, which [f] checks. *)
Fixpoint check_refs (f : Z -> Z -> block_info -> M S (bool * block_info)) (size nblocks : Z)
    (rs : list Z) (offset : Z) (binfo : block_info) : M S (bool * block_info) :=
  match rs with
  | [] => mret (true, binfo)
  | r :: rs =>
      x ← f r offset binfo;
      let '(ok, binfo) := x in
      if (ok : bool) then
        let offset := u32 (offset + size) in
        if decide (offset >= nblocks) then mret (true, binfo)
        else check_refs f size nblocks rs offset binfo
      else mret (false, binfo)
  end.

(** [1 << n], for an [int]. *)
Definition shift_1 (n : Z) : M S Z := if decide (n < 31) then mret (u32 (Z.shiftl 1 n)) else undef.

Fixpoint check_inode (nblocks fs_nblocks : Z) (nlevels : nat) (node offset : Z) (binfo : block_info)
    : M S (bool * block_info) :=
  if decide (node = 0) then mret (true, binfo) else
  if decide (node >= fs_nblocks) then mret (false, binfo) else
  st ← bi_get binfo node;
  if decide (st <> BI_UNKNOWN) then mret (false, binfo) else
  match nlevels with
  | O => binfo ← bi_set binfo node BI_DATA; mret (true, binfo)
  | Datatypes.S nlevels =>
      binfo ← bi_set binfo node BI_INDIR;
      ib ← chk_read node;
      size ← shift_1 (Z.of_nat nlevels * log_rpb);
      check_refs (check_inode nblocks fs_nblocks nlevels) size nblocks (refs ib) offset binfo
  end.

(** [for (; b <= n_inodeblocks; b++) binfo[b].status = BI_INODE]. *)
Fixpoint mark_inodes (n : nat) (b : Z) (binfo : block_info) : M S block_info :=
  match n with
  | O => mret binfo
  | Datatypes.S n => binfo ← bi_set binfo b BI_INODE; mark_inodes n (b + 1) binfo
  end.

(** The inodes of one block, from [i] on. *)
Fixpoint check_inodes (fs_nblocks : Z) (tib : block) (n i : nat) (binfo : block_info) : M S (bool * block_info) :=
  match n with
  | O => mret (true, binfo)
  | Datatypes.S n =>
      let root := get32 tib (root_word i) in
      let nblocks := get32 tib (nblocks_word i) in
      if decide (nblocks <> 0) then
        nlevels ← done_ (count_levels level_fuel (nblocks - 1) 0);
        x ← check_inode nblocks fs_nblocks nlevels root 0 binfo;
        let '(ok, binfo) := x in
        if (ok : bool) then check_inodes fs_nblocks tib n (Datatypes.S i) binfo else mret (false, binfo)
      else check_inodes fs_nblocks tib n (Datatypes.S i) binfo
  end.

Fixpoint check_inodeblocks (fs_nblocks : Z) (n : nat) (b : Z) (binfo : block_info) : M S (bool * block_info) :=
  match n with
  | O => mret (true, binfo)
  | Datatypes.S n =>
      tib ← chk_read b;
      x ← check_inodes fs_nblocks tib (Z.to_nat INODES_PER_BLOCK) 0 binfo;
      let '(ok, binfo) := x in
      if (ok : bool) then check_inodeblocks fs_nblocks n (b + 1) binfo else mret (false, binfo)
  end.

(** The references of a free-list block, from the second on. *)
Fixpoint check_free_refs (fs_nblocks : Z) (rs : list Z) (binfo : block_info) : M S (bool * block_info) :=
  match rs with
  | [] => mret (true, binfo)
  | r :: rs =>
      if decide (r <> 0) then
        if decide (r >= fs_nblocks) then check_free_refs fs_nblocks rs binfo else
        st ← bi_get binfo r;
        if decide (st <> BI_UNKNOWN) then mret (false, binfo) else
        binfo ← bi_set binfo r BI_FREE;
        check_free_refs fs_nblocks rs binfo
      else check_free_refs fs_nblocks rs binfo
  end.

Fixpoint check_freelist (fuel : nat) (fs_nblocks fl : Z) (binfo : block_info) : M S bool :=
  match fuel with
  | O => out_of_fuel
  | Datatypes.S fuel =>
      if decide (fl = 0) then mret true else
      if decide (fl >= fs_nblocks) then mret false else
      st ← bi_get binfo fl;
      if decide (st <> BI_UNKNOWN) then mret false else
      binfo ← bi_set binfo fl BI_FREELIST;
      tfb ← chk_read fl;
      x ← check_free_refs fs_nblocks (get32 tfb <$> seq 1 (REFS_PER_BLOCK - 1)) binfo;
      let '(ok, binfo) := x in
      if (ok : bool) then check_freelist fuel fs_nblocks (get32 tfb 0) binfo else mret false
  end.

(** The last loop only prints, and the result is 1 whatever it finds. Every
    block of the free list is marked, which bounds the fuel. *)
Definition treedisk_check : M S Z :=
  r ← bs_getsize 0;
  let fs_nblocks := u32 r in
  if decide (fs_nblocks = 0) then mret 0 else
  superblock ← chk_read 0;
  let n_inodeblocks := sb_n_inodeblocks superblock in
  if decide (u32 (1 + n_inodeblocks) > fs_nblocks) then mret 0 else
  if decide (sb_free_list superblock >= fs_nblocks) then mret 0 else
  let binfo := replicate (Z.to_nat fs_nblocks) BI_UNKNOWN in
  binfo ← bi_set binfo 0 BI_SUPER;
  binfo ← mark_inodes (Z.to_nat n_inodeblocks) 1 binfo;
  x ← check_inodeblocks fs_nblocks (Z.to_nat n_inodeblocks) 1 binfo;
  let '(ok, binfo) := x in
  if (ok : bool) then
    ok ← check_freelist (Datatypes.S (Z.to_nat fs_nblocks)) fs_nblocks (sb_free_list superblock) binfo;
    mret (if (ok : bool) then 1 else 0)
  else mret 0.
End check.

(** * The blocks that the check marks

    What it visits on a disk [dB] of [n] blocks. *)
Section reference.
Context (dB : vdisk) (n : Z).

Fixpoint refs_visited (f : Z -> Z -> list Z) (size nblocks : Z) (rs : list Z) (offset : Z) : list Z :=
  match rs with
  | [] => []
  | r :: rs =>
      f r offset ++
      if decide (u32 (offset + size) >= nblocks) then [] else refs_visited f size nblocks rs (u32 (offset + size))
  end.

(** The tree below [node], as far as a file of [nblocks] blocks needs it. *)
Fixpoint tree_visited (nblocks : Z) (d : nat) (node offset : Z) : list Z :=
  if decide (node = 0) then [] else
  node :: match d with
          | O => []
          | Datatypes.S d => refs_visited (tree_visited nblocks d) (256 ^ Z.of_nat d) nblocks (refs (blk 0 dB node)) offset
          end.

Definition inode_visited (tib : block) (i : nat) : list Z :=
  let nblocks := get32 tib (nblocks_word i) in
  if decide (nblocks = 0) then [] else tree_visited nblocks (tree_levels nblocks) (get32 tib (root_word i)) 0.

Definition inodes_visited (b : Z) : list Z := seq 0 128 ≫= inode_visited (blk 0 dB b).

(** Entries of a free-list block that refer off the disk are skipped, as by the [continue]
    of treedisk_chk.c: they may be anything. The chain itself may not leave the disk. *)
Definition free_refs (rs : list Z) : list Z := filter (fun r => r <> 0 /\ r < n) rs.

(** The free list that starts at a block; one that comes back to itself has no
    such list. *)
Inductive free_visited : Z -> list Z -> Prop :=
| fv_nil : free_visited 0 []
| fv_cons h l : h <> 0 -> free_visited (get32 (blk 0 dB h) 0) l ->
    free_visited h (h :: free_refs (get32 (blk 0 dB h) <$> seq 1 255) ++ l).

Definition meta_blocks : list Z := seqZ 0 (1 + sb_n_inodeblocks (blk 0 dB 0)).

Definition files_visited : list Z := seqZ 1 (sb_n_inodeblocks (blk 0 dB 0)) ≫= inodes_visited.

(** What the check tests: every block is on the disk and has one use. *)
Definition check_passes : Prop :=
  1 + sb_n_inodeblocks (blk 0 dB 0) <= n /\ sb_free_list (blk 0 dB 0) < n /\
  exists fl, free_visited (sb_free_list (blk 0 dB 0)) fl /\
    NoDup (meta_blocks ++ files_visited ++ fl) /\
    forall b, b ∈ files_visited ++ fl -> b < n.

(** ** Marking *)

Ltac mem_tauto := repeat (rewrite elem_of_app || rewrite elem_of_cons || rewrite elem_of_nil); tauto.

(** The blocks [l] are on the disk, all different, and none of them in [U]. *)
Definition fresh (U l : list Z) : Prop := NoDup l /\ forall b, b ∈ l -> (b ∉ U) /\ b < n.

Lemma fresh_app U l1 l2 : fresh U (l1 ++ l2) <-> fresh U l1 /\ fresh (l1 ++ U) l2.
Proof.
  unfold fresh. rewrite NoDup_app. split.
  - intros [(H1 & H12 & H2) H]. split; (split; [done|]); intros b Hb.
    + apply H, elem_of_app. by left.
    + destruct (H b) as [HU Hn]; [apply elem_of_app; by right|]. split; [|done]. rewrite elem_of_app.
      intros [Hb1|?]; [by apply (H12 b)|done].
  - intros [[H1 HU1] [H2 HU2]]. split_and!; [done| |done|].
    + intros b Hb1 Hb2. destruct (HU2 b Hb2) as [H _]. rewrite elem_of_app in H. tauto.
    + intros b [Hb|Hb]%elem_of_app; [by apply HU1|]. destruct (HU2 b Hb) as [H ?].
      rewrite elem_of_app in H. tauto.
Qed.

Lemma fresh_nil U : fresh U [].
Proof. split; [constructor|]. by intros b ?%elem_of_nil. Qed.

(** [binfo] has a status for exactly the blocks in [U]. *)
Definition marks (binfo : block_info) (U : list Z) : Prop :=
  length binfo = Z.to_nat n /\
  forall b, 0 <= b < n -> (binfo !! Z.to_nat b = Some BI_UNKNOWN) <-> (b ∉ U).

Lemma marks_ext binfo U U' : (forall b, b ∈ U <-> b ∈ U') -> marks binfo U -> marks binfo U'.
Proof. intros E [H1 H2]. split; [done|]. intros b Hb. by rewrite H2, E. Qed.

Section store.
Context {S : Type} {R : S -> vdisk -> Prop} `{!BlockStore S, !Lawful S R}.
Context (Hsz : size_of dB 0 n).

Lemma bi_get_ok binfo U b (s : S) : marks binfo U -> 0 <= b < n ->
  wp (bi_get binfo b) s (fun st s' => s' = s /\ (st = BI_UNKNOWN <-> b ∉ U)).
Proof.
  intros [Hl Hm] Hb. destruct (lookup_lt_is_Some_2 binfo (Z.to_nat b)) as [st Hst]; [lia|].
  eapply wp_read_nth; [done|]. split; [done|]. rewrite <- Hm, Hst by done. split; congruence.
Qed.

Lemma bi_set_ok binfo U b x (s : S) : marks binfo U -> 0 <= b < n -> x <> BI_UNKNOWN ->
  wp (bi_set binfo b x) s (fun binfo' s' => s' = s /\ marks binfo' (b :: U)).
Proof.
  intros [Hl Hm] Hb Hx. unfold bi_set. rewrite decide_True by lia. step. split; [done|]. split.
  - by rewrite length_insert.
  - intros c Hc. rewrite elem_of_cons. destruct (decide (c = b)) as [->|Hne].
    + rewrite list_lookup_insert_eq by lia. split; [congruence|tauto].
    + rewrite list_lookup_insert_ne by lia. rewrite Hm by done. tauto.
Qed.

Lemma chk_read_ok b (s : S) : R s dB -> 0 <= b < n -> wp (chk_read b) s (fun x s' => x = blk 0 dB b /\ R s' dB).
Proof.
  intros HR Hb. unfold chk_read. step.
  wp_use (law_read s dB 0 b (blk 0 dB b) null_block HR) as [-> HR'];
    [apply blk_present, Hsz, Hb|apply null_block_wf|].
  cbn [fst snd]. rewrite decide_False by lia. by step.
Qed.

(** The outcome of checking that the blocks [l] are fresh. *)
Definition checked (U l : list Z) (x : bool * block_info) (s : S) : Prop :=
  R s dB /\ if x.1 then fresh U l /\ marks x.2 (l ++ U) else ~ fresh U l.

Lemma checked_nil U binfo (s : S) : R s dB -> marks binfo U -> checked U [] (true, binfo) s.
Proof. intros HR Hm. split; [done|]. split; [apply fresh_nil|done]. Qed.

Lemma checked_seq U l1 l2 (m : M S (bool * block_info)) k (s : S) :
  wp m s (checked U l1) ->
  (forall binfo s', R s' dB -> marks binfo (l1 ++ U) -> wp (k binfo) s' (checked (l1 ++ U) l2)) ->
  wp (x ← m; let '(ok, binfo) := x in if (ok : bool) then k binfo else mret (false, binfo)) s (checked U (l1 ++ l2)).
Proof.
  intros Hm Hk. step. eapply wp_mono; [exact Hm|]. intros [[|] binfo] s' [HR H]; cbn [fst snd] in H.
  - destruct H as [Hf Hm']. eapply wp_mono; [by apply Hk|]. intros [[|] binfo'] s2 [HR2 H2]; (split; [done|]); cbn [fst snd] in *.
    + destruct H2 as [Hf2 Hm2]. split; [by apply fresh_app|]. eapply marks_ext; [|exact Hm2]. intros b. rewrite !elem_of_app. tauto.
    + rewrite fresh_app. tauto.
  - step. split; [done|]. cbn. rewrite fresh_app. tauto.
Qed.

(** One block is tested and marked. *)
Lemma checked_one U b x l binfo (k : block_info -> M S (bool * block_info)) (s : S) :
  R s dB -> marks binfo U -> 0 <= b < n -> x <> BI_UNKNOWN ->
  (forall binfo, marks binfo (b :: U) -> wp (k binfo) s (checked (b :: U) l)) ->
  wp (st ← bi_get binfo b; if decide (st <> BI_UNKNOWN) then mret (false, binfo) else
      binfo ← bi_set binfo b x; k binfo) s (checked U (b :: l)).
Proof.
  intros HR Hm Hb Hx Hk. change (b :: l) with ([b] ++ l). step. wp_use bi_get_ok as [-> Hst]; [done..|].
  destruct (decide (a <> BI_UNKNOWN)) as [Ha|Ha].
  - step. split; [done|]. cbn [fst]. intros [_ H]%fresh_app%proj1. destruct (H b) as [HU _]; [by left|]. tauto.
  - step. wp_use bi_set_ok as [-> Hm']; [done..|]. assert (b ∉ U) as HU by (apply Hst, dec_stable; tauto).
    eapply wp_mono; [by apply Hk|]. intros [[|] binfo'] s' [HR' H']; (split; [done|]); cbn [fst snd] in *; rewrite fresh_app.
    + destruct H' as [H1 H2]. split; [split; [|done]|].
      * split; [apply NoDup_singleton|]. intros c ->%list_elem_of_singleton. split; [done|lia].
      * eapply marks_ext; [|exact H2]. intros c. mem_tauto.
    + tauto.
Qed.

Lemma not_fresh_cons U b l : n <= b -> ~ fresh U (b :: l).
Proof. intros Hb [_ H]. destruct (H b); [by left|lia]. Qed.

(** ** The loops *)

Lemma shift_1_ok d (s : S) Q : (d <= 3)%nat -> Q (256 ^ Z.of_nat d) s -> wp (shift_1 (Z.of_nat d * log_rpb)) s Q.
Proof.
  intros Hd HQ. rewrite log_rpb_8. unfold shift_1. rewrite decide_True by lia. step.
  assert (d = 0 \/ d = 1 \/ d = 2 \/ d = 3)%nat as [-> |[-> |[-> | ->]]] by lia; exact HQ.
Qed.

Lemma refs_u32 b : Forall is_u32 (refs b).
Proof. apply Forall_fmap, Forall_forall. intros i _. apply get32_u32. Qed.

Lemma check_refs_ok f fv size nblocks rs : forall offset U binfo (s : S),
  R s dB -> marks binfo U -> Forall is_u32 rs ->
  (forall r offset U binfo (s : S), is_u32 r -> R s dB -> marks binfo U ->
     wp (f r offset binfo) s (checked U (fv r offset))) ->
  wp (check_refs f size nblocks rs offset binfo) s (checked U (refs_visited fv size nblocks rs offset)).
Proof.
  induction rs as [|r rs IH]; intros offset U binfo s HR Hm Hrs Hf; cbn [check_refs refs_visited].
  { step. by apply checked_nil. }
  apply Forall_cons in Hrs as [Hr Hrs]. eapply checked_seq; [by apply Hf|].
  intros binfo1 s1 HR1 Hm1. destruct (decide (u32 (offset + size) >= nblocks)).
  - step. by apply checked_nil.
  - by apply IH.
Qed.

Lemma check_inode_ok nblocks d : (d <= 4)%nat -> forall node offset U binfo (s : S),
  is_u32 node -> R s dB -> marks binfo U ->
  wp (check_inode nblocks n d node offset binfo) s (checked U (tree_visited nblocks d node offset)).
Proof.
  induction d as [|d IH]; intros Hd node offset U binfo s Hnode HR Hm; cbn [check_inode tree_visited];
    destruct (decide (node = 0)) as [H0|H0]; try (step; by apply checked_nil);
    (destruct (decide (node >= n)) as [Hn|Hn]; [step; split; [done|]; apply not_fresh_cons; lia|]);
    destruct Hnode as [Hnode ?]; (apply checked_one; [done|done|lia|done|]); intros binfo' Hm'.
  - step. by apply checked_nil.
  - step. wp_use chk_read_ok as [-> HR1]; [done|lia|]. step. apply shift_1_ok; [lia|].
    apply check_refs_ok; [done|done|apply refs_u32|]. intros. apply IH; [lia|done..].
Qed.

Lemma check_inodes_ok tib k : forall i U binfo (s : S), R s dB -> marks binfo U ->
  wp (check_inodes n tib k i binfo) s (checked U (seq i k ≫= inode_visited tib)).
Proof.
  induction k as [|k IH]; intros i U binfo s HR Hm; cbn [check_inodes seq].
  { step. by apply checked_nil. }
  rewrite bind_cons. unfold inode_visited at 1. cbv zeta. set (nb := get32 tib (nblocks_word i)).
  assert (is_u32 nb) as Hu by apply get32_u32. destruct (decide (nb = 0)) as [H0|H0].
  - rewrite decide_False by tauto. by apply IH.
  - rewrite decide_True by done.
    assert (count_levels level_fuel (nb - 1) 0 = Some (tree_levels nb)) as ->.
    { destruct (tree_levels_spec nb Hu) as (E & _). unfold nlevels_of in E. rewrite decide_True in E; [done|].
      destruct Hu. lia. }
    step. cbn [done_]. step. eapply checked_seq.
    + apply check_inode_ok; [by apply tree_levels_spec|apply get32_u32|done..].
    + intros. by apply IH.
Qed.

Lemma check_inodeblocks_ok k : forall b U binfo (s : S), R s dB -> marks binfo U -> 0 <= b -> b + Z.of_nat k <= n ->
  wp (check_inodeblocks n k b binfo) s (checked U (seqZ b (Z.of_nat k) ≫= inodes_visited)).
Proof.
  induction k as [|k IH]; intros b U binfo s HR Hm Hb Hk; cbn [check_inodeblocks].
  { step. by apply checked_nil. }
  rewrite seqZ_cons by lia. rewrite bind_cons. step. wp_use chk_read_ok as [-> HR1]; [done|lia|].
  eapply checked_seq; [by apply check_inodes_ok|]. intros binfo1 s1 HR2 Hm1.
  replace (Z.pred (Z.of_nat (Datatypes.S k))) with (Z.of_nat k) by lia. rewrite <- Z.add_1_r. apply IH; [done|done|lia|lia].
Qed.

Lemma check_free_refs_ok rs : forall U binfo (s : S), R s dB -> marks binfo U -> Forall is_u32 rs ->
  wp (check_free_refs n rs binfo) s (checked U (free_refs rs)).
Proof.
  induction rs as [|r rs IH]; intros U binfo s HR Hm Hrs; cbn [check_free_refs].
  { step. by apply checked_nil. }
  apply Forall_cons in Hrs as [Hr Hrs]. unfold free_refs. destruct (decide (r <> 0)) as [H0|H0].
  - destruct (decide (r >= n)) as [Hn|Hn].
    + rewrite filter_cons_False by lia. by apply IH.
    + rewrite filter_cons_True by lia. destruct Hr. apply checked_one; [done|done|lia|done|]. intros. by apply IH.
  - rewrite filter_cons_False by tauto. by apply IH.
Qed.

Lemma mark_inodes_ok k : forall b U binfo (s : S), marks binfo U -> 0 <= b -> b + Z.of_nat k <= n ->
  wp (mark_inodes k b binfo) s (fun binfo' s' => s' = s /\ marks binfo' (seqZ b (Z.of_nat k) ++ U)).
Proof.
  induction k as [|k IH]; intros b U binfo s Hm Hb Hk; cbn [mark_inodes].
  { by step. }
  step. wp_use bi_set_ok as [-> Hm1]; [done|lia|done|]. eapply wp_mono; [apply IH; [done|lia|lia]|].
  intros binfo' s' [-> Hm2]. split; [done|]. rewrite seqZ_cons by lia.
  replace (Z.pred (Z.of_nat (Datatypes.S k))) with (Z.of_nat k) by lia. rewrite <- Z.add_1_r.
  eapply marks_ext; [|exact Hm2]. intros c. mem_tauto.
Qed.

Lemma fresh_ext U U' l : (forall b, b ∈ U <-> b ∈ U') -> fresh U l -> fresh U' l.
Proof. intros E [H1 H2]. split; [done|]. intros b Hb. rewrite <- E. by apply H2. Qed.

(** Distinct blocks of the disk are at most [n]. *)
Lemma distinct_blocks U : NoDup U -> (forall b, b ∈ U -> 0 <= b < n) -> (length U <= Z.to_nat n)%nat.
Proof.
  intros Hnd HU. replace (Z.to_nat n) with (length (seqZ 0 n)) by apply length_seqZ.
  apply submseteq_length, NoDup_submseteq; [done|]. intros b Hb. apply elem_of_seqZ. specialize (HU b Hb). lia.
Qed.

Lemma free_visited_inv h l : h <> 0 -> free_visited h l ->
  exists l', l = h :: free_refs (get32 (blk 0 dB h) <$> seq 1 255) ++ l' /\ free_visited (get32 (blk 0 dB h) 0) l'.
Proof. intros Hh H. inversion H; subst; [done|]. eauto. Qed.

Lemma check_freelist_ok fuel : forall fl U binfo (s : S), R s dB -> marks binfo U -> is_u32 fl ->
  NoDup U -> (forall b, b ∈ U -> 0 <= b < n) -> (Z.to_nat n < fuel + length U)%nat ->
  wp (check_freelist fuel n fl binfo) s (fun ok s' => R s' dB /\
    if ok then exists l, free_visited fl l /\ fresh U l else forall l, free_visited fl l -> ~ fresh U l).
Proof.
  induction fuel as [|fuel IH]; intros fl U binfo s HR Hm Hfl Hnd HU Hf; cbn [check_freelist].
  { pose proof (distinct_blocks U Hnd HU). lia. }
  destruct (decide (fl = 0)) as [->|H0].
  { step. split; [done|]. exists []. split; [constructor|apply fresh_nil]. }
  destruct (decide (fl >= n)) as [Hn|Hn].
  { step. split; [done|]. intros l (l' & -> & _)%free_visited_inv; [|done]. apply not_fresh_cons. lia. }
  destruct Hfl as [Hfl0 Hfl]. step. wp_use bi_get_ok as [-> Hst]; [done|lia|].
  destruct (decide (a <> BI_UNKNOWN)) as [Ha|Ha].
  { step. split; [done|]. intros l (l' & -> & _)%free_visited_inv; [|done]. intros [_ H].
    destruct (H fl) as [Hin _]; [by left|]. tauto. }
  assert (fl ∉ U) as Hin by (apply Hst, dec_stable; tauto). step. wp_use bi_set_ok as [-> Hm1]; [done|lia|done|].
  step. wp_use chk_read_ok as [-> HR1]; [done|lia|]. step.
  set (es := free_refs (get32 (blk 0 dB fl) <$> seq 1 255)).
  assert (fresh U [fl]) as Hone.
  { split; [apply NoDup_singleton|]. intros c ->%list_elem_of_singleton. split; [done|lia]. }
  eapply wp_mono; [apply (check_free_refs_ok _ (fl :: U)); [done|done|]|].
  { apply Forall_fmap, Forall_forall. intros i _. apply get32_u32. }
  change (REFS_PER_BLOCK - 1)%nat with 255%nat. fold es.
  intros [[|] binfo2] s2 [HR2 H2]; cbn [fst snd] in H2.
  - destruct H2 as [Hes Hm2].
    assert (NoDup (es ++ fl :: U)) as Hnd2.
    { apply NoDup_app. split_and!; [apply Hes| |by constructor]. intros c Hc. by apply Hes. }
    assert (forall b, b ∈ es ++ fl :: U -> 0 <= b < n) as HU2.
    { intros b [Hb|[-> |Hb]%elem_of_cons]%elem_of_app; [|lia|by apply HU].
      pose proof (proj2 Hes b Hb) as [_ ?]. unfold es, free_refs in Hb. apply list_elem_of_filter in Hb as [_ Hb].
      apply list_elem_of_fmap in Hb as (i & -> & _). pose proof (get32_u32 (blk 0 dB fl) i) as [? _]. lia. }
    eapply wp_mono; [apply (IH _ (es ++ fl :: U)); [done|done|apply get32_u32|done|done|]|].
    { rewrite length_app. cbn [length]. lia. }
    intros [|] s3 [HR3 H3]; (split; [done|]).
    + destruct H3 as (l & Hl & Hfr). exists (fl :: es ++ l). split; [by constructor|].
      apply (fresh_app U [fl] (es ++ l)). split; [done|]. by apply fresh_app.
    + intros l (l' & -> & Hl')%free_visited_inv; [|done]. intros H. fold es in H.
      apply (fresh_app U [fl]) in H as [_ H]. apply fresh_app in H as [_ H]. by apply (H3 l').
  - step. split; [done|]. intros l (l' & -> & Hl')%free_visited_inv; [|done]. intros H. fold es in H.
    apply (fresh_app U [fl]) in H as [_ H]. apply fresh_app in H as [H _]. done.
Qed.

Lemma tree_visited_nonneg nblocks d : forall node offset b, is_u32 node -> b ∈ tree_visited nblocks d node offset -> 0 <= b.
Proof.
  assert (forall f size rs offset b, Forall is_u32 rs ->
    (forall r offset, is_u32 r -> b ∈ f r offset -> 0 <= b) -> b ∈ refs_visited f size nblocks rs offset -> 0 <= b) as Hrefs.
  { intros f size. induction rs as [|r rs IH]; intros offset b Hrs Hf Hb; cbn [refs_visited] in Hb.
    - by apply elem_of_nil in Hb.
    - apply Forall_cons in Hrs as [Hr Hrs]. apply elem_of_app in Hb as [Hb|Hb]; [by eapply Hf|].
      destruct (decide _); [by apply elem_of_nil in Hb|]. by eapply IH. }
  induction d as [|d IH]; intros node offset b Hnode Hb; cbn [tree_visited] in Hb;
    (destruct (decide (node = 0)); [by apply elem_of_nil in Hb|]); apply elem_of_cons in Hb as [->|Hb]; try apply Hnode.
  - by apply elem_of_nil in Hb.
  - eapply Hrefs; [apply refs_u32| |exact Hb]. intros r o Hr. by apply IH.
Qed.

Lemma files_visited_nonneg b : b ∈ files_visited -> 0 <= b.
Proof.
  intros (c & Hc & _)%list_elem_of_bind. apply list_elem_of_bind in Hc as (i & Hi & _).
  unfold inode_visited in Hi. destruct (decide _); [by apply elem_of_nil in Hi|].
  eapply tree_visited_nonneg; [|exact Hi]. apply get32_u32.
Qed.

Lemma meta_mem b : (b ∈ seqZ 1 (sb_n_inodeblocks (blk 0 dB 0)) ++ [0]) <-> b ∈ meta_blocks.
Proof.
  unfold meta_blocks. rewrite elem_of_app, !elem_of_seqZ, list_elem_of_singleton.
  pose proof (get32_u32 (blk 0 dB 0) 0) as [? _]. unfold sb_n_inodeblocks. lia.
Qed.

Lemma check_passes_fresh : 1 + sb_n_inodeblocks (blk 0 dB 0) <= n ->
  let U := seqZ 1 (sb_n_inodeblocks (blk 0 dB 0)) ++ [0] in
  check_passes <-> sb_free_list (blk 0 dB 0) < n /\ fresh U files_visited /\
    exists fl, free_visited (sb_free_list (blk 0 dB 0)) fl /\ fresh (files_visited ++ U) fl.
Proof.
  intros Hroom U. assert (fresh [] meta_blocks) as Hmeta.
  { split; [apply NoDup_seqZ|]. intros b [_ Hb]%elem_of_seqZ. split; [by apply not_elem_of_nil|lia]. }
  assert (forall fl, NoDup (meta_blocks ++ files_visited ++ fl) /\ (forall b, b ∈ files_visited ++ fl -> b < n) <->
    fresh U files_visited /\ fresh (files_visited ++ U) fl) as E.
  { intros fl. transitivity (fresh [] (meta_blocks ++ files_visited ++ fl)).
    - split.
      + intros [H1 H2]. split; [done|]. intros b Hb. split; [by apply not_elem_of_nil|].
        apply elem_of_app in Hb as [Hb|Hb]; [by apply Hmeta|by apply H2].
      + intros [H1 H2]. split; [done|]. intros b Hb. apply H2, elem_of_app. by right.
    - rewrite !fresh_app, app_nil_r. split.
      + intros (_ & H1 & H2). split; (eapply fresh_ext; [|eassumption]); intros b; rewrite ?elem_of_app, <- meta_mem; unfold U; mem_tauto.
      + intros [H1 H2]. split; [done|]. split; (eapply fresh_ext; [|eassumption]); intros b; rewrite ?elem_of_app, <- meta_mem; unfold U; mem_tauto. }
  unfold check_passes. setoid_rewrite E. split.
  - intros (_ & H1 & fl & H2 & H3 & H4). split_and!; [done|done|by exists fl].
  - intros (H1 & H2 & fl & H3 & H4). split_and!; [done|done|by exists fl].
Qed.

Lemma treedisk_check_ok (s : S) : R s dB -> 0 < n < 2147483648 -> 1 + sb_n_inodeblocks (blk 0 dB 0) < two32 ->
  wp treedisk_check s (fun r s' => R s' dB /\ (r = 1 /\ check_passes \/ r = 0 /\ ~ check_passes)).
Proof.
  intros HR Hn Hnib. unfold treedisk_check. step. wp_use (law_getsize s dB 0 n HR Hsz Hn) as [-> HR1].
  pose proof (get32_u32 (blk 0 dB 0) 0) as [Hnib0 _]. fold (sb_n_inodeblocks (blk 0 dB 0)) in Hnib0.
  rewrite (u32_small n) by (unfold is_u32, two32; lia). rewrite decide_False by lia.
  step. wp_use chk_read_ok as [-> HR2]; [done|lia|]. rewrite (u32_small (1 + _)) by (split; lia).
  set (nib := sb_n_inodeblocks (blk 0 dB 0)) in *. set (U := seqZ 1 nib ++ [0]).
  destruct (decide (1 + nib > n)) as [Hbig|Hroom].
  { step. split; [done|]. right. split; [done|]. intros [H _]. fold nib in H. lia. }
  pose proof (check_passes_fresh ltac:(fold nib; lia)) as Hpass. cbv zeta in Hpass. fold nib in Hpass. fold U in Hpass.
  destruct (decide (sb_free_list (blk 0 dB 0) >= n)) as [Hbig|Hfl].
  { step. split; [done|]. right. split; [done|]. intros (_ & H & _). lia. }
  assert (marks (replicate (Z.to_nat n) BI_UNKNOWN) []) as Hm0.
  { split; [apply length_replicate|]. intros b Hb. rewrite lookup_replicate_2 by lia. split; [|done].
    intros _. apply not_elem_of_nil. }
  step. wp_use bi_set_ok as [-> Hm1]; [done|lia|done|]. step.
  wp_use mark_inodes_ok as [-> Hm2]; [done|lia|lia|]. rewrite Z2Nat.id in Hm2 by done. fold U in Hm2.
  step. eapply wp_mono; [apply (check_inodeblocks_ok _ 1 U); [done|done|lia|lia]|]. rewrite Z2Nat.id by done. fold nib.
  change (seqZ 1 nib ≫= inodes_visited) with files_visited.
  intros [[|] binfo] s1 [HR3 H3]; cbn [fst snd] in H3; cbv beta iota.
  - destruct H3 as [Hfiles Hm3]. step. eapply wp_mono; [apply (check_freelist_ok _ _ (files_visited ++ U)); [done|done|apply get32_u32|..]|].
    + apply NoDup_app. split_and!; [apply Hfiles|by intros b Hb; apply Hfiles|].
      apply NoDup_app. split_and!; [apply NoDup_seqZ| |apply NoDup_singleton].
      intros b Hb%elem_of_seqZ ->%list_elem_of_singleton. lia.
    + intros b [Hb|Hb]%elem_of_app.
      * split; [|by apply Hfiles]. unfold files_visited in Hb. apply (files_visited_nonneg b Hb).
      * apply meta_mem in Hb. unfold meta_blocks in Hb. apply elem_of_seqZ in Hb. fold nib in Hb. lia.
    + lia.
    + intros [|] s2 [HR4 H4]; step; (split; [done|]); rewrite Hpass; [left|right]; (split; [done|]).
      * split; [lia|]. split; [done|]. destruct H4 as (l & H4). by exists l.
      * intros (_ & _ & l & Hl & Hfr). by apply (H4 l).
  - step. split; [done|]. right. split; [done|]. rewrite Hpass. tauto.
Qed.
End store.
End reference.

(** * What treedisk.c leaves behind passes *)

(** The check visits part of a tree. *)
Lemma tree_visited_subtree dB nblocks d : forall node offset,
  tree_visited dB nblocks d node offset ⊆+ if decide (node = 0) then [] else subtree 0 dB d node.
Proof.
  induction d as [|d IH]; intros node offset; cbn [tree_visited subtree]; destruct (decide (node = 0)); try done.
  fold (forest 0 dB d (refs (blk 0 dB node))). rewrite <- Permutation_cons_append. apply submseteq_skip.
  generalize (refs (blk 0 dB node)) as rs. intros rs. revert offset.
  induction rs as [|r rs IHr]; intros offset; cbn [refs_visited]; [done|]. rewrite forest_cons.
  apply submseteq_app; [apply IH|]. destruct (decide _); [apply submseteq_nil_l|apply IHr].
Qed.

Section passes.
Context (lv : Z -> nat) (rl : Z -> role) (fl : list Z) (dB : vdisk) (n : Z).
Context (HI : td_inv 0 lv rl fl dB) (Hsz : size_of dB 0 n).
Context (Hlv : forall i, valid_ino 0 dB i -> lv i = tree_levels (inode_size 0 dB i)).

Lemma present_lt b : present 0 dB b -> 0 <= b < n.
Proof. apply Hsz. Qed.

Lemma free_refs_entries b : b ∈ fl -> (forall r, r ∈ entries (blk 0 dB b) -> r ∈ fl) ->
  free_refs n (get32 (blk 0 dB b) <$> seq 1 255) = entries (blk 0 dB b).
Proof.
  intros Hb Hsub. unfold free_refs, entries in *. revert Hsub. generalize (get32 (blk 0 dB b) <$> seq 1 255) as rs.
  intros rs. induction rs as [|r rs IH]; intros Hsub; [done|]. destruct (decide (r <> 0)) as [H0|H0].
  - rewrite (filter_cons_True (fun r => r <> 0)) in Hsub |- * by done. rewrite filter_cons_True.
    + f_equal. apply IH. intros x Hx. apply Hsub. by right.
    + split; [done|]. destruct (ti_fl _ _ _ _ _ HI r) as [Hp _]; [apply Hsub; by left|]. apply present_lt in Hp. lia.
  - rewrite (filter_cons_False (fun r => r <> 0)) in Hsub |- * by done. rewrite filter_cons_False by tauto. by apply IH.
Qed.

Lemma free_at_visited h l : free_at 0 dB h l -> (forall b, b ∈ l -> b ∈ fl) -> free_visited dB n h l.
Proof.
  induction 1 as [|h l Hh Hl IH]; intros Hsub; [constructor|].
  rewrite <- (free_refs_entries h).
  - constructor; [done|]. apply IH. intros b Hb. apply Hsub. right. apply elem_of_app. by right.
  - apply Hsub. by left.
  - intros r Hr. apply Hsub. right. apply elem_of_app. by left.
Qed.

(** The blocks of an inode are nodes of its tree. *)
Lemma inode_visited_ok i : valid_ino 0 dB i ->
  NoDup (inode_visited dB (blk 0 dB (inode_block i)) (inode_idx i)) /\
  forall b, b ∈ inode_visited dB (blk 0 dB (inode_block i)) (inode_idx i) ->
    present 0 dB b /\ exists l p, rl b = RNode i l p.
Proof.
  intros Hi. unfold inode_visited. fold (inode_size 0 dB i). fold (inode_root 0 dB i).
  destruct (decide (inode_size 0 dB i = 0)) as [H0|H0]; [split; [constructor|by intros b ?%elem_of_nil]|].
  pose proof (tree_visited_subtree dB (inode_size 0 dB i) (tree_levels (inode_size 0 dB i)) (inode_root 0 dB i) 0) as Hsub.
  destruct (decide (inode_root 0 dB i = 0)) as [Hr|Hr].
  { apply submseteq_nil_r in Hsub. rewrite Hsub. split; [constructor|by intros b ?%elem_of_nil]. }
  rewrite <- Hlv in Hsub |- * by done.
  destruct (subtree_nodes 0 lv rl fl dB i HI Hi (lv i) 0 0) as [Hnd Hin]; [done|done|exact Hr|].
  change (fnode 0 dB i 0 0) with (inode_root 0 dB i) in Hnd, Hin. split.
  - apply submseteq_Permutation in Hsub as [k Hk]. rewrite Hk in Hnd. by apply NoDup_app in Hnd as [? _].
  - intros b Hb. destruct (Hin b) as (j & q & Hj & Hq & _ & -> & Hn0).
    { eapply elem_of_submseteq; [exact Hb|exact Hsub]. }
    destruct (ti_node _ _ _ _ _ HI i (0 + j) q Hi) as [Hp Hrole]; [lia|done|done|]. split; [done|]. eauto.
Qed.

(** Inode [128 (b - 1) + k] is the [k]th of block [b]. *)
Lemma inode_of_slot b k : 1 <= b <= sb_n_inodeblocks (blk 0 dB 0) -> (k < 128)%nat ->
  let i := (b - 1) * 128 + Z.of_nat k in
  valid_ino 0 dB i /\ inode_block i = b /\ inode_idx i = k.
Proof.
  intros Hb Hk i. unfold valid_ino, n_inodes, inode_block, inode_idx, INODES_PER_BLOCK, i.
  rewrite Z.div_add_l, (Z.div_small (Z.of_nat k)) by lia.
  rewrite (Z.add_comm _ (Z.of_nat k)), Z.mod_add, Z.mod_small by lia. lia.
Qed.

Lemma slot_visited c k : 1 <= c <= sb_n_inodeblocks (blk 0 dB 0) -> (k < 128)%nat ->
  NoDup (inode_visited dB (blk 0 dB c) k) /\
  forall b, b ∈ inode_visited dB (blk 0 dB c) k -> present 0 dB b /\ exists l p, rl b = RNode ((c - 1) * 128 + Z.of_nat k) l p.
Proof.
  intros Hc Hk. destruct (inode_of_slot c k Hc Hk) as (Hi & Eb & Ek).
  pose proof (inode_visited_ok _ Hi) as H. by rewrite Eb, Ek in H.
Qed.

Lemma files_visited_elem b : b ∈ files_visited dB -> present 0 dB b /\ exists i l p, rl b = RNode i l p.
Proof.
  intros (c & Hc & Hcs%elem_of_seqZ)%list_elem_of_bind. apply list_elem_of_bind in Hc as (k & Hk & Hks%elem_of_seq).
  destruct (slot_visited c k) as [_ H]; [lia|lia|]. apply H in Hk as [Hp (l & p & Hr)]. split; [done|]. eauto.
Qed.

Lemma files_visited_nodup : NoDup (files_visited dB).
Proof.
  apply NoDup_bind; [|intros c Hc%elem_of_seqZ|apply NoDup_seqZ].
  - intros c1 c2 b Hc1%elem_of_seqZ Hc2%elem_of_seqZ (k1 & H1 & Hk1%elem_of_seq)%list_elem_of_bind (k2 & H2 & Hk2%elem_of_seq)%list_elem_of_bind.
    destruct (slot_visited c1 k1) as [_ Hv1]; [lia|lia|]. destruct (slot_visited c2 k2) as [_ Hv2]; [lia|lia|].
    apply Hv1 in H1 as (_ & l1 & p1 & R1). apply Hv2 in H2 as (_ & l2 & p2 & R2).
    rewrite R1 in R2. injection R2 as E _ _. lia.
  - apply NoDup_bind; [|intros k Hk%elem_of_seq|apply NoDup_seq].
    + intros k1 k2 b Hk1%elem_of_seq Hk2%elem_of_seq H1 H2.
      destruct (slot_visited c k1) as [_ Hv1]; [lia|lia|]. destruct (slot_visited c k2) as [_ Hv2]; [lia|lia|].
      apply Hv1 in H1 as (_ & l1 & p1 & R1). apply Hv2 in H2 as (_ & l2 & p2 & R2).
      rewrite R1 in R2. injection R2 as E _ _. lia.
    + apply slot_visited; lia.
Qed.

Lemma td_inv_passes : check_passes dB n.
Proof.
  pose proof (get32_u32 (blk 0 dB 0) 0) as [Hnib0 _]. fold (sb_n_inodeblocks (blk 0 dB 0)) in Hnib0.
  split.
  { destruct (ti_meta _ _ _ _ _ HI (sb_n_inodeblocks (blk 0 dB 0))) as [Hp _]; [lia|]. apply present_lt in Hp. lia. }
  split.
  { destruct (decide (sb_free_list (blk 0 dB 0) = 0)) as [->|Hh].
    - destruct (ti_zero_meta 0 HI) as [Hp _]. apply present_lt in Hp. lia.
    - destruct (free_at_cons 0 dB _ fl (ti_free _ _ _ _ _ HI) Hh) as (fl0 & E & _).
      destruct (ti_fl _ _ _ _ _ HI (sb_free_list (blk 0 dB 0))) as [Hp _]; [rewrite E; by left|].
      apply present_lt in Hp. lia. }
  exists fl. split; [by eapply free_at_visited; [apply HI|]|]. split.
  - apply NoDup_app. split_and!; [apply NoDup_seqZ| |apply NoDup_app; split_and!].
    + intros b Hb%elem_of_seqZ. destruct (ti_meta _ _ _ _ _ HI b) as [_ Hr]; [lia|].
      rewrite elem_of_app. intros [Hf|Hf].
      * apply files_visited_elem in Hf as (_ & i & l & p & Hf). congruence.
      * apply (ti_fl _ _ _ _ _ HI) in Hf as [_ Hf]. congruence.
    + apply files_visited_nodup.
    + intros b (_ & i & l & p & Hr)%files_visited_elem Hf. apply (ti_fl _ _ _ _ _ HI) in Hf as [_ Hf]. congruence.
    + apply HI.
  - intros b [(Hp & _)%files_visited_elem|[Hp _]%(ti_fl _ _ _ _ _ HI)]%elem_of_app; by apply present_lt in Hp as [_ ?].
Qed.
End passes.

(** * Properties *)

(** A store whose inode 0 keeps its [n] blocks. *)
Definition sized {S} (R : S -> vdisk -> Prop) (n : Z) (s : S) (d : vdisk) : Prop := R s d /\ size_of d 0 n.

#[export] Instance sized_lawful {S} (R : S -> vdisk -> Prop) n `{!BlockStore S, !Lawful S R} : Lawful S (sized R n).
Proof.
  split.
  - intros s d [HR _]. by eapply law_wf.
  - intros s d ino m [HR Hn] Hsz Hm. wp_use (law_getsize (R:=R)) as [-> HR']; done.
  - intros s d ino off b buf [HR Hn] Hb Hw. wp_use (law_read (R:=R)) as [-> HR']; done.
  - intros s d ino off b [HR Hn] Hd Hw. wp_use (law_write (R:=R)) as [-> HR']; [done..|].
    split; [done|]. split; [done|]. eapply same_dom_size_of; [|exact Hn]. by apply same_dom_insert.
  - intros s d ino off [HR Hn] Hd. wp_use (law_sync (R:=R)) as [-> HR']; done.
Qed.

Section properties.
Context {S : Type} {R : S -> vdisk -> Prop} `{!BlockStore S, !Lawful S R}.

(** C19. Whatever a disk of [n] blocks holds, the check ends, and returns 1 exactly
    when the inode blocks fit, the chain of the free list ends, and the
    superblock, the inode blocks, the blocks of the files and those of the free
    list are all different and on the disk, not counting the entries of the free-list
    blocks that refer off the disk, which the check skips; otherwise it returns 0. The
    number of inode blocks is not 2^32-1. *)
Theorem treedisk_check_correct (s : S) (dB : vdisk) (n : Z) :
  R s dB -> size_of dB 0 n -> 0 < n < 2147483648 -> 1 + sb_n_inodeblocks (blk 0 dB 0) < two32 ->
  wp treedisk_check s (fun r s' => R s' dB /\ (r = 1 /\ check_passes dB n \/ r = 0 /\ ~ check_passes dB n)).
Proof. intros HR Hsz Hn Hnib. by apply treedisk_check_ok. Qed.

(** C18. The check accepts what the operations leave: after creating a file system
    and any sequence of operations within its limits it returns 1. *)
Theorem treedisk_check_accepts (s : S) (dB : vdisk) (nblocks ninodes : Z) (os : list fs_op) :
  let nib := (ninodes + 127) / 128 in
  R s dB -> size_of dB 0 nblocks -> nblocks < 2147483648 -> is_u32 ninodes ->
  nib + 2 <= nblocks -> sb_n_inodeblocks (blk 0 dB 0) = 0 ->
  valid_ops (f_empty (nib * INODES_PER_BLOCK)) os ->
  Z.of_nat (budget (f_empty (nib * INODES_PER_BLOCK)) os) <= nblocks - (nib + 1) ->
  wp (treedisk_create 0 ninodes) s (fun r s' => r = 0 /\
    wp (exec_ops os) (treedisk_init s' 0) (fun _ ts =>
      wp treedisk_check (ts_below ts) (fun r _ => r = 1))).
Proof.
  intros nib HR Hsz Hnb Hin Hroom H0 Hv Hb. assert (sized R nblocks s dB) as HR' by done.
  assert (0 <= nib) as Hnib by (apply Z.div_pos; [destruct Hin|]; lia).
  wp_use (treedisk_create_ok (R:=sized R nblocks) 0 s dB nblocks ninodes HR' Hsz Hnb Hin Hroom H0)
    as [-> (dB' & fl & HR1 & Hf & Hfl & _)].
  split; [done|]. wp_use (exec_ops_ok (R:=sized R nblocks) 0 os _ fl) as [_ (fl' & dB2 & [[HR2 Hsz2] _] & lv & rl & HI & _ & Hfiles)];
    [|exact Hv| |].
  - exists dB'. split; [by split|exact Hf].
  - rewrite Hfl, length_seqZ. fold nib. lia.
  - assert (check_passes dB2 nblocks) as Hpass by (eapply td_inv_passes; [exact HI|exact Hsz2|]; intros i Hi; by apply Hfiles).
    eapply wp_mono; [apply (treedisk_check_ok dB2 nblocks Hsz2 _ HR2); [lia|]|].
    + destruct Hpass as [? _]. unfold two32. lia.
    + by intros r s2 [_ [[-> _]|[_ ?]]].
Qed.
End properties.

(** * Witnesses *)

Lemma treedisk_check_correct_witness :
  wp treedisk_check wit_store (fun r s' => ram_repr s' (disk_of wit_blocks) /\
    (r = 1 /\ check_passes (disk_of wit_blocks) 14 \/ r = 0 /\ ~ check_passes (disk_of wit_blocks) 14)).
Proof.
  apply (treedisk_check_correct (R:=ram_repr) wit_store (disk_of wit_blocks) 14);
    [exact wit_store_repr|exact (disk_of_size wit_blocks)|done|]. rewrite wit_store_new. reflexivity.
Defined.

Lemma treedisk_check_accepts_witness :
  wp (treedisk_create 0 128) wit_store (fun r s' => r = 0 /\
    wp (exec_ops wit_ops) (treedisk_init s' 0) (fun _ ts =>
      wp treedisk_check (ts_below ts) (fun r _ => r = 1))).
Proof.
  apply (treedisk_check_accepts (R:=ram_repr) wit_store (disk_of wit_blocks) 14 128 wit_ops);
    [exact wit_store_repr|exact (disk_of_size wit_blocks)|done|done|done|exact wit_store_new
    |exact wit_ops_valid|vm_compute; congruence].
Defined.
