(* ===== verification/FileProt.v ===== *)
(** The file protocol: src/src/h/egos/file.h (messages and file control blocks) and
    lib/file.c (the client's stubs). A structure in a message is a sequence of
    little-endian fields, with the padding of the C compiler. *)
From stdpp Require Import base numbers list.
From Stdlib Require Import ZArith Lia.
From coqutil Require Import Word.LittleEndianList.
From S2P Require Import Prelude BlockStore BlockProt.

(** * Fields *)

(** Fields of given widths, one after the other. *)
Definition fields (l : list (nat * Z)) : message := foldr (fun f m => le_split f.1 f.2 ++ m) [] l.

(** The field of width [w] at offset [off]. *)
Definition get_field (w off : nat) (m : message) : Z := le_combine (take w (drop off m)).

Definition width (l : list (nat * Z)) : nat := sum_list l.*1.

Lemma length_fields l : length (fields l) = width l.
Proof.
  induction l as [|[w v] l IH]; [done|]. unfold fields, width in *. csimpl. by rewrite length_app, length_le_split, IH.
Qed.

Lemma get_field_fields l1 w v l2 rest off :
  off = width l1 -> 0 <= v < 2 ^ (8 * Z.of_nat w) ->
  get_field w off (fields (l1 ++ (w, v) :: l2) ++ rest) = v.
Proof.
  intros -> Hv. unfold get_field. revert rest. unfold width, fields in *.
  induction l1 as [|[w1 v1] l1 IH]; intros rest; csimpl.
  - change (sum_list []) with 0%nat. rewrite drop_0, <- app_assoc, take_app_length' by (by rewrite length_le_split).
    rewrite le_combine_split. apply Z.mod_small. cbn [snd]. by rewrite (Z.mul_comm 8) in Hv || exact Hv.
  - rewrite <- app_assoc. replace (w1 + sum_list l1.*1)%nat with (length (le_split w1 v1) + sum_list l1.*1)%nat
      by (by rewrite length_le_split). rewrite drop_app_add. apply IH.
Qed.

Lemma get_field_range w off m : 0 <= get_field w off m < 2 ^ (8 * Z.of_nat w).
Proof.
  unfold get_field. pose proof (le_combine_bound (take w (drop off m))) as H.
  assert (2 ^ (8 * Z.of_nat (length (take w (drop off m)))) <= 2 ^ (8 * Z.of_nat w))
    by (apply Z.pow_le_mono_r; rewrite ?length_take; lia). lia.
Qed.

(** * Messages *)

Definition P_FILE_OTHER_READ : Z := 0x1.
Definition P_FILE_OTHER_WRITE : Z := 0x2.
Definition P_FILE_OWNER_READ : Z := 0x4.
Definition P_FILE_OWNER_WRITE : Z := 0x8.
Definition P_FILE_DEFAULT : Z := Z.lor (Z.lor P_FILE_OWNER_READ P_FILE_OWNER_WRITE) P_FILE_OTHER_READ.

(** [struct file_control_block]: 40 bytes. *)
Record fcb := Fcb {
  st_alloc : bool;
  st_dev : Z;
  st_ino : Z;
  st_uid : Z;
  st_mode : Z;
  st_size : Z;
  st_modtime : Z;
}.

Definition zero_fcb : fcb := Fcb false 0 0 0 0 0 0.
Definition sizeof_fcb : nat := 40.

Definition fcb_fields (f : fcb) : list (nat * Z) :=
  [(1%nat, if st_alloc f then 1 else 0); (3%nat, 0); (4%nat, st_dev f); (4%nat, st_ino f); (4%nat, st_uid f);
   (2%nat, st_mode f); (6%nat, 0); (8%nat, st_size f); (8%nat, st_modtime f)].

Definition fcb_bytes (f : fcb) : message := fields (fcb_fields f).

Definition fcb_of (m : message) : fcb :=
  Fcb (bool_decide (get_field 1 0 m <> 0)) (get_field 4 4 m) (get_field 4 8 m) (get_field 4 12 m)
    (get_field 2 16 m) (get_field 8 24 m) (get_field 8 32 m).

Definition st_set_size (n : Z) (f : fcb) : fcb :=
  Fcb (st_alloc f) (st_dev f) (st_ino f) (st_uid f) (st_mode f) n (st_modtime f).
Definition st_set_modtime (t : Z) (f : fcb) : fcb :=
  Fcb (st_alloc f) (st_dev f) (st_ino f) (st_uid f) (st_mode f) (st_size f) t.
Definition st_set_uid (u : Z) (f : fcb) : fcb :=
  Fcb (st_alloc f) (st_dev f) (st_ino f) u (st_mode f) (st_size f) (st_modtime f).
Definition st_set_mode (m : Z) (f : fcb) : fcb :=
  Fcb (st_alloc f) (st_dev f) (st_ino f) (st_uid f) m (st_size f) (st_modtime f).
Definition st_set_alloc (a : bool) (f : fcb) : fcb :=
  Fcb a (st_dev f) (st_ino f) (st_uid f) (st_mode f) (st_size f) (st_modtime f).

(** The fields are in the range of their types. *)
Record fcb_wf (f : fcb) : Prop := {
  wf_dev : is_u32 (st_dev f);
  wf_ino : is_u32 (st_ino f);
  wf_uid : is_u32 (st_uid f);
  wf_mode : 0 <= st_mode f < 65536;
  wf_size : 0 <= st_size f < two64;
  wf_modtime : 0 <= st_modtime f < two64;
}.

Lemma length_fcb_bytes f : length (fcb_bytes f) = sizeof_fcb.
Proof. apply length_fields. Qed.

Lemma fcb_of_bytes f rest : fcb_wf f -> fcb_of (fcb_bytes f ++ rest) = f.
Proof.
  intros [H1 H2 H3 H4 H5 H6]. destruct f as [a d i u m s t]. unfold fcb_of, fcb_bytes, fcb_fields. cbn [st_alloc st_dev st_ino st_uid st_mode st_size st_modtime] in *.
  f_equal.
  - match goal with |- context [get_field 1 0 ?m] => assert (get_field 1 0 m = if a then 1 else 0) as -> end;
      [|by destruct a]. apply (get_field_fields []); [done|by destruct a].
  - by apply (get_field_fields [_; _]).
  - by apply (get_field_fields [_; _; _]).
  - by apply (get_field_fields [_; _; _; _]).
  - by apply (get_field_fields [_; _; _; _; _]).
  - by apply (get_field_fields [_; _; _; _; _; _; _]).
  - by apply (get_field_fields [_; _; _; _; _; _; _; _]).
Qed.

(** [enum file_op]. *)
Definition FILE_CREATE : Z := 1.
Definition FILE_CHOWN : Z := 2.
Definition FILE_CHMOD : Z := 3.
Definition FILE_READ : Z := 4.
Definition FILE_WRITE : Z := 5.
Definition FILE_STAT : Z := 6.
Definition FILE_SETSIZE : Z := 7.
Definition FILE_DELETE : Z := 8.
Definition FILE_SYNC : Z := 9.
Definition FILE_SET_FLAGS : Z := 10.

(** [struct file_request]: 32 bytes. *)
Record file_request := FileRequest {
  fr_type : Z;
  fr_file_no : Z;
  fr_offset : Z;
  fr_size : Z;
  fr_uid : Z;
  fr_mode : Z;
}.

Definition sizeof_file_request : nat := 32.

Definition request_fields (r : file_request) : list (nat * Z) :=
  [(4%nat, fr_type r); (4%nat, fr_file_no r); (8%nat, fr_offset r); (4%nat, fr_size r); (4%nat, fr_uid r);
   (2%nat, fr_mode r); (6%nat, 0)].

Definition request_bytes (r : file_request) : message := fields (request_fields r).

Definition request_of (m : message) : file_request :=
  FileRequest (get_field 4 0 m) (get_field 4 4 m) (get_field 8 8 m) (get_field 4 16 m) (get_field 4 20 m) (get_field 2 24 m).

Record request_wf (r : file_request) : Prop := {
  rq_type : is_u32 (fr_type r);
  rq_file_no : is_u32 (fr_file_no r);
  rq_offset : 0 <= fr_offset r < two64;
  rq_size : is_u32 (fr_size r);
  rq_uid : is_u32 (fr_uid r);
  rq_mode : 0 <= fr_mode r < 65536;
}.

Lemma length_request_bytes r : length (request_bytes r) = sizeof_file_request.
Proof. apply length_fields. Qed.

Lemma request_of_bytes r rest : request_wf r -> request_of (request_bytes r ++ rest) = r.
Proof.
  intros [H1 H2 H3 H4 H5 H6]. destruct r as [t f o s u m]. unfold request_of, request_bytes, request_fields. cbn [fr_type fr_file_no fr_offset fr_size fr_uid fr_mode] in *.
  f_equal.
  - by apply (get_field_fields []).
  - by apply (get_field_fields [_]).
  - by apply (get_field_fields [_; _]).
  - by apply (get_field_fields [_; _; _]).
  - by apply (get_field_fields [_; _; _; _]).
  - by apply (get_field_fields [_; _; _; _; _]).
Qed.

(** [enum file_status]. *)
Definition FILE_OK : Z := 0.
Definition FILE_ERROR : Z := 1.

(** [struct file_reply]: 56 bytes, the last 40 of them the control block. *)
Record file_reply := FileReply {
  rep_status : Z;
  rep_file_no : Z;
  rep_op : Z;
  rep_fcb : fcb;
}.

Definition sizeof_file_reply : nat := 56.

Definition reply_bytes (r : file_reply) : message :=
  fields [(4%nat, rep_status r); (4%nat, rep_file_no r); (4%nat, rep_op r); (4%nat, 0)] ++ fcb_bytes (rep_fcb r).

Definition reply_of (m : message) : file_reply :=
  FileReply (get_field 4 0 m) (get_field 4 4 m) (get_field 4 8 m) (fcb_of (drop 16 m)).

Lemma length_reply_bytes r : length (reply_bytes r) = sizeof_file_reply.
Proof. unfold reply_bytes. by rewrite length_app, length_fields, length_fcb_bytes. Qed.

Lemma reply_of_bytes r rest :
  is_u32 (rep_status r) -> is_u32 (rep_file_no r) -> is_u32 (rep_op r) -> fcb_wf (rep_fcb r) ->
  reply_of (reply_bytes r ++ rest) = r.
Proof.
  intros H1 H2 H3 H4. destruct r as [s n o f]. unfold reply_of, reply_bytes. cbn [rep_status rep_file_no rep_op rep_fcb] in *.
  rewrite <- app_assoc. f_equal.
  - by apply (get_field_fields []).
  - by apply (get_field_fields [_]).
  - by apply (get_field_fields [_; _]).
  - rewrite drop_app_length' by (by rewrite length_fields). by apply fcb_of_bytes.
Qed.

(** * The client's stubs *)

Section file_client.
Context {T : Type} `{!Rpc T}.

(** The part that the stubs share: the reply, when it is long enough. *)
Definition file_rpc (svr : Z) (req : message) : M T (option file_reply) :=
  result ← sys_rpc svr req sizeof_file_reply;
  match result with
  | None => mret None
  | Some reply =>
      if decide (length reply < sizeof_file_reply)%nat then mret None else mret (Some (reply_of reply))
  end.

Definition file_status_rpc (svr : Z) (req : message) : M T bool :=
  reply ← file_rpc svr req;
  mret (match reply with None => false | Some reply => bool_decide (rep_status reply = FILE_OK) end).

(** [*p_fileno] is set even when the status is an error. *)
Definition file_create (svr mode fileno : Z) : M T (bool * Z) :=
  reply ← file_rpc svr (request_bytes (FileRequest FILE_CREATE 0 0 0 0 mode));
  mret (match reply with None => (false, fileno) | Some reply => (bool_decide (rep_status reply = FILE_OK), rep_file_no reply) end).

Definition file_chown (svr file_no uid : Z) : M T bool :=
  file_status_rpc svr (request_bytes (FileRequest FILE_CHOWN file_no 0 0 uid 0)).

Definition file_chmod (svr file_no mode : Z) : M T bool :=
  file_status_rpc svr (request_bytes (FileRequest FILE_CHMOD file_no 0 0 0 mode)).

(** The buffer [addr] has [psize] bytes; the result is what is in it and the new
    [*psize]. *)
Definition file_read (svr file_no offset : Z) (addr : message) (psize : Z) : M T (bool * message * Z) :=
  let reply_size := u32 (Z.of_nat sizeof_file_reply + psize) in
  result ← sys_rpc svr (request_bytes (FileRequest FILE_READ file_no offset psize 0 0)) (Z.to_nat reply_size);
  match result with
  | None => mret (false, addr, psize)
  | Some reply =>
      if decide (length reply < sizeof_file_reply)%nat then mret (false, addr, psize) else
      if decide (rep_status (reply_of reply) <> FILE_OK) then mret (false, addr, psize) else
      let data := drop sizeof_file_reply reply in
      mret (true, data ++ drop (length data) addr, Z.of_nat (length data))
  end.

Definition file_exist (svr file_no : Z) : M T bool := r ← file_read svr file_no 0 [] 0; mret r.1.1.

Definition file_write (svr file_no offset : Z) (addr : message) (size : Z) : M T bool :=
  file_status_rpc svr (request_bytes (FileRequest FILE_WRITE file_no offset size 0 0) ++ addr).

Definition file_sync (svr file_no : Z) : M T bool :=
  file_status_rpc svr (request_bytes (FileRequest FILE_SYNC file_no 0 0 0 0)).

Definition file_stat (svr file_no : Z) (pfcb : fcb) : M T (bool * fcb) :=
  reply ← file_rpc svr (request_bytes (FileRequest FILE_STAT file_no 0 0 0 0));
  mret (match reply with None => (false, pfcb) | Some reply => (bool_decide (rep_status reply = FILE_OK), rep_fcb reply) end).

Definition file_setsize (svr file_no size : Z) : M T bool :=
  file_status_rpc svr (request_bytes (FileRequest FILE_SETSIZE file_no size 0 0 0)).

Definition file_delete (svr file_no : Z) : M T bool :=
  file_status_rpc svr (request_bytes (FileRequest FILE_DELETE file_no 0 0 0 0)).

Definition file_set_flags (svr file_no flags : Z) : M T bool :=
  file_status_rpc svr (request_bytes (FileRequest FILE_SET_FLAGS file_no flags 0 0 0)).
End file_client.

(** * Permissions *)

(** [ramfile_read_allowed] and [blkfile_read_allowed], which are the same. *)
Definition read_allowed (f : fcb) (uid : Z) : bool :=
  if decide (uid = 0) then true
  else if decide (uid = st_uid f) then bool_decide (Z.land (st_mode f) P_FILE_OWNER_READ <> 0)
  else bool_decide (Z.land (st_mode f) P_FILE_OTHER_READ <> 0).

Definition write_allowed (f : fcb) (uid : Z) : bool :=
  if decide (uid = 0) then true
  else if decide (uid = st_uid f) then bool_decide (Z.land (st_mode f) P_FILE_OWNER_WRITE <> 0)
  else bool_decide (Z.land (st_mode f) P_FILE_OTHER_WRITE <> 0).
