(* ===== verification/FileSpec.v ===== *)
(** What the file servers promise to the clients that go through the stubs of
    file.c: abstract files, and the interface [FileService] that a server
    implements. *)
From stdpp Require Import base numbers list.
From Stdlib Require Import ZArith Lia.
From S2P Require Import Prelude BlockProt FileProt.

(** * Abstract files

    A server has a fixed number of files; file 0 is its own. A file that is not
    allocated still has contents: those that it gets when it is created. *)
Record sfile := SFile {
  sf_alloc : bool;
  sf_uid : Z;
  sf_mode : Z;
  sf_data : message;
}.

Definition sf_fcb (s : sfile) : fcb := Fcb (sf_alloc s) 0 0 (sf_uid s) (sf_mode s) 0 0.
Definition may_read (uid : Z) (s : sfile) : bool := sf_alloc s && read_allowed (sf_fcb s) uid.
Definition may_write (uid : Z) (s : sfile) : bool := sf_alloc s && write_allowed (sf_fcb s) uid.

(** The number of the first file that is not allocated; [i] is the number of the
    first file of the list. *)
Fixpoint find_free (fs : list sfile) (i : Z) : Z :=
  match fs with
  | [] => i
  | s :: fs => if sf_alloc s then find_free fs (i + 1) else i
  end.

Inductive file_op : Type :=
| FileCreate (mode : Z)
| FileWrite (i off : Z) (data : message)
| FileRead (i off len : Z)
| FileStat (i : Z).

Inductive file_result : Type :=
| RCreate (ok : bool) (i : Z)
| RWrite (ok : bool)
| RRead (ok : bool) (data : message)
| RStat (ok : bool) (uid mode : Z).

(** What an operation of user [uid] means. *)
Definition spec_file_op (uid : Z) (fs : list sfile) (o : file_op) : file_result * list sfile :=
  match o with
  | FileCreate mode =>
      let i := find_free (tail fs) 1 in
      match fs !! Z.to_nat i with
      | None => (RCreate false 0, fs)
      | Some s => (RCreate true i, <[Z.to_nat i:=SFile true uid mode (sf_data s)]> fs)
      end
  | FileWrite i off data =>
      match fs !! Z.to_nat i with
      | None => (RWrite false, fs)
      | Some s =>
          if may_write uid s
          then (RWrite true, <[Z.to_nat i:=SFile true (sf_uid s) (sf_mode s) (splice (Z.to_nat off) data (sf_data s))]> fs)
          else (RWrite false, fs)
      end
  | FileRead i off len =>
      match fs !! Z.to_nat i with
      | None => (RRead false [], fs)
      | Some s =>
          if may_read uid s then (RRead true (take (Z.to_nat len) (drop (Z.to_nat off) (sf_data s))), fs)
          else (RRead false [], fs)
      end
  | FileStat i =>
      match fs !! Z.to_nat i with
      | None => (RStat false 0 0, fs)
      | Some s => if may_read uid s then (RStat true (sf_uid s) (sf_mode s), fs) else (RStat false 0 0, fs)
      end
  end.

Fixpoint spec_file_ops (uid : Z) (fs : list sfile) (os : list file_op) : list file_result * list sfile :=
  match os with
  | [] => ([], fs)
  | o :: os =>
      let '(r, fs1) := spec_file_op uid fs o in
      let '(rs, fs2) := spec_file_ops uid fs1 os in (r :: rs, fs2)
  end.

(** The same through the stubs. *)
Definition exec_file_op {T} `{!Rpc T} (svr : Z) (o : file_op) : M T file_result :=
  match o with
  | FileCreate mode => x ← file_create svr mode 0; mret (RCreate x.1 x.2)
  | FileWrite i off data => r ← file_write svr i off data (Z.of_nat (length data)); mret (RWrite r)
  | FileRead i off len =>
      x ← file_read svr i off (replicate (Z.to_nat len) Init.Byte.x00) len;
      mret (RRead x.1.1 (if (x.1.1 : bool) then take (Z.to_nat x.2) x.1.2 else []))
  | FileStat i =>
      x ← file_stat svr i zero_fcb;
      mret (if (x.1 : bool) then RStat true (st_uid x.2) (st_mode x.2) else RStat false 0 0)
  end.

Fixpoint exec_file_ops {T} `{!Rpc T} (svr : Z) (os : list file_op) : M T (list file_result) :=
  match os with
  | [] => mret []
  | o :: os => r ← exec_file_op svr o; rs ← exec_file_ops svr os; mret (r :: rs)
  end.

(** Requests that the servers are for: of a file that exists and that the server
    handles, a write of at most a page that leaves no hole. *)
Definition max_file_size : Z := 2 ^ 30.

Definition valid_file_op (good : Z -> Prop) (fs : list sfile) (o : file_op) : Prop :=
  match o with
  | FileCreate mode => 0 <= mode < 2 ^ 16 /\ (find_free (tail fs) 1 < Z.of_nat (length fs) -> good (find_free (tail fs) 1))
  | FileWrite i off data =>
      1 <= i < Z.of_nat (length fs) /\ good i /\ (length data <= PAGESIZE)%nat /\
      0 <= off <= Z.of_nat (length (default [] (sf_data <$> fs !! Z.to_nat i))) /\ off + Z.of_nat (length data) <= max_file_size
  | FileRead i off len => 1 <= i < Z.of_nat (length fs) /\ 0 <= off < two64 /\ 0 <= len <= 2 ^ 31
  | FileStat i => 1 <= i < Z.of_nat (length fs)
  end.

Fixpoint valid_file_ops (good : Z -> Prop) (uid : Z) (fs : list sfile) (os : list file_op) : Prop :=
  match os with
  | [] => True
  | o :: os => valid_file_op good fs o /\ valid_file_ops good uid (spec_file_op uid fs o).2 os
  end.

(** * The interface

    [fsv_rep t fs n]: the server holds the files [fs] and has resources for [n];
    an operation takes at most [fsv_cost]. *)
Class FileService {T} (rpc : Rpc T) (svr uid : Z) := {
  fsv_rep : T -> list sfile -> nat -> Prop;
  fsv_good : Z -> Prop;
  fsv_cost : nat;
  fsv_op t fs n o :
    fsv_rep t fs n -> valid_file_op fsv_good fs o -> (fsv_cost <= n)%nat ->
    wp (exec_file_op svr o) t (fun r t' =>
      r = (spec_file_op uid fs o).1 /\ fsv_rep t' (spec_file_op uid fs o).2 (n - fsv_cost));
}.

Lemma file_ops_ok {T} (rpc : Rpc T) svr uid `{!FileService rpc svr uid} (os : list file_op) : forall t fs n,
  fsv_rep t fs n -> valid_file_ops fsv_good uid fs os -> (fsv_cost * length os <= n)%nat ->
  wp (exec_file_ops svr os) t (fun rs t' => rs = (spec_file_ops uid fs os).1 /\
    fsv_rep t' (spec_file_ops uid fs os).2 (n - fsv_cost * length os)).
Proof.
  induction os as [|o os IH]; intros t fs n Hr Hv Hn; cbn [exec_file_ops length] in *.
  { step. split; [done|]. by rewrite Nat.mul_0_r, Nat.sub_0_r. }
  destruct Hv as [Hv Hvs]. step. eapply wp_mono; [eapply fsv_op; [done|done|lia]|].
  intros r t1 [-> Hr1]. step. wp_use (IH t1 _ (n - fsv_cost)%nat Hr1 Hvs) as [-> Hr2]; [lia|]. step.
  cbn [spec_file_ops] in *. destruct (spec_file_op uid fs o) as [r fs1]. cbn [fst snd] in *.
  destruct (spec_file_ops uid fs1 os) as [rs fs2]. cbn [fst snd] in *. split; [done|].
  by replace (n - fsv_cost * Datatypes.S (length os))%nat with (n - fsv_cost - fsv_cost * length os)%nat by lia.
Qed.

Lemma find_free_spec fs : forall i, exists k,
  find_free fs i = i + Z.of_nat k /\ (k <= length fs)%nat /\
  (forall j s, (j < k)%nat -> fs !! j = Some s -> sf_alloc s = true) /\
  (forall s, fs !! k = Some s -> sf_alloc s = false).
Proof.
  induction fs as [|s fs IH]; intros i; cbn [find_free].
  - exists 0%nat. repeat split; [lia|simpl; lia|lia|done].
  - destruct (sf_alloc s) eqn:E.
    + destruct (IH (i + 1)) as (k & -> & Hk & H1 & H2). exists (Datatypes.S k).
      split; [lia|]. split; [simpl; lia|]. split; [|done].
      intros [|j] s' Hj Hs; [by injection Hs as <-|by apply (H1 j); [lia|]].
    + exists 0%nat. split; [lia|]. split; [simpl; lia|]. split; [lia|]. intros s' Hs. by injection Hs as <-.
Qed.

(** * From replies to results *)

(** The request that a stub sends, and the size of the reply it waits for. *)
Definition op_request (o : file_op) : file_request :=
  match o with
  | FileCreate mode => FileRequest FILE_CREATE 0 0 0 0 mode
  | FileWrite i off data => FileRequest FILE_WRITE i off (Z.of_nat (length data)) 0 0
  | FileRead i off len => FileRequest FILE_READ i off len 0 0
  | FileStat i => FileRequest FILE_STAT i 0 0 0 0
  end.

Definition op_data (o : file_op) : message := match o with FileWrite _ _ data => data | _ => [] end.

Definition op_repsize (o : file_op) : nat :=
  match o with FileRead _ _ len => (sizeof_file_reply + Z.to_nat len)%nat | _ => sizeof_file_reply end.

Definition read_reply (data : message) : message :=
  reply_bytes (FileReply FILE_OK 0 FILE_READ (st_set_size (Z.of_nat (length data)) zero_fcb)) ++ data.

Definition status_reply (ok : bool) (i : Z) : message :=
  reply_bytes (FileReply (if ok then FILE_OK else FILE_ERROR) i 0 zero_fcb).

(** The messages that give the result [r] to the caller. *)
Definition result_reply (r : file_result) (m : message) : Prop :=
  match r with
  | RCreate ok i => m = status_reply ok i
  | RWrite ok => m = status_reply ok 0
  | RRead true data => m = read_reply data
  | RRead false _ | RStat false _ _ => m = status_reply false 0
  | RStat true uid mode => exists f, fcb_wf f /\ st_uid f = uid /\ st_mode f = mode /\
      m = reply_bytes (FileReply FILE_OK 0 FILE_STAT f)
  end.

(** The results that an operation can have. *)
Definition op_result (o : file_op) (r : file_result) : Prop :=
  match o, r with
  | FileCreate _, RCreate _ i => is_u32 i
  | FileWrite _ _ _, RWrite _ => True
  | FileRead _ _ len, RRead ok data => Z.of_nat (length data) <= len <= 2 ^ 31 /\ (ok = false -> data = [])
  | FileStat _, RStat ok uid mode => ok = false -> uid = 0 /\ mode = 0
  | _, _ => False
  end.

Lemma length_status_reply ok i : length (status_reply ok i) = sizeof_file_reply.
Proof. apply length_reply_bytes. Qed.

Lemma length_read_reply data : length (read_reply data) = (sizeof_file_reply + length data)%nat.
Proof. unfold read_reply. by rewrite length_app, length_reply_bytes. Qed.

Lemma reply_of_status ok i : is_u32 i -> reply_of (status_reply ok i) = FileReply (if ok then FILE_OK else FILE_ERROR) i 0 zero_fcb.
Proof.
  intros Hi. unfold status_reply. rewrite <- (app_nil_r (reply_bytes _)). apply reply_of_bytes; [|done|done|by split].
  by destruct ok.
Qed.

Section replies.
Context {T : Type} {rpc : Rpc T} (svr : Z).

Lemma sys_rpc_result (Q : T -> Prop) t req n m :
  wp (sys_rpc svr req n) t (fun x t' => (exists rep, rep = m /\ x = Some (take n rep)) /\ Q t') ->
  wp (sys_rpc svr req n) t (fun x t' => x = Some (take n m) /\ Q t').
Proof. intros H. eapply wp_mono; [exact H|]. by intros x t' [(rep & -> & ->) HQ]. Qed.

Lemma file_rpc_status (Q : T -> Prop) t req ok i : is_u32 i ->
  wp (sys_rpc svr req sizeof_file_reply) t (fun m t' => m = Some (take sizeof_file_reply (status_reply ok i)) /\ Q t') ->
  wp (file_rpc svr req) t (fun m t' => m = Some (FileReply (if ok then FILE_OK else FILE_ERROR) i 0 zero_fcb) /\ Q t').
Proof.
  intros Hi H. unfold file_rpc. step. wp_use H as [-> HQ].
  rewrite take_ge by (by rewrite length_status_reply). rewrite length_status_reply, decide_False by lia.
  step. by rewrite reply_of_status.
Qed.

Lemma exec_file_op_ok (Q : T -> Prop) t o r : op_result o r ->
  wp (sys_rpc svr (request_bytes (op_request o) ++ op_data o) (op_repsize o)) t
    (fun m t' => (exists rep, result_reply r rep /\ m = Some (take (op_repsize o) rep)) /\ Q t') ->
  wp (exec_file_op svr o) t (fun r' t' => r' = r /\ Q t').
Proof.
  intros Hr H. destruct o as [mode|i off data|i off len|i], r as [ok j|ok|ok d|ok ru rm]; try done; cbn [exec_file_op]; step.
  - unfold file_create. step. cbn [op_data] in H. rewrite app_nil_r in H.
    wp_use (file_rpc_status Q t _ ok j Hr (sys_rpc_result Q t _ _ _ H)) as [-> HQ]. steps. split; [by destruct ok|done].
  - unfold file_write, file_status_rpc. step.
    wp_use (file_rpc_status Q t _ ok 0 ltac:(done) (sys_rpc_result Q t _ _ _ H)) as [-> HQ]. steps. split; [by destruct ok|done].
  - destruct Hr as [Hlen Hd]. unfold file_read. step. cbn [op_data op_repsize] in H. rewrite app_nil_r in H.
    rewrite u32_small by (split; unfold two32, sizeof_file_reply; lia).
    replace (Z.to_nat (Z.of_nat sizeof_file_reply + len)) with (sizeof_file_reply + Z.to_nat len)%nat by lia.
    destruct ok; cbn [result_reply] in H; (eapply wp_mono; [exact (sys_rpc_result Q t _ _ _ H)|]; intros m t' [-> HQ]).
    + rewrite take_ge by (rewrite length_read_reply; lia). rewrite length_read_reply, decide_False by lia.
      unfold read_reply. rewrite reply_of_bytes; [|done..|split; cbn; try done; unfold two64; lia].
      rewrite decide_False by (intros Hx; by apply Hx). steps. split; [|done]. cbn [fst snd].
      rewrite drop_app_length' by (by rewrite length_reply_bytes). rewrite Nat2Z.id. by rewrite take_app_length.
    + rewrite take_ge by (rewrite length_status_reply; lia). rewrite length_status_reply, decide_False by lia.
      rewrite reply_of_status by done. rewrite decide_True by done. steps. split; [|done]. by rewrite Hd.
  - unfold file_stat. step. cbn [op_data op_repsize op_request] in H. rewrite app_nil_r in H. destruct ok; cbn [result_reply] in H.
    + unfold file_rpc. step. eapply wp_mono; [exact H|]. intros m t' [(rep & (f & Hf & <- & <- & ->) & ->) HQ].
      rewrite take_ge by (by rewrite length_reply_bytes). rewrite length_reply_bytes, decide_False by lia.
      rewrite <- (app_nil_r (reply_bytes _)), reply_of_bytes by done. by steps.
    + wp_use (file_rpc_status Q t _ false 0 ltac:(done) (sys_rpc_result Q t _ _ _ H)) as [-> HQ]. steps.
      split; [|done]. by destruct (Hr eq_refl) as [-> ->].
Qed.
End replies.

(** * Requests of valid operations *)

Lemma spec_op_result good uid fs o : valid_file_op good fs o -> Z.of_nat (length fs) < two32 ->
  op_result o (spec_file_op uid fs o).1.
Proof.
  intros Hv Hl. destruct o as [mode|i off data|i off len|i]; cbn [spec_file_op].
  - destruct (find_free_spec (tail fs) 1) as (k & -> & Hk & _). destruct (fs !! _) eqn:E; cbn; [|done].
    apply lookup_lt_Some in E. split; lia.
  - destruct (fs !! _); [destruct (may_write _ _)|]; done.
  - destruct Hv as (_ & _ & Hv). destruct (fs !! _); [destruct (may_read _ _)|]; cbn; try (split; [lia|done]).
    rewrite length_take. split; [lia|done].
  - destruct (fs !! _); [destruct (may_read _ _)|]; done.
Qed.

Lemma op_request_wf good fs o : valid_file_op good fs o -> Z.of_nat (length fs) < two32 -> request_wf (op_request o).
Proof.
  intros Hv Hl. assert (PAGESIZE = Z.to_nat 16384) as EP by done. assert (max_file_size = 2 ^ 30) as EM by done.
  unfold two32 in *.
  destruct o as [mode|i off data|i off len|i]; cbn [valid_file_op op_request] in *; unfold two64 in *;
    split; cbn [fr_type fr_file_no fr_offset fr_size fr_uid fr_mode];
    unfold is_u32, two32, two64, FILE_CREATE, FILE_WRITE, FILE_READ, FILE_STAT; lia.
Qed.

Lemma op_data_length good fs o : valid_file_op good fs o -> (length (op_data o) <= PAGESIZE)%nat.
Proof. destruct o; simpl; [lia|tauto|lia|lia]. Qed.

Lemma op_message o : (length (op_data o) <= PAGESIZE)%nat ->
  take (sizeof_file_request + PAGESIZE) (request_bytes (op_request o) ++ op_data o) = request_bytes (op_request o) ++ op_data o.
Proof. intros H. apply take_ge. rewrite length_app, length_request_bytes. lia. Qed.

Lemma may_read_alloc uid s : sf_alloc s = true -> may_read uid s = read_allowed (sf_fcb s) uid.
Proof. unfold may_read. by intros ->. Qed.

Lemma may_write_alloc uid s : sf_alloc s = true -> may_write uid s = write_allowed (sf_fcb s) uid.
Proof. unfold may_write. by intros ->. Qed.
