(* ===== verification/UnixDisk.v ===== *)
(** src/src/block/unixdisk.c and unixdisk.h: many virtual block stores inside inode 0
    of the store below, with direct and indirect blocks as in Unix. The numbers in
    inodes and indirect blocks, and on the free list, count from the first block after
    the inode blocks. *)
From stdpp Require Import base numbers list gmap.
From Stdlib Require Import ZArith Lia.
From S2P Require Import Prelude BlockStore.

(** * The structures of unixdisk.h as words of their blocks *)

(** An inode is 16 words. *)
Definition UNIX_INODES_PER_BLOCK : Z := 16.
Definition ENTRIES_PER_BLOCK : Z := 256.
Definition ENTRIES_PER_FREE_BLOCK : Z := 254.
Definition EPB_2 : Z := ENTRIES_PER_BLOCK * ENTRIES_PER_BLOCK.
Definition EPB_3 : Z := ENTRIES_PER_BLOCK * ENTRIES_PER_BLOCK * ENTRIES_PER_BLOCK.

(** [struct unixdisk_superblock]. *)
Definition us_n_inodeblocks (b : block) : Z := get32 b 0.
Definition us_free_list (b : block) : Z := get32 b 1.
Definition us_free_offset (b : block) : Z := get32 b 2.

(** [struct unixdisk_freeblock]. *)
Definition fb_next (b : block) : Z := get32 b 1.
Definition fb_entry_word (j : Z) : nat := Z.to_nat (2 + j).

(** [struct unixdisk_inode]: words of the inode with index [idx] in its block. *)
Definition inode_word (idx w : nat) : nat := (16 * idx + w)%nat.
Definition w_nblocks : nat := 0.
Definition w_direct (k : Z) : nat := Z.to_nat (1 + k).
Definition w_single : nat := 13.
Definition w_double : nat := 14.
Definition w_triple : nat := 15.

(** [struct unixdisk_snapshot]; [un_inode] is the index of the inode in its block. *)
Record unixdisk_snapshot := UnixSnapshot {
  un_superblock : block;
  un_inodeblock : block;
  un_inode_blockno : Z;
  un_inode : nat;
}.

Definition un_get (sn : unixdisk_snapshot) (w : nat) : Z := get32 (un_inodeblock sn) (inode_word (un_inode sn) w).
Definition un_set (w : nat) (v : Z) (sn : unixdisk_snapshot) : unixdisk_snapshot :=
  UnixSnapshot (un_superblock sn) (set32 (un_inodeblock sn) (inode_word (un_inode sn) w) v) (un_inode_blockno sn) (un_inode sn).
Definition un_nblocks (sn : unixdisk_snapshot) : Z := un_get sn w_nblocks.
Definition un_set_super (b : block) (sn : unixdisk_snapshot) : unixdisk_snapshot :=
  UnixSnapshot b (un_inodeblock sn) (un_inode_blockno sn) (un_inode sn).

(** From the number of a data block to that of a block. *)
Definition un_abs (sn : unixdisk_snapshot) (x : Z) : Z := u32 (x + 1 + us_n_inodeblocks (un_superblock sn)).

(** [struct unixdisk_state], without [ninodes], which nothing sets or uses. *)
Record unixdisk_state (S : Type) := UnixDisk { us_below : S }.
Arguments UnixDisk {S}.
Arguments us_below {S}.

Section unixdisk.
Context {S : Type} `{!BlockStore S}.
Abbreviation st := (unixdisk_state S).

Definition us_call {A} (m : M S A) : M st A := lift us_below (fun b _ => UnixDisk b) m.
Definition us_read (off : Z) : M st (Z * block) := us_call (bs_read 0 off null_block).
Definition us_write (off : Z) (b : block) : M st Z := us_call (bs_write 0 off b).

(** [None] stands for the result -1. *)
Definition unixdisk_get_snapshot (inode_no : Z) : M st (option unixdisk_snapshot) :=
  x ← us_read 0;
  if decide (x.1 < 0) then mret None else
  if decide (inode_no >= us_n_inodeblocks x.2 * UNIX_INODES_PER_BLOCK) then mret None else
  let inode_blockno := u32 (1 + inode_no / UNIX_INODES_PER_BLOCK) in
  y ← us_read inode_blockno;
  if decide (y.1 < 0) then mret None else
  mret (Some (UnixSnapshot x.2 y.2 inode_blockno (Z.to_nat (inode_no mod UNIX_INODES_PER_BLOCK)))).

(** ** Finding a block

    The result is the number of the block, [minus1_u] when a read fails. *)

Definition entry (b : block) (i : Z) : Z := get32 b (Z.to_nat i).

Definition unixdisk_traverse (sn : unixdisk_snapshot) (offset : Z) : M st Z :=
  if decide (offset < 12) then mret (un_abs sn (un_get sn (w_direct offset))) else
  if decide (offset < 12 + ENTRIES_PER_BLOCK) then
    x ← us_read (un_abs sn (un_get sn w_single));
    if decide (x.1 < 0) then mret minus1_u else
    mret (un_abs sn (entry x.2 (offset - 12)))
  else if decide (offset < 12 + ENTRIES_PER_BLOCK + EPB_2) then
    x ← us_read (un_abs sn (un_get sn w_double));
    if decide (x.1 < 0) then mret minus1_u else
    let first_index := (offset - 12 - ENTRIES_PER_BLOCK) / ENTRIES_PER_BLOCK in
    y ← us_read (un_abs sn (entry x.2 first_index));
    if decide (y.1 < 0) then mret minus1_u else
    let second_index := offset - 12 - ENTRIES_PER_BLOCK - first_index * ENTRIES_PER_BLOCK in
    mret (un_abs sn (entry y.2 second_index))
  else
    assert_ (bool_decide (offset < 12 + ENTRIES_PER_BLOCK + EPB_2 + EPB_3));;
    x ← us_read (un_abs sn (un_get sn w_double));
    if decide (x.1 < 0) then mret minus1_u else
    let first_index := (offset - 12 - ENTRIES_PER_BLOCK - EPB_2) / EPB_2 in
    y ← us_read (un_abs sn (entry x.2 first_index));
    if decide (y.1 < 0) then mret minus1_u else
    let second_index := (offset - 12 - ENTRIES_PER_BLOCK - EPB_2 - first_index * EPB_2) / ENTRIES_PER_BLOCK in
    z ← us_read (un_abs sn (entry y.2 second_index));
    if decide (z.1 < 0) then mret minus1_u else
    let third_index := offset - 12 - ENTRIES_PER_BLOCK - EPB_2 - first_index * EPB_2 - second_index * ENTRIES_PER_BLOCK in
    mret (un_abs sn (entry z.2 third_index)).

(** ** The free list *)

(** The number of a free block, [minus1_u] on error; the snapshot has changed in
    any case. *)
Definition unixdisk_popfree (sn : unixdisk_snapshot) : M st (Z * unixdisk_snapshot) :=
  let sb := un_superblock sn in
  if decide (us_free_list sb = minus1_u) then mret (minus1_u, sn) else
  x ← us_read (un_abs sn (us_free_list sb));
  if decide (x.1 < 0) then mret (minus1_u, sn) else
  y ← (if decide (us_free_offset sb > 0) then
         let o := us_free_offset sb - 1 in
         if decide (o < ENTRIES_PER_FREE_BLOCK)
         then mret (get32 x.2 (fb_entry_word o), un_set_super (set32 sb 2 o) sn)
         else undef
       else
         mret (us_free_list sb, un_set_super (set32 (set32 sb 1 (fb_next x.2)) 2 ENTRIES_PER_FREE_BLOCK) sn));
  let '(next, sn) := y in
  w ← us_write 0 (un_superblock sn);
  mret (if decide (w < 0) then minus1_u else next, sn).

(** The callers do not look at the result. *)
Definition unixdisk_pushfree (sn : unixdisk_snapshot) (block_no : Z) : M st (Z * unixdisk_snapshot) :=
  let sb := un_superblock sn in
  let free_list := un_abs sn (us_free_list sb) in
  x ← us_read free_list;
  if decide (x.1 < 0) then mret (-1, sn) else
  if decide (us_free_offset sb < ENTRIES_PER_FREE_BLOCK) then
    let sn' := un_set_super (set32 sb 2 (us_free_offset sb + 1)) sn in
    w ← us_write free_list (set32 x.2 (fb_entry_word (us_free_offset sb)) block_no);
    if decide (w < 0) then mret (-1, sn') else
    w ← us_write 0 (un_superblock sn');
    mret (if decide (w < 0) then -1 else 0, sn')
  else
    assert_ (bool_decide (us_free_offset sb = ENTRIES_PER_FREE_BLOCK));;
    let sn' := un_set_super (set32 (set32 sb 1 block_no) 2 0) sn in
    w ← us_write (un_abs sn' block_no) (set32 x.2 1 (us_free_list sb));
    if decide (w < 0) then mret (-1, sn') else
    w ← us_write 0 (un_superblock sn');
    mret (if decide (w < 0) then -1 else 0, sn').

(** ** Allocation *)

(** while (i < 12 && i <= offset) *)
Fixpoint alloc_direct (fuel : nat) (offset i : Z) (sn : unixdisk_snapshot) : M st (Z * unixdisk_snapshot) :=
  match fuel with
  | O => out_of_fuel
  | Datatypes.S fuel =>
      if decide (i < 12 /\ i <= offset) then
        x ← unixdisk_popfree sn;
        alloc_direct fuel offset (i + 1) (un_set (w_direct i) x.1 x.2)
      else mret (i, sn)
  end.

(** The innermost loops: the entries of the block [b] for the offsets from [i] on,
    where [base] is the offset of entry 0. *)
Fixpoint alloc_entries (fuel : nat) (base offset i : Z) (b : block) (sn : unixdisk_snapshot)
    : M st (Z * block * unixdisk_snapshot) :=
  match fuel with
  | O => out_of_fuel
  | Datatypes.S fuel =>
      if decide (i < base + ENTRIES_PER_BLOCK /\ i <= offset) then
        x ← unixdisk_popfree sn;
        alloc_entries fuel base offset (i + 1) (set32 b (Z.to_nat (i - base)) x.1) x.2
      else mret (i, b, sn)
  end.

Definition ENTRIES_FUEL : nat := 257.

(** The blocks that one indirect block refers to: it is read, filled and written
    back. [None] stands for the result -1. *)
Definition alloc_indirect (no base offset i : Z) (sn : unixdisk_snapshot) : M st (option (Z * unixdisk_snapshot)) :=
  let to_read := un_abs sn no in
  x ← us_read to_read;
  if decide (x.1 < 0) then mret None else
  y ← alloc_entries ENTRIES_FUEL base offset i x.2 sn;
  let '(i, b, sn) := y in
  w ← us_write to_read b;
  mret (if decide (w < 0) then None else Some (i, sn)).

Definition alloc_single (offset i : Z) (sn : unixdisk_snapshot) : M st (option (Z * unixdisk_snapshot)) :=
  if decide (i < 12 + ENTRIES_PER_BLOCK /\ i <= offset) then
    assert_ (bool_decide (i >= 12));;
    sn ← (if decide (un_nblocks sn <= 12)
          then x ← unixdisk_popfree sn; mret (un_set w_single x.1 x.2)
          else mret sn);
    alloc_indirect (un_get sn w_single) 12 offset i sn
  else mret (Some (i, sn)).

(** The loop over the entries of a block [b] that refers to indirect blocks; [base] is
    the offset of the first block below entry 0. *)
Fixpoint alloc_table (fuel : nat) (base offset i : Z) (b : block) (sn : unixdisk_snapshot)
    : M st (option (Z * block * unixdisk_snapshot)) :=
  match fuel with
  | O => out_of_fuel
  | Datatypes.S fuel =>
      if decide (i < base + EPB_2 /\ i <= offset) then
        let j := (i - base) / ENTRIES_PER_BLOCK in
        x ← (if decide (un_nblocks sn <= base + j * ENTRIES_PER_BLOCK)
             then x ← unixdisk_popfree sn; mret (set32 b (Z.to_nat j) x.1, x.2)
             else mret (b, sn));
        let '(b, sn) := x in
        y ← alloc_indirect (entry b j) (base + j * ENTRIES_PER_BLOCK) offset i sn;
        match y with
        | None => mret None
        | Some (i, sn) => alloc_table fuel base offset i b sn
        end
      else mret (Some (i, b, sn))
  end.

Definition alloc_double (offset i : Z) (sn : unixdisk_snapshot) : M st (option (Z * unixdisk_snapshot)) :=
  if decide (i < 12 + ENTRIES_PER_BLOCK + EPB_2 /\ i <= offset) then
    assert_ (bool_decide (i >= 12 + ENTRIES_PER_BLOCK));;
    sn ← (if decide (un_nblocks sn <= 12 + ENTRIES_PER_BLOCK)
          then x ← unixdisk_popfree sn; mret (un_set w_double x.1 x.2)
          else mret sn);
    let to_read := un_abs sn (un_get sn w_double) in
    x ← us_read to_read;
    if decide (x.1 < 0) then mret None else
    y ← alloc_table ENTRIES_FUEL (12 + ENTRIES_PER_BLOCK) offset i x.2 sn;
    match y with
    | None => mret None
    | Some (i, b, sn) => w ← us_write to_read b; mret (if decide (w < 0) then None else Some (i, sn))
    end
  else mret (Some (i, sn)).

(** The loop over the triple indirect block. *)
Fixpoint alloc_tables (fuel : nat) (base offset i : Z) (b : block) (sn : unixdisk_snapshot)
    : M st (option (Z * block * unixdisk_snapshot)) :=
  match fuel with
  | O => out_of_fuel
  | Datatypes.S fuel =>
      if decide (i < base + EPB_3 /\ i <= offset) then
        let j := (i - base) / EPB_2 in
        x ← (if decide (un_nblocks sn <= base + j * EPB_2)
             then x ← unixdisk_popfree sn; mret (set32 b (Z.to_nat j) x.1, x.2)
             else mret (b, sn));
        let '(b, sn) := x in
        let to_read := un_abs sn (entry b j) in
        x ← us_read to_read;
        if decide (x.1 < 0) then mret None else
        y ← alloc_table ENTRIES_FUEL (base + j * EPB_2) offset i x.2 sn;
        match y with
        | None => mret None
        | Some (i, b2, sn) =>
            w ← us_write to_read b2;
            if decide (w < 0) then mret None else alloc_tables fuel base offset i b sn
        end
      else mret (Some (i, b, sn))
  end.

(** The block that is read and written is the double indirect block. *)
Definition alloc_triple (offset i : Z) (sn : unixdisk_snapshot) : M st (option (Z * unixdisk_snapshot)) :=
  if decide (i < 12 + ENTRIES_PER_BLOCK + EPB_2 + EPB_3 /\ i <= offset) then
    assert_ (bool_decide (i >= 12 + ENTRIES_PER_BLOCK + EPB_2));;
    sn ← (if decide (un_nblocks sn <= 12 + ENTRIES_PER_BLOCK + EPB_2)
          then x ← unixdisk_popfree sn; mret (un_set w_triple x.1 x.2)
          else mret sn);
    let to_read := un_abs sn (un_get sn w_double) in
    x ← us_read to_read;
    if decide (x.1 < 0) then mret None else
    y ← alloc_tables ENTRIES_FUEL (12 + ENTRIES_PER_BLOCK + EPB_2) offset i x.2 sn;
    match y with
    | None => mret None
    | Some (i, b, sn) => w ← us_write to_read b; mret (if decide (w < 0) then None else Some (i, sn))
    end
  else mret (Some (i, sn)).

(** The rest of a computation, when the result is not -1. *)
Definition and_then {A B} (m : M st (option A)) (f : A -> M st (option B)) : M st (option B) :=
  x ← m; match x with None => mret None | Some a => f a end.

Definition unixdisk_alloc (sn : unixdisk_snapshot) (offset : Z) : M st (option unixdisk_snapshot) :=
  assert_ (bool_decide (offset >= un_nblocks sn));;
  x ← alloc_direct 13 offset (un_nblocks sn) sn;
  and_then (alloc_single offset x.1 x.2) (fun x =>
  and_then (alloc_double offset x.1 x.2) (fun x =>
  and_then (alloc_triple offset x.1 x.2) (fun x =>
  let sn := un_set w_nblocks (u32 (offset + 1)) x.2 in
  w ← us_write (un_inode_blockno sn) (un_inodeblock sn);
  mret (if decide (w < 0) then None else Some sn)))).
(** ** Freeing a file *)

Definition push_ (sn : unixdisk_snapshot) (block_no : Z) : M st unixdisk_snapshot :=
  x ← unixdisk_pushfree sn block_no; mret x.2.

(** while (i < 12 && i < nblocks) *)
Fixpoint free_direct (fuel : nat) (i : Z) (sn : unixdisk_snapshot) : M st (Z * unixdisk_snapshot) :=
  match fuel with
  | O => out_of_fuel
  | Datatypes.S fuel =>
      if decide (i < 12 /\ i < un_nblocks sn) then
        sn ← push_ sn (un_get sn (w_direct i)); free_direct fuel (i + 1) sn
      else mret (i, sn)
  end.

Fixpoint free_entries (fuel : nat) (base i : Z) (b : block) (sn : unixdisk_snapshot) : M st (Z * unixdisk_snapshot) :=
  match fuel with
  | O => out_of_fuel
  | Datatypes.S fuel =>
      if decide (i < base + ENTRIES_PER_BLOCK /\ i < un_nblocks sn) then
        sn ← push_ sn (entry b (i - base)); free_entries fuel base (i + 1) b sn
      else mret (i, sn)
  end.

(** Frees what block [no] refers to and the block itself, which the code gets from
    where it was read from a second time. [None] stands for an early return. *)
Definition free_indirect (no base i : Z) (sn : unixdisk_snapshot) : M st (option (Z * unixdisk_snapshot)) :=
  x ← us_read (un_abs sn no);
  if decide (x.1 < 0) then mret None else
  y ← free_entries ENTRIES_FUEL base i x.2 sn;
  sn ← push_ y.2 no;
  mret (Some (y.1, sn)).

Definition free_single (i : Z) (sn : unixdisk_snapshot) : M st (option (Z * unixdisk_snapshot)) :=
  if decide (i < ENTRIES_PER_BLOCK + 12 /\ i < un_nblocks sn)
  then free_indirect (un_get sn w_single) 12 i sn
  else mret (Some (i, sn)).

Fixpoint free_table (fuel : nat) (base i : Z) (b : block) (sn : unixdisk_snapshot) : M st (option (Z * unixdisk_snapshot)) :=
  match fuel with
  | O => out_of_fuel
  | Datatypes.S fuel =>
      if decide (i < base + EPB_2 /\ i < un_nblocks sn) then
        let j := (i - base) / ENTRIES_PER_BLOCK in
        and_then (free_indirect (entry b j) (base + j * ENTRIES_PER_BLOCK) i sn) (fun x => free_table fuel base x.1 b x.2)
      else mret (Some (i, sn))
  end.

Definition free_double (i : Z) (sn : unixdisk_snapshot) : M st (option (Z * unixdisk_snapshot)) :=
  if decide (i < EPB_2 + ENTRIES_PER_BLOCK + 12 /\ i < un_nblocks sn) then
    x ← us_read (un_abs sn (un_get sn w_double));
    if decide (x.1 < 0) then mret None else
    and_then (free_table ENTRIES_FUEL (12 + ENTRIES_PER_BLOCK) i x.2 sn) (fun y =>
    sn ← push_ y.2 (un_get y.2 w_double);
    mret (Some (y.1, sn)))
  else mret (Some (i, sn)).

Fixpoint free_tables (fuel : nat) (base i : Z) (b : block) (sn : unixdisk_snapshot) : M st (option (Z * unixdisk_snapshot)) :=
  match fuel with
  | O => out_of_fuel
  | Datatypes.S fuel =>
      if decide (i < base + EPB_3 /\ i < un_nblocks sn) then
        let j := (i - base) / EPB_2 in
        x ← us_read (un_abs sn (entry b j));
        if decide (x.1 < 0) then mret None else
        and_then (free_table ENTRIES_FUEL (base + j * EPB_2) i x.2 sn) (fun y =>
        sn ← push_ y.2 (entry b j);
        free_tables fuel base y.1 b sn)
      else mret (Some (i, sn))
  end.

(** The block that is read is the double indirect block, the block that is freed the
    triple indirect block. *)
Definition free_triple (i : Z) (sn : unixdisk_snapshot) : M st (option (Z * unixdisk_snapshot)) :=
  if decide (i < 12 + ENTRIES_PER_BLOCK + EPB_2 + EPB_3 /\ i < un_nblocks sn) then
    assert_ (bool_decide (i >= 12 + ENTRIES_PER_BLOCK + EPB_2));;
    x ← us_read (un_abs sn (un_get sn w_double));
    if decide (x.1 < 0) then mret None else
    and_then (free_tables ENTRIES_FUEL (12 + ENTRIES_PER_BLOCK + EPB_2) i x.2 sn) (fun y =>
    sn ← push_ y.2 (un_get y.2 w_triple);
    mret (Some (y.1, sn)))
  else mret (Some (i, sn)).

(** The result says whether the end was reached; the caller cannot tell. *)
Definition unixdisk_free_file (sn : unixdisk_snapshot) : M st (option unit) :=
  x ← free_direct 13 0 sn;
  and_then (free_single x.1 x.2) (fun x =>
  and_then (free_double x.1 x.2) (fun x =>
  and_then (free_triple x.1 x.2) (fun x =>
  assert_ (bool_decide (x.1 = un_nblocks x.2));;
  let sn := un_set w_nblocks 0 x.2 in
  w ← us_write (un_inode_blockno sn) (un_inodeblock sn);
  mret (if decide (w < 0) then None else Some tt)))).

(** ** The methods *)

Definition unixdisk_write (ino offset : Z) (b : block) : M st Z :=
  osn ← unixdisk_get_snapshot ino;
  match osn with
  | None => mret (-1)
  | Some sn =>
      osn ← (if decide (offset >= un_nblocks sn) then unixdisk_alloc sn offset else mret (Some sn));
      match osn with
      | None => mret (-1)
      | Some sn =>
          to_write ← unixdisk_traverse sn offset;
          w ← us_write to_write b;
          mret (if decide (w < 0) then -1 else 0)
      end
  end.

Definition unixdisk_read (ino offset : Z) (buf : block) : M st (Z * block) :=
  osn ← unixdisk_get_snapshot ino;
  match osn with
  | None => mret (-1, buf)
  | Some sn =>
      if decide (offset >= un_nblocks sn) then mret (-1, buf) else
      to_read ← unixdisk_traverse sn offset;
      x ← us_call (bs_read 0 to_read buf);
      mret (if decide (x.1 < 0) then -1 else 0, x.2)
  end.

Definition unixdisk_getninodes : M st Z :=
  x ← us_read 0;
  if decide (x.1 < 0) then mret (-1) else mret (i32 (us_n_inodeblocks x.2 * UNIX_INODES_PER_BLOCK)).

Definition unixdisk_getsize (ino : Z) : M st Z :=
  osn ← unixdisk_get_snapshot ino;
  match osn with
  | None => mret (-1)
  | Some sn => mret (i32 (un_nblocks sn))
  end.

(** The result of [unixdisk_get_snapshot] is not looked at: when it fails the
    snapshot is uninitialised. *)
Definition unixdisk_setsize (ino nblocks : Z) : M st Z :=
  osn ← unixdisk_get_snapshot ino;
  match osn with
  | None => undef
  | Some sn =>
      if decide (nblocks = un_nblocks sn) then mret (i32 nblocks) else
      if decide (nblocks > 0) then mret (-1) else
      unixdisk_free_file sn;;
      mret 0
  end.

Definition unixdisk_sync (ino : Z) : M st Z := us_call (bs_sync 0).

Definition unixdisk_release (us : st) : S := us_below us.

(** [None] is the null pointer. *)
Definition unixdisk_init (below : S) (below_ino : Z) : option st :=
  if decide (below_ino <> 0) then None else Some (UnixDisk below).

#[export] Instance unixdisk_bs : BlockStore st := {
  bs_getninodes := unixdisk_getninodes;
  bs_getsize := unixdisk_getsize;
  bs_setsize := unixdisk_setsize;
  bs_read := unixdisk_read;
  bs_write := unixdisk_write;
  bs_sync := unixdisk_sync;
}.

(** ** Creating a file system, on the store below *)

(** Clears the inode blocks [i], [i+1], ..., [n] of them. *)
Fixpoint unix_clear_inodes (n : nat) (below_ino i : Z) : M S bool :=
  match n with
  | O => mret true
  | Datatypes.S n =>
      w ← bs_write below_ino i null_block;
      if decide (w < 0) then mret false else unix_clear_inodes n below_ino (i + 1)
  end.

(** The entries from [j] on, [n] of them, of a block of the free list, which are
    [first], [first+1], ... *)
Fixpoint fill_entries (n : nat) (j first : Z) (b : block) : block :=
  match n with
  | O => b
  | Datatypes.S n => fill_entries n (j + 1) (u32 (first + 1)) (set32 b (fb_entry_word j) first)
  end.

Definition set_freeblock (nblocks next : Z) (b : block) : block := set32 (set32 b 0 nblocks) 1 next.

(** The blocks of the free list after the first, from number [i] on; [n] of [total]
    are left. *)
Fixpoint unix_free_blocks (n : nat) (total below_ino n_inodeblocks n_remainder i : Z) (freeblock : block) : M S bool :=
  match n with
  | O => mret true
  | Datatypes.S n =>
      let head := u32 (i * (ENTRIES_PER_FREE_BLOCK + 1) + n_remainder) in
      let next := if decide (i = total - 1) then minus1_u
                  else u32 ((i + 1) * (ENTRIES_PER_FREE_BLOCK + 1) + n_remainder) in
      let freeblock := set_freeblock ENTRIES_PER_FREE_BLOCK next
                         (fill_entries (Z.to_nat ENTRIES_PER_FREE_BLOCK) 0 (u32 (head + 1)) freeblock) in
      w ← bs_write below_ino (u32 (head + 1 + n_inodeblocks)) freeblock;
      if decide (w < 0) then mret false else
      unix_free_blocks n total below_ino n_inodeblocks n_remainder (i + 1) freeblock
  end.

(** [junk] is what the variable [freeblock] holds at first. When there is no remainder
    the first loop runs to 2^32 - 1 and past the end of the block. *)
Definition unixdisk_create (junk : block) (below_ino ninodes : Z) : M S Z :=
  let n_inodeblocks := u32 ((ninodes + UNIX_INODES_PER_BLOCK - 1) / UNIX_INODES_PER_BLOCK) in
  x ← bs_read below_ino 0 null_block;
  if decide (x.1 < 0) then mret (-1) else
  if decide (us_n_inodeblocks x.2 <> 0) then
    assert_ (bool_decide (us_n_inodeblocks x.2 >= n_inodeblocks));;
    mret 0
  else
  ok ← unix_clear_inodes (Z.to_nat n_inodeblocks) below_ino 1;
  if decide ((ok : bool) = false) then mret (-1) else
  r ← bs_getsize below_ino;
  let n_blocks := u32 r in
  let n_datablocks := u32 (n_blocks - n_inodeblocks - 1) in
  let n_remainder := n_datablocks mod (ENTRIES_PER_FREE_BLOCK + 1) in
  if decide (n_remainder = 0) then undef else
  let freeblock := set_freeblock (n_remainder - 1) (if decide (n_datablocks > n_remainder) then n_remainder else minus1_u)
                     (fill_entries (Z.to_nat (n_remainder - 1)) 0 1 junk) in
  w ← bs_write below_ino (u32 (n_inodeblocks + 1)) freeblock;
  if decide (w < 0) then mret (-1) else
  let total := n_datablocks / (ENTRIES_PER_FREE_BLOCK + 1) in
  ok ← unix_free_blocks (Z.to_nat total) total below_ino n_inodeblocks n_remainder 0 freeblock;
  if decide ((ok : bool) = false) then mret (-1) else
  w ← bs_write below_ino 0 (set32 (set32 (set32 x.2 0 n_inodeblocks) 1 0) 2 (n_remainder - 1));
  mret (if decide (w < 0) then -1 else 0).
End unixdisk.
