(* ===== verification/UnixInv.v ===== *)
(** The layout of a unixdisk file system and its invariant: the free list, the blocks
    of files, and which block is used for what. *)
From stdpp Require Import base numbers list gmap.
From Stdlib Require Import ZArith Lia Permutation.
From S2P Require Import Prelude BlockStore TreeInv UnixDisk.

Abbreviation ublk := (blk 0).

(** The blocks of a file: data, and the three kinds of indirect blocks below the
    triple one, which no file within the limits has. *)
Inductive ukind := KData (k : Z) | KSingle | KDouble | KSub (j : Z).

#[export] Instance ukind_eq_dec : EqDecision ukind.
Proof. solve_decision. Defined.

(** The kinds that a file of [n] blocks has. *)
Definition live (n : Z) (kd : ukind) : Prop :=
  match kd with
  | KData k => 0 <= k < n
  | KSingle => 12 < n
  | KDouble => 268 < n
  | KSub j => 0 <= j /\ 268 + 256 * j < n
  end.

#[export] Instance live_dec n kd : Decision (live n kd).
Proof. destruct kd; cbn [live]; apply _. Defined.

(** The blocks that are reached without the triple indirect block. *)
Definition unix_max : Z := 12 + 256 + 65536.

Inductive urole := UMeta | UFree | UNode (i : Z) (kd : ukind).

Lemma live_mono n m kd : n <= m -> live n kd -> live m kd.
Proof. destruct kd; cbn [live]; lia. Qed.

(** * Inodes *)

Definition unix_inode_block (i : Z) : Z := 1 + i / 16.
Definition unix_inode_idx (i : Z) : nat := Z.to_nat (i mod 16).
Definition iword (dB : vdisk) (i : Z) (w : nat) : Z := get32 (ublk dB (unix_inode_block i)) (inode_word (unix_inode_idx i) w).
Definition usize (dB : vdisk) (i : Z) : Z := iword dB i w_nblocks.

Lemma unix_idx_lt i : (unix_inode_idx i < 16)%nat.
Proof. unfold unix_inode_idx. pose proof (Z.mod_pos_bound i 16). lia. Qed.

Lemma inode_word_lt i w : (w < 16)%nat -> (inode_word (unix_inode_idx i) w < 256)%nat.
Proof. pose proof (unix_idx_lt i). unfold inode_word. lia. Qed.

Lemma inode_word_inj i i' w w' : (w < 16)%nat -> (w' < 16)%nat -> 0 <= i -> 0 <= i' -> unix_inode_block i = unix_inode_block i' ->
  inode_word (unix_inode_idx i) w = inode_word (unix_inode_idx i') w' -> i = i' /\ w = w'.
Proof.
  unfold unix_inode_block, inode_word, unix_inode_idx. intros Hw Hw' Hi Hi' E1 E2.
  pose proof (Z.mod_pos_bound i 16). pose proof (Z.mod_pos_bound i' 16). pose proof (Z.div_mod i 16). pose proof (Z.div_mod i' 16). lia.
Qed.

Lemma w_direct_lt k : 0 <= k < 12 -> (w_direct k < 13)%nat /\ w_direct k <> w_nblocks.
Proof. unfold w_direct, w_nblocks. lia. Qed.

Section layout.
Context (nib ndata : Z).

(** ** Data blocks by their number, as the code counts *)

Definition dblk (dB : vdisk) (x : Z) : block := ublk dB (x + 1 + nib).

Definition uptr (dB : vdisk) (i : Z) (kd : ukind) : Z :=
  match kd with
  | KSingle => iword dB i w_single
  | KDouble => iword dB i w_double
  | KSub j => entry (dblk dB (iword dB i w_double)) j
  | KData k =>
      if decide (k < 12) then iword dB i (w_direct k)
      else if decide (k < 268) then entry (dblk dB (iword dB i w_single)) (k - 12)
      else entry (dblk dB (entry (dblk dB (iword dB i w_double)) ((k - 268) / 256))) ((k - 268) mod 256)
  end.

(** What is at offset [k] of file [i]. *)
Definition ucontent (dB : vdisk) (i k : Z) : block := dblk dB (uptr dB i (KData k)).

(** ** The free list *)

Definition in_range (x : Z) : Prop := 0 <= x < ndata.

Definition uentries (b : block) (o : nat) : list Z := (fun j => get32 b (2 + j)) <$> seq 0 o.

(** [ufree dB h o fl]: from head [h], with [o] entries in its block, the list [fl]. *)
Inductive ufree (dB : vdisk) : Z -> nat -> list Z -> Prop :=
| uf_nil : ufree dB minus1_u 254 []
| uf_cons h o fl :
    in_range h -> (o <= 254)%nat -> ufree dB (fb_next (dblk dB h)) 254 fl ->
    ufree dB h o (h :: uentries (dblk dB h) o ++ fl).

Lemma ufree_cases dB h o fl : ufree dB h o fl ->
  h = minus1_u /\ o = 254%nat /\ fl = [] \/
  in_range h /\ (o <= 254)%nat /\ exists fl0, fl = h :: uentries (dblk dB h) o ++ fl0 /\ ufree dB (fb_next (dblk dB h)) 254 fl0.
Proof. destruct 1; [by left|right; eauto]. Qed.

Lemma ufree_frame dB dB' h o fl :
  (forall x, x ∈ fl -> dblk dB' x = dblk dB x) -> ufree dB h o fl -> ufree dB' h o fl.
Proof.
  intros Hb Hf. induction Hf as [|h o fl Hh Ho Hf IH]; [constructor|].
  rewrite <- (Hb h) by (by left). constructor; [done|done|]. rewrite (Hb h) by (by left). apply IH.
  intros x Hx. apply Hb. right. apply elem_of_app. by right.
Qed.

(** The super block and the free list. *)
Record free_ok (dB : vdisk) (fl : list Z) : Prop := {
  fo_wf : vdisk_wf dB;
  fo_present : forall n, 0 <= n < 1 + nib + ndata -> present 0 dB n;
  fo_nib : us_n_inodeblocks (ublk dB 0) = nib;
  fo_list : exists o, us_free_offset (ublk dB 0) = Z.of_nat o /\ ufree dB (us_free_list (ublk dB 0)) o fl;
  fo_nodup : NoDup fl;
  fo_range : Forall in_range fl;
}.

Definition valid_inode (i : Z) : Prop := 0 <= i < nib * 16.

(** * The invariant *)

Record unix_inv (rl : Z -> urole) (fl : list Z) (dB : vdisk) : Prop := {
  ui_free : free_ok dB fl;
  ui_role : forall x, x ∈ fl -> rl x = UFree;
  ui_size : forall i, valid_inode i -> usize dB i <= unix_max;
  ui_node : forall i kd, valid_inode i -> live (usize dB i) kd -> in_range (uptr dB i kd) /\ rl (uptr dB i kd) = UNode i kd;
}.

Lemma usize_range dB i : 0 <= usize dB i < two32.
Proof. apply get32_u32. Qed.

Context (Hnib : 1 <= nib) (Hsize : 1 + nib + ndata <= two32 - 1).

Lemma abs_range x : in_range x -> 1 + nib <= x + 1 + nib < 1 + nib + ndata.
Proof. unfold in_range. lia. Qed.

Lemma inode_block_range i : valid_inode i -> 1 <= unix_inode_block i <= nib.
Proof.
  unfold valid_inode, unix_inode_block. intros H. pose proof (Z.div_pos i 16). pose proof (Z.div_lt_upper_bound i 16 nib). lia.
Qed.

Lemma in_range_u32 x : in_range x -> is_u32 x /\ x <> minus1_u.
Proof. unfold in_range, is_u32, minus1_u, two32 in *. lia. Qed.

(** ** Writes elsewhere *)

Lemma dblk_insert dB n b x : dblk (<[(0, n):=b]> dB) x = if decide (n = x + 1 + nib) then b else dblk dB x.
Proof. unfold dblk. apply blk_insert. Qed.

Lemma dblk_insert_eq dB b x : dblk (<[(0, x + 1 + nib):=b]> dB) x = b.
Proof. by rewrite dblk_insert, decide_True. Qed.

Lemma dblk_insert_ne dB n b x : n <> x + 1 + nib -> dblk (<[(0, n):=b]> dB) x = dblk dB x.
Proof. intros H. by rewrite dblk_insert, decide_False. Qed.

Lemma dblk_insert_meta dB n b x : in_range x -> n <= nib -> dblk (<[(0, n):=b]> dB) x = dblk dB x.
Proof. intros Hx Hn. apply dblk_insert_ne. unfold in_range in Hx. lia. Qed.

Lemma iword_insert dB n b i w : valid_inode i -> n <> unix_inode_block i -> iword (<[(0, n):=b]> dB) i w = iword dB i w.
Proof. intros Hi Hn. unfold iword. by rewrite blk_insert_ne. Qed.

Lemma iword_insert_data dB x b i w : valid_inode i -> in_range x -> iword (<[(0, x + 1 + nib):=b]> dB) i w = iword dB i w.
Proof. intros Hi Hx. apply iword_insert; [done|]. pose proof (inode_block_range i Hi). unfold in_range in Hx. lia. Qed.

Lemma iword_insert_super dB b i w : valid_inode i -> iword (<[(0, 0):=b]> dB) i w = iword dB i w.
Proof. intros Hi. apply iword_insert; [done|]. pose proof (inode_block_range i Hi). lia. Qed.

(** A write that does not touch the super block or a free block. *)
Lemma free_ok_insert dB fl n b : free_ok dB fl -> 1 <= n < 1 + nib + ndata -> block_wf b ->
  (forall x, x ∈ fl -> n <> x + 1 + nib) -> free_ok (<[(0, n):=b]> dB) fl.
Proof.
  intros [H1 H2 H3 (o & E & H4) H5 H6] Hn Hb Hne. split.
  - apply vdisk_wf_insert; [done|apply H2; lia|done].
  - intros m Hm. apply present_insert; [apply H2; lia|by apply H2].
  - by rewrite blk_insert_ne by lia.
  - exists o. rewrite blk_insert_ne by lia. split; [done|]. eapply ufree_frame; [|exact H4].
    intros x Hx. apply dblk_insert_ne, Hne, Hx.
  - done.
  - done.
Qed.

Lemma uentries_le b n m : (n <= m)%nat -> uentries b n = take n (uentries b m).
Proof.
  intros H. unfold uentries. rewrite firstn_map || rewrite <- fmap_take. f_equal. replace m with (n + (m - n))%nat by lia.
  rewrite seq_app. by rewrite take_app_length' by (by rewrite length_seq).
Qed.

Lemma uentries_S b o : uentries b (S o) = uentries b o ++ [get32 b (2 + o)].
Proof. unfold uentries. rewrite seq_S, fmap_app. done. Qed.

Lemma uentries_ext b b' o : (forall j, (j < o)%nat -> get32 b' (2 + j) = get32 b (2 + j)) -> uentries b' o = uentries b o.
Proof. intros H. apply list_fmap_ext. intros k j Hj. apply lookup_seq in Hj. apply H. lia. Qed.

(** ** Taking blocks off the free list for a file *)

(** The roles when file [i] gets the blocks [new]. *)
Fixpoint extend (new : list (ukind * Z)) (i : Z) (rl : Z -> urole) (x : Z) : urole :=
  match new with
  | [] => rl x
  | (kd, y) :: new => if decide (x = y) then UNode i kd else extend new i rl x
  end.

Lemma extend_in new i rl kd x : NoDup new.*2 -> (kd, x) ∈ new -> extend new i rl x = UNode i kd.
Proof.
  induction new as [|[kd' y] new IH]; intros Hnd Hin; [by apply elem_of_nil in Hin|]. cbn [fmap list_fmap snd] in Hnd.
  apply NoDup_cons in Hnd as [Hy Hnd]. cbn [extend]. apply elem_of_cons in Hin as [[= -> ->]|Hin]; [by rewrite decide_True|].
  rewrite decide_False; [by apply IH|]. intros ->. apply Hy. apply list_elem_of_fmap. by exists (kd, y).
Qed.

Lemma extend_notin new i rl x : x ∉ new.*2 -> extend new i rl x = rl x.
Proof.
  induction new as [|[kd' y] new IH]; intros Hx; [done|]. cbn [fmap list_fmap snd extend] in *.
  apply not_elem_of_cons in Hx as [Hne Hx]. rewrite decide_False by done. by apply IH.
Qed.

(** The blocks of a file do not depend on other blocks. *)
Lemma uptr_frame rl dB dB' i n :
  (forall kd, live n kd -> in_range (uptr dB i kd) /\ rl (uptr dB i kd) = UNode i kd) ->
  (forall w, (w < 16)%nat -> iword dB' i w = iword dB i w) ->
  (forall x kd, in_range x -> rl x = UNode i kd -> (forall k, kd <> KData k) -> dblk dB' x = dblk dB x) ->
  forall kd, live n kd -> n <= unix_max -> uptr dB' i kd = uptr dB i kd.
Proof.
  intros Hnode Hw Hb kd Hl Hn. assert (12 < n -> dblk dB' (iword dB i w_single) = dblk dB (iword dB i w_single)) as Hs.
  { intros H. destruct (Hnode KSingle H) as [H1 H2]. by eapply Hb; [..|intros k]. }
  assert (268 < n -> dblk dB' (iword dB i w_double) = dblk dB (iword dB i w_double)) as Hd.
  { intros H. destruct (Hnode KDouble H) as [H1 H2]. by eapply Hb; [..|intros k]. }
  destruct kd as [k| | |j]; cbn [live] in Hl; cbn [uptr].
  - destruct (decide (k < 12)) as [H1|H1]; [apply Hw; unfold w_direct; lia|].
    rewrite !Hw by (unfold w_single, w_double; lia).
    destruct (decide (k < 268)) as [H2|H2]; [by rewrite Hs by lia|]. rewrite Hd by lia.
    destruct (Hnode (KSub ((k - 268) / 256))) as [H3 H4]; [cbn [live]; Z.to_euclidean_division_equations; lia|].
    cbn [uptr] in H3, H4. by rewrite (Hb _ _ H3 H4) by done.
  - apply Hw. unfold w_single. lia.
  - apply Hw. unfold w_double. lia.
  - rewrite Hw by (unfold w_double; lia). by rewrite Hd by lia.
Qed.

Section append.
Context (rl : Z -> urole) (fl fl' : list Z) (dB dB' : vdisk) (i : Z) (new : list (ukind * Z)).
Context (HI : unix_inv rl fl dB) (Hi : valid_inode i) (Hf' : free_ok dB' fl') (Hfl : fl ≡ₚ new.*2 ++ fl').
Context (Hwords : forall i' w, valid_inode i' -> i' <> i -> (w < 16)%nat -> iword dB' i' w = iword dB i' w).
Context (Hblocks : forall x i' kd, in_range x -> rl x = UNode i' kd -> i' <> i \/ (exists k, kd = KData k) -> dblk dB' x = dblk dB x).
Context (Hsz : usize dB i <= usize dB' i <= unix_max).
Context (Hold : forall kd, live (usize dB i) kd -> uptr dB' i kd = uptr dB i kd).
Context (Hnew : forall kd, live (usize dB' i) kd -> ~ live (usize dB i) kd -> (kd, uptr dB' i kd) ∈ new).

Lemma append_uptr i' kd : valid_inode i' -> live (usize dB i') kd -> uptr dB' i' kd = uptr dB i' kd.
Proof.
  intros Hi' Hl. destruct (decide (i' = i)) as [->|Hne]; [by apply Hold|].
  apply (uptr_frame rl dB dB' i' (usize dB i')); [intros kd' Hl'; by apply (ui_node _ _ _ HI)| | |done|by apply (ui_size _ _ _ HI)].
  - intros w Hw. by apply Hwords.
  - intros x kd' Hx Hr _. eapply Hblocks; [done|exact Hr|by left].
Qed.

Lemma append_size i' : valid_inode i' -> i' <> i -> usize dB' i' = usize dB i'.
Proof. intros Hi' Hne. apply Hwords; [done|done|unfold w_nblocks; lia]. Qed.

Lemma append_inv : unix_inv (extend new i rl) fl' dB'.
Proof.
  assert (NoDup (new.*2 ++ fl')) as Hnd by (rewrite <- Hfl; apply HI). apply NoDup_app in Hnd as (Hnd1 & Hdis & Hnd2).
  assert (forall x, x ∈ new.*2 -> rl x = UFree) as Hfree by (intros x Hx; apply (ui_role _ _ _ HI); rewrite Hfl; apply elem_of_app; by left).
  assert (forall x i' kd, rl x = UNode i' kd -> extend new i rl x = UNode i' kd) as Hkeep.
  { intros x i' kd Hr. rewrite extend_notin; [done|]. intros Hx. rewrite Hfree in Hr; done. }
  split; [done| | |].
  - intros x Hx. rewrite extend_notin by (intros Hx'; by apply (Hdis x)). apply (ui_role _ _ _ HI). rewrite Hfl. apply elem_of_app. by right.
  - intros i' Hi'. destruct (decide (i' = i)) as [->|Hne]; [lia|]. rewrite append_size by done. by apply (ui_size _ _ _ HI).
  - intros i' kd Hi' Hl. destruct (decide (live (usize dB i') kd)) as [Hlo|Hlo].
    + rewrite append_uptr by done. destruct (ui_node _ _ _ HI i' kd Hi' Hlo) as [H1 H2]. split; [done|by apply Hkeep].
    + destruct (decide (i' = i)) as [->|Hne]; [|by rewrite append_size in Hl by done]. pose proof (Hnew kd Hl Hlo) as Hin.
      split; [|by apply extend_in]. assert (uptr dB' i kd ∈ fl) as Hx.
      { rewrite Hfl. apply elem_of_app. left. apply list_elem_of_fmap. by exists (kd, uptr dB' i kd). }
      pose proof (fo_range _ _ (ui_free _ _ _ HI)) as Hr. rewrite Forall_forall in Hr. by apply Hr.
Qed.

Lemma append_content i' k : valid_inode i' -> 0 <= k < usize dB i' -> ucontent dB' i' k = ucontent dB i' k.
Proof.
  intros Hi' Hk. unfold ucontent. rewrite append_uptr by done. destruct (ui_node _ _ _ HI i' (KData k) Hi' Hk) as [H1 H2].
  eapply Hblocks; [done|exact H2|right; by exists k].
Qed.
End append.
End layout.
