(* ===== verification/UnixSpec.v ===== *)
(** What the operations of unixdisk.c on the free list, and reading, do. *)
From stdpp Require Import base numbers list gmap.
From Stdlib Require Import ZArith Lia Permutation.
From S2P Require Import Prelude BlockStore TreeInv UnixDisk UnixInv.

Section spec.
Context {S : Type} {R : S -> vdisk -> Prop} `{!BlockStore S, !Lawful S R}.
Abbreviation st := (unixdisk_state S).
Context (nib ndata : Z) (Hnib : 1 <= nib) (Hndata : 0 <= ndata) (Hsize : 1 + nib + ndata <= two32 - 1).
Abbreviation free_ok := (free_ok nib ndata).
Abbreviation ufree := (ufree nib ndata).
Abbreviation dblk := (dblk nib).
Abbreviation in_range := (in_range ndata).

(** ** The store below *)

Lemma us_call_read_ok (us : st) dB n buf : R (us_below us) dB -> present 0 dB n -> block_wf buf ->
  wp (us_call (bs_read 0 n buf)) us (fun x us' => x = (0, ublk dB n) /\ R (us_below us') dB).
Proof.
  intros HR Hp Hb. unfold us_call. step.
  wp_use (law_read (R:=R) (us_below us) dB 0 n (ublk dB n) buf HR) as [-> HR']; [by apply blk_present|done|done].
Qed.

Lemma us_read_ok (us : st) dB n : R (us_below us) dB -> present 0 dB n ->
  wp (us_read n) us (fun x us' => x = (0, ublk dB n) /\ R (us_below us') dB).
Proof. intros HR Hp. apply us_call_read_ok; [done|done|apply null_block_wf]. Qed.

Lemma us_write_ok (us : st) dB n b : R (us_below us) dB -> present 0 dB n -> block_wf b ->
  wp (us_write n b) us (fun w us' => w = 0 /\ R (us_below us') (<[(0, n):=b]> dB)).
Proof.
  intros HR Hp Hb. unfold us_write, us_call. step.
  wp_use (law_write (R:=R) (us_below us) dB 0 n b HR) as [-> HR']; [done|done|done].
Qed.

(** ** The free list *)

(** In the middle of an operation: the super block of the snapshot is that of the
    disk. *)
Record mid (us : st) (sn : unixdisk_snapshot) (dB : vdisk) (fl : list Z) : Prop := {
  mid_repr : R (us_below us) dB;
  mid_super : un_superblock sn = ublk dB 0;
  mid_free : free_ok dB fl;
}.

Lemma mid_abs us sn dB fl x : mid us sn dB fl -> in_range x -> un_abs sn x = x + 1 + nib /\ present 0 dB (x + 1 + nib).
Proof.
  intros [HR Hs Hf] Hx. unfold un_abs. rewrite Hs, (fo_nib _ _ _ _ Hf). pose proof (abs_range nib ndata x Hx).
  rewrite u32_small by (unfold is_u32; lia). split; [done|]. apply (fo_present _ _ _ _ Hf). lia.
Qed.

Lemma mid_u32 us sn dB fl x : mid us sn dB fl -> in_range x -> is_u32 x.
Proof. intros _ Hx. by apply (in_range_u32 nib ndata). Qed.

(** A new super block, for a list of free blocks that the disk holds. *)
Lemma free_ok_super dB fl' sb o : vdisk_wf dB -> (forall n, 0 <= n < 1 + nib + ndata -> present 0 dB n) -> block_wf sb -> us_n_inodeblocks sb = nib ->
  us_free_offset sb = Z.of_nat o -> ufree dB (us_free_list sb) o fl' -> NoDup fl' -> Forall in_range fl' ->
  free_ok (<[(0, 0):=sb]> dB) fl'.
Proof.
  intros H1 H2 Hw En Eo Hf Hn Hr. assert (present 0 dB 0) as Hp by (apply H2; lia). split.
  - by apply vdisk_wf_insert.
  - intros m Hm. apply present_insert; [done|by apply H2].
  - by rewrite blk_insert_eq.
  - exists o. rewrite blk_insert_eq. split; [done|]. eapply ufree_frame; [|exact Hf].
    intros x Hx. rewrite Forall_forall in Hr. apply (dblk_insert_meta nib ndata); [by apply Hr|lia].
  - done.
  - done.
Qed.

Lemma super_fields sb v o : block_wf sb -> is_u32 v -> is_u32 o ->
  block_wf (set32 (set32 sb 1 v) 2 o) /\ us_n_inodeblocks (set32 (set32 sb 1 v) 2 o) = us_n_inodeblocks sb /\
  us_free_list (set32 (set32 sb 1 v) 2 o) = v /\ us_free_offset (set32 (set32 sb 1 v) 2 o) = o.
Proof.
  intros Hb Hv Ho. unfold us_n_inodeblocks, us_free_list, us_free_offset. assert (block_wf (set32 sb 1 v)) by (apply set32_wf; [done|lia]).
  split_and!; [by apply set32_wf; [|lia]|by rewrite !get32_set32_ne by (done || lia)| |by rewrite get32_set32_eq by (done || lia)].
  rewrite get32_set32_ne by (done || lia). by rewrite get32_set32_eq by (done || lia).
Qed.

Lemma super_offset sb o : block_wf sb -> is_u32 o ->
  block_wf (set32 sb 2 o) /\ us_n_inodeblocks (set32 sb 2 o) = us_n_inodeblocks sb /\
  us_free_list (set32 sb 2 o) = us_free_list sb /\ us_free_offset (set32 sb 2 o) = o.
Proof.
  intros Hb Ho. unfold us_n_inodeblocks, us_free_list, us_free_offset.
  split_and!; [by apply set32_wf; [|lia]|by rewrite get32_set32_ne by (done || lia)|by rewrite get32_set32_ne by (done || lia)|
    by rewrite get32_set32_eq by (done || lia)].
Qed.

Lemma popfree_ok (us : st) sn dB fl : mid us sn dB fl -> fl <> [] ->
  wp (unixdisk_popfree sn) us (fun r us' => exists x fl' sb,
    r = (x, un_set_super sb sn) /\ fl ≡ₚ x :: fl' /\ in_range x /\ block_wf sb /\
    mid us' (un_set_super sb sn) (<[(0, 0):=sb]> dB) fl').
Proof.
  intros Hmid Hne. pose proof Hmid as [HR Hs Hf]. pose proof Hf as [Hw Hp En (o & Eo & Hl) Hnd Hr].
  unfold unixdisk_popfree. cbv zeta. rewrite Hs, Eo.
  assert (block_wf (ublk dB 0)) as Hsb by (by apply blk_wf). assert (present 0 dB 0) as Hp0 by (apply Hp; lia).
  destruct (ufree_cases _ _ _ _ _ _ Hl) as [(_ & _ & ->)|(Hh & Ho & fl0 & -> & Hl0)]; [done|].
  set (h0 := us_free_list (ublk dB 0)) in *. clear Hl.
  pose proof (in_range_u32 nib ndata Hnib Hsize h0 Hh) as [Hu Hm1]. rewrite decide_False by done.
  destruct (mid_abs us sn dB _ h0 Hmid Hh) as [-> Hph]. step.
  wp_use (us_read_ok us dB (h0 + 1 + nib) HR Hph) as [-> HR1]. cbn [fst snd]. rewrite decide_False by lia.
  change (ublk dB (h0 + 1 + nib)) with (dblk dB h0).
  pose proof Hr as [_ Hr']%Forall_cons. pose proof Hnd as [_ Hnd']%NoDup_cons. step.
  destruct o as [|o].
  - (* the head itself *)
    rewrite decide_False by lia. step.
    destruct (super_fields (ublk dB 0) (fb_next (dblk dB h0)) ENTRIES_PER_FREE_BLOCK Hsb) as (W & F1 & F2 & F3); [apply get32_u32|done|].
    set (sb := set32 (set32 _ _ _) _ _) in *. step. cbn [un_superblock un_set_super].
    wp_use (us_write_ok _ dB 0 sb HR1 Hp0 W) as [-> HR2]. step. rewrite decide_False by lia.
    cbn [uentries seq fmap list_fmap app] in *. exists h0, fl0, sb. split_and!; try done. split; [done|by rewrite blk_insert_eq|].
    eapply (free_ok_super _ fl0 sb 254); [done|done|done|congruence|done|by rewrite F2|done|done].
  - (* its last entry *)
    rewrite decide_True by lia. rewrite decide_True by (unfold ENTRIES_PER_FREE_BLOCK; lia). step.
    replace (Z.of_nat (Datatypes.S o) - 1) with (Z.of_nat o) by lia.
    destruct (super_offset (ublk dB 0) (Z.of_nat o) Hsb) as (W & F1 & F2 & F3); [unfold is_u32, two32; lia|].
    set (sb := set32 _ _ _) in *. step. cbn [un_superblock un_set_super].
    wp_use (us_write_ok _ dB 0 sb HR1 Hp0 W) as [-> HR2]. step. rewrite decide_False by lia.
    replace (fb_entry_word (Z.of_nat o)) with (2 + o)%nat by (unfold fb_entry_word; lia).
    rewrite uentries_S in *. set (x := get32 (dblk dB h0) (2 + o)) in *.
    assert (h0 :: (uentries (dblk dB h0) o ++ [x]) ++ fl0 ≡ₚ x :: h0 :: uentries (dblk dB h0) o ++ fl0) as Hperm
      by (apply perm_take; symmetry; apply Permutation_cons_append).
    exists x, (h0 :: uentries (dblk dB h0) o ++ fl0), sb.
    rewrite Hperm in Hr, Hnd. apply Forall_cons in Hr as [Hrx Hr]. apply NoDup_cons in Hnd as [_ Hnd].
    split_and!; try done. split; [done|by rewrite blk_insert_eq|].
    eapply (free_ok_super _ _ sb o); [done|done|done|congruence|done| |done|done].
    rewrite F2. constructor; [done|lia|done].
Qed.

(** What a push may change: the super block, free blocks and the block itself. *)
Definition outside (X : list Z) (dB dB' : vdisk) : Prop :=
  forall n, n <> 0 -> (forall x, x ∈ X -> n <> x + 1 + nib) -> ublk dB' n = ublk dB n.

Lemma us_outside_refl X dB : outside X dB dB.
Proof. done. Qed.

Lemma us_outside_trans X dB1 dB2 dB3 : outside X dB1 dB2 -> outside X dB2 dB3 -> outside X dB1 dB3.
Proof. intros H1 H2 n Hn HX. rewrite H2 by done. by apply H1. Qed.

Lemma outside_mono X Y dB dB' : (forall x, x ∈ X -> x ∈ Y) -> outside X dB dB' -> outside Y dB dB'.
Proof. intros H Ho n Hn HY. apply Ho; [done|]. intros x Hx. apply HY, H, Hx. Qed.

Lemma outside_insert X dB n b : n = 0 \/ (exists x, x ∈ X /\ n = x + 1 + nib) -> outside X dB (<[(0, n):=b]> dB).
Proof. intros Hn m Hm HX. apply blk_insert_ne. destruct Hn as [->|(x & Hx & ->)]; [done|]. intros E. by apply (HX x). Qed.

Lemma outside_dblk X dB dB' x : outside X dB dB' -> in_range x -> x ∉ X -> dblk dB' x = dblk dB x.
Proof.
  intros H Hx HX. apply H; [pose proof (abs_range nib ndata x Hx); lia|]. intros y Hy E. apply HX. by replace x with y by lia.
Qed.

Lemma outside_iword X dB dB' i w : outside X dB dB' -> Forall in_range X -> valid_inode nib i -> iword dB' i w = iword dB i w.
Proof.
  intros H HX Hi. unfold iword. pose proof (inode_block_range nib i Hi). rewrite H; [done|lia|].
  intros x Hx. rewrite Forall_forall in HX. pose proof (abs_range nib ndata x (HX x Hx)). lia.
Qed.

Lemma un_set_super_twice a b sn : un_set_super a (un_set_super b sn) = un_set_super a sn.
Proof. done. Qed.

Lemma push_ok (us : st) sn dB fl x : mid us sn dB fl -> in_range x -> x ∉ fl ->
  wp (push_ sn x) us (fun sn' us' => exists dB' fl' sb,
    sn' = un_set_super sb sn /\ mid us' sn' dB' fl' /\ fl' ≡ₚ x :: fl /\ outside (x :: fl) dB dB').
Proof.
  intros Hmid Hx Hxf. pose proof Hmid as [HR Hs Hf]. pose proof Hf as [Hw Hp En (o & Eo & Hl) Hnd Hr].
  unfold push_, unixdisk_pushfree. cbv zeta. rewrite Hs, Eo.
  assert (block_wf (ublk dB 0)) as Hsb by (by apply blk_wf). assert (present 0 dB 0) as Hp0 by (apply Hp; lia).
  set (h0 := us_free_list (ublk dB 0)) in *. assert (is_u32 h0) as Hu by apply get32_u32.
  destruct (mid_abs us sn dB fl x Hmid Hx) as [Ex Hpx].
  destruct (decide (Z.of_nat o < ENTRIES_PER_FREE_BLOCK)) as [Ho|Ho]; unfold ENTRIES_PER_FREE_BLOCK in Ho.
  - (* an entry of the head *)
    destruct (ufree_cases _ _ _ _ _ _ Hl) as [(_ & -> & _)|(Hh & _ & fl0 & -> & Hl0)]; [lia|]. clear Hl.
    destruct (mid_abs us sn dB _ h0 Hmid Hh) as [-> Hph]. step. step.
    wp_use (us_read_ok us dB (h0 + 1 + nib) HR Hph) as [-> HR1]. cbn [fst snd]. rewrite decide_False by lia.
    change (ublk dB (h0 + 1 + nib)) with (dblk dB h0).
    assert (block_wf (dblk dB h0)) as Hwh by (by apply blk_wf).
    replace (fb_entry_word (Z.of_nat o)) with (2 + o)%nat by (unfold fb_entry_word; lia).
    destruct (super_offset (ublk dB 0) (Z.of_nat (Datatypes.S o)) Hsb) as (W & F1 & F2 & F3); [unfold is_u32, two32; lia|].
    replace (Z.of_nat o + 1) with (Z.of_nat (Datatypes.S o)) by lia. set (sb := set32 (ublk dB 0) 2 _) in *.
    set (b' := set32 (dblk dB h0) (2 + o) x). assert (block_wf b') as Hwb by (apply set32_wf; [done|lia]). step.
    wp_use (us_write_ok _ dB (h0 + 1 + nib) b' HR1 Hph Hwb) as [-> HR2]. rewrite decide_False by lia. step.
    cbn [un_superblock un_set_super].
    wp_use (us_write_ok _ _ 0 sb HR2) as [-> HR3]; [by apply present_insert|done|]. step. step. cbn [snd].
    set (dB1 := <[(0, h0 + 1 + nib):=b']> dB) in *. set (fl' := h0 :: uentries b' (Datatypes.S o) ++ fl0).
    apply NoDup_cons in Hnd as [Hh0 Hnd0]. apply Forall_cons in Hr as [_ Hr0].
    assert (uentries b' (Datatypes.S o) = uentries (dblk dB h0) o ++ [x]) as Eu.
    { rewrite uentries_S. unfold b' at 2. rewrite get32_set32_eq by (done || lia || by eapply mid_u32). f_equal.
      apply uentries_ext. intros j Hj. unfold b'. by rewrite get32_set32_ne by (done || lia). }
    assert (fl' ≡ₚ x :: h0 :: uentries (dblk dB h0) o ++ fl0) as Hperm
      by (unfold fl'; rewrite Eu; apply perm_take; symmetry; apply Permutation_cons_append).
    assert (NoDup fl') as Hnd' by (rewrite Hperm; apply NoDup_cons; split; [done|by apply NoDup_cons]).
    assert (Forall in_range fl') as Hr' by (rewrite Hperm; constructor; [done|constructor; [done|exact Hr0]]).
    assert (forall y, y ∈ fl0 -> dblk dB1 y = dblk dB y) as Hsame.
    { intros y Hy. unfold dB1. apply dblk_insert_ne. intros E. assert (h0 = y) as <- by lia.
      apply Hh0. apply elem_of_app. by right. }
    exists (<[(0, 0):=sb]> dB1), fl', sb. split; [done|]. split; [|split; [done|]].
    + split; [exact HR3|by rewrite blk_insert_eq|].
      eapply (free_ok_super dB1 fl' sb (Datatypes.S o)); [by apply vdisk_wf_insert| |done|congruence|done| |done|done].
      { intros n Hn. apply present_insert; [done|by apply Hp]. }
      rewrite F2. fold h0. unfold fl'. replace b' with (dblk dB1 h0) at 1 by apply dblk_insert_eq.
      constructor; [done|lia|]. unfold dB1 at 2. rewrite dblk_insert_eq. unfold fb_next, b'. rewrite get32_set32_ne by (done || lia).
      eapply ufree_frame; [exact Hsame|]. exact Hl0.
    + eapply (us_outside_trans _ _ dB1); apply outside_insert; [right|by left]. exists h0. split; [by right; left|done].
  - (* a new head *)
    assert (o = 254%nat) as ->.
    { destruct (ufree_cases _ _ _ _ _ _ Hl) as [(_ & -> & _)|(_ & Ho' & _)]; lia. }
    assert (exists n, un_abs sn h0 = n /\ present 0 dB n) as (n & -> & Hpn).
    { destruct (ufree_cases _ _ _ _ _ _ Hl) as [(-> & _)|(Hh & _)].
      - exists nib. unfold un_abs. rewrite Hs, En. unfold u32, minus1_u, two32 in *. split; [|apply Hp; lia].
        symmetry. apply Z.mod_unique with 1; [left; lia|lia].
      - exists (h0 + 1 + nib). by apply (mid_abs us sn dB _ h0 Hmid). }
    step. step. wp_use (us_read_ok us dB n HR Hpn) as [-> HR1]. cbn [fst snd]. rewrite decide_False by lia.
    step. apply wp_assert; [done|].
    destruct (super_fields (ublk dB 0) x 0 Hsb) as (W & F1 & F2 & F3); [by eapply mid_u32|done|].
    set (sb := set32 (set32 _ _ _) _ _) in *.
    assert (un_abs (un_set_super sb sn) x = x + 1 + nib) as ->.
    { unfold un_abs in *. cbn [un_set_super un_superblock]. rewrite Hs in Ex. by rewrite F1. }
    assert (block_wf (ublk dB n)) as Hwn by (by apply blk_wf).
    set (b' := set32 (ublk dB n) 1 h0). assert (block_wf b') as Hwb by (apply set32_wf; [done|lia]). step.
    wp_use (us_write_ok _ dB (x + 1 + nib) b' HR1 Hpx Hwb) as [-> HR2]. rewrite decide_False by lia. step.
    cbn [un_superblock un_set_super].
    wp_use (us_write_ok _ _ 0 sb HR2) as [-> HR3]; [by apply present_insert|done|]. step. step. cbn [snd].
    set (dB1 := <[(0, x + 1 + nib):=b']> dB) in *.
    exists (<[(0, 0):=sb]> dB1), (x :: fl), sb. split; [done|]. split; [|split; [done|]].
    + split; [exact HR3|by rewrite blk_insert_eq|].
      eapply (free_ok_super dB1 (x :: fl) sb 0); [by apply vdisk_wf_insert| |done|congruence|done| |by apply NoDup_cons|by constructor].
      { intros m Hm. apply present_insert; [done|by apply Hp]. }
      rewrite F2. change (x :: fl) with (x :: uentries (dblk dB1 x) 0 ++ fl). constructor; [done|lia|].
      unfold dB1 at 2. rewrite dblk_insert_eq. unfold fb_next, b'. rewrite get32_set32_eq by (done || lia).
      eapply ufree_frame; [|exact Hl]. intros y Hy. apply dblk_insert_ne. intros E. assert (x = y) as <- by lia. done.
    + eapply (us_outside_trans _ _ dB1); apply outside_insert; [right|by left]. exists x. split; [by left|done].
Qed.

(** ** Reading *)

Definition unix_snapshot_of (dB : vdisk) (i : Z) : unixdisk_snapshot :=
  UnixSnapshot (ublk dB 0) (ublk dB (unix_inode_block i)) (unix_inode_block i) (unix_inode_idx i).

Lemma unix_get_snapshot_ok (us : st) dB fl i : R (us_below us) dB -> free_ok dB fl -> is_u32 i ->
  wp (unixdisk_get_snapshot i) us (fun o us' =>
    o = (if decide (i < nib * 16) then Some (unix_snapshot_of dB i) else None) /\ R (us_below us') dB).
Proof.
  intros HR Hf Hi. unfold unixdisk_get_snapshot. step.
  wp_use (us_read_ok us dB 0 HR) as [-> HR1]; [apply (fo_present _ _ _ _ Hf); lia|]. cbn [fst snd].
  rewrite (decide_False (P := 0 < 0)) by lia. rewrite (fo_nib _ _ _ _ Hf). unfold UNIX_INODES_PER_BLOCK.
  destruct (decide (i < nib * 16)) as [Hlt|Hge].
  2:{ rewrite decide_True by lia. by step. }
  rewrite decide_False by lia. cbv zeta.
  assert (valid_inode nib i) as Hv by (split; [apply Hi|done]). pose proof (inode_block_range nib i Hv) as Hb.
  assert (u32 (1 + i / 16) = unix_inode_block i) as -> by (apply u32_small; unfold is_u32, unix_inode_block in *; lia).
  step. wp_use (us_read_ok _ dB (unix_inode_block i) HR1) as [-> HR2]; [apply (fo_present _ _ _ _ Hf); lia|].
  cbn [fst snd]. rewrite decide_False by lia. by step.
Qed.

(** The inode of the snapshot is that of file [i] on the disk. *)
Definition sn_matches (sn : unixdisk_snapshot) (dB : vdisk) (i : Z) : Prop := forall w, (w < 16)%nat -> un_get sn w = iword dB i w.

Lemma mid_read_data us sn dB fl x : mid us sn dB fl -> in_range x ->
  wp (us_read (un_abs sn x)) us (fun y us' => y = (0, dblk dB x) /\ mid us' sn dB fl).
Proof.
  intros Hmid Hx. destruct (mid_abs us sn dB fl x Hmid Hx) as [-> Hp]. destruct Hmid as [HR Hs Hf].
  wp_use (us_read_ok us dB _ HR Hp) as [-> HR']. by split.
Qed.

Lemma traverse_ok (us : st) sn dB fl i n k : mid us sn dB fl -> sn_matches sn dB i ->
  (forall kd, live n kd -> in_range (uptr nib dB i kd)) -> 0 <= k < n -> n <= unix_max ->
  wp (unixdisk_traverse sn k) us (fun x us' => x = uptr nib dB i (KData k) + 1 + nib /\ mid us' sn dB fl).
Proof.
  intros Hmid Hsn Hr Hk Hn. unfold unixdisk_traverse, EPB_2, EPB_3, ENTRIES_PER_BLOCK, unix_max in *.
  assert (in_range (uptr nib dB i (KData k))) as Hp by (apply Hr; cbn; lia).
  destruct (mid_abs us sn dB fl _ Hmid Hp) as [Ea _]. cbn [uptr] in *.
  destruct (decide (k < 12)) as [H1|H1].
  { step. rewrite Hsn by (unfold w_direct; lia). done. }
  destruct (decide (k < 268)) as [H2|H2].
  - rewrite decide_True by lia. step. rewrite Hsn by (unfold w_single; lia).
    assert (in_range (iword dB i w_single)) as Hs by (apply (Hr KSingle); cbn; lia).
    eapply wp_mono; [exact (mid_read_data us sn dB fl _ Hmid Hs)|]. intros x us1 [-> Hm1]. cbn [fst snd]. rewrite decide_False by lia. by step.
  - rewrite decide_False by lia. rewrite decide_True by lia. step. rewrite Hsn by (unfold w_double; lia).
    assert (in_range (iword dB i w_double)) as Hd by (apply (Hr KDouble); cbn; lia).
    eapply wp_mono; [exact (mid_read_data us sn dB fl _ Hmid Hd)|]. intros x us1 [-> Hm1]. cbn [fst snd]. rewrite decide_False by lia. cbv zeta.
    replace (k - 12 - 256) with (k - 268) by lia. set (j := (k - 268) / 256) in *.
    assert (in_range (entry (dblk dB (iword dB i w_double)) j)) as Hj
      by (apply (Hr (KSub j)); cbn; unfold j; Z.to_euclidean_division_equations; lia).
    step. eapply wp_mono; [exact (mid_read_data us1 sn dB fl _ Hm1 Hj)|]. intros y us2 [-> Hm2]. cbn [fst snd]. rewrite decide_False by lia. step.
    replace (k - 268 - j * 256) with ((k - 268) mod 256) by (unfold j; Z.to_euclidean_division_equations; lia). done.
Qed.
End spec.
