(* ===== verification/UnixAlloc.v ===== *)
(** unixdisk.c: growing a file by one block, and writing. *)
From stdpp Require Import base numbers list gmap.
From Stdlib Require Import ZArith Lia Permutation.
From S2P Require Import Prelude BlockStore TreeInv UnixDisk UnixInv UnixSpec.

Section alloc.
Context {S : Type} {R : S -> vdisk -> Prop} `{!BlockStore S, !Lawful S R}.
Abbreviation st := (unixdisk_state S).
Context (nib ndata : Z) (Hnib : 1 <= nib) (Hndata : 0 <= ndata) (Hsize : 1 + nib + ndata <= two32 - 1).
Abbreviation free_ok := (free_ok nib ndata).
Abbreviation dblk := (dblk nib).
Abbreviation in_range := (in_range ndata).
Abbreviation mid := (mid (R:=R) nib ndata).

(** The file that grows, on the disk [dB0] with the free blocks [fl0]. *)
Context (dB0 : vdisk) (fl0 : list Z) (i : Z) (Hi : valid_inode nib i).

(** The inode of the snapshot; the other inodes of its block are those of [dB0]. *)
Record own_inode (sn : unixdisk_snapshot) : Prop := {
  oi_no : un_inode_blockno sn = unix_inode_block i;
  oi_idx : un_inode sn = unix_inode_idx i;
  oi_wf : block_wf (un_inodeblock sn);
  oi_rest : forall i' w, valid_inode nib i' -> i' <> i -> unix_inode_block i' = unix_inode_block i -> (w < 16)%nat ->
    get32 (un_inodeblock sn) (inode_word (unix_inode_idx i') w) = iword dB0 i' w;
}.

Lemma own_super sn sb : own_inode sn -> own_inode (un_set_super sb sn).
Proof. intros []. by split. Qed.

Lemma own_set sn w v : own_inode sn -> (w < 16)%nat -> own_inode (un_set w v sn).
Proof.
  intros [H1 H2 H3 H4] Hw. split; [done|done| |].
  - unfold un_set; cbn [un_inodeblock un_inode]; rewrite H2. apply set32_wf; [done|by apply inode_word_lt].
  - intros i' w' Hi' Hne Hb Hw'. unfold un_set; cbn [un_inodeblock un_inode]; rewrite H2. rewrite get32_set32_ne; [by apply H4|done|by apply inode_word_lt|].
    intros E. unfold valid_inode in *. destruct (inode_word_inj i i' w w') as [-> _]; (done || lia).
Qed.

Lemma own_get sn w v w' : own_inode sn -> (w < 16)%nat -> (w' < 16)%nat -> is_u32 v ->
  un_get (un_set w v sn) w' = if decide (w' = w) then v else un_get sn w'.
Proof.
  intros [H1 H2 H3 H4] Hw Hw' Hv. unfold un_get. unfold un_set; cbn [un_inodeblock un_inode]; rewrite H2. destruct (decide (w' = w)) as [->|Hne].
  - rewrite get32_set32_eq; [done|done|by apply inode_word_lt|done].
  - rewrite get32_set32_ne; [done|done|by apply inode_word_lt|]. unfold inode_word. lia.
Qed.

(** During the allocation: [new] are the blocks taken so far, [W] those written. *)
Record stage (us : st) (sn : unixdisk_snapshot) (dB : vdisk) (fl : list Z) (new : list (ukind * Z)) (W : list Z) : Prop := {
  sg_mid : mid us sn dB fl;
  sg_perm : fl0 ≡ₚ new.*2 ++ fl;
  sg_own : own_inode sn;
  sg_out : outside nib W dB0 dB;
}.

Lemma stage_pop us sn dB fl new W kd : stage us sn dB fl new W -> fl <> [] ->
  wp (unixdisk_popfree sn) us (fun r us' => exists x sb fl',
    r = (x, un_set_super sb sn) /\ stage us' (un_set_super sb sn) (<[(0, 0):=sb]> dB) fl' ((kd, x) :: new) W /\ in_range x /\
    fl ≡ₚ x :: fl').
Proof.
  intros [Hm Hp Ho Hout] Hne. eapply wp_mono; [exact (popfree_ok nib ndata Hnib Hndata Hsize us sn dB fl Hm Hne)|].
  intros r us' (x & fl' & sb & -> & Hperm & Hx & Hsb & Hm'). exists x, sb, fl'. split; [done|]. split; [|done].
  split; [done| |by apply own_super|].
  - etransitivity; [exact Hp|]. etransitivity; [apply Permutation_app_head, Hperm|]. symmetry. apply Permutation_middle.
  - eapply us_outside_trans; [exact Hout|]. apply outside_insert. by left.
Qed.

Lemma stage_set us sn dB fl new W w v : stage us sn dB fl new W -> (w < 16)%nat -> stage us (un_set w v sn) dB fl new W.
Proof. intros [[] ? ? ?] Hw. split; [by split|done|by apply own_set|done]. Qed.

Lemma stage_read us sn dB fl new W x : stage us sn dB fl new W -> in_range x ->
  wp (us_read (un_abs sn x)) us (fun y us' => y = (0, dblk dB x) /\ stage us' sn dB fl new W).
Proof.
  intros [Hm ? ? ?] Hx. eapply wp_mono; [exact (mid_read_data nib ndata Hnib Hsize us sn dB fl x Hm Hx)|].
  intros y us' [-> Hm']. by split.
Qed.

Lemma stage_wf us sn dB fl new W x : stage us sn dB fl new W -> block_wf (dblk dB x).
Proof. intros [[] ? ? ?]. apply blk_wf, mid_free. Qed.

Lemma stage_write us sn dB fl new W x b : stage us sn dB fl new W -> in_range x -> x ∉ fl -> block_wf b ->
  wp (us_write (un_abs sn x) b) us (fun w us' => w = 0 /\ stage us' sn (<[(0, x + 1 + nib):=b]> dB) fl new (x :: W)).
Proof.
  intros [Hm Hp Ho Hout] Hx Hf Hb. destruct (mid_abs nib ndata Hnib Hsize us sn dB fl x Hm Hx) as [-> Hpr].
  destruct Hm as [HR Hs Hfree]. wp_use (us_write_ok us dB (x + 1 + nib) b HR Hpr Hb) as [-> HR']. split; [done|].
  pose proof (abs_range nib ndata x Hx). split; [|done|done|].
  - split; [exact HR'|by rewrite blk_insert_ne by lia|]. apply free_ok_insert; [done|lia|done|]. intros y Hy E. apply Hf.
    by replace x with y by lia.
  - eapply us_outside_trans; [eapply outside_mono; [|exact Hout]; by right|]. apply outside_insert. right. exists x. split; [by left|done].
Qed.

(** ** The loops, for one block *)

Lemma entries_fuel : exists f, ENTRIES_FUEL = Datatypes.S (Datatypes.S f).
Proof. by exists 255%nat. Qed.

Lemma direct_fuel : exists f, 13%nat = Datatypes.S (Datatypes.S f).
Proof. by exists 11%nat. Qed.

Lemma alloc_direct_one us sn dB fl new W n : stage us sn dB fl new W -> fl <> [] -> 0 <= n < 12 ->
  wp (alloc_direct 13 n n sn) us (fun r us' => exists x sb fl',
    r = (n + 1, un_set (w_direct n) x (un_set_super sb sn)) /\
    stage us' (un_set (w_direct n) x (un_set_super sb sn)) (<[(0, 0):=sb]> dB) fl' ((KData n, x) :: new) W /\ in_range x /\ fl ≡ₚ x :: fl').
Proof.
  intros Hs Hne Hn. destruct direct_fuel as [f ->]. cbn [alloc_direct]. rewrite decide_True by lia. step.
  eapply wp_mono; [exact (stage_pop us sn dB fl new W (KData n) Hs Hne)|]. intros r us' (x & sb & fl' & -> & Hs' & Hx & Hp).
  cbn [fst snd]. rewrite decide_False by lia. step. exists x, sb, fl'. split; [done|]. split; [|done].
  apply stage_set; [done|unfold w_direct; lia].
Qed.

Lemma alloc_indirect_one us sn dB fl new W no base n : stage us sn dB fl new W -> fl <> [] -> in_range no -> no ∉ fl ->
  base <= n < base + 256 ->
  wp (alloc_indirect no base n n sn) us (fun r us' => exists x sb fl' dB',
    r = Some (n + 1, un_set_super sb sn) /\
    stage us' (un_set_super sb sn) dB' fl' ((KData n, x) :: new) (no :: W) /\ in_range x /\ fl ≡ₚ x :: fl' /\
    dblk dB' no = set32 (dblk dB no) (Z.to_nat (n - base)) x /\ forall y, in_range y -> y <> no -> dblk dB' y = dblk dB y).
Proof.
  intros Hs Hne Hr Hno Hn. unfold alloc_indirect. cbv zeta. step.
  eapply wp_mono; [exact (stage_read us sn dB fl new W no Hs Hr)|]. intros y us1 [-> Hs1]. cbn [fst snd]. rewrite decide_False by lia.
  step. destruct entries_fuel as [f ->]. cbn [alloc_entries]. unfold ENTRIES_PER_BLOCK.
  rewrite decide_True by lia. step.
  eapply wp_mono; [exact (stage_pop us1 sn dB fl new W (KData n) Hs1 Hne)|]. intros r us2 (x & sb & fl' & -> & Hs2 & Hx & Hp).
  cbn [fst snd]. rewrite decide_False by lia. step. step.
  assert (un_abs sn no = un_abs (un_set_super sb sn) no) as ->.
  { destruct (mid_abs nib ndata Hnib Hsize _ _ _ _ no (sg_mid _ _ _ _ _ _ Hs) Hr) as [-> _].
    by destruct (mid_abs nib ndata Hnib Hsize _ _ _ _ no (sg_mid _ _ _ _ _ _ Hs2) Hr) as [-> _]. }
  assert (block_wf (set32 (dblk dB no) (Z.to_nat (n - base)) x)) as Hb by (apply set32_wf; [by eapply stage_wf|lia]).
  assert (no ∉ fl') as Hno' by (intros H; apply Hno; rewrite Hp; by right).
  eapply wp_mono; [exact (stage_write us2 _ _ fl' _ W no _ Hs2 Hr Hno' Hb)|]. intros w us3 [-> Hs3]. step. rewrite decide_False by lia.
  exists x, sb, fl'. eexists. split; [done|]. split; [exact Hs3|]. split; [done|]. split; [done|]. split; [apply dblk_insert_eq|].
  intros y Hy Hne'. rewrite dblk_insert_ne by lia. by apply (dblk_insert_meta nib ndata); [|lia].
Qed.

(** ** The single indirect block *)

Definition same_words (w0 : nat) (sn sn' : unixdisk_snapshot) : Prop := forall w, (w < 16)%nat -> w <> w0 -> un_get sn' w = un_get sn w.

Lemma set_pop_words sn sb w0 v : own_inode sn -> (w0 < 16)%nat -> is_u32 v ->
  un_get (un_set w0 v (un_set_super sb sn)) w0 = v /\ same_words w0 sn (un_set w0 v (un_set_super sb sn)).
Proof.
  intros Ho Hw Hv. split; [rewrite own_get by (done || by apply own_super); by rewrite decide_True|].
  intros w Hw' Hne. rewrite own_get by (done || by apply own_super). by rewrite decide_False.
Qed.

Lemma popped_fresh (x : Z) (fl fl' : list Z) : NoDup fl -> fl ≡ₚ x :: fl' -> x ∉ fl'.
Proof. intros Hnd Hp. rewrite Hp in Hnd. by apply NoDup_cons in Hnd as [? _]. Qed.

Lemma stage_nodup us sn dB fl new W : stage us sn dB fl new W -> NoDup fl.
Proof. intros [[] ? ? ?]. apply mid_free. Qed.

Lemma alloc_single_one us sn dB fl new W n : stage us sn dB fl new W -> fl <> [] -> (n <= 12 -> (2 <= length fl)%nat) -> 12 <= n < 268 -> un_nblocks sn = n ->
  (12 < n -> in_range (un_get sn w_single) /\ un_get sn w_single ∉ fl) ->
  wp (alloc_single n n sn) us (fun r us' => exists s x sn' fl' dB' new',
    r = Some (n + 1, sn') /\ stage us' sn' dB' fl' new' (s :: W) /\ in_range s /\ in_range x /\
    un_get sn' w_single = s /\ same_words w_single sn sn' /\
    new' = (KData n, x) :: (if decide (n <= 12) then [(KSingle, s)] else []) ++ new /\
    (12 < n -> s = un_get sn w_single) /\
    dblk dB' s = set32 (dblk dB s) (Z.to_nat (n - 12)) x /\ forall y, in_range y -> y <> s -> dblk dB' y = dblk dB y).
Proof.
  intros Hs Hne Hl Hn En Hold. unfold alloc_single, ENTRIES_PER_BLOCK. rewrite decide_True by lia. step. apply wp_assert; [by apply bool_decide_eq_true_2; lia|]. step. rewrite En.
  destruct (decide (n <= 12)) as [H1|H1].
  - step. eapply wp_mono; [exact (stage_pop us sn dB fl new W KSingle Hs Hne)|]. intros r us1 (s & sb & fl1 & -> & Hs1 & Hr & Hp). step. cbn [fst snd].
    pose proof (popped_fresh s fl fl1 (stage_nodup _ _ _ _ _ _ Hs) Hp) as Hfresh.
    destruct (in_range_u32 nib ndata Hnib Hsize s Hr) as [Hu _].
    destruct (set_pop_words sn sb w_single s (sg_own _ _ _ _ _ _ Hs)) as [G1 G2]; [unfold w_single; lia|done|].
    assert (fl1 <> []) as Hne1 by (intros ->; apply Permutation_length in Hp; specialize (Hl H1); cbn in Hp; lia).
    set (sn1 := un_set w_single s (un_set_super sb sn)) in *. rewrite G1.
    assert (stage us1 sn1 (<[(0, 0):=sb]> dB) fl1 ((KSingle, s) :: new) W) as Hs1' by (apply stage_set; [done|unfold w_single; lia]).
    eapply wp_mono; [exact (alloc_indirect_one us1 sn1 _ fl1 _ W s 12 n Hs1' Hne1 Hr Hfresh ltac:(lia))|].
    intros r us2 (x & sb2 & fl2 & dB2 & -> & Hs2 & Hx & Hp2 & Eb & Hother).
    assert (forall y, in_range y -> dblk (<[(0, 0):=sb]> dB) y = dblk dB y) as Hsuper by (intros y Hy; apply (dblk_insert_meta nib ndata); [done|lia]).
    exists s, x, (un_set_super sb2 sn1), fl2, dB2. eexists. split; [done|]. split; [exact Hs2|]. split_and!; try done.
    + lia.
    + by rewrite Eb, Hsuper.
    + intros y Hy Hys. by rewrite Hother, Hsuper.
  - step. destruct (Hold ltac:(lia)) as [Hr Hfr]. set (s := un_get sn w_single) in *.
    eapply wp_mono; [exact (alloc_indirect_one us sn _ fl _ W s 12 n Hs Hne Hr Hfr ltac:(lia))|].
    intros r us2 (x & sb2 & fl2 & dB2 & -> & Hs2 & Hx & Hp2 & Eb & Hother).
    exists s, x, (un_set_super sb2 sn), fl2, dB2. eexists. split; [done|]. split; [exact Hs2|]. by split_and!.
Qed.

(** ** The double indirect block *)

Lemma entry_set b j v : block_wf b -> 0 <= j < 256 -> is_u32 v -> entry (set32 b (Z.to_nat j) v) j = v.
Proof. intros Hb Hj Hv. unfold entry. rewrite get32_set32_eq; [done|done|lia|done]. Qed.

Lemma entry_set_ne b j j' v : block_wf b -> 0 <= j < 256 -> 0 <= j' -> j <> j' -> entry (set32 b (Z.to_nat j) v) j' = entry b j'.
Proof. intros Hb Hj Hj' Hne. unfold entry. apply get32_set32_ne; [done|lia|lia]. Qed.

Lemma alloc_table_one us sn dB fl new W b n j : stage us sn dB fl new W -> fl <> [] -> (n <= 268 + 256 * j -> (2 <= length fl)%nat) ->
  268 <= n < unix_max -> un_nblocks sn = n -> block_wf b -> j = (n - 268) / 256 -> (268 + 256 * j < n -> in_range (entry b j) /\ entry b j ∉ fl) ->
  wp (alloc_table ENTRIES_FUEL 268 n n b sn) us (fun r us' => exists s x sb fl' dB' new' b',
    r = Some (n + 1, b', un_set_super sb sn) /\ stage us' (un_set_super sb sn) dB' fl' new' (s :: W) /\ in_range s /\ in_range x /\
    b' = (if decide (n <= 268 + 256 * j) then set32 b (Z.to_nat j) s else b) /\ entry b' j = s /\
    new' = (KData n, x) :: (if decide (n <= 268 + 256 * j) then [(KSub j, s)] else []) ++ new /\
    (s ∈ fl <-> n <= 268 + 256 * j) /\ (forall y, y ∈ fl' -> y ∈ fl) /\
    dblk dB' s = set32 (dblk dB s) (Z.to_nat ((n - 268) mod 256)) x /\ forall y, in_range y -> y <> s -> dblk dB' y = dblk dB y).
Proof.
  intros Hs Hne Hl Hn En Hb Ej Hold. unfold unix_max in Hn.
  assert (0 <= j < 256) as Hj by (rewrite Ej; Z.to_euclidean_division_equations; lia).
  assert (268 + 256 * j <= n < 268 + 256 * j + 256) as Hjn by (rewrite Ej; Z.to_euclidean_division_equations; lia).
  destruct entries_fuel as [f ->]. cbn [alloc_table]. unfold EPB_2, ENTRIES_PER_BLOCK. rewrite decide_True by lia.
  cbv zeta. rewrite <- Ej. replace (j * 256) with (256 * j) by lia. rewrite En. step.
  replace ((n - 268) mod 256) with (n - (268 + 256 * j)) by (rewrite Ej; Z.to_euclidean_division_equations; lia).
  assert (forall sb dB1, dB1 = <[(0, 0):=sb]> dB -> forall y, in_range y -> dblk dB1 y = dblk dB y) as Hsuper
    by (intros sb dB1 -> y Hy; apply (dblk_insert_meta nib ndata); [done|lia]).
  destruct (decide (n <= 268 + 256 * j)) as [H1|H1].
  - step. eapply wp_mono; [exact (stage_pop us sn dB fl new W (KSub j) Hs Hne)|]. intros r us1 (s & sb & fl1 & -> & Hs1 & Hr & Hp). step. cbn [fst snd].
    pose proof (popped_fresh s fl fl1 (stage_nodup _ _ _ _ _ _ Hs) Hp) as Hfresh.
    destruct (in_range_u32 nib ndata Hnib Hsize s Hr) as [Hu _]. rewrite entry_set by done.
    assert (fl1 <> []) as Hne1 by (intros ->; apply Permutation_length in Hp; specialize (Hl H1); cbn in Hp; lia). step.
    eapply wp_mono; [exact (alloc_indirect_one us1 _ _ fl1 _ W s (268 + 256 * j) n Hs1 Hne1 Hr Hfresh ltac:(lia))|].
    intros r us2 (x & sb2 & fl2 & dB2 & -> & Hs2 & Hx & Hp2 & Eb & Hother). rewrite decide_False by lia. step.
    exists s, x, sb2, fl2, dB2. eexists _, _. split; [done|]. split; [exact Hs2|]. split_and!; try done.
    + by rewrite entry_set.
    + rewrite Hp. split; [done|by left].
    + intros y Hy. rewrite Hp. right. rewrite Hp2. by right.
    + rewrite Eb. by rewrite (Hsuper sb _ eq_refl).
    + intros y Hy Hys. by rewrite Hother, (Hsuper sb _ eq_refl).
  - step. destruct (Hold ltac:(lia)) as [Hr Hfr]. set (s := entry b j) in *. step.
    eapply wp_mono; [exact (alloc_indirect_one us sn _ fl _ W s (268 + 256 * j) n Hs Hne Hr Hfr ltac:(lia))|].
    intros r us2 (x & sb2 & fl2 & dB2 & -> & Hs2 & Hx & Hp2 & Eb & Hother). rewrite decide_False by lia. step.
    exists s, x, sb2, fl2, dB2. eexists _, _. split; [done|]. split; [exact Hs2|]. split_and!; try done.
    intros y Hy. rewrite Hp2. by right.
Qed.

Lemma alloc_double_one us sn dB fl new W n j m : stage us sn dB fl new W -> fl <> [] ->
  (n <= 268 + 256 * j -> (2 <= length fl)%nat) -> (n <= 268 -> (3 <= length fl)%nat) -> 268 <= n < unix_max -> un_nblocks sn = n ->
  j = (n - 268) / 256 -> m = (n - 268) mod 256 ->
  (268 < n -> in_range (un_get sn w_double) /\ un_get sn w_double ∉ fl) ->
  (268 + 256 * j < n -> let s := entry (dblk dB (un_get sn w_double)) j in in_range s /\ (s ∉ fl) /\ s <> un_get sn w_double) ->
  wp (alloc_double n n sn) us (fun r us' => exists d s x sn' fl' dB' new',
    r = Some (n + 1, sn') /\ stage us' sn' dB' fl' new' (d :: s :: W) /\ in_range d /\ in_range s /\ in_range x /\
    un_get sn' w_double = d /\ same_words w_double sn sn' /\
    new' = (KData n, x) :: (if decide (n <= 268 + 256 * j) then [(KSub j, s)] else []) ++ (if decide (n <= 268) then [(KDouble, d)] else []) ++ new /\
    (268 < n -> d = un_get sn w_double) /\ d <> s /\
    dblk dB' d = (if decide (n <= 268 + 256 * j) then set32 (dblk dB d) (Z.to_nat j) s else dblk dB d) /\ entry (dblk dB' d) j = s /\
    dblk dB' s = set32 (dblk dB s) (Z.to_nat m) x /\ forall y, in_range y -> y <> s -> y <> d -> dblk dB' y = dblk dB y).
Proof.
  intros Hs Hne Hl Hl3 Hn En Ej Em Hd Hsub. unfold unix_max in Hn.
  assert (0 <= j) as Hj0 by (rewrite Ej; Z.to_euclidean_division_equations; lia).
  unfold alloc_double, EPB_2, ENTRIES_PER_BLOCK. rewrite decide_True by lia. step. apply wp_assert; [by apply bool_decide_eq_true_2; lia|].
  step. rewrite En. cbn [Z.add Pos.add Pos.succ].
  assert (wp (if decide (n <= 268) then x ← unixdisk_popfree sn; mret (un_set w_double x.1 x.2) else mret sn) us (fun sn1 us1 =>
    exists d fl1 dB1, stage us1 sn1 dB1 fl1 ((if decide (n <= 268) then [(KDouble, d)] else []) ++ new) W /\ fl1 <> [] /\ (n <= 268 + 256 * j -> (2 <= length fl1)%nat) /\
      in_range d /\ (d ∉ fl1) /\ un_get sn1 w_double = d /\ same_words w_double sn sn1 /\ (268 < n -> d = un_get sn w_double) /\
      (forall y, y ∈ fl1 -> y ∈ fl) /\ forall y, in_range y -> dblk dB1 y = dblk dB y)) as Hfirst.
  { destruct (decide (n <= 268)) as [H1|H1].
    - step. eapply wp_mono; [exact (stage_pop us sn dB fl new W KDouble Hs Hne)|]. intros r us1 (d & sb & fl1 & -> & Hs1 & Hr & Hp). step. cbn [fst snd].
      destruct (in_range_u32 nib ndata Hnib Hsize d Hr) as [Hu _].
      destruct (set_pop_words sn sb w_double d (sg_own _ _ _ _ _ _ Hs)) as [G1 G2]; [unfold w_double; lia|done|].
      exists d, fl1, (<[(0, 0):=sb]> dB). split; [apply stage_set; [done|unfold w_double; lia]|].
      specialize (Hl3 H1). apply Permutation_length in Hp as Hpl. cbn in Hpl.
      split; [intros ->; cbn in Hpl; lia|]. split; [lia|]. split; [done|]. split; [exact (popped_fresh _ _ _ (stage_nodup _ _ _ _ _ _ Hs) Hp)|].
      split; [done|]. split; [done|]. split; [lia|]. split; [intros y Hy; rewrite Hp; by right|].
      intros y Hy. apply (dblk_insert_meta nib ndata); [done|lia].
    - step. destruct (Hd ltac:(lia)) as [Hr Hfr]. exists (un_get sn w_double), fl, dB. by split_and!. }
  eapply wp_mono; [exact Hfirst|]. clear Hfirst. intros sn1 us1 (d & fl1 & dB1 & Hs1 & Hne1 & Hl1 & Hr & Hdf & G1 & G2 & Gd & Hsub1 & Hsame1).
  rewrite G1. assert (un_nblocks sn1 = n) as En1 by (unfold un_nblocks; rewrite G2; [done|unfold w_nblocks; lia|unfold w_nblocks, w_double; lia]).
  step. eapply wp_mono; [exact (stage_read us1 sn1 dB1 fl1 _ W d Hs1 Hr)|]. intros y us2 [-> Hs2]. cbn [fst snd]. rewrite decide_False by lia.
  step. assert (block_wf (dblk dB1 d)) as Hwd by (by eapply stage_wf).
  assert (268 + 256 * j < n -> in_range (entry (dblk dB1 d) j) /\ entry (dblk dB1 d) j ∉ fl1 /\ entry (dblk dB1 d) j <> d) as Hold.
  { intros H. assert (268 < n) as H' by (rewrite Ej in H; Z.to_euclidean_division_equations; lia). rewrite Hsame1 by done. rewrite Gd by done.
    destruct (Hsub H) as (A & B & C). split; [done|]. split; [|done]. intros Hin. apply B. by apply Hsub1. }
  eapply wp_mono.
  { apply (alloc_table_one us2 sn1 dB1 fl1 _ W (dblk dB1 d) n j Hs2 Hne1 Hl1); [unfold unix_max; lia|done|done|done|]. intros H. by destruct (Hold H) as (A & B & _). }
  intros r us3 (s & x & sb & fl3 & dB3 & new3 & b' & -> & Hs3 & Hrs & Hrx & Eb' & Ee & Enew & Hfl3 & Hsub3 & Es & Hother). cbn [fst snd].
  assert (d <> s) as Hds.
  { intros <-. destruct (decide (n <= 268 + 256 * j)) as [H|H]; [apply Hdf, Hfl3, H|]. destruct (Hold ltac:(lia)) as (_ & _ & Hc).
    subst b'. by apply Hc. }
  step. assert (un_abs sn1 d = un_abs (un_set_super sb sn1) d) as ->.
  { destruct (mid_abs nib ndata Hnib Hsize _ _ _ _ d (sg_mid _ _ _ _ _ _ Hs1) Hr) as [-> _].
    by destruct (mid_abs nib ndata Hnib Hsize _ _ _ _ d (sg_mid _ _ _ _ _ _ Hs3) Hr) as [-> _]. }
  assert (0 <= j < 256) as Hj by (rewrite Ej; Z.to_euclidean_division_equations; lia).
  assert (block_wf b') as Hwb by (rewrite Eb'; destruct (decide (n <= 268 + 256 * j)); [apply set32_wf; [done|lia]|done]).
  assert (d ∉ fl3) as Hdf3 by (intros H; by apply Hdf, Hsub3).
  eapply wp_mono; [exact (stage_write us3 _ _ fl3 _ _ d b' Hs3 Hr Hdf3 Hwb)|]. intros w us4 [-> Hs4]. step. rewrite decide_False by lia.
  exists d, s, x, (un_set_super sb sn1), fl3. eexists _, _. split; [done|]. split; [exact Hs4|]. split_and!; try done.
  - rewrite dblk_insert_eq. rewrite Eb'. by rewrite Hsame1.
  - by rewrite dblk_insert_eq.
  - rewrite dblk_insert_ne by lia. rewrite Es, Hsame1 by done. by rewrite Em.
  - intros y Hy Hys Hyd. rewrite dblk_insert_ne by lia. rewrite Hother by done. by rewrite Hsame1.
Qed.

(** ** The inode, and the invariant of the result *)

Context (rl : Z -> urole) (HI : unix_inv nib ndata rl fl0 dB0).
Abbreviation n := (usize dB0 i).

(** The kinds that the file gets with its next block. *)
Definition new_kinds (k : Z) : list ukind :=
  KData k :: (if decide (k = 12) then [KSingle] else []) ++
  (if decide (268 <= k /\ (k - 268) mod 256 = 0) then [KSub ((k - 268) / 256)] else []) ++
  (if decide (k = 268) then [KDouble] else []).

Lemma new_kinds_spec k kd : 0 <= k -> live (k + 1) kd -> ~ live k kd -> kd ∈ new_kinds k.
Proof.
  intros Hk H1 H2. unfold new_kinds. destruct kd as [k'| | |j]; cbn [live] in *.
  - assert (k' = k) as -> by lia. by left.
  - rewrite decide_True by lia. right. by left.
  - right. apply elem_of_app. right. apply elem_of_app. right. rewrite decide_True by lia. by left.
  - right. apply elem_of_app. right. apply elem_of_app. left. assert (k = 268 + 256 * j) as -> by lia.
    replace (268 + 256 * j - 268) with (j * 256) by lia. rewrite Z.mod_mul, Z.div_mul, decide_True by lia. by left.
Qed.

(** What holds when the inode has been written. *)
Record grown (us : st) (sn : unixdisk_snapshot) (dB : vdisk) (fl : list Z) (new : list (ukind * Z)) : Prop := {
  gr_mid : mid us sn dB fl;
  gr_match : sn_matches sn dB i;
  gr_perm : fl0 ≡ₚ new.*2 ++ fl;
  gr_inv : unix_inv nib ndata (extend new i rl) fl dB;
  gr_size : forall i', valid_inode nib i' -> usize dB i' = if decide (i' = i) then n + 1 else usize dB0 i';
  gr_content : forall i' k, valid_inode nib i' -> 0 <= k < usize dB0 i' -> ucontent nib dB i' k = ucontent nib dB0 i' k;
}.

Lemma alloc_finish us sn dB fl new W : stage us sn dB fl new W -> n < unix_max -> Forall in_range W ->
  (forall x i' kd, x ∈ W -> rl x = UNode i' kd -> i' = i /\ forall k, kd <> KData k) ->
  let sn' := un_set w_nblocks (u32 (n + 1)) sn in
  let dB' := <[(0, unix_inode_block i):=un_inodeblock sn']> dB in
  (forall kd, live n kd -> uptr nib dB' i kd = uptr nib dB0 i kd) ->
  (forall kd, live (n + 1) kd -> ~ live n kd -> (kd, uptr nib dB' i kd) ∈ new) ->
  wp (us_write (un_inode_blockno sn') (un_inodeblock sn')) us (fun w us' => w = 0 /\ grown us' sn' dB' fl new).
Proof.
  intros Hs Hn HW Hrole sn' dB' Hold Hnew. pose proof (inode_block_range nib i Hi) as Hib. pose proof (usize_range dB0 i) as Hn0.
  assert (stage us sn' dB fl new W) as [[HR Hsup Hf] Hp Hown Hout] by (apply stage_set; [done|unfold w_nblocks; lia]).
  assert (u32 (n + 1) = n + 1) as Eu by (apply u32_small; unfold is_u32, unix_max, two32 in *; lia).
  pose proof Hown as [Eno Eidx Hwf Hrest]. rewrite Eno.
  assert (present 0 dB (unix_inode_block i)) as Hpr by (apply (fo_present _ _ _ _ Hf); lia).
  wp_use (us_write_ok us dB _ _ HR Hpr Hwf) as [-> HR']. split; [done|].
  assert (forall w, (w < 16)%nat -> un_get sn' w = iword dB' i w) as Hmatch.
  { intros w Hw. unfold iword, dB'. rewrite blk_insert_eq. unfold un_get. by rewrite Eidx. }
  assert (forall y, in_range y -> dblk dB' y = dblk dB y) as Hdata by (intros y Hy; by apply (dblk_insert_meta nib ndata); [|lia]).
  assert (forall i' w, valid_inode nib i' -> i' <> i -> (w < 16)%nat -> iword dB' i' w = iword dB0 i' w) as Hother.
  { intros i' w Hi' Hne Hw. destruct (decide (unix_inode_block i' = unix_inode_block i)) as [E|E].
    - unfold iword at 1, dB'. rewrite E, blk_insert_eq. by apply Hrest.
    - unfold dB'. rewrite (iword_insert nib) by done. by apply (outside_iword nib ndata W). }
  assert (free_ok dB' fl) as Hf'.
  { apply free_ok_insert; [done|lia|done|]. intros x Hx E. pose proof (fo_range _ _ _ _ Hf) as Hr. rewrite Forall_forall in Hr.
    pose proof (abs_range nib ndata x (Hr x Hx)). lia. }
  assert (forall x i' kd, in_range x -> rl x = UNode i' kd -> i' <> i \/ (exists k, kd = KData k) -> dblk dB' x = dblk dB0 x) as Hblocks.
  { intros x i' kd Hx Hr Hk. rewrite Hdata by done. apply (outside_dblk nib ndata Hnib W dB0 dB x); [done|done|]. intros HxW.
    destruct (Hrole x i' kd HxW Hr) as [-> Hnd]. destruct Hk as [Hk|[k ->]]; [done|by apply (Hnd k)]. }
  assert (usize dB' i = n + 1) as Esz.
  { unfold usize at 1. rewrite <- Hmatch by (unfold w_nblocks; lia). unfold sn'. rewrite own_get.
    - by rewrite decide_True.
    - apply Hs.
    - unfold w_nblocks; lia.
    - unfold w_nblocks; lia.
    - rewrite Eu. unfold is_u32, unix_max, two32 in *; lia. }
  assert (n <= usize dB' i <= unix_max) as Hsz by lia. rewrite <- Esz in Hnew.
  split.
  - split; [done| |done]. unfold dB'. by rewrite blk_insert_ne by lia.
  - exact Hmatch.
  - exact Hp.
  - exact (append_inv nib ndata rl fl0 fl dB0 dB' i new HI Hf' Hp Hother Hblocks Hsz Hold Hnew).
  - intros i' Hi'. destruct (decide (i' = i)) as [->|Hne]; [done|]. by apply (append_size nib dB0 dB' i Hother).
  - intros i' k Hi' Hk. exact (append_content nib ndata rl fl0 dB0 dB' i HI Hother Hblocks Hold i' k Hi' Hk).
Qed.

Lemma written_word sn dB w : own_inode sn -> iword (<[(0, unix_inode_block i):=un_inodeblock sn]> dB) i w = un_get sn w.
Proof. intros [_ E _ _]. unfold iword, un_get. by rewrite blk_insert_eq, E. Qed.

Lemma written_data b dB y : in_range y -> dblk (<[(0, unix_inode_block i):=b]> dB) y = dblk dB y.
Proof. intros Hy. pose proof (inode_block_range nib i Hi). by apply (dblk_insert_meta nib ndata); [|lia]. Qed.

Lemma sized_words sn v w : own_inode sn -> (0 < w < 16)%nat -> is_u32 v -> un_get (un_set w_nblocks v sn) w = un_get sn w.
Proof. intros Ho Hw Hv. rewrite own_get by (done || unfold w_nblocks; lia). apply decide_False. unfold w_nblocks. lia. Qed.

Lemma next_u32 : n < unix_max -> is_u32 (u32 (n + 1)).
Proof. intros _. apply u32_range. Qed.

Lemma node_ok kd : live n kd -> in_range (uptr nib dB0 i kd) /\ rl (uptr nib dB0 i kd) = UNode i kd.
Proof. by apply (ui_node _ _ _ _ _ HI). Qed.

Lemma node_not_free kd : live n kd -> uptr nib dB0 i kd ∉ fl0.
Proof. intros Hl Hin. destruct (node_ok kd Hl) as [_ Hr]. rewrite (ui_role _ _ _ _ _ HI _ Hin) in Hr. done. Qed.

Lemma node_inj kd kd' : live n kd -> live n kd' -> uptr nib dB0 i kd = uptr nib dB0 i kd' -> kd = kd'.
Proof. intros H1 H2 E. destruct (node_ok kd H1) as [_ Hr]. destruct (node_ok kd' H2) as [_ Hr']. rewrite E, Hr' in Hr. congruence. Qed.

Lemma taken_free us sn dB fl new W kd x : stage us sn dB fl new W -> (kd, x) ∈ new -> x ∈ fl0.
Proof.
  intros [_ Hp _ _] Hin. rewrite Hp. apply elem_of_app. left. apply list_elem_of_fmap. by exists (kd, x).
Qed.

Lemma taken_role us sn dB fl new W kd x : stage us sn dB fl new W -> (kd, x) ∈ new -> rl x = UFree.
Proof. intros Hs Hin. apply (ui_role _ _ _ _ _ HI). by eapply taken_free. Qed.

Lemma alloc_start us : R (us_below us) dB0 -> stage us (unix_snapshot_of dB0 i) dB0 fl0 [] [].
Proof.
  intros HR. split; [split; [done|done|apply HI]|done| |done]. split; [done|done|apply blk_wf, HI|].
  intros i' w Hi' Hne E Hw. unfold iword. by rewrite E.
Qed.

(** Below offset 12. *)
Lemma grow_direct us x sb fl : n < 12 -> in_range x ->
  let sn := un_set (w_direct n) x (un_set_super sb (unix_snapshot_of dB0 i)) in
  stage us sn (<[(0, 0):=sb]> dB0) fl [(KData n, x)] [] ->
  let sn' := un_set w_nblocks (u32 (n + 1)) sn in
  wp (us_write (un_inode_blockno sn') (un_inodeblock sn')) us (fun w us' => w = 0 /\
    exists dB', grown us' sn' dB' fl [(KData n, x)]).
Proof.
  intros Hn Hx sn Hs sn'. pose proof (usize_range dB0 i) as Hn0. destruct (in_range_u32 nib ndata Hnib Hsize x Hx) as [Hu _].
  pose proof (sg_own _ _ _ _ _ _ Hs) as Ho. assert (own_inode sn') as Ho' by (apply own_set; [done|unfold w_nblocks; lia]).
  assert (own_inode (un_set_super sb (unix_snapshot_of dB0 i))) as Ho0.
  { split; [done|done|apply blk_wf, HI|]. intros i' w Hi' Hne E Hw. unfold iword. by rewrite E. }
  assert (forall k, 0 <= k < 12 -> un_get sn' (w_direct k) = if decide (k = n) then x else iword dB0 i (w_direct k)) as Hw.
  { intros k Hk. unfold sn'. rewrite sized_words by (done || apply u32_range || unfold w_direct; lia). unfold sn.
    rewrite own_get by (done || unfold w_direct; lia). destruct (decide (k = n)) as [->|Hne]; [by rewrite decide_True|].
    rewrite decide_False by (unfold w_direct; lia). done. }
  eapply wp_mono.
  { apply (alloc_finish us sn _ fl _ [] Hs); [unfold unix_max; lia|constructor|intros y i' kd Hy; by apply elem_of_nil in Hy| |].
    - intros kd Hl. fold sn'. destruct kd as [k| | |j]; cbn [live] in Hl; [|lia..]. cbn [uptr]. rewrite decide_True by lia.
      rewrite (written_word sn') by done. rewrite Hw by lia. by rewrite decide_False, decide_True by lia.
    - intros kd Hl Hnl. fold sn'. destruct kd as [k| | |j]; cbn [live] in Hl, Hnl; [|lia..]. assert (k = n) as -> by lia.
      cbn [uptr]. rewrite decide_True by lia. rewrite (written_word sn') by done. rewrite Hw, decide_True by lia. by left. }
  intros w us' [-> Hg]. split; [done|]. eexists. exact Hg.
Qed.

(** The words of the inode after the allocation of index [w0]. *)
Lemma final_words sn sn2 w0 v w : own_inode sn2 -> same_words w0 sn sn2 -> sn = unix_snapshot_of dB0 i -> is_u32 v ->
  (0 < w < 16)%nat -> w <> w0 -> un_get (un_set w_nblocks v sn2) w = iword dB0 i w.
Proof. intros Ho Hsame -> Hv Hw Hne. rewrite sized_words by done. rewrite Hsame by (done || lia). done. Qed.

(** Below offset 268. *)
Lemma grow_single us sn2 s x fl dB new : 12 <= n < 268 -> stage us sn2 dB fl new [s] -> in_range s -> in_range x ->
  un_get sn2 w_single = s -> same_words w_single (unix_snapshot_of dB0 i) sn2 ->
  new = (KData n, x) :: (if decide (n <= 12) then [(KSingle, s)] else []) ++ [] ->
  (12 < n -> s = iword dB0 i w_single) ->
  dblk dB s = set32 (dblk dB0 s) (Z.to_nat (n - 12)) x -> (forall y, in_range y -> y <> s -> dblk dB y = dblk dB0 y) ->
  let sn' := un_set w_nblocks (u32 (n + 1)) sn2 in
  wp (us_write (un_inode_blockno sn') (un_inodeblock sn')) us (fun w us' => w = 0 /\ exists dB', grown us' sn' dB' fl new).
Proof.
  intros Hn Hs Hrs Hrx Es Hsame Enew Hold Eb Hother sn'. pose proof (usize_range dB0 i) as Hn0.
  destruct (in_range_u32 nib ndata Hnib Hsize x Hrx) as [Hux _].
  pose proof (sg_own _ _ _ _ _ _ Hs) as Ho. assert (own_inode sn') as Ho' by (apply own_set; [done|unfold w_nblocks; lia]).
  assert (forall w, (0 < w < 16)%nat -> w <> w_single -> un_get sn' w = iword dB0 i w) as Hw
    by (intros w Hw Hne; by eapply final_words; [..|apply u32_range| |]).
  assert (un_get sn' w_single = s) as Hws by (unfold sn'; rewrite sized_words; [done|done|unfold w_single; lia|apply u32_range]).
  assert (block_wf (dblk dB0 s)) as Hwf by (apply blk_wf, HI).
  eapply wp_mono.
  { apply (alloc_finish us sn2 dB fl new [s] Hs); [unfold unix_max; lia|by constructor| | |].
    - intros y i' kd Hy Hr. apply list_elem_of_singleton in Hy as ->. destruct (decide (n <= 12)) as [H1|H1].
      + rewrite (taken_role us sn2 dB fl new _ KSingle s Hs) in Hr; [done|]. subst new. right. by left.
      + destruct (node_ok KSingle) as [_ Hr']; [cbn; lia|]. cbn [uptr] in Hr'. rewrite <- Hold in Hr' by lia. rewrite Hr' in Hr. by injection Hr as <- <-.
    - intros kd Hl. fold sn'. destruct kd as [k| | |j]; cbn [live] in Hl; [| |lia|lia]; cbn [uptr]; rewrite !(written_word sn') by done.
      + destruct (decide (k < 12)) as [Hk|Hk]; [apply Hw; unfold w_direct, w_single; lia|]. rewrite decide_True by lia.
        rewrite Hws, written_data, Eb by done. rewrite entry_set_ne by (done || lia). by rewrite (decide_True (P := k < 268)), Hold by lia.
      + rewrite Hws. apply Hold. lia.
    - intros kd Hl Hnl. fold sn'. subst new. destruct kd as [k| | |j]; cbn [live] in Hl, Hnl; [| |lia|lia]; cbn [uptr]; rewrite !(written_word sn') by done.
      + assert (k = n) as -> by lia. rewrite decide_False, decide_True by lia. rewrite Hws, written_data, Eb by done.
        rewrite entry_set by (done || lia). by left.
      + rewrite Hws. rewrite decide_True by lia. right. by left. }
  intros w us' [-> Hg]. split; [done|]. eexists. exact Hg.
Qed.

(** Below the offset that needs the triple indirect block. *)
Lemma grow_double us sn2 d s x fl dB new j m : 268 <= n < unix_max -> j = (n - 268) / 256 -> m = (n - 268) mod 256 ->
  stage us sn2 dB fl new [d; s] -> in_range d -> in_range s -> in_range x ->
  un_get sn2 w_double = d -> same_words w_double (unix_snapshot_of dB0 i) sn2 ->
  new = (KData n, x) :: (if decide (n <= 268 + 256 * j) then [(KSub j, s)] else []) ++ (if decide (n <= 268) then [(KDouble, d)] else []) ++ [] ->
  (268 < n -> d = iword dB0 i w_double) -> d <> s ->
  dblk dB d = (if decide (n <= 268 + 256 * j) then set32 (dblk dB0 d) (Z.to_nat j) s else dblk dB0 d) -> entry (dblk dB d) j = s ->
  dblk dB s = set32 (dblk dB0 s) (Z.to_nat m) x -> (forall y, in_range y -> y <> s -> y <> d -> dblk dB y = dblk dB0 y) ->
  let sn' := un_set w_nblocks (u32 (n + 1)) sn2 in
  wp (us_write (un_inode_blockno sn') (un_inodeblock sn')) us (fun w us' => w = 0 /\ exists dB', grown us' sn' dB' fl new).
Proof.
  intros Hn Ej Em Hs Hrd Hrs Hrx Ed Hsame Enew Hold Hds Ebd Ee Ebs Hother sn'. pose proof (usize_range dB0 i) as Hn0. unfold unix_max in Hn.
  destruct (in_range_u32 nib ndata Hnib Hsize x Hrx) as [Hux _]. destruct (in_range_u32 nib ndata Hnib Hsize s Hrs) as [Hus _].
  pose proof (sg_own _ _ _ _ _ _ Hs) as Ho. assert (own_inode sn') as Ho' by (apply own_set; [done|unfold w_nblocks; lia]).
  assert (forall w, (0 < w < 16)%nat -> w <> w_double -> un_get sn' w = iword dB0 i w) as Hw
    by (intros w Hw Hne; by eapply final_words; [..|apply u32_range| |]).
  assert (un_get sn' w_double = d) as Hwd by (unfold sn'; rewrite sized_words; [done|done|unfold w_double; lia|apply u32_range]).
  assert (block_wf (dblk dB0 s) /\ block_wf (dblk dB0 d)) as [Hwf Hwfd] by (split; apply blk_wf, HI).
  assert (0 <= j < 256 /\ 0 <= m < 256 /\ n = 268 + 256 * j + m) as (Hj & Hm & Enn) by (rewrite Ej, Em; Z.to_euclidean_division_equations; lia).
  assert (268 < n -> rl d = UNode i KDouble) as Rd.
  { intros H. destruct (node_ok KDouble) as [_ Hr]; [cbn; lia|]. cbn [uptr] in Hr. by rewrite <- Hold in Hr by lia. }
  assert (n <= 268 -> rl d = UFree) as Rd'.
  { intros H. apply (taken_role us sn2 dB fl new _ KDouble d Hs). subst new. rewrite !decide_True by lia. right. right. by left. }
  assert (268 + 256 * j < n -> s = uptr nib dB0 i (KSub j) /\ rl s = UNode i (KSub j)) as Rs.
  { intros H. rewrite decide_False in Ebd by lia. assert (s = uptr nib dB0 i (KSub j)) as E; [|split; [done|]].
    - cbn [uptr]. rewrite <- Hold by lia. by rewrite <- Ebd.
    - rewrite E. apply node_ok. cbn. lia. }
  assert (n <= 268 + 256 * j -> rl s = UFree) as Rs'.
  { intros H. apply (taken_role us sn2 dB fl new _ (KSub j) s Hs). subst new. rewrite decide_True by lia. right. by left. }
  (* the blocks of the file that stay *)
  assert (forall kd, live n kd -> kd <> KDouble -> kd <> KSub j -> dblk dB (uptr nib dB0 i kd) = dblk dB0 (uptr nib dB0 i kd)) as Hstay.
  { intros kd Hl H1 H2. destruct (node_ok kd Hl) as [Hr Hrl]. apply Hother; [done| |]; intros E; rewrite E in Hrl.
    - destruct (decide (n <= 268 + 256 * j)) as [H|H]; [rewrite Rs' in Hrl by done; done|]. destruct (Rs ltac:(lia)) as [_ Hr']. rewrite Hr' in Hrl. congruence.
    - destruct (decide (n <= 268)) as [H|H]; [rewrite Rd' in Hrl by done; done|]. rewrite Rd in Hrl by lia. congruence. }
  (* the table's entries that stay *)
  assert (forall j', 0 <= j' < 256 -> 268 + 256 * j' < n -> entry (dblk dB d) j' = uptr nib dB0 i (KSub j')) as Hentry.
  { intros j' Hj' H. cbn [uptr]. rewrite <- Hold by lia. rewrite Ebd. destruct (decide (n <= 268 + 256 * j)) as [H1|H1]; [|done].
    apply entry_set_ne; (done || lia). }
  eapply wp_mono.
  { apply (alloc_finish us sn2 dB fl new [d; s] Hs); [unfold unix_max; lia|constructor; [exact Hrd|constructor; [exact Hrs|by constructor]]| | |].
    - intros y i' kd Hy Hr. apply elem_of_cons in Hy as [->|Hy]; [|apply list_elem_of_singleton in Hy as ->].
      + destruct (decide (n <= 268)) as [H|H]; [rewrite Rd' in Hr; done|]. rewrite Rd in Hr by lia. by injection Hr as <- <-.
      + destruct (decide (n <= 268 + 256 * j)) as [H|H]; [rewrite Rs' in Hr; done|]. destruct (Rs ltac:(lia)) as [_ Hr']. rewrite Hr' in Hr. by injection Hr as <- <-.
    - intros kd Hl. fold sn'. destruct kd as [k| | |j']; cbn [live] in Hl; cbn [uptr]; rewrite !(written_word sn') by done.
      + destruct (decide (k < 12)) as [Hk|Hk]; [apply Hw; unfold w_direct, w_double; lia|].
        destruct (decide (k < 268)) as [Hk2|Hk2].
        * assert (live n KSingle) as Hls by (cbn; lia). destruct (node_ok KSingle Hls) as [Hr _]. cbn [uptr] in Hr.
          rewrite Hw by (unfold w_single, w_double; lia). rewrite written_data by done.
          pose proof (Hstay KSingle Hls ltac:(done) ltac:(done)) as E. cbn [uptr] in E. by rewrite E.
        * rewrite Hwd, (written_data _ _ d) by done. set (jk := (k - 268) / 256).
          assert (0 <= jk < 256 /\ 268 + 256 * jk <= k) as [Hjk Hjk2] by (unfold jk; Z.to_euclidean_division_equations; lia).
          rewrite Hentry by lia. assert (live n (KSub jk)) as Hls by (cbn; lia). destruct (node_ok (KSub jk) Hls) as [Hr _].
          rewrite written_data by done. change (entry (dblk dB0 (iword dB0 i w_double)) jk) with (uptr nib dB0 i (KSub jk)).
          destruct (decide (jk = j)) as [E|E]; [|by rewrite Hstay by congruence]. rewrite E in Hls |- *.
          destruct (Rs ltac:(cbn in Hls; lia)) as [E' _]. rewrite <- E', Ebs. apply entry_set_ne; [done|done|Z.to_euclidean_division_equations; lia|].
          intros Ek. assert (k = n); [|lia]. unfold jk in E. rewrite Enn, Ek, <- E. Z.to_euclidean_division_equations; lia.
      + apply Hw; unfold w_single, w_double; lia.
      + rewrite Hwd. apply Hold. lia.
      + rewrite Hwd, (written_data _ _ d) by done. apply Hentry; lia.
    - intros kd Hl Hnl. fold sn'. subst new. destruct kd as [k| | |j']; cbn [live] in Hl, Hnl; cbn [uptr]; rewrite ?(written_word sn') by done.
      + assert (k = n) as -> by lia. rewrite !decide_False by lia. rewrite Hwd, (written_data _ _ d) by done. rewrite <- Ej, Ee, written_data by done.
        rewrite <- Em, Ebs, entry_set by done. by left.
      + lia.
      + rewrite Hwd. rewrite !decide_True by lia. right. right. by left.
      + assert (j' = j) as -> by lia. rewrite Hwd, written_data, Ee by done. rewrite decide_True by lia. right. by left. }
  intros w us' [-> Hg]. split; [done|]. eexists. exact Hg.
Qed.

(** ** Growing by one block *)

Lemma length_new_kinds k : 0 <= k -> (length (new_kinds k) <= 3)%nat.
Proof. intros Hk. unfold new_kinds. do 3 destruct (decide _); cbn [length app]; lia. Qed.

Lemma new_kinds_single k : 12 <= k < 268 -> length (new_kinds k) = if decide (k <= 12) then 2%nat else 1%nat.
Proof.
  intros Hk. unfold new_kinds. rewrite (decide_False (P := 268 <= k /\ (k - 268) mod 256 = 0)), (decide_False (P := k = 268)) by lia.
  by destruct (decide (k <= 12)), (decide (k = 12)); (lia || done).
Qed.

Lemma new_kinds_double k : 268 <= k -> length (new_kinds k) =
  if decide (k <= 268 + 256 * ((k - 268) / 256)) then if decide (k <= 268) then 3%nat else 2%nat else 1%nat.
Proof.
  intros Hk. unfold new_kinds. rewrite (decide_False (P := k = 12)) by lia.
  destruct (decide (k <= 268 + _)) as [H|H].
  - rewrite (decide_True (P := 268 <= k /\ (k - 268) mod 256 = 0)) by (Z.to_euclidean_division_equations; lia).
    by destruct (decide (k <= 268)), (decide (k = 268)); (lia || done).
  - rewrite (decide_False (P := 268 <= k /\ (k - 268) mod 256 = 0)) by (intros [? ?]; pose proof (Z.div_mod (k - 268) 256); lia).
    rewrite (decide_False (P := k = 268)); [done|]. intros ->. by apply H.
Qed.

(** What is left when no more indirect block is needed: the inode. *)
Definition alloc_end (sn2 : unixdisk_snapshot) : M st (option unixdisk_snapshot) :=
  let sn' := un_set w_nblocks (u32 (n + 1)) sn2 in
  w ← us_write (un_inode_blockno sn') (un_inodeblock sn');
  mret (if decide (w < 0) then None else Some sn').

Lemma alloc_end_ok us2 sn2 new :
  wp (us_write (un_inode_blockno (un_set w_nblocks (u32 (n + 1)) sn2)) (un_inodeblock (un_set w_nblocks (u32 (n + 1)) sn2))) us2
    (fun w us' => w = 0 /\ exists dB' fl, grown us' (un_set w_nblocks (u32 (n + 1)) sn2) dB' fl new) ->
  length new = length (new_kinds n) ->
  wp (alloc_end sn2) us2 (fun o us' => exists sn dB fl new,
    o = Some sn /\ grown us' sn dB fl new /\ length new = length (new_kinds n)).
Proof.
  intros H El. unfold alloc_end. step. eapply wp_mono; [exact H|]. intros w us' [-> (dB' & fl & Hg)]. step. rewrite decide_False by lia.
  by exists (un_set w_nblocks (u32 (n + 1)) sn2), dB', fl, new.
Qed.

Lemma alloc_rest_skip (P : option unixdisk_snapshot -> st -> Prop) us sn : wp (alloc_end sn) us P ->
  wp (and_then (alloc_triple n (n + 1) sn) (fun x => alloc_end x.2)) us P.
Proof. intros H. unfold and_then, alloc_triple. rewrite decide_False by lia. do 2 step. cbn [fst snd]. exact H. Qed.

Lemma alloc_rest2_skip (P : option unixdisk_snapshot -> st -> Prop) us sn : wp (alloc_end sn) us P ->
  wp (and_then (alloc_double n (n + 1) sn) (fun x => and_then (alloc_triple n x.1 x.2) (fun x => alloc_end x.2))) us P.
Proof. intros H. unfold and_then at 1, alloc_double. rewrite decide_False by lia. do 2 step. cbn [fst snd]. by apply alloc_rest_skip. Qed.

Lemma unixdisk_alloc_ok us : R (us_below us) dB0 -> n < unix_max -> (length (new_kinds n) <= length fl0)%nat ->
  wp (unixdisk_alloc (unix_snapshot_of dB0 i) n) us (fun o us' => exists sn dB fl new,
    o = Some sn /\ grown us' sn dB fl new /\ length new = length (new_kinds n)).
Proof.
  intros HR Hn Hl. pose proof (usize_range dB0 i) as Hn0. pose proof (alloc_start us HR) as Hs. set (sn := unix_snapshot_of dB0 i) in *.
  assert (un_nblocks sn = n) as En by done.
  unfold unixdisk_alloc. rewrite En. step. apply wp_assert; [by apply bool_decide_eq_true_2; lia|]. step.
  assert (fl0 <> []) as Hne by (intros E; rewrite E in Hl; unfold new_kinds in Hl; cbn [length] in Hl; lia).
  destruct (decide (n < 12)) as [H1|H1].
  { eapply wp_mono; [exact (alloc_direct_one us sn dB0 fl0 [] [] n Hs Hne ltac:(lia))|].
    intros r us1 (x & sb & fl1 & -> & Hs1 & Hrx & Hp). cbn [fst snd]. unfold and_then at 1, alloc_single.
    rewrite decide_False by lia. do 2 step. cbn [fst snd]. apply alloc_rest2_skip. apply (alloc_end_ok _ _ [(KData n, x)]).
    - eapply wp_mono; [exact (grow_direct us1 x sb fl1 H1 Hrx Hs1)|]. intros w us' [-> [dB' Hg]]. split; [done|]. by exists dB', fl1.
    - unfold new_kinds. by rewrite !decide_False by lia. }
  destruct direct_fuel as [f ->]. cbn [alloc_direct]. rewrite decide_False by lia. step. cbn [fst snd].
  assert (forall kd, live n kd -> in_range (uptr nib dB0 i kd) /\ uptr nib dB0 i kd ∉ fl0) as Hnode
    by (intros kd Hl'; split; [by apply node_ok|by apply node_not_free]).
  destruct (decide (n < 268)) as [H2|H2].
  - unfold and_then at 1. step. eapply wp_mono.
    { apply (alloc_single_one us sn dB0 fl0 [] [] n Hs Hne); [|lia|done|intros H; by apply (Hnode KSingle)].
      intros H. rewrite new_kinds_single in Hl by lia. rewrite decide_True in Hl by lia. exact Hl. }
    intros r us1 (s & x & sn' & fl' & dB' & new' & -> & Hs1 & Hrs & Hrx & Es & Hsame & Enew & Hold & Eb & Hother). cbn [fst snd].
    apply alloc_rest2_skip. apply (alloc_end_ok _ _ new').
    + eapply wp_mono; [exact (grow_single us1 sn' s x fl' dB' new' ltac:(lia) Hs1 Hrs Hrx Es Hsame Enew Hold Eb Hother)|].
      intros w us' [-> [dB2 Hg]]. split; [done|]. by exists dB2, fl'.
    + rewrite new_kinds_single by lia. subst new'. by destruct (decide (n <= 12)).
  - unfold and_then at 1, alloc_single. rewrite decide_False by (unfold ENTRIES_PER_BLOCK; lia). do 2 step. cbn [fst snd].
    unfold and_then at 1. step. eapply wp_mono.
    { apply (alloc_double_one us sn dB0 fl0 [] [] n ((n - 268) / 256) ((n - 268) mod 256) Hs Hne); [| |lia|done|done|done|intros H; by apply (Hnode KDouble)|].
      - intros H. rewrite new_kinds_double in Hl by lia. rewrite decide_True in Hl by done. destruct (decide (n <= 268)); lia.
      - intros H. rewrite new_kinds_double in Hl by lia.
        rewrite !decide_True in Hl by (Z.to_euclidean_division_equations; lia). exact Hl.
      - intros H. assert (live n (KSub ((n - 268) / 256))) as Hlive by (cbn [live]; Z.to_euclidean_division_equations; lia).
        destruct (Hnode _ Hlive) as [A B]. split; [done|]. split; [done|]. intros E.
        by apply (node_inj (KSub ((n - 268) / 256)) KDouble) in E; [|done|cbn [live]; Z.to_euclidean_division_equations; lia]. }
    intros r us1 (d & s & x & sn' & fl' & dB' & new' & -> & Hs1 & Hrd & Hrs & Hrx & Ed & Hsame & Enew & Hold & Hds & Ebd & Ee & Ebs & Hother).
    cbn [fst snd]. apply alloc_rest_skip. apply (alloc_end_ok _ _ new').
    + eapply wp_mono.
      { exact (grow_double us1 sn' d s x fl' dB' new' _ _ ltac:(lia) eq_refl eq_refl Hs1 Hrd Hrs Hrx Ed Hsame Enew Hold Hds Ebd Ee Ebs Hother). }
      intros w us' [-> [dB2 Hg]]. split; [done|]. by exists dB2, fl'.
    + rewrite new_kinds_double by lia. subst new'.
      pose proof (Z.div_pos (n - 268) 256).
      destruct (decide (n <= 268 + 256 * ((n - 268) / 256))) as [|H3], (decide (n <= 268)) as [|H4]; [done..| |done]. lia.
Qed.
End alloc.
