(* ===== verification/UnixFile.v ===== *)
(** unixdisk.c: the files that a layout holds, reading and writing them. *)
From stdpp Require Import base numbers list gmap.
From Stdlib Require Import ZArith Lia Permutation.
From S2P Require Import Prelude BlockStore TreeInv TreeSpec UnixDisk UnixInv UnixSpec UnixAlloc.

Section files.
Context {S : Type} {R : S -> vdisk -> Prop} `{!BlockStore S, !Lawful S R}.
Abbreviation st := (unixdisk_state S).
Context (nib ndata : Z) (Hnib : 1 <= nib) (Hndata : 0 <= ndata) (Hsize : 1 + nib + ndata <= two32 - 1).
Abbreviation dblk := (dblk nib).
Abbreviation in_range := (in_range ndata).
Abbreviation mid := (mid (R:=R) nib ndata).

(** The disk holds the files [f], up to their sizes. *)
Definition unix_files (fl : list Z) (f : files) (dB : vdisk) : Prop :=
  f_ninodes f = nib * 16 /\ exists rl, unix_inv nib ndata rl fl dB /\
    forall i, valid_inode nib i -> usize dB i = f_size f i /\ forall k, 0 <= k < f_size f i -> ucontent nib dB i k = f_data f i k.

Definition unix_repr (us : st) (fl : list Z) (f : files) : Prop :=
  exists dB, R (us_below us) dB /\ unix_files fl f dB.

Lemma unix_snapshot_matches dB i : sn_matches (unix_snapshot_of dB i) dB i.
Proof. by intros w Hw. Qed.

Lemma unix_snapshot_mid (us : st) rl fl dB i : R (us_below us) dB -> unix_inv nib ndata rl fl dB -> mid us (unix_snapshot_of dB i) dB fl.
Proof. intros HR HI. split; [done|done|apply HI]. Qed.

Lemma inv_in_range rl fl dB i kd : unix_inv nib ndata rl fl dB -> valid_inode nib i -> live (usize dB i) kd -> in_range (uptr nib dB i kd).
Proof. intros HI Hi Hl. by apply (ui_node _ _ _ _ _ HI). Qed.

(** ** Writing a data block *)

Section data_write.
Context (rl : Z -> urole) (fl : list Z) (dB : vdisk) (i off : Z) (b : block).
Context (HI : unix_inv nib ndata rl fl dB) (Hi : valid_inode nib i) (Hoff : 0 <= off < usize dB i) (Hb : block_wf b).
Abbreviation p := (uptr nib dB i (KData off)).
Abbreviation dB' := (<[(0, p + 1 + nib):=b]> dB).

Lemma data_target : in_range p /\ rl p = UNode i (KData off) /\ p ∉ fl.
Proof.
  destruct (ui_node _ _ _ _ _ HI i (KData off) Hi Hoff) as [H1 H2]. split_and!; [done|done|].
  intros Hin. by rewrite (ui_role _ _ _ _ _ HI _ Hin) in H2.
Qed.

Lemma data_iword i' w : valid_inode nib i' -> iword dB' i' w = iword dB i' w.
Proof. intros Hi'. apply (iword_insert_data nib ndata); [done|]. apply data_target. Qed.

Lemma data_uptr i' kd : valid_inode nib i' -> live (usize dB i') kd -> uptr nib dB' i' kd = uptr nib dB i' kd.
Proof.
  intros Hi' Hl. destruct data_target as (Hr & Hrl & _).
  apply (uptr_frame nib ndata rl dB dB' i' (usize dB i')); [intros kd' Hl'; by apply (ui_node _ _ _ _ _ HI)| | |done|by apply (ui_size _ _ _ _ _ HI)].
  - intros w Hw. by apply data_iword.
  - intros x kd' Hx Hrx Hk. apply dblk_insert_ne. intros E. assert (x = p) as -> by lia. rewrite Hrl in Hrx. injection Hrx as <- <-. by apply (Hk off).
Qed.

Lemma data_write_inv : unix_inv nib ndata rl fl dB'.
Proof.
  destruct data_target as (Hr & Hrl & Hfl). pose proof (abs_range nib ndata _ Hr) as Habs. split.
  - apply free_ok_insert; [apply HI|lia|done|]. intros x Hx E. assert (x = p) as -> by lia. done.
  - apply HI.
  - intros i' Hi'. unfold usize. rewrite data_iword by done. by apply (ui_size _ _ _ _ _ HI).
  - intros i' kd Hi'. unfold usize. rewrite data_iword by done. intros Hl. rewrite data_uptr by done. by apply (ui_node _ _ _ _ _ HI).
Qed.

Lemma data_write_content i' k : valid_inode nib i' -> 0 <= k < usize dB i' ->
  ucontent nib dB' i' k = if decide (i' = i /\ k = off) then b else ucontent nib dB i' k.
Proof.
  intros Hi' Hk. destruct data_target as (Hr & Hrl & _). unfold ucontent. rewrite data_uptr by done.
  destruct (decide (i' = i /\ k = off)) as [[-> ->]|Hne]; [by rewrite dblk_insert_eq|].
  apply dblk_insert_ne. intros E. destruct (ui_node _ _ _ _ _ HI i' (KData k) Hi' Hk) as [_ H2].
  assert (uptr nib dB i' (KData k) = p) as E' by lia. rewrite E', Hrl in H2. injection H2 as <- <-. by apply Hne.
Qed.
End data_write.

(** ** Reading *)

Lemma unixdisk_read_ok (us : st) fl f ino off buf : unix_repr us fl f -> is_u32 ino -> is_u32 off -> block_wf buf ->
  wp (unixdisk_read ino off buf) us (fun x us' => unix_repr us' fl f /\
    x = if decide (ino < f_ninodes f /\ off < f_size f ino) then (0, f_data f ino off) else (-1, buf)).
Proof.
  intros (dB & HR & Hfn & rl & HI & Hf) Hino Hoff Hb. unfold unixdisk_read. step.
  assert (forall us', R (us_below us') dB -> unix_repr us' fl f) as Hrep by (intros us' H; exists dB; split; [done|]; split; [done|by exists rl]).
  eapply wp_mono; [exact (unix_get_snapshot_ok nib ndata Hnib Hndata Hsize us dB fl ino HR (ui_free _ _ _ _ _ HI) Hino)|].
  intros o us1 [-> HR1]. rewrite Hfn. destruct (decide (ino < nib * 16)) as [Hi|Hi].
  2:{ step. rewrite decide_False by tauto. by auto. }
  assert (valid_inode nib ino) as Hv by (split; [apply Hino|done]). destruct (Hf ino Hv) as [Esz Hdata].
  change (un_nblocks (unix_snapshot_of dB ino)) with (usize dB ino). rewrite Esz.
  destruct (decide (off >= f_size f ino)) as [Hge|Hlt].
  { step. rewrite decide_False by lia. by auto. }
  rewrite decide_True by lia. step.
  eapply wp_mono.
  { apply (traverse_ok nib ndata Hnib Hsize us1 (unix_snapshot_of dB ino) dB fl ino (f_size f ino) off).
    - by eapply unix_snapshot_mid.
    - apply unix_snapshot_matches.
    - intros kd Hl. rewrite <- Esz in Hl. by eapply inv_in_range.
    - destruct Hoff. lia.
    - rewrite <- Esz. by apply (ui_size _ _ _ _ _ HI). }
  intros x us2 [-> [HR2 _ _]]. step.
  assert (in_range (uptr nib dB ino (KData off))) as Hp by (eapply inv_in_range; [done|done|cbn [live]; destruct Hoff; lia]).
  pose proof (abs_range nib ndata _ Hp) as Ha.
  wp_use (us_call_read_ok us2 dB (uptr nib dB ino (KData off) + 1 + nib) buf HR2) as [-> HR3]; [|done|].
  { apply (fo_present _ _ _ _ (ui_free _ _ _ _ _ HI)). lia. }
  step. split; [by apply Hrep|]. cbn [fst snd]. rewrite decide_False by lia. f_equal. apply Hdata. destruct Hoff. lia.
Qed.

Lemma unixdisk_getsize_ok (us : st) fl f ino : unix_repr us fl f -> is_u32 ino ->
  wp (unixdisk_getsize ino) us (fun r us' => unix_repr us' fl f /\ r = if decide (ino < f_ninodes f) then f_size f ino else -1).
Proof.
  intros (dB & HR & Hfn & rl & HI & Hf) Hino. unfold unixdisk_getsize. step.
  eapply wp_mono; [exact (unix_get_snapshot_ok nib ndata Hnib Hndata Hsize us dB fl ino HR (ui_free _ _ _ _ _ HI) Hino)|].
  intros o us1 [-> HR1]. rewrite Hfn. assert (unix_repr us1 fl f) as Hrep by (exists dB; split; [done|]; split; [done|by exists rl]).
  destruct (decide (ino < nib * 16)) as [Hi|Hi]; step; [|done]. split; [done|].
  assert (valid_inode nib ino) as Hv by (split; [apply Hino|done]). destruct (Hf ino Hv) as [Esz Hdata].
  change (un_nblocks (unix_snapshot_of dB ino)) with (usize dB ino). pose proof (ui_size _ _ _ _ _ HI ino Hv) as Hmax.
  pose proof (usize_range dB ino) as H0. rewrite <- Esz. apply i32_small. unfold unix_max in Hmax. lia.
Qed.

(** ** Writing *)

(** The most blocks that a write can take off the free list. *)
Definition unix_needed (f : files) (ino off : Z) : nat :=
  if decide (off < f_size f ino) then 0%nat else length (new_kinds off).

(** After the block has been found: for a disk that holds the old content up to [off]. *)
Lemma unix_finish_write (us : st) sn fl f dB0 dB rl ino off b :
  f_ninodes f = nib * 16 -> mid us sn dB fl -> sn_matches sn dB ino -> unix_inv nib ndata rl fl dB -> valid_inode nib ino -> block_wf b ->
  0 <= off < usize dB ino -> usize dB ino = Z.max (f_size f ino) (off + 1) -> off <= f_size f ino ->
  (forall i, valid_inode nib i -> i <> ino -> usize dB i = f_size f i) ->
  (forall i, valid_inode nib i -> usize dB0 i = f_size f i /\ forall k, 0 <= k < f_size f i -> ucontent nib dB0 i k = f_data f i k) ->
  (forall i k, valid_inode nib i -> 0 <= k < usize dB0 i -> ucontent nib dB i k = ucontent nib dB0 i k) ->
  wp (x ← unixdisk_traverse sn off; w ← us_write x b; mret (if decide (w < 0) then -1 else 0)) us (fun r us' =>
    r = 0 /\ unix_repr us' fl (f_write f ino off b)).
Proof.
  intros Hfn Hmid Hsn HI Hv Hb Hoff Esz Hhole Hsz Hf Hsame. step.
  eapply wp_mono.
  { apply (traverse_ok nib ndata Hnib Hsize us sn dB fl ino (usize dB ino) off Hmid Hsn); [|done|by apply (ui_size _ _ _ _ _ HI)].
    intros kd Hl. by eapply inv_in_range. }
  intros x us1 [-> [HR1 _ _]]. destruct (data_target rl fl dB ino off HI Hv Hoff) as (Hp & _ & _). pose proof (abs_range nib ndata _ Hp) as Ha.
  step. wp_use (us_write_ok us1 dB (uptr nib dB ino (KData off) + 1 + nib) b HR1) as [-> HR2]; [|done|].
  { apply (fo_present _ _ _ _ (ui_free _ _ _ _ _ HI)). lia. }
  step. split; [by rewrite decide_False by lia|]. eexists. split; [exact HR2|]. split; [done|]. exists rl.
  split; [by apply data_write_inv|]. intros i Hi. cbn [f_write f_size f_data]. unfold usize at 1. rewrite (data_iword rl fl) by done.
  change (iword dB i w_nblocks) with (usize dB i).
  destruct (Hf i Hi) as [E0 Hd]. destruct (decide (i = ino)) as [->|Hne].
  - split; [done|]. intros k Hk. rewrite (data_write_content rl fl) by (done || lia).
    destruct (decide (ino = ino /\ k = off)) as [|Hne]; [done|]. assert (k <> off) by (intros ->; by apply Hne).
    rewrite Hsame by (done || lia). apply Hd. lia.
  - rewrite Hsz by done. split; [done|]. intros k Hk. rewrite (data_write_content rl fl) by (done || rewrite Hsz by done; done).
    destruct (decide (i = ino /\ k = off)) as [[E _]|_]; [done|]. rewrite Hsame by (done || lia). apply Hd. lia.
Qed.

Lemma unixdisk_write_ok (us : st) fl f ino off b : unix_repr us fl f -> is_u32 ino -> ino < f_ninodes f -> 0 <= off -> block_wf b ->
  off <= f_size f ino -> off < unix_max -> (unix_needed f ino off <= length fl)%nat ->
  wp (unixdisk_write ino off b) us (fun r us' => r = 0 /\ exists fl',
    unix_repr us' fl' (f_write f ino off b) /\ (length fl = length fl' + unix_needed f ino off)%nat).
Proof.
  intros (dB & HR & Hfn & rl & HI & Hf) Hino Hi Hoff Hb Hhole Hmax Hl. unfold unixdisk_write. step.
  eapply wp_mono; [exact (unix_get_snapshot_ok nib ndata Hnib Hndata Hsize us dB fl ino HR (ui_free _ _ _ _ _ HI) Hino)|].
  intros o us1 [-> HR1]. rewrite decide_True by lia.
  assert (valid_inode nib ino) as Hv by (split; [apply Hino|lia]). destruct (Hf ino Hv) as [Esz Hdata].
  change (un_nblocks (unix_snapshot_of dB ino)) with (usize dB ino). unfold unix_needed in *.
  destruct (decide (off >= usize dB ino)) as [Hge|Hlt].
  - assert (off = usize dB ino) as -> by lia. rewrite decide_False in * by lia. step.
    eapply wp_mono; [exact (unixdisk_alloc_ok nib ndata Hnib Hndata Hsize dB fl ino Hv rl HI us1 HR1 Hmax Hl)|].
    intros o us2 (sn & dB1 & fl1 & new & -> & [Hmid Hsn Hperm Hinv Hsz Hcont] & Hlen).
    eapply wp_mono.
    { apply (unix_finish_write us2 sn fl1 f dB dB1 _ ino (usize dB ino) b Hfn Hmid Hsn Hinv Hv Hb); [..|exact Hf|exact Hcont].
      - rewrite Hsz, decide_True by done. lia.
      - rewrite Hsz, decide_True by done. lia.
      - lia.
      - intros i' Hi' Hne. rewrite Hsz, decide_False by done. by apply Hf. }
    intros r us3 [-> Hr]. split; [done|]. exists fl1. split; [done|]. apply Permutation_length in Hperm.
    rewrite Hperm, length_app, length_fmap, Hlen. lia.
  - rewrite decide_True in * by lia. do 2 step. eapply wp_mono.
    { apply (unix_finish_write us1 (unix_snapshot_of dB ino) fl f dB dB rl ino off b Hfn); [..|exact Hf|done].
      - by eapply unix_snapshot_mid.
      - apply unix_snapshot_matches.
      - done.
      - done.
      - done.
      - lia.
      - lia.
      - lia.
      - intros i' Hi' _. by apply Hf. }
    intros r us3 [-> Hr]. split; [done|]. exists fl. split; [done|lia].
Qed.
End files.
