(* ===== verification/UnixFree.v ===== *)
(** unixdisk.c: freeing a file. The blocks are freed in the order of a rank: that of
    their offsets, each indirect block after the blocks that it refers to. *)
From stdpp Require Import base numbers list gmap.
From Stdlib Require Import ZArith Lia Permutation.
From S2P Require Import Prelude BlockStore TreeInv TreeSpec TreeFree UnixDisk UnixInv UnixSpec UnixAlloc UnixFile.

Definition rank (kd : ukind) : Z :=
  match kd with
  | KData k => 4 * k
  | KSingle => 4 * 12 + 1021
  | KSub j => 4 * (268 + 256 * j) + 1021
  | KDouble => 4 * unix_max - 2
  end.

Lemma rank_inj n kd kd' : n <= unix_max -> live n kd -> live n kd' -> rank kd = rank kd' -> kd = kd'.
Proof. unfold unix_max. destruct kd, kd'; cbn [live rank]; unfold unix_max; intros; (f_equal; lia) || lia. Qed.

(** ** The blocks of a file *)

Definition live_kinds (n : Z) : list ukind :=
  (KData <$> seqZ 0 n) ++ (if decide (12 < n) then [KSingle] else []) ++
  (KSub <$> seqZ 0 ((n - 13) / 256)) ++ (if decide (268 < n) then [KDouble] else []).

(** How many blocks a file of [n] blocks takes, the indirect ones included. *)
Definition file_blocks (n : Z) : nat := length (live_kinds n).

Lemma live_kinds_spec n kd : kd ∈ live_kinds n <-> live n kd.
Proof.
  unfold live_kinds. rewrite !elem_of_app, !list_elem_of_fmap. setoid_rewrite elem_of_seqZ. destruct kd as [k| | |j]; cbn [live]; split.
  - intros [(k' & [= <-] & H)|[H|[(j & E & _)|H]]]; [lia| |done|]; destruct (decide _) in H; by repeat (apply elem_of_cons in H as [H|H] || apply elem_of_nil in H).
  - intros H. left. exists k. split; [done|lia].
  - intros [(k' & E & H)|[H|[(j & E & _)|H]]]; [done| |done|]; destruct (decide _) in H; (done || by repeat (apply elem_of_cons in H as [H|H] || apply elem_of_nil in H)).
  - intros H. right. left. rewrite decide_True by done. by left.
  - intros [(k' & E & H)|[H|[(j & E & _)|H]]]; [done| |done|]; destruct (decide _) in H; (done || by repeat (apply elem_of_cons in H as [H|H] || apply elem_of_nil in H)).
  - intros H. right. right. right. rewrite decide_True by done. by left.
  - intros [(k' & E & H)|[H|[(j' & [= <-] & H)|H]]]; [done| |Z.to_euclidean_division_equations; lia|];
      destruct (decide _) in H; by repeat (apply elem_of_cons in H as [H|H] || apply elem_of_nil in H).
  - intros H. right. right. left. exists j. split; [done|]. Z.to_euclidean_division_equations; lia.
Qed.

#[local] Instance KData_inj : Inj eq eq KData.
Proof. by intros ?? [=]. Qed.

#[local] Instance KSub_inj : Inj eq eq KSub.
Proof. by intros ?? [=]. Qed.

Lemma live_kinds_nodup n : NoDup (live_kinds n).
Proof.
  assert (forall P (D : Decision P) (kd : ukind), NoDup (if D then [kd] else [])) as Hone by (intros P D kd; destruct D; [apply NoDup_singleton|apply NoDup_nil_2]).
  assert (forall P (D : Decision P) (kd kd' : ukind), kd ∈ (if D then [kd'] else []) -> kd = kd') as Hin
    by (intros P D kd kd' H; destruct D; by repeat (apply elem_of_cons in H as [H|H] || apply elem_of_nil in H)).
  unfold live_kinds. apply NoDup_app. split; [apply (NoDup_fmap_2 _); apply NoDup_seqZ|]. split.
  { intros kd (k & -> & _)%list_elem_of_fmap. rewrite !elem_of_app, list_elem_of_fmap. intros [H|[(j & E & _)|H]]; (done || by apply Hin in H). }
  apply NoDup_app. split; [apply Hone|]. split.
  { intros kd ->%Hin. rewrite !elem_of_app, list_elem_of_fmap. intros [(j & E & _)|H]; (done || by apply Hin in H). }
  apply NoDup_app. split; [apply (NoDup_fmap_2 _); apply NoDup_seqZ|]. split; [|apply Hone].
  intros kd (k & -> & _)%list_elem_of_fmap H. by apply Hin in H.
Qed.

Lemma file_blocks_val n : file_blocks n =
  (Z.to_nat n + (if decide (12 < n)%Z then 1 else 0) + Z.to_nat ((n - 13) / 256) + (if decide (268 < n)%Z then 1 else 0))%nat.
Proof.
  unfold file_blocks, live_kinds. rewrite !length_app, !length_fmap, !length_seqZ. destruct (decide (12 < n)), (decide (268 < n)); cbn [length]; lia.
Qed.

Lemma file_blocks_S n : 0 <= n -> file_blocks (n + 1) = (file_blocks n + length (new_kinds n))%nat.
Proof.
  intros Hn. rewrite !file_blocks_val. destruct (decide (n < 12)) as [H|H].
  { unfold new_kinds. rewrite !(decide_False (P := _ < _)) by lia. rewrite !decide_False by lia. cbn [length app]. Z.to_euclidean_division_equations; lia. }
  rewrite (decide_True (P := 12 < n + 1)) by lia. destruct (decide (n < 268)) as [H2|H2].
  - rewrite new_kinds_single by lia. rewrite !(decide_False (P := 268 < _)) by lia.
    replace ((n + 1 - 13) / 256) with 0 by (Z.to_euclidean_division_equations; lia).
    assert (Z.to_nat ((n - 13) / 256) = 0%nat) as -> by (Z.to_euclidean_division_equations; lia).
    destruct (decide (n <= 12)), (decide (12 < n)); lia.
  - rewrite new_kinds_double by lia. rewrite (decide_True (P := 268 < n + 1)), (decide_True (P := 12 < n)) by lia.
    assert ((n + 1 - 13) / 256 = (n - 268) / 256 + 1) as -> by (Z.to_euclidean_division_equations; lia).
    assert ((n - 13) / 256 = (n - 268) / 256 + (if decide (n <= 268 + 256 * ((n - 268) / 256)) then 0 else 1)) as ->.
    { destruct (decide (n <= 268 + 256 * ((n - 268) / 256))) as [H3|H3]; Z.to_euclidean_division_equations; lia. }
    pose proof (Z.div_pos (n - 268) 256). destruct (decide (n <= 268 + _)) as [H3|H3], (decide (n <= 268)), (decide (268 < n)); lia.
Qed.

Section free.
Context {S : Type} {R : S -> vdisk -> Prop} `{!BlockStore S, !Lawful S R}.
Abbreviation st := (unixdisk_state S).
Context (nib ndata : Z) (Hnib : 1 <= nib) (Hndata : 0 <= ndata) (Hsize : 1 + nib + ndata <= two32 - 1).
Abbreviation dblk := (dblk nib).
Abbreviation in_range := (in_range ndata).
Abbreviation mid := (mid (R:=R) nib ndata).

(** The file [i] is freed, on the disk [dB0] with the free blocks [fl0]. *)
Context (dB0 : vdisk) (fl0 : list Z) (i : Z) (Hi : valid_inode nib i).
Context (rl : Z -> urole) (HI : unix_inv nib ndata rl fl0 dB0).
Abbreviation n := (usize dB0 i).
Abbreviation ptr := (uptr nib dB0 i).

(** The blocks [K] have been freed: those with ranks below [t]. *)
Record freeing (us : st) (sn : unixdisk_snapshot) (dB : vdisk) (fl : list Z) (K : list ukind) (t : Z) : Prop := {
  fr_mid : mid us sn dB fl;
  fr_perm : fl ≡ₚ (ptr <$> K) ++ fl0;
  fr_out : outside nib ((ptr <$> K) ++ fl0) dB0 dB;
  fr_sn : exists sb, sn = un_set_super sb (unix_snapshot_of dB0 i);
  fr_nodup : NoDup K;
  fr_done : forall kd, kd ∈ K <-> live n kd /\ rank kd < t;
}.

Definition freed_to (t : Z) (us : st) (sn : unixdisk_snapshot) : Prop := exists dB fl K, freeing us sn dB fl K t.

Lemma n_max : 0 <= n <= unix_max.
Proof. split; [apply usize_range|by apply (ui_size _ _ _ _ _ HI)]. Qed.

Lemma freed_words us sn t : freed_to t us sn -> un_nblocks sn = n /\ forall w, un_get sn w = iword dB0 i w.
Proof. intros (dB & fl & K & [_ _ _ (sb & ->) _ _]). done. Qed.

(** No block has one of the ranks in between. *)
Lemma freed_advance us sn t t' : freed_to t us sn -> t <= t' -> (forall kd, live n kd -> t <= rank kd -> t' <= rank kd) -> freed_to t' us sn.
Proof.
  intros (dB & fl & K & [H1 H2 H3 H4 H5 H6]) Ht Hno. exists dB, fl, K. split; try done. intros kd. rewrite H6. split; intros [Hl Hr]; split; try done; [lia|].
  destruct (decide (rank kd < t)); [done|]. specialize (Hno kd Hl). lia.
Qed.

Lemma live_ptr kd : live n kd -> in_range (ptr kd) /\ ptr kd ∉ fl0.
Proof. intros H. split; [by apply (node_ok nib ndata dB0 fl0 i Hi rl HI)|by apply (node_not_free nib ndata dB0 fl0 i Hi rl HI)]. Qed.

Lemma live_not_in us sn dB fl K t kd : freeing us sn dB fl K t -> live n kd -> t <= rank kd -> ptr kd ∉ (ptr <$> K) ++ fl0.
Proof.
  intros [_ _ _ _ _ H6] Hl Ht Hin. apply elem_of_app in Hin as [Hin|Hin]; [|by apply (live_ptr kd)].
  apply list_elem_of_fmap in Hin as (kd' & E & Hk). apply H6 in Hk as [Hl' Hr].
  apply (node_inj nib ndata dB0 fl0 i Hi rl HI) in E as ->; [lia|done|done].
Qed.

Lemma free_push us sn t kd : freed_to t us sn -> live n kd -> rank kd = t ->
  wp (push_ sn (ptr kd)) us (fun sn' us' => freed_to (t + 1) us' sn').
Proof.
  intros (dB & fl & K & Hf) Hl Ht. pose proof (live_not_in us sn dB fl K t kd Hf Hl ltac:(lia)) as Hnin.
  destruct Hf as [H1 H2 H3 (sb0 & ->) H5 H6]. destruct (live_ptr kd Hl) as [Hr _]. pose proof Hnin as Hnin'. rewrite <- H2 in Hnin.
  eapply wp_mono; [exact (push_ok nib ndata Hnib Hndata Hsize us _ dB fl (ptr kd) H1 Hr Hnin)|].
  intros sn' us' (dB' & fl' & sb & -> & Hm & Hp & Ho). exists dB', fl', (kd :: K). split.
  - done.
  - etransitivity; [exact Hp|]. cbn [fmap list_fmap app]. by apply Permutation_skip.
  - eapply us_outside_trans; [eapply outside_mono; [|exact H3]; intros x Hx; by right|].
    eapply outside_mono; [|exact Ho]. intros x Hx. cbn [fmap list_fmap app]. apply elem_of_cons in Hx as [->|Hx]; [by left|]. right. by rewrite <- H2.
  - by exists sb.
  - apply NoDup_cons. split; [|done]. intros Hin. apply H6 in Hin. lia.
  - intros kd'. rewrite elem_of_cons, H6. split.
    + intros [->|[A B]]; split; (done || lia).
    + intros [A B]. destruct (decide (rank kd' < t)) as [C|C]; [by right|]. left. eapply (rank_inj n); [apply n_max|done|done|lia].
Qed.

Lemma free_read us sn t kd : freed_to t us sn -> live n kd -> t <= rank kd ->
  wp (us_read (un_abs sn (ptr kd))) us (fun y us' => y = (0, dblk dB0 (ptr kd)) /\ freed_to t us' sn).
Proof.
  intros (dB & fl & K & Hf) Hl Ht. pose proof (live_not_in us sn dB fl K t kd Hf Hl Ht) as Hnin.
  destruct Hf as [H1 H2 H3 H4 H5 H6]. destruct (live_ptr kd Hl) as [Hr _].
  eapply wp_mono; [exact (mid_read_data nib ndata Hnib Hsize us sn dB fl (ptr kd) H1 Hr)|].
  intros y us' [-> Hm]. split; [|by exists dB, fl, K]. f_equal. by apply (outside_dblk nib ndata Hnib _ _ _ _ H3).
Qed.

(** ** The loops *)

Lemma free_direct_ok fuel : forall us sn k, freed_to (4 * k) us sn -> 0 <= k <= 12 -> k <= n -> 12 - k < Z.of_nat fuel ->
  wp (free_direct fuel k sn) us (fun r us' => exists sn', r = (Z.min n 12, sn') /\ freed_to (4 * 12) us' sn').
Proof.
  induction fuel as [|fuel IH]; intros us sn k Hf Hk Hkn Hfu; [lia|]. cbn [free_direct].
  destruct (freed_words us sn _ Hf) as [En Ew]. rewrite En. destruct (decide (k < 12 /\ k < n)) as [[H1 H2]|H].
  - step. rewrite Ew. assert (ptr (KData k) = iword dB0 i (w_direct k)) as <- by (cbn [uptr]; by rewrite decide_True by lia).
    eapply wp_mono; [apply (free_push us sn _ (KData k) Hf); [cbn [live]; lia|done]|]. intros sn' us' Hf'.
    apply IH; [|lia..]. eapply freed_advance; [exact Hf'|lia|]. intros kd Hl. destruct kd; cbn [live rank] in *; unfold unix_max; lia.
  - step. exists sn. split; [f_equal; lia|]. eapply freed_advance; [exact Hf|lia|]. pose proof n_max.
    intros kd Hl. destruct kd; cbn [live rank] in *; unfold unix_max in *; lia.
Qed.

Lemma free_entries_ok base b : 12 <= base -> (forall k, base <= k < base + 256 -> k < n -> ptr (KData k) = entry b (k - base)) ->
  (forall kd, live n kd -> 4 * base <= rank kd < 4 * base + 1021 -> exists k, kd = KData k) ->
  forall fuel us sn k, freed_to (Z.min (4 * k) (4 * base + 1021)) us sn -> base <= k <= base + 256 -> k <= n -> base + 256 - k < Z.of_nat fuel ->
  wp (free_entries fuel base k b sn) us (fun r us' => exists sn', r = (Z.min n (base + 256), sn') /\ freed_to (4 * base + 1021) us' sn').
Proof.
  intros Hbase Hb Hno. induction fuel as [|fuel IH]; intros us sn k Hf Hk Hkn Hfu; [lia|]. cbn [free_entries]. unfold ENTRIES_PER_BLOCK.
  destruct (freed_words us sn _ Hf) as [En Ew]. rewrite En. destruct (decide (k < base + 256 /\ k < n)) as [[H1 H2]|H].
  - step. rewrite <- Hb by lia. eapply wp_mono; [apply (free_push us sn _ (KData k) Hf); [cbn [live]; lia|cbn [rank]; lia]|]. intros sn' us' Hf'.
    apply IH; [|lia..]. eapply freed_advance; [exact Hf'|lia|]. intros kd Hl Hr.
    destruct (decide (rank kd < 4 * base + 1021)) as [H|H]; [|lia]. destruct (Hno kd Hl) as [k' ->]; [lia|]. cbn [rank] in *. lia.
  - step. exists sn. split; [f_equal; lia|]. eapply freed_advance; [exact Hf|lia|]. intros kd Hl Hr.
    destruct (decide (rank kd < 4 * base + 1021)) as [H'|H']; [|lia]. destruct (Hno kd Hl) as [k' ->]; [lia|]. cbn [rank live] in *. lia.
Qed.

Lemma entries_fuel_val : Z.of_nat ENTRIES_FUEL = 257.
Proof. reflexivity. Qed.

Lemma free_indirect_ok base kd us sn : 12 <= base -> base < n -> live n kd -> rank kd = 4 * base + 1021 ->
  (forall k, base <= k < base + 256 -> k < n -> ptr (KData k) = entry (dblk dB0 (ptr kd)) (k - base)) ->
  (forall kd', live n kd' -> 4 * base <= rank kd' < 4 * base + 1021 -> exists k, kd' = KData k) ->
  freed_to (4 * base) us sn ->
  wp (free_indirect (ptr kd) base base sn) us (fun r us' => exists sn', r = Some (Z.min n (base + 256), sn') /\ freed_to (4 * base + 1022) us' sn').
Proof.
  intros Hbase Hn Hl Hr Hb Hno Hf. unfold free_indirect. step.
  eapply wp_mono; [exact (free_read us sn _ kd Hf Hl ltac:(lia))|]. intros y us1 [-> Hf1]. cbn [fst snd]. rewrite decide_False by lia. step.
  eapply wp_mono.
  { apply (free_entries_ok base _ Hbase Hb Hno ENTRIES_FUEL us1 sn base); [|lia|lia|rewrite entries_fuel_val; lia].
    by replace (Z.min (4 * base) (4 * base + 1021)) with (4 * base) by lia. }
  intros r us2 (sn2 & -> & Hf2). cbn [fst snd]. step.
  eapply wp_mono; [exact (free_push us2 sn2 _ kd Hf2 Hl Hr)|]. intros sn3 us3 Hf3. step. exists sn3. split; [done|].
  by replace (4 * base + 1022) with (4 * base + 1021 + 1) by lia.
Qed.

Lemma free_single_ok us sn : freed_to (4 * 12) us sn ->
  wp (free_single (Z.min n 12) sn) us (fun r us' => exists sn', r = Some (Z.min n 268, sn') /\ freed_to (4 * 268 - 2) us' sn').
Proof.
  intros Hf. pose proof n_max as Hn. destruct (freed_words us sn _ Hf) as [En Ew]. unfold free_single, ENTRIES_PER_BLOCK. rewrite En.
  destruct (decide (Z.min n 12 < 256 + 12 /\ Z.min n 12 < n)) as [H|H].
  - rewrite Ew. replace (Z.min n 12) with 12 by lia. apply (free_indirect_ok 12 KSingle us sn); [lia|lia|cbn [live]; lia|done| | |exact Hf].
    + intros k Hk Hkn. cbn [uptr]. rewrite decide_False, decide_True by lia. done.
    + intros [k| | |j] Hl Hr; cbn [rank live] in *; unfold unix_max in *; [by exists k|lia..].
  - step. exists sn. split; [f_equal; f_equal; lia|]. eapply freed_advance; [exact Hf|lia|].
    intros kd Hl. destruct kd; cbn [live rank] in *; unfold unix_max in *; lia.
Qed.

Lemma free_table_ok fuel : forall us sn j, freed_to (4 * (268 + 256 * j) - 2) us sn -> 268 < n -> 0 <= j <= 256 -> 256 - j < Z.of_nat fuel ->
  wp (free_table fuel 268 (Z.min n (268 + 256 * j)) (dblk dB0 (ptr KDouble)) sn) us (fun r us' => exists sn', r = Some (n, sn') /\ freed_to (rank KDouble) us' sn').
Proof.
  induction fuel as [|fuel IH]; intros us sn j Hf Hn Hj Hfu; [lia|]. cbn [free_table]. unfold EPB_2, ENTRIES_PER_BLOCK.
  pose proof n_max as Hmax. destruct (freed_words us sn _ Hf) as [En Ew]. rewrite En.
  destruct (decide (Z.min n (268 + 256 * j) < 268 + 256 * 256 /\ Z.min n (268 + 256 * j) < n)) as [H|H].
  - replace (Z.min n (268 + 256 * j)) with (268 + 256 * j) by lia. cbv zeta.
    replace (268 + 256 * j - 268) with (j * 256) by lia. rewrite Z.div_mul by lia. replace (j * 256) with (256 * j) by lia.
    change (entry (dblk dB0 (ptr KDouble)) j) with (ptr (KSub j)).
    unfold and_then. step. eapply wp_mono.
    { apply (free_indirect_ok (268 + 256 * j) (KSub j) us sn); [lia|lia|cbn [live]; lia|done| | |].
      - intros k Hk Hkn. cbn [uptr]. rewrite !decide_False by lia. replace ((k - 268) / 256) with j by (Z.to_euclidean_division_equations; lia).
        by replace ((k - 268) mod 256) with (k - (268 + 256 * j)) by (Z.to_euclidean_division_equations; lia).
      - intros [k| | |j'] Hl Hr; cbn [rank live] in *; unfold unix_max in *; [by exists k|lia..].
      - eapply freed_advance; [exact Hf|lia|]. intros [k| | |j'] Hl; cbn [rank live] in *; unfold unix_max in *; lia. }
    intros r us1 (sn1 & -> & Hf1). cbn [fst snd]. replace (268 + 256 * j + 256) with (268 + 256 * (j + 1)) by lia.
    apply IH; [|done|lia|lia]. by replace (4 * (268 + 256 * (j + 1)) - 2) with (4 * (268 + 256 * j) + 1022) by lia.
  - step. exists sn. unfold unix_max in *. split; [f_equal; f_equal; lia|]. eapply freed_advance; [exact Hf|cbn [rank]; unfold unix_max; lia|].
    intros [k| | |j'] Hl; cbn [rank live] in *; unfold unix_max in *; lia.
Qed.

Lemma free_double_ok us sn : freed_to (4 * 268 - 2) us sn ->
  wp (free_double (Z.min n 268) sn) us (fun r us' => exists sn', r = Some (n, sn') /\ freed_to (4 * unix_max) us' sn').
Proof.
  intros Hf. pose proof n_max as Hn. destruct (freed_words us sn _ Hf) as [En Ew]. unfold free_double, EPB_2, ENTRIES_PER_BLOCK. rewrite En.
  destruct (decide (Z.min n 268 < 256 * 256 + 256 + 12 /\ Z.min n 268 < n)) as [H|H].
  - rewrite Ew. change (iword dB0 i w_double) with (ptr KDouble). assert (live n KDouble) as Hl by (cbn [live]; lia). step.
    eapply wp_mono; [exact (free_read us sn _ KDouble Hf Hl ltac:(done))|]. intros y us1 [-> Hf1]. cbn [fst snd]. rewrite decide_False by lia.
    unfold and_then. step. eapply wp_mono; [apply (free_table_ok ENTRIES_FUEL us1 sn 0 Hf1); [lia|lia|rewrite entries_fuel_val; lia]|].
    intros r us2 (sn2 & -> & Hf2). cbn [fst snd]. destruct (freed_words us2 sn2 _ Hf2) as [_ Ew2]. rewrite Ew2.
    change (iword dB0 i w_double) with (ptr KDouble). step.
    eapply wp_mono; [exact (free_push us2 sn2 _ KDouble Hf2 Hl eq_refl)|]. intros sn3 us3 Hf3. step. exists sn3. split; [done|].
    eapply freed_advance; [exact Hf3|cbn [rank]; lia|]. intros [k| | |j'] Hl'; cbn [rank live] in *; unfold unix_max in *; lia.
  - step. exists sn. unfold unix_max in *. split; [f_equal; f_equal; lia|]. eapply freed_advance; [exact Hf|lia|].
    intros [k| | |j'] Hl; cbn [rank live] in *; unfold unix_max in *; lia.
Qed.

Lemma freed_all us sn dB fl K t : freeing us sn dB fl K t -> 4 * unix_max <= t -> length fl = (length fl0 + file_blocks n)%nat.
Proof.
  intros [H1 H2 H3 H4 H5 H6] Ht. assert (K ≡ₚ live_kinds n) as E.
  { apply list.NoDup_Permutation; [done|apply live_kinds_nodup|]. intros kd. rewrite H6, live_kinds_spec. pose proof n_max as Hn.
    split; [tauto|]. intros Hl. split; [done|]. destruct kd; cbn [live rank] in *; unfold unix_max in *; lia. }
  rewrite H2, length_app, length_fmap, E. unfold file_blocks. lia.
Qed.

(** ** The inode, and the invariant of the result *)

Record freed (us : st) (dB : vdisk) (fl : list Z) : Prop := {
  fd_repr : R (us_below us) dB;
  fd_inv : exists rl', unix_inv nib ndata rl' fl dB;
  fd_length : length fl = (length fl0 + file_blocks n)%nat;
  fd_size : forall i', valid_inode nib i' -> usize dB i' = if decide (i' = i) then 0 else usize dB0 i';
  fd_content : forall i' k, valid_inode nib i' -> i' <> i -> 0 <= k < usize dB0 i' -> ucontent nib dB i' k = ucontent nib dB0 i' k;
}.

Lemma freed_role x i' kd : valid_inode nib i' -> in_range x -> rl x = UNode i' kd -> i' <> i -> forall K fl t us sn dB,
  freeing us sn dB fl K t -> x ∉ fl /\ dblk dB x = dblk dB0 x.
Proof.
  intros Hi' Hx Hr Hne K fl t us sn dB [H1 H2 H3 H4 H5 H6]. assert (x ∉ (ptr <$> K) ++ fl0) as Hnin.
  { intros Hin. apply elem_of_app in Hin as [Hin|Hin]; [|by rewrite (ui_role _ _ _ _ _ HI _ Hin) in Hr].
    apply list_elem_of_fmap in Hin as (kd' & -> & Hk). apply H6 in Hk as [Hl _].
    destruct (node_ok nib ndata dB0 fl0 i Hi rl HI kd' Hl) as [_ Hr']. rewrite Hr' in Hr. congruence. }
  split; [by rewrite H2|]. by apply (outside_dblk nib ndata Hnib _ _ _ _ H3).
Qed.

Lemma free_finish us sn : freed_to (4 * unix_max) us sn ->
  let sn' := un_set w_nblocks 0 sn in
  wp (us_write (un_inode_blockno sn') (un_inodeblock sn')) us (fun w us' => w = 0 /\ exists dB' fl, freed us' dB' fl).
Proof.
  intros (dB & fl & K & Hf) sn'. pose proof Hf as [[HR Hsup Hfo] H2 H3 (sb & ->) H5 H6]. pose proof (inode_block_range nib i Hi) as Hib.
  assert (own_inode nib dB0 i (un_set_super sb (unix_snapshot_of dB0 i))) as Ho0.
  { split; [done|done|apply blk_wf, HI|]. intros i' w Hi' Hne E Hw. unfold iword. by rewrite E. }
  assert (own_inode nib dB0 i sn') as Ho by (apply own_set; [done|done|unfold w_nblocks; lia]).
  pose proof Ho as [Eno Eidx Hwf Hrest]. rewrite Eno.
  assert (present 0 dB (unix_inode_block i)) as Hpr by (apply (fo_present _ _ _ _ Hfo); lia).
  wp_use (us_write_ok us dB _ _ HR Hpr Hwf) as [-> HR']. split; [done|].
  set (dB' := <[(0, unix_inode_block i):=un_inodeblock sn']> dB) in *. exists dB', fl.
  assert (Forall in_range ((ptr <$> K) ++ fl0)) as Hrange by (rewrite <- H2; apply Hfo).
  assert (usize dB' i = 0) as Esz.
  { unfold usize, dB', iword. rewrite blk_insert_eq. rewrite <- Eidx. apply (own_get nib dB0 i _ w_nblocks 0 w_nblocks Ho0); [unfold w_nblocks; lia..|done]. }
  assert (forall i' w, valid_inode nib i' -> i' <> i -> (w < 16)%nat -> iword dB' i' w = iword dB0 i' w) as Hword.
  { intros i' w Hi' Hne Hw. destruct (decide (unix_inode_block i' = unix_inode_block i)) as [E|E].
    - unfold iword at 1, dB'. rewrite E, blk_insert_eq. by apply Hrest.
    - unfold dB'. rewrite (iword_insert nib) by done. by apply (outside_iword nib ndata ((ptr <$> K) ++ fl0)). }
  assert (forall y, in_range y -> dblk dB' y = dblk dB y) as Hdata by (intros y Hy; by apply (dblk_insert_meta nib ndata); [|lia]).
  assert (forall i' kd, valid_inode nib i' -> i' <> i -> live (usize dB0 i') kd -> uptr nib dB' i' kd = uptr nib dB0 i' kd) as Hptr.
  { intros i' kd Hi' Hne Hl. apply (uptr_frame nib ndata rl dB0 dB' i' (usize dB0 i')); [intros kd' Hl'; by apply (ui_node _ _ _ _ _ HI)| | |done|by apply (ui_size _ _ _ _ _ HI)].
    - intros w Hw. by apply Hword.
    - intros x kd' Hx Hr _. rewrite Hdata by done. by eapply freed_role. }
  assert (forall i', valid_inode nib i' -> i' <> i -> usize dB' i' = usize dB0 i') as Hsz
    by (intros i' Hi' Hne; apply Hword; [done|done|unfold w_nblocks; lia]).
  split; [done| | | |].
  - exists (fun x => if decide (x ∈ fl) then UFree else rl x). split.
    + apply free_ok_insert; [done|lia|done|]. intros x Hx E. pose proof (fo_range _ _ _ _ Hfo) as Hr. rewrite Forall_forall in Hr.
      pose proof (abs_range nib ndata x (Hr x Hx)). lia.
    + intros x Hx. by rewrite decide_True.
    + intros i' Hi'. destruct (decide (i' = i)) as [->|Hne]; [rewrite Esz; unfold unix_max; lia|]. rewrite Hsz by done. by apply (ui_size _ _ _ _ _ HI).
    + intros i' kd Hi' Hl. destruct (decide (i' = i)) as [->|Hne]; [rewrite Esz in Hl; destruct kd; cbn [live] in Hl; lia|].
      rewrite Hsz in Hl by done. rewrite Hptr by done. destruct (ui_node _ _ _ _ _ HI i' kd Hi' Hl) as [A B].
      split; [done|]. destruct (freed_role _ i' kd Hi' A B Hne _ _ _ _ _ _ Hf) as [Hnin _]. by rewrite decide_False.
  - eapply freed_all; [exact Hf|lia].
  - intros i' Hi'. destruct (decide (i' = i)) as [->|Hne]; [done|by apply Hsz].
  - intros i' k Hi' Hne Hk. unfold ucontent. rewrite Hptr by done. destruct (ui_node _ _ _ _ _ HI i' (KData k) Hi' Hk) as [A B].
    rewrite Hdata by done. by eapply freed_role.
Qed.

Lemma unixdisk_free_file_ok us : R (us_below us) dB0 ->
  wp (unixdisk_free_file (unix_snapshot_of dB0 i)) us (fun o us' => o = Some tt /\ exists dB' fl, freed us' dB' fl).
Proof.
  intros HR. pose proof n_max as Hn. assert (freed_to (4 * 0) us (unix_snapshot_of dB0 i)) as H0.
  { exists dB0, fl0, []. split; [split; [done|done|apply HI]|done|done| |apply NoDup_nil_2|].
    - by exists (ublk dB0 0).
    - intros kd. rewrite elem_of_nil. split; [done|]. intros [Hl Hr]. destruct kd; cbn [live rank] in *; unfold unix_max in *; lia. }
  unfold unixdisk_free_file. step.
  eapply wp_mono; [apply (free_direct_ok 13 us _ 0 H0); lia|]. intros r us1 (sn1 & -> & H1). cbn [fst snd]. unfold and_then at 1. step.
  eapply wp_mono; [exact (free_single_ok us1 sn1 H1)|]. intros r us2 (sn2 & -> & H2). cbn [fst snd]. unfold and_then at 1. step.
  eapply wp_mono; [exact (free_double_ok us2 sn2 H2)|]. intros r us3 (sn3 & -> & H3). cbn [fst snd]. unfold and_then at 1, free_triple.
  destruct (freed_words us3 sn3 _ H3) as [En _]. rewrite decide_False by lia. do 2 step. cbn [fst snd]. rewrite En. step.
  apply wp_assert; [by apply bool_decide_eq_true_2|]. step. eapply wp_mono; [exact (free_finish us3 sn3 H3)|]. intros w us4 [-> Hd].
  step. by rewrite decide_False by lia.
Qed.
End free.
