(* ===== verification/UnixCreate.v ===== *)
(** unixdisk.c: creating a file system. *)
From stdpp Require Import base numbers list gmap.
From Stdlib Require Import ZArith Lia Permutation.
From S2P Require Import Prelude BlockStore TreeDisk TreeInv TreeSpec TreeCreate UnixDisk UnixInv UnixSpec UnixFile.

(** ** One block of the free list *)

Lemma fill_entries_ok n : forall j first b, block_wf b -> 0 <= j -> (Z.to_nat j + n <= 254)%nat -> 0 <= first -> first + Z.of_nat n < two32 ->
  block_wf (fill_entries n j first b) /\
  (forall w, (w < 256)%nat -> ~ (2 + j <= Z.of_nat w < 2 + j + Z.of_nat n) -> get32 (fill_entries n j first b) w = get32 b w) /\
  (forall k, (k < n)%nat -> get32 (fill_entries n j first b) (2 + Z.to_nat j + k) = first + Z.of_nat k).
Proof.
  induction n as [|n IH]; intros j first b Hb Hj Hn Hf Hu; cbn [fill_entries]; [split_and!; [done|done|lia]|].
  assert (fb_entry_word j < 256)%nat as Hw by (unfold fb_entry_word; lia).
  assert (block_wf (set32 b (fb_entry_word j) first)) as Hb' by (by apply set32_wf). rewrite (u32_small (first + 1)) by (unfold is_u32; lia).
  destruct (IH (j + 1) (first + 1) _ Hb') as (H1 & H2 & H3); [lia..|]. split_and!; [done| |].
  - intros w Hw' Hne. rewrite H2 by lia. apply get32_set32_ne; [done|done|unfold fb_entry_word; lia].
  - intros [|k] Hk.
    + rewrite H2 by lia. replace (2 + Z.to_nat j + 0)%nat with (fb_entry_word j) by (unfold fb_entry_word; lia).
      rewrite get32_set32_eq by (done || unfold is_u32; lia). lia.
    + replace (2 + Z.to_nat j + Datatypes.S k)%nat with (2 + Z.to_nat (j + 1) + k)%nat by lia. rewrite H3 by lia. lia.
Qed.

(** A block of the list with [n] entries, after its own number [h]. *)
Lemma freeblock_ok n h next b : block_wf b -> (n <= 254)%nat -> 0 <= h -> h + 1 + Z.of_nat n < two32 -> is_u32 next ->
  let b' := set_freeblock (Z.of_nat n) next (fill_entries n 0 (h + 1) b) in
  block_wf b' /\ fb_next b' = next /\ h :: uentries b' n = seqZ h (1 + Z.of_nat n).
Proof.
  intros Hb Hn Hh Hu Hnext b'. destruct (fill_entries_ok n 0 (h + 1) b Hb) as (H1 & _ & H3); [lia..|].
  assert (block_wf (set32 (fill_entries n 0 (h + 1) b) 0 (Z.of_nat n))) as H0 by (apply set32_wf; [done|lia]).
  split_and!; [apply set32_wf; [done|lia]|unfold fb_next; by apply get32_set32_eq; [|lia|]|].
  rewrite seqZ_cons by lia. f_equal. replace (Z.pred (1 + Z.of_nat n)) with (Z.of_nat n) by lia. unfold uentries, seqZ. rewrite Nat2Z.id.
  apply list_fmap_ext. intros k j Hj. apply lookup_seq in Hj as [-> Hj]. cbn [Nat.add].
  unfold b', set_freeblock. rewrite !get32_set32_ne by (done || lia). change (S (S k)) with (2 + Z.to_nat 0 + k)%nat. rewrite H3 by done. lia.
Qed.

Section create.
Context {S : Type} {R : S -> vdisk -> Prop} `{!BlockStore S, !Lawful S R}.
Context (nib ndata : Z) (Hnib : 1 <= nib) (Hndata : 0 <= ndata) (Hsize : 1 + nib + ndata <= two32 - 1).
Abbreviation dblk := (dblk nib).
Abbreviation ufree := (ufree nib ndata).

(** ** The blocks of the free list after the first *)

Context (total rem : Z) (Htotal : 0 <= total) (Hrem : 0 < rem < 255) (Hdata : ndata = total * 255 + rem).

Definition list_head (i : Z) : Z := if decide (i = total) then minus1_u else i * 255 + rem.

Lemma list_head_u32 i : 0 <= i <= total -> is_u32 (list_head i).
Proof. intros Hi. unfold list_head, is_u32, minus1_u, two32 in *. destruct (decide (i = total)); nia. Qed.

Lemma unix_free_blocks_ok n : forall s dB i fb, R s dB -> block_wf fb -> 0 <= i -> i + Z.of_nat n = total ->
  (forall m, 0 <= m < 1 + nib + ndata -> present 0 dB m) ->
  wp (unix_free_blocks n total 0 nib rem i fb) s (fun ok s' => ok = true /\ exists dB', R s' dB' /\ same_dom dB dB' /\
    ufree dB' (list_head i) 254 (seqZ (i * 255 + rem) (255 * Z.of_nat n)) /\
    forall m, m < i * 255 + rem + 1 + nib -> blk 0 dB' m = blk 0 dB m).
Proof.
  induction n as [|n IH]; intros s dB i fb HR Hfb Hi Hn Hp; cbn [unix_free_blocks].
  { step. split; [done|]. exists dB. unfold list_head. rewrite decide_True by lia. split_and!; [done|done| |done]. constructor. }
  unfold ENTRIES_PER_FREE_BLOCK. cbv zeta. change (254 + 1) with 255. unfold two32 in *.
  assert (0 <= i * 255 + rem /\ i * 255 + rem + 254 < ndata) as [Hh Hh2] by nia.
  rewrite (u32_small (i * 255 + rem)), (u32_small (i * 255 + rem + 1)), (u32_small (i * 255 + rem + 1 + nib)) by (unfold is_u32, two32; lia).
  set (h := i * 255 + rem) in *.
  assert ((if decide (i = total - 1) then minus1_u else u32 ((i + 1) * 255 + rem)) = list_head (i + 1)) as ->.
  { unfold list_head. destruct (decide (i = total - 1)), (decide (i + 1 = total)); [done|lia..|]. apply u32_small. unfold is_u32, two32. nia. }
  change (Z.to_nat 254) with 254%nat. destruct (freeblock_ok 254 h (list_head (i + 1)) fb Hfb) as (W & E1 & E2); [lia|lia|unfold two32; lia|apply list_head_u32; lia|].
  change (Z.of_nat 254) with 254 in *. set (b := set_freeblock _ _ _) in *.
  assert (present 0 dB (h + 1 + nib)) as Hph by (apply Hp; lia). step.
  wp_use (store_write_ok 0 s dB (h + 1 + nib) b HR Hph W) as [-> HR1]. rewrite decide_False by lia.
  eapply wp_mono; [apply (IH _ _ (i + 1) b HR1 W)|].
  - lia.
  - lia.
  - intros m Hm. apply present_insert; [done|by apply Hp].
  - intros ok s2 (-> & dB' & HR' & Hd & Hf & Hsame). split; [done|]. exists dB'. split; [done|].
    split; [etransitivity; [|exact Hd]; by apply same_dom_insert|].
    assert (dblk dB' h = b) as Eb by (unfold UnixInv.dblk; rewrite Hsame by lia; apply blk_insert_eq). split.
    + unfold list_head. rewrite decide_False by lia. fold h.
      replace (255 * Z.of_nat (Datatypes.S n)) with ((1 + 254) + 255 * Z.of_nat n) by lia. rewrite seqZ_app by lia.
      rewrite <- E2. cbn [app]. rewrite <- Eb. constructor; [unfold in_range; lia|lia|]. rewrite Eb, E1.
      by replace (h + (1 + 254)) with ((i + 1) * 255 + rem) by lia.
    + intros m Hm. rewrite Hsame by lia. apply blk_insert_ne. lia.
Qed.

(** ** The whole *)

Lemma unix_clear_inodes_eq n b i : unix_clear_inodes n b i = clear_inodes n b i.
Proof. reflexivity. Qed.

Lemma unix_empty_files dB fl : free_ok nib ndata dB fl -> (forall m, 1 <= m <= nib -> blk 0 dB m = null_block) ->
  unix_files nib ndata fl (f_empty (nib * 16)) dB.
Proof.
  intros Hf Hnull. assert (forall i, valid_inode nib i -> usize dB i = 0) as Hsz.
  { intros i Hi. unfold usize, iword. rewrite Hnull by (by apply inode_block_range). apply get32_null. }
  split; [done|]. exists (fun _ => UFree). split.
  - split; [done|done| |].
    + intros i Hi. rewrite Hsz by done. unfold unix_max. lia.
    + intros i kd Hi Hl. rewrite Hsz in Hl by done. destruct kd; cbn [live] in Hl; lia.
  - intros i Hi. rewrite Hsz by done. split; [done|]. cbn [f_empty f_size]. lia.
Qed.
End create.

Lemma unixdisk_create_ok {S} {R : S -> vdisk -> Prop} `{!BlockStore S, !Lawful S R} (s : S) (dB : vdisk) (nblocks ninodes : Z) (junk : block) :
  R s dB -> size_of dB 0 nblocks -> nblocks < 2147483648 -> 1 <= ninodes -> ninodes + 15 < two32 -> block_wf junk ->
  let nib := (ninodes + 15) / 16 in
  nib + 1 < nblocks -> (nblocks - nib - 1) mod 255 <> 0 -> us_n_inodeblocks (blk 0 dB 0) = 0 ->
  wp (unixdisk_create junk 0 ninodes) s (fun r s' => r = 0 /\ exists dB' fl,
    R s' dB' /\ unix_files nib (nblocks - nib - 1) fl (f_empty (nib * 16)) dB' /\
    fl = seqZ 0 (nblocks - nib - 1) /\ same_dom dB dB').
Proof.
  intros HR Hsz Hnb Hin1 Hin Hjunk nib Hroom Hrem H0. unfold unixdisk_create, UNIX_INODES_PER_BLOCK, ENTRIES_PER_FREE_BLOCK.
  replace (ninodes + 16 - 1) with (ninodes + 15) by lia. fold nib.
  assert (1 <= nib < two32 - 1) as Hnib.
  { unfold nib, two32 in *. Z.to_euclidean_division_equations; lia. }
  rewrite (u32_small nib) by (unfold is_u32; lia).
  assert (forall n, 0 <= n < nblocks -> present 0 dB n) as Hp by (intros n Hn; by apply Hsz).
  assert (present 0 dB 0) as Hp0 by (apply Hp; lia). assert (vdisk_wf dB) as Hwf by (by eapply law_wf). step.
  wp_use (law_read s dB 0 0 (blk 0 dB 0) null_block HR) as [-> HR1]; [by apply blk_present|apply null_block_wf|].
  cbn [fst snd]. rewrite (decide_False (P := 0 < 0)) by lia. rewrite H0. rewrite (decide_False (P := 0 <> 0)) by lia.
  step. rewrite unix_clear_inodes_eq. wp_use (clear_inodes_ok 0 (Z.to_nat nib) _ dB 1 HR1) as (-> & dB1 & HR2 & Hd1 & Hb1).
  { intros m Hm. apply Hp. lia. }
  rewrite decide_False by done. step.
  wp_use (law_getsize _ dB1 0 nblocks HR2) as [-> HR3]; [by eapply same_dom_size_of|lia|].
  rewrite (u32_small nblocks) by (unfold is_u32, two32 in *; lia). rewrite (u32_small (nblocks - nib - 1)) by (unfold is_u32, two32 in *; lia).
  set (ndata := nblocks - nib - 1) in *. change (254 + 1) with 255. set (rem := ndata mod 255) in *. rewrite decide_False by done.
  set (total := ndata / 255). assert (ndata = total * 255 + rem /\ 0 <= rem < 255 /\ 0 <= total) as (Edata & Hr & Ht).
  { unfold total, rem. pose proof (Z.div_mod ndata 255). pose proof (Z.mod_pos_bound ndata 255). pose proof (Z.div_pos ndata 255). unfold ndata in *. lia. }
  assert (0 < ndata /\ 1 + nib + ndata <= two32 - 1) as [Hnd Hsize] by (unfold ndata, two32 in *; lia).
  assert (0 < rem < 255) as Hr' by lia. clearbody rem total.
  assert ((if decide (ndata > rem) then rem else minus1_u) = list_head total rem 0) as ->.
  { unfold list_head. destruct (decide (ndata > rem)), (decide (0 = total)); (done || lia). }
  assert (exists n, rem - 1 = Z.of_nat n) as [n En] by (exists (Z.to_nat (rem - 1)); lia). rewrite En, Nat2Z.id.
  destruct (freeblock_ok n 0 (list_head total rem 0) junk Hjunk) as (W0 & E1 & E2); [lia|lia|unfold two32; lia|apply (list_head_u32 nib ndata ltac:(lia) Hsize total rem Hr' Edata); lia|].
  change (0 + 1) with 1 in *. set (b0 := set_freeblock _ _ _) in *.
  rewrite (u32_small (nib + 1)) by (unfold is_u32, two32 in *; lia).
  assert (forall n, 0 <= n < 1 + nib + ndata -> present 0 dB1 n) as Hp1 by (intros m Hm; apply Hd1, Hp; unfold ndata in Hm; lia).
  assert (present 0 dB1 (nib + 1)) as Hpb by (apply Hp1; lia). step.
  wp_use (store_write_ok 0 _ dB1 (nib + 1) b0 HR3 Hpb W0) as [-> HR4]. rewrite decide_False by lia. step.
  set (dB2 := <[(0, nib + 1):=b0]> dB1) in *. assert (same_dom dB1 dB2) as Hd2 by (by apply same_dom_insert).
  wp_use (unix_free_blocks_ok nib ndata ltac:(lia) Hsize total rem Hr' Edata (Z.to_nat total) _ dB2 0 b0 HR4 W0)
    as (-> & dB3 & HR5 & Hd3 & Hf3 & Hb3); [lia|lia|intros m Hm; apply Hd2; by apply Hp1|].
  rewrite decide_False by done.
  assert (block_wf (blk 0 dB 0)) as Hwsb by (by apply blk_wf).
  assert (block_wf (set32 (set32 (blk 0 dB 0) 0 nib) 1 0)) as W1 by (apply set32_wf; [apply set32_wf; [done|lia]|lia]).
  assert (block_wf (set32 (blk 0 dB 0) 0 nib)) as W1' by (apply set32_wf; [done|lia]).
  set (sb := set32 (set32 (set32 _ _ _) _ _) _ _) in *. assert (block_wf sb) as Wsb by (apply set32_wf; [done|lia]).
  assert (present 0 dB3 0) as Hp3 by (apply Hd3, Hd2, Hp1; lia). step.
  wp_use (store_write_ok 0 _ dB3 0 sb HR5 Hp3 Wsb) as [-> HR6]. step. split; [done|].
  exists (<[(0, 0):=sb]> dB3), (seqZ 0 ndata). split; [done|]. split; [|split; [done|]].
  - apply unix_empty_files.
    + apply (free_ok_super nib ndata ltac:(lia) ltac:(lia) dB3 _ sb n); [by eapply law_wf|intros m Hm; apply Hd3, Hd2; by apply Hp1|done| | | |apply NoDup_seqZ|].
      * unfold us_n_inodeblocks, sb. rewrite !get32_set32_ne by (done || lia). apply get32_set32_eq; [done|lia|unfold is_u32, two32 in *; lia].
      * unfold us_free_offset, sb. apply get32_set32_eq; [done|lia|unfold is_u32, two32 in *; lia].
      * unfold us_free_list, sb. rewrite get32_set32_ne by (done || lia). rewrite get32_set32_eq by (done || lia || split; done).
        assert (dblk nib dB3 0 = b0) as Eb by (unfold UnixInv.dblk; rewrite Hb3 by lia; replace (0 + 1 + nib) with (nib + 1) by lia; apply blk_insert_eq).
        replace (seqZ 0 ndata) with (seqZ 0 (1 + Z.of_nat n) ++ seqZ (0 * 255 + rem) (255 * Z.of_nat (Z.to_nat total))).
        2:{ replace ndata with ((1 + Z.of_nat n) + 255 * Z.of_nat (Z.to_nat total)) by lia. rewrite (seqZ_app 0 (1 + Z.of_nat n)) by lia. by replace (0 * 255 + rem) with (0 + (1 + Z.of_nat n)) by lia. }
        rewrite <- E2, <- Eb. cbn [app]. constructor; [unfold in_range; lia|lia|]. rewrite Eb, E1. exact Hf3.
      * apply Forall_forall. intros x Hx. apply elem_of_seqZ in Hx. unfold in_range. lia.
    + intros m Hm. rewrite blk_insert_ne by lia. rewrite Hb3 by lia. unfold dB2. rewrite blk_insert_ne by lia. rewrite Hb1. by rewrite decide_True by lia.
  - etransitivity; [exact Hd1|]. etransitivity; [exact Hd2|]. etransitivity; [exact Hd3|]. by apply same_dom_insert.
Qed.
