(* ===== verification/UnixProps.v ===== *)
(** The properties of the Unix file system, for its clients: sequences of operations
    against the abstract files, and what happens at the limits. *)
From stdpp Require Import base numbers list gmap.
From Stdlib Require Import ZArith Lia Permutation.
From S2P Require Import Prelude BlockStore RamDisk TreeInv TreeSpec TreeFree TreeCreate TreeProps UnixDisk UnixInv UnixSpec UnixAlloc UnixFile UnixFree UnixCreate.

(** * The room that files take *)

Definition used (f : files) : nat := sum_list ((fun i => file_blocks (f_size f i)) <$> seqZ 0 (f_ninodes f)).

Lemma sum_list_update (F G : Z -> nat) (ino : Z) (l : list Z) : NoDup l -> ino ∈ l -> (forall i, i <> ino -> G i = F i) ->
  (sum_list (G <$> l) + F ino = sum_list (F <$> l) + G ino)%nat.
Proof.
  intros Hnd Hin Hsame. induction Hnd as [|x l Hx Hnd IH]; [by apply elem_of_nil in Hin|]. cbn [fmap list_fmap sum_list_with id].
  assert (ino ∉ l -> sum_list (G <$> l) = sum_list (F <$> l)) as Hrest.
  { clear -Hsame. induction l as [|y l IH]; intros H; [done|]. apply not_elem_of_cons in H as [Hne H]. cbn [fmap list_fmap sum_list_with id].
    rewrite IH, Hsame by done. done. }
  apply elem_of_cons in Hin as [<-|Hin]; [rewrite Hrest by done; lia|].
  specialize (IH Hin). rewrite (Hsame x) by (intros ->; done). lia.
Qed.

Lemma used_update f g ino : f_ninodes g = f_ninodes f -> 0 <= ino < f_ninodes f -> (forall i, i <> ino -> f_size g i = f_size f i) ->
  (used g + file_blocks (f_size f ino) = used f + file_blocks (f_size g ino))%nat.
Proof.
  intros En Hi Hsame. unfold used. rewrite En.
  apply (sum_list_update (fun i => file_blocks (f_size f i)) (fun i => file_blocks (f_size g i)) ino); [apply NoDup_seqZ|apply elem_of_seqZ; lia|].
  intros i Hne. by rewrite Hsame.
Qed.

Lemma used_write f ino off b : 0 <= ino < f_ninodes f -> 0 <= off -> off <= f_size f ino ->
  used (f_write f ino off b) = (used f + unix_needed f ino off)%nat.
Proof.
  intros Hi Ho Hh. pose proof (used_update f (f_write f ino off b) ino eq_refl Hi) as H. cbn [f_write f_size] in H.
  rewrite (decide_True (P := ino = ino)) in H by done. unfold unix_needed. destruct (decide (off < f_size f ino)) as [Hlt|Hge].
  - rewrite Z.max_l in H by lia. specialize (H ltac:(intros i Hne; by rewrite decide_False)). lia.
  - assert (off = f_size f ino) as -> by lia. rewrite Z.max_r, file_blocks_S in H by lia.
    specialize (H ltac:(intros i Hne; by rewrite decide_False)). lia.
Qed.

Lemma used_truncate f ino : 0 <= ino < f_ninodes f -> (used (f_truncate f ino) + file_blocks (f_size f ino) = used f)%nat.
Proof.
  intros Hi. pose proof (used_update f (f_truncate f ino) ino eq_refl Hi) as H. cbn [f_truncate f_size] in H.
  rewrite (decide_True (P := ino = ino)) in H by done. change (file_blocks 0) with 0%nat in H.
  specialize (H ltac:(intros i Hne; by rewrite decide_False)). lia.
Qed.

Lemma used_empty n : used (f_empty n) = 0%nat.
Proof.
  unfold used. cbn [f_empty f_ninodes f_size]. change (file_blocks 0) with 0%nat. induction (seqZ 0 n) as [|x l IH]; [done|exact IH].
Qed.

(** * Sequences of operations *)

Definition unix_exec_op {S} `{!BlockStore S} (o : fs_op) : M (unixdisk_state S) reply :=
  match o with
  | OpRead ino off => x ← unixdisk_read ino off null_block; mret (Data x.1 x.2)
  | OpWrite ino off b => r ← unixdisk_write ino off b; mret (Status r)
  | OpTruncate ino => r ← unixdisk_setsize ino 0; mret (Status r)
  | OpGetsize ino => r ← unixdisk_getsize ino; mret (Status r)
  end.

Fixpoint unix_exec_ops {S} `{!BlockStore S} (os : list fs_op) : M (unixdisk_state S) (list reply) :=
  match os with
  | [] => mret []
  | o :: os => r ← unix_exec_op o; rs ← unix_exec_ops os; mret (r :: rs)
  end.

(** The same as for the tree file system, except for the reply to a truncation. *)
Definition unix_spec_op (f : files) (o : fs_op) : reply * files :=
  match o with
  | OpTruncate ino => (Status 0, f_truncate f ino)
  | _ => spec_op f o
  end.

Fixpoint unix_spec_ops (f : files) (os : list fs_op) : list reply * files :=
  match os with
  | [] => ([], f)
  | o :: os =>
      let '(r, f1) := unix_spec_op f o in
      let '(rs, f2) := unix_spec_ops f1 os in (r :: rs, f2)
  end.

(** Operations within the limits, for a disk with [ndata] data blocks: writes leave no
    holes, and the files fit. *)
Definition unix_valid_op (ndata : Z) (f : files) (o : fs_op) : Prop :=
  match o with
  | OpRead ino off => is_u32 ino /\ is_u32 off
  | OpWrite ino off b => 0 <= ino < f_ninodes f /\ is_u32 ino /\ 0 <= off /\ off <= f_size f ino /\ off < unix_max /\ block_wf b /\
      Z.of_nat (used (f_write f ino off b)) <= ndata
  | OpTruncate ino => 0 <= ino < f_ninodes f /\ is_u32 ino
  | OpGetsize ino => is_u32 ino
  end.

Fixpoint unix_valid_ops (ndata : Z) (f : files) (os : list fs_op) : Prop :=
  match os with
  | [] => True
  | o :: os => unix_valid_op ndata f o /\ unix_valid_ops ndata (unix_spec_op f o).2 os
  end.

Section ops.
Context {S : Type} {R : S -> vdisk -> Prop} `{!BlockStore S, !Lawful S R}.
Abbreviation st := (unixdisk_state S).
Context (nib ndata : Z) (Hnib : 1 <= nib) (Hndata : 0 <= ndata) (Hsize : 1 + nib + ndata <= two32 - 1).
Abbreviation repr := (unix_repr (R:=R) nib ndata).

Lemma unixdisk_setsize_ok (us : st) fl f ino n : repr us fl f -> is_u32 ino -> ino < f_ninodes f -> is_u32 n ->
  wp (unixdisk_setsize ino n) us (fun r us' => exists fl',
    if decide (n = 0) then r = 0 /\ repr us' fl' (f_truncate f ino) /\ length fl' = (length fl + file_blocks (f_size f ino))%nat
    else fl' = fl /\ repr us' fl f /\ r = if decide (n = f_size f ino) then i32 n else -1).
Proof.
  intros (dB & HR & Hfn & rl & HI & Hf) Hu Hi Hnu. unfold unixdisk_setsize. step.
  eapply wp_mono; [exact (unix_get_snapshot_ok nib ndata Hnib Hndata Hsize us dB fl ino HR (ui_free _ _ _ _ _ HI) Hu)|].
  intros o us1 [-> HR1]. rewrite decide_True by lia. assert (valid_inode nib ino) as Hv by (split; [apply Hu|lia]).
  destruct (Hf ino Hv) as [Esz Hdata]. change (un_nblocks (unix_snapshot_of dB ino)) with (usize dB ino). rewrite Esz.
  assert (forall us', R (us_below us') dB -> repr us' fl f) as Hrep by (intros us' H; exists dB; split; [done|]; split; [done|by exists rl]).
  destruct (decide (n = f_size f ino)) as [E|E].
  - step. exists fl. destruct (decide (n = 0)) as [->|H0]; [|by auto]. rewrite <- E. split; [done|]. split; [|change (file_blocks 0) with 0%nat; lia].
    exists dB. split; [done|]. split; [done|]. exists rl. split; [done|]. intros i' Hi'. cbn [f_truncate f_size f_data].
    destruct (decide (i' = ino)) as [->|Hne]; [split; [congruence|lia]|by apply Hf].
  - destruct (decide (n > 0)) as [Hpos|Hz]; [step; exists fl; rewrite decide_False by lia; auto|].
    assert (n = 0) as -> by (destruct Hnu; lia). step.
    eapply wp_mono; [exact (unixdisk_free_file_ok nib ndata Hnib Hndata Hsize dB fl ino Hv rl HI us1 HR1)|].
    intros o us2 (-> & dB' & fl' & [H1 (rl' & H2) H3 H4 H5]). step. exists fl'. rewrite decide_True by done. split; [done|]. split; [|by rewrite <- Esz].
    exists dB'. split; [done|]. split; [done|]. exists rl'. split; [done|]. intros i' Hi'. cbn [f_truncate f_size f_data].
    rewrite H4 by done. destruct (decide (i' = ino)) as [->|Hne]; [split; [done|lia]|]. destruct (Hf i' Hi') as [E1 E2].
    split; [done|]. intros k Hk. rewrite H5 by (done || lia). by apply E2.
Qed.

Lemma unix_exec_op_ok (us : st) fl f o : repr us fl f -> Z.of_nat (length fl + used f) = ndata -> unix_valid_op ndata f o ->
  wp (unix_exec_op o) us (fun r us' => r = (unix_spec_op f o).1 /\ exists fl',
    repr us' fl' (unix_spec_op f o).2 /\ Z.of_nat (length fl' + used (unix_spec_op f o).2) = ndata).
Proof.
  intros Hr Hroom Hv. destruct o as [ino off|ino off b|ino|ino]; cbn [unix_exec_op unix_spec_op spec_op fst snd]; step.
  - destruct Hv as [Hi Ho]. eapply wp_mono; [exact (unixdisk_read_ok nib ndata Hnib Hndata Hsize us fl f ino off null_block Hr Hi Ho null_block_wf)|].
    intros x us' [Hr' ->]. step. split; [by destruct (decide _)|]. by exists fl.
  - destruct Hv as (Hi & Hu & Ho & Hh & Hmax & Hw & Hfit). rewrite used_write in Hfit |- * by done.
    eapply wp_mono; [apply (unixdisk_write_ok nib ndata Hnib Hndata Hsize us fl f ino off b Hr Hu); (done || lia)|].
    intros r us' [-> (fl' & Hr' & Hl)]. step. split; [done|]. exists fl'. split; [done|]. lia.
  - destruct Hv as [Hi Hu]. eapply wp_mono; [apply (unixdisk_setsize_ok us fl f ino 0 Hr Hu); [lia|done]|].
    intros r us' (fl' & H). rewrite decide_True in H by done. destruct H as (-> & Hr' & Hl). step. split; [done|]. exists fl'. split; [done|].
    pose proof (used_truncate f ino Hi). lia.
  - eapply wp_mono; [exact (unixdisk_getsize_ok nib ndata Hnib Hndata Hsize us fl f ino Hr Hv)|].
    intros r us' [Hr' ->]. step. split; [done|]. by exists fl.
Qed.

Lemma unix_exec_ops_ok os : forall (us : st) fl f, repr us fl f -> Z.of_nat (length fl + used f) = ndata -> unix_valid_ops ndata f os ->
  wp (unix_exec_ops os) us (fun rs us' => rs = (unix_spec_ops f os).1 /\ exists fl', repr us' fl' (unix_spec_ops f os).2 /\
    Z.of_nat (length fl' + used (unix_spec_ops f os).2) = ndata).
Proof.
  induction os as [|o os IH]; intros us fl f Hr Hroom Hv; cbn [unix_exec_ops unix_spec_ops]; step; [by eauto|].
  destruct Hv as [Hv1 Hv2]. eapply wp_mono; [exact (unix_exec_op_ok us fl f o Hr Hroom Hv1)|]. intros r us1 (-> & fl1 & Hr1 & Hroom1).
  destruct (unix_spec_op f o) as [r f1]. cbn [fst snd] in *. step. eapply wp_mono; [exact (IH us1 fl1 f1 Hr1 Hroom1 Hv2)|].
  intros rs us2 (-> & fl2 & Hr2 & Hroom2). step. destruct (unix_spec_ops f1 os) as [rs f2]. by eauto.
Qed.
End ops.

(** * Properties *)


(** When the number of data blocks is a multiple of 255, creating a Unix file
    system has undefined behaviour: the loop over the entries of the first block of
    the free list has [n_remainder - 1] rounds, which is 2^32 - 1. *)
Lemma unixdisk_create_undef {S} {R : S -> vdisk -> Prop} `{!BlockStore S, !Lawful S R} (s : S) (dB : vdisk) (nblocks ninodes : Z) (junk : block) :
  R s dB -> size_of dB 0 nblocks -> nblocks < 2147483648 -> 1 <= ninodes -> ninodes + 15 < two32 ->
  let nib := (ninodes + 15) / 16 in
  nib < nblocks -> (nblocks - nib - 1) mod 255 = 0 -> us_n_inodeblocks (blk 0 dB 0) = 0 ->
  unixdisk_create junk 0 ninodes s = Undef.
Proof.
  intros HR Hsz Hnb Hin1 Hin nib Hroom Hrem H0. unfold unixdisk_create, UNIX_INODES_PER_BLOCK, ENTRIES_PER_FREE_BLOCK.
  replace (ninodes + 16 - 1) with (ninodes + 15) by lia. fold nib.
  assert (1 <= nib < two32 - 1) as Hnib by (unfold nib, two32 in *; Z.to_euclidean_division_equations; lia).
  rewrite (u32_small nib) by (unfold is_u32; lia).
  assert (forall n, 0 <= n < nblocks -> present 0 dB n) as Hp by (intros n Hn; by apply Hsz).
  assert (vdisk_wf dB) as Hwf by (by eapply law_wf). assert (present 0 dB 0) as Hp0 by (apply Hp; lia).
  eapply wp_bind_ends.
  { apply (law_read s dB 0 0 (blk 0 dB 0) null_block HR); [by apply blk_present|apply null_block_wf]. }
  intros x s1 [-> HR1]. cbn [fst snd]. rewrite (decide_False (P := 0 < 0)) by lia. rewrite H0. rewrite (decide_False (P := 0 <> 0)) by lia.
  eapply wp_bind_ends.
  { rewrite unix_clear_inodes_eq. apply (clear_inodes_ok 0 (Z.to_nat nib) _ dB 1 HR1). intros m Hm. apply Hp. lia. }
  intros ok s2 (-> & dB1 & HR2 & Hd1 & Hb1). rewrite decide_False by done.
  eapply wp_bind_ends; [apply (law_getsize _ dB1 0 nblocks HR2); [by eapply same_dom_size_of|lia]|]. intros r s3 [-> HR3].
  rewrite (u32_small nblocks) by (unfold is_u32, two32 in *; lia). rewrite (u32_small (nblocks - nib - 1)) by (unfold is_u32, two32 in *; lia).
  change (254 + 1) with 255. by rewrite decide_True.
Qed.

Section full.
Context {S : Type} {R : S -> vdisk -> Prop} `{!BlockStore S, !Lawful S R}.
Abbreviation st := (unixdisk_state S).
Context (nib ndata : Z) (Hnib : 1 <= nib) (Hndata : 0 <= ndata) (Hsize : 1 + nib + ndata <= two32 - 1).
Abbreviation repr := (unix_repr (R:=R) nib ndata).

Lemma popfree_full (us : st) sn dB : free_ok nib ndata dB [] -> un_superblock sn = blk 0 dB 0 ->
  wp (unixdisk_popfree sn) us (fun r us' => r = (minus1_u, sn) /\ us' = us).
Proof.
  intros Hf Hs. destruct (fo_list _ _ _ _ Hf) as (o & _ & Hl). apply ufree_cases in Hl as [(E & _)|(_ & _ & fl0 & E & _)]; [|done].
  unfold unixdisk_popfree. rewrite Hs, E, decide_True by done. by step.
Qed.

(** Without a free block the pointer of the new block is -1. *)
Lemma alloc_full (us : st) dB rl ino : R (us_below us) dB -> unix_inv nib ndata rl [] dB -> valid_inode nib ino -> usize dB ino < 12 ->
  wp (unixdisk_alloc (unix_snapshot_of dB ino) (usize dB ino)) us (fun o us' => exists sn,
    o = Some sn /\ un_superblock sn = blk 0 dB 0 /\ un_get sn (w_direct (usize dB ino)) = minus1_u /\ block_wf (un_inodeblock sn) /\
    R (us_below us') (<[(0, unix_inode_block ino):=un_inodeblock sn]> dB)).
Proof.
  intros HR HI Hv Hsz. pose proof (usize_range dB ino) as H0. pose proof (ui_free _ _ _ _ _ HI) as Hfree. set (sn := unix_snapshot_of dB ino).
  assert (own_inode nib dB ino sn) as Ho.
  { split; [done|done|apply blk_wf, HI|]. intros i' w Hi' Hne E Hw. unfold iword. by rewrite E. }
  unfold unixdisk_alloc. change (un_nblocks sn) with (usize dB ino). set (n := usize dB ino) in *.
  assert (w_direct n < 16)%nat as Hw by (unfold w_direct; lia). assert (is_u32 minus1_u) as Hm1 by done.
  step. apply wp_assert; [by apply bool_decide_eq_true_2; lia|]. step.
  destruct direct_fuel as [k ->]. cbn [alloc_direct]. rewrite decide_True by lia. step.
  eapply wp_mono; [exact (popfree_full us sn dB Hfree eq_refl)|]. intros r us2 [-> ->]. cbn [fst snd]. rewrite decide_False by lia. step.
  cbn [fst snd]. unfold and_then, alloc_single, alloc_double, alloc_triple, ENTRIES_PER_BLOCK, EPB_2, EPB_3.
  do 3 (rewrite decide_False by lia; do 2 step; cbn [fst snd]).
  set (sn1 := un_set (w_direct n) minus1_u sn). set (sn2 := un_set w_nblocks (u32 (n + 1)) sn1).
  assert (own_inode nib dB ino sn1) as Ho1 by (by apply own_set).
  assert (own_inode nib dB ino sn2) as Ho2 by (apply own_set; [done|done|unfold w_nblocks; lia]).
  pose proof Ho2 as [Eno _ Hwf2 _]. rewrite Eno. pose proof (inode_block_range nib ino Hv) as Hib.
  step. wp_use (us_write_ok us dB (unix_inode_block ino) _ HR) as [-> HR2]; [apply (fo_present _ _ _ _ Hfree); lia|done|].
  step. rewrite decide_False by lia. exists sn2. split_and!; [done|done| |done|done].
  unfold sn2. rewrite (own_get nib dB ino) by (done || apply u32_range || unfold w_nblocks; lia). rewrite decide_False by (unfold w_direct, w_nblocks; lia).
  unfold sn1. rewrite (own_get nib dB ino) by done. by rewrite decide_True.
Qed.

(** C38. Writing the next block of a small file when no block is free reports success,
    and overwrites the last block of inodes with the data: the size of every file
    whose inode is there is whatever the data spell. *)
Theorem unixdisk_full_overwrites (us : st) f ino b : repr us [] f -> is_u32 ino -> ino < f_ninodes f -> f_size f ino < 12 -> block_wf b ->
  wp (unixdisk_write ino (f_size f ino) b) us (fun r us' => r = 0 /\ forall i, valid_inode nib i -> is_u32 i -> (nib - 1) * 16 <= i ->
    wp (unixdisk_getsize i) us' (fun n _ => n = i32 (get32 b (inode_word (unix_inode_idx i) w_nblocks)))).
Proof.
  intros (dB & HR & Hfn & rl & HI & Hf) Hu Hi Hsz Hb. unfold unixdisk_write. step. pose proof (ui_free _ _ _ _ _ HI) as Hfree.
  eapply wp_mono; [exact (unix_get_snapshot_ok nib ndata Hnib Hndata Hsize us dB [] ino HR Hfree Hu)|].
  intros o us1 [-> HR1]. rewrite decide_True by lia. assert (valid_inode nib ino) as Hv by (split; [apply Hu|lia]).
  destruct (Hf ino Hv) as [Esz _]. rewrite <- Esz in *. pose proof (usize_range dB ino) as H0. pose proof (inode_block_range nib ino Hv) as Hib.
  change (un_nblocks (unix_snapshot_of dB ino)) with (usize dB ino). rewrite decide_True by lia. step.
  eapply wp_mono; [exact (alloc_full us1 dB rl ino HR1 HI Hv Hsz)|]. intros o us2 (sn & -> & Esup & Eptr & Hwf & HR2).
  unfold unixdisk_traverse. rewrite decide_True by lia. do 2 step. rewrite Eptr.
  assert (un_abs sn minus1_u = nib) as ->.
  { unfold un_abs. rewrite Esup, (fo_nib _ _ _ _ Hfree). unfold u32, minus1_u, two32 in *. symmetry. apply Z.mod_unique with 1; [left; lia|lia]. }
  set (dB2 := <[(0, unix_inode_block ino):=un_inodeblock sn]> dB) in *.
  assert (free_ok nib ndata dB2 []) as Hf2 by (apply free_ok_insert; [done|lia|done|intros x Hx; by apply elem_of_nil in Hx]). step.
  wp_use (us_write_ok us2 dB2 nib b HR2) as [-> HR3]; [apply (fo_present _ _ _ _ Hf2); lia|done|]. step. split; [by rewrite decide_False by lia|].
  intros i Hi2 Hiu Hlast. set (dB3 := <[(0, nib):=b]> dB2) in *.
  assert (free_ok nib ndata dB3 []) as Hf3 by (apply free_ok_insert; [done|lia|done|intros x Hx; by apply elem_of_nil in Hx]).
  assert (unix_inode_block i = nib) as Eb by (unfold valid_inode, unix_inode_block in *; Z.to_euclidean_division_equations; lia).
  unfold unixdisk_getsize. step.
  eapply wp_mono; [exact (unix_get_snapshot_ok nib ndata Hnib Hndata Hsize _ dB3 [] i HR3 Hf3 Hiu)|].
  intros o us3 [-> _]. unfold valid_inode in Hi2. rewrite decide_True by lia. step. change (un_nblocks (unix_snapshot_of dB3 i)) with (usize dB3 i).
  unfold usize, iword. rewrite Eb. unfold dB3. by rewrite blk_insert_eq.
Qed.
End full.

(** * File systems at which the properties are instantiated *)

Definition unix_wit_store (n : nat) : ramdisk_state := ramdisk_init (replicate n null_block) (Z.of_nat n).

Lemma unix_wit_repr n : Z.of_nat n < 2147483648 -> ram_repr (unix_wit_store n) (disk_of (replicate n null_block)).
Proof.
  intros Hn. unfold unix_wit_store. replace (Z.of_nat n) with (Z.of_nat (length (replicate n null_block))) by (by rewrite length_replicate).
  apply (ramdisk_init_repr (replicate n null_block)); [apply Forall_replicate, null_block_wf|rewrite length_replicate; unfold two32; lia].
Qed.

Lemma unix_wit_size n : size_of (disk_of (replicate n null_block)) 0 (Z.of_nat n).
Proof. pose proof (disk_of_size (replicate n null_block)) as H. by rewrite length_replicate in H. Qed.

Lemma unix_wit_new n : us_n_inodeblocks (blk 0 (disk_of (replicate (S n) null_block)) 0) = 0.
Proof.
  unfold us_n_inodeblocks. change (blk 0 (disk_of (replicate (S n) null_block)) 0) with (default null_block (disk_of (replicate (S n) null_block) !! (0, 0))).
  rewrite disk_of_lookup. cbn [fst snd]. rewrite decide_True by done. apply get32_null.
Qed.

(** Thirteen blocks, the last one behind the single indirect block. *)
Definition unix_wit_ops : list fs_op :=
  ((fun k => OpWrite 0 k null_block) <$> seqZ 0 13) ++
  [OpRead 0 12; OpRead 0 13; OpWrite 3 0 null_block; OpGetsize 0; OpTruncate 0; OpGetsize 0; OpWrite 5 0 null_block; OpRead 3 0].

Lemma unix_wit_ops_valid : unix_valid_ops 18 (f_empty 16) unix_wit_ops.
Proof. repeat split; vm_compute; congruence. Qed.


Lemma unixdisk_create_undef_witness : unixdisk_create null_block 0 16 (unix_wit_store 257) = Undef.
Proof.
  apply (unixdisk_create_undef (unix_wit_store 257) (disk_of (replicate 257 null_block)) 257 16 null_block);
    [by apply unix_wit_repr|exact (unix_wit_size 257)|done|done|done|done|done|exact (unix_wit_new 256)].
Defined.

(** A file system whose only data block is in use. *)
Lemma unix_wit_full : exists us, unix_repr (R:=ram_repr) 1 1 us [] (f_write (f_empty 16) 0 0 null_block).
Proof.
  pose proof (unixdisk_create_ok (unix_wit_store 3) (disk_of (replicate 3 null_block)) 3 16 null_block (unix_wit_repr 3 ltac:(done))
    (unix_wit_size 3) ltac:(done) ltac:(done) ltac:(done) null_block_wf ltac:(done) ltac:(done) (unix_wit_new 2)) as H.
  apply wp_Ret in H as (r & s' & _ & _ & dB' & fl & HR & Hf & Hfl & _).
  assert (unix_repr (R:=ram_repr) 1 1 (UnixDisk s') fl (f_empty 16)) as Hr by (by exists dB').
  pose proof (unixdisk_write_ok 1 1 ltac:(done) ltac:(done) ltac:(done) (UnixDisk s') fl (f_empty 16) 0 0 null_block Hr ltac:(done) ltac:(done)
    ltac:(done) null_block_wf ltac:(done) ltac:(done)) as H.
  apply wp_Ret in H as (r' & us' & _ & _ & fl' & Hr' & Hl); [|rewrite Hfl; vm_compute; lia].
  rewrite Hfl in Hl. change (1%nat = (length fl' + 1)%nat) in Hl. destruct fl'; [by exists us'|cbn in Hl; lia].
Qed.

Lemma unixdisk_full_overwrites_witness : exists us : unixdisk_state ramdisk_state,
  wp (unixdisk_write 1 0 (set32 null_block 112 5)) us (fun r us' => r = 0 /\ wp (unixdisk_getsize 7) us' (fun n _ => n = 5)).
Proof.
  destruct unix_wit_full as (us & Hr). exists us. eapply wp_mono.
  - apply (unixdisk_full_overwrites 1 1 ltac:(done) ltac:(done) ltac:(done) us (f_write (f_empty 16) 0 0 null_block) 1 (set32 null_block 112 5) Hr);
      [done|done|done|apply set32_wf; [apply null_block_wf|lia]].
  - intros r us' [-> H]. split; [done|]. eapply wp_mono; [apply (H 7); [done|done|done]|]. intros n us'' ->. reflexivity.
Defined.

(** A write beyond the end gives the file the blocks freed last with what they hold:
    here the data of a file that has been truncated shows up in another file. *)
Definition unix_secret : block := set32 null_block 3 42.

Example unix_hole_exposes :
  wp (unixdisk_create null_block 0 16) (unix_wit_store 10) (fun _ s =>
    wp (unixdisk_write 0 0 unix_secret;; unixdisk_setsize 0 0;; unixdisk_write 1 1 null_block;; unixdisk_read 1 0 null_block) (UnixDisk s)
      (fun x _ => x = (0, unix_secret))).
Proof. vm_compute. reflexivity. Qed.
