(* ===== verification/RamFile.v ===== *)
(** src/src/grass/ramfilesvr.c: the in-memory file server of the kernel. The state
    of the server is its table of files; what it sends is part of the state. *)
From stdpp Require Import base numbers list.
From Stdlib Require Import ZArith Lia.
From S2P Require Import Prelude BlockStore BlockProt FileProt.

Definition MAX_FILES : Z := 100.

(** [struct file]: the contents are what [realloc] last gave. *)
Record file := File {
  f_fcb : fcb;
  f_contents : message;
}.

Record ramfile_state := RamFile {
  rs_start_time : Z;
  rs_files : list file;
  rs_sent : list (Z * message);   (* newest first *)
}.

Definition set_fcb (g : fcb -> fcb) (f : file) : file := File (g (f_fcb f)) (f_contents f).

Section ramfile.
(** The server's pid, the time [sys_gettime] gives during the request, and the
    contents of memory that [realloc] adds to a buffer. *)
Context (pid now : Z) (junk : nat -> message).

Abbreviation st := ramfile_state.

Definition get_file (i : Z) : M st file := rs ← get; read_nth (rs_files rs) (Z.to_nat i).

Definition upd_file (i : Z) (g : file -> file) : M st unit :=
  f ← get_file i; modify (fun rs => RamFile (rs_start_time rs) (<[Z.to_nat i:=g f]> (rs_files rs)) (rs_sent rs)).

Definition rf_send (dst : Z) (m : message) : M st unit :=
  modify (fun rs => RamFile (rs_start_time rs) (rs_files rs) ((dst, m) :: rs_sent rs)).

Definition ramfile_respond (src status : Z) (data : message) : M st unit :=
  rf_send src (reply_bytes (FileReply status 0 0 zero_fcb) ++ data).

Definition realloc (contents : message) (n : nat) : message :=
  take n contents ++ junk (n - length contents).

(** The modification time: that of the clock of the host when the server
    started, and the seconds since. *)
Definition rf_time : M st Z :=
  rs ← get; f0 ← get_file 0;
  mret (u64 (st_modtime (f_fcb f0) + u64 (now - rs_start_time rs) / 1000)).

(** The first free file number from [i] on, [n] more to look at. *)
Fixpoint free_file (n : nat) (i : Z) : M st Z :=
  match n with
  | O => mret i
  | Datatypes.S n => f ← get_file i; if decide (st_alloc (f_fcb f) = false) then mret i else free_file n (i + 1)
  end.

Definition ramfile_do_create (req : file_request) (src uid : Z) : M st unit :=
  file_no ← free_file 99 1;
  if decide (file_no = MAX_FILES) then ramfile_respond src FILE_ERROR [] else
  upd_file file_no (set_fcb (fun f => Fcb true pid file_no uid (fr_mode req) (st_size f) (st_modtime f)));;
  t ← rf_time;
  upd_file file_no (set_fcb (st_set_modtime t));;
  rf_send src (reply_bytes (FileReply FILE_OK file_no 0 zero_fcb)).

(** The table is read before the file number is compared with its size. *)
Definition ramfile_do_read (req : file_request) (src uid : Z) : M st unit :=
  file ← get_file (fr_file_no req);
  if decide (st_alloc (f_fcb file) = false \/ fr_file_no req >= MAX_FILES) then ramfile_respond src FILE_ERROR [] else
  if decide (read_allowed (f_fcb file) uid = false) then ramfile_respond src FILE_ERROR [] else
  let size := st_size (f_fcb file) in
  data ← (if decide (fr_offset req < size) then
            let n := u32 (size - fr_offset req) in
            let n := if decide (n > fr_size req) then fr_size req else n in
            if decide (Z.to_nat (fr_offset req + n) <= length (f_contents file))%nat
            then mret (take (Z.to_nat n) (drop (Z.to_nat (fr_offset req)) (f_contents file)))
            else undef
          else mret []);
  rf_send src (reply_bytes (FileReply FILE_OK 0 FILE_READ (st_set_size (Z.of_nat (length data)) zero_fcb)) ++ data).

(** [memcpy(&contents[offset], data, size)]. *)
Definition put_contents (offset : nat) (data contents : message) : M st message :=
  if decide (offset + length data <= length contents)%nat
  then mret (splice offset data contents) else undef.

Definition ramfile_put (file_no offset : Z) (data : message) : M st unit :=
  file ← get_file file_no;
  let size := Z.of_nat (length data) in
  (if decide (u64 (offset + size) > st_size (f_fcb file)) then
     upd_file file_no (fun f => File (st_set_size (u64 (offset + size)) (f_fcb f))
                                  (realloc (f_contents f) (Z.to_nat (u64 (offset + size)))))
   else mret tt);;
  file ← get_file file_no;
  contents ← put_contents (Z.to_nat offset) data (f_contents file);
  upd_file file_no (fun f => File (f_fcb f) contents);;
  t ← rf_time;
  upd_file file_no (set_fcb (st_set_modtime t)).

Definition ramfile_do_write (req : file_request) (src uid : Z) (data : message) : M st unit :=
  if decide (fr_file_no req >= MAX_FILES) then ramfile_respond src FILE_ERROR [] else
  file ← get_file (fr_file_no req);
  if decide (st_alloc (f_fcb file) = false) then ramfile_respond src FILE_ERROR [] else
  if decide (fr_size req <> Z.of_nat (length data)) then ramfile_respond src FILE_ERROR [] else
  if decide (write_allowed (f_fcb file) uid = false) then ramfile_respond src FILE_ERROR [] else
  ramfile_put (fr_file_no req) (fr_offset req) data;;
  ramfile_respond src FILE_OK [].

Definition ramfile_do_stat (req : file_request) (src uid : Z) : M st unit :=
  file ← get_file (fr_file_no req);
  if decide (st_alloc (f_fcb file) = false \/ fr_file_no req >= MAX_FILES) then ramfile_respond src FILE_ERROR [] else
  if decide (read_allowed (f_fcb file) uid = false) then ramfile_respond src FILE_ERROR [] else
  rf_send src (reply_bytes (FileReply FILE_OK 0 FILE_STAT (f_fcb file))).

(** The modification time is set to the time of [sys_gettime], in milliseconds
    since the start. *)
Definition ramfile_do_setsize (req : file_request) (src uid : Z) : M st unit :=
  if decide (fr_file_no req >= MAX_FILES) then ramfile_respond src FILE_ERROR [] else
  file ← get_file (fr_file_no req);
  if decide (st_alloc (f_fcb file) = false) then ramfile_respond src FILE_ERROR [] else
  if decide (fr_offset req > st_size (f_fcb file)) then ramfile_respond src FILE_ERROR [] else
  if decide (write_allowed (f_fcb file) uid = false) then ramfile_respond src FILE_ERROR [] else
  upd_file (fr_file_no req) (fun f =>
    File (st_set_modtime now (st_set_size (fr_offset req) (f_fcb f))) (realloc (f_contents f) (Z.to_nat (fr_offset req))));;
  ramfile_respond src FILE_OK [].

Definition ramfile_do_delete (req : file_request) (src uid : Z) : M st unit :=
  if decide (fr_file_no req >= MAX_FILES) then ramfile_respond src FILE_ERROR [] else
  file ← get_file (fr_file_no req);
  if decide (st_alloc (f_fcb file) = false) then ramfile_respond src FILE_ERROR [] else
  if decide (write_allowed (f_fcb file) uid = false) then ramfile_respond src FILE_ERROR [] else
  upd_file (fr_file_no req) (fun f => File (st_set_size 0 (st_set_alloc false (f_fcb f))) []);;
  ramfile_respond src FILE_OK [].

Definition ramfile_do_chown (req : file_request) (src uid : Z) : M st unit :=
  if decide (fr_file_no req >= MAX_FILES) then ramfile_respond src FILE_ERROR [] else
  file ← get_file (fr_file_no req);
  if decide (st_alloc (f_fcb file) = false) then ramfile_respond src FILE_ERROR [] else
  if decide (uid <> 0) then ramfile_respond src FILE_ERROR [] else
  upd_file (fr_file_no req) (set_fcb (st_set_uid (fr_uid req)));;
  rf_send src (reply_bytes (FileReply FILE_OK 0 0 zero_fcb)).

Definition ramfile_do_chmod (req : file_request) (src uid : Z) : M st unit :=
  if decide (fr_file_no req >= MAX_FILES) then ramfile_respond src FILE_ERROR [] else
  file ← get_file (fr_file_no req);
  if decide (st_alloc (f_fcb file) = false) then ramfile_respond src FILE_ERROR [] else
  if decide (uid <> 0 /\ uid <> st_uid (f_fcb file)) then ramfile_respond src FILE_ERROR [] else
  upd_file (fr_file_no req) (set_fcb (st_set_mode (fr_mode req)));;
  rf_send src (reply_bytes (FileReply FILE_OK 0 0 zero_fcb)).

(** One round of the loop of [ramfile_proc], for the message [msg] from [src], of
    which the receive takes what fits the buffer. *)
Definition ramfile_proc_round (msg : message) (src uid : Z) : M st unit :=
  let msg := take (sizeof_file_request + PAGESIZE) msg in
  assert_ (bool_decide (sizeof_file_request <= length msg)%nat);;
  let req := request_of msg in
  let type := fr_type req in
  if decide (type = FILE_CREATE) then ramfile_do_create req src uid else
  if decide (type = FILE_CHOWN) then ramfile_do_chown req src uid else
  if decide (type = FILE_CHMOD) then ramfile_do_chmod req src uid else
  if decide (type = FILE_READ) then ramfile_do_read req src uid else
  if decide (type = FILE_WRITE) then ramfile_do_write req src uid (drop sizeof_file_request msg) else
  if decide (type = FILE_STAT) then ramfile_do_stat req src uid else
  if decide (type = FILE_SETSIZE) then ramfile_do_setsize req src uid else
  if decide (type = FILE_DELETE) then ramfile_do_delete req src uid else
  ramfile_respond src FILE_ERROR [].
End ramfile.

(** [ramfile_init] and the start of [ramfile_proc]: [seconds] is the time of the
    gate server, [start] that of [sys_gettime]. *)
Definition ramfile_init (seconds start : Z) : ramfile_state :=
  RamFile start
    (File (Fcb true 0 0 0 0 0 seconds) [] :: replicate 99 (File zero_fcb [])) [].

(** A call to the server: the reply is the first thing it sends back. *)
Definition ramfile_rpc (pid now : Z) (junk : nat -> message) (uid : Z) (msg : message) (repsize : nat)
    : M ramfile_state (option message) := fun rs =>
  match ramfile_proc_round pid now junk msg 1 uid (RamFile (rs_start_time rs) (rs_files rs) []) with
  | Ret (_, rs') =>
      match last (rs_sent rs') with
      | Some (_, rep) => Ret (Some (take repsize rep), rs')
      | None => OutOfFuel
      end
  | Exit => Exit
  | Undef => Undef
  | OutOfFuel => OutOfFuel
  end.

(** What a client of user [uid] calls. *)
Definition ramfile_server (pid now : Z) (junk : nat -> message) (uid : Z) : Rpc ramfile_state :=
  fun _ msg repsize => ramfile_rpc pid now junk uid msg repsize.

(** * The invariant *)

Record file_ok (f : file) : Prop := {
  fo_fcb : fcb_wf (f_fcb f);
  fo_size : Z.of_nat (length (f_contents f)) = st_size (f_fcb f);
}.

Record ram_ok (rs : ramfile_state) : Prop := {
  ro_files : length (rs_files rs) = 100%nat;
  ro_ok : Forall file_ok (rs_files rs);
}.

(** What a request of user [uid] may do to a file it may not write and does not
    own: nothing. *)
Definition protects (uid : Z) (fs fs' : list file) : Prop :=
  forall i f, fs !! i = Some f -> st_alloc (f_fcb f) = true -> uid <> 0 -> uid <> st_uid (f_fcb f) ->
    write_allowed (f_fcb f) uid = false -> fs' !! i = Some f.

Lemma protects_refl uid fs : protects uid fs fs.
Proof. by intros i f H. Qed.

Lemma protects_trans uid fs1 fs2 fs3 : protects uid fs1 fs2 -> protects uid fs2 fs3 -> protects uid fs1 fs3.
Proof. intros H1 H2 i f H Ha H0 Ho Hw. apply H2; [by apply H1|done..]. Qed.

Lemma protects_insert uid fs i f f' : fs !! i = Some f ->
  (st_alloc (f_fcb f) = false \/ uid = 0 \/ uid = st_uid (f_fcb f) \/ write_allowed (f_fcb f) uid = true) ->
  protects uid fs (<[i:=f']> fs).
Proof.
  intros Hi H j g Hj Ha H0 Ho Hw. destruct (decide (i = j)) as [->|Hne].
  - rewrite Hi in Hj. injection Hj as ->. destruct H as [H|[H|[H|H]]]; congruence.
  - by rewrite list_lookup_insert_ne.
Qed.

Section rules.
Context (pid now : Z) (junk : nat -> message).
Context (Hpid : is_u32 pid) (Hnow : 0 <= now < two64) (Hjunk : forall n, length (junk n) = n).

Lemma wp_get_file i f rs Q : rs_files rs !! Z.to_nat i = Some f -> Q f rs -> wp (get_file i) rs Q.
Proof. intros H HQ. unfold get_file. steps. by eapply wp_read_nth. Qed.

Lemma wp_upd_file i f g rs Q : rs_files rs !! Z.to_nat i = Some f ->
  Q tt (RamFile (rs_start_time rs) (<[Z.to_nat i:=g f]> (rs_files rs)) (rs_sent rs)) -> wp (upd_file i g) rs Q.
Proof. intros H HQ. unfold upd_file. step. eapply wp_get_file; [done|]. by step. Qed.

Lemma wp_rf_time rs Q : ram_ok rs -> (forall t, 0 <= t < two64 -> Q t rs) -> wp (rf_time now) rs Q.
Proof.
  intros [Hl _] HQ. destruct (lookup_lt_is_Some_2 (rs_files rs) 0) as [f Hf]; [lia|].
  unfold rf_time. steps. eapply wp_get_file; [done|]. step. apply HQ. by apply Z.mod_pos_bound.
Qed.

Lemma length_realloc c n : length (realloc junk c n) = n.
Proof. unfold realloc. rewrite length_app, length_take, Hjunk. lia. Qed.

Lemma get_file_ok i rs : ram_ok rs -> 0 <= i < MAX_FILES ->
  exists f, rs_files rs !! Z.to_nat i = Some f /\ file_ok f.
Proof.
  intros [Hl Hok] Hi. destruct (lookup_lt_is_Some_2 (rs_files rs) (Z.to_nat i)) as [f Hf]; [unfold MAX_FILES in Hi; lia|].
  exists f. split; [done|]. by eapply Forall_lookup_1.
Qed.

Lemma ram_ok_insert rs i f sent : ram_ok rs -> file_ok f -> ram_ok (RamFile (rs_start_time rs) (<[i:=f]> (rs_files rs)) sent).
Proof.
  intros [Hl Hok] Hf. split; cbn [rs_files]; [by rewrite length_insert|by apply Forall_insert].
Qed.

(** The outcome of a request: the invariant, one reply, protected files kept. *)
Definition served (src uid : Z) (rs rs' : ramfile_state) : Prop :=
  ram_ok rs' /\ protects uid (rs_files rs) (rs_files rs') /\
  exists rep, rs_sent rs' = (src, rep) :: rs_sent rs.

Lemma respond_served src uid status data rs : ram_ok rs -> wp (ramfile_respond src status data) rs (fun _ rs' => served src uid rs rs').
Proof.
  intros [H1 H2]. unfold ramfile_respond, rf_send. step. split; [by split|]. split; [apply protects_refl|by eexists].
Qed.

Lemma send_served src uid m rs rs1 : ram_ok rs1 -> protects uid (rs_files rs) (rs_files rs1) -> rs_sent rs1 = rs_sent rs ->
  wp (rf_send src m) rs1 (fun _ rs' => served src uid rs rs').
Proof. intros [H1 H2] Hp Hs. unfold rf_send. step. split; [by split|]. split; [done|]. exists m. cbn. by rewrite Hs. Qed.

Lemma free_slot_ok n : forall i rs Q, ram_ok rs -> 0 <= i -> i + Z.of_nat n = MAX_FILES ->
  (forall j, 0 <= j <= MAX_FILES -> (j < MAX_FILES -> forall f, rs_files rs !! Z.to_nat j = Some f -> st_alloc (f_fcb f) = false) -> Q j rs) ->
  wp (free_file n i) rs Q.
Proof.
  induction n as [|n IH]; intros i rs Q Hok Hi Hn HQ; cbn [free_file].
  { step. apply HQ; [lia|]. lia. }
  destruct (get_file_ok i rs Hok) as (f & Hf & _); [lia|]. step. eapply wp_get_file; [done|].
  destruct (decide (st_alloc (f_fcb f) = false)) as [Ha|Ha].
  - step. apply HQ; [lia|]. intros _ f' Hf'. by simplify_eq.
  - apply IH; [done|lia|lia|done].
Qed.

(** ** The handlers *)

(** The tests that most handlers begin with. *)
Lemma guarded_served file_no src uid rs (k : file -> M ramfile_state unit) : ram_ok rs -> is_u32 file_no ->
  (forall f, rs_files rs !! Z.to_nat file_no = Some f -> file_ok f -> st_alloc (f_fcb f) = true ->
     wp (k f) rs (fun _ rs' => served src uid rs rs')) ->
  wp (if decide (file_no >= MAX_FILES) then ramfile_respond src FILE_ERROR [] else
      file ← get_file file_no;
      if decide (st_alloc (f_fcb file) = false) then ramfile_respond src FILE_ERROR [] else k file) rs
     (fun _ rs' => served src uid rs rs').
Proof.
  intros Hok [Hi _] Hk. destruct (decide (file_no >= MAX_FILES)); [by apply respond_served|].
  destruct (get_file_ok file_no rs Hok) as (f & Hf & Hfo); [lia|]. step. eapply wp_get_file; [done|].
  destruct (decide (st_alloc (f_fcb f) = false)) as [|Ha]; [by apply respond_served|].
  apply Hk; [done|done|]. by destruct (st_alloc _).
Qed.

Lemma bool_true b : b <> false -> b = true.
Proof. by destruct b. Qed.

(** One file changes, then a reply is sent. *)
Lemma update_served i f g src uid m rs : ram_ok rs -> rs_files rs !! Z.to_nat i = Some f -> file_ok (g f) ->
  (st_alloc (f_fcb f) = false \/ uid = 0 \/ uid = st_uid (f_fcb f) \/ write_allowed (f_fcb f) uid = true) ->
  wp (upd_file i g;; rf_send src m) rs (fun _ rs' => served src uid rs rs').
Proof.
  intros Hok Hf Hg Hu. step. eapply wp_upd_file; [done|]. apply send_served; [by apply ram_ok_insert|by eapply protects_insert|done].
Qed.

Lemma create_served req src uid rs : ram_ok rs -> request_wf req -> is_u32 uid ->
  wp (ramfile_do_create pid now req src uid) rs (fun _ rs' => served src uid rs rs').
Proof.
  intros Hok Hreq Huid. unfold ramfile_do_create. step. apply free_slot_ok; [done|done|done|]. intros j Hj Hfree.
  destruct (decide (j = MAX_FILES)) as [|Hne]; [by apply respond_served|].
  destruct (get_file_ok j rs Hok) as (f & Hf & [Hw Hs]); [lia|]. specialize (Hfree ltac:(lia) f Hf).
  step. eapply wp_upd_file; [done|].
  set (f1 := set_fcb _ f). assert (file_ok f1) as Hf1.
  { split; [|done]. destruct Hw, Hreq. split; cbn; try done. unfold MAX_FILES in *. unfold is_u32, two32. lia. }
  assert (ram_ok (RamFile (rs_start_time rs) (<[Z.to_nat j:=f1]> (rs_files rs)) (rs_sent rs))) as Hok1 by by apply ram_ok_insert.
  step. apply wp_rf_time; [done|]. intros t Ht. step. eapply wp_upd_file.
  { cbn [rs_files]. apply list_lookup_insert_eq. by eapply lookup_lt_Some. }
  cbn [rs_start_time rs_files rs_sent]. rewrite list_insert_insert_eq.
  apply send_served; [apply ram_ok_insert; [done|]|eapply protects_insert; [done|by left]|done].
  destruct Hf1 as [Hw1 Hs1]. split; [|done]. destruct Hw1. by split.
Qed.

Lemma read_served req src uid rs : ram_ok rs -> request_wf req -> fr_file_no req < MAX_FILES ->
  wp (ramfile_do_read req src uid) rs (fun _ rs' => served src uid rs rs').
Proof.
  intros Hok Hreq Hi. unfold ramfile_do_read.
  destruct (get_file_ok (fr_file_no req) rs Hok) as (f & Hf & [Hw Hs]); [destruct (rq_file_no _ Hreq); lia|].
  step. eapply wp_get_file; [done|]. destruct (decide _); [by apply respond_served|].
  destruct (decide _); [by apply respond_served|]. step.
  destruct (decide (fr_offset req < st_size (f_fcb f))) as [Hlt|Hge].
  - pose proof (rq_offset _ Hreq). pose proof (rq_size _ Hreq) as [? _].
    cbv zeta. set (k := if decide (u32 (st_size (f_fcb f) - fr_offset req) > fr_size req) then _ else _).
    assert (0 <= k <= st_size (f_fcb f) - fr_offset req) as Hk.
    { assert (u32 (st_size (f_fcb f) - fr_offset req) <= st_size (f_fcb f) - fr_offset req) by (apply Z.mod_le; [lia|done]).
      destruct (u32_range (st_size (f_fcb f) - fr_offset req)) as [? _]. unfold k. destruct (decide _); lia. }
    rewrite decide_True by lia. step. apply send_served; [done|apply protects_refl|done].
  - step. apply send_served; [done|apply protects_refl|done].
Qed.

Lemma stat_served req src uid rs : ram_ok rs -> request_wf req -> fr_file_no req < MAX_FILES ->
  wp (ramfile_do_stat req src uid) rs (fun _ rs' => served src uid rs rs').
Proof.
  intros Hok Hreq Hi. unfold ramfile_do_stat.
  destruct (get_file_ok (fr_file_no req) rs Hok) as (f & Hf & _); [destruct (rq_file_no _ Hreq); lia|].
  step. eapply wp_get_file; [done|]. destruct (decide _); [by apply respond_served|].
  destruct (decide _); [by apply respond_served|]. apply send_served; [done|apply protects_refl|done].
Qed.

(** What a file holds after [data] is written at [off]. *)
Definition written (off : nat) (data contents : message) : message :=
  let c := if decide (length contents < off + length data)%nat then realloc junk contents (off + length data) else contents in
  splice off data c.

Lemma length_written off data c : length (written off data c) = Nat.max (length c) (off + length data).
Proof.
  unfold written. destruct (decide _); rewrite length_splice; rewrite ?length_realloc; lia.
Qed.

Lemma put_ok i f off data rs : ram_ok rs -> rs_files rs !! Z.to_nat i = Some f -> file_ok f ->
  0 <= off -> off + Z.of_nat (length data) < two64 ->
  wp (ramfile_put now junk i off data) rs (fun _ rs' => exists t, 0 <= t < two64 /\
    rs' = RamFile (rs_start_time rs)
      (<[Z.to_nat i := File (st_set_modtime t (st_set_size (Z.max (st_size (f_fcb f)) (off + Z.of_nat (length data))) (f_fcb f)))
                         (written (Z.to_nat off) data (f_contents f))]> (rs_files rs)) (rs_sent rs)).
Proof.
  intros Hok Hf [Hw Hs] Ho Hlen. unfold ramfile_put. step. eapply wp_get_file; [done|].
  rewrite u64_small by lia. pose proof (lookup_lt_Some _ _ _ Hf) as Hlt.
  set (n := off + Z.of_nat (length data)) in *.
  set (c := if decide (length (f_contents f) < Z.to_nat off + length data)%nat
            then realloc junk (f_contents f) (Z.to_nat off + length data) else f_contents f).
  set (f1 := File (st_set_size (Z.max (st_size (f_fcb f)) n) (f_fcb f)) c).
  assert (length c = Nat.max (length (f_contents f)) (Z.to_nat off + length data)) as Hc.
  { unfold c. destruct (decide _); [rewrite length_realloc|]; lia. }
  assert (file_ok f1) as Hf1.
  { split; [|unfold f1; cbn; lia]. destruct Hw. split; cbn; try done. lia. }
  set (rs1 := RamFile (rs_start_time rs) (<[Z.to_nat i:=f1]> (rs_files rs)) (rs_sent rs)).
  step. apply (wp_mono _ _ (fun _ rs' => rs' = rs1)).
  { destruct (decide (n > st_size (f_fcb f))) as [Hgt|Hle].
    - eapply wp_upd_file; [done|]. unfold rs1, f1, c. rewrite decide_True by lia.
      rewrite Z.max_r by lia. replace (Z.to_nat n) with (Z.to_nat off + length data)%nat by lia. done.
    - step. destruct rs as [st fs sent]. unfold rs1, f1, c. cbn in *. rewrite decide_False by lia. f_equal.
      symmetry. rewrite Z.max_l by lia. apply list_insert_id. rewrite Hf. by destruct f as [[] ?]. }
  intros _ rs1' ->. assert (ram_ok rs1) as Hok1 by by apply ram_ok_insert.
  assert (rs_files rs1 !! Z.to_nat i = Some f1) as Hf1' by by apply list_lookup_insert_eq.
  step. eapply wp_get_file; [done|]. step. unfold put_contents. change (f_contents f1) with c.
  rewrite decide_True by lia. step.
  step. eapply wp_upd_file; [done|]. unfold rs1. cbn [rs_start_time rs_files rs_sent]. rewrite list_insert_insert_eq.
  change (f_contents f1) with c. change (splice (Z.to_nat off) data c) with (written (Z.to_nat off) data (f_contents f)).
  step. apply wp_rf_time.
  { apply ram_ok_insert; [done|]. destruct Hf1 as [Hw1 Hs1]. split; [done|]. cbn in *. rewrite length_written. lia. }
  intros t Ht. eapply wp_upd_file; [by apply list_lookup_insert_eq|]. cbn [rs_start_time rs_files rs_sent].
  rewrite list_insert_insert_eq. by exists t.
Qed.

Lemma write_served req src uid data rs : ram_ok rs -> request_wf req -> fr_offset req + Z.of_nat (length data) < two64 ->
  wp (ramfile_do_write now junk req src uid data) rs (fun _ rs' => served src uid rs rs').
Proof.
  intros Hok Hreq Hlen. unfold ramfile_do_write. apply guarded_served; [done|apply Hreq|]. intros f Hf Hfo Ha.
  destruct (decide _); [by apply respond_served|].
  destruct (decide _) as [|Hu]; [by apply respond_served|]. apply bool_true in Hu.
  step. eapply wp_mono; [apply (put_ok _ f); [done..|apply Hreq|done]|].
  intros u rs1 (t & Ht & ->). apply send_served; [apply ram_ok_insert; [done|]|eapply protects_insert; [done|auto]|done].
  destruct Hfo as [Hw Hs]. split; [|cbn; rewrite length_written; pose proof (rq_offset _ Hreq); lia].
  destruct Hw. split; cbn; try done. pose proof (rq_offset _ Hreq). lia.
Qed.

Lemma setsize_served req src uid rs : ram_ok rs -> request_wf req ->
  wp (ramfile_do_setsize now junk req src uid) rs (fun _ rs' => served src uid rs rs').
Proof.
  intros Hok Hreq. unfold ramfile_do_setsize. apply guarded_served; [done|apply Hreq|]. intros f Hf [Hw Hs] Ha.
  destruct (decide _); [by apply respond_served|].
  destruct (decide _) as [|Hu]; [by apply respond_served|]. apply bool_true in Hu.
  eapply update_served; [done|done| |auto]. pose proof (rq_offset _ Hreq). split; cbn.
  - destruct Hw. by split.
  - rewrite length_realloc. lia.
Qed.

Lemma delete_served req src uid rs : ram_ok rs -> request_wf req ->
  wp (ramfile_do_delete req src uid) rs (fun _ rs' => served src uid rs rs').
Proof.
  intros Hok Hreq. unfold ramfile_do_delete. apply guarded_served; [done|apply Hreq|]. intros f Hf [Hw Hs] Ha.
  destruct (decide _) as [|Hu]; [by apply respond_served|]. apply bool_true in Hu.
  eapply update_served; [done|done| |auto]. split; [|done]. destruct Hw. by split.
Qed.

Lemma chown_served req src uid rs : ram_ok rs -> request_wf req ->
  wp (ramfile_do_chown req src uid) rs (fun _ rs' => served src uid rs rs').
Proof.
  intros Hok Hreq. unfold ramfile_do_chown. apply guarded_served; [done|apply Hreq|]. intros f Hf [Hw Hs] Ha.
  destruct (decide _) as [|Hu]; [by apply respond_served|].
  eapply update_served; [done|done| |right; left; lia]. split; [|done]. destruct Hw. split; try done. apply Hreq.
Qed.

Lemma chmod_served req src uid rs : ram_ok rs -> request_wf req ->
  wp (ramfile_do_chmod req src uid) rs (fun _ rs' => served src uid rs rs').
Proof.
  intros Hok Hreq. unfold ramfile_do_chmod. apply guarded_served; [done|apply Hreq|]. intros f Hf [Hw Hs] Ha.
  destruct (decide _) as [|Hu]; [by apply respond_served|].
  eapply update_served; [done|done| |lia]. split; [|done]. destruct Hw. split; try done. apply Hreq.
Qed.

Lemma request_of_wf m : request_wf (request_of m).
Proof. split; cbn; apply get_field_range. Qed.

(** Requests that make the server leave its table or its buffers. *)
Definition bad_request (msg : message) : Prop :=
  let req := request_of msg in
  (fr_type req = FILE_READ \/ fr_type req = FILE_STAT) /\ MAX_FILES <= fr_file_no req \/
  fr_type req = FILE_WRITE /\ two64 <= fr_offset req + Z.of_nat (length msg - sizeof_file_request).

Lemma round_served msg src uid rs : ram_ok rs -> is_u32 uid ->
  (sizeof_file_request <= length msg <= sizeof_file_request + PAGESIZE)%nat -> ~ bad_request msg ->
  wp (ramfile_proc_round pid now junk msg src uid) rs (fun _ rs' => served src uid rs rs').
Proof.
  intros Hok Huid [Hl1 Hl2] Hbad. unfold ramfile_proc_round. rewrite take_ge by done. cbv zeta.
  rewrite bool_decide_eq_true_2 by done. step. apply wp_assert; [done|]. unfold bad_request in Hbad. cbv zeta in Hbad.
  pose proof (request_of_wf msg) as Hw. set (req := request_of msg) in *.
  destruct (decide (fr_type req = FILE_CREATE)); [by apply create_served|].
  destruct (decide (fr_type req = FILE_CHOWN)); [by apply chown_served|].
  destruct (decide (fr_type req = FILE_CHMOD)); [by apply chmod_served|].
  destruct (decide (fr_type req = FILE_READ)) as [E|]; [apply read_served; [done|done|lia]|].
  destruct (decide (fr_type req = FILE_WRITE)) as [E|]; [apply write_served; [done|done|rewrite length_drop; lia]|].
  destruct (decide (fr_type req = FILE_STAT)) as [E|]; [apply stat_served; [done|done|lia]|].
  destruct (decide (fr_type req = FILE_SETSIZE)); [by apply setsize_served|].
  destruct (decide (fr_type req = FILE_DELETE)); [by apply delete_served|].
  by apply respond_served.
Qed.

Lemma round_bad_index msg src uid rs : ram_ok rs ->
  (sizeof_file_request <= length msg <= sizeof_file_request + PAGESIZE)%nat ->
  fr_type (request_of msg) = FILE_READ \/ fr_type (request_of msg) = FILE_STAT ->
  MAX_FILES <= fr_file_no (request_of msg) ->
  ramfile_proc_round pid now junk msg src uid rs = Undef.
Proof.
  intros [Hl _] [Hl1 Hl2] Ht Hi. unfold ramfile_proc_round. rewrite take_ge by done. cbv zeta.
  rewrite bool_decide_eq_true_2 by done. set (req := request_of msg) in *. clearbody req.
  assert (get_file (fr_file_no req) rs = Undef) as Hget.
  { unfold get_file, mbind, M_bind, get, read_nth. unfold MAX_FILES in Hi. rewrite lookup_ge_None_2 by lia. done. }
  unfold assert_. unfold mbind at 1, M_bind at 1, mret at 1, M_ret at 1.
  assert (ramfile_do_read req src uid rs = Undef) as H1 by by apply mbind_Undef.
  assert (ramfile_do_stat req src uid rs = Undef) as H2 by by apply mbind_Undef.
  destruct Ht as [-> | ->]; exact H1 || exact H2.
Qed.

Lemma ramfile_init_ok seconds start : 0 <= seconds < two64 -> ram_ok (ramfile_init seconds start).
Proof.
  intros H. split; [done|]. constructor; [split; [by split|done]|].
  apply Forall_replicate. by repeat split.
Qed.

(** ** Writing and reading through the client's stubs *)

Lemma realloc_old c n p : (p < n)%nat -> (p < length c)%nat -> realloc junk c n !! p = c !! p.
Proof. intros H1 H2. unfold realloc. rewrite lookup_app_l by (rewrite length_take; lia). by rewrite lookup_take_lt. Qed.

Lemma written_lookup off data c p :
  written off data c !! p =
    if decide (off <= p < off + length data)%nat then data !! (p - off)%nat
    else if decide (p < length c)%nat then c !! p else written off data c !! p.
Proof.
  unfold written. set (c' := if decide _ then _ else _).
  assert (off + length data <= length c')%nat as Hl by (unfold c'; destruct (decide _); rewrite ?length_realloc; lia).
  rewrite lookup_splice by lia. destruct (decide (off <= p < off + length data)%nat) as [|Hp]; [done|].
  destruct (decide (p < length c)%nat); [|done]. unfold c'. destruct (decide _); [apply realloc_old; lia|done].
Qed.

Section clients.
Context (uid : Z).

#[local] Instance this_server : Rpc ramfile_state := ramfile_server pid now junk uid.

Lemma file_write_ok svr i f off data rs : ram_ok rs -> 0 <= i < MAX_FILES -> rs_files rs !! Z.to_nat i = Some f ->
  st_alloc (f_fcb f) = true -> write_allowed (f_fcb f) uid = true ->
  0 <= off -> off + Z.of_nat (length data) < two64 -> (length data <= PAGESIZE)%nat ->
  wp (file_write svr i off data (Z.of_nat (length data))) rs (fun r rs' => r = true /\ exists f',
    ram_ok rs' /\ rs_files rs' !! Z.to_nat i = Some f' /\ f_contents f' = written (Z.to_nat off) data (f_contents f) /\
    st_alloc (f_fcb f') = true /\ st_mode (f_fcb f') = st_mode (f_fcb f) /\ st_uid (f_fcb f') = st_uid (f_fcb f)).
Proof.
  intros Hok Hi Hf Ha Hu Ho Hlen Hp. unfold file_write, file_status_rpc, file_rpc. step. step.
  unfold sys_rpc, this_server, ramfile_server, ramfile_rpc.
  set (req := FileRequest FILE_WRITE i off (Z.of_nat (length data)) 0 0).
  assert (request_wf req) as Hreq.
  { unfold MAX_FILES in Hi. assert (Z.of_nat PAGESIZE = 16384) by reflexivity. split; cbn; unfold is_u32, two32, FILE_WRITE, FILE_READ; lia. }
  assert (file_ok f) as Hfo by (destruct Hok as [_ Hall]; by eapply Forall_lookup_1).
  assert (wp (ramfile_proc_round pid now junk (request_bytes req ++ data) 1 uid) (RamFile (rs_start_time rs) (rs_files rs) [])
    (fun _ rs' => exists t, 0 <= t < two64 /\ rs_sent rs' = [(1, reply_bytes (FileReply FILE_OK 0 0 zero_fcb) ++ [])] /\
      rs_files rs' = <[Z.to_nat i := File (st_set_modtime t (st_set_size (Z.max (st_size (f_fcb f)) (off + Z.of_nat (length data))) (f_fcb f)))
                         (written (Z.to_nat off) data (f_contents f))]> (rs_files rs))) as Hround.
  { unfold ramfile_proc_round. assert (length (request_bytes req ++ data) = (32 + length data)%nat) as El
      by (by rewrite length_app, length_request_bytes).
    rewrite take_ge by (rewrite El; unfold sizeof_file_request; lia). cbv zeta. rewrite bool_decide_eq_true_2 by (rewrite El; unfold sizeof_file_request; lia).
    step. apply wp_assert; [done|]. rewrite request_of_bytes by done. rewrite drop_app_length' by (by rewrite length_request_bytes).
    change (fr_type req) with FILE_WRITE. do 4 rewrite decide_False by done. rewrite decide_True by done.
    unfold ramfile_do_write. change (fr_file_no req) with i. rewrite decide_False by lia. step. eapply wp_get_file; [done|].
    rewrite decide_False by congruence. rewrite decide_False by (cbn; lia). rewrite decide_False by congruence.
    step. eapply wp_mono; [apply (put_ok i f off data); try done; by destruct Hok|]. intros u rs1 (t & Ht & ->).
    unfold ramfile_respond, rf_send. step. exists t. by cbn. }
  unfold wp at 1. unfold wp in Hround. destruct (ramfile_proc_round _ _ _ _ _ _ _) as [[u rs']| | |]; try done.
  destruct Hround as (t & Ht & -> & Hfiles). cbn [last].
  rewrite take_ge by (by rewrite length_app, length_reply_bytes). rewrite length_app, length_reply_bytes, decide_False by (unfold sizeof_file_reply; cbn; lia).
  step. rewrite reply_of_bytes by (done || by split). step. split; [done|].
  eexists. split; [|split; [rewrite Hfiles; apply list_lookup_insert_eq; by eapply lookup_lt_Some|by cbn]].
  destruct Hok as [Hl Hall]. split; rewrite Hfiles; [by rewrite length_insert|]. apply Forall_insert; [done|].
  destruct Hfo as [Hw Hs]. split; cbn.
  - destruct Hw. split; cbn; try done. lia.
  - rewrite length_written. lia.
Qed.

Lemma file_read_ok svr i f off buf len rs : ram_ok rs -> 0 <= i < MAX_FILES -> rs_files rs !! Z.to_nat i = Some f ->
  st_alloc (f_fcb f) = true -> read_allowed (f_fcb f) uid = true ->
  0 <= off < two64 -> 0 <= len <= 2 ^ 31 -> st_size (f_fcb f) - off < two32 ->
  let data := take (Z.to_nat len) (drop (Z.to_nat off) (f_contents f)) in
  wp (file_read svr i off buf len) rs (fun x _ => x = (true, data ++ drop (length data) buf, Z.of_nat (length data))).
Proof.
  intros Hok Hi Hf Ha Hu Ho Hlen Hsz data. unfold file_read. step.
  unfold sys_rpc, this_server, ramfile_server, ramfile_rpc.
  set (req := FileRequest FILE_READ i off len 0 0).
  assert (request_wf req) as Hreq.
  { unfold MAX_FILES in Hi. split; cbn; unfold is_u32, two32, FILE_WRITE, FILE_READ; lia. }
  assert (file_ok f) as [Hw Hs] by (destruct Hok as [_ Hall]; by eapply Forall_lookup_1).
  assert (length data <= Z.to_nat len)%nat as Hdl by (unfold data; rewrite length_take; lia).
  assert (wp (ramfile_proc_round pid now junk (request_bytes req) 1 uid) (RamFile (rs_start_time rs) (rs_files rs) [])
    (fun _ rs' => rs_sent rs' = [(1, reply_bytes (FileReply FILE_OK 0 FILE_READ (st_set_size (Z.of_nat (length data)) zero_fcb)) ++ data)])) as Hround.
  { unfold ramfile_proc_round. rewrite take_ge by (rewrite length_request_bytes; lia). cbv zeta.
    rewrite bool_decide_eq_true_2 by (by rewrite length_request_bytes).
    step. apply wp_assert; [done|]. rewrite <- (app_nil_r (request_bytes req)), request_of_bytes by done.
    change (fr_type req) with FILE_READ. do 3 rewrite decide_False by done. rewrite decide_True by done.
    unfold ramfile_do_read. change (fr_file_no req) with i. step. eapply wp_get_file; [done|].
    rewrite decide_False by (intros [?|?]; [congruence|lia]). rewrite decide_False by congruence.
    change (fr_offset req) with off. change (fr_size req) with len. step.
    destruct (decide (off < st_size (f_fcb f))) as [Hlt|Hge].
    - cbv zeta. rewrite u32_small by (unfold is_u32; lia).
      set (k := if decide (st_size (f_fcb f) - off > len) then _ else _).
      assert (k = Z.min len (st_size (f_fcb f) - off)) as Ek by (unfold k; destruct (decide _); lia).
      rewrite decide_True by lia. step. unfold rf_send. step. cbn [rs_sent].
      assert (take (Z.to_nat k) (drop (Z.to_nat off) (f_contents f)) = data) as ->; [|done].
      unfold data. rewrite Ek. destruct (decide (len <= st_size (f_fcb f) - off)) as [Hle|Hgt]; [by rewrite Z.min_l by lia|].
      rewrite !take_ge by (rewrite length_drop; lia). done.
    - step. unfold rf_send. step. cbn [rs_sent]. assert (data = []) as ->; [|done].
      unfold data. by rewrite drop_ge, take_nil by lia. }
  unfold wp at 1. unfold wp in Hround. destruct (ramfile_proc_round _ _ _ _ _ _ _) as [[u rs']| | |]; try done.
  rewrite Hround. cbn [last]. rewrite (u32_small (Z.of_nat sizeof_file_reply + len)) by (unfold is_u32, two32, sizeof_file_reply; lia).
  assert (length (reply_bytes (FileReply FILE_OK 0 FILE_READ (st_set_size (Z.of_nat (length data)) zero_fcb)) ++ data) = (56 + length data)%nat) as El
    by (by rewrite length_app, length_reply_bytes).
  rewrite take_ge by (rewrite El; unfold sizeof_file_reply; lia). rewrite El, decide_False by (unfold sizeof_file_reply; lia).
  rewrite reply_of_bytes; [|done..|split; cbn; try done; unfold two64; lia].
  rewrite decide_False by (intros H; by apply H). step. rewrite drop_app_length' by (by rewrite length_reply_bytes). done.
Qed.
End clients.
End rules.

(** * Properties *)

(** C10. For a request of any user and any kind, with its header complete: the
    server answers with exactly one message to the sender and keeps its table
    consistent (100 files, each buffer as long as the size of its file), and a
    file that the user neither owns nor may write is unchanged. The requests
    excepted are a write whose offset plus size passes 2^64, and a read or stat of
    a file number beyond the table, which reads outside the table. *)
Theorem ramfile_request_safe (pid now : Z) (junk : nat -> message) (msg : message) (src uid : Z) (rs : ramfile_state) :
  is_u32 pid -> 0 <= now < two64 -> (forall n, length (junk n) = n) -> ram_ok rs -> is_u32 uid ->
  (sizeof_file_request <= length msg <= sizeof_file_request + PAGESIZE)%nat ->
  (~ bad_request msg ->
   wp (ramfile_proc_round pid now junk msg src uid) rs (fun _ rs' => served src uid rs rs')) /\
  ((fr_type (request_of msg) = FILE_READ \/ fr_type (request_of msg) = FILE_STAT) ->
   MAX_FILES <= fr_file_no (request_of msg) ->
   ramfile_proc_round pid now junk msg src uid rs = Undef).
Proof. intros. split; [by apply round_served|by apply round_bad_index]. Qed.

(** After a client has written [data] at [off] of a file, a read of any part
    of the file, at most 2^32 bytes from its end, returns the new data where it was
    written and the old contents elsewhere; the file ends where the longer of the
    two ends. *)
Lemma ramfile_write_read (pid now : Z) (junk : nat -> message) (uid svr i off off' len : Z) (f : file)
    (data buf : message) (rs : ramfile_state) :
  0 <= now < two64 -> (forall n, length (junk n) = n) -> ram_ok rs ->
  0 <= i < MAX_FILES -> rs_files rs !! Z.to_nat i = Some f -> st_alloc (f_fcb f) = true ->
  write_allowed (f_fcb f) uid = true -> read_allowed (f_fcb f) uid = true ->
  0 <= off -> off + Z.of_nat (length data) < two64 -> (length data <= PAGESIZE)%nat ->
  0 <= off' < two64 -> 0 <= len <= 2 ^ 31 ->
  Z.max (st_size (f_fcb f)) (off + Z.of_nat (length data)) - off' < two32 ->
  let _ : Rpc ramfile_state := ramfile_server pid now junk uid in
  wp (w ← file_write svr i off data (Z.of_nat (length data)); x ← file_read svr i off' buf len; mret (w, x)) rs
    (fun r _ => exists contents d, r = (true, (true, d ++ drop (length d) buf, Z.of_nat (length d))) /\
       d = take (Z.to_nat len) (drop (Z.to_nat off') contents) /\
       Z.of_nat (length contents) = Z.max (st_size (f_fcb f)) (off + Z.of_nat (length data)) /\
       forall p, contents !! p =
         (if decide (Z.to_nat off <= p < Z.to_nat off + length data)%nat then data !! (p - Z.to_nat off)%nat
          else if decide (p < length (f_contents f))%nat then f_contents f !! p else contents !! p)).
Proof.
  intros Hnow Hjunk Hok Hi Hf Ha Hw Hr Ho Hlen Hp Ho' Hl Hend inst.
  assert (file_ok f) as [_ Hs] by (destruct Hok as [_ Hall]; by eapply Forall_lookup_1).
  step. eapply wp_mono; [by eapply file_write_ok|].
  intros w rs1 [-> (f1 & Hok1 & Hf1 & Ec & Ha1 & Em & Eu)]. step.
  assert (Z.of_nat (length (f_contents f1)) = Z.max (st_size (f_fcb f)) (off + Z.of_nat (length data))) as El
    by (rewrite Ec, length_written by done; lia).
  assert (file_ok f1) as [_ Hs1] by (destruct Hok1 as [_ Hall]; by eapply Forall_lookup_1).
  eapply wp_mono; [eapply (file_read_ok pid now junk uid svr i f1); try done|].
  - unfold read_allowed in *. by rewrite Em, Eu.
  - lia.
  - intros x rs2 ->. step. exists (f_contents f1). eexists. split; [done|]. split; [done|]. split; [done|].
    intros p. rewrite Ec. apply written_lookup. done.
Qed.

(** * Witnesses *)

Definition wit_junk (n : nat) : message := replicate n Init.Byte.xff.

(** A server with one file, of user 7, that others may read. *)
Definition wit_file : file := File (Fcb true 3 1 7 P_FILE_DEFAULT 2 0) [Init.Byte.x61; Init.Byte.x62].
Definition wit_rs : ramfile_state :=
  RamFile 0 (File (Fcb true 0 0 0 0 0 0) [] :: wit_file :: replicate 98 (File zero_fcb [])) [].

Lemma wit_rs_ok : ram_ok wit_rs.
Proof.
  split; [done|]. unfold wit_rs. cbn [rs_files]. constructor; [by repeat split|]. constructor; [by repeat split|].
  apply Forall_replicate. by repeat split.
Qed.

Lemma ramfile_request_safe_witness :
  wp (ramfile_proc_round 3 0 wit_junk (request_bytes (FileRequest FILE_WRITE 1 0 1 0 0) ++ [Init.Byte.x00]) 9 8) wit_rs
    (fun _ rs' => served 9 8 wit_rs rs') /\
  ramfile_proc_round 3 0 wit_junk (request_bytes (FileRequest FILE_STAT 100 0 0 0 0)) 9 8 wit_rs = Undef.
Proof.
  split.
  - apply (ramfile_request_safe 3 0 wit_junk (request_bytes (FileRequest FILE_WRITE 1 0 1 0 0) ++ [Init.Byte.x00]) 9 8 wit_rs);
      [done|done|intros n; apply length_replicate|exact wit_rs_ok|done|vm_compute; lia|].
    intros [[[H|H] _]|[_ H]]; vm_compute in H; congruence || (by apply H).
  - apply (ramfile_request_safe 3 0 wit_junk (request_bytes (FileRequest FILE_STAT 100 0 0 0 0)) 9 8 wit_rs);
      [done|done|intros n; apply length_replicate|exact wit_rs_ok|done|vm_compute; lia|right; reflexivity|vm_compute; congruence].
Defined.

(** Writing two bytes past the end leaves a hole with what the memory held. *)
Lemma ramfile_write_read_witness :
  let _ : Rpc ramfile_state := ramfile_server 3 0 wit_junk 7 in
  let run := w ← file_write 5 1 4 [Init.Byte.x63] 1; x ← file_read 5 1 0 (replicate 5 Init.Byte.x00) 5; mret (w, x) in
  wp run wit_rs (fun r _ => exists contents d, r = (true, (true, d ++ drop (length d) (replicate 5 Init.Byte.x00), Z.of_nat (length d))) /\
    d = take 5 (drop 0 contents) /\ Z.of_nat (length contents) = 5 /\
    forall p, contents !! p =
      (if decide (4 <= p < 5)%nat then [Init.Byte.x63] !! (p - 4)%nat
       else if decide (p < 2)%nat then f_contents wit_file !! p else contents !! p)) /\
  wp run wit_rs (fun r _ => r = (true, (true, [Init.Byte.x61; Init.Byte.x62; Init.Byte.xff; Init.Byte.xff; Init.Byte.x63], 5))).
Proof.
  split; [|vm_compute; reflexivity].
  apply (ramfile_write_read 3 0 wit_junk 7 5 1 4 0 5 wit_file [Init.Byte.x63] (replicate 5 Init.Byte.x00) wit_rs);
    [done|intros n; apply length_replicate|exact wit_rs_ok|done|reflexivity|reflexivity|reflexivity|reflexivity|done|done
    |vm_compute; lia|done|done|done].
Defined.
