(* ===== verification/RamFileSpec.v ===== *)
(** The in-memory file server is a [FileService]. *)
From stdpp Require Import base numbers list.
From Stdlib Require Import ZArith Lia.
From S2P Require Import Prelude BlockStore BlockProt FileProt FileSpec RamFile.

Section ramfile.
Context (pid now uid : Z) (junk : nat -> message).
Context (Hpid : is_u32 pid) (Huid : is_u32 uid) (Hjunk : forall n, length (junk n) = n).
Abbreviation st := ramfile_state.

(** The abstract file of a table entry. *)
Definition view (f : file) : sfile := SFile (st_alloc (f_fcb f)) (st_uid (f_fcb f)) (st_mode (f_fcb f)) (f_contents f).

Record ram_rep (rs : st) (fs : list sfile) (N : nat) : Prop := {
  rr_ok : ram_ok rs;
  rr_view : fs = view <$> rs_files rs;
  rr_max f : f ∈ rs_files rs -> st_size (f_fcb f) <= max_file_size;
}.

Definition ram_answered (fs : list sfile) (r : file_result) (rs : st) : Prop :=
  (exists rep, result_reply r rep /\ rs_sent rs = [(1, rep)]) /\ ram_rep rs fs 0.

Lemma ram_length rs fs N : ram_rep rs fs N -> length fs = 100%nat.
Proof. intros [[Hl _] -> _]. by rewrite length_fmap. Qed.

Lemma ram_lookup rs fs N i : ram_rep rs fs N -> 0 <= i < MAX_FILES ->
  exists f, rs_files rs !! Z.to_nat i = Some f /\ file_ok f /\ fs !! Z.to_nat i = Some (view f) /\ st_size (f_fcb f) <= max_file_size.
Proof.
  intros [Hok -> Hmax] Hi. destruct (get_file_ok i rs Hok Hi) as (f & Hf & Hfo). exists f.
  split_and!; try done; [by rewrite list_lookup_fmap, Hf|]. apply Hmax. by eapply list_elem_of_lookup_2.
Qed.

(** Replacing a table entry. *)
Lemma ram_rep_insert rs fs N i f g sent : ram_rep rs fs N -> rs_files rs !! Z.to_nat i = Some f -> file_ok g ->
  st_size (f_fcb g) <= max_file_size ->
  ram_rep (RamFile (rs_start_time rs) (<[Z.to_nat i:=g]> (rs_files rs)) sent) (<[Z.to_nat i:=view g]> fs) 0.
Proof.
  intros [Hok -> Hmax] Hf Hg Hs. split.
  - by apply ram_ok_insert.
  - cbn [rs_files]. by rewrite list_fmap_insert.
  - cbn [rs_files]. intros h Hh. apply list_elem_of_lookup in Hh as [j Hj].
    destruct (decide (j = Z.to_nat i)) as [->|Hne].
    + rewrite list_lookup_insert_eq in Hj by (by eapply lookup_lt_Some). by injection Hj as <-.
    + rewrite list_lookup_insert_ne in Hj by done. apply Hmax. by eapply list_elem_of_lookup_2.
Qed.

Lemma ram_respond_ok ok r rs fs N : ram_rep rs fs N -> rs_sent rs = [] -> result_reply r (status_reply ok 0) ->
  wp (ramfile_respond 1 (if ok : bool then FILE_OK else FILE_ERROR) []) rs (fun _ rs' => ram_answered fs r rs').
Proof.
  intros [[Hl Hok] Hv Hm] Hs Hr. unfold ramfile_respond, rf_send. step.
  split; [exists (status_reply ok 0); split; [done|]; cbn [rs_sent]; by rewrite Hs, app_nil_r|by split].
Qed.

Lemma ram_send_ok m r rs fs N : ram_rep rs fs N -> rs_sent rs = [] -> result_reply r m ->
  wp (rf_send 1 m) rs (fun _ rs' => ram_answered fs r rs').
Proof.
  intros [[Hl Hok] Hv Hm] Hs Hr. unfold rf_send. step. split; [exists m; split; [done|]; cbn [rs_sent]; by rewrite Hs|by split].
Qed.

Lemma view_read f : read_allowed (sf_fcb (view f)) uid = read_allowed (f_fcb f) uid.
Proof. done. Qed.

Lemma view_write f : write_allowed (sf_fcb (view f)) uid = write_allowed (f_fcb f) uid.
Proof. done. Qed.

Lemma written_splice off data c : (off <= length c)%nat -> written junk off data c = splice off data c.
Proof.
  intros H. unfold written, splice. destruct (decide _) as [Hlt|]; [|done]. unfold realloc.
  rewrite (take_ge c) by lia. rewrite take_app_le by lia. do 2 f_equal.
  rewrite !drop_ge; [done|lia|]. rewrite length_app, Hjunk. lia.
Qed.

Lemma ram_write_ok rs fs N i off data : ram_rep rs fs N -> rs_sent rs = [] ->
  let o := FileWrite i off data in
  valid_file_op (fun _ => True) fs o ->
  wp (ramfile_do_write now junk (op_request o) 1 uid data) rs (fun _ rs' =>
    ram_answered (spec_file_op uid fs o).2 (spec_file_op uid fs o).1 rs').
Proof.
  intros H Hs o (Hi & _ & Hlen & Hoff & Hmax). rewrite (ram_length _ _ _ H) in Hi.
  destruct (ram_lookup _ _ _ i H) as (f & Hf & [Hw Hsz] & Hv & Hm); [unfold MAX_FILES; lia|].
  cbn [spec_file_op o]. rewrite Hv in *. cbn [fmap option_fmap option_map default from_option id view sf_data] in Hoff.
  unfold ramfile_do_write. change (fr_file_no (op_request o)) with i. change (fr_offset (op_request o)) with off.
  change (fr_size (op_request o)) with (Z.of_nat (length data)). rewrite decide_False by (unfold MAX_FILES; lia).
  step. eapply wp_get_file; [exact Hf|].
  destruct (decide (st_alloc (f_fcb f) = false)) as [Ea|Ea].
  { unfold may_write. cbn [view sf_alloc]. rewrite Ea. cbn [andb fst snd]. eapply (ram_respond_ok false); [exact H|exact Hs|done]. }
  apply not_false_is_true in Ea. rewrite may_write_alloc by exact Ea. rewrite view_write.
  rewrite decide_False by (intros Hx; by apply Hx).
  destruct (write_allowed (f_fcb f) uid) eqn:Ew; cbn [fst snd].
  2:{ rewrite decide_True by done. eapply (ram_respond_ok false); [exact H|exact Hs|done]. }
  rewrite decide_False by done. step. assert (max_file_size = 2 ^ 30) as EM by done.
  eapply wp_mono; [apply (put_ok now junk Hjunk i f off data rs (rr_ok _ _ _ H) Hf); [by split|lia|unfold two64; lia]|].
  intros u rs1 (t & Ht & ->). rewrite written_splice by lia.
  set (g := File _ _). assert (file_ok g) as Hg.
  { destruct Hw. split; cbn [g f_fcb f_contents].
    - split; cbn; try assumption. unfold two64; lia.
    - cbn. rewrite length_splice_ext by lia. lia. }
  pose proof (ram_rep_insert rs fs N i f g (rs_sent rs) H Hf Hg ltac:(cbn; lia)) as H1.
  assert (view g = SFile true (sf_uid (view f)) (sf_mode (view f)) (splice (Z.to_nat off) data (sf_data (view f)))) as Eg
    by (unfold view; cbn; by rewrite Ea).
  rewrite Eg in H1. eapply (ram_respond_ok true); [exact H1|exact Hs|done].
Qed.

Lemma ram_read_ok rs fs N i off len : ram_rep rs fs N -> rs_sent rs = [] ->
  let o := FileRead i off len in
  valid_file_op (fun _ => True) fs o ->
  wp (ramfile_do_read (op_request o) 1 uid) rs (fun _ rs' =>
    ram_answered (spec_file_op uid fs o).2 (spec_file_op uid fs o).1 rs').
Proof.
  intros H Hs o (Hi & Hoff & Hlen). rewrite (ram_length _ _ _ H) in Hi.
  destruct (ram_lookup _ _ _ i H) as (f & Hf & [Hw Hsz] & Hv & Hm); [unfold MAX_FILES; lia|].
  cbn [spec_file_op o]. rewrite Hv. unfold ramfile_do_read. change (fr_file_no (op_request o)) with i.
  change (fr_offset (op_request o)) with off. change (fr_size (op_request o)) with len.
  step. eapply wp_get_file; [exact Hf|].
  destruct (decide (st_alloc (f_fcb f) = false)) as [Ea|Ea].
  { rewrite decide_True by (by left). unfold may_read. cbn [view sf_alloc]. rewrite Ea. cbn [andb fst snd].
    eapply (ram_respond_ok false); [exact H|exact Hs|done]. }
  rewrite decide_False by (unfold MAX_FILES; intros [?|?]; [done|lia]). apply not_false_is_true in Ea. rewrite may_read_alloc by exact Ea.
  rewrite view_read. destruct (read_allowed (f_fcb f) uid) eqn:Er; cbn [fst snd].
  2:{ rewrite decide_True by done. eapply (ram_respond_ok false); [exact H|exact Hs|done]. }
  rewrite decide_False by done. assert (max_file_size = 2 ^ 30) as EM by done. cbv zeta.
  change (sf_data (view f)) with (f_contents f). set (d := take (Z.to_nat len) (drop (Z.to_nat off) (f_contents f))).
  step. apply (wp_mono _ _ (fun x rs' => x = d /\ rs' = rs)).
  - destruct (decide (off < st_size (f_fcb f))) as [Hlt|Hge].
    + rewrite u32_small by (split; unfold two32; lia).
      set (n := if decide (st_size (f_fcb f) - off > len) then _ else _).
      assert (n = Z.min len (st_size (f_fcb f) - off)) as En by (unfold n; destruct (decide _); lia). clearbody n.
      rewrite decide_True by lia. step. split; [|done]. unfold d. rewrite En.
      destruct (decide (len <= st_size (f_fcb f) - off)); [by rewrite Z.min_l by lia|].
      rewrite !take_ge by (rewrite length_drop; lia). done.
    + step. split; [|done]. unfold d. by rewrite drop_ge, take_nil by lia.
  - intros x rs' [-> ->]. eapply ram_send_ok; [exact H|exact Hs|done].
Qed.

Lemma ram_free_ok rs fs N n : forall i Q, ram_rep rs fs N -> 0 <= i -> i + Z.of_nat n = MAX_FILES ->
  Q (find_free (drop (Z.to_nat i) fs) i) rs -> wp (free_file n i) rs Q.
Proof.
  induction n as [|n IH]; intros i Q H Hi Hn HQ; cbn [free_file].
  - step. rewrite drop_ge in HQ; [exact HQ|]. rewrite (ram_length _ _ _ H). unfold MAX_FILES in *. lia.
  - destruct (ram_lookup _ _ _ i H) as (f & Hf & _ & Hv & _); [lia|].
    rewrite (drop_S fs (view f)) in HQ by exact Hv. cbn [find_free] in HQ. change (sf_alloc (view f)) with (st_alloc (f_fcb f)) in HQ.
    step. eapply wp_get_file; [exact Hf|]. destruct (st_alloc (f_fcb f)).
    + rewrite decide_False by done. apply IH; [done|lia|lia|].
      by replace (Z.to_nat (i + 1)) with (Datatypes.S (Z.to_nat i)) by lia.
    + rewrite decide_True by done. by step.
Qed.

Lemma ram_create_ok rs fs N mode : ram_rep rs fs N -> rs_sent rs = [] ->
  let o := FileCreate mode in
  valid_file_op (fun _ => True) fs o ->
  wp (ramfile_do_create pid now (op_request o) 1 uid) rs (fun _ rs' =>
    ram_answered (spec_file_op uid fs o).2 (spec_file_op uid fs o).1 rs').
Proof.
  intros H Hs o [Hmode _]. cbn [spec_file_op o]. cbv zeta.
  assert (drop (Z.to_nat 1) fs = tail fs) as Etl by (by destruct fs).
  destruct (find_free_spec (tail fs) 1) as (k & Ek & Hk & _). rewrite <- Etl, length_drop, (ram_length _ _ _ H) in Hk.
  unfold ramfile_do_create. step. eapply (ram_free_ok rs fs N _ 1); [exact H|lia|unfold MAX_FILES; lia|]. rewrite Etl.
  set (i := find_free (tail fs) 1) in *.
  destruct (decide (i = MAX_FILES)) as [Ei|Hne].
  { rewrite (lookup_ge_None_2 fs) by (rewrite (ram_length _ _ _ H); unfold MAX_FILES in Ei; lia). cbn [fst snd].
    eapply (ram_respond_ok false); [exact H|exact Hs|done]. }
  assert (1 <= i < MAX_FILES) as Hi by (unfold MAX_FILES in *; lia).
  destruct (ram_lookup _ _ _ i H) as (f & Hf & [Hw Hsz] & Hv & Hm); [lia|]. rewrite Hv. cbn [fst snd].
  change (fr_mode (op_request o)) with mode.
  step. eapply wp_upd_file; [exact Hf|]. set (g := set_fcb _ f).
  assert (file_ok g) as Hg.
  { split; [|exact Hsz]. destruct Hw. unfold MAX_FILES in Hi. split; cbn; try assumption; try lia; split; unfold two32; lia. }
  pose proof (ram_rep_insert rs fs N i f g (rs_sent rs) H Hf Hg Hm) as H1.
  step. apply wp_rf_time; [by destruct H1|]. intros t Ht.
  step. eapply wp_upd_file; [cbn [rs_files]; apply list_lookup_insert_eq; by eapply lookup_lt_Some|].
  cbn [rs_start_time rs_files rs_sent]. rewrite list_insert_insert_eq.
  set (h := set_fcb (st_set_modtime t) g). assert (file_ok h) as Hh by (destruct Hg as [[] Hs']; split; [by split|exact Hs']).
  eapply ram_send_ok; [exact (ram_rep_insert rs fs N i f h _ H Hf Hh Hm)|exact Hs|done].
Qed.

Lemma ram_stat_ok rs fs N i : ram_rep rs fs N -> rs_sent rs = [] ->
  let o := FileStat i in
  valid_file_op (fun _ => True) fs o ->
  wp (ramfile_do_stat (op_request o) 1 uid) rs (fun _ rs' =>
    ram_answered (spec_file_op uid fs o).2 (spec_file_op uid fs o).1 rs').
Proof.
  intros H Hs o Hi. cbn [valid_file_op o] in Hi. rewrite (ram_length _ _ _ H) in Hi.
  destruct (ram_lookup _ _ _ i H) as (f & Hf & [Hw Hsz] & Hv & Hm); [unfold MAX_FILES; lia|].
  cbn [spec_file_op o]. rewrite Hv. unfold ramfile_do_stat. change (fr_file_no (op_request o)) with i.
  step. eapply wp_get_file; [exact Hf|].
  destruct (decide (st_alloc (f_fcb f) = false)) as [Ea|Ea].
  { rewrite decide_True by (by left). unfold may_read. cbn [view sf_alloc]. rewrite Ea. cbn [andb fst snd].
    eapply (ram_respond_ok false); [exact H|exact Hs|done]. }
  rewrite decide_False by (unfold MAX_FILES; intros [?|?]; [done|lia]). apply not_false_is_true in Ea.
  rewrite may_read_alloc by exact Ea. rewrite view_read. destruct (read_allowed (f_fcb f) uid) eqn:Er; cbn [fst snd].
  2:{ rewrite decide_True by done. eapply (ram_respond_ok false); [exact H|exact Hs|done]. }
  rewrite decide_False by done. eapply ram_send_ok; [exact H|exact Hs|]. by exists (f_fcb f).
Qed.

Lemma ram_round_ok rs fs N o : ram_rep rs fs N -> rs_sent rs = [] -> valid_file_op (fun _ => True) fs o ->
  wp (ramfile_proc_round pid now junk (request_bytes (op_request o) ++ op_data o) 1 uid) rs (fun _ rs' =>
    ram_answered (spec_file_op uid fs o).2 (spec_file_op uid fs o).1 rs').
Proof.
  intros H Hs Hv. unfold ramfile_proc_round. rewrite op_message by (by eapply op_data_length). cbv zeta.
  assert (request_wf (op_request o)) as Hwf by (eapply op_request_wf; [exact Hv|rewrite (ram_length _ _ _ H); unfold two32; lia]).
  rewrite bool_decide_eq_true_2 by (rewrite length_app, length_request_bytes; lia).
  step. apply wp_assert; [done|]. rewrite request_of_bytes by exact Hwf.
  rewrite drop_app_length' by (by rewrite length_request_bytes).
  destruct o as [mode|i off data|i off len|i]; cbn [op_data].
  - rewrite decide_True by done. by eapply ram_create_ok.
  - do 4 rewrite decide_False by done. rewrite decide_True by done. by eapply ram_write_ok.
  - do 3 rewrite decide_False by done. rewrite decide_True by done. by eapply ram_read_ok.
  - do 5 rewrite decide_False by done. rewrite decide_True by done. by eapply ram_stat_ok.
Qed.

Program Definition ramfile_service (svr : Z) : FileService (ramfile_server pid now junk uid) svr uid := {|
  fsv_rep := ram_rep;
  fsv_good _ := True;
  fsv_cost := 0%nat;
|}.
Next Obligation.
  intros svr rs fs N o H Hv _.
  apply (exec_file_op_ok svr (fun rs' => ram_rep rs' (spec_file_op uid fs o).2 (N - 0))).
  { eapply spec_op_result; [exact Hv|rewrite (ram_length _ _ _ H); unfold two32; lia]. }
  set (rs0 := RamFile (rs_start_time rs) (rs_files rs) []).
  assert (ram_rep rs0 fs N) as H0 by (destruct H as [[] ? ?]; by split).
  pose proof (ram_round_ok rs0 fs N o H0 eq_refl Hv) as Hr.
  unfold sys_rpc, ramfile_server, ramfile_rpc. unfold wp in Hr |- *. fold rs0.
  destruct (ramfile_proc_round _ _ _ _ _ _ rs0) as [[u rs1]| | |]; try done. destruct Hr as [(rep & Hrep & Es) H1].
  rewrite Es. cbn [last]. split; [by exists rep|]. by destruct H1.
Qed.
End ramfile.

(** * Properties *)

(** The table that the server starts with. *)
Definition ram_start : list sfile := SFile true 0 0 [] :: replicate 99 (SFile false 0 0 []).

Lemma ram_start_rep seconds start N : 0 <= seconds < two64 -> ram_rep (ramfile_init seconds start) ram_start N.
Proof.
  intros Hs. split; [by apply ramfile_init_ok|reflexivity|]. cbn [ramfile_init rs_files].
  intros f Hf. apply elem_of_cons in Hf as [->|Hf]; [done|]. apply elem_of_replicate in Hf as [-> _]. done.
Qed.

(** C7. The in-memory file server does what the abstract files say for every
    sequence of requests to create, write, read and stat files, of any user: the same
    interface, with the same specification, as the file server on the disk. *)
Theorem ramfile_files_correct (pid now uid svr seconds start : Z) (junk : nat -> message) (os : list file_op) :
  is_u32 pid -> is_u32 uid -> (forall n, length (junk n) = n) -> 0 <= seconds < two64 ->
  valid_file_ops (fun _ => True) uid ram_start os ->
  wp (@exec_file_ops _ (ramfile_server pid now junk uid) svr os) (ramfile_init seconds start)
    (fun rs _ => rs = (spec_file_ops uid ram_start os).1).
Proof.
  intros Hpid Huid Hjunk Hsec Hv.
  eapply wp_mono; [eapply (file_ops_ok (ramfile_server pid now junk uid) svr uid
    (FileService0 := ramfile_service pid now uid junk Hpid Huid Hjunk svr) os _ ram_start 0)|by intros rs t [-> _]].
  - by apply ram_start_rep.
  - exact Hv.
  - cbn. lia.
Qed.

Definition ram_wit_ops : list file_op :=
  [FileCreate P_FILE_DEFAULT; FileWrite 1 0 [Init.Byte.x58; Init.Byte.x59]; FileRead 1 1 9; FileRead 2 0 4; FileWrite 1 1 []; FileStat 1].

Lemma ramfile_files_correct_witness :
  wp (@exec_file_ops _ (ramfile_server 3 0 (fun n => replicate n Init.Byte.xff) 7) 5 ram_wit_ops) (ramfile_init 0 0)
    (fun rs _ => rs = [RCreate true 1; RWrite true; RRead true [Init.Byte.x59]; RRead false []; RWrite true; RStat true 7 P_FILE_DEFAULT]).
Proof.
  apply (ramfile_files_correct 3 0 7 5 0 0 (fun n => replicate n Init.Byte.xff) ram_wit_ops);
    [done|done|intros n; apply length_replicate|done|].
  repeat split; vm_compute; congruence || lia.
Defined.
