(* ===== verification/BlockFile.v ===== *)
(** src/src/apps/bfs.c: the file server that keeps its files at a block server, a
    file per inode, with the array of file control blocks in inode 0. The block
    server is reached through the stubs of [BlockProt]. *)
From stdpp Require Import base numbers list.
From Stdlib Require Import ZArith Lia.
From S2P Require Import Prelude BlockStore BlockProt FileProt.

(** Bytes of memory. A copy that leaves its buffer is undefined behaviour. *)
Definition mem_read {S} (m : message) (a n : nat) : M S message :=
  if decide (a + n <= length m)%nat then mret (take n (drop a m)) else undef.

Definition mem_write {S} (m : message) (a : nat) (data : message) : M S message :=
  if decide (a + length data <= length m)%nat then mret (splice a data m) else undef.

(** [struct file_server_state], the block server behind it, and what has been
    sent, newest first. *)
Record file_server_state (T : Type) := FileServer {
  fss_kernel : T;
  fss_block_svr : Z;
  fss_global_time : Z;
  fss_start_time : Z;
  fss_fcb_cache : list fcb;
  fss_num_fcbs : Z;
  fss_sent : list (Z * message);
}.
Arguments FileServer {T}.
Arguments fss_kernel {T}.
Arguments fss_block_svr {T}.
Arguments fss_global_time {T}.
Arguments fss_start_time {T}.
Arguments fss_fcb_cache {T}.
Arguments fss_num_fcbs {T}.
Arguments fss_sent {T}.

Definition BLKSZ : Z := Z.of_nat BLOCK_SIZE.
Definition STATS_PER_BLOCK : Z := BLKSZ / Z.of_nat sizeof_fcb.

(** ** Many blocks at a time *)

Section multiblock.
Context {T : Type} `{!Rpc T}.

(** The loop, [n] more rounds, with the next block going to address [a] of the
    buffer; the result is the number of blocks read. *)
Fixpoint multiblock_read_loop (n : nat) (svr ino offset : Z) (buf : message) (a : nat) (i : Z) : M T (Z * message) :=
  match n with
  | O => mret (i, buf)
  | Datatypes.S n =>
      r ← block_read svr ino offset null_block;
      let '(ok, b) := r in
      if (ok : bool) then
        buf ← mem_write buf a b;
        multiblock_read_loop n svr ino (u32 (offset + 1)) buf (a + BLOCK_SIZE) (i + 1)
      else mret (i, buf)
  end.

(** The result, the buffer and [*p_nblocks]. *)
Definition multiblock_read (svr ino offset : Z) (addr : message) (nblocks : Z) : M T (bool * message * Z) :=
  r ← multiblock_read_loop (Z.to_nat nblocks) svr ino offset addr 0 0;
  let '(i, buf) := r in
  if decide (i = 0 /\ nblocks <> 0) then mret (false, buf, nblocks) else mret (true, buf, i).

Fixpoint multiblock_write_loop (n : nat) (svr ino offset : Z) (buf : message) (a : nat) : M T bool :=
  match n with
  | O => mret true
  | Datatypes.S n =>
      b ← mem_read buf a BLOCK_SIZE;
      r ← block_write svr ino offset b;
      if (r : bool) then multiblock_write_loop n svr ino (u32 (offset + 1)) buf (a + BLOCK_SIZE) else mret false
  end.

Definition multiblock_write (svr ino offset : Z) (addr : message) (nblocks : Z) : M T bool :=
  multiblock_write_loop (Z.to_nat nblocks) svr ino offset addr 0.
End multiblock.

Section bfs.
Context {T : Type} `{!Rpc T}.
(** The server's pid and the time that [sys_gettime] gives during the request. *)
Context (pid now : Z).
Abbreviation st := (file_server_state T).

(** A call to the block server. *)
Definition fs_call {A} (m : Z -> M T A) : M st A :=
  fss ← get;
  lift fss_kernel
    (fun t fss => FileServer t (fss_block_svr fss) (fss_global_time fss) (fss_start_time fss)
                    (fss_fcb_cache fss) (fss_num_fcbs fss) (fss_sent fss))
    (m (fss_block_svr fss)).

Definition fs_send (dst : Z) (m : message) : M st unit :=
  modify (fun fss => FileServer (fss_kernel fss) (fss_block_svr fss) (fss_global_time fss) (fss_start_time fss)
                       (fss_fcb_cache fss) (fss_num_fcbs fss) ((dst, m) :: fss_sent fss)).

Definition set_cache (c : list fcb) : M st unit :=
  modify (fun fss => FileServer (fss_kernel fss) (fss_block_svr fss) (fss_global_time fss) (fss_start_time fss)
                       c (fss_num_fcbs fss) (fss_sent fss)).

Definition get_fcb (i : Z) : M st fcb := fss ← get; read_nth (fss_fcb_cache fss) (Z.to_nat i).

Definition upd_fcb (i : Z) (g : fcb -> fcb) : M st unit :=
  f ← get_fcb i; fss ← get; set_cache (<[Z.to_nat i:=g f]> (fss_fcb_cache fss)).

Definition blkfile_respond (status : Z) (src : Z) : M st unit :=
  fs_send src (reply_bytes (FileReply status 0 0 zero_fcb)).

(** The array of control blocks as memory. *)
Definition cache_bytes (c : list fcb) : message := concat (fcb_bytes <$> c).

Definition flush_stat_cache_all : M st unit :=
  fss ← get;
  let size := u32 (fss_num_fcbs fss * Z.of_nat sizeof_fcb) in
  let end_block_no := u32 (size - 1) / BLKSZ in
  fs_call (fun svr => multiblock_write svr 0 0 (cache_bytes (fss_fcb_cache fss)) (u32 (end_block_no + 1)));;
  mret tt.

(** The number of blocks written is [end_block_no + 1], from [start_block_no]
    on. *)
Definition flush_fcb_cache (file_no : Z) : M st unit :=
  fss ← get;
  let start_block_no := u32 (file_no * Z.of_nat sizeof_fcb / BLKSZ) in
  let end_block_no := u32 (((file_no + 1) * Z.of_nat sizeof_fcb - 1) / BLKSZ) in
  fs_call (fun svr => multiblock_write svr 0 start_block_no
    (drop (Z.to_nat (u32 (start_block_no * BLKSZ))) (cache_bytes (fss_fcb_cache fss))) (u32 (end_block_no + 1)));;
  mret tt.

(** The control blocks in [n] times 40 bytes. *)
Fixpoint fcbs_of (n : nat) (m : message) : list fcb :=
  match n with O => [] | Datatypes.S n => fcb_of m :: fcbs_of n (drop sizeof_fcb m) end.

Definition load_fcb_cache : M st bool :=
  fss ← get;
  let size := u32 (fss_num_fcbs fss * Z.of_nat sizeof_fcb) in
  x ← fs_call (fun svr => block_getsize svr 0 0);
  assert_ x.1;;
  if decide (x.2 = 0) then mret false else
  if decide (x.2 <> u32 (u32 (size - 1) / BLKSZ + 1)) then mret false else
  r ← fs_call (fun svr => multiblock_read svr 0 0 (cache_bytes (fss_fcb_cache fss)) x.2);
  set_cache (fcbs_of (length (fss_fcb_cache fss)) r.1.2);;
  mret true.

(** The modification time that a change gets. *)
Definition fs_time : M st Z :=
  fss ← get; mret (u64 (fss_global_time fss + u64 (now - fss_start_time fss) / 1000)).

Fixpoint free_fcb (n : nat) (i : Z) : M st Z :=
  match n with
  | O => mret i
  | Datatypes.S n => f ← get_fcb i; if decide (st_alloc f = false) then mret i else free_fcb n (i + 1)
  end.

(** The size of a file that is created is what its control block holds. *)
Definition blkfile_do_create (req : file_request) (src uid : Z) : M st unit :=
  fss ← get;
  file_no ← free_fcb (Z.to_nat (fss_num_fcbs fss - 1)) 1;
  if decide (file_no = fss_num_fcbs fss) then blkfile_respond FILE_ERROR src else
  t ← fs_time;
  upd_fcb file_no (fun f => Fcb true pid file_no uid (fr_mode req) (st_size f) t);;
  flush_fcb_cache file_no;;
  fs_send src (reply_bytes (FileReply FILE_OK file_no 0 zero_fcb)).

(** After an error of [block_setsize] a second reply is sent. *)
Definition blkfile_do_delete (req : file_request) (src uid : Z) : M st unit :=
  fss ← get;
  if decide (fr_file_no req >= fss_num_fcbs fss) then blkfile_respond FILE_ERROR src else
  f ← get_fcb (fr_file_no req);
  if decide (write_allowed f uid = false) then blkfile_respond FILE_ERROR src else
  let rep := reply_bytes (FileReply FILE_OK 0 0 zero_fcb) in
  if decide (st_alloc f = false) then fs_send src rep else
  upd_fcb (fr_file_no req) (st_set_alloc false);;
  flush_fcb_cache (fr_file_no req);;
  r ← fs_call (fun svr => block_setsize svr (fr_file_no req) 0);
  (if (r : bool) then mret tt else blkfile_respond FILE_ERROR src);;
  fs_send src rep.

(** The test that the other handlers begin with: the control block of a file. *)
Definition with_file (req : file_request) (src : Z) (k : fcb -> M st unit) : M st unit :=
  fss ← get;
  if decide (fr_file_no req >= fss_num_fcbs fss) then blkfile_respond FILE_ERROR src else
  f ← get_fcb (fr_file_no req);
  if decide (st_alloc f = false) then blkfile_respond FILE_ERROR src else k f.

Definition blkfile_do_chown (req : file_request) (src uid : Z) : M st unit :=
  with_file req src (fun f =>
    if decide (uid <> 0) then blkfile_respond FILE_ERROR src else
    upd_fcb (fr_file_no req) (st_set_uid (fr_uid req));;
    flush_fcb_cache (fr_file_no req);;
    fs_send src (reply_bytes (FileReply FILE_OK 0 0 zero_fcb))).

Definition blkfile_do_chmod (req : file_request) (src uid : Z) : M st unit :=
  with_file req src (fun f =>
    if decide (uid <> 0 /\ uid <> st_uid f) then blkfile_respond FILE_ERROR src else
    upd_fcb (fr_file_no req) (st_set_mode (fr_mode req));;
    flush_fcb_cache (fr_file_no req);;
    fs_send src (reply_bytes (FileReply FILE_OK 0 0 zero_fcb))).

Definition blkfile_do_read (req : file_request) (src uid : Z) : M st unit :=
  with_file req src (fun f =>
    if decide (read_allowed f uid = false) then blkfile_respond FILE_ERROR src else
    let answer data :=
      fs_send src (reply_bytes (FileReply FILE_OK 0 FILE_READ (st_set_size (Z.of_nat (length data)) zero_fcb)) ++ data) in
    if decide (fr_size req = 0) then answer [] else
    let offset := fr_offset req in
    if decide (offset < st_size f) then
      let n := u32 (st_size f - offset) in
      let n := if decide (n > fr_size req) then fr_size req else n in
      let start_block_no := u32 (offset / BLKSZ) in
      let end_block_no := u32 (u64 (offset + n - 1) / BLKSZ) in
      let psize_nblock := u32 (end_block_no - start_block_no + 1) in
      r ← fs_call (fun svr => multiblock_read svr (fr_file_no req) start_block_no
                                (replicate (Z.to_nat (u32 (psize_nblock * BLKSZ))) Init.Byte.x00) psize_nblock);
      let '(ok, contents, count) := r in
      if decide ((ok : bool) = false \/ count <> psize_nblock) then blkfile_respond FILE_ERROR src else
      data ← mem_read contents (Z.to_nat (offset mod BLKSZ)) (Z.to_nat n);
      answer data
    else answer []).

(** [None] stands for the result [-1]. The buffer is cleared before use. *)
Definition blkfile_put (file_no offset : Z) (data : message) : M st (option unit) :=
  f ← get_fcb file_no;
  let size := Z.of_nat (length data) in
  let file_size := st_size f in
  let start_block_no := offset / BLKSZ in
  let '(final_size, end_block_no, psize_nblock) :=
    if decide (u64 (offset + size) > file_size) then
      let final_size := u64 (offset + size) in
      (final_size, final_size / BLKSZ, u32 (file_size / BLKSZ - start_block_no + 1))
    else
      (file_size, u64 (offset + size) / BLKSZ, u32 (u64 (offset + size) / BLKSZ - start_block_no + 1)) in
  let nblocks := u64 (end_block_no - start_block_no + 1) in
  let contents := replicate (Z.to_nat (u64 (nblocks * BLKSZ))) Init.Byte.x00 in
  ok ← (if decide (start_block_no > file_size / BLKSZ) then
          contents ← mem_write contents (Z.to_nat (offset mod BLKSZ)) data;
          fs_call (fun svr => multiblock_write svr file_no (u32 start_block_no) contents (u32 nblocks))
        else
          r ← (if decide (file_size <> 0) then
                 r ← fs_call (fun svr => multiblock_read svr file_no (u32 start_block_no) contents psize_nblock);
                 mret r.1
               else mret (true, contents));
          let '(ok, contents) := r in
          if (ok : bool) then
            contents ← mem_write contents (Z.to_nat (offset mod BLKSZ)) data;
            fs_call (fun svr => multiblock_write svr file_no (u32 start_block_no) contents (u32 nblocks))
          else mret false);
  if (ok : bool) then
    t ← fs_time;
    upd_fcb file_no (fun f => st_set_modtime t (st_set_size final_size f));;
    flush_fcb_cache file_no;;
    mret (Some tt)
  else mret None.

Definition blkfile_do_write (req : file_request) (data : message) (src uid : Z) : M st unit :=
  with_file req src (fun f =>
    if decide (fr_size req <> Z.of_nat (length data)) then blkfile_respond FILE_ERROR src else
    if decide (write_allowed f uid = false) then blkfile_respond FILE_ERROR src else
    r ← blkfile_put (fr_file_no req) (fr_offset req) data;
    match r with
    | Some _ => blkfile_respond FILE_OK src
    | None => blkfile_respond FILE_ERROR src
    end).

Definition blkfile_do_sync (req : file_request) (src uid : Z) : M st unit :=
  fss ← get;
  if decide (fr_file_no req >= fss_num_fcbs fss /\ fr_file_no req <> minus1_u) then blkfile_respond FILE_ERROR src else
  r ← fs_call (fun svr => block_sync svr (fr_file_no req));
  if (r : bool) then blkfile_respond FILE_OK src else blkfile_respond FILE_ERROR src.

Definition blkfile_do_stat (req : file_request) (src uid : Z) : M st unit :=
  with_file req src (fun f =>
    if decide (read_allowed f uid = false) then blkfile_respond FILE_ERROR src else
    fs_send src (reply_bytes (FileReply FILE_OK 0 FILE_STAT f))).

(** After an error of [block_setsize] the handler goes on. *)
Definition blkfile_do_setsize (req : file_request) (src uid : Z) : M st unit :=
  with_file req src (fun f =>
    if decide (fr_offset req > st_size f) then blkfile_respond FILE_ERROR src else
    if decide (write_allowed f uid = false) then blkfile_respond FILE_ERROR src else
    let final_nblock := if decide (fr_offset req = 0) then 0 else u32 (1 + fr_offset req / BLKSZ) in
    r ← fs_call (fun svr => block_setsize svr (fr_file_no req) final_nblock);
    (if (r : bool) then mret tt else blkfile_respond FILE_ERROR src);;
    t ← fs_time;
    upd_fcb (fr_file_no req) (fun f => st_set_modtime t (st_set_size (fr_offset req) f));;
    flush_fcb_cache (fr_file_no req);;
    blkfile_respond FILE_OK src).

(** One round of the loop of [blkfile_proc]. *)
Definition blkfile_proc_round (msg : message) (src uid : Z) : M st unit :=
  let msg := take (sizeof_file_request + PAGESIZE) msg in
  assert_ (bool_decide (sizeof_file_request <= length msg)%nat);;
  let req := request_of msg in
  let type := fr_type req in
  if decide (type = FILE_CREATE) then blkfile_do_create req src uid else
  if decide (type = FILE_DELETE) then blkfile_do_delete req src uid else
  if decide (type = FILE_CHOWN) then blkfile_do_chown req src uid else
  if decide (type = FILE_CHMOD) then blkfile_do_chmod req src uid else
  if decide (type = FILE_READ) then blkfile_do_read req src uid else
  if decide (type = FILE_WRITE) then blkfile_do_write req (drop sizeof_file_request msg) src uid else
  if decide (type = FILE_SYNC) then blkfile_do_sync req src uid else
  if decide (type = FILE_STAT) then blkfile_do_stat req src uid else
  if decide (type = FILE_SETSIZE) then blkfile_do_setsize req src uid else
  panic.

(** What [blkfile_proc] does before its loop. *)
Definition blkfile_start : M st unit :=
  r ← load_fcb_cache;
  if (r : bool) then mret tt else
  fss ← get;
  set_cache (replicate (length (fss_fcb_cache fss)) zero_fcb);;
  upd_fcb 0 (st_set_alloc true);;
  upd_fcb 0 (st_set_size (fss_num_fcbs fss * Z.of_nat sizeof_fcb / STATS_PER_BLOCK));;
  flush_stat_cache_all.
End bfs.

(** [main], until it serves: [seconds] is the time of the gate server, [start]
    that of [sys_gettime]. The result of [block_getninodes] is not looked at, and
    [ninodes] is uninitialised when it fails. *)
Definition bfs_main {T} `{!Rpc T} (svr seconds start : Z) : M T (file_server_state T) := fun t =>
  match block_getninodes svr 0 t with
  | Ret ((true, ninodes), t) =>
      match blkfile_start (FileServer t svr seconds (u32 start) (replicate (Z.to_nat ninodes) zero_fcb) ninodes []) with
      | Ret (_, fss) => Ret (fss, fss_kernel fss)
      | Exit => Exit
      | Undef => Undef
      | OutOfFuel => OutOfFuel
      end
  | Ret ((false, _), _) => Undef
  | Exit => Exit
  | Undef => Undef
  | OutOfFuel => OutOfFuel
  end.

(** A call of user [uid] to the server: the reply is the first thing that it sends
    back. A server that has died answers nothing. *)
Definition blkfile_rpc {T} `{!Rpc T} (pid now uid : Z) (msg : message) (repsize : nat)
    : M (option (file_server_state T)) (option message) := fun o =>
  match o with
  | None => Ret (None, None)
  | Some fss =>
      match blkfile_proc_round pid now msg 1 uid
              (FileServer (fss_kernel fss) (fss_block_svr fss) (fss_global_time fss) (fss_start_time fss)
                 (fss_fcb_cache fss) (fss_num_fcbs fss) []) with
      | Ret (_, fss) =>
          match last (fss_sent fss) with
          | Some (_, rep) => Ret (Some (take repsize rep), Some fss)
          | None => OutOfFuel
          end
      | Exit => Ret (None, None)
      | Undef => Undef
      | OutOfFuel => OutOfFuel
      end
  end.

Definition blkfile_server {T} (rpc : Rpc T) (pid now uid : Z) : Rpc (option (file_server_state T)) :=
  fun _ msg repsize => blkfile_rpc pid now uid msg repsize.
