(* ===== verification/BlockService.v ===== *)
(** What a client of the block server relies on, as an interface, its
    implementation by the server over a tree file system, and the transfers of
    many blocks that bfs.c builds on it. *)
From stdpp Require Import base numbers list gmap.
From Stdlib Require Import ZArith Lia.
From S2P Require Import Prelude BlockStore TreeDisk TreeInv TreeSpec TreeProps BlockProt FileProt BlockFile.

(** The blocks that one write can take. *)
Definition write_cost : nat := 9.

(** [svc_rep t f n]: the server holds the files [f] and has [n] free blocks. *)
Class BlockService {T} (rpc : Rpc T) (svr : Z) := {
  svc_rep : T -> files -> nat -> Prop;
  svc_mono t f n n' : svc_rep t f n -> (n' <= n)%nat -> svc_rep t f n';
  svc_wf t f n i o : svc_rep t f n -> 0 <= i < f_ninodes f -> is_u32 i -> 0 <= o -> block_wf (f_data f i o);
  svc_size t f n i : svc_rep t f n -> 0 <= i < f_ninodes f -> is_u32 i -> is_u32 (f_size f i);
  svc_read t f n i o :
    svc_rep t f n -> 0 <= i < f_ninodes f -> is_u32 i -> is_u32 o -> o < f_size f i ->
    wp (block_read svr i o null_block) t (fun x t' => x = (true, f_data f i o) /\ svc_rep t' f n);
  svc_write t f n i o b :
    svc_rep t f n -> 0 <= i < f_ninodes f -> is_u32 i -> 0 <= o -> is_u32 (o + 1) -> block_wf b -> (write_cost <= n)%nat ->
    wp (block_write svr i o b) t (fun r t' => r = true /\ svc_rep t' (f_write f i o b) (n - write_cost));
  svc_getsize t f n i x :
    svc_rep t f n -> is_u32 i -> 0 <= i < f_ninodes f -> f_size f i < 2147483648 ->
    wp (block_getsize svr i x) t (fun y t' => y = (true, f_size f i) /\ svc_rep t' f n);
  svc_getninodes t f n x :
    svc_rep t f n -> 0 <= f_ninodes f < 2147483648 ->
    wp (block_getninodes svr x) t (fun y t' => y = (true, f_ninodes f) /\ svc_rep t' f n);
}.

(** * The server over a tree file system *)

Section tree.
Context {S : Type} {R : S -> vdisk -> Prop} `{!BlockStore S, !Lawful S R} (bino svr : Z).

Definition tree_svc_rep (o : option (treedisk_state S)) (f : files) (n : nat) : Prop :=
  exists ts fl, o = Some ts /\ tree_repr (R:=R) bino ts fl f /\ (n <= length fl)%nat.

Lemma tree_size_u32 ts fl f i : tree_repr (R:=R) bino ts fl f -> 0 <= i < f_ninodes f -> is_u32 i -> is_u32 (f_size f i).
Proof.
  intros (dB & _ & lv & rl & _ & Hn & Hf) Hi Hu.
  destruct (Hf i) as (_ & <- & _); [split; [apply Hu|lia]|]. apply get32_u32.
Qed.

Lemma blocks_needed_le f i o : is_u32 (f_size f i) -> 0 <= o -> is_u32 (o + 1) -> (blocks_needed f i o <= write_cost)%nat.
Proof.
  intros Hf Ho Ho1. unfold blocks_needed, write_cost.
  destruct (tree_levels_spec (Z.max (f_size f i) (o + 1))) as (_ & H & _); [unfold is_u32 in *; lia|]. lia.
Qed.

Lemma tree_client o f n op ts fl :
  o = Some ts -> tree_repr (R:=R) bino ts fl f -> (n <= length fl)%nat -> valid_op f op -> (budget f [op] <= n)%nat ->
  wp (client_op svr op) o (fun r o' => r = client_view op (spec_op f op).1 /\
    tree_svc_rep o' (spec_op f op).2 (n - budget f [op])).
Proof.
  intros -> Hr Hn Hv Hb.
  wp_use (client_op_ok bino svr ts fl f op Hr Hv) as [-> (ts' & fl' & -> & Hr' & Hl)]; [lia|].
  split; [done|]. exists ts', fl'. split; [done|]. split; [done|lia].
Qed.

Lemma svc_rep_le o f n n' : tree_svc_rep o f n -> (n' <= n)%nat -> tree_svc_rep o f n'.
Proof. intros (ts & fl & -> & Hr & Hn) H. exists ts, fl. split; [done|]. split; [done|lia]. Qed.

Lemma getninodes_ok ts fl f : tree_repr (R:=R) bino ts fl f -> 0 <= f_ninodes f < 2147483648 ->
  wp treedisk_getninodes ts (fun r ts' => tree_repr (R:=R) bino ts' fl f /\ r = f_ninodes f).
Proof.
  intros (dB & Hs & lv & rl & HI & En & Hf) Hni. unfold treedisk_getninodes. step.
  wp_use (td_read_ok bino ts dB 0 null_block Hs (proj1 (ti_zero_meta bino HI)) null_block_wf) as [-> Hs1].
  rewrite decide_False by (cbn; lia). step. split; [exists dB; split; [done|by exists lv, rl]|].
  cbn [snd]. unfold n_inodes in En. rewrite En. apply i32_small. lia.
Qed.

#[export] Program Instance tree_block_service : BlockService (@block_server_rpc (treedisk_state S) _) svr := {|
  svc_rep := tree_svc_rep;
|}.
Next Obligation. intros. by eapply svc_rep_le. Qed.
Next Obligation. intros o f n i off (ts & fl & -> & Hr & _) Hi Hu Ho. eapply f_data_wf; [exact Hr|done|lia|done]. Qed.
Next Obligation. intros o f n i (ts & fl & -> & Hr & _) Hi Hu. by eapply tree_size_u32. Qed.
Next Obligation.
  intros o f n i off (ts & fl & Eo & Hr & Hn) Hi Hu Ho Hlt.
  pose proof (tree_client o f n (OpRead i off) ts fl Eo Hr Hn) as H. cbn [client_op valid_op budget spec_op] in H.
  specialize (H ltac:(done) ltac:(simpl; lia)). apply wp_bind_inv in H. wp_use H as Hx. cbn [fst snd] in Hx.
  rewrite decide_True in Hx by lia. destruct Hx as [[= E1 E2] H2]. split; [|eapply svc_rep_le; [exact H2|simpl; lia]].
  by apply injective_projections.
Qed.
Next Obligation.
  intros o f n i off b (ts & fl & Eo & Hr & Hn) Hi Hu Ho Ho1 Hb Hc.
  assert (blocks_needed f i off <= write_cost)%nat as Hbn
    by (apply blocks_needed_le; [by eapply tree_size_u32|done|done]).
  pose proof (tree_client o f n (OpWrite i off b) ts fl Eo Hr Hn) as H. cbn [client_op valid_op budget spec_op] in H.
  specialize (H ltac:(done) ltac:(simpl; lia)). apply wp_bind_inv in H. wp_use H as Hx. cbn [fst snd] in Hx.
  destruct Hx as [[= E1] H2]. split; [done|]. eapply svc_rep_le; [exact H2|lia].
Qed.
Next Obligation.
  intros o f n i x (ts & fl & Eo & Hr & Hn) Hu Hi Hsz. subst o.
  pose proof (treedisk_getsize_ok bino ts fl f i Hr Hu Hsz) as He.
  eapply wp_call; [apply block_getsize_call; done|exact He|].
  intros r ts' [Hr' ->]. rewrite decide_True by lia. split; [|by exists ts', fl].
  f_equal. apply u32_small. by eapply tree_size_u32.
Qed.
Next Obligation.
  intros o f n x (ts & fl & -> & Hr & Hn) Hni.
  eapply wp_call; [apply block_getninodes_call|exact (getninodes_ok ts fl f Hr Hni)|].
  intros r ts' [Hr' ->]. split; [|by exists ts', fl]. rewrite u32_small; [done|]. split; unfold two32; lia.
Qed.
End tree.

(** * Transfers of many blocks *)

(** The byte at position [p] of an inode. *)
Definition byte_at (f : files) (ino : Z) (p : nat) : option Init.Byte.byte :=
  f_data f ino (Z.of_nat p / BLKSZ) !! Z.to_nat (Z.of_nat p mod BLKSZ).

Lemma BLKSZ_val : BLKSZ = 1024.
Proof. apply BLOCK_SIZE_Z. Qed.

Section transfers.
Context {T : Type} {rpc : Rpc T} (svr : Z) `{!BlockService rpc svr}.

(** Block [off] of the inode goes to address [a] of the buffer. *)
Lemma multiblock_read_loop_ok ino n : forall off buf a i t f N,
  svc_rep t f N -> 0 <= ino < f_ninodes f -> is_u32 ino -> 0 <= off -> off + Z.of_nat n <= f_size f ino ->
  (a + n * BLOCK_SIZE <= length buf)%nat ->
  wp (multiblock_read_loop n svr ino off buf a i) t (fun x t' => svc_rep t' f N /\ x.1 = i + Z.of_nat n /\
    length x.2 = length buf /\
    forall p, x.2 !! p = if decide (a <= p < a + n * BLOCK_SIZE)%nat
                         then byte_at f ino (Z.to_nat (off * BLKSZ) + (p - a)) else buf !! p).
Proof.
  induction n as [|n IH]; intros off buf a i t f N Hr Hi Hu Ho Hn Hl; cbn [multiblock_read_loop].
  - step. split; [done|]. split; [simpl; lia|]. split; [done|]. intros p. by rewrite decide_False by lia.
  - pose proof (svc_size t f N ino Hr Hi Hu) as [_ Hsz].
    step. eapply wp_mono; [eapply svc_read; [exact Hr|done|done|split; lia|lia]|]. intros x t1 [-> Hr1].
    assert (length (f_data f ino off) = BLOCK_SIZE) as Hb by by eapply svc_wf.
    unfold mem_write. rewrite Hb, decide_True by lia. steps. rewrite u32_small by (split; lia).
    eapply wp_mono; [eapply (IH (off + 1)); [exact Hr1|done|done|lia|lia|rewrite length_splice; lia]|].
    intros x t2 (Hr2 & -> & Hlen & Hx). split; [done|]. split; [lia|]. split; [by rewrite Hlen, length_splice by lia|].
    intros p. rewrite Hx. pose proof BLKSZ_val. assert (BLOCK_SIZE = 1024%nat) as EB by done. rewrite EB in *.
    destruct (decide (a + 1024 <= p < a + 1024 + n * 1024)%nat) as [H1|H1].
    + rewrite decide_True by lia. f_equal. lia.
    + rewrite lookup_splice by lia. rewrite Hb. destruct (decide (a <= p < a + 1024)%nat) as [H2|H2].
      * rewrite decide_True by lia. unfold byte_at. rewrite H. f_equal; [|f_equal]; Z.to_euclidean_division_equations; lia.
      * by rewrite decide_False by lia.
Qed.

Lemma multiblock_read_ok ino off buf n t f N :
  svc_rep t f N -> 0 <= ino < f_ninodes f -> is_u32 ino -> 0 <= off -> 0 <= n -> off + n <= f_size f ino ->
  n * BLKSZ <= Z.of_nat (length buf) ->
  wp (multiblock_read svr ino off buf n) t (fun x t' => svc_rep t' f N /\ exists m, x = (true, m, n) /\
    length m = length buf /\
    forall p, m !! p = if decide (Z.of_nat p < n * BLKSZ) then byte_at f ino (Z.to_nat (off * BLKSZ) + p) else buf !! p).
Proof.
  intros Hr Hi Hu Ho Hn Hs Hl. pose proof BLKSZ_val as EB. assert (BLOCK_SIZE = 1024%nat) as EB' by done.
  unfold multiblock_read. step.
  eapply wp_mono; [eapply (multiblock_read_loop_ok ino (Z.to_nat n) off buf 0 0 t f N); try done; lia|].
  intros [k m] t' (Hr' & E1 & Hlen & Hm). cbn [fst snd] in *. rewrite decide_False by lia. step. split; [done|].
  exists m. split; [by rewrite E1, Z2Nat.id by lia|]. split; [done|]. intros p. rewrite Hm.
  destruct (decide (Z.of_nat p < n * BLKSZ)); [rewrite decide_True by lia; f_equal; lia|by rewrite decide_False by lia].
Qed.

(** The blocks from [off] on, [n] of them, hold the bytes of [buf] from [a]
    on, the rest is as it was. *)
Record blocks_written (f f' : files) (ino off : Z) (n : nat) (buf : message) (a : nat) : Prop := {
  bw_ninodes : f_ninodes f' = f_ninodes f;
  bw_other j : j <> ino -> f_size f' j = f_size f j /\ forall o, f_data f' j o = f_data f j o;
  bw_size : f_size f' ino = if decide (n = 0%nat) then f_size f ino else Z.max (f_size f ino) (off + Z.of_nat n);
  bw_in k : (k < n)%nat -> f_data f' ino (off + Z.of_nat k) = take BLOCK_SIZE (drop (a + k * BLOCK_SIZE) buf);
  bw_out o : o < off \/ off + Z.of_nat n <= o -> f_data f' ino o = f_data f ino o;
}.

Lemma multiblock_write_loop_ok ino n : forall off buf a t f N,
  svc_rep t f N -> 0 <= ino < f_ninodes f -> is_u32 ino -> 0 <= off -> off + Z.of_nat n < two32 ->
  (a + n * BLOCK_SIZE <= length buf)%nat -> (n * write_cost <= N)%nat ->
  wp (multiblock_write_loop n svr ino off buf a) t (fun r t' => r = true /\
    exists f', svc_rep t' f' (N - n * write_cost) /\ blocks_written f f' ino off n buf a).
Proof.
  induction n as [|n IH]; intros off buf a t f N Hr Hi Hu Ho Hn Hl HN; cbn [multiblock_write_loop].
  - step. split; [done|]. exists f. split; [by rewrite Nat.sub_0_r|]. split; try done. lia.
  - unfold mem_read. rewrite decide_True by lia. steps. set (b := take BLOCK_SIZE (drop a buf)).
    assert (block_wf b) as Hb by (unfold block_wf, b; rewrite length_take, length_drop; lia).
    eapply wp_mono; [eapply svc_write; [exact Hr|done|done|done|split; lia|exact Hb|lia]|]. intros r t1 [-> Hr1].
    rewrite u32_small by (split; lia).
    eapply wp_mono; [eapply (IH (off + 1) buf (a + BLOCK_SIZE)%nat); [exact Hr1|done|done|lia|lia|lia|lia]|].
    intros r t2 [-> (f' & Hr2 & [H1 H2 H3 H4 H5])]. split; [done|]. exists f'. split; [|split].
    + replace (N - Datatypes.S n * write_cost)%nat with (N - write_cost - n * write_cost)%nat by lia. done.
    + done.
    + intros j Hj. destruct (H2 j Hj) as [E1 E2]. cbn [f_write f_size f_data] in *.
      rewrite decide_False in E1 by done. split; [done|]. intros o. by rewrite E2, decide_False by tauto.
    + rewrite H3. cbn [f_write f_size]. rewrite (decide_True (P:=ino = ino)) by done.
      destruct n as [|n].
      * by rewrite decide_True, decide_False by lia.
      * rewrite !decide_False by lia. lia.
    + intros [|k] Hk.
      * rewrite H5 by lia. cbn [f_write f_data]. rewrite decide_True by (split; [done|lia]). by rewrite Nat.add_0_r.
      * replace (off + Z.of_nat (Datatypes.S k)) with (off + 1 + Z.of_nat k) by lia. rewrite H4 by lia. do 2 f_equal. lia.
    + intros o Ho'. rewrite H5 by lia. cbn [f_write f_data]. rewrite decide_False; [done|]. intros [_ ->]. lia.
Qed.

Lemma multiblock_write_ok ino off buf n t f N :
  svc_rep t f N -> 0 <= ino < f_ninodes f -> is_u32 ino -> 0 <= off -> 0 <= n -> off + n < two32 ->
  n * BLKSZ <= Z.of_nat (length buf) -> (Z.to_nat n * write_cost <= N)%nat ->
  wp (multiblock_write svr ino off buf n) t (fun r t' => r = true /\
    exists f', svc_rep t' f' (N - Z.to_nat n * write_cost) /\ blocks_written f f' ino off (Z.to_nat n) buf 0).
Proof.
  intros. pose proof BLKSZ_val. assert (BLOCK_SIZE = 1024%nat) by done.
  apply multiblock_write_loop_ok; try done; lia.
Qed.

(** A transfer that passes the end of its buffer, where every write succeeds
    until then. *)
Lemma multiblock_write_overrun ino n : forall off buf a t f N,
  svc_rep t f N -> 0 <= ino < f_ninodes f -> is_u32 ino -> 0 <= off -> off + Z.of_nat n < two32 ->
  (length buf < a + n * BLOCK_SIZE)%nat -> (n * write_cost <= N)%nat ->
  multiblock_write_loop n svr ino off buf a t = Undef \/ (length buf < a)%nat.
Proof.
  induction n as [|n IH]; intros off buf a t f N Hr Hi Hu Ho Hn Hl HN; cbn [multiblock_write_loop]; [right; lia|].
  destruct (decide (length buf < a)%nat) as [|Ha]; [by right|]. left. unfold mem_read.
  destruct (decide (a + BLOCK_SIZE <= length buf)%nat) as [Hle|Hgt]; [|done].
  set (b := take BLOCK_SIZE (drop a buf)).
  assert (block_wf b) as Hb by (unfold block_wf, b; rewrite length_take, length_drop; lia).
  erewrite mbind_Ret by reflexivity.
  eapply wp_bind_ends; [eapply svc_write; [exact Hr|done|done|done|split; lia|exact Hb|lia]|].
  intros r t1 [-> Hr1]. cbv beta match. rewrite u32_small by (split; lia).
  destruct (IH (off + 1) buf (a + BLOCK_SIZE)%nat t1 _ _ Hr1) as [H|H]; [done|done|lia|lia|lia|lia|done|lia].
Qed.
End transfers.
