(* ===== verification/BlockFileSpec.v ===== *)
(** The file server of bfs.c, over any block service, is a [FileService]. *)
From stdpp Require Import base numbers list.
From Stdlib Require Import ZArith Lia.
From S2P Require Import Prelude BlockStore TreeSpec TreeProps BlockProt FileProt FileSpec BlockFile BlockService.

Section bfs.
Context {T : Type} {rpc : Rpc T} (bsvr : Z) `{!BlockService rpc bsvr}.
Context (pid now num : Z) (Hpid : is_u32 pid) (Hnow : 0 <= now < two64) (Hnum : 1 <= num < 2 ^ 24).
Abbreviation st := (file_server_state T).

(** * Representation *)

(** The control block [c] and the blocks of inode [i] are the file [s]. *)
Record file_rep (f : files) (i : Z) (c : fcb) (s : sfile) : Prop := {
  fp_alloc : st_alloc c = sf_alloc s;
  fp_uid : st_uid c = sf_uid s;
  fp_mode : st_mode c = sf_mode s;
  fp_size : st_size c = Z.of_nat (length (sf_data s));
  fp_max : st_size c <= max_file_size;
  fp_blocks : st_size c <> 0 -> st_size c / BLKSZ < f_size f i;
  fp_data p : (p < length (sf_data s))%nat -> byte_at f i p = sf_data s !! p;
}.

(** Inode 0 holds the control blocks, but for that of file [d], in whole blocks. *)
Definition on_disk (d : Z) (cache : list fcb) (f : files) : Prop :=
  f_size f 0 = num * 40 / BLKSZ /\
  forall p, (p < 40 * length cache)%nat -> ~ d * 40 <= Z.of_nat p < (d + 1) * 40 -> byte_at f 0 p = cache_bytes cache !! p.

Record blk_files_but (d : Z) (t : st) (fs : list sfile) (f : files) (N : nat) : Prop := {
  br_svc : svc_rep (fss_kernel t) f N;
  br_svr : fss_block_svr t = bsvr;
  br_num : fss_num_fcbs t = num;
  br_ninodes : f_ninodes f = num;
  br_cache : length (fss_fcb_cache t) = Z.to_nat num;
  br_len : length fs = Z.to_nat num;
  br_wf : Forall fcb_wf (fss_fcb_cache t);
  br_file i c s : 1 <= i < num -> fss_fcb_cache t !! Z.to_nat i = Some c -> fs !! Z.to_nat i = Some s -> file_rep f i c s;
  br_disk : on_disk d (fss_fcb_cache t) f;
}.
Abbreviation blk_files := (blk_files_but (-1)).

(** The file numbers whose control block is flushed from within the cache. *)
Definition flushable (i : Z) : Prop :=
  (i * 40 / BLKSZ + (((i + 1) * 40 - 1) / BLKSZ + 1)) * BLKSZ <= num * 40.

Definition flush_cost : nat := Z.to_nat (num * 40 / BLKSZ) * write_cost.

Lemma length_cache_bytes c : length (cache_bytes c) = (40 * length c)%nat.
Proof.
  unfold cache_bytes. induction c as [|x c IH]; [done|]. cbn [fmap list_fmap concat].
  rewrite length_app, length_fcb_bytes, IH. unfold sizeof_fcb. simpl. lia.
Qed.

Lemma num_inode d f i t fs N : blk_files_but d t fs f N -> 0 <= i < num -> 0 <= i < f_ninodes f /\ is_u32 i.
Proof. intros H Hi. pose proof (br_ninodes _ _ _ _ _ H). split; [lia|split; [lia|unfold two32; lia]]. Qed.

Lemma blk_files_mono d t fs f N N' : blk_files_but d t fs f N -> (N' <= N)%nat -> blk_files_but d t fs f N'.
Proof. intros [] Hle. split; try assumption. by eapply svc_mono. Qed.

Lemma get_fcb_ok d t fs f N i : blk_files_but d t fs f N -> 0 <= i < num ->
  exists c s, fss_fcb_cache t !! Z.to_nat i = Some c /\ fs !! Z.to_nat i = Some s /\ fcb_wf c.
Proof.
  intros H Hi. destruct (lookup_lt_is_Some_2 (fss_fcb_cache t) (Z.to_nat i)) as [c Hc];
    [rewrite (br_cache _ _ _ _ _ H); lia|].
  destruct (lookup_lt_is_Some_2 fs (Z.to_nat i)) as [s Hs]; [rewrite (br_len _ _ _ _ _ H); lia|].
  exists c, s. split_and!; try done. eapply Forall_lookup_1; [by eapply br_wf|done].
Qed.

Lemma wp_get_fcb i c (t : st) Q : fss_fcb_cache t !! Z.to_nat i = Some c -> Q c t -> wp (get_fcb i) t Q.
Proof. intros H HQ. unfold get_fcb. step. step. by eapply wp_read_nth. Qed.

Definition with_cache (c : list fcb) (t : st) : st :=
  FileServer (fss_kernel t) (fss_block_svr t) (fss_global_time t) (fss_start_time t) c (fss_num_fcbs t) (fss_sent t).

Definition with_kernel (k : T) (t : st) : st :=
  FileServer k (fss_block_svr t) (fss_global_time t) (fss_start_time t) (fss_fcb_cache t) (fss_num_fcbs t) (fss_sent t).

Lemma wp_upd_fcb i c g (t : st) Q : fss_fcb_cache t !! Z.to_nat i = Some c ->
  Q tt (with_cache (<[Z.to_nat i:=g c]> (fss_fcb_cache t)) t) -> wp (upd_fcb i g) t Q.
Proof. intros H HQ. unfold upd_fcb, set_cache. step. eapply wp_get_fcb; [done|]. steps. done. Qed.

Lemma wp_fs_call {A} (m : Z -> M T A) (t : st) Q :
  wp (m (fss_block_svr t)) (fss_kernel t) (fun a k => Q a (with_kernel k t)) -> wp (fs_call m) t Q.
Proof. intros H. unfold fs_call. step. step. step. exact H. Qed.

Lemma wp_fs_time (t : st) Q : (forall x, 0 <= x < two64 -> Q x t) -> wp (fs_time now) t Q.
Proof. intros H. unfold fs_time. steps. apply H. by apply Z.mod_pos_bound. Qed.

(** The bytes of the array of control blocks. *)
Lemma cache_bytes_lookup c p : cache_bytes c !! p = c !! (p / 40)%nat ≫= fun x => fcb_bytes x !! (p mod 40)%nat.
Proof.
  unfold cache_bytes. revert p. induction c as [|x c IH]; intros p; [done|]. cbn [fmap list_fmap concat].
  destruct (decide (p < 40)%nat) as [Hp|Hp].
  - rewrite lookup_app_l by (rewrite length_fcb_bytes; unfold sizeof_fcb; lia).
    by rewrite Nat.div_small, Nat.mod_small by lia.
  - rewrite lookup_app_r by (rewrite length_fcb_bytes; unfold sizeof_fcb; lia).
    unfold fmap in IH. rewrite length_fcb_bytes. unfold sizeof_fcb. rewrite IH.
    assert (p / 40 = Datatypes.S ((p - 40) / 40) /\ p mod 40 = (p - 40) mod 40)%nat as [-> ->]; [|done].
    rewrite <- (Nat.div_unique p 40 (Datatypes.S ((p - 40) / 40)) ((p - 40) mod 40)),
      <- (Nat.mod_unique p 40 (Datatypes.S ((p - 40) / 40)) ((p - 40) mod 40));
      pose proof (Nat.div_mod_eq (p - 40) 40); pose proof (Nat.mod_upper_bound (p - 40) 40); lia.
Qed.

Lemma on_disk_insert cache f i c : 0 <= i -> on_disk (-1) cache f -> on_disk i (<[Z.to_nat i:=c]> cache) f.
Proof.
  intros Hi [Hs Hb]. split; [done|]. intros p. rewrite length_insert. intros Hp Hd.
  rewrite Hb by lia. rewrite !cache_bytes_lookup. rewrite list_lookup_insert_ne; [done|].
  intros E. apply Hd. pose proof (Nat.div_mod_eq p 40). pose proof (Nat.mod_upper_bound p 40). lia.
Qed.

Lemma on_disk_same cache f f' d : on_disk d cache f -> f_size f' 0 = f_size f 0 ->
  (forall o, f_data f' 0 o = f_data f 0 o) -> on_disk d cache f'.
Proof.
  intros [Hs Hb] E1 E2. split; [by rewrite E1|]. intros p Hp Hd. unfold byte_at. rewrite E2. by apply Hb.
Qed.

(** Only the size and the bytes of an inode matter. *)
Lemma file_rep_same f f' i c s : file_rep f i c s -> f_size f' i = f_size f i ->
  (forall o, f_data f' i o = f_data f i o) -> file_rep f' i c s.
Proof.
  intros H E1 E2. split; try apply H; [rewrite E1; apply H|].
  intros p Hp. unfold byte_at. rewrite E2. by apply (fp_data _ _ _ _ H).
Qed.

(** * Flushing *)

Lemma flushed_disk f f' cache i s e : 0 <= i < num -> length cache = Z.to_nat num ->
  s = i * 40 / 1024 -> e = ((i + 1) * 40 - 1) / 1024 -> (s + (e + 1)) * 1024 <= num * 40 ->
  on_disk i cache f ->
  blocks_written f f' 0 s (Z.to_nat (e + 1)) (drop (Z.to_nat (s * 1024)) (cache_bytes cache)) 0 ->
  on_disk (-1) cache f'.
Proof.
  intros Hi Hc Es Ee Hf [Hsz Hb] [_ _ B3 B4 B5]. unfold on_disk, byte_at in *. rewrite BLKSZ_val in *.
  assert (BLOCK_SIZE = 1024%nat) as EB by done. rewrite EB in *.
  assert (0 <= s <= e /\ s * 1024 <= i * 40 /\ (i + 1) * 40 <= (e + 1) * 1024) as (H1 & H2 & H3)
    by (subst s e; Z.to_euclidean_division_equations; lia). clear Es Ee.
  split.
  { rewrite B3, decide_False, Hsz by lia. Z.to_euclidean_division_equations; lia. }
  intros p Hp _. set (b := Z.of_nat p / 1024). set (r := Z.of_nat p mod 1024).
  assert (Z.of_nat p = b * 1024 + r /\ 0 <= r < 1024) as [Eb Hr] by (unfold b, r; Z.to_euclidean_division_equations; lia).
  destruct (decide (s <= b < s + (e + 1))) as [Hin|Hout].
  - replace b with (s + Z.of_nat (Z.to_nat (b - s))) by lia. rewrite B4 by lia.
    rewrite lookup_take_lt by lia. rewrite !lookup_drop. f_equal. lia.
  - rewrite B5 by lia. apply Hb; lia.
Qed.

Lemma flush_ok t fs f N i : blk_files_but i t fs f N -> 0 <= i < num -> flushable i -> (flush_cost <= N)%nat ->
  wp (flush_fcb_cache i) t (fun _ t' => exists k f', t' = with_kernel k t /\ blk_files t' fs f' (N - flush_cost)).
Proof.
  intros H Hi Hf HN. pose proof BLKSZ_val as EB. unfold flushable, flush_cost in *. rewrite EB in *.
  unfold flush_fcb_cache. cbv zeta. change (Z.of_nat sizeof_fcb) with 40. rewrite EB. step. step. step. cbn beta.
  set (s := i * 40 / 1024) in *. set (e := ((i + 1) * 40 - 1) / 1024) in *.
  assert (0 <= s /\ 0 <= e /\ s * 1024 <= i * 40) as (Hs & He & Hse) by (unfold s, e; Z.to_euclidean_division_equations; lia).
  rewrite !(u32_small s), !(u32_small (e)), (u32_small (e + 1)), (u32_small (s * 1024)) by (split; unfold two32; lia).
  apply wp_fs_call. rewrite (br_svr _ _ _ _ _ H).
  destruct (num_inode _ f 0 t fs N H ltac:(lia)) as [H0 _].
  assert ((Z.to_nat (e + 1) <= Z.to_nat (num * 40 / 1024))%nat) as Hle by (Z.to_euclidean_division_equations; lia).
  eapply wp_mono; [eapply (multiblock_write_ok bsvr 0 s); [by eapply br_svc|done|done|done|lia|unfold two32; lia| |]|].
  - rewrite length_drop, length_cache_bytes, (br_cache _ _ _ _ _ H), EB. lia.
  - unfold write_cost in *. nia.
  - intros r k [-> (f' & Hr & [B1 B2 B3 B4 B5])]. step. exists k, f'. split; [done|].
    split; cbn [with_kernel fss_kernel fss_block_svr fss_num_fcbs fss_fcb_cache]; try by destruct H.
    + eapply svc_mono; [exact Hr|]. unfold write_cost. nia.
    + rewrite B1. by destruct H.
    + intros j c s' Hj Hc Hs'. destruct (B2 j) as [E1 E2]; [lia|]. eapply file_rep_same; [by eapply br_file|done|done].
    + apply (flushed_disk f f' _ i s e); try done; try lia; by destruct H.
Qed.

(** Replacing a control block and, with it, a file. *)
Lemma blk_files_update t fs f f' N k i c s : blk_files t fs f N -> 1 <= i < num ->
  svc_rep k f' N -> f_ninodes f' = f_ninodes f ->
  (forall j, j <> i -> f_size f' j = f_size f j /\ forall o, f_data f' j o = f_data f j o) ->
  fcb_wf c -> file_rep f' i c s ->
  blk_files_but i (with_cache (<[Z.to_nat i:=c]> (fss_fcb_cache t)) (with_kernel k t)) (<[Z.to_nat i:=s]> fs) f' N.
Proof.
  intros H Hi Hk En Hj Hc Hs. split; cbn [with_cache with_kernel fss_kernel fss_block_svr fss_num_fcbs fss_fcb_cache];
    rewrite ?length_insert; try by destruct H.
  - rewrite En. by destruct H.
  - apply Forall_insert; [by destruct H|done].
  - intros j c' s' Hj' Hc' Hs'. destruct (decide (j = i)) as [->|Hne].
    + rewrite list_lookup_insert_eq in Hc' by (rewrite (br_cache _ _ _ _ _ H); lia).
      rewrite list_lookup_insert_eq in Hs' by (rewrite (br_len _ _ _ _ _ H); lia). by injection Hc' as <-; injection Hs' as <-.
    + rewrite list_lookup_insert_ne in Hc' by lia. rewrite list_lookup_insert_ne in Hs' by lia.
      destruct (Hj j Hne) as [E1 E2]. eapply file_rep_same; [by eapply br_file|done|done].
  - destruct (Hj 0 ltac:(lia)) as [E1 E2]. apply on_disk_insert; [lia|]. eapply on_disk_same; [by eapply br_disk|done|done].
Qed.

(** * Writing *)

(** The bytes of the blocks from [start] on, as far as the file goes. *)
Definition old_bytes (start : Z) (s : sfile) (m : message) : Prop :=
  forall q, (q < length m)%nat -> Z.of_nat q + start * BLKSZ < Z.of_nat (length (sf_data s)) ->
    m !! q = sf_data s !! (Z.to_nat (start * BLKSZ) + q)%nat.

Lemma byte_written f f' i c s off (data m : message) p : file_rep f i c s ->
  0 <= off <= Z.of_nat (length (sf_data s)) ->
  let start := off / BLKSZ in
  let n := (off + Z.of_nat (length data)) / BLKSZ - start + 1 in
  Z.of_nat (length m) = n * BLKSZ -> old_bytes start s m ->
  blocks_written f f' i start (Z.to_nat n) (splice (Z.to_nat (off mod BLKSZ)) data m) 0 ->
  (p < Nat.max (length (sf_data s)) (Z.to_nat off + length data))%nat ->
  byte_at f' i p = splice (Z.to_nat off) data (sf_data s) !! p.
Proof.
  intros Hf Hoff start n Hm Hold [_ _ _ Hin Hout] Hp. rewrite lookup_splice by lia.
  pose proof BLKSZ_val as EB. assert (BLOCK_SIZE = 1024%nat) as EB' by done. rewrite EB' in *.
  unfold old_bytes in Hold. rewrite EB in *. unfold byte_at. rewrite EB.
  assert (0 <= start /\ start * 1024 <= off /\ off = start * 1024 + off mod 1024 /\ 0 <= off mod 1024 < 1024 /\ 1 <= n /\
          off + Z.of_nat (length data) < (start + n) * 1024) as (H0 & H1 & H1' & H2 & H3 & H4)
    by (unfold n, start; Z.to_euclidean_division_equations; lia).
  set (b := Z.of_nat p / 1024). set (r := Z.of_nat p mod 1024).
  assert (Z.of_nat p = b * 1024 + r /\ 0 <= r < 1024) as [Eb Hr] by (unfold b, r; Z.to_euclidean_division_equations; lia).
  destruct (decide (start <= b < start + n)) as [Hb|Hb].
  - replace b with (start + Z.of_nat (Z.to_nat (b - start))) by lia. rewrite Hin by lia.
    rewrite lookup_take_lt by lia. rewrite lookup_drop.
    replace (0 + Z.to_nat (b - start) * 1024 + Z.to_nat r)%nat with (p - Z.to_nat (start * 1024))%nat by lia.
    rewrite lookup_splice by lia.
    destruct (decide (Z.to_nat off <= p < Z.to_nat off + length data)%nat) as [Hd|Hd].
    + rewrite decide_True by lia. f_equal. lia.
    + rewrite decide_False by lia. rewrite Hold by lia. f_equal. lia.
  - rewrite Hout by lia. rewrite decide_False by lia.
    assert (p < length (sf_data s))%nat as Hps by lia. pose proof (fp_data _ _ _ _ Hf p Hps) as E.
    unfold byte_at in E. by rewrite EB in E.
Qed.

Lemma put_read_ok t fs f N i c s off contents psize : blk_files t fs f N -> 1 <= i < num -> file_rep f i c s ->
  0 <= off -> 0 <= psize -> psize * BLKSZ <= Z.of_nat (length contents) ->
  (st_size c <> 0 -> off + psize <= f_size f i) -> st_size c - off * BLKSZ <= psize * BLKSZ \/ Z.of_nat (length contents) <= psize * BLKSZ ->
  wp (if decide (st_size c <> 0) then
        r ← fs_call (fun svr => multiblock_read svr i (u32 off) contents psize);
        mret r.1
      else mret (true, contents)) t
    (fun r t' => exists k m, t' = with_kernel k t /\ r = (true, m) /\ svc_rep k f N /\
       length m = length contents /\ old_bytes off s m).
Proof.
  intros H Hi Hf Ho Hps Hlen Hsz Hall. destruct (num_inode _ f i t fs N H ltac:(lia)) as [Hn Hu].
  destruct (decide (st_size c <> 0)) as [Hne|He].
  - specialize (Hsz Hne). pose proof (svc_size _ _ _ i (br_svc _ _ _ _ _ H) Hn Hu) as [_ Hlt].
    rewrite u32_small by (pose proof BLKSZ_val; pose proof (fp_blocks _ _ _ _ Hf Hne); split; lia).
    step. apply wp_fs_call. rewrite (br_svr _ _ _ _ _ H).
    eapply wp_mono; [eapply (multiblock_read_ok bsvr i off contents psize); [by eapply br_svc|done..]|].
    intros x k [Hk (m & -> & Hm & Hb)]. step. exists k, m. split_and!; try done.
    intros q Hq Hqs. rewrite Hb. rewrite decide_True.
    + rewrite (fp_data _ _ _ _ Hf); [done|]. pose proof BLKSZ_val as EB. rewrite EB in *. lia.
    + pose proof (fp_size _ _ _ _ Hf). rewrite Hm in Hq. lia.
  - step. exists (fss_kernel t), contents. split_and!; try done; [by destruct t|by eapply br_svc|].
    intros q Hq Hqs. pose proof (fp_size _ _ _ _ Hf). pose proof BLKSZ_val. lia.
Qed.

Definition put_cost : nat := 18 * write_cost + flush_cost.

Lemma put_file_rep f f' i c s off (data m : message) t : file_rep f i c s ->
  0 <= off <= Z.of_nat (length (sf_data s)) -> off + Z.of_nat (length data) <= max_file_size ->
  let start := off / BLKSZ in
  let n := (off + Z.of_nat (length data)) / BLKSZ - start + 1 in
  Z.of_nat (length m) = n * BLKSZ -> old_bytes start s m ->
  blocks_written f f' i start (Z.to_nat n) (splice (Z.to_nat (off mod BLKSZ)) data m) 0 ->
  file_rep f' i (st_set_modtime t (st_set_size (Z.max (st_size c) (off + Z.of_nat (length data))) c))
    (SFile (sf_alloc s) (sf_uid s) (sf_mode s) (splice (Z.to_nat off) data (sf_data s))).
Proof.
  intros Hf Hoff Hmax start n Hm Hold Hw. pose proof (fp_size _ _ _ _ Hf) as Hs. pose proof (fp_max _ _ _ _ Hf).
  split; cbn [st_set_modtime st_set_size st_alloc st_uid st_mode st_size sf_alloc sf_uid sf_mode sf_data];
    try by destruct Hf.
  - rewrite length_splice_ext by lia. lia.
  - lia.
  - intros Hne. rewrite (bw_size _ _ _ _ _ _ _ Hw). rewrite decide_False;
      [|unfold n, start; pose proof BLKSZ_val as ->; Z.to_euclidean_division_equations; lia].
    assert (Z.max (st_size c) (off + Z.of_nat (length data)) / BLKSZ < start + n \/
            st_size c <> 0 /\ Z.max (st_size c) (off + Z.of_nat (length data)) / BLKSZ = st_size c / BLKSZ) as [H1|[H1 H2]].
    { destruct (decide (st_size c <= off + Z.of_nat (length data))).
      - left. rewrite Z.max_r by lia. unfold n. lia.
      - right. split; [lia|]. by rewrite Z.max_l by lia. }
    + assert (0 <= n) by (unfold n, start; pose proof BLKSZ_val as ->; Z.to_euclidean_division_equations; lia). lia.
    + rewrite H2. pose proof (fp_blocks _ _ _ _ Hf H1). lia.
  - intros p. rewrite length_splice_ext by lia. intros Hp.
    by eapply byte_written.
Qed.

Lemma put_blk_ok t fs f N i c s off data : blk_files t fs f N -> 1 <= i < num ->
  fss_fcb_cache t !! Z.to_nat i = Some c -> fs !! Z.to_nat i = Some s ->
  0 <= off <= Z.of_nat (length (sf_data s)) -> (length data <= PAGESIZE)%nat ->
  off + Z.of_nat (length data) <= max_file_size -> flushable i -> (put_cost <= N)%nat ->
  wp (blkfile_put now i off data) t (fun r t' => r = Some tt /\ fss_sent t' = fss_sent t /\ exists f',
    blk_files t' (<[Z.to_nat i:=SFile (sf_alloc s) (sf_uid s) (sf_mode s) (splice (Z.to_nat off) data (sf_data s))]> fs) f'
      (N - put_cost)).
Proof.
  intros H Hi Hc Hs Hoff Hlen Hmax Hfl HN. pose proof (br_file _ _ _ _ _ H i c s Hi Hc Hs) as Hf.
  pose proof (fp_size _ _ _ _ Hf) as Hsz. pose proof (fp_max _ _ _ _ Hf) as Hmx. pose proof (fp_blocks _ _ _ _ Hf) as Hblk.
  pose proof BLKSZ_val as EB. assert (BLOCK_SIZE = 1024%nat) as EB' by done.
  assert (max_file_size = 2 ^ 30) as EM by done. assert (PAGESIZE = Z.to_nat 16384) as EP by done.
  destruct (num_inode _ f i t fs N H ltac:(lia)) as [Hn Hu].
  unfold blkfile_put. step. eapply wp_get_fcb; [done|]. cbv zeta.
  rewrite (u64_small (off + Z.of_nat (length data))) by (unfold two64; lia).
  set (start := off / BLKSZ). set (n := (off + Z.of_nat (length data)) / BLKSZ - start + 1).
  set (final := Z.max (st_size c) (off + Z.of_nat (length data))).
  set (psize := Z.min (st_size c) (off + Z.of_nat (length data)) / BLKSZ - start + 1).
  assert (0 <= start /\ 0 <= psize <= n /\ 1 <= n <= 18 /\ start <= st_size c / BLKSZ /\ start + n < 2 ^ 21 /\
          (st_size c <> 0 -> start + psize <= f_size f i) /\
          (st_size c - start * BLKSZ <= psize * BLKSZ \/ n <= psize)) as (H0 & H1 & H2 & H3 & H4 & H5 & H6).
  { unfold n, psize, start. rewrite EB in *. clear - Hoff Hlen Hmax Hsz Hmx Hblk EM EP.
    split_and!; try (Z.to_euclidean_division_equations; lia). }
  set (tuple := if decide _ then _ else _).
  assert (tuple = (final, (off + Z.of_nat (length data)) / BLKSZ, psize)) as ->.
  { unfold tuple, final, psize. destruct (decide _).
    - rewrite Z.max_r, Z.min_l by lia. rewrite u32_small; [done|]. fold psize. unfold psize in H1. rewrite Z.min_l in H1 by lia. split; unfold two32; lia.
    - rewrite Z.max_l, Z.min_r by lia. rewrite u32_small; [done|]. unfold psize in H1. rewrite Z.min_r in H1 by lia. split; unfold two32; lia. }
  cbv beta match. fold n. rewrite (u64_small n), (u64_small (n * BLKSZ)) by (rewrite ?EB; unfold two64; lia).
  rewrite decide_False by lia.
  set (contents := replicate (Z.to_nat (n * BLKSZ)) Init.Byte.x00).
  assert (Z.of_nat (length contents) = n * BLKSZ) as Hcl by (unfold contents; rewrite length_replicate; lia).
  step. step.
  eapply wp_mono; [eapply (put_read_ok t fs f N i c s start contents psize H Hi Hf); try lia; rewrite ?Hcl, ?EB in *; lia|].
  intros r t1 (k & m & -> & -> & Hk & Hm & Hold). cbv beta match.
  assert (Z.to_nat (off mod BLKSZ) + length data <= length m)%nat as Hfit.
  { rewrite Hm. unfold n, start in Hcl. rewrite EB in *. clear - Hcl Hoff. Z.to_euclidean_division_equations; lia. }
  step. unfold mem_write. rewrite decide_True by done. step.
  apply wp_fs_call. cbn [with_kernel fss_block_svr fss_kernel]. rewrite (br_svr _ _ _ _ _ H).
  rewrite (u32_small start), (u32_small n) by (split; unfold two32; lia).
  eapply wp_mono; [eapply (multiblock_write_ok bsvr i start _ n); [exact Hk|done|done|lia|lia|unfold two32; lia| |]|].
  { rewrite length_splice by done. rewrite Hm. lia. }
  { unfold put_cost, write_cost in *. lia. }
  intros r k2 [-> (f2 & Hk2 & Hw)]. cbv beta match. step. apply wp_fs_time. intros x Hx.
  step. eapply wp_upd_fcb; [exact Hc|].
  set (c' := st_set_modtime x (st_set_size final c)).
  set (s' := SFile (sf_alloc s) (sf_uid s) (sf_mode s) (splice (Z.to_nat off) data (sf_data s))).
  set (N2 := (N - Z.to_nat n * write_cost)%nat) in *.
  assert (blk_files_but i (with_cache (<[Z.to_nat i:=c']> (fss_fcb_cache t)) (with_kernel k2 t)) (<[Z.to_nat i:=s']> fs) f2 N2) as Hb2.
  { eapply (blk_files_update t fs f f2 N2 k2); [|done|exact Hk2|apply Hw|apply Hw| |].
    - apply (blk_files_mono _ t fs f N); [exact H|]. unfold N2. lia.
    - assert (fcb_wf c) as [] by (eapply Forall_lookup_1; [by eapply br_wf|done]). split; try assumption. unfold c'. cbn [st_set_modtime st_set_size st_size]. unfold final, two64. lia.
    - apply (put_file_rep f f2 i c s off data m x Hf Hoff Hmax); [by rewrite Hm|exact Hold|exact Hw]. }
  step. eapply wp_mono; [eapply (flush_ok _ _ _ _ i Hb2); [lia|done|unfold N2, put_cost, write_cost in *; lia]|].
  intros u t3 (k3 & f3 & -> & Hb3). step. split; [done|]. split; [done|]. exists f3.
  apply (blk_files_mono _ _ _ _ _ _ Hb3). unfold N2, put_cost, write_cost. lia.
Qed.

(** * The handlers *)

(** The state in which a request with result [r] ends. *)
Definition answered (fs : list sfile) (N : nat) (r : file_result) (t : st) : Prop :=
  (exists rep, result_reply r rep /\ fss_sent t = [(1, rep)]) /\ exists f, blk_files t fs f N.

Lemma wp_fs_send dst m (t : st) Q :
  Q tt (FileServer (fss_kernel t) (fss_block_svr t) (fss_global_time t) (fss_start_time t) (fss_fcb_cache t)
          (fss_num_fcbs t) ((dst, m) :: fss_sent t)) -> wp (fs_send dst m) t Q.
Proof. intros H. unfold fs_send. by step. Qed.

Lemma send_answered m r t fs f N N' : blk_files t fs f N -> (N' <= N)%nat -> fss_sent t = [] -> result_reply r m ->
  wp (fs_send 1 m) t (fun _ t' => answered fs N' r t').
Proof.
  intros H Hle Hs Hr. apply wp_fs_send. split; [exists m; split; [done|]; cbn [fss_sent]; by rewrite Hs|]. exists f.
  apply (blk_files_mono _ _ _ _ N); [|done]. by destruct H.
Qed.

Lemma respond_answered ok r t fs f N N' : blk_files t fs f N -> (N' <= N)%nat -> fss_sent t = [] ->
  result_reply r (status_reply ok 0) ->
  wp (blkfile_respond (if ok : bool then FILE_OK else FILE_ERROR) 1) t (fun _ t' => answered fs N' r t').
Proof. apply send_answered. Qed.

Lemma with_file_ok req k t fs f N i Q : blk_files t fs f N -> fr_file_no req = i -> 1 <= i < num ->
  (forall c s, fss_fcb_cache t !! Z.to_nat i = Some c -> fs !! Z.to_nat i = Some s -> file_rep f i c s ->
     (sf_alloc s = false -> wp (blkfile_respond FILE_ERROR 1) t Q) /\ (sf_alloc s = true -> wp (k c) t Q)) ->
  wp (with_file req 1 k) t Q.
Proof.
  intros H Ei Hi Hk. destruct (get_fcb_ok _ t fs f N i H ltac:(lia)) as (c & s & Hc & Hs & _).
  pose proof (br_file _ _ _ _ _ H i c s Hi Hc Hs) as Hf. destruct (Hk c s Hc Hs Hf) as [H1 H2].
  unfold with_file. step. step. rewrite Ei. rewrite (br_num _ _ _ _ _ H), decide_False by lia.
  step. eapply wp_get_fcb; [exact Hc|]. pose proof (fp_alloc _ _ _ _ Hf) as Ea.
  destruct (decide (st_alloc c = false)) as [E|E]; [apply H1; congruence|apply H2]. rewrite <- Ea. by destruct (st_alloc c).
Qed.

Lemma read_allowed_rep f i c s uid : file_rep f i c s -> read_allowed c uid = read_allowed (sf_fcb s) uid.
Proof. intros []. unfold read_allowed, sf_fcb. cbn. by rewrite fp_uid0, fp_mode0. Qed.

Lemma write_allowed_rep f i c s uid : file_rep f i c s -> write_allowed c uid = write_allowed (sf_fcb s) uid.
Proof. intros []. unfold write_allowed, sf_fcb. cbn. by rewrite fp_uid0, fp_mode0. Qed.

Lemma write_ok uid t fs f N i off data : blk_files t fs f N -> fss_sent t = [] -> (put_cost <= N)%nat ->
  valid_file_op flushable fs (FileWrite i off data) ->
  let o := FileWrite i off data in
  wp (blkfile_do_write now (op_request o) data 1 uid) t
    (fun _ t' => answered (spec_file_op uid fs o).2 (N - put_cost) (spec_file_op uid fs o).1 t').
Proof.
  intros H Hsent HN (Hi & Hg & Hlen & Hoff & Hmax) o. rewrite (br_len _ _ _ _ _ H) in Hi.
  unfold blkfile_do_write. eapply (with_file_ok _ _ t fs f N i); [exact H|reflexivity|lia|].
  intros c s Hc Hs Hf. cbn [spec_file_op o]. rewrite Hs in *. cbn [fmap option_fmap option_map default from_option id] in Hoff.
  split; intros Ea.
  { unfold may_write. rewrite Ea. cbn [andb fst snd]. eapply (respond_answered false); [exact H|lia|exact Hsent|done]. }
  rewrite may_write_alloc by exact Ea. rewrite <- (write_allowed_rep f i c s uid Hf).
  cbn [op_request fr_size fr_file_no fr_offset]. rewrite decide_False by (intros Hx; by apply Hx).
  destruct (write_allowed c uid) eqn:Ew; cbn [fst snd].
  - rewrite decide_False by done. step.
    eapply wp_mono; [eapply (put_blk_ok t fs f N i c s off data); (exact H || exact Hc || exact Hs || exact Hg || lia)|].
    intros r t' [-> [Es (f' & Hb)]]. rewrite Ea in Hb. eapply (respond_answered true); [exact Hb|lia|congruence|done].
  - rewrite decide_True by done. eapply (respond_answered false); [exact H|lia|exact Hsent|done].
Qed.

Lemma read_bytes_ok f i c s off n m : file_rep f i c s -> 0 <= off -> 0 < n -> off + n <= st_size c ->
  let start := off / BLKSZ in
  let k := (off + n - 1) / BLKSZ - start + 1 in
  Z.of_nat (length m) = k * BLKSZ ->
  (forall p, m !! p = if decide (Z.of_nat p < k * BLKSZ) then byte_at f i (Z.to_nat (start * BLKSZ) + p) else m !! p) ->
  (Z.to_nat (off mod BLKSZ) + Z.to_nat n <= length m)%nat /\
  take (Z.to_nat n) (drop (Z.to_nat (off mod BLKSZ)) m) = take (Z.to_nat n) (drop (Z.to_nat off) (sf_data s)).
Proof.
  intros Hf Ho Hn Hle start k Hm Hp. pose proof (fp_size _ _ _ _ Hf) as Hs. rewrite BLKSZ_val in *.
  assert (0 <= start /\ off = start * 1024 + off mod 1024 /\ 0 <= off mod 1024 < 1024 /\ off mod 1024 + n <= k * 1024) as (H1 & H2 & H3 & H4)
    by (unfold k, start; rewrite ?BLKSZ_val; Z.to_euclidean_division_equations; lia).
  split; [lia|]. apply list_eq. intros p. destruct (decide (p < Z.to_nat n)%nat) as [Hlt|Hge].
  - rewrite !lookup_take_lt, !lookup_drop by lia. rewrite Hp, decide_True by lia.
    rewrite (fp_data _ _ _ _ Hf) by lia. f_equal. lia.
  - by rewrite !lookup_take_ge by lia.
Qed.

Lemma read_ok uid t fs f N i off len : blk_files t fs f N -> fss_sent t = [] ->
  valid_file_op flushable fs (FileRead i off len) ->
  let o := FileRead i off len in
  wp (blkfile_do_read (op_request o) 1 uid) t
    (fun _ t' => answered (spec_file_op uid fs o).2 (N - put_cost) (spec_file_op uid fs o).1 t').
Proof.
  intros H Hsent (Hi & Hoff & Hlen) o. rewrite (br_len _ _ _ _ _ H) in Hi.
  unfold blkfile_do_read. eapply (with_file_ok _ _ t fs f N i); [exact H|reflexivity|lia|].
  intros c s Hc Hs Hf. cbn [spec_file_op o]. rewrite Hs. split; intros Ea.
  { unfold may_read. rewrite Ea. cbn [andb fst snd]. eapply (respond_answered false); [exact H|lia|exact Hsent|done]. }
  rewrite may_read_alloc by exact Ea. rewrite <- (read_allowed_rep f i c s uid Hf).
  destruct (read_allowed c uid) eqn:Er; cbn [fst snd].
  2:{ rewrite decide_True by done. eapply (respond_answered false); [exact H|lia|exact Hsent|done]. }
  rewrite decide_False by done. cbn [op_request fr_size fr_file_no fr_offset].
  pose proof (fp_size _ _ _ _ Hf) as Hsz. pose proof (fp_max _ _ _ _ Hf) as Hmax. pose proof (fp_blocks _ _ _ _ Hf) as Hblk.
  assert (max_file_size = 2 ^ 30) as EM by done.
  assert (forall t1 d, blk_files t1 fs f N -> fss_sent t1 = [] -> d = take (Z.to_nat len) (drop (Z.to_nat off) (sf_data s)) ->
    wp (fs_send 1 (reply_bytes (FileReply FILE_OK 0 FILE_READ (st_set_size (Z.of_nat (length d)) zero_fcb)) ++ d)) t1
      (fun _ t' => answered fs (N - put_cost) (RRead true (take (Z.to_nat len) (drop (Z.to_nat off) (sf_data s)))) t')) as Hans.
  { intros t1 d H1 Hs1 ->. eapply send_answered; [exact H1|lia|exact Hs1|done]. }
  cbv zeta beta. change (fr_size (op_request o)) with len. change (fr_offset (op_request o)) with off.
  change (fr_file_no (op_request o)) with i.
  destruct (decide (len = 0)) as [->|Hl0]; [apply (Hans t []); [done|done|by rewrite take_0]|].
  destruct (decide (off < st_size c)) as [Hlt|Hge]; [|apply (Hans t []); [done|done|by rewrite drop_ge, take_nil by lia]]. rewrite (u32_small (st_size c - off)) by (split; unfold two32; lia).
  set (n := if decide (st_size c - off > len) then len else st_size c - off).
  assert (n = Z.min len (st_size c - off)) as En by (unfold n; destruct (decide _); lia). clearbody n.
  rewrite (u64_small (off + n - 1)) by (unfold two64; lia).
  pose proof BLKSZ_val as EB.
  assert (0 <= off / BLKSZ < 2 ^ 21 /\ off / BLKSZ <= (off + n - 1) / BLKSZ < 2 ^ 21 /\ (off + n - 1) / BLKSZ + 1 <= f_size f i) as (B1 & B2 & B3).
  { specialize (Hblk ltac:(lia)). rewrite EB in *. clear - Hlt Hoff Hmax EM En Hl0 Hlen Hblk. Z.to_euclidean_division_equations; lia. }
  rewrite (u32_small (off / BLKSZ)), (u32_small ((off + n - 1) / BLKSZ)) by (split; unfold two32; lia).
  set (start := off / BLKSZ) in *. set (k := (off + n - 1) / BLKSZ - start + 1).
  rewrite (u32_small k), (u32_small (k * BLKSZ)) by (unfold k; rewrite ?EB in *; split; unfold two32; lia).
  set (buf := replicate (Z.to_nat (k * BLKSZ)) Init.Byte.x00).
  assert (Z.of_nat (length buf) = k * BLKSZ) as Hbl by (assert (1 <= k) by (unfold k; lia); unfold buf; rewrite length_replicate, EB; lia).
  destruct (num_inode _ f i t fs N H ltac:(lia)) as [Hn Hu].
  step. apply wp_fs_call. rewrite (br_svr _ _ _ _ _ H).
  eapply wp_mono; [eapply (multiblock_read_ok bsvr i start buf k); [by eapply br_svc|exact Hn|exact Hu|lia|unfold k; lia|unfold k; lia|lia]|].
  intros x kk [Hk (m & -> & Hm & Hp)]. cbv beta match. rewrite decide_False by (intros [?|Hx]; [done|by apply Hx]).
  destruct (read_bytes_ok f i c s off n m Hf) as [Hfit Hdata]; [lia|lia|lia|fold start k; by rewrite Hm|..].
  { fold start. fold k. intros p. rewrite Hp. destruct (decide _); [done|].
    by rewrite !lookup_ge_None_2 by lia. }
  unfold mem_read. step. rewrite decide_True by exact Hfit. step. apply Hans.
  - destruct H. by split.
  - exact Hsent.
  - rewrite Hdata, En. destruct (decide (len <= st_size c - off)); [by rewrite Z.min_l by lia|].
    rewrite !take_ge by (rewrite length_drop; lia). done.
Qed.

Lemma stat_ok uid t fs f N i : blk_files t fs f N -> fss_sent t = [] ->
  valid_file_op flushable fs (FileStat i) ->
  let o := FileStat i in
  wp (blkfile_do_stat (op_request o) 1 uid) t
    (fun _ t' => answered (spec_file_op uid fs o).2 (N - put_cost) (spec_file_op uid fs o).1 t').
Proof.
  intros H Hsent Hi o. cbn [valid_file_op] in Hi. rewrite (br_len _ _ _ _ _ H) in Hi.
  unfold blkfile_do_stat. eapply (with_file_ok _ _ t fs f N i); [exact H|reflexivity|lia|].
  intros c s Hc Hs Hf. cbn [spec_file_op o]. rewrite Hs. split; intros Ea.
  { unfold may_read. rewrite Ea. cbn [andb fst snd]. eapply (respond_answered false); [exact H|lia|exact Hsent|done]. }
  rewrite may_read_alloc by exact Ea. rewrite <- (read_allowed_rep f i c s uid Hf).
  destruct (read_allowed c uid) eqn:Er; cbn [fst snd].
  - rewrite decide_False by done. eapply send_answered; [exact H|lia|exact Hsent|].
    exists c. split; [eapply Forall_lookup_1; [by eapply br_wf|exact Hc]|]. by destruct Hf.
  - rewrite decide_True by done. eapply (respond_answered false); [exact H|lia|exact Hsent|done].
Qed.

Lemma free_fcb_ok t fs f N n : forall i Q, blk_files t fs f N -> 1 <= i -> i + Z.of_nat n = num ->
  Q (find_free (drop (Z.to_nat i) fs) i) t -> wp (free_fcb n i) t Q.
Proof.
  induction n as [|n IH]; intros i Q H Hi Hn HQ; cbn [free_fcb].
  - step. rewrite drop_ge in HQ by (rewrite (br_len _ _ _ _ _ H); lia). exact HQ.
  - destruct (get_fcb_ok _ t fs f N i H ltac:(lia)) as (c & s & Hc & Hs & _).
    rewrite (drop_S fs s) in HQ by exact Hs. cbn [find_free] in HQ.
    rewrite <- (fp_alloc _ _ _ _ (br_file _ _ _ _ _ H i c s ltac:(lia) Hc Hs)) in HQ.
    step. eapply wp_get_fcb; [exact Hc|]. destruct (st_alloc c) eqn:E.
    + rewrite decide_False by done. apply IH; [done|lia|lia|].
      by replace (Z.to_nat (i + 1)) with (Datatypes.S (Z.to_nat i)) by lia.
    + rewrite decide_True by done. by step.
Qed.

Lemma create_ok uid t fs f N mode : is_u32 uid -> blk_files t fs f N -> fss_sent t = [] -> (put_cost <= N)%nat ->
  valid_file_op flushable fs (FileCreate mode) ->
  let o := FileCreate mode in
  wp (blkfile_do_create pid now (op_request o) 1 uid) t
    (fun _ t' => answered (spec_file_op uid fs o).2 (N - put_cost) (spec_file_op uid fs o).1 t').
Proof.
  intros Huid H Hsent HN [Hmode Hg] o. cbn [spec_file_op o]. cbv zeta.
  assert (drop (Z.to_nat 1) fs = tail fs) as Etl by (by destruct fs).
  destruct (find_free_spec (tail fs) 1) as (k & Ek & Hk & _). rewrite <- Etl, length_drop, (br_len _ _ _ _ _ H) in Hk.
  unfold blkfile_do_create. step. step. step.
  eapply (free_fcb_ok t fs f N _ 1); [exact H|lia|rewrite (br_num _ _ _ _ _ H); lia|]. rewrite Etl. rewrite (br_num _ _ _ _ _ H).
  set (i := find_free (tail fs) 1) in *. rewrite (br_len _ _ _ _ _ H) in Hg.
  destruct (decide (i = num)) as [Ei|Hne].
  { rewrite (lookup_ge_None_2 fs) by (rewrite (br_len _ _ _ _ _ H); lia). cbn [fst snd].
    eapply (respond_answered false); [exact H|lia|exact Hsent|done]. }
  assert (1 <= i < num) as Hi by lia. specialize (Hg ltac:(lia)).
  destruct (get_fcb_ok _ t fs f N i H ltac:(lia)) as (c & s & Hc & Hs & Hcwf). rewrite Hs. cbn [fst snd].
  pose proof (br_file _ _ _ _ _ H i c s Hi Hc Hs) as Hf.
  step. apply wp_fs_time. intros x Hx. step. eapply wp_upd_fcb; [exact Hc|].
  set (c' := Fcb true pid i uid (fr_mode (op_request o)) (st_size c) x).
  set (s' := SFile true uid mode (sf_data s)).
  assert (blk_files_but i (with_cache (<[Z.to_nat i:=c']> (fss_fcb_cache t)) (with_kernel (fss_kernel t) t)) (<[Z.to_nat i:=s']> fs) f N) as Hb.
  { eapply (blk_files_update t fs f f N (fss_kernel t)); [exact H|done|by eapply br_svc|done|done| |].
    - destruct Hcwf. destruct (num_inode _ f i t fs N H ltac:(lia)). split; cbn; assumption || lia.
    - destruct Hf. by split. }
  step. eapply wp_mono; [eapply (flush_ok _ _ _ _ i Hb); [lia|exact Hg|unfold put_cost in *; lia]|].
  intros u t' (kk & f' & -> & Hb'). eapply send_answered; [exact Hb'|unfold put_cost; lia|exact Hsent|done].
Qed.

Lemma blk_round_ok uid t fs f N o : is_u32 uid -> blk_files t fs f N -> fss_sent t = [] -> (put_cost <= N)%nat ->
  valid_file_op flushable fs o ->
  wp (blkfile_proc_round pid now (request_bytes (op_request o) ++ op_data o) 1 uid) t
    (fun _ t' => answered (spec_file_op uid fs o).2 (N - put_cost) (spec_file_op uid fs o).1 t').
Proof.
  intros Hu H Hs HN Hv. unfold blkfile_proc_round. rewrite op_message by (by eapply op_data_length). cbv zeta.
  assert (request_wf (op_request o)) as Hwf by (eapply op_request_wf; [exact Hv|rewrite (br_len _ _ _ _ _ H); unfold two32; lia]).
  rewrite bool_decide_eq_true_2 by (rewrite length_app, length_request_bytes; lia).
  step. apply wp_assert; [done|]. rewrite request_of_bytes by exact Hwf.
  rewrite drop_app_length' by (by rewrite length_request_bytes).
  destruct o as [mode|i off data|i off len|i]; cbn [op_data].
  - rewrite decide_True by done. by eapply create_ok.
  - do 5 rewrite decide_False by done. rewrite decide_True by done. by eapply write_ok.
  - do 4 rewrite decide_False by done. rewrite decide_True by done. by eapply read_ok.
  - do 7 rewrite decide_False by done. rewrite decide_True by done. by eapply stat_ok.
Qed.

(** * The interface *)

Definition blk_rep (o : option st) (fs : list sfile) (N : nat) : Prop :=
  exists t f, o = Some t /\ blk_files t fs f N.

Lemma blk_rpc_ok uid svr o fs N op : is_u32 uid -> blk_rep o fs N -> valid_file_op flushable fs op -> (put_cost <= N)%nat ->
  wp (@exec_file_op _ (blkfile_server rpc pid now uid) svr op) o (fun r o' =>
    r = (spec_file_op uid fs op).1 /\ blk_rep o' (spec_file_op uid fs op).2 (N - put_cost)).
Proof.
  intros Hu (t & f & -> & H) Hv HN.
  apply (exec_file_op_ok svr (fun o' => blk_rep o' (spec_file_op uid fs op).2 (N - put_cost))).
  { eapply spec_op_result; [exact Hv|rewrite (br_len _ _ _ _ _ H); unfold two32; lia]. }
  set (t0 := FileServer (fss_kernel t) (fss_block_svr t) (fss_global_time t) (fss_start_time t) (fss_fcb_cache t) (fss_num_fcbs t) []).
  assert (blk_files t0 fs f N) as H0 by (destruct H; by split).
  pose proof (blk_round_ok uid t0 fs f N op Hu H0 eq_refl HN Hv) as Hr.
  unfold sys_rpc, blkfile_server, blkfile_rpc. unfold wp in Hr |- *. fold t0.
  destruct (blkfile_proc_round _ _ _ _ _ t0) as [[u t1]| | |]; try done. destruct Hr as [(rep & Hrep & Es) (f1 & H1)].
  rewrite Es. cbn [last]. split; [by exists rep|]. by exists t1, f1.
Qed.

(** * A control block that is not flushed from within the cache *)

Lemma flush_overrun t fs f N i : blk_files_but i t fs f N -> 0 <= i < num -> ~ flushable i ->
  (Z.to_nat (((i + 1) * 40 - 1) / BLKSZ + 1) * write_cost <= N)%nat -> flush_fcb_cache i t = Undef.
Proof.
  intros H Hi Hf HN. pose proof BLKSZ_val as EB. unfold flushable in *. rewrite EB in *.
  assert (BLOCK_SIZE = 1024%nat) as EB' by done.
  unfold flush_fcb_cache. erewrite mbind_Ret by reflexivity. cbv zeta. change (Z.of_nat sizeof_fcb) with 40. rewrite EB.
  set (s := i * 40 / 1024) in *. set (e := ((i + 1) * 40 - 1) / 1024) in *.
  assert (0 <= s /\ 0 <= e < 2 ^ 20 /\ s * 1024 <= i * 40) as (Hs & He & Hse) by (unfold s, e; Z.to_euclidean_division_equations; lia).
  rewrite !(u32_small s), !(u32_small e), (u32_small (e + 1)), (u32_small (s * 1024)) by (split; unfold two32; lia).
  destruct (num_inode _ f 0 t fs N H ltac:(lia)) as [H0 _].
  apply mbind_Undef. unfold fs_call. erewrite mbind_Ret by reflexivity. unfold lift. rewrite (br_svr _ _ _ _ _ H).
  unfold multiblock_write.
  destruct (multiblock_write_overrun bsvr 0 (Z.to_nat (e + 1)) s (drop (Z.to_nat (s * 1024)) (cache_bytes (fss_fcb_cache t))) 0
    (fss_kernel t) f N) as [->|E]; try done; try lia; [by eapply br_svc|unfold two32; lia|].
  rewrite length_drop, length_cache_bytes, (br_cache _ _ _ _ _ H), EB'. lia.
Qed.

Lemma create_overrun uid svr t fs f N mode : is_u32 uid -> 0 <= mode < 2 ^ 16 -> blk_files t fs f N ->
  let i := find_free (tail fs) 1 in
  i < num -> ~ flushable i -> (Z.to_nat (((i + 1) * 40 - 1) / BLKSZ + 1) * write_cost <= N)%nat ->
  @exec_file_op _ (blkfile_server rpc pid now uid) svr (FileCreate mode) (Some t) = Undef.
Proof.
  intros Hu Hm H i Hi Hf HN. cbn [exec_file_op]. apply mbind_Undef. unfold file_create. apply mbind_Undef.
  unfold file_rpc. apply mbind_Undef. unfold sys_rpc, blkfile_server, blkfile_rpc.
  set (t0 := FileServer (fss_kernel t) (fss_block_svr t) (fss_global_time t) (fss_start_time t) (fss_fcb_cache t) (fss_num_fcbs t) []).
  assert (blk_files t0 fs f N) as H0 by (destruct H; by split). clearbody t0. clear t H.
  assert (request_wf (op_request (FileCreate mode))) as Hwf by (split; cbn; unfold FILE_CREATE; done || lia).
  change (request_bytes _) with (request_bytes (op_request (FileCreate mode))).
  rewrite <- (app_nil_r (request_bytes _)).
  enough (blkfile_proc_round pid now (request_bytes (op_request (FileCreate mode)) ++ []) 1 uid t0 = Undef) as -> by done.
  unfold blkfile_proc_round. pose proof (op_message (FileCreate mode) (Nat.le_0_l _)) as Em. cbn [op_data] in Em. rewrite Em. cbv zeta.
  rewrite bool_decide_eq_true_2 by (rewrite length_app, length_request_bytes; lia).
  erewrite mbind_Ret by reflexivity. rewrite request_of_bytes by exact Hwf. rewrite decide_True by done.
  unfold blkfile_do_create. erewrite mbind_Ret by reflexivity.
  assert (drop (Z.to_nat 1) fs = tail fs) as Etl by (by destruct fs).
  eapply (wp_bind_ends _ _ _ (fun j t' => j = i /\ t' = t0)).
  { eapply (free_fcb_ok t0 fs f N _ 1); [exact H0|lia|rewrite (br_num _ _ _ _ _ H0); lia|]. by rewrite Etl. }
  intros j t' [-> ->]. rewrite (br_num _ _ _ _ _ H0), decide_False by lia.
  eapply (wp_bind_ends _ _ _ (fun x t' => 0 <= x < two64 /\ t' = t0)); [by apply wp_fs_time|]. intros x t' [Hx ->].
  assert (1 <= i) by (unfold i; destruct (find_free_spec (tail fs) 1) as (k & -> & _); lia).
  destruct (get_fcb_ok _ t0 fs f N i H0 ltac:(lia)) as (c & s & Hc & Hs & Hcwf).
  set (c' := Fcb true pid i uid (fr_mode (op_request (FileCreate mode))) (st_size c) x).
  eapply (wp_bind_ends _ _ _ (fun _ t' => t' = with_cache (<[Z.to_nat i:=c']> (fss_fcb_cache t0)) t0));
    [by eapply wp_upd_fcb|]. intros u t' ->. apply mbind_Undef.
  eapply (flush_overrun _ (<[Z.to_nat i:=SFile true uid mode (sf_data s)]> fs) f N); [|lia|done|exact HN].
  apply (blk_files_update t0 fs f f N (fss_kernel t0)); [exact H0|lia|by eapply br_svc|done|done| |].
  - destruct Hcwf. destruct (num_inode _ f i t0 fs N H0 ltac:(lia)). split; cbn; assumption || lia.
  - destruct (br_file _ _ _ _ _ H0 i c s ltac:(lia) Hc Hs). by split.
Qed.

(** * Starting *)

Lemma fcbs_of_bytes c : Forall fcb_wf c -> fcbs_of (length c) (cache_bytes c) = c.
Proof.
  induction 1 as [|x c Hx _ IH]; [done|]. unfold cache_bytes in *. cbn [length fcbs_of fmap list_fmap concat].
  rewrite fcb_of_bytes by done. rewrite drop_app_length' by (by rewrite length_fcb_bytes). f_equal. exact IH.
Qed.

(** The state in which [bfs_main] calls [blkfile_start]. *)
Definition fresh (seconds start : Z) (k : T) : st :=
  FileServer k bsvr seconds (u32 start) (replicate (Z.to_nat num) zero_fcb) num [].

Lemma bfs_main_ok seconds start k f N Q : svc_rep k f N -> f_ninodes f = num ->
  (forall k', svc_rep k' f N -> wp blkfile_start (fresh seconds start k') (fun _ t => Q t (fss_kernel t))) ->
  wp (bfs_main bsvr seconds start) k Q.
Proof.
  intros Hk En H. unfold bfs_main.
  pose proof (svc_getninodes k f N 0 Hk ltac:(lia)) as Hg. unfold wp in Hg |- *.
  destruct (block_getninodes _ _ _) as [[[ok n] k']| | |]; try done. destruct Hg as [[= -> ->] Hk'].
  rewrite En. specialize (H k' Hk'). unfold wp in H. fold (fresh seconds start k').
  by destruct (blkfile_start _) as [[u t]| | |].
Qed.

(** The size of the array in blocks, which it fills. *)
Context (Hblocks : num mod 128 = 0).

Lemma cache_blocks : num * 40 = num * 40 / 1024 * 1024 /\
  u32 (num * Z.of_nat sizeof_fcb) = num * 40 /\ u32 (num * 40 - 1) / BLKSZ = num * 40 / 1024 - 1.
Proof.
  rewrite BLKSZ_val. change (Z.of_nat sizeof_fcb) with 40.
  rewrite !u32_small by (split; unfold two32; lia). split_and!; [| |]; Z.to_euclidean_division_equations; lia.
Qed.

Lemma flush_all_ok t f N : svc_rep (fss_kernel t) f N -> fss_block_svr t = bsvr -> fss_num_fcbs t = num ->
  num <= f_ninodes f -> length (fss_fcb_cache t) = Z.to_nat num -> f_size f 0 = 0 -> (flush_cost <= N)%nat ->
  wp flush_stat_cache_all t (fun _ t' => exists k f', t' = with_kernel k t /\ svc_rep k f' (N - flush_cost) /\
    f_ninodes f' = f_ninodes f /\ on_disk (-1) (fss_fcb_cache t) f').
Proof.
  intros Hk Es En Hni Hc Hsz HN. destruct cache_blocks as (E1 & E2 & E3). pose proof BLKSZ_val as EB.
  assert (BLOCK_SIZE = 1024%nat) as EB' by done. unfold flush_cost in *. rewrite EB in HN |- *.
  unfold flush_stat_cache_all. step. step. step. cbv zeta. rewrite En, E2, E3.
  rewrite u32_small by (split; unfold two32; lia). replace (num * 40 / 1024 - 1 + 1) with (num * 40 / 1024) by lia.
  apply wp_fs_call. rewrite Es.
  eapply wp_mono; [eapply (multiblock_write_ok bsvr 0 0 _ (num * 40 / 1024)); [exact Hk|lia|done|lia|lia|unfold two32; lia| |lia]|].
  { rewrite length_cache_bytes, Hc, EB. lia. }
  intros r k [-> (f' & Hr & [B1 B2 B3 B4 B5])]. step. exists k, f'. split; [done|]. split; [done|]. split; [done|].
  unfold on_disk, byte_at. rewrite EB. split; [rewrite B3, decide_False, Hsz by lia; lia|].
  intros p Hp _. rewrite Hc in Hp. set (b := Z.of_nat p / 1024). set (r := Z.of_nat p mod 1024).
  assert (Z.of_nat p = b * 1024 + r /\ 0 <= r < 1024) as [Eb Hr0] by (unfold b, r; Z.to_euclidean_division_equations; lia).
  replace b with (0 + Z.of_nat (Z.to_nat b)) by lia. rewrite B4, EB' by lia.
  rewrite lookup_take_lt by lia. rewrite lookup_drop. f_equal. lia.
Qed.

Definition no_files : list sfile := replicate (Z.to_nat num) (SFile false 0 0 []).

Lemma start_empty_ok k f N seconds start : svc_rep k f N -> f_ninodes f = num -> f_size f 0 = 0 -> (flush_cost <= N)%nat ->
  wp blkfile_start (fresh seconds start k) (fun _ t' => exists f', blk_files t' no_files f' (N - flush_cost)).
Proof.
  intros Hk En Hsz HN. unfold blkfile_start. step. unfold load_fcb_cache. do 3 step. apply wp_fs_call.
  eapply wp_mono; [eapply (svc_getsize k f N 0); [exact Hk|done|lia|lia]|]. intros x k1 [-> Hk1]. cbn [fst snd].
  step. apply wp_assert; [done|]. rewrite decide_True by exact Hsz. do 3 step. step.
  unfold set_cache at 1. step. step.
  set (t1 := FileServer _ _ _ _ _ _ _).
  assert (fss_fcb_cache t1 = replicate (Z.to_nat num) zero_fcb) as Ec by (unfold t1; cbn; by rewrite length_replicate).
  eapply wp_upd_fcb; [rewrite Ec; apply lookup_replicate_2; lia|]. step.
  set (c1 := st_set_alloc true zero_fcb).
  eapply wp_upd_fcb; [cbn [with_cache fss_fcb_cache]; apply list_lookup_insert_eq; rewrite Ec, length_replicate; lia|].
  set (t2 := with_cache _ (with_cache _ t1)).
  assert (exists c0, fss_fcb_cache t2 = <[0%nat:=c0]> (replicate (Z.to_nat num) zero_fcb) /\ fcb_wf c0) as (c0 & Ec2 & Hc0).
  { eexists. split; [unfold t2; cbn [with_cache fss_fcb_cache]; rewrite Ec; apply list_insert_insert_eq|].
    change (Z.to_nat 0) with 0%nat. cbn [fresh with_kernel fss_num_fcbs].
    assert (STATS_PER_BLOCK = 25) as -> by done. split; cbn; try done. unfold two64. change (Z.of_nat sizeof_fcb) with 40. Z.to_euclidean_division_equations; lia. }
  eapply wp_mono; [eapply (flush_all_ok t2 f N); [exact Hk1|done|done|lia| |exact Hsz|exact HN]|].
  { by rewrite Ec2, length_insert, length_replicate. }
  intros u t' (k2 & f' & -> & Hk2 & En' & Hd). exists f'.
  split; cbn [with_kernel fss_kernel fss_block_svr fss_num_fcbs fss_fcb_cache]; try done.
  - lia.
  - by rewrite Ec2, length_insert, length_replicate.
  - by unfold no_files; rewrite length_replicate.
  - rewrite Ec2. apply Forall_insert; [apply Forall_replicate; by split|done].
  - intros i c s Hi Hc Hs. rewrite Ec2, list_lookup_insert_ne in Hc by lia.
    apply lookup_replicate in Hc as [-> _]. apply lookup_replicate in Hs as [-> _]. split; try done. intros p Hp. cbn in Hp. lia.
Qed.

(** A server that starts over the blocks of an earlier one. *)
Lemma restart_ok t fs f N seconds start : blk_files t fs f N ->
  wp blkfile_start (fresh seconds start (fss_kernel t)) (fun _ t' => blk_files t' fs f N).
Proof.
  intros H. pose proof (br_ninodes _ _ _ _ _ H) as En. destruct (br_disk _ _ _ _ _ H) as [Hsz Hb]. destruct cache_blocks as (E1 & E2 & E3). pose proof BLKSZ_val as EB.
  pose proof (br_cache _ _ _ _ _ H) as Hc. rewrite EB in Hsz.
  unfold blkfile_start. step. unfold load_fcb_cache. do 3 step. apply wp_fs_call.
  eapply wp_mono; [eapply (svc_getsize _ f N 0); [exact (br_svc _ _ _ _ _ H)|done|lia|lia]|]. intros x k1 [-> Hk1]. cbn [fst snd].
  step. apply wp_assert; [done|]. rewrite Hsz, decide_False by lia.
  cbn [fresh with_kernel fss_num_fcbs fss_fcb_cache]. rewrite E2, E3.
  replace (num * 40 / 1024 - 1 + 1) with (num * 40 / 1024) by lia.
  rewrite u32_small by (split; unfold two32; lia). rewrite decide_False by (intros Hx; by apply Hx).
  set (buf := cache_bytes _).
  assert (Z.of_nat (length buf) = num * 40) as Hbuf by (unfold buf; rewrite length_cache_bytes, length_replicate; lia).
  step. apply wp_fs_call. cbn [fss_block_svr fss_kernel].
  eapply wp_mono; [eapply (multiblock_read_ok bsvr 0 0 buf (num * 40 / 1024)); [exact Hk1|lia|done|lia|lia|lia|lia]|].
  intros x k2 [Hk2 (m & -> & Hm & Hp)]. cbn [fst snd]. rewrite length_replicate.
  assert (m = cache_bytes (fss_fcb_cache t)) as ->.
  { apply list_eq. intros p. rewrite Hp. destruct (decide _) as [Hlt|Hge].
    - rewrite Z.mul_0_l. cbn [Z.to_nat Nat.add]. apply Hb; lia.
    - rewrite !lookup_ge_None_2; [done|rewrite length_cache_bytes; lia|lia]. }
  rewrite <- Hc. rewrite fcbs_of_bytes by (by eapply br_wf). unfold set_cache. repeat step.
  destruct H. by split.
Qed.
End bfs.

(** * The interface *)

Program Definition blkfile_service {T} (rpc : Rpc T) (bsvr : Z) `{!BlockService rpc bsvr} (pid now num svr uid : Z)
    (Hpid : is_u32 pid) (Hnow : 0 <= now < two64) (Hnum : 1 <= num < 2 ^ 24) (Huid : is_u32 uid) :
    FileService (blkfile_server rpc pid now uid) svr uid := {|
  fsv_rep := blk_rep bsvr num;
  fsv_good := flushable num;
  fsv_cost := put_cost num;
|}.
Next Obligation. intros. by apply blk_rpc_ok. Qed.
