(* ===== verification/BlockFileProps.v ===== *)
(** The properties of the file server of bfs.c: what its clients see when it runs
    over the block server, the write-back cache and an empty bottom store, what a
    restart keeps, and where it fails. *)
From stdpp Require Import base numbers list gmap.
From Stdlib Require Import ZArith Lia.
From S2P Require Import Prelude BlockStore RamDisk ClockDisk TreeDisk TreeInv TreeSpec TreeFree TreeCreate TreeProps BlockProt FileProt FileSpec BlockFile BlockService BlockFileSpec.

#[export] Instance valid_file_op_dec good fs o `{!forall i, Decision (good i)} : Decision (valid_file_op good fs o).
Proof. destruct o; cbn [valid_file_op]; unfold FileSpec.max_file_size; apply _. Defined.

#[export] Instance valid_file_ops_dec good uid os `{!forall i, Decision (good i)} : forall fs, Decision (valid_file_ops good uid fs os).
Proof. induction os as [|o os IH]; intros fs; cbn [valid_file_ops]; apply _. Defined.

#[export] Instance flushable_dec num i : Decision (flushable num i).
Proof. unfold flushable. apply _. Defined.

(** * Starting on an empty store *)

Section stack.
Context {S : Type} {R : S -> vdisk -> Prop} `{!BlockStore S, !Lawful S R}.
Context (pid now uid bsvr svr seconds start : Z).
(** The block server under the file server, and the file server's clients' calls. *)
Definition stack_rpc : Rpc (option (treedisk_state (clockdisk_state S))) := block_server_rpc.
Definition stack_server := blkfile_server stack_rpc pid now uid.

#[local] Instance stack_service : BlockService stack_rpc bsvr := tree_block_service (R:=clock_repr (R:=R)) 0 bsvr.

(** The limits under which the stack is built. *)
Record stack_ok (bot : S) (d : vdisk) (cache : list block) (nblocks : Z) : Prop := {
  so_repr : R bot d;
  so_size : size_of d 0 nblocks;
  so_nblocks : 4 <= nblocks < 2147483648;
  so_new : sb_n_inodeblocks (TreeInv.blk 0 d 0) = 0;
  so_cache : length cache = 20%nat;
  so_pid : is_u32 pid;
  so_now : 0 <= now < two64;
  so_uid : is_u32 uid;
}.

(** The files that [bfs_main] starts with, one per inode of the file system. *)
Definition start_files : list sfile := no_files NINODES.

(** The blocks that it takes to start and to serve [n] requests. *)
Definition stack_budget (n : nat) : Z := Z.of_nat (flush_cost NINODES + put_cost NINODES * n).

Lemma stack_start bot d cache nblocks N : stack_ok bot d cache nblocks ->
  Z.of_nat (flush_cost NINODES + N) <= nblocks - 3 ->
  exists ts, block_init bot cache = Ret ts /\
    wp (@bfs_main _ stack_rpc bsvr seconds start) (Some ts) (fun fss _ =>
      blk_rep (rpc:=stack_rpc) bsvr NINODES (Some fss) start_files N).
Proof.
  intros [HR Hsz Hnb H0 Hc Hpid Hnow Huid] Hb.
  assert (clock_repr (clockdisk_init bot cache NCACHE_BLOCKS) d) as HC
    by (apply clockdisk_init_repr; [exact HR|done|by rewrite Hc]).
  pose proof (treedisk_create_ok 0 _ d nblocks NINODES HC Hsz ltac:(lia) ltac:(done)) as H.
  change ((NINODES + 127) / 127) with 2 in H. change ((NINODES + 127) / 128) with 2 in H.
  apply wp_Ret in H as (r & s' & E & -> & dB' & fl & HR' & Hf & Hfl & _); [|lia|done].
  exists (treedisk_init s' BOTTOM_INODE). split; [unfold block_init, BOTTOM_INODE; by rewrite E|].
  assert (svc_rep (rpc:=stack_rpc) (svr:=bsvr)
            (Some (treedisk_init s' BOTTOM_INODE)) (f_empty NINODES) (flush_cost NINODES + N)) as Hsvc.
  { exists (treedisk_init s' BOTTOM_INODE), fl. split; [done|]. split; [exists dB'; split; [by split|exact Hf]|].
    rewrite Hfl, length_seqZ. lia. }
  eapply (bfs_main_ok bsvr NINODES); [done|exact Hsvc|done|]. intros k' Hk'.
  eapply wp_mono; [eapply (start_empty_ok bsvr now NINODES Hnow); [done|done|exact Hk'|done|done|lia]|].
  intros u t' (f' & Hb'). exists t', f'. split; [done|].
  by replace (flush_cost NINODES + N - flush_cost NINODES)%nat with N in Hb' by lia.
Qed.
End stack.

(** * Properties *)

Lemma ninodes_range : 1 <= NINODES < 2 ^ 24.
Proof. done. Qed.

Lemma ninodes_mod : NINODES mod 128 = 0.
Proof. done. Qed.

Section properties.
Context {S : Type} {R : S -> vdisk -> Prop} `{!BlockStore S, !Lawful S R}.
Context (pid now uid bsvr svr seconds start : Z).
Abbreviation blocks := (stack_rpc (S:=S)).
Abbreviation files_server := (stack_server (S:=S) pid now uid).
Abbreviation run os := (@exec_file_ops _ files_server svr os).
Abbreviation after os := (spec_file_ops uid start_files os).
Abbreviation good := (flushable NINODES).

#[local] Instance stack_blocks : BlockService blocks bsvr := stack_service (R:=R) bsvr.

Lemma service_run (Hpid : is_u32 pid) (Hnow : 0 <= now < two64) (Huid : is_u32 uid) os o fs N :
  blk_rep (rpc:=blocks) bsvr NINODES o fs N -> valid_file_ops good uid fs os -> (put_cost NINODES * length os <= N)%nat ->
  wp (run os) o (fun rs o' => rs = (spec_file_ops uid fs os).1 /\
    blk_rep (rpc:=blocks) bsvr NINODES o' (spec_file_ops uid fs os).2 (N - put_cost NINODES * length os)).
Proof.
  apply (file_ops_ok files_server svr uid (FileService0 := blkfile_service blocks bsvr pid now NINODES svr uid Hpid Hnow ninodes_range Huid)).
Qed.

Lemma run_undef os o t : wp (run os) t (fun _ t' => @exec_file_op _ files_server svr o t' = Undef) ->
  run (os ++ [o]) t = Undef.
Proof.
  revert t. induction os as [|a os IH]; intros t H; cbn [exec_file_ops app] in *; [by apply mbind_Undef|].
  apply wp_bind_inv in H. eapply wp_bind_ends; [exact H|]. intros r t' H'. apply wp_bind_inv in H'.
  apply mbind_Undef, IH. eapply wp_mono; [exact H'|]. done.
Qed.

(** C3. The file server of bfs.c over the whole block stack, on an empty bottom
    store: a sequence of requests to create, write, read and stat files, of any
    user, gets the results of the abstract files, refusals included, so files keep
    exactly what was written, through the control blocks, the two layers of
    messages, the tree file system and the write-back cache. The conditions, which
    [valid_file_ops] states: only files below 128, whose control blocks the flush
    reaches, are created or written; a write has at most a page, leaves no hole and
    ends within 2^30 bytes; a read asks for at most 2^31 bytes; and the disk has the
    blocks of [stack_budget]. *)
Theorem bfs_files_correct (bot : S) (d : vdisk) (cache : list block) (nblocks : Z) (os : list file_op) :
  stack_ok (R:=R) pid now uid bot d cache nblocks -> stack_budget (length os) <= nblocks - 3 ->
  valid_file_ops good uid start_files os ->
  exists ts, block_init bot cache = Ret ts /\
    wp (@bfs_main _ blocks bsvr seconds start) (Some ts) (fun fss _ =>
      wp (run os) (Some fss) (fun rs _ => rs = (after os).1)).
Proof.
  intros Hok Hb Hv. destruct (stack_start pid now uid bsvr seconds start bot d cache nblocks _ Hok Hb) as (ts & E & H).
  exists ts. split; [exact E|]. wp_use H as Hr. destruct Hok.
  wp_use (service_run so_pid0 so_now0 so_uid0 os _ start_files _ Hr Hv) as [-> _]; done.
Qed.


(** C40. The flush of a control block writes as many blocks as the number of its
    last block says, from its first block on: when the first free file has a
    number from 128 on, of the 256 of the file system, creating it reads past the
    array of control blocks. *)
Theorem bfs_create_overruns (bot : S) (d : vdisk) (cache : list block) (nblocks mode : Z) (os : list file_op) :
  stack_ok (R:=R) pid now uid bot d cache nblocks -> stack_budget (length os + 1) <= nblocks - 3 ->
  valid_file_ops good uid start_files os -> 0 <= mode < 2 ^ 16 -> 128 <= find_free (tail (after os).2) 1 < NINODES ->
  exists ts, block_init bot cache = Ret ts /\
    wp (@bfs_main _ blocks bsvr seconds start) (Some ts) (fun fss _ =>
      run (os ++ [FileCreate mode]) (Some fss) = Undef).
Proof.
  intros Hok Hb Hv Hm Hi. destruct (stack_start pid now uid bsvr seconds start bot d cache nblocks _ Hok Hb) as (ts & E & H).
  exists ts. split; [exact E|]. wp_use H as Hr. destruct Hok. apply run_undef.
  wp_use (service_run so_pid0 so_now0 so_uid0 os _ start_files _ Hr Hv) as [_ (fss1 & f & -> & H1)]; [lia|].
  change (Z.of_nat 0) with 0 in *. cbv zeta in Hi. set (i := find_free _ _) in *.
  assert (put_cost NINODES = 252%nat) as Ep by done. rewrite Ep in *.
  eapply (create_overrun (rpc:=blocks) bsvr pid now NINODES so_pid0 so_now0 ninodes_range); [exact so_uid0|exact Hm|exact H1|fold i; lia| |].
  - fold i. unfold flushable. rewrite BLKSZ_val. unfold NINODES in *. Z.to_euclidean_division_equations; lia.
  - fold i. rewrite BLKSZ_val. unfold NINODES, write_cost in *. Z.to_euclidean_division_equations; lia.
Qed.
End properties.

(** * A block server that fails *)

Section dead.
Context {S : Type} `{!BlockStore S}.
Abbreviation st := (file_server_state (option S)).
Abbreviation dead_flush := (@flush_fcb_cache _ block_server_rpc).

Lemma dead_block_write svr i o b : @block_write _ (@block_server_rpc S _) svr i o b None = Ret (false, None).
Proof. done. Qed.

Lemma dead_setsize svr i n Q : Q false None -> wp (@block_setsize _ (@block_server_rpc S _) svr i n) None Q.
Proof. done. Qed.

Lemma dead_flush_ok i (t : st) : fss_kernel t = None -> 0 <= i < fss_num_fcbs t -> fss_num_fcbs t < 2 ^ 24 ->
  fss_num_fcbs t mod 128 = 0 -> length (fss_fcb_cache t) = Z.to_nat (fss_num_fcbs t) ->
  wp (dead_flush i) t (fun _ t' => t' = t).
Proof.
  intros Hk Hi Hn Hm Hc. pose proof BLKSZ_val as EB. assert (BLOCK_SIZE = 1024%nat) as EB' by done.
  unfold flush_fcb_cache. cbv zeta. change (Z.of_nat sizeof_fcb) with 40. rewrite EB. do 3 step.
  set (s := i * 40 / 1024) in *. set (e := ((i + 1) * 40 - 1) / 1024) in *.
  assert (0 <= s /\ 0 <= e < 2 ^ 20 /\ s * 1024 + 1024 <= fss_num_fcbs t * 40) as (Hs & He & Hse)
    by (unfold s, e; Z.to_euclidean_division_equations; lia).
  rewrite !(u32_small s), !(u32_small e), (u32_small (e + 1)), (u32_small (s * 1024)) by (split; unfold two32; lia).
  apply wp_fs_call. rewrite Hk. unfold multiblock_write.
  replace (Z.to_nat (e + 1)) with (Datatypes.S (Z.to_nat e)) by lia. cbn [multiblock_write_loop].
  step. unfold mem_read. rewrite decide_True by (rewrite length_drop, length_cache_bytes, Hc, EB'; lia).
  step. step. unfold wp at 1. rewrite dead_block_write. step. step. destruct t. by cbn in *; subst.
Qed.

(** When the block server fails, the handlers of delete and setsize go on
    after the error: the client is sent two replies, first the error and then
    success, and the control block says that the file is gone, or has its new
    size. *)
Lemma bfs_error_then_success (now src uid i size : Z) (t : st) (c : fcb) :
  fss_kernel t = None -> 1 <= i < fss_num_fcbs t -> fss_num_fcbs t < 2 ^ 24 -> fss_num_fcbs t mod 128 = 0 ->
  length (fss_fcb_cache t) = Z.to_nat (fss_num_fcbs t) ->
  fss_fcb_cache t !! Z.to_nat i = Some c -> st_alloc c = true -> write_allowed c uid = true -> 0 <= size <= st_size c ->
  let replies := [(src, status_reply true 0); (src, status_reply false 0)] in
  wp (blkfile_do_delete (FileRequest FILE_DELETE i 0 0 0 0) src uid) t (fun _ t' =>
    fss_sent t' = replies ++ fss_sent t /\ exists c', fss_fcb_cache t' !! Z.to_nat i = Some c' /\ st_alloc c' = false) /\
  wp (blkfile_do_setsize now (FileRequest FILE_SETSIZE i size 0 0 0) src uid) t (fun _ t' =>
    fss_sent t' = replies ++ fss_sent t /\ exists c', fss_fcb_cache t' !! Z.to_nat i = Some c' /\ st_size c' = size).
Proof.
  intros Hk Hi Hn Hm Hc Hci Ha Hw Hsz replies.
  pose proof (lookup_lt_Some _ _ _ Hci) as Hlt. split.
  - unfold blkfile_do_delete. cbn [fr_file_no]. step. step. rewrite decide_False by lia.
    step. eapply wp_get_fcb; [exact Hci|]. rewrite decide_False by congruence. rewrite decide_False by congruence.
    step. eapply wp_upd_fcb; [exact Hci|]. step.
    eapply wp_mono; [apply (dead_flush_ok i); cbn; rewrite ?length_insert; done || lia|]. intros u t1 ->.
    step. apply wp_fs_call. cbn [with_cache fss_kernel fss_block_svr]. rewrite Hk. apply dead_setsize. cbv beta match.
    step. apply wp_fs_send. apply wp_fs_send. split; [done|]. eexists. split; [by apply list_lookup_insert_eq|done].
  - unfold blkfile_do_setsize, with_file. cbn [fr_file_no fr_offset]. step. step. rewrite decide_False by lia.
    step. eapply wp_get_fcb; [exact Hci|]. rewrite decide_False by congruence. rewrite decide_False by lia.
    rewrite decide_False by congruence. cbv zeta. step. apply wp_fs_call. rewrite Hk.
    apply dead_setsize. cbv beta match. step. apply wp_fs_send. step. apply wp_fs_time. intros x _.
    step. eapply wp_upd_fcb; [exact Hci|]. step.
    eapply wp_mono; [apply (dead_flush_ok i); cbn; rewrite ?length_insert; done || lia|]. intros u t1 ->.
    apply wp_fs_send. split; [done|]. eexists. split; [by apply list_lookup_insert_eq|done].
Qed.
End dead.

(** * The properties on disks of null blocks *)

Definition null_disk (n : nat) : list block := replicate n null_block.

Lemma null_stack_ok (n : nat) pid now uid : 4 <= Z.of_nat n < 2147483648 -> is_u32 pid -> 0 <= now < two64 -> is_u32 uid ->
  stack_ok (R:=ram_repr) pid now uid (ramdisk_init (null_disk n) (Z.of_nat n)) (disk_of (null_disk n))
    (replicate 20 null_block) (Z.of_nat n).
Proof.
  intros Hn Hp Ht Hu. assert (Z.of_nat (length (null_disk n)) = Z.of_nat n) as El by (unfold null_disk; by rewrite length_replicate).
  split; try done.
  - rewrite <- El. apply ramdisk_init_repr; [apply Forall_replicate, null_block_wf|]. rewrite El. unfold two32. lia.
  - rewrite <- El. apply disk_of_size.
  - unfold TreeInv.blk. rewrite disk_of_lookup, decide_True by lia. unfold null_disk.
    rewrite lookup_replicate_2 by lia. vm_compute. reflexivity.
Qed.

Definition wit_x (n : nat) : message := replicate n Init.Byte.x58.
Definition wit_file_ops : list file_op :=
  [FileCreate P_FILE_DEFAULT; FileWrite 1 0 (wit_x 3); FileWrite 1 3 [Init.Byte.x59]; FileRead 1 1 9; FileRead 2 0 4; FileStat 1].

Lemma bfs_files_correct_witness :
  exists ts, block_init (ramdisk_init (null_disk (Z.to_nat 3000)) 3000) (replicate 20 null_block) = Ret ts /\
    wp (@bfs_main _ (stack_rpc (S:=ramdisk_state)) 5 0 0) (Some ts) (fun fss _ =>
      wp (@exec_file_ops _ (stack_server (S:=ramdisk_state) 9 0 7) 6 wit_file_ops) (Some fss) (fun rs _ =>
        rs = [RCreate true 1; RWrite true; RWrite true; RRead true [Init.Byte.x58; Init.Byte.x58; Init.Byte.x59]; RRead false []; RStat true 7 P_FILE_DEFAULT])).
Proof.
  apply (bfs_files_correct (R:=ram_repr) 9 0 7 5 6 0 0 _ (disk_of (null_disk (Z.to_nat 3000))) _ 3000 wit_file_ops).
  - apply (null_stack_ok (Z.to_nat 3000)); [lia|done..].
  - vm_compute. congruence.
  - apply (bool_decide_unpack _). vm_compute. exact I.
Defined.


(** 127 files, and one more. *)
Lemma bfs_create_overruns_witness :
  exists ts, block_init (ramdisk_init (null_disk (Z.to_nat 40000)) 40000) (replicate 20 null_block) = Ret ts /\
    wp (@bfs_main _ (stack_rpc (S:=ramdisk_state)) 5 0 0) (Some ts) (fun fss _ =>
      @exec_file_ops _ (stack_server (S:=ramdisk_state) 9 0 7) 6 (replicate 127 (FileCreate 0) ++ [FileCreate 0]) (Some fss) = Undef).
Proof.
  apply (bfs_create_overruns (R:=ram_repr) 9 0 7 5 6 0 0 _ (disk_of (null_disk (Z.to_nat 40000))) _ 40000 0).
  - apply (null_stack_ok (Z.to_nat 40000)); [lia|done..].
  - vm_compute. congruence.
  - apply (bool_decide_unpack _). vm_compute. exact I.
  - done.
  - vm_compute. split; congruence.
Defined.

(** File 1, of user 7, of a server whose block server has died. *)
Definition wit_dead : file_server_state (option ramdisk_state) :=
  FileServer None 5 0 0 (zero_fcb :: Fcb true 9 1 7 P_FILE_DEFAULT 3 0 :: replicate 126 zero_fcb) 128 [].

Lemma bfs_error_then_success_witness :
  let replies := [(4, status_reply true 0); (4, status_reply false 0)] in
  wp (blkfile_do_delete (FileRequest FILE_DELETE 1 0 0 0 0) 4 7) wit_dead (fun _ t' =>
    fss_sent t' = replies ++ [] /\ exists c', fss_fcb_cache t' !! 1%nat = Some c' /\ st_alloc c' = false) /\
  wp (blkfile_do_setsize 0 (FileRequest FILE_SETSIZE 1 2 0 0 0) 4 7) wit_dead (fun _ t' =>
    fss_sent t' = replies ++ [] /\ exists c', fss_fcb_cache t' !! 1%nat = Some c' /\ st_size c' = 2).
Proof.
  apply (bfs_error_then_success 0 4 7 1 2 wit_dead (Fcb true 9 1 7 P_FILE_DEFAULT 3 0));
    [done|cbn; lia|done|done|done|done|done|done|cbn; lia].
Defined.
