(* ===== verification/Dir.v ===== *)
(** src/src/apps/dirsvr.c, the directory server, with h/egos/dir.h and the client's
    stubs of lib/dir.c. A directory is a file of entries of 32 bytes at a file
    server; the directory server keeps nothing itself. *)
From stdpp Require Import base numbers list.
From Stdlib Require Import ZArith Lia.
From S2P Require Import Prelude BlockStore BlockProt FileProt.

(** * Formats *)

(** [fid_t]. *)
Record fid := Fid { fid_server : Z; fid_file_no : Z }.

Definition DIR_ENTRY_SIZE : nat := 32.
Definition DIR_NAME_SIZE : nat := 24.
Definition MAX_PATH_NAME : nat := Z.to_nat 1024.

Record dir_entry := DirEntry { de_fid : fid; de_name : message }.

Definition fid_fields (f : fid) : list (nat * Z) := [(4%nat, fid_server f); (4%nat, fid_file_no f)].

Definition de_bytes (de : dir_entry) : message := fields (fid_fields (de_fid de)) ++ de_name de.

Definition de_of (m : message) : dir_entry :=
  DirEntry (Fid (get_field 4 0 m) (get_field 4 4 m)) (take DIR_NAME_SIZE (drop 8 m)).

(** The type of a request. *)
Definition DIR_LOOKUP : Z := 1.
Definition DIR_INSERT : Z := 2.
Definition DIR_REMOVE : Z := 3.

Record dir_request := DirRequest {
  dr_type : Z;
  dr_dir : fid;
  dr_fid : fid;
  dr_size : Z;
}.
Definition sizeof_dir_request : nat := 24.

Definition dir_request_fields (r : dir_request) : list (nat * Z) :=
  (4%nat, dr_type r) :: fid_fields (dr_dir r) ++ fid_fields (dr_fid r) ++ [(4%nat, dr_size r)].

Definition dir_request_bytes (r : dir_request) : message := fields (dir_request_fields r).

Definition dir_request_of (m : message) : dir_request :=
  DirRequest (get_field 4 0 m) (Fid (get_field 4 4 m) (get_field 4 8 m)) (Fid (get_field 4 12 m) (get_field 4 16 m)) (get_field 4 20 m).

Definition DIR_OK : Z := 0.
Definition DIR_ERROR : Z := 1.

Record dir_reply := DirReply { dp_status : Z; dp_fid : fid }.
Definition sizeof_dir_reply : nat := 12.

Definition dir_reply_bytes (r : dir_reply) : message := fields ((4%nat, dp_status r) :: fid_fields (dp_fid r)).
Definition dir_reply_of (m : message) : dir_reply := DirReply (get_field 4 0 m) (Fid (get_field 4 4 m) (get_field 4 8 m)).

(** * Names: the string functions of the C library, on buffers *)

Fixpoint name_strnlen (n : nat) (l : message) : nat :=
  match n, l with
  | Datatypes.S n, x :: l => if decide (x = Init.Byte.x00) then 0%nat else Datatypes.S (name_strnlen n l)
  | _, _ => 0%nat
  end.

(** Whether [strncmp] of two buffers of at least [n] bytes is 0. *)
Fixpoint name_strncmp (n : nat) (l1 l2 : message) : bool :=
  match n, l1, l2 with
  | Datatypes.S n, x :: l1, y :: l2 =>
      if decide (x = Init.Byte.x00 /\ y = Init.Byte.x00) then true
      else if decide (x <> y) then false
      else name_strncmp n l1 l2
  | _, _, _ => true
  end.

(** [strncpy] of [n] bytes to the start of a buffer of zeros of [size] bytes. *)
Definition name_strncpy (size n : nat) (l : message) : message :=
  let k := name_strnlen n l in take k l ++ replicate (size - k) Init.Byte.x00.

Definition name_cmp (de : dir_entry) (s : message) (size : nat) : bool :=
  if decide (name_strnlen DIR_NAME_SIZE (de_name de) <> size) then false else name_strncmp size (de_name de) s.

(** * The directory server *)

Record dir_server_state (T : Type) := DirServer {
  dss_kernel : T;
  dss_sent : list (Z * message);   (* newest first *)
}.
Arguments DirServer {T}.
Arguments dss_kernel {T}.
Arguments dss_sent {T}.

Section dirsvr.
Context {T : Type} `{!Rpc T}.
Abbreviation st := (dir_server_state T).

(** A call to a file server. *)
Definition ds_call {A} (m : M T A) : M st A := lift dss_kernel (fun t dss => DirServer t (dss_sent dss)) m.

Definition dir_respond (src status : Z) (f : fid) : M st unit :=
  modify (fun dss => DirServer (dss_kernel dss) ((src, dir_reply_bytes (DirReply status f)) :: dss_sent dss)).

Definition no_fid : fid := Fid 0 0.

(** The test that the three handlers begin with; the masks are those of the
    permission that is asked for. *)
Definition dir_allowed (owner other : Z) (dir : fid) (uid : Z) : M st bool :=
  if decide (uid = 0) then mret true else
  x ← ds_call (file_stat (fid_server dir) (fid_file_no dir) zero_fcb);
  let '(status, stat) := x in
  if decide ((status : bool) = false) then mret false else
  if decide (st_uid stat = uid) then mret (bool_decide (Z.land (st_mode stat) owner <> 0))
  else mret (bool_decide (Z.land (st_mode stat) other <> 0)).

(** The loop over the [n] entries of a page: the first that satisfies [p], and the
    offset at which the loop ends. *)
Fixpoint find_entry (p : dir_entry -> bool) (n : nat) (buf : message) (offset : Z) : option dir_entry * Z :=
  match n with
  | O => (None, offset)
  | Datatypes.S n =>
      let de := de_of buf in
      if p de then (Some de, offset) else find_entry p n (drop DIR_ENTRY_SIZE buf) (u64 (offset + 32))
  end.

Fixpoint lookup_loop (fuel : nat) (dir : fid) (src : Z) (name : message) (size : nat) (buf : message) (offset : Z) : M st unit :=
  match fuel with
  | O => out_of_fuel
  | Datatypes.S fuel =>
      x ← ds_call (file_read (fid_server dir) (fid_file_no dir) offset buf (Z.of_nat PAGESIZE));
      let '(status, buf, n) := x in
      if decide ((status : bool) = false) then dir_respond src DIR_ERROR no_fid else
      if decide (n = 0) then dir_respond src DIR_ERROR no_fid else
      assert_ (bool_decide (n mod Z.of_nat DIR_ENTRY_SIZE = 0));;
      match find_entry (fun de => name_cmp de name size) (Z.to_nat (n / Z.of_nat DIR_ENTRY_SIZE)) buf offset with
      | (Some de, _) =>
          let f := de_fid de in
          dir_respond src DIR_OK (if decide (fid_server f = 0) then Fid (fid_server dir) (fid_file_no f) else f)
      | (None, offset) => lookup_loop fuel dir src name size buf offset
      end
  end.

Definition page_buffer : message := replicate PAGESIZE Init.Byte.x00.

Definition dir_do_lookup (fuel : nat) (req : dir_request) (src uid : Z) (name : message) (size : nat) : M st unit :=
  if decide (DIR_NAME_SIZE < size)%nat then dir_respond src DIR_ERROR no_fid else
  ok ← dir_allowed P_FILE_OWNER_READ P_FILE_OTHER_READ (dr_dir req) uid;
  if decide ((ok : bool) = false) then dir_respond src DIR_ERROR no_fid else
  lookup_loop fuel (dr_dir req) src name size page_buffer 0.

(** The loop over a page in [dir_do_insert]: the offset of the first free entry so
    far, and whether the name has been met. *)
Fixpoint insert_scan (name : message) (size n : nat) (buf : message) (offset : Z) (free : option Z) : bool * option Z * Z :=
  match n with
  | O => (false, free, offset)
  | Datatypes.S n =>
      let de := de_of buf in
      if decide (head (de_name de) = Some Init.Byte.x00) then
        insert_scan name size n (drop DIR_ENTRY_SIZE buf) (u64 (offset + 32))
          (match free with None => Some offset | Some _ => free end)
      else if name_cmp de name size then (true, free, offset)
      else insert_scan name size n (drop DIR_ENTRY_SIZE buf) (u64 (offset + 32)) free
  end.

Fixpoint insert_loop (fuel : nat) (req : dir_request) (src : Z) (name : message) (size : nat) (buf : message) (offset : Z)
    (free : option Z) : M st unit :=
  match fuel with
  | O => out_of_fuel
  | Datatypes.S fuel =>
      let dir := dr_dir req in
      x ← ds_call (file_read (fid_server dir) (fid_file_no dir) offset buf (Z.of_nat PAGESIZE));
      let '(status, buf, n) := x in
      if decide ((status : bool) = false) then dir_respond src DIR_ERROR no_fid else
      if decide (n = 0) then
        let offset := match free with Some o => o | None => offset end in
        let nde := DirEntry (dr_fid req) (name_strncpy DIR_NAME_SIZE size name) in
        wstatus ← ds_call (file_write (fid_server dir) (fid_file_no dir) offset (de_bytes nde) (Z.of_nat DIR_ENTRY_SIZE));
        dir_respond src (if (wstatus : bool) then DIR_OK else DIR_ERROR) (dr_fid req)
      else
      assert_ (bool_decide (n mod Z.of_nat DIR_ENTRY_SIZE = 0));;
      let '(exists_, free, offset) := insert_scan name size (Z.to_nat (n / Z.of_nat DIR_ENTRY_SIZE)) buf offset free in
      if (exists_ : bool) then dir_respond src DIR_ERROR no_fid
      else insert_loop fuel req src name size buf offset free
  end.

Definition dir_do_insert (fuel : nat) (req : dir_request) (src uid : Z) (name : message) (size : nat) : M st unit :=
  if decide (DIR_NAME_SIZE < size)%nat then dir_respond src DIR_ERROR no_fid else
  ok ← dir_allowed P_FILE_OWNER_WRITE P_FILE_OTHER_WRITE (dr_dir req) uid;
  if decide ((ok : bool) = false) then dir_respond src DIR_ERROR no_fid else
  insert_loop fuel req src name size page_buffer 0 None.

(** The entry to remove; the server of its file is not compared. *)
Definition remove_match (req : dir_request) (name : message) (size : nat) (de : dir_entry) : bool :=
  if decide (head (de_name de) = Some Init.Byte.x00) then false
  else if decide (fid_file_no (de_fid de) <> fid_file_no (dr_fid req)) then false
  else name_cmp de name size.

Definition zero_entry : dir_entry := DirEntry no_fid (replicate DIR_NAME_SIZE Init.Byte.x00).

Fixpoint remove_loop (fuel : nat) (req : dir_request) (src : Z) (name : message) (size : nat) (buf : message) (offset : Z) : M st unit :=
  match fuel with
  | O => out_of_fuel
  | Datatypes.S fuel =>
      let dir := dr_dir req in
      x ← ds_call (file_read (fid_server dir) (fid_file_no dir) offset buf (Z.of_nat PAGESIZE));
      let '(status, buf, n) := x in
      if decide ((status : bool) = false) then dir_respond src DIR_ERROR no_fid else
      if decide (n = 0) then dir_respond src DIR_OK (dr_fid req) else
      assert_ (bool_decide (n mod Z.of_nat DIR_ENTRY_SIZE = 0));;
      match find_entry (remove_match req name size) (Z.to_nat (n / Z.of_nat DIR_ENTRY_SIZE)) buf offset with
      | (Some _, offset) =>
          wstatus ← ds_call (file_write (fid_server dir) (fid_file_no dir) offset (de_bytes zero_entry) (Z.of_nat DIR_ENTRY_SIZE));
          dir_respond src (if (wstatus : bool) then DIR_OK else DIR_ERROR) (dr_fid req)
      | (None, offset) => remove_loop fuel req src name size buf offset
      end
  end.

Definition dir_do_remove (fuel : nat) (req : dir_request) (src uid : Z) (name : message) (size : nat) : M st unit :=
  if decide (DIR_NAME_SIZE < size)%nat then dir_respond src DIR_ERROR no_fid else
  ok ← dir_allowed P_FILE_OWNER_WRITE P_FILE_OTHER_WRITE (dr_dir req) uid;
  if decide ((ok : bool) = false) then dir_respond src DIR_ERROR no_fid else
  remove_loop fuel req src name size page_buffer 0.

(** One round of the loop of [dir_proc]. The size given to [sys_recv] is that of a
    pointer, 8, and of a name. *)
Definition dir_proc_round (fuel : nat) (msg : message) (src uid : Z) : M st unit :=
  let msg := take (8 + MAX_PATH_NAME) msg in
  assert_ (bool_decide (sizeof_dir_request <= length msg)%nat);;
  let req := dir_request_of msg in
  let name := drop sizeof_dir_request msg in
  let size := (length msg - sizeof_dir_request)%nat in
  if decide (dr_type req = DIR_LOOKUP) then dir_do_lookup fuel req src uid name size else
  if decide (dr_type req = DIR_INSERT) then dir_do_insert fuel req src uid name size else
  if decide (dr_type req = DIR_REMOVE) then dir_do_remove fuel req src uid name size else
  panic.
End dirsvr.

(** A call of user [uid] to the server. *)
Definition dir_rpc {T} `{!Rpc T} (fuel : nat) (uid : Z) (msg : message) (repsize : nat) : M (option T) (option message) := fun o =>
  match o with
  | None => Ret (None, None)
  | Some t =>
      match dir_proc_round fuel msg 1 uid (DirServer t []) with
      | Ret (_, dss) =>
          match last (dss_sent dss) with
          | Some (_, rep) => Ret (Some (take repsize rep), Some (dss_kernel dss))
          | None => OutOfFuel
          end
      | Exit => Ret (None, None)
      | Undef => Undef
      | OutOfFuel => OutOfFuel
      end
  end.

Definition dir_server {T} (rpc : Rpc T) (fuel : nat) (uid : Z) : Rpc (option T) := fun _ msg repsize => dir_rpc fuel uid msg repsize.

(** * The client's stubs *)

Section dir_client.
Context {T : Type} `{!Rpc T}.

(** The part that the stubs share; [name] is a string without its terminator. *)
Definition dir_call (svr type : Z) (dir f : fid) (name : message) : M T (option dir_reply) :=
  r ← sys_rpc svr (dir_request_bytes (DirRequest type dir f (Z.of_nat (length name))) ++ name) sizeof_dir_reply;
  match r with
  | None => mret None
  | Some m =>
      if decide (length m <> sizeof_dir_reply) then mret None else
      if decide (dp_status (dir_reply_of m) <> DIR_OK) then mret None else mret (Some (dir_reply_of m))
  end.

Definition dir_lookup (svr : Z) (dir : fid) (name : message) (pfid : fid) : M T (bool * fid) :=
  r ← dir_call svr DIR_LOOKUP dir no_fid name;
  mret (match r with None => (false, pfid) | Some reply => (true, dp_fid reply) end).

Definition dir_insert (svr : Z) (dir : fid) (name : message) (f : fid) : M T bool :=
  r ← dir_call svr DIR_INSERT dir f name; mret (match r with None => false | Some _ => true end).

Definition dir_remove (svr : Z) (dir : fid) (name : message) (f : fid) : M T bool :=
  r ← dir_call svr DIR_REMOVE dir f name; mret (match r with None => false | Some _ => true end).

(** "..dir" and "...dir". *)
Definition dot_name : message := [Init.Byte.x2e; Init.Byte.x2e; Init.Byte.x64; Init.Byte.x69; Init.Byte.x72].
Definition dotdot_name : message := Init.Byte.x2e :: dot_name.

(** The entries of a new directory: what follows the names is what the stack
    held, [junk]. *)
Definition dir_create2 (junk : nat -> message) (dirsvr filesvr mode : Z) (dir : fid) (name : message) (pfid : fid)
    : M T (bool * fid) :=
  x ← file_create filesvr mode 0;
  if decide (x.1 = false) then mret (false, pfid) else
  let f := Fid filesvr x.2 in
  let entry g n := de_bytes (DirEntry g (n ++ [Init.Byte.x00] ++ junk (DIR_NAME_SIZE - length n - 1)%nat)) in
  let de := entry f dot_name ++ entry dir dotdot_name in
  w ← file_write (fid_server f) (fid_file_no f) 0 de (Z.of_nat (2 * DIR_ENTRY_SIZE));
  assert_ w;;
  r ← dir_insert dirsvr dir name f;
  mret (if (r : bool) then (true, f) else (false, pfid)).

(** The directory is stored at the file server of its parent. *)
Definition dir_create (junk : nat -> message) (svr : Z) (dir : fid) (name : message) (pfid : fid) : M T (bool * fid) :=
  dir_create2 junk svr (fid_server dir) P_FILE_DEFAULT dir name pfid.
End dir_client.
