(* ===== verification/DirSpec.v ===== *)
(** The directory server of dirsvr.c over any [FileService]: a directory is a
    finite map from names to files. *)
From stdpp Require Import base numbers list gmap.
From Stdlib Require Import ZArith Lia.
From S2P Require Import Prelude BlockStore BlockProt FileProt FileSpec Dir.

(** * Entries and their bytes *)

Record de_wf (de : dir_entry) : Prop := {
  dw_server : is_u32 (fid_server (de_fid de));
  dw_file_no : is_u32 (fid_file_no (de_fid de));
  dw_name : length (de_name de) = DIR_NAME_SIZE;
}.

Definition fid_wf (f : fid) : Prop := is_u32 (fid_server f) /\ is_u32 (fid_file_no f).

Lemma length_de_bytes de : de_wf de -> length (de_bytes de) = DIR_ENTRY_SIZE.
Proof. intros [_ _ H]. unfold de_bytes. by rewrite length_app, length_fields, H. Qed.

Lemma de_of_bytes de rest : de_wf de -> de_of (de_bytes de ++ rest) = de.
Proof.
  intros [H1 H2 H3]. destruct de as [[s n] name]. unfold de_of, de_bytes. cbn [de_fid de_name fid_server fid_file_no] in *.
  rewrite <- app_assoc. f_equal; [f_equal|].
  - by apply (get_field_fields []).
  - by apply (get_field_fields [_]).
  - rewrite drop_app_length' by (by rewrite length_fields). rewrite <- H3. by rewrite take_app_length.
Qed.

Lemma dir_request_of_bytes r rest : is_u32 (dr_type r) -> fid_wf (dr_dir r) -> fid_wf (dr_fid r) -> is_u32 (dr_size r) ->
  dir_request_of (dir_request_bytes r ++ rest) = r.
Proof.
  intros H1 [H2 H3] [H4 H5] H6. destruct r as [t [ds dn] [s n] sz]. unfold dir_request_of, dir_request_bytes, dir_request_fields.
  cbn [dr_type dr_dir dr_fid dr_size fid_server fid_file_no fid_fields app] in *. f_equal.
  - by apply (get_field_fields []).
  - f_equal; [by apply (get_field_fields [_])|by apply (get_field_fields [_; _])].
  - f_equal; [by apply (get_field_fields [_; _; _])|by apply (get_field_fields [_; _; _; _])].
  - by apply (get_field_fields [_; _; _; _; _]).
Qed.

Lemma length_dir_request r : length (dir_request_bytes r) = sizeof_dir_request.
Proof. apply length_fields. Qed.

Lemma dir_reply_of_bytes r : is_u32 (dp_status r) -> fid_wf (dp_fid r) -> dir_reply_of (dir_reply_bytes r) = r.
Proof.
  intros H1 [H2 H3]. destruct r as [t [s n]]. unfold dir_reply_of. rewrite <- (app_nil_r (dir_reply_bytes _)).
  unfold dir_reply_bytes. cbn [dp_status dp_fid fid_server fid_file_no fid_fields app] in *. f_equal.
  - by apply (get_field_fields []).
  - f_equal; [by apply (get_field_fields [_])|by apply (get_field_fields [_; _])].
Qed.

Lemma length_dir_reply r : length (dir_reply_bytes r) = sizeof_dir_reply.
Proof. apply length_fields. Qed.

(** * Names *)

(** The name of an entry; the empty one marks an entry that is free. *)
Definition name_of (de : dir_entry) : message := take (name_strnlen DIR_NAME_SIZE (de_name de)) (de_name de).

(** Names as the clients pass them: strings. *)
Definition good_name (name : message) : Prop :=
  (1 <= length name <= DIR_NAME_SIZE)%nat /\ Forall (fun x => x <> Init.Byte.x00) name.

Lemma strnlen_le n l : (name_strnlen n l <= n /\ name_strnlen n l <= length l)%nat.
Proof. revert l. induction n as [|n IH]; intros [|x l]; simpl; try lia. destruct (decide _); [lia|]. specialize (IH l). lia. Qed.

Lemma strnlen_clean n l : Forall (fun x => x <> Init.Byte.x00) l -> (length l <= n)%nat -> name_strnlen n l = length l.
Proof.
  revert n. induction l as [|x l IH]; intros [|n] H Hn; simpl in *; try done; [lia|].
  inversion_clear H. rewrite decide_False by done. rewrite IH by (done || lia). done.
Qed.

Lemma strnlen_padded n l k : Forall (fun x => x <> Init.Byte.x00) l -> (length l <= n)%nat ->
  name_strnlen n (l ++ replicate k Init.Byte.x00) = length l.
Proof.
  revert n. induction l as [|x l IH]; intros [|n] H Hn; simpl in *; try done; try lia.
  - by destruct k.
  - inversion_clear H. rewrite decide_False by done. rewrite IH by (done || lia). done.
Qed.

Lemma strncmp_spec n : forall l1 l2, (n <= length l1)%nat -> (n <= length l2)%nat -> name_strnlen n l1 = n ->
  name_strncmp n l1 l2 = bool_decide (take n l1 = take n l2).
Proof.
  induction n as [|n IH]; intros [|x l1] [|y l2] H1 H2 Hl; cbn [length] in *; try lia; try (by rewrite bool_decide_eq_true_2).
  cbn [name_strncmp name_strnlen firstn] in *.
  destruct (decide (x = Init.Byte.x00)) as [|Hx]; [lia|]. rewrite decide_False by tauto.
  destruct (decide (x <> y)) as [Hne|He].
  - rewrite bool_decide_eq_false_2; [done|congruence].
  - apply dec_stable in He as ->. rewrite IH by lia. apply bool_decide_ext. split; congruence.
Qed.

Lemma strnlen_shorter n m l : (m <= n)%nat -> (m <= name_strnlen n l)%nat -> name_strnlen m l = m.
Proof.
  revert n l. induction m as [|m IH]; intros [|n] [|x l] H1 H2; simpl in *; try lia.
  destruct (decide _); [lia|]. f_equal. apply (IH n); lia.
Qed.

Lemma name_cmp_spec de name : de_wf de -> name_cmp de name (length name) = bool_decide (name_of de = name).
Proof.
  intros [_ _ Hl]. unfold name_cmp, name_of. pose proof (strnlen_le DIR_NAME_SIZE (de_name de)) as Hle.
  destruct (decide _) as [Hne|He].
  - rewrite bool_decide_eq_false_2; [done|]. intros E. apply Hne. apply (f_equal length) in E. rewrite length_take in E. lia.
  - apply dec_stable in He. rewrite He in *. rewrite strncmp_spec.
    + by rewrite (take_ge name) by lia.
    + lia.
    + lia.
    + eapply strnlen_shorter; [apply (proj1 Hle)|lia].
Qed.

Lemma free_spec de : de_wf de -> (head (de_name de) = Some Init.Byte.x00 <-> name_of de = []).
Proof.
  intros [_ _ Hl]. unfold name_of. destruct (de_name de) as [|x l]; [done|]. simpl. destruct (decide (x = Init.Byte.x00)); simpl.
  - split; [done|congruence].
  - split; [congruence|done].
Qed.

(** The entry that insert writes. *)
Lemma new_entry f name : fid_wf f -> good_name name ->
  let nde := DirEntry f (name_strncpy DIR_NAME_SIZE (length name) name) in de_wf nde /\ name_of nde = name.
Proof.
  intros [H1 H2] [Hl Hn] nde. unfold nde, name_strncpy, name_of. cbn [de_name]. cbv zeta. rewrite (strnlen_clean _ name) by (done || lia).
  rewrite (take_ge name) by lia. split.
  - split; cbn [de_fid de_name]; [done|done|]. rewrite length_app, length_replicate. lia.
  - rewrite strnlen_padded by (done || lia). by rewrite take_app_length.
Qed.

Lemma zero_entry_wf : de_wf zero_entry.
Proof. by split. Qed.

Lemma zero_entry_free : name_of zero_entry = [].
Proof. done. Qed.

(** * Lists of entries *)

Definition dir_bytes (l : list dir_entry) : message := concat (de_bytes <$> l).

Lemma dir_bytes_app l1 l2 : dir_bytes (l1 ++ l2) = dir_bytes l1 ++ dir_bytes l2.
Proof. unfold dir_bytes. by rewrite fmap_app, concat_app. Qed.

Lemma length_dir_bytes l : Forall de_wf l -> length (dir_bytes l) = (32 * length l)%nat.
Proof.
  induction 1 as [|de l H _ IH]; [done|]. change (dir_bytes (de :: l)) with (de_bytes de ++ dir_bytes l).
  rewrite length_app, length_de_bytes, IH by done. unfold DIR_ENTRY_SIZE. simpl. lia.
Qed.

Lemma take_dir_bytes n l : Forall de_wf l -> take (32 * n) (dir_bytes l) = dir_bytes (take n l).
Proof.
  intros H. rewrite <- (take_drop n l) at 1. rewrite dir_bytes_app.
  destruct (decide (n <= length l)%nat).
  - rewrite take_app_length'; [done|]. rewrite length_dir_bytes by (by apply Forall_take). rewrite length_take. lia.
  - rewrite (drop_ge l), app_nil_r by lia. apply take_ge. rewrite length_dir_bytes by (by apply Forall_take). rewrite length_take. lia.
Qed.

Lemma drop_dir_bytes n l : Forall de_wf l -> drop (32 * n) (dir_bytes l) = dir_bytes (drop n l).
Proof.
  intros H. rewrite <- (take_drop n l) at 1. rewrite dir_bytes_app.
  destruct (decide (n <= length l)%nat).
  - rewrite drop_app_length'; [done|]. rewrite length_dir_bytes by (by apply Forall_take). rewrite length_take. lia.
  - rewrite (drop_ge l), app_nil_r by lia. apply drop_ge. rewrite length_dir_bytes by (by apply Forall_take). rewrite length_take. lia.
Qed.

(** Writing an entry in place of another, or at the end. *)
Lemma splice_dir_bytes k de l : Forall de_wf l -> de_wf de -> (k <= length l)%nat ->
  splice (32 * k) (de_bytes de) (dir_bytes l) = dir_bytes (splice k [de] l).
Proof.
  intros H Hde Hk. unfold splice. rewrite !dir_bytes_app, <- take_dir_bytes, length_de_bytes by done.
  replace (32 * k + DIR_ENTRY_SIZE)%nat with (32 * (k + 1))%nat by (unfold DIR_ENTRY_SIZE; lia).
  rewrite drop_dir_bytes by done. cbn [length].
  assert (dir_bytes [de] = de_bytes de) as -> by (unfold dir_bytes; cbn [fmap list_fmap concat]; apply app_nil_r). done.
Qed.

(** The first entry that satisfies [p], with its position. *)
Fixpoint findi (p : dir_entry -> bool) (l : list dir_entry) : option (nat * dir_entry) :=
  match l with
  | [] => None
  | de :: l => if p de then Some (0%nat, de) else (fun x => (Datatypes.S x.1, x.2)) <$> findi p l
  end.

Lemma findi_app p l1 l2 : findi p (l1 ++ l2) =
  match findi p l1 with Some x => Some x | None => (fun x => (length l1 + x.1, x.2)%nat) <$> findi p l2 end.
Proof.
  induction l1 as [|de l1 IH]; cbn [findi app length]; [by destruct (findi p l2) as [[]|]|].
  destruct (p de); [done|]. rewrite IH. destruct (findi p l1); [done|]. by destruct (findi p l2).
Qed.

Lemma findi_Some p l k de : findi p l = Some (k, de) -> l !! k = Some de /\ p de = true.
Proof.
  revert k. induction l as [|x l IH]; intros k; cbn [findi]; [done|]. destruct (p x) eqn:E.
  - intros [= <- <-]. done.
  - destruct (findi p l) as [[j y]|]; cbn; [|done]. intros [= <- <-]. by apply IH.
Qed.

Lemma findi_None p l : findi p l = None <-> Forall (fun de => p de = false) l.
Proof.
  induction l as [|x l IH]; cbn [findi]; [done|]. rewrite Forall_cons. destruct (p x) eqn:E; [split; [done|by intros [? _]]|].
  rewrite <- IH. destruct (findi p l); cbn; [|by split]. split; [done|]. intros [_ H]. done.
Qed.

Lemma findi_ext p q l : (forall de, de ∈ l -> p de = q de) -> findi p l = findi q l.
Proof.
  induction l as [|x l IH]; intros H; cbn [findi]; [done|]. rewrite (H x) by (by left). rewrite IH; [done|].
  intros de Hde. apply H. by right.
Qed.

(** The loop over a page. *)
Lemma find_entry_ok p l rest : forall offset, Forall de_wf l -> 0 <= offset -> offset + 32 * Z.of_nat (length l) < two64 ->
  find_entry p (length l) (dir_bytes l ++ rest) offset =
    match findi p l with
    | Some (k, de) => (Some de, offset + 32 * Z.of_nat k)
    | None => (None, offset + 32 * Z.of_nat (length l))
    end.
Proof.
  induction l as [|de l IH]; intros offset H Ho Hb; cbn [findi length find_entry]; [f_equal; lia|].
  apply Forall_cons in H as [Hde H]. change (dir_bytes (de :: l)) with (de_bytes de ++ dir_bytes l). rewrite <- app_assoc.
  rewrite de_of_bytes by done. destruct (p de); [f_equal; lia|].
  rewrite drop_app_length' by (by rewrite length_de_bytes). rewrite u64_small by (cbn [length] in Hb; lia).
  rewrite IH by (done || cbn [length] in Hb; lia). destruct (findi p l) as [[k x]|]; cbn [fmap option_fmap option_map fst snd]; f_equal; lia.
Qed.

Definition is_free (de : dir_entry) : bool := bool_decide (name_of de = []).
Definition has_name (name : message) (de : dir_entry) : bool := bool_decide (name_of de = name).

Lemma insert_scan_ok name l rest : forall offset free, Forall de_wf l -> good_name name ->
  0 <= offset -> offset + 32 * Z.of_nat (length l) < two64 ->
  let r := insert_scan name (length name) (length l) (dir_bytes l ++ rest) offset free in
  match findi (has_name name) l with
  | Some _ => r.1.1 = true
  | None => r = (false, match free with Some o => Some o | None => (fun x => offset + 32 * Z.of_nat x.1) <$> findi is_free l end,
                 offset + 32 * Z.of_nat (length l))
  end.
Proof.
  induction l as [|de l IH]; intros offset free H Hn Ho Hb; cbn [findi length insert_scan].
  { cbv zeta. replace (offset + 32 * Z.of_nat 0) with offset by lia. by destruct free. }
  apply Forall_cons in H as [Hde H]. change (dir_bytes (de :: l)) with (de_bytes de ++ dir_bytes l). rewrite <- app_assoc.
  rewrite de_of_bytes by done. rewrite drop_app_length' by (by rewrite length_de_bytes).
  rewrite u64_small by (cbn [length] in Hb; lia). cbn [length] in Hb. unfold has_name at 1, is_free at 1.
  rewrite name_cmp_spec by done. cbv zeta. destruct (decide (head (de_name de) = Some Init.Byte.x00)) as [Hf|Hf].
  - apply free_spec in Hf; [|done]. rewrite Hf. rewrite bool_decide_eq_false_2 by (intros <-; destruct Hn as [[? _] _]; simpl in *; lia).
    rewrite bool_decide_eq_true_2 by done.
    specialize (IH (offset + 32) (match free with None => Some offset | Some _ => free end) H Hn ltac:(lia) ltac:(lia)). cbv zeta in IH.
    destruct (findi (has_name name) l) as [[k x]|]; cbn [fmap option_fmap option_map fst snd]; [done|]. rewrite IH.
    replace (offset + 32 * Z.of_nat (Datatypes.S (length l))) with (offset + 32 + 32 * Z.of_nat (length l)) by lia.
    destruct free; [done|]. by replace (offset + 32 * Z.of_nat 0) with offset by lia.
  - rewrite (bool_decide_eq_false_2 (name_of de = [])) by (by rewrite <- free_spec).
    case_bool_decide as E; cbn [fst snd]; [done|].
    specialize (IH (offset + 32) free H Hn ltac:(lia) ltac:(lia)). cbv zeta in IH.
    destruct (findi (has_name name) l) as [[k x]|]; cbn [fmap option_fmap option_map fst snd]; [done|]. rewrite IH.
    replace (offset + 32 * Z.of_nat (Datatypes.S (length l))) with (offset + 32 + 32 * Z.of_nat (length l)) by lia.
    destruct free; [done|]. destruct (findi is_free l) as [[k x]|]; cbn [fmap option_fmap option_map fst snd]; [|done].
    by replace (offset + 32 * Z.of_nat (Datatypes.S k)) with (offset + 32 + 32 * Z.of_nat k) by lia.
Qed.

(** * Calls to the file server, as root *)

Section calls.
Context {T : Type} {rpc : Rpc T} (fsvr : Z) `{!FileService rpc fsvr 0}.

(** What a read returns does not depend on what its buffer held. *)
Lemma file_read_buffer (Q : T -> Prop) i off len t r :
  wp (exec_file_op fsvr (FileRead i off len)) t (fun r' t' => r' = r /\ Q t') ->
  forall buf, wp (file_read fsvr i off buf len) t (fun x t' => Q t' /\
    match r with
    | RRead true d => x = (true, d ++ drop (length d) buf, Z.of_nat (length d))
    | _ => x.1.1 = false
    end).
Proof.
  intros H buf. cbn [exec_file_op] in H. apply wp_bind_inv in H. unfold file_read in *. apply wp_bind_inv in H. step.
  eapply wp_mono; [exact H|]. intros m t' Hm. destruct m as [m|]; cbv beta zeta in Hm |- *.
  2:{ cbv in Hm. destruct Hm as [<- HQ]. by split. }
  destruct (decide (length m < sizeof_file_reply)%nat); [destruct Hm as [<- HQ]; by split|].
  destruct (decide (rep_status (reply_of m) <> FILE_OK)); [destruct Hm as [<- HQ]; by split|].
  destruct Hm as [<- HQ]. split; [done|]. cbn [fst snd].
  rewrite Nat2Z.id. by rewrite take_app_length.
Qed.

(** File [i] is the file [s] that holds the entries [ents]. *)
Record dir_file (fs : list sfile) (i : Z) (s : sfile) (ents : list dir_entry) : Prop := {
  df_file : fs !! Z.to_nat i = Some s;
  df_no : 1 <= i < Z.of_nat (length fs);
  df_alloc : sf_alloc s = true;
  df_data : sf_data s = dir_bytes ents;
  df_wf : Forall de_wf ents;
  df_max : 32 * Z.of_nat (length ents) <= max_file_size;
}.

Lemma root_allowed s : sf_alloc s = true -> may_read 0 s = true /\ may_write 0 s = true.
Proof. intros E. unfold may_read, may_write. by rewrite E. Qed.

(** A page of a directory, from entry [k] on. *)
Lemma read_page_ok t fs N i s ents k buf : fsv_rep t fs N -> dir_file fs i s ents -> (k <= length ents)%nat -> (fsv_cost <= N)%nat ->
  wp (file_read fsvr i (32 * Z.of_nat k) buf (Z.of_nat PAGESIZE)) t (fun x t' => fsv_rep t' fs (N - fsv_cost) /\
    let l := take 512 (drop k ents) in exists rest, x = (true, dir_bytes l ++ rest, 32 * Z.of_nat (length l))).
Proof.
  intros Hr [Hf Hi Ha Hd Hw Hm] Hk HN. assert (PAGESIZE = 32 * 512)%nat as EP by done.
  assert (max_file_size = 2 ^ 30) as EM by done.
  pose proof (fsv_op t fs N (FileRead i (32 * Z.of_nat k) (Z.of_nat PAGESIZE)) Hr) as H. cbn [valid_file_op spec_file_op] in H.
  specialize (H ltac:(rewrite EP; unfold two64; lia) HN). rewrite Hf in H. rewrite (proj1 (root_allowed s Ha)) in H. cbn [fst snd] in H.
  eapply wp_mono; [exact (file_read_buffer _ _ _ _ _ _ H buf)|]. intros x t' [Hr' ->]. split; [done|]. cbv zeta.
  rewrite Hd. replace (Z.to_nat (32 * Z.of_nat k)) with (32 * k)%nat by lia. rewrite Nat2Z.id, EP.
  rewrite drop_dir_bytes, take_dir_bytes by (done || by apply Forall_drop). eexists. f_equal.
  rewrite length_dir_bytes by (by apply Forall_take, Forall_drop). lia.
Qed.

Lemma write_entry_ok t fs N i s ents k de : fsv_rep t fs N -> dir_file fs i s ents -> (k <= length ents)%nat -> (fsv_cost <= N)%nat ->
  de_wf de -> fsv_good i -> 32 * Z.of_nat (length ents + 1) <= max_file_size ->
  let s' := SFile true (sf_uid s) (sf_mode s) (dir_bytes (splice k [de] ents)) in
  wp (file_write fsvr i (32 * Z.of_nat k) (de_bytes de) (Z.of_nat DIR_ENTRY_SIZE)) t (fun r t' => r = true /\
    fsv_rep t' (<[Z.to_nat i:=s']> fs) (N - fsv_cost) /\ dir_file (<[Z.to_nat i:=s']> fs) i s' (splice k [de] ents)).
Proof.
  intros Hr [Hf Hi Ha Hd Hw Hm] Hk HN Hde Hg Hm' s'. assert (PAGESIZE = 32 * 512)%nat as EP by done.
  pose proof (length_de_bytes de Hde) as El. unfold DIR_ENTRY_SIZE in El.
  pose proof (fsv_op t fs N (FileWrite i (32 * Z.of_nat k) (de_bytes de)) Hr) as H. cbn [valid_file_op spec_file_op exec_file_op] in H.
  rewrite Hf in H. cbn [fmap option_fmap option_map default from_option id] in H. rewrite Hd, length_dir_bytes in H by done.
  rewrite El in H. specialize (H ltac:(split_and!; (done || lia)) HN). rewrite (proj2 (root_allowed s Ha)) in H. cbn [fst snd] in H.
  replace (Z.to_nat (32 * Z.of_nat k)) with (32 * k)%nat in H by lia. rewrite splice_dir_bytes in H by done. fold s' in H.
  apply wp_bind_inv in H. eapply wp_mono; [exact H|]. intros r t' H'. cbv in H'. fold s' in H'. destruct H' as [[= ->] H']. split; [done|]. split; [done|].
  split; [apply list_lookup_insert_eq; lia|by rewrite length_insert|done|done| |].
  - unfold splice. apply Forall_app. split; [by apply Forall_take|]. constructor; [done|by apply Forall_drop].
  - rewrite length_splice_ext by lia. cbn [length]. lia.
Qed.

Lemma stat_dir_ok t fs N i s ents : fsv_rep t fs N -> dir_file fs i s ents -> (fsv_cost <= N)%nat ->
  wp (file_stat fsvr i zero_fcb) t (fun x t' => fsv_rep t' fs (N - fsv_cost) /\
    x.1 = true /\ st_uid x.2 = sf_uid s /\ st_mode x.2 = sf_mode s).
Proof.
  intros Hr [Hf Hi Ha Hd Hw Hm] HN.
  pose proof (fsv_op t fs N (FileStat i) Hr Hi HN) as H. cbn [spec_file_op exec_file_op] in H. rewrite Hf in H.
  rewrite (proj1 (root_allowed s Ha)) in H. cbn [fst snd] in H. apply wp_bind_inv in H. eapply wp_mono; [exact H|].
  intros [ok f] t' H'. unfold wp in H'. cbn in H'. destruct H' as [E H']. split; [done|]. destruct ok; [|done]. by injection E.
Qed.

(** * The handlers *)

Abbreviation st := (dir_server_state T).
Abbreviation dirfid i := (Fid fsvr i).

(** The state in which a request ends: one reply, the files [fs], and resources for
    at least [N]. *)
Definition answered (src : Z) (rep : dir_reply) (fs : list sfile) (N : nat) (dss : st) : Prop :=
  dss_sent dss = [(src, dir_reply_bytes rep)] /\ exists N', (N <= N')%nat /\ fsv_rep (dss_kernel dss) fs N'.

Lemma wp_ds_call {A} (m : M T A) (t : T) sent Q :
  wp m t (fun a t' => Q a (DirServer t' sent)) -> wp (ds_call m) (DirServer t sent) Q.
Proof. intros H. unfold ds_call. step. exact H. Qed.

Lemma dir_respond_answered src status f t fs N N' : fsv_rep t fs N' -> (N <= N')%nat ->
  wp (dir_respond src status f) (DirServer t []) (fun _ dss => answered src (DirReply status f) fs N dss).
Proof. intros Hr HN. unfold dir_respond. step. split; [done|]. by exists N'. Qed.

(** The reads that it takes to see [m] entries and the end. *)
Definition reads (m : nat) : nat := Datatypes.S ((m + 511) / 512).

Lemma reads_step m : (0 < m)%nat -> reads m = Datatypes.S (reads (m - Nat.min 512 m)).
Proof.
  intros H. unfold reads. f_equal. pose proof (Nat.div_mod_eq (m + 511) 512). pose proof (Nat.mod_upper_bound (m + 511) 512).
  pose proof (Nat.div_mod_eq (m - Nat.min 512 m + 511) 512). pose proof (Nat.mod_upper_bound (m - Nat.min 512 m + 511) 512). nia.
Qed.

Lemma page_length {A} k (l : list A) : length (take 512 (drop k l)) = Nat.min 512 (length l - k).
Proof. by rewrite length_take, length_drop. Qed.

(** Seeing a page, then the rest. *)
Lemma findi_page p k l : findi p (drop k l) =
  match findi p (take 512 (drop k l)) with
  | Some x => Some x
  | None => (fun x => (Nat.min 512 (length l - k) + x.1, x.2)%nat) <$> findi p (drop (k + Nat.min 512 (length l - k)) l)
  end.
Proof.
  rewrite <- (take_drop 512 (drop k l)) at 1. rewrite findi_app, page_length, drop_drop.
  destruct (findi p (take _ _)); [done|]. f_equal. destruct (decide (512 <= length l - k)%nat); [by rewrite Nat.min_l by lia|].
  rewrite Nat.min_r by lia. rewrite !drop_ge by lia. done.
Qed.

Context (fs : list sfile) (i : Z) (s : sfile) (ents : list dir_entry) (Hdir : dir_file fs i s ents).

Lemma entry_bound : 32 * Z.of_nat (length ents) < two64 - 32.
Proof. pose proof (df_max _ _ _ _ Hdir). assert (max_file_size = 2 ^ 30) by done. unfold two64. lia. Qed.

(** What the loops of lookup and remove do when a page has no match. *)
Lemma find_page p k rest : Forall de_wf ents -> (k <= length ents)%nat ->
  let l := take 512 (drop k ents) in
  find_entry p (Z.to_nat (32 * Z.of_nat (length l) / Z.of_nat DIR_ENTRY_SIZE)) (dir_bytes l ++ rest) (32 * Z.of_nat k) =
    match findi p l with
    | Some (j, de) => (Some de, 32 * Z.of_nat (k + j))
    | None => (None, 32 * Z.of_nat (k + Nat.min 512 (length ents - k)))
    end.
Proof.
  intros Hw Hk l. pose proof entry_bound. assert (length l = Nat.min 512 (length ents - k)) as El by apply page_length.
  change (Z.of_nat DIR_ENTRY_SIZE) with 32. rewrite (Z.mul_comm 32 (Z.of_nat (length l))), Z.div_mul, Nat2Z.id by done.
  rewrite find_entry_ok; [|by apply Forall_take, Forall_drop|lia|lia].
  destruct (findi p l) as [[j de]|]; f_equal; lia.
Qed.

Lemma page_assert (n : nat) : bool_decide ((32 * Z.of_nat n) mod Z.of_nat DIR_ENTRY_SIZE = 0) = true.
Proof. change (Z.of_nat DIR_ENTRY_SIZE) with 32. rewrite Z.mul_comm, Z.mod_mul by done. done. Qed.

Definition lookup_reply (o : option (nat * dir_entry)) : dir_reply :=
  match o with
  | Some (_, de) => DirReply DIR_OK (if decide (fid_server (de_fid de) = 0) then Fid fsvr (fid_file_no (de_fid de)) else de_fid de)
  | None => DirReply DIR_ERROR no_fid
  end.

Lemma has_name_cmp name (l : list dir_entry) : Forall de_wf l ->
  findi (fun de => name_cmp de name (length name)) l = findi (has_name name) l.
Proof. intros H. apply findi_ext. intros de Hde. apply name_cmp_spec. by eapply Forall_forall. Qed.

Lemma lookup_loop_ok src name fuel : forall k buf t N,
  fsv_rep t fs N -> (k <= length ents)%nat -> (reads (length ents - k) <= fuel)%nat ->
  (reads (length ents - k) * fsv_cost <= N)%nat ->
  wp (lookup_loop fuel (dirfid i) src name (length name) buf (32 * Z.of_nat k)) (DirServer t [])
    (fun _ dss => answered src (lookup_reply (findi (has_name name) (drop k ents))) fs
                    (N - reads (length ents - k) * fsv_cost) dss).
Proof.
  pose proof (df_wf _ _ _ _ Hdir) as Hw.
  induction fuel as [|fuel IH]; intros k buf t N Hr Hk Hfuel HN; [unfold reads in Hfuel; lia|].
  cbn [lookup_loop]. step. apply wp_ds_call.
  eapply wp_mono; [eapply (read_page_ok t fs N i s ents k buf Hr Hdir Hk); unfold reads in HN; lia|].
  intros x t1 [Hr1 (rest & ->)]. rewrite decide_False by done. rewrite page_length.
  destruct (decide (32 * Z.of_nat (Nat.min 512 (length ents - k)) = 0)) as [H0|H0].
  { rewrite drop_ge by lia. eapply dir_respond_answered; [exact Hr1|unfold reads; lia]. }
  step. apply wp_assert; [apply page_assert|]. rewrite <- page_length. rewrite find_page by done.
  rewrite findi_page, <- has_name_cmp by (by apply Forall_take, Forall_drop).
  destruct (findi _ (take 512 (drop k ents))) as [[j de]|]; [eapply dir_respond_answered; [exact Hr1|unfold reads; lia]|].
  rewrite (reads_step (length ents - k)) in * by lia.
  replace (length ents - k - Nat.min 512 (length ents - k))%nat with (length ents - (k + Nat.min 512 (length ents - k)))%nat in * by lia.
  eapply wp_mono; [eapply (IH (k + Nat.min 512 (length ents - k))%nat); [exact Hr1|lia|lia|lia]|].
  intros u dss [Hs (N' & HN' & Hr')]. split; [|exists N'; split; [lia|done]].
  rewrite Hs. by destruct (findi (has_name name) (drop (k + _) ents)) as [[j de]|].
Qed.

(** The files after the entries of the directory have become [ents']. *)
Definition dir_update (ents' : list dir_entry) : list sfile :=
  <[Z.to_nat i:=SFile true (sf_uid s) (sf_mode s) (dir_bytes ents')]> fs.

(** An answer after a write of entry [k]. *)
Lemma write_answered src k de t N N' f : fsv_rep t fs N' -> (k <= length ents)%nat -> (N + fsv_cost <= N')%nat ->
  de_wf de -> fsv_good i -> 32 * Z.of_nat (length ents + 1) <= max_file_size ->
  wp (wstatus ← ds_call (file_write fsvr i (32 * Z.of_nat k) (de_bytes de) (Z.of_nat DIR_ENTRY_SIZE));
      dir_respond src (if (wstatus : bool) then DIR_OK else DIR_ERROR) f) (DirServer t [])
    (fun _ dss => answered src (DirReply DIR_OK f) (dir_update (splice k [de] ents)) N dss).
Proof.
  intros Hr Hk HN Hde Hg Hm. step. apply wp_ds_call.
  eapply wp_mono; [eapply (write_entry_ok t fs N' i s ents k de Hr Hdir Hk); (lia || done)|].
  intros r t1 [-> [Hr1 _]]. eapply dir_respond_answered; [exact Hr1|lia].
Qed.

Definition free_offset (free : option nat) : option Z := (fun j => 32 * Z.of_nat j) <$> free.

(** Where insert puts an entry: at the first that is free, or at the end. *)
Definition insert_at (free : option nat) (k : nat) : nat :=
  match free with
  | Some j => j
  | None => match findi is_free (drop k ents) with Some (j, _) => (k + j)%nat | None => length ents end
  end.

Definition insert_answer (src : Z) (name : message) (f : fid) (p : nat) (o : option (nat * dir_entry)) (N : nat) (dss : st) : Prop :=
  match o with
  | Some _ => answered src (DirReply DIR_ERROR no_fid) fs N dss
  | None => answered src (DirReply DIR_OK f) (dir_update (splice p [DirEntry f (name_strncpy DIR_NAME_SIZE (length name) name)] ents)) N dss
  end.

Lemma insert_loop_ok src name req fuel : good_name name -> fid_wf (dr_fid req) -> dr_dir req = dirfid i -> fsv_good i ->
  32 * Z.of_nat (length ents + 1) <= max_file_size ->
  forall k buf free t N,
  fsv_rep t fs N -> (k <= length ents)%nat -> (reads (length ents - k) <= fuel)%nat ->
  ((reads (length ents - k) + 1) * fsv_cost <= N)%nat -> (forall j, free = Some j -> (j <= length ents)%nat) ->
  wp (insert_loop fuel req src name (length name) buf (32 * Z.of_nat k) (free_offset free)) (DirServer t [])
    (fun _ dss => insert_answer src name (dr_fid req) (insert_at free k) (findi (has_name name) (drop k ents))
                    (N - (reads (length ents - k) + 1) * fsv_cost) dss).
Proof.
  intros Hname Hfid Ed Hg Hmax. pose proof (df_wf _ _ _ _ Hdir) as Hw. pose proof entry_bound as Hbound.
  induction fuel as [|fuel IH]; intros k buf free t N Hr Hk Hfuel HN Hfree; [unfold reads in Hfuel; lia|].
  cbn [insert_loop]. cbv zeta. rewrite Ed. cbn [fid_server fid_file_no]. step. apply wp_ds_call.
  eapply wp_mono; [eapply (read_page_ok t fs N i s ents k buf Hr Hdir Hk); unfold reads in HN; lia|].
  intros x t1 [Hr1 (rest & ->)]. rewrite decide_False by done. rewrite page_length.
  destruct (new_entry (dr_fid req) name Hfid Hname) as [Hde _].
  destruct (decide (32 * Z.of_nat (Nat.min 512 (length ents - k)) = 0)) as [H0|H0].
  { rewrite drop_ge by lia. cbn [findi insert_answer].
    assert (match free_offset free with Some o => o | None => 32 * Z.of_nat k end = 32 * Z.of_nat (insert_at free k)) as ->
      by (unfold insert_at, free_offset; destruct free; cbn; [done|]; rewrite drop_ge by lia; cbn; lia).
    eapply write_answered; [exact Hr1| |unfold reads in *; lia|exact Hde|exact Hg|exact Hmax].
    unfold insert_at. destruct free as [j|]; [by apply Hfree|]. by rewrite drop_ge by lia. }
  step. apply wp_assert; [apply page_assert|]. rewrite <- page_length.
  change (Z.of_nat DIR_ENTRY_SIZE) with 32. set (l := take 512 (drop k ents)).
  assert (length l = Nat.min 512 (length ents - k)) as El by apply page_length.
  rewrite (Z.mul_comm 32 (Z.of_nat (length l))), Z.div_mul, Nat2Z.id by done.
  pose proof (insert_scan_ok name l rest (32 * Z.of_nat k) (free_offset free) ltac:(by apply Forall_take, Forall_drop) Hname
    ltac:(lia) ltac:(lia)) as Hscan. cbv zeta in Hscan.
  rewrite findi_page. fold l. destruct (insert_scan _ _ _ _ _ _) as [[ex free'] off] eqn:Escan.
  destruct (findi (has_name name) l) as [y|] eqn:Ef; cbn [fst] in Hscan.
  { rewrite Hscan. cbn [insert_answer]. eapply dir_respond_answered; [exact Hr1|unfold reads; lia]. }
  injection Hscan as -> -> ->. set (k' := (k + Nat.min 512 (length ents - k))%nat).
  set (free' := match free with Some j => Some j | None => (fun x => (k + x.1)%nat) <$> findi is_free l end).
  assert (match free_offset free with
          | Some o => Some o
          | None => (fun x => 32 * Z.of_nat k + 32 * Z.of_nat x.1) <$> findi is_free l
          end = free_offset free') as ->.
  { unfold free', free_offset. destruct free; [done|]. destruct (findi is_free l) as [[j de]|]; cbn; [f_equal; lia|done]. }
  replace (32 * Z.of_nat k + 32 * Z.of_nat (length l)) with (32 * Z.of_nat k') by lia.
  rewrite (reads_step (length ents - k)) in * by lia.
  replace (length ents - k - Nat.min 512 (length ents - k))%nat with (length ents - k')%nat in * by lia.
  assert (insert_at free k = insert_at free' k') as Eat.
  { unfold insert_at, free'. destruct free; [done|]. rewrite findi_page. fold l k'.
    destruct (findi is_free l) as [[j de]|]; cbn [fmap option_fmap option_map fst snd]; [done|]. destruct (findi is_free (drop k' ents)) as [[j de]|]; cbn [fmap option_fmap option_map fst snd]; unfold k'; lia. }
  rewrite Eat. eapply wp_mono; [eapply (IH k' _ free'); [exact Hr1|lia|lia|lia|]|].
  { intros j Ej. unfold free' in Ej. destruct free as [j'|]; [by apply Hfree|].
    destruct (findi is_free l) as [[j' de]|] eqn:Efr; [|done]. injection Ej as <-. apply findi_Some in Efr as [Efr _].
    apply lookup_lt_Some in Efr. cbn. lia. }
  intros u dss Hans. destruct (findi (has_name name) (drop k' ents)); cbn [fmap option_fmap option_map insert_answer] in *;
    destruct Hans as [Hs (N' & HN' & Hr')]; (split; [done|exists N'; split; [lia|done]]).
Qed.

Definition remove_answer (src : Z) (f : fid) (o : option (nat * dir_entry)) (N : nat) (dss : st) : Prop :=
  answered src (DirReply DIR_OK f) (match o with Some (k, _) => dir_update (splice k [zero_entry] ents) | None => fs end) N dss.

(** The entry that a request removes. *)
Definition to_remove (name : message) (f : fid) (de : dir_entry) : bool :=
  has_name name de && bool_decide (fid_file_no (de_fid de) = fid_file_no f).

Lemma remove_match_spec req name de : de_wf de -> good_name name ->
  remove_match req name (length name) de = to_remove name (dr_fid req) de.
Proof.
  intros Hde Hn. unfold remove_match, to_remove, has_name. rewrite name_cmp_spec by done.
  destruct (decide (head (de_name de) = Some Init.Byte.x00)) as [Hf|Hf].
  { apply free_spec in Hf; [|done]. rewrite Hf. rewrite bool_decide_eq_false_2; [done|].
    intros <-. destruct Hn as [[? _] _]; simpl in *; lia. }
  destruct (decide _) as [Hne|He]; [by rewrite (bool_decide_eq_false_2 (_ = fid_file_no _)), andb_false_r|].
  apply dec_stable in He. by rewrite (bool_decide_eq_true_2 (_ = fid_file_no _)), andb_true_r.
Qed.

Lemma remove_loop_ok src name req fuel : good_name name -> dr_dir req = dirfid i -> fsv_good i ->
  32 * Z.of_nat (length ents + 1) <= max_file_size ->
  forall k buf t N,
  fsv_rep t fs N -> (k <= length ents)%nat -> (reads (length ents - k) <= fuel)%nat ->
  ((reads (length ents - k) + 1) * fsv_cost <= N)%nat ->
  wp (remove_loop fuel req src name (length name) buf (32 * Z.of_nat k)) (DirServer t [])
    (fun _ dss => remove_answer src (dr_fid req) ((fun x => (k + x.1, x.2)%nat) <$> findi (to_remove name (dr_fid req)) (drop k ents))
                    (N - (reads (length ents - k) + 1) * fsv_cost) dss).
Proof.
  intros Hname Ed Hg Hmax. pose proof (df_wf _ _ _ _ Hdir) as Hw.
  induction fuel as [|fuel IH]; intros k buf t N Hr Hk Hfuel HN; [unfold reads in Hfuel; lia|].
  cbn [remove_loop]. cbv zeta. rewrite Ed. cbn [fid_server fid_file_no]. step. apply wp_ds_call.
  eapply wp_mono; [eapply (read_page_ok t fs N i s ents k buf Hr Hdir Hk); unfold reads in HN; lia|].
  intros x t1 [Hr1 (rest & ->)]. rewrite decide_False by done. rewrite page_length.
  destruct (decide (32 * Z.of_nat (Nat.min 512 (length ents - k)) = 0)) as [H0|H0].
  { rewrite drop_ge by lia. eapply dir_respond_answered; [exact Hr1|unfold reads; lia]. }
  step. apply wp_assert; [apply page_assert|]. rewrite <- page_length. rewrite find_page by done.
  rewrite findi_page. set (l := take 512 (drop k ents)).
  rewrite (findi_ext _ (to_remove name (dr_fid req)) l).
  2:{ intros de Hde. apply remove_match_spec; [|done]. eapply (Forall_forall de_wf l); [by apply Forall_take, Forall_drop|done]. }
  destruct (findi _ l) as [[j de]|] eqn:Ef; cbn [fmap option_fmap option_map fst snd].
  { apply findi_Some in Ef as [Ef _]. apply lookup_lt_Some in Ef. unfold l in Ef; rewrite page_length in Ef.
    eapply write_answered; [exact Hr1|lia|unfold reads in *; lia|exact zero_entry_wf|exact Hg|exact Hmax]. }
  rewrite (reads_step (length ents - k)) in * by lia.
  set (k' := (k + Nat.min 512 (length ents - k))%nat).
  replace (length ents - k - Nat.min 512 (length ents - k))%nat with (length ents - k')%nat in * by lia.
  eapply wp_mono; [eapply (IH k'); [exact Hr1|lia|lia|lia]|].
  intros u dss Hans. unfold remove_answer in *.
  destruct (findi (to_remove name (dr_fid req)) (drop k' ents)) as [[j de]|]; cbn [fmap option_fmap option_map fst snd] in *;
    destruct Hans as [Hs (N' & HN' & Hr')]; (split; [done|exists N'; split; [lia|]]); [|done].
  by replace (k + (Nat.min 512 (length ents - k) + j))%nat with (k' + j)%nat by lia.
Qed.

(** Whether a user has the permission that the masks ask for. *)
Definition dir_perm (owner other uid : Z) : bool :=
  if decide (uid = 0) then true
  else if decide (sf_uid s = uid) then bool_decide (Z.land (sf_mode s) owner <> 0)
  else bool_decide (Z.land (sf_mode s) other <> 0).

Lemma dir_allowed_ok owner other uid t N N' : fsv_rep t fs N' -> (N + fsv_cost <= N')%nat ->
  wp (dir_allowed owner other (dirfid i) uid) (DirServer t [])
    (fun b dss => b = dir_perm owner other uid /\ exists t1 N1, dss = DirServer t1 [] /\ (N <= N1)%nat /\ fsv_rep t1 fs N1).
Proof.
  intros Hr HN. unfold dir_allowed, dir_perm. destruct (decide (uid = 0)).
  { step. split; [done|]. exists t, N'. split; [done|]. split; [lia|done]. }
  step. apply wp_ds_call. eapply wp_mono; [eapply (stat_dir_ok t fs N' i s ents Hr Hdir); lia|].
  intros [ok f] t1 (Hr1 & E1 & E2 & E3). cbn [fst snd] in *. subst ok. rewrite E2, E3. rewrite decide_False by done.
  assert (exists t2 N2, DirServer t1 [] = DirServer t2 [] /\ (N <= N2)%nat /\ fsv_rep t2 fs N2) as Hex
    by (exists t1, (N' - fsv_cost)%nat; split; [done|]; split; [lia|done]).
  destruct (decide (sf_uid s = uid)); step; (split; [done|exact Hex]).
Qed.

(** What a request of user [uid] gets, and the files it leaves. *)
Definition lookup_result (uid : Z) (name : message) : dir_reply :=
  if dir_perm P_FILE_OWNER_READ P_FILE_OTHER_READ uid then lookup_reply (findi (has_name name) ents) else DirReply DIR_ERROR no_fid.

Definition can_write (uid : Z) : bool := dir_perm P_FILE_OWNER_WRITE P_FILE_OTHER_WRITE uid.

Definition new_de (f : fid) (name : message) : dir_entry := DirEntry f (name_strncpy DIR_NAME_SIZE (length name) name).

Definition insert_result (uid : Z) (f : fid) (name : message) : dir_reply * list sfile :=
  if can_write uid then
    match findi (has_name name) ents with
    | Some _ => (DirReply DIR_ERROR no_fid, fs)
    | None => (DirReply DIR_OK f, dir_update (splice (insert_at None 0) [new_de f name] ents))
    end
  else (DirReply DIR_ERROR no_fid, fs).

Definition remove_result (uid : Z) (f : fid) (name : message) : dir_reply * list sfile :=
  if can_write uid then
    (DirReply DIR_OK f, match findi (to_remove name f) ents with Some (k, _) => dir_update (splice k [zero_entry] ents) | None => fs end)
  else (DirReply DIR_ERROR no_fid, fs).

(** The resources of a request. *)
Definition dir_cost : nat := (reads (length ents) + 2) * fsv_cost.

Lemma answered_le src rep fs' N N' dss : answered src rep fs' N dss -> (N' <= N)%nat -> answered src rep fs' N' dss.
Proof. intros [Hs (M & HM & Hr)] Hle. split; [done|]. exists M. split; [lia|done]. Qed.

Context (fuel : nat) (Hfuel : (reads (length ents) <= fuel)%nat).

Lemma lookup_ok src uid name req t N : good_name name -> dr_dir req = dirfid i -> fsv_rep t fs N -> (dir_cost <= N)%nat ->
  wp (dir_do_lookup fuel req src uid name (length name)) (DirServer t [])
    (fun _ dss => answered src (lookup_result uid name) fs (N - dir_cost) dss).
Proof.
  intros [Hn _] Ed Hr HN. unfold dir_cost in *. unfold dir_do_lookup. rewrite decide_False by lia. rewrite Ed. step.
  eapply wp_mono; [eapply (dir_allowed_ok _ _ _ t (N - fsv_cost)); [exact Hr|lia]|].
  intros b dss (-> & t1 & N1 & -> & HN1 & Hr1). unfold lookup_result. destruct (dir_perm _ _ uid).
  - rewrite decide_False by done. pose proof (lookup_loop_ok src name fuel 0 page_buffer t1 N1 Hr1 ltac:(lia)) as H.
    rewrite Nat.sub_0_r in H. specialize (H Hfuel ltac:(lia)). eapply wp_mono; [exact H|].
    intros u dss Hans. eapply answered_le; [exact Hans|lia].
  - rewrite decide_True by done. eapply dir_respond_answered; [exact Hr1|lia].
Qed.

Lemma insert_ok src uid name req t N : good_name name -> dr_dir req = dirfid i -> fid_wf (dr_fid req) -> fsv_good i ->
  32 * Z.of_nat (length ents + 1) <= max_file_size -> fsv_rep t fs N -> (dir_cost <= N)%nat ->
  wp (dir_do_insert fuel req src uid name (length name)) (DirServer t [])
    (fun _ dss => answered src (insert_result uid (dr_fid req) name).1 (insert_result uid (dr_fid req) name).2 (N - dir_cost) dss).
Proof.
  intros Hn Ed Hf Hg Hm Hr HN. unfold dir_cost in *. unfold dir_do_insert. rewrite decide_False by (destruct Hn; lia). rewrite Ed. step.
  eapply wp_mono; [eapply (dir_allowed_ok _ _ _ t (N - fsv_cost)); [exact Hr|lia]|].
  intros b dss (-> & t1 & N1 & -> & HN1 & Hr1). unfold insert_result, can_write. destruct (dir_perm _ _ uid).
  - rewrite decide_False by done.
    pose proof (insert_loop_ok src name req fuel Hn Hf Ed Hg Hm 0 page_buffer None t1 N1 Hr1 ltac:(lia)) as H.
    rewrite Nat.sub_0_r in H. specialize (H Hfuel ltac:(lia) ltac:(done)). eapply wp_mono; [exact H|].
    intros u dss Hans. unfold insert_answer in Hans. rewrite drop_0 in Hans.
    destruct (findi (has_name name) ents); (eapply answered_le; [exact Hans|lia]).
  - rewrite decide_True by done. eapply dir_respond_answered; [exact Hr1|lia].
Qed.

Lemma remove_ok src uid name req t N : good_name name -> dr_dir req = dirfid i -> fsv_good i ->
  32 * Z.of_nat (length ents + 1) <= max_file_size -> fsv_rep t fs N -> (dir_cost <= N)%nat ->
  wp (dir_do_remove fuel req src uid name (length name)) (DirServer t [])
    (fun _ dss => answered src (remove_result uid (dr_fid req) name).1 (remove_result uid (dr_fid req) name).2 (N - dir_cost) dss).
Proof.
  intros Hn Ed Hg Hm Hr HN. unfold dir_cost in *. unfold dir_do_remove. rewrite decide_False by (destruct Hn; lia). rewrite Ed. step.
  eapply wp_mono; [eapply (dir_allowed_ok _ _ _ t (N - fsv_cost)); [exact Hr|lia]|].
  intros b dss (-> & t1 & N1 & -> & HN1 & Hr1). unfold remove_result, can_write. destruct (dir_perm _ _ uid).
  - rewrite decide_False by done.
    pose proof (remove_loop_ok src name req fuel Hn Ed Hg Hm 0 page_buffer t1 N1 Hr1 ltac:(lia)) as H.
    rewrite Nat.sub_0_r in H. specialize (H Hfuel ltac:(lia)). eapply wp_mono; [exact H|].
    intros u dss Hans. unfold remove_answer in Hans. rewrite drop_0 in Hans.
    destruct (findi (to_remove name _) ents) as [[k de]|]; (eapply answered_le; [exact Hans|lia]).
  - rewrite decide_True by done. eapply dir_respond_answered; [exact Hr1|lia].
Qed.
End calls.
