(* ===== verification/DirProps.v ===== *)
(** Directories for their clients: sequences of requests against a finite map, over
    any file service and over the whole stack. *)
From stdpp Require Import base numbers list gmap.
From Stdlib Require Import ZArith Lia.
From S2P Require Import Prelude BlockStore RamDisk ClockDisk BlockProt FileProt FileSpec RamFile RamFileSpec BlockFile BlockService BlockFileSpec BlockFileProps Dir DirSpec.

#[export] Program Instance byte_finite_key : Countable Init.Byte.byte :=
  inj_countable Strings.Byte.to_N Strings.Byte.of_N _.
Next Obligation. intros x. apply Strings.Byte.of_to_N. Qed.

(** * Entries as a map *)

Record dir_map (ents : list dir_entry) (m : gmap message fid) : Prop := {
  dm_lookup name f : name <> [] ->
    m !! name = Some f <-> exists j de, ents !! j = Some de /\ name_of de = name /\ de_fid de = f;
  dm_unique j1 j2 d1 d2 : ents !! j1 = Some d1 -> ents !! j2 = Some d2 -> name_of d1 = name_of d2 -> name_of d1 <> [] -> j1 = j2;
}.

Lemma dir_map_empty : dir_map [] ∅.
Proof. split; [|done]. intros name f _. rewrite lookup_empty. split; [done|]. by intros (j & de & H & _). Qed.

Lemma dir_map_find ents m name : dir_map ents m -> name <> [] -> m !! name = (fun x => de_fid x.2) <$> findi (has_name name) ents.
Proof.
  intros H Hn. destruct (findi (has_name name) ents) as [[j de]|] eqn:E; cbn.
  - apply findi_Some in E as [E Ep]. apply bool_decide_eq_true in Ep. apply (dm_lookup _ _ H _ _ Hn). eauto.
  - apply findi_None in E. destruct (m !! name) as [f|] eqn:Em; [|done]. apply (dm_lookup _ _ H _ _ Hn) in Em as (j & de & Hj & En & _).
    rewrite Forall_lookup in E. specialize (E _ _ Hj). by apply bool_decide_eq_false in E.
Qed.

Lemma lookup_splice_one {A} p (x : A) l j : (p <= length l)%nat -> splice p [x] l !! j = if decide (j = p) then Some x else l !! j.
Proof.
  intros H. rewrite lookup_splice by done. cbn [length]. destruct (decide (j = p)) as [->|Hne].
  - rewrite decide_True by lia. by rewrite Nat.sub_diag.
  - by rewrite decide_False by lia.
Qed.

(** Writing an entry where one is free, or at the end. *)
Lemma dir_map_insert ents m p de : dir_map ents m -> (p <= length ents)%nat ->
  (forall d, ents !! p = Some d -> name_of d = []) -> name_of de <> [] -> m !! name_of de = None ->
  dir_map (splice p [de] ents) (<[name_of de:=de_fid de]> m).
Proof.
  intros H Hp Hfree Hn Hnone. split.
  - intros name f Hname. destruct (decide (name = name_of de)) as [->|Hne].
    + rewrite lookup_insert_eq. split.
      * intros [= <-]. exists p, de. by rewrite lookup_splice_one, decide_True by done.
      * intros (j & d & Hj & En & <-). rewrite lookup_splice_one in Hj by done. destruct (decide (j = p)); [by injection Hj as ->|].
        assert (m !! name_of de = Some (de_fid d)) by (apply (dm_lookup _ _ H); eauto). congruence.
    + rewrite lookup_insert_ne by done. rewrite (dm_lookup _ _ H) by done. split; intros (j & d & Hj & En & Ef).
      * exists j, d. rewrite lookup_splice_one by done. destruct (decide (j = p)) as [->|]; [|done].
        rewrite (Hfree d Hj) in En. congruence.
      * rewrite lookup_splice_one in Hj by done. destruct (decide (j = p)); [injection Hj as <-; congruence|]. eauto.
  - intros j1 j2 d1 d2 H1 H2 E Hn1. rewrite lookup_splice_one in H1, H2 by done.
    assert (forall j d, ents !! j = Some d -> name_of d = name_of de -> False) as Hno.
    { intros j d Hj Ed. assert (m !! name_of de = Some (de_fid d)) by (apply (dm_lookup _ _ H); eauto). congruence. }
    destruct (decide (j1 = p)), (decide (j2 = p)); subst; try done.
    + injection H1 as <-. by destruct (Hno j2 d2).
    + injection H2 as <-. by destruct (Hno j1 d1).
    + by eapply (dm_unique _ _ H).
Qed.

Lemma dir_map_remove ents m k de : dir_map ents m -> ents !! k = Some de -> name_of de <> [] ->
  dir_map (splice k [zero_entry] ents) (delete (name_of de) m).
Proof.
  intros H Hk Hn. assert (k <= length ents)%nat as Hle by (apply lookup_lt_Some in Hk; lia). split.
  - intros name f Hname. destruct (decide (name = name_of de)) as [->|Hne].
    + rewrite lookup_delete_eq. split; [done|]. intros (j & d & Hj & En & _). rewrite lookup_splice_one in Hj by done.
      destruct (decide (j = k)) as [->|Hjk]; [injection Hj as <-; by rewrite zero_entry_free in En|].
      destruct Hjk. by eapply (dm_unique _ _ H); [exact Hj|exact Hk|..]; rewrite En.
    + rewrite lookup_delete_ne by done. rewrite (dm_lookup _ _ H) by done. split; intros (j & d & Hj & En & Ef).
      * exists j, d. rewrite lookup_splice_one by done. destruct (decide (j = k)) as [->|]; [|done]. rewrite Hk in Hj. congruence.
      * rewrite lookup_splice_one in Hj by done. destruct (decide (j = k)); [injection Hj as <-; rewrite zero_entry_free in En; congruence|]. eauto.
  - intros j1 j2 d1 d2 H1 H2 E Hn1. rewrite lookup_splice_one in H1, H2 by done.
    destruct (decide (j1 = k)), (decide (j2 = k)); subst; try done.
    + injection H1 as <-. by rewrite zero_entry_free in Hn1.
    + injection H2 as <-. by rewrite E, zero_entry_free in Hn1.
    + by eapply (dm_unique _ _ H).
Qed.

(** Whether a request to remove finds its entry. *)
Lemma dir_map_to_remove ents m name f : dir_map ents m -> name <> [] ->
  match findi (to_remove name f) ents with
  | Some (k, de) => ents !! k = Some de /\ name_of de = name /\ m !! name = Some (de_fid de) /\ fid_file_no (de_fid de) = fid_file_no f
  | None => forall g, m !! name = Some g -> fid_file_no g <> fid_file_no f
  end.
Proof.
  intros H Hn. destruct (findi (to_remove name f) ents) as [[k de]|] eqn:E.
  - apply findi_Some in E as [E Ep]. apply andb_true_iff in Ep as [E1 E2]. apply bool_decide_eq_true in E1, E2.
    split_and!; try done. apply (dm_lookup _ _ H); [done|]. eauto.
  - intros g Hg Ef. apply (dm_lookup _ _ H) in Hg as (j & de & Hj & En & <-); [|done].
    apply findi_None in E. rewrite Forall_lookup in E. specialize (E _ _ Hj). apply andb_false_iff in E as [E|E]; by apply bool_decide_eq_false in E.
Qed.

Lemma insert_at_spec ents : (insert_at ents None 0 <= length ents)%nat /\
  forall d, ents !! insert_at ents None 0 = Some d -> name_of d = [].
Proof.
  unfold insert_at. rewrite drop_0. destruct (findi is_free ents) as [[j de]|] eqn:E.
  - apply findi_Some in E as [E Ep]. apply bool_decide_eq_true in Ep. cbn [Nat.add]. split; [apply lookup_lt_Some in E; lia|]. intros d. by rewrite E; intros [= <-].
  - split; [done|]. intros d Hd. apply lookup_lt_Some in Hd. lia.
Qed.

(** * Requests and what they mean *)

Inductive dir_op : Type :=
| DirLookup (name : message)
| DirInsert (name : message) (f : fid)
| DirRemove (name : message) (f : fid).

Inductive dir_result : Type :=
| RLookup (o : option fid)
| RInsert (ok : bool)
| RRemove (ok : bool).

(** A directory at server [fsvr] that the user may read and write as said. A file of
    server 0 is at the server of the directory. *)
Definition spec_dir_op (fsvr : Z) (can_read can_write : bool) (m : gmap message fid) (o : dir_op) : dir_result * gmap message fid :=
  match o with
  | DirLookup name =>
      (RLookup (if can_read then (fun f => if decide (fid_server f = 0) then Fid fsvr (fid_file_no f) else f) <$> m !! name else None), m)
  | DirInsert name f =>
      if can_write then
        match m !! name with
        | None => (RInsert true, <[name:=f]> m)
        | Some _ => (RInsert false, m)
        end
      else (RInsert false, m)
  | DirRemove name f =>
      if can_write then
        (RRemove true, match m !! name with
                       | Some g => if decide (fid_file_no g = fid_file_no f) then delete name m else m
                       | None => m
                       end)
      else (RRemove false, m)
  end.

Definition exec_dir_op {T} `{!Rpc T} (dsvr : Z) (dir : fid) (o : dir_op) : M T dir_result :=
  match o with
  | DirLookup name => x ← dir_lookup dsvr dir name no_fid; mret (RLookup (if (x.1 : bool) then Some x.2 else None))
  | DirInsert name f => r ← dir_insert dsvr dir name f; mret (RInsert r)
  | DirRemove name f => r ← dir_remove dsvr dir name f; mret (RRemove r)
  end.

Definition valid_dir_op (o : dir_op) : Prop :=
  match o with
  | DirLookup name => good_name name
  | DirInsert name f | DirRemove name f => good_name name /\ fid_wf f
  end.

(** * Calls to the directory server *)

Lemma good_name_ne name : good_name name -> name <> [].
Proof. intros [H _] ->. simpl in H. lia. Qed.

(** The permission that the masks ask for, of user [uid], at a file of [own]. *)
Definition perm (own mode uid owner other : Z) : bool :=
  if decide (uid = 0) then true
  else if decide (own = uid) then bool_decide (Z.land mode owner <> 0) else bool_decide (Z.land mode other <> 0).

(** Requests of users, one after the other. *)
Fixpoint spec_dir_ops (fsvr own mode : Z) (m : gmap message fid) (os : list (Z * dir_op)) : list dir_result * gmap message fid :=
  match os with
  | [] => ([], m)
  | (uid, o) :: os =>
      let '(r, m1) := spec_dir_op fsvr (perm own mode uid P_FILE_OWNER_READ P_FILE_OTHER_READ)
                        (perm own mode uid P_FILE_OWNER_WRITE P_FILE_OTHER_WRITE) m o in
      let '(rs, m2) := spec_dir_ops fsvr own mode m1 os in (r :: rs, m2)
  end.

Fixpoint exec_dir_ops {T} (rpc : Rpc T) (fuel : nat) (dsvr : Z) (dir : fid) (os : list (Z * dir_op)) : M (option T) (list dir_result) :=
  match os with
  | [] => mret []
  | (uid, o) :: os =>
      r ← @exec_dir_op _ (dir_server rpc fuel uid) dsvr dir o;
      rs ← exec_dir_ops rpc fuel dsvr dir os; mret (r :: rs)
  end.

Section directory.
Context {T : Type} {rpc : Rpc T} (fsvr dsvr : Z) `{!FileService rpc fsvr 0}.
Context (fuel : nat) (i own mode : Z) (Hfsvr : is_u32 fsvr) (Hi : is_u32 i) (Hgood : fsv_good i).
Abbreviation dir := (Fid fsvr i).
Context (others : nat -> option sfile).

(** The file server holds, as file [i], a directory of at most [n] entries with
    the meaning [m]; its other files are [others]. *)
Definition dir_state (o : option T) (m : gmap message fid) (n N : nat) : Prop :=
  exists t fs s ents N', o = Some t /\ (N <= N')%nat /\ fsv_rep t fs N' /\ dir_file fs i s ents /\ dir_map ents m /\
    (length ents <= n)%nat /\ sf_uid s = own /\ sf_mode s = mode /\ (forall k, k <> Z.to_nat i -> fs !! k = others k).

Definition dir_op_request (o : dir_op) : dir_request :=
  match o with
  | DirLookup name => DirRequest DIR_LOOKUP dir no_fid (Z.of_nat (length name))
  | DirInsert name f => DirRequest DIR_INSERT dir f (Z.of_nat (length name))
  | DirRemove name f => DirRequest DIR_REMOVE dir f (Z.of_nat (length name))
  end.

Definition op_name (o : dir_op) : message :=
  match o with DirLookup name | DirInsert name _ | DirRemove name _ => name end.

(** The message that carries a result. *)
Definition op_reply (o : dir_op) (r : dir_result) : dir_reply :=
  match r, o with
  | RLookup (Some f), _ => DirReply DIR_OK f
  | RInsert true, DirInsert _ f | RRemove true, DirRemove _ f => DirReply DIR_OK f
  | _, _ => DirReply DIR_ERROR no_fid
  end.

Lemma valid_name o : valid_dir_op o -> good_name (op_name o).
Proof. destruct o; cbn; tauto. Qed.

Lemma no_fid_wf : fid_wf no_fid.
Proof. by split. Qed.

Lemma dir_update_file fs s ents ents' : dir_file fs i s ents -> Forall de_wf ents' ->
  32 * Z.of_nat (length ents') <= max_file_size ->
  dir_file (dir_update fs i s ents') i (SFile true (sf_uid s) (sf_mode s) (dir_bytes ents')) ents'.
Proof.
  intros [] Hw Hm. unfold dir_update. split; try done; [apply list_lookup_insert_eq; lia|by rewrite length_insert].
Qed.

Lemma splice_wf k de ents : Forall de_wf ents -> de_wf de -> Forall de_wf (splice k [de] ents).
Proof. intros H Hde. unfold splice. apply Forall_app. split; [by apply Forall_take|]. constructor; [done|by apply Forall_drop]. Qed.

Lemma splice_one_length k (de : dir_entry) ents : (k <= length ents)%nat -> (length (splice k [de] ents) <= length ents + 1)%nat.
Proof. intros H. rewrite length_splice_ext by done. cbn [length]. lia. Qed.

(** How a round ends: with the reply that carries the result [r]. *)
Definition dir_done (o : dir_op) (x : dir_result * gmap message fid) (n N : nat) (dss : dir_server_state T) : Prop :=
  dss_sent dss = [(1, dir_reply_bytes (op_reply o x.1))] /\ fid_wf (dp_fid (op_reply o x.1)) /\
  dir_state (Some (dss_kernel dss)) x.2 n N.

(** The files stay as they are. *)
Lemma done_same o r m fs s ents N dss : dir_file fs i s ents -> dir_map ents m -> sf_uid s = own -> sf_mode s = mode ->
  (forall k, k <> Z.to_nat i -> fs !! k = others k) -> fid_wf (dp_fid (op_reply o r)) -> answered fsvr 1 (op_reply o r) fs N dss ->
  dir_done o (r, m) (length ents + 1) N dss.
Proof.
  intros Hd Hm Eu Em Ho Hw [Hs (N' & HN & Hr)]. split; [done|]. split; [done|].
  exists (dss_kernel dss), fs, s, ents, N'. split_and!; try done. lia.
Qed.

(** The directory has the entries [ents']. *)
Lemma done_update o r m' fs s ents ents' N dss : dir_file fs i s ents -> Forall de_wf ents' -> dir_map ents' m' ->
  sf_uid s = own -> sf_mode s = mode -> (length ents' <= length ents + 1)%nat -> 32 * Z.of_nat (length ents + 1) <= max_file_size ->
  (forall k, k <> Z.to_nat i -> fs !! k = others k) -> fid_wf (dp_fid (op_reply o r)) ->
  answered fsvr 1 (op_reply o r) (dir_update fs i s ents') N dss ->
  dir_done o (r, m') (length ents + 1) N dss.
Proof.
  intros Hd Hw' Hm Eu Em Hl Hmax Ho Hw [Hs (N' & HN & Hr)]. split; [done|]. split; [done|].
  exists (dss_kernel dss), (dir_update fs i s ents'), (SFile true (sf_uid s) (sf_mode s) (dir_bytes ents')), ents', N'.
  split_and!; try done; [apply (dir_update_file fs s ents); [done|done|lia]|].
  intros k Hk. unfold dir_update. rewrite list_lookup_insert_ne by congruence. by apply Ho.
Qed.

Lemma perm_spec s owner other uid : sf_uid s = own -> sf_mode s = mode -> dir_perm s owner other uid = perm own mode uid owner other.
Proof. unfold dir_perm, perm. intros -> ->. reflexivity. Qed.

(** The handlers, for a request of the stubs. *)
Section round.
Context (uid : Z) (t : T) (N : nat) (fs : list sfile) (s : sfile) (ents : list dir_entry) (m : gmap message fid).
Context (Hr : fsv_rep t fs N) (Hd : dir_file fs i s ents) (Hm : dir_map ents m) (Eu : sf_uid s = own) (Em : sf_mode s = mode).
Context (Hoth : forall k, k <> Z.to_nat i -> fs !! k = others k).
Context (Hfuel : (reads (length ents) <= fuel)%nat) (Hmax : 32 * Z.of_nat (length ents + 1) <= max_file_size).
Context (HN : (dir_cost fsvr ents <= N)%nat).
Abbreviation can_r := (perm own mode uid P_FILE_OWNER_READ P_FILE_OTHER_READ).
Abbreviation can_w := (perm own mode uid P_FILE_OWNER_WRITE P_FILE_OTHER_WRITE).
Abbreviation round_done o := (fun (_ : unit) dss =>
  dir_done o (spec_dir_op fsvr can_r can_w m o) (length ents + 1) (N - dir_cost fsvr ents) dss).

Lemma lookup_round name : good_name name ->
  let o := DirLookup name in
  wp (dir_do_lookup fuel (dir_op_request o) 1 uid name (length name)) (DirServer t []) (round_done o).
Proof.
  intros Hn o. eapply wp_mono; [exact (lookup_ok fsvr fs i s ents Hd fuel Hfuel 1 uid name (dir_op_request o) t N Hn eq_refl Hr HN)|].
  intros u dss Hans. cbn [spec_dir_op o]. rewrite (dir_map_find ents m name Hm) by (by apply good_name_ne).
  unfold lookup_result in Hans. rewrite (perm_spec s) in Hans by done. destruct can_r.
  2:{ eapply (done_same o (RLookup None)); [exact Hd|exact Hm|exact Eu|exact Em|exact Hoth|exact no_fid_wf|exact Hans]. }
  destruct (findi (has_name name) ents) as [[j de]|] eqn:E; cbn [fmap option_fmap option_map fst snd lookup_reply] in *.
  2:{ eapply (done_same o (RLookup None)); [exact Hd|exact Hm|exact Eu|exact Em|exact Hoth|exact no_fid_wf|exact Hans]. }
  apply findi_Some in E as [E _]. pose proof (df_wf _ _ _ _ Hd) as Hw. rewrite Forall_lookup in Hw. destruct (Hw _ _ E) as [W1 W2 _].
  eapply (done_same o (RLookup (Some _))); [exact Hd|exact Hm|exact Eu|exact Em|exact Hoth| |exact Hans]. cbn. by destruct (decide _).
Qed.

Lemma insert_round name f : good_name name -> fid_wf f ->
  let o := DirInsert name f in
  wp (dir_do_insert fuel (dir_op_request o) 1 uid name (length name)) (DirServer t []) (round_done o).
Proof.
  intros Hn Hf o. pose proof (df_wf _ _ _ _ Hd) as Hw. destruct (new_entry f name Hf Hn) as [Hnew En].
  eapply wp_mono; [exact (insert_ok fsvr fs i s ents Hd fuel Hfuel 1 uid name (dir_op_request o) t N Hn eq_refl Hf Hgood Hmax Hr HN)|].
  intros u dss Hans. change (dr_fid (dir_op_request o)) with f in Hans. cbn [spec_dir_op o].
  unfold insert_result, can_write in Hans. rewrite (perm_spec s) in Hans by done. destruct can_w.
  2:{ eapply (done_same o (RInsert false)); [exact Hd|exact Hm|exact Eu|exact Em|exact Hoth|exact no_fid_wf|exact Hans]. }
  pose proof (dir_map_find ents m name Hm (good_name_ne _ Hn)) as Efind. rewrite Efind.
  destruct (findi (has_name name) ents) as [[j de]|]; cbn [fmap option_fmap option_map fst snd] in *.
  { eapply (done_same o (RInsert false)); [exact Hd|exact Hm|exact Eu|exact Em|exact Hoth|exact no_fid_wf|exact Hans]. }
  destruct (insert_at_spec ents) as [Hle Hfree].
  eapply (done_update o (RInsert true)); [exact Hd|by apply splice_wf| |exact Eu|exact Em|by apply splice_one_length|exact Hmax|exact Hoth|exact Hf|exact Hans].
  pose proof (dir_map_insert ents m _ (new_de f name) Hm Hle Hfree) as H. unfold new_de in H. rewrite En in H. cbn [de_fid] in H.
  apply H; [by apply good_name_ne|done].
Qed.

Lemma remove_round name f : good_name name -> fid_wf f ->
  let o := DirRemove name f in
  wp (dir_do_remove fuel (dir_op_request o) 1 uid name (length name)) (DirServer t []) (round_done o).
Proof.
  intros Hn Hf o. pose proof (df_wf _ _ _ _ Hd) as Hw.
  eapply wp_mono; [exact (remove_ok fsvr fs i s ents Hd fuel Hfuel 1 uid name (dir_op_request o) t N Hn eq_refl Hgood Hmax Hr HN)|].
  intros u dss Hans. change (dr_fid (dir_op_request o)) with f in Hans. cbn [spec_dir_op o].
  unfold remove_result, can_write in Hans. rewrite (perm_spec s) in Hans by done. destruct can_w.
  2:{ eapply (done_same o (RRemove false)); [exact Hd|exact Hm|exact Eu|exact Em|exact Hoth|exact no_fid_wf|exact Hans]. }
  pose proof (dir_map_to_remove ents m name f Hm (good_name_ne _ Hn)) as Hrm.
  destruct (findi (to_remove name f) ents) as [[k de]|]; cbn [fst snd] in Hans.
  - destruct Hrm as (Hk & En & -> & Ef). rewrite decide_True by done.
    assert (k <= length ents)%nat as Hle by (apply lookup_lt_Some in Hk; lia).
    eapply (done_update o (RRemove true)); [exact Hd|apply splice_wf; [exact Hw|exact zero_entry_wf]| |exact Eu|exact Em|by apply splice_one_length|exact Hmax|exact Hoth|exact Hf|exact Hans].
    subst name. apply dir_map_remove; [done|done|by apply good_name_ne].
  - assert (match m !! name with Some g => if decide (fid_file_no g = fid_file_no f) then delete name m else m | None => m end = m) as ->.
    { destruct (m !! name) as [g|] eqn:Eg; [|done]. by rewrite decide_False by (by apply Hrm). }
    eapply (done_same o (RRemove true)); [exact Hd|exact Hm|exact Eu|exact Em|exact Hoth|exact Hf|exact Hans].
Qed.

Lemma dir_round_ok o : valid_dir_op o ->
  wp (dir_proc_round fuel (dir_request_bytes (dir_op_request o) ++ op_name o) 1 uid) (DirServer t []) (round_done o).
Proof.
  intros Hv. pose proof (valid_name o Hv) as [Hl _]. unfold DIR_NAME_SIZE in Hl. unfold dir_proc_round.
  assert (length (dir_request_bytes (dir_op_request o) ++ op_name o) = (24 + length (op_name o))%nat) as El
    by (by rewrite length_app, length_dir_request).
  assert (MAX_PATH_NAME = Z.to_nat 1024) as EM by done.
  rewrite take_ge by lia. cbv zeta. rewrite bool_decide_eq_true_2 by (unfold sizeof_dir_request; lia).
  step. apply wp_assert; [done|]. rewrite drop_app_length' by (by rewrite length_dir_request). rewrite El.
  replace (24 + length (op_name o) - sizeof_dir_request)%nat with (length (op_name o)) by (unfold sizeof_dir_request; lia).
  rewrite dir_request_of_bytes.
  - destruct o as [name|name f|name f]; cbn [op_name].
    + rewrite decide_True by done. by apply lookup_round.
    + rewrite decide_False by done. rewrite decide_True by done. destruct Hv. by apply insert_round.
    + do 2 rewrite decide_False by done. rewrite decide_True by done. destruct Hv. by apply remove_round.
  - by destruct o.
  - by destruct o.
  - destruct o as [name|name f|name f]; [apply no_fid_wf|apply Hv|apply Hv].
  - destruct o; cbn [dir_op_request dr_size op_name] in *; split; unfold two32; lia.
Qed.
End round.

(** A call of user [uid] to the server. *)
Abbreviation dirsvr uid := (dir_server rpc fuel uid).
Abbreviation spec uid m o := (spec_dir_op fsvr (perm own mode uid P_FILE_OWNER_READ P_FILE_OTHER_READ)
  (perm own mode uid P_FILE_OWNER_WRITE P_FILE_OTHER_WRITE) m o).

Lemma dir_state_le o m n n' N N' : dir_state o m n N -> (n <= n')%nat -> (N' <= N)%nat -> dir_state o m n' N'.
Proof.
  intros (t & fs & s & ents & M & -> & HM & Hr & Hd & Hm & Hl & Eu & Em & Ho) Hn HN. exists t, fs, s, ents, M. split_and!; (done || lia).
Qed.

Lemma reads_mono m n : (m <= n)%nat -> (reads m <= reads n)%nat.
Proof. intros H. unfold reads. assert ((m + 511) / 512 <= (n + 511) / 512)%nat by (apply Nat.Div0.div_le_mono; lia). lia. Qed.

Lemma dir_rpc_done uid o t m n N : valid_dir_op o -> dir_state (Some t) m n N -> (reads n <= fuel)%nat ->
  32 * Z.of_nat (n + 1) <= max_file_size -> ((reads n + 2) * fsv_cost <= N)%nat ->
  wp (@sys_rpc _ (dirsvr uid) dsvr (dir_request_bytes (dir_op_request o) ++ op_name o) sizeof_dir_reply) (Some t)
    (fun x t' => x = Some (dir_reply_bytes (op_reply o (spec uid m o).1)) /\ fid_wf (dp_fid (op_reply o (spec uid m o).1)) /\
      dir_state t' (spec uid m o).2 (n + 1) (N - (reads n + 2) * fsv_cost)).
Proof.
  intros Hv (t1 & fs & s & ents & M & [= <-] & HM & Hr & Hd & Hm & Hl & Eu & Em & Ho) Hfuel Hmax HN.
  pose proof (reads_mono _ _ Hl) as Hrd.
  assert ((reads (length ents) + 2) * fsv_cost <= (reads n + 2) * fsv_cost)%nat as Hcost by (apply Nat.mul_le_mono_r; lia).
  pose proof (dir_round_ok uid t M fs s ents m Hr Hd Hm Eu Em Ho ltac:(lia) ltac:(lia) ltac:(unfold dir_cost; lia) o Hv) as H.
  unfold sys_rpc, dir_server, dir_rpc, wp in *. destruct (dir_proc_round _ _ _ _ _) as [[u dss]| | |]; [|done..].
  destruct H as (Hs & Hw & Hst). rewrite Hs. cbn [last fst]. split; [|split; [done|]].
  - rewrite take_ge; [done|]. by rewrite length_dir_reply.
  - eapply dir_state_le; [exact Hst|lia|unfold dir_cost; lia].
Qed.

(** What the stubs make of the reply. *)
Lemma dir_call_ok uid o t m n N : valid_dir_op o -> dir_state (Some t) m n N -> (reads n <= fuel)%nat ->
  32 * Z.of_nat (n + 1) <= max_file_size -> ((reads n + 2) * fsv_cost <= N)%nat ->
  wp (@dir_call _ (dirsvr uid) dsvr (dr_type (dir_op_request o)) dir (dr_fid (dir_op_request o)) (op_name o)) (Some t)
    (fun x t' => x = (let rep := op_reply o (spec uid m o).1 in if decide (dp_status rep <> DIR_OK) then None else Some rep) /\
      dir_state t' (spec uid m o).2 (n + 1) (N - (reads n + 2) * fsv_cost)).
Proof.
  intros Hv Hst Hfuel Hmax HN. unfold dir_call. step.
  replace (DirRequest (dr_type (dir_op_request o)) dir (dr_fid (dir_op_request o)) (Z.of_nat (length (op_name o))))
    with (dir_op_request o) by (by destruct o).
  eapply wp_mono; [exact (dir_rpc_done uid o t m n N Hv Hst Hfuel Hmax HN)|]. intros x t' (-> & Hw & Hst').
  rewrite length_dir_reply, decide_False by (intros H; by apply H). rewrite dir_reply_of_bytes.
  - cbv zeta. destruct (decide _); step; done.
  - generalize (spec uid m o).1. intros r. by destruct r as [[f|]|[]|[]], o.
  - exact Hw.
Qed.

Lemma exec_dir_op_ok uid o t m n N : valid_dir_op o -> dir_state t m n N -> (reads n <= fuel)%nat ->
  32 * Z.of_nat (n + 1) <= max_file_size -> ((reads n + 2) * fsv_cost <= N)%nat ->
  wp (@exec_dir_op _ (dirsvr uid) dsvr dir o) t
    (fun r t' => r = (spec uid m o).1 /\ dir_state t' (spec uid m o).2 (n + 1) (N - (reads n + 2) * fsv_cost)).
Proof.
  intros Hv Hst Hfuel Hmax HN. assert (exists t0, t = Some t0) as [t0 ->] by (destruct Hst as (t0 & ? & ? & ? & ? & -> & _); by exists t0).
  pose proof (dir_call_ok uid o t0 m n N Hv Hst Hfuel Hmax HN) as H.
  destruct o as [name|name f|name f]; cbn [exec_dir_op dir_op_request dr_type dr_fid op_name] in *.
  - unfold dir_lookup. do 2 step. eapply wp_mono; [exact H|]. intros x t' [-> Hst']. do 2 step. split; [|exact Hst'].
    cbn [spec_dir_op]. repeat destruct (perm _ _ _ _ _); destruct (m !! name) as [g|]; reflexivity.
  - unfold dir_insert. do 2 step. eapply wp_mono; [exact H|]. intros x t' [-> Hst']. do 2 step. split; [|exact Hst'].
    cbn [spec_dir_op]. repeat destruct (perm _ _ _ _ _); destruct (m !! name) as [g|]; reflexivity.
  - unfold dir_remove. do 2 step. eapply wp_mono; [exact H|]. intros x t' [-> Hst']. do 2 step. split; [|exact Hst'].
    cbn [spec_dir_op]. repeat destruct (perm _ _ _ _ _); reflexivity.
Qed.

(** The resources of [k] requests to a directory that gets at most [n] entries. *)
Definition ops_cost (n k : nat) : nat := (reads n + 2) * fsv_cost * k.

Lemma exec_dir_ops_ok K : (reads K <= fuel)%nat -> 32 * Z.of_nat K <= max_file_size ->
  forall os t m n N, Forall (fun o => valid_dir_op o.2) os -> dir_state t m n N -> (n + length os <= K)%nat -> (ops_cost K (length os) <= N)%nat ->
  wp (exec_dir_ops rpc fuel dsvr dir os) t (fun rs t' => rs = (spec_dir_ops fsvr own mode m os).1 /\
    dir_state t' (spec_dir_ops fsvr own mode m os).2 (n + length os) (N - ops_cost K (length os))).
Proof.
  intros Hfuel Hmax. induction os as [|[uid o] os IH]; intros t m n N Hv Hst Hn HN; cbn [exec_dir_ops spec_dir_ops length] in *.
  { step. split; [done|]. eapply dir_state_le; [exact Hst|lia|lia]. }
  apply Forall_cons in Hv as [Hv Hvs]. cbn [snd] in Hv. assert (n <= K)%nat as HnK by lia. pose proof (reads_mono n K HnK) as Hrd.
  assert ((reads n + 2) * fsv_cost <= (reads K + 2) * fsv_cost)%nat as Hcost by (apply Nat.mul_le_mono_r; lia).
  unfold ops_cost in *. rewrite Nat.mul_succ_r in HN. step.
  eapply wp_mono; [apply (exec_dir_op_ok uid o t m n N Hv Hst); lia|]. intros r t' [-> Hst']. step.
  eapply wp_mono; [apply (IH t' _ (n + 1)%nat _ Hvs Hst'); lia|]. intros rs t2 [-> Hst2]. step.
  destruct (spec_dir_op _ _ _ _ _) as [r m1]. cbn [fst snd] in *.
  destruct (spec_dir_ops _ _ _ m1 os) as [rs m2]. split; [reflexivity|]. eapply dir_state_le; [exact Hst2|lia|]. rewrite Nat.mul_succ_r. lia.
Qed.
End directory.

(** A file that is made is an empty directory. *)
Lemma create_dir_ok {T} {rpc : Rpc T} (fsvr : Z) `{!FileService rpc fsvr 0} (mode : Z) (t : T) (fs : list sfile) (s : sfile) (N : nat) :
  let i := find_free (tail fs) 1 in
  fsv_rep t fs N -> 0 <= mode < 2 ^ 16 -> fs !! Z.to_nat i = Some s -> sf_data s = [] -> fsv_good i -> (fsv_cost <= N)%nat ->
  wp (file_create fsvr mode 0) t (fun x t' => x = (true, i) /\
    dir_state fsvr i 0 mode (fun k => fs !! k) (Some t') ∅ 0 (N - fsv_cost)).
Proof.
  intros i Hr Hm Hs Hd Hg HN. pose proof (fsv_op t fs N (FileCreate mode) Hr) as H. cbn [valid_file_op] in H. fold i in H.
  specialize (H (conj Hm (fun _ => Hg)) HN). cbn [exec_file_op spec_file_op] in H. cbv zeta in H. fold i in H. rewrite Hs in H.
  cbn [fst snd] in H. rewrite Hd in H. apply wp_bind_inv in H. eapply wp_mono; [exact H|].
  intros [ok j] t' H'. unfold wp in H'. cbn in H'. destruct H' as [[= -> ->] Hr']. split; [done|].
  pose proof (lookup_lt_Some _ _ _ Hs) as Hlt.
  assert (1 <= i) as Hi by (unfold i; destruct (find_free_spec (tail fs) 1) as (k & -> & _); lia).
  exists t', (<[Z.to_nat i:=SFile true 0 mode []]> fs), (SFile true 0 mode []), [], (N - fsv_cost)%nat.
  split; [done|]. split; [done|]. split; [exact Hr'|]. split.
  { split; [by apply list_lookup_insert_eq|rewrite length_insert; lia|reflexivity|reflexivity|constructor|].
    assert (max_file_size = 2 ^ 30) as -> by done. cbn. lia. }
  split; [apply dir_map_empty|]. split; [cbn; lia|]. split; [reflexivity|]. split; [reflexivity|]. intros k Hk. by apply list_lookup_insert_ne.
Qed.

(** * Properties *)


Section stack.
Context {S : Type} {R : S -> vdisk -> Prop} `{!BlockStore S, !Lawful S R}.
Context (pid now bsvr svr dsvr seconds start : Z) (fuel : nat).
(** The file server, as the directory server calls it. *)
Abbreviation root_files := (stack_server (S:=S) pid now 0).

#[local] Instance dir_blocks : BlockService (stack_rpc (S:=S)) bsvr := stack_service (R:=R) bsvr.

(** C5. The whole stack: the directory server over the file server of bfs.c,
    over the block server, the tree file system and the write-back cache, on an empty
    bottom store. A directory that is made, and then used by any users through the
    stubs of dir.c, is a finite map from names to files. *)
Theorem bfs_directories_correct (bot : S) (d : vdisk) (cache : list block) (nblocks mode : Z) (os : list (Z * dir_op)) :
  stack_ok (R:=R) pid now 0 bot d cache nblocks -> is_u32 svr -> 0 <= mode < 2 ^ 16 -> Forall (fun o => valid_dir_op o.2) os ->
  let K := length os in
  (reads K <= fuel)%nat -> 32 * Z.of_nat K <= max_file_size -> stack_budget (1 + (reads K + 2) * K) <= nblocks - 3 ->
  exists ts, block_init bot cache = Ret ts /\
    wp (@bfs_main _ (stack_rpc (S:=S)) bsvr seconds start) (Some ts) (fun fss _ =>
      wp (@file_create _ root_files svr mode 0) (Some fss) (fun x t =>
        x = (true, 1) /\ wp (exec_dir_ops root_files fuel dsvr (Fid svr 1) os) (Some t) (fun rs _ =>
          rs = (spec_dir_ops svr 0 mode ∅ os).1))).
Proof.
  intros Hok Hsvr Hmode Hv K Hfuel Hmax Hb. set (n := (1 + (reads K + 2) * K)%nat) in *.
  destruct (stack_start pid now 0 bsvr seconds start bot d cache nblocks (put_cost NINODES * n) Hok) as (ts & E & H).
  { exact Hb. }
  exists ts. split; [exact E|]. eapply wp_mono; [exact H|]. intros fss k Hr. destruct Hok as [_ _ _ _ _ Hpid Hnow Huid].
  set (F := blkfile_service (stack_rpc (S:=S)) bsvr pid now NINODES svr 0 Hpid Hnow ninodes_range Huid).
  assert (find_free (tail start_files) 1 = 1) as Ei by (vm_compute; reflexivity).
  pose proof (create_dir_ok (FileService0 := F) svr mode (Some fss) start_files (SFile false 0 0 []) (put_cost NINODES * n)) as Hc.
  cbv zeta in Hc. rewrite Ei in Hc. eapply wp_mono; [apply Hc|].
  - exact Hr.
  - exact Hmode.
  - vm_compute. reflexivity.
  - reflexivity.
  - change (flushable NINODES 1). apply (bool_decide_unpack _). vm_compute. exact I.
  - change (put_cost NINODES <= put_cost NINODES * n)%nat. unfold n. lia.
  - intros x t [-> Hst]. split; [reflexivity|].
    eapply wp_mono; [eapply (exec_dir_ops_ok (FileService0 := F) svr dsvr fuel 1 0 mode Hsvr);
      [done| |exact Hfuel|exact Hmax|exact Hv|exact Hst|done|]|].
    + change (flushable NINODES 1). apply (bool_decide_unpack _). vm_compute. exact I.
    + unfold ops_cost. change (put_cost NINODES) with (fsv_cost (FileService := F)) in *. fold K. unfold n. nia.
    + by intros rs t' [-> _].
Qed.
End stack.

(** The server ends, for all its clients, when a client sends it a request
    that is too short or of a type that it does not have. *)
Lemma dirsvr_malformed_exits {T} {rpc : Rpc T} (fuel repsize : nat) (uid svr : Z) (msg : message) (t : T) :
  (length msg < sizeof_dir_request)%nat \/
    (sizeof_dir_request <= length msg)%nat /\ dr_type (dir_request_of msg) ∉ [DIR_LOOKUP; DIR_INSERT; DIR_REMOVE] ->
  let server := dir_server rpc fuel uid in
  @sys_rpc _ server svr msg repsize (Some t) = Ret (None, None) /\
  forall msg' repsize', @sys_rpc _ server svr msg' repsize' None = Ret (None, None).
Proof.
  intros H server. split; [|done]. unfold sys_rpc, server, dir_server, dir_rpc.
  assert (dir_proc_round fuel msg 1 uid (DirServer t []) = Exit) as ->; [|done].
  assert (8 + MAX_PATH_NAME = Z.to_nat 1032)%nat as EM by done.
  unfold dir_proc_round. cbv zeta. rewrite EM. destruct H as [H|[Hl H]].
  - rewrite take_ge by (unfold sizeof_dir_request in H; lia). rewrite bool_decide_eq_false_2 by lia. done.
  - assert (dir_request_of (take (Z.to_nat 1032) msg) = dir_request_of msg) as ->.
    { unfold dir_request_of, get_field. f_equal; [|f_equal|f_equal|]; rewrite skipn_firstn_comm, take_take, Nat.min_l by lia; done. }
    rewrite bool_decide_eq_true_2 by (rewrite length_take; unfold sizeof_dir_request in *; lia).
    assert (forall x, x ∈ [DIR_LOOKUP; DIR_INSERT; DIR_REMOVE] -> dr_type (dir_request_of msg) <> x) as Hx by (intros x Hx Ex; by rewrite Ex in H).
    unfold mbind, M_bind, assert_. rewrite !decide_False by (apply Hx; set_solver). done.
Qed.

(** * The properties on concrete servers *)

Definition wit_name (x : Init.Byte.byte) : message := [x].
Definition wit_dir_ops : list (Z * dir_op) :=
  [(0, DirInsert [Init.Byte.x61] (Fid 0 5)); (7, DirLookup [Init.Byte.x61]); (7, DirInsert [Init.Byte.x62] (Fid 3 4));
   (0, DirInsert [Init.Byte.x61] (Fid 3 4)); (0, DirRemove [Init.Byte.x61] (Fid 9 5)); (7, DirLookup [Init.Byte.x61]);
   (0, DirInsert [Init.Byte.x62] (Fid 3 4)); (7, DirLookup [Init.Byte.x62])].
Definition wit_dir_results (svr : Z) : list dir_result :=
  [RInsert true; RLookup (Some (Fid svr 5)); RInsert false; RInsert false; RRemove true; RLookup None; RInsert true;
   RLookup (Some (Fid 3 4))].

Lemma wit_dir_ops_valid : Forall (fun o => valid_dir_op o.2) wit_dir_ops.
Proof.
  assert (forall x, x <> Init.Byte.x00 -> good_name [x]) as H by (intros x Hx; split; [cbn; unfold DIR_NAME_SIZE; lia|by constructor]).
  unfold wit_dir_ops. repeat (constructor; [cbn [snd valid_dir_op]; repeat split; (apply H; congruence) || (cbn; unfold two32; lia)|]).
  constructor.
Qed.

Lemma bfs_directories_correct_witness :
  exists ts, block_init (ramdisk_init (null_disk (Z.to_nat 40000)) 40000) (replicate 20 null_block) = Ret ts /\
    wp (@bfs_main _ (stack_rpc (S:=ramdisk_state)) 5 0 0) (Some ts) (fun fss _ =>
      wp (@file_create _ (stack_server (S:=ramdisk_state) 9 0 0) 6 P_FILE_DEFAULT 0) (Some fss) (fun x t =>
        x = (true, 1) /\ wp (exec_dir_ops (stack_server (S:=ramdisk_state) 9 0 0) 2 8 (Fid 6 1) wit_dir_ops) (Some t) (fun rs _ =>
          rs = wit_dir_results 6))).
Proof.
  apply (bfs_directories_correct (R:=ram_repr) 9 0 5 6 8 0 0 2 _ (disk_of (null_disk (Z.to_nat 40000))) _ 40000 P_FILE_DEFAULT wit_dir_ops).
  - apply (null_stack_ok (Z.to_nat 40000)); [lia|done..].
  - done.
  - done.
  - exact wit_dir_ops_valid.
  - vm_compute. lia.
  - vm_compute. congruence.
  - vm_compute. congruence.
Defined.

(** The in-memory file server, in its first second. *)
Definition wit_ram : Rpc ramfile_state := ramfile_server 3 0 (fun n => replicate n Init.Byte.xff) 0.

Lemma wit_ram_service : FileService wit_ram 5 0.
Proof. refine (ramfile_service 3 0 0 (fun n => replicate n Init.Byte.xff) _ _ _ 5); [done|done|intros n; apply length_replicate]. Defined.


Lemma dirsvr_malformed_exits_witness :
  let server := dir_server wit_ram 2 7 in
  @sys_rpc _ server 8 (replicate 23 Init.Byte.x01) 12 (Some (ramfile_init 0 0)) = Ret (None, None) /\
  forall msg' repsize', @sys_rpc _ server 8 msg' repsize' None = Ret (None, None).
Proof. apply (dirsvr_malformed_exits (rpc:=wit_ram) 2 12 7 8). left. cbn. unfold sizeof_dir_request. lia. Defined.
