(* ===== verification/DirCreate.v ===== *)
(** Making a directory: the client's [dir_create], which calls a file server and the
    directory server, which calls the same file server. *)
From stdpp Require Import base numbers list gmap.
From Stdlib Require Import ZArith Lia.
From S2P Require Import Prelude BlockStore BlockProt FileProt FileSpec RamFile RamFileSpec Dir DirSpec DirProps.

(** * A client with two servers

    What it sends to [dsvr] goes to the directory server, which calls the file server
    through [root]; the rest goes to the file server, through [files]. *)
Definition two_servers {T} (files root : Rpc T) (fuel : nat) (uid dsvr : Z) : Rpc (option T) := fun svr msg repsize o =>
  if decide (svr = dsvr) then dir_rpc (Rpc0:=root) fuel uid msg repsize o
  else match o with
       | None => Ret (None, None)
       | Some t =>
           match files svr msg repsize t with
           | Ret (r, t') => Ret (r, Some t')
           | Exit => Exit
           | Undef => Undef
           | OutOfFuel => OutOfFuel
           end
       end.

Section two_servers.
Context {T : Type} (files root : Rpc T) (fuel : nat) (uid dsvr fsvr : Z) (Hne : fsvr <> dsvr).
Abbreviation world := (two_servers files root fuel uid dsvr).

Lemma world_call msg repsize t Q : wp (@sys_rpc _ files fsvr msg repsize) t (fun r t' => Q r (Some t')) ->
  wp (@sys_rpc _ world fsvr msg repsize) (Some t) Q.
Proof.
  intros H. unfold wp, sys_rpc, two_servers in *. rewrite decide_False by done. by destruct (files _ _ _ t) as [[r t']| | |].
Qed.

Lemma world_file_rpc req t Q : wp (@file_rpc _ files fsvr req) t (fun r t' => Q r (Some t')) ->
  wp (@file_rpc _ world fsvr req) (Some t) Q.
Proof.
  intros H. unfold file_rpc in *. apply wp_bind_inv in H. step. apply world_call. eapply wp_mono; [exact H|].
  intros [r|] t'; [|done]. by destruct (decide _).
Qed.

Lemma world_create mode j t Q : wp (@file_create _ files fsvr mode j) t (fun r t' => Q r (Some t')) ->
  wp (@file_create _ world fsvr mode j) (Some t) Q.
Proof.
  intros H. unfold file_create in *. apply wp_bind_inv in H. step. apply world_file_rpc. eapply wp_mono; [exact H|]. done.
Qed.

Lemma world_write i off data size t Q : wp (@file_write _ files fsvr i off data size) t (fun r t' => Q r (Some t')) ->
  wp (@file_write _ world fsvr i off data size) (Some t) Q.
Proof.
  intros H. unfold file_write, file_status_rpc in *. apply wp_bind_inv in H. step. apply world_file_rpc. eapply wp_mono; [exact H|]. done.
Qed.

Lemma world_dir_call type dir f name t Q : wp (@dir_call _ (dir_server root fuel uid) dsvr type dir f name) t Q ->
  wp (@dir_call _ world dsvr type dir f name) t Q.
Proof. unfold dir_call, sys_rpc, two_servers, mbind, M_bind, wp. by rewrite decide_True by done. Qed.
End two_servers.

(** * The new directory *)

(** What [strcpy] of a short name leaves in an entry. *)
Lemma copied_entry f name rest : fid_wf f -> Forall (fun x => x <> Init.Byte.x00) name ->
  (length name + 1 + length rest)%nat = DIR_NAME_SIZE ->
  let de := DirEntry f (name ++ [Init.Byte.x00] ++ rest) in de_wf de /\ name_of de = name.
Proof.
  intros [H1 H2] Hn Hl de. split.
  - split; [done|done|]. cbn [de de_name]. rewrite !length_app. cbn [length]. lia.
  - unfold name_of. cbn [de de_name]. assert (forall n, (length name < n)%nat -> name_strnlen n (name ++ [Init.Byte.x00] ++ rest) = length name) as ->.
    { clear Hl. induction Hn as [|x l Hx _ IH]; intros [|n] Hlt; cbn [length] in *; [lia|done|lia|].
      cbn [app name_strnlen]. rewrite decide_False by done. f_equal. apply IH. lia. }
    + by rewrite take_app_length.
    + lia.
Qed.

Definition dot_entries (junk : nat -> message) (self parent : fid) : list dir_entry :=
  [DirEntry self (dot_name ++ [Init.Byte.x00] ++ junk 18%nat); DirEntry parent (dotdot_name ++ [Init.Byte.x00] ++ junk 17%nat)].

Definition dot_map (self parent : fid) : gmap message fid := {[dot_name := self; dotdot_name := parent]}.

Section new.
Context (junk : nat -> message) (Hjunk : forall n, length (junk n) = n).

Lemma dot_entries_wf self parent : fid_wf self -> fid_wf parent -> Forall de_wf (dot_entries junk self parent).
Proof.
  intros Hs Hp. constructor; [|constructor; [|constructor]].
  - apply (copied_entry self dot_name); [done|by repeat constructor|by rewrite Hjunk].
  - apply (copied_entry parent dotdot_name); [done|by repeat constructor|by rewrite Hjunk].
Qed.

Lemma dot_entries_map self parent : fid_wf self -> fid_wf parent -> dir_map (dot_entries junk self parent) (dot_map self parent).
Proof.
  intros Hs Hp.
  destruct (copied_entry self dot_name (junk 18%nat) Hs) as [W1 N1]; [by repeat constructor|by rewrite Hjunk|].
  destruct (copied_entry parent dotdot_name (junk 17%nat) Hp) as [W2 N2]; [by repeat constructor|by rewrite Hjunk|].
  set (d1 := DirEntry self _) in *. set (d2 := DirEntry parent _) in *.
  change (dot_entries junk self parent) with (splice 1 [d2] (splice 0 [d1] [])).
  replace (dot_map self parent) with (<[dotdot_name:=parent]> (<[dot_name:=self]> (∅ : gmap message fid)))
    by (unfold dot_map; rewrite insert_insert_ne by done; done).
  rewrite <- N2, <- N1. apply (dir_map_insert _ _ 1 d2); [apply (dir_map_insert [] ∅ 0 d1)|..].
  - apply dir_map_empty.
  - done.
  - done.
  - by rewrite N1.
  - by rewrite lookup_empty.
  - done.
  - intros d. by rewrite lookup_ge_None_2 by done.
  - by rewrite N2.
  - rewrite N1, N2. by rewrite lookup_insert_ne, lookup_empty by done.
Qed.
End new.

(** Another file of the server as a directory. *)
Lemma dir_state_other {T} {rpc : Rpc T} (fsvr : Z) `{!FileService rpc fsvr 0} i own mode others t m n N j s ents m' :
  dir_state fsvr i own mode others t m n N -> 1 <= j -> j <> i -> 0 <= i -> others (Z.to_nat j) = Some s -> sf_alloc s = true ->
  sf_data s = dir_bytes ents -> Forall de_wf ents -> 32 * Z.of_nat (length ents) <= max_file_size -> dir_map ents m' ->
  exists others', dir_state fsvr j (sf_uid s) (sf_mode s) others' t m' (length ents) N.
Proof.
  intros (t1 & fs & s1 & ents1 & M & -> & HM & Hr & Hd & Hm & Hl & Eu & Em & Ho) Hj Hji Hi Hs Ha Hda Hw Hmax Hm'.
  exists (fun k => fs !! k), t1, fs, s, ents, M. assert (fs !! Z.to_nat j = Some s) as E by (rewrite Ho; [done|lia]).
  pose proof (lookup_lt_Some _ _ _ E).
  split_and!; try done. split; try done. lia.
Qed.

Section create.
Context {T : Type} {files root : Rpc T} (fsvr dsvr uid : Z) {F0 : FileService root fsvr 0} {Fu : FileService files fsvr uid}.
Context (Hrep : forall t fs n, fsv_rep (FileService := Fu) t fs n <-> fsv_rep (FileService := F0) t fs n).
Context (fuel : nat) (Hne : fsvr <> dsvr) (Hfsvr : is_u32 fsvr).
Abbreviation world := (two_servers files root fuel uid dsvr).
Abbreviation rep := (fsv_rep (FileService := Fu)).
Abbreviation cost := (fsv_cost (FileService := Fu)).

Lemma world_create_ok mode t fs s N :
  let j := find_free (tail fs) 1 in
  rep t fs N -> 0 <= mode < 2 ^ 16 -> fs !! Z.to_nat j = Some s -> fsv_good (FileService := Fu) j -> (cost <= N)%nat ->
  wp (@file_create _ world fsvr mode 0) (Some t) (fun x t' => x = (true, j) /\
    exists t1, t' = Some t1 /\ rep t1 (<[Z.to_nat j:=SFile true uid mode (sf_data s)]> fs) (N - cost)).
Proof.
  intros j Hr Hm Hs Hg HN. apply world_create; [exact Hne|].
  pose proof (fsv_op (FileService := Fu) t fs N (FileCreate mode) Hr) as H. cbn [valid_file_op] in H. fold j in H.
  specialize (H (conj Hm (fun _ => Hg)) HN). cbn [exec_file_op spec_file_op] in H. cbv zeta in H. fold j in H. rewrite Hs in H.
  cbn [fst snd] in H. apply wp_bind_inv in H. eapply wp_mono; [exact H|].
  intros [ok k] t' H'. unfold wp in H'. cbn in H'. destruct H' as [[= -> ->] Hr']. split; [done|]. by exists t'.
Qed.

Lemma world_write_ok j data t fs s N :
  rep t fs N -> fs !! Z.to_nat j = Some s -> sf_data s = [] -> may_write uid s = true -> fsv_good (FileService := Fu) j ->
  1 <= j < Z.of_nat (length fs) -> (length data <= PAGESIZE)%nat -> Z.of_nat (length data) <= max_file_size -> (cost <= N)%nat ->
  wp (@file_write _ world fsvr j 0 data (Z.of_nat (length data))) (Some t) (fun x t' => x = true /\
    exists t1, t' = Some t1 /\ rep t1 (<[Z.to_nat j:=SFile true (sf_uid s) (sf_mode s) data]> fs) (N - cost)).
Proof.
  intros Hr Hs Hd Hw Hg Hj Hl Hmax HN. apply world_write; [exact Hne|].
  pose proof (fsv_op (FileService := Fu) t fs N (FileWrite j 0 data) Hr) as H. cbn [valid_file_op exec_file_op spec_file_op] in H.
  rewrite Hs in H. cbn [fmap option_fmap option_map default from_option id] in H. rewrite Hd in H. rewrite Hw in H.
  specialize (H ltac:(split_and!; (assumption || (cbn; lia))) HN). cbn [fst snd] in H.
  apply wp_bind_inv in H. eapply wp_mono; [exact H|]. intros r t' H'. unfold wp in H'. cbn in H'. destruct H' as [[= ->] Hr'].
  split; [done|]. exists t'. split; [done|]. unfold splice in Hr'. rewrite drop_nil, app_nil_r in Hr'. exact Hr'.
Qed.

Context (junk : nat -> message) (Hjunk : forall n, length (junk n) = n).

(** The insertion that ends [dir_create2]. *)
Lemma world_insert_ok i own mode others t m n N name f : good_name name -> fid_wf f -> is_u32 i -> fsv_good (FileService := F0) i ->
  dir_state (FileService0 := F0) fsvr i own mode others t m n N -> (reads n <= fuel)%nat -> 32 * Z.of_nat (n + 1) <= max_file_size ->
  ((reads n + 2) * fsv_cost (FileService := F0) <= N)%nat ->
  let ok := perm own mode uid P_FILE_OWNER_WRITE P_FILE_OTHER_WRITE && bool_decide (m !! name = None) in
  wp (@dir_insert _ world dsvr (Fid fsvr i) name f) t (fun r t' => r = ok /\
    dir_state (FileService0 := F0) fsvr i own mode others t' (if ok then <[name:=f]> m else m) (n + 1) (N - (reads n + 2) * fsv_cost (FileService := F0))).
Proof.
  intros Hn Hf Hi Hg Hst Hfuel Hmax HN ok. assert (exists t0, t = Some t0) as [t0 ->] by (destruct Hst as (t0 & ? & ? & ? & ? & -> & _); by exists t0).
  unfold dir_insert. step. apply world_dir_call.
  pose proof (dir_call_ok (FileService0 := F0) fsvr dsvr fuel i own mode Hfsvr Hi Hg others uid (DirInsert name f) t0 m n N (conj Hn Hf) Hst Hfuel Hmax HN) as H.
  cbn [dir_op_request op_name dr_type dr_fid] in H. eapply wp_mono; [exact H|]. intros x t' [-> Hst'].
  cbn [spec_dir_op] in *. unfold ok. destruct (perm own mode uid P_FILE_OWNER_WRITE P_FILE_OTHER_WRITE).
  - destruct (m !! name) as [g|]; cbn [fst snd] in Hst'; step; (split; [reflexivity|exact Hst']).
  - cbn [fst snd] in Hst'. step. split; [reflexivity|exact Hst'].
Qed.

(** What [dir_create] starts from: the parent is directory [i], and file [j], that
    the file server will hand out, is empty. *)
Record create_ok (t : T) (fs : list sfile) (i j : Z) (s : sfile) (ents : list dir_entry) (m : gmap message fid) (name : message) (N : nat) : Prop := {
  cr_rep : rep t fs N;
  cr_dir : dir_file fs i s ents;
  cr_map : dir_map ents m;
  cr_name : good_name name;
  cr_i : is_u32 i;
  cr_good : fsv_good (FileService := F0) i;
  cr_j : j = find_free (tail fs) 1;
  cr_free : exists s0, fs !! Z.to_nat j = Some s0 /\ sf_data s0 = [];
  cr_files : Z.of_nat (length fs) < two32;
  cr_good_j : fsv_good (FileService := Fu) j;
  cr_fuel : (reads (length ents) <= fuel)%nat;
  cr_max : 32 * Z.of_nat (length ents + 1) <= max_file_size;
  cr_cost : (2 * cost + (reads (length ents) + 2) * fsv_cost (FileService := F0) <= N)%nat;
}.

Lemma create_range t fs i j s ents m name N : create_ok t fs i j s ents m name N -> 1 <= j < two32 /\ j <> i.
Proof.
  intros [Hr Hd Hm Hn Hi Hg Ej (s0 & Hs0 & _) Hl _ _ _ _]. pose proof (lookup_lt_Some _ _ _ Hs0) as Hlt.
  destruct (find_free_spec (tail fs) 1) as (k & Ek & _ & _ & Hfree). rewrite <- Ej in Ek. split; [lia|]. intros <-.
  destruct Hd. destruct fs as [|f0 fs]; [done|]. cbn [tail] in Hfree. rewrite Ek in df_file.
  replace (Z.to_nat (1 + Z.of_nat k)) with (Datatypes.S k) in df_file by lia. cbn [lookup list_lookup] in df_file.
  rewrite (Hfree _ df_file) in df_alloc. done.
Qed.

(** The state before the insertion. *)
Lemma created_state t t1 fs i j s ents m name N N1 : create_ok t fs i j s ents m name N ->
  rep t1 (<[Z.to_nat j:=SFile true uid P_FILE_DEFAULT (dir_bytes (dot_entries junk (Fid fsvr j) (Fid fsvr i)))]> fs) N1 ->
  exists others, dir_state (FileService0 := F0) fsvr i (sf_uid s) (sf_mode s) others (Some t1) m (length ents) N1 /\
    others (Z.to_nat j) = Some (SFile true uid P_FILE_DEFAULT (dir_bytes (dot_entries junk (Fid fsvr j) (Fid fsvr i)))).
Proof.
  intros H Hr1. destruct (create_range _ _ _ _ _ _ _ _ _ H) as [Hj Hji].
  destruct H as [Hr Hd Hm Hn Hi Hg Ej (s0 & Hs0 & _) Hl _ _ _ _]. pose proof (lookup_lt_Some _ _ _ Hs0) as Hlt. set (s1 := SFile _ _ _ _) in *.
  exists (fun k => <[Z.to_nat j:=s1]> fs !! k). split; [|by apply list_lookup_insert_eq].
  exists t1, (<[Z.to_nat j:=s1]> fs), s, ents, N1. split; [done|]. split; [done|]. split; [by apply Hrep|].
  destruct Hd. unfold is_u32 in Hi. split; [|done]. split; try done.
  - rewrite list_lookup_insert_ne by lia. done.
  - by rewrite length_insert.
Qed.

Lemma dir_create_ok t fs i j s ents m name pfid N : create_ok t fs i j s ents m name N ->
  let self := Fid fsvr j in
  let ok := perm (sf_uid s) (sf_mode s) uid P_FILE_OWNER_WRITE P_FILE_OTHER_WRITE && bool_decide (m !! name = None) in
  let n := (N - (2 * cost + (reads (length ents) + 2) * fsv_cost (FileService := F0)))%nat in
  wp (@dir_create _ world junk dsvr (Fid fsvr i) name pfid) (Some t) (fun x t' =>
    x = (if ok then (true, self) else (false, pfid)) /\
    (exists others, dir_state (FileService0 := F0) fsvr i (sf_uid s) (sf_mode s) others t' (if ok then <[name:=self]> m else m) (length ents + 1) n) /\
    (exists others, dir_state (FileService0 := F0) fsvr j uid P_FILE_DEFAULT others t' (dot_map self (Fid fsvr i)) 2 n)).
Proof.
  intros H self ok n. destruct (create_range _ _ _ _ _ _ _ _ _ H) as [Hj Hji]. pose proof H as H0.
  destruct H0 as [Hr Hd Hm Hn Hi Hg Ej (s0 & Hs0 & Hd0) Hl Hgj Hfuel Hmax HN]. pose proof (lookup_lt_Some _ _ _ Hs0) as Hlt.
  assert (fid_wf self) as Hself by (split; [exact Hfsvr|split; cbn; lia]). assert (fid_wf (Fid fsvr i)) as Hpar by (by split).
  pose proof (dot_entries_wf junk Hjunk self (Fid fsvr i) Hself Hpar) as Hw.
  set (data := dir_bytes (dot_entries junk self (Fid fsvr i))).
  assert (length data = 64%nat) as Hdata by (unfold data; by rewrite length_dir_bytes by exact Hw).
  unfold dir_create, dir_create2. cbn [fid_server fid_file_no]. cbv zeta. step. eapply wp_mono.
  { rewrite Ej in Hs0, Hgj. apply (world_create_ok P_FILE_DEFAULT t fs s0 N Hr); [done|exact Hs0|exact Hgj|lia]. }
  rewrite <- Ej. intros x t0 (-> & t1 & -> & Hr1). cbn [fst snd]. rewrite decide_False by done. step. rewrite Hd0 in Hr1.
  match goal with |- context [file_write _ _ _ ?d _] => change d with (de_bytes (DirEntry self (dot_name ++ [Init.Byte.x00] ++ junk 18%nat)) ++
    de_bytes (DirEntry (Fid fsvr i) (dotdot_name ++ [Init.Byte.x00] ++ junk 17%nat))) end.
  replace (de_bytes (DirEntry self (dot_name ++ [Init.Byte.x00] ++ junk 18%nat)) ++ de_bytes (DirEntry (Fid fsvr i) (dotdot_name ++ [Init.Byte.x00] ++ junk 17%nat)))
    with data by (unfold data, dir_bytes; cbn [dot_entries fmap list_fmap concat]; by rewrite app_nil_r).
  replace (Z.of_nat (2 * DIR_ENTRY_SIZE)) with (Z.of_nat (length data)) by (by rewrite Hdata).
  assert (PAGESIZE = Z.to_nat 16384) as EP by done. assert (max_file_size = 2 ^ 30) as EM by done.
  eapply wp_mono.
  { eapply (world_write_ok j data t1 _ (SFile true uid P_FILE_DEFAULT []) (N - cost) Hr1);
      [by apply list_lookup_insert_eq|reflexivity| |exact Hgj|rewrite length_insert; lia|lia|lia|lia].
    unfold may_write, write_allowed. cbn. repeat case_decide; done. }
  intros r t2 (-> & t3 & -> & Hr3). cbn [sf_uid sf_mode] in Hr3. rewrite list_insert_insert_eq in Hr3.
  destruct (created_state _ t3 _ _ _ _ _ _ _ _ _ H Hr3) as (others & Hst & Hoth).
  step. apply wp_assert; [done|]. step. eapply wp_mono.
  { eapply (world_insert_ok i _ _ others (Some t3) m (length ents) _ name self Hn Hself Hi Hg Hst Hfuel Hmax). lia. }
  intros r t4 [-> Hst4]. step. fold ok in Hst4 |- *. split; [by destruct ok|].
  assert (N - cost - cost - (reads (length ents) + 2) * fsv_cost (FileService := F0) = n)%nat as En by (unfold n; lia).
  rewrite En in Hst4. split; [by exists others|].
  apply (dir_state_other (FileService0 := F0) fsvr i _ _ others t4 _ _ n j (SFile true uid P_FILE_DEFAULT data)
    (dot_entries junk self (Fid fsvr i)) (dot_map self (Fid fsvr i)) Hst4);
    [lia|done|unfold is_u32 in Hi; lia|exact Hoth|done|done|exact Hw|cbn; lia|by apply dot_entries_map].
Qed.
End create.

(** * Property *)

(** C9. Making a directory, for a client that calls the file server and the
    directory server: the new directory is stored in the first free file, belongs to
    the user, and names itself and its parent; the parent gets it as an entry, and
    keeps the others. When the user may not write the parent, or the name is taken,
    the call fails, the parent is as before, and the new directory stays behind, with
    no name. *)
Theorem dir_create_makes_directory {T} {files root : Rpc T} (fsvr dsvr uid : Z)
    {F0 : FileService root fsvr 0} {Fu : FileService files fsvr uid}
    (fuel : nat) (junk : nat -> message) (t : T) (fs : list sfile) (i j : Z) (s : sfile) (ents : list dir_entry)
    (m : gmap message fid) (name : message) (pfid : fid) (N : nat) :
  (forall t fs n, fsv_rep (FileService := Fu) t fs n <-> fsv_rep (FileService := F0) t fs n) ->
  fsvr <> dsvr -> is_u32 fsvr -> (forall n, length (junk n) = n) ->
  create_ok fsvr uid (F0 := F0) (Fu := Fu) fuel t fs i j s ents m name N ->
  let self := Fid fsvr j in
  let ok := perm (sf_uid s) (sf_mode s) uid P_FILE_OWNER_WRITE P_FILE_OTHER_WRITE && bool_decide (m !! name = None) in
  wp (@dir_create _ (two_servers files root fuel uid dsvr) junk dsvr (Fid fsvr i) name pfid) (Some t) (fun x t' =>
    x = (if ok then (true, self) else (false, pfid)) /\
    (exists others n, dir_state (FileService0 := F0) fsvr i (sf_uid s) (sf_mode s) others t' (if ok then <[name:=self]> m else m) (length ents + 1) n) /\
    (exists others n, dir_state (FileService0 := F0) fsvr j uid P_FILE_DEFAULT others t' (dot_map self (Fid fsvr i)) 2 n)).
Proof.
  intros Hrep Hne Hf Hj H self ok. eapply wp_mono; [exact (dir_create_ok fsvr dsvr uid Hrep fuel Hne Hf junk Hj t fs i j s ents m name pfid N H)|].
  intros x t' (-> & [o1 H1] & [o2 H2]). split; [done|].
  split; [exists o1; eexists; exact H1|exists o2; eexists; exact H2].
Qed.

Lemma wit_user_service : FileService (ramfile_server 3 0 (fun n => replicate n Init.Byte.xff) 7) 5 7.
Proof. refine (ramfile_service 3 0 7 (fun n => replicate n Init.Byte.xff) _ _ _ 5); [done|done|intros n; apply length_replicate]. Defined.

(** User 7 makes a directory in a directory of root that all may write. *)
Lemma dir_create_makes_directory_witness :
  let user := ramfile_server 3 0 (fun n => replicate n Init.Byte.xff) 7 in
  wp (@file_create _ wit_ram 5 3 0) (ramfile_init 0 0) (fun x t =>
    wp (@dir_create _ (two_servers user wit_ram 1 7 8) (fun n => replicate n Init.Byte.xfe) 8 (Fid 5 1) [Init.Byte.x61] (Fid 0 0)) (Some t)
      (fun x t' => x = (true, Fid 5 2) /\
        (exists others n, dir_state (FileService0 := wit_ram_service) 5 1 0 3 others t' {[ [Init.Byte.x61] := Fid 5 2 ]} 1 n) /\
        (exists others n, dir_state (FileService0 := wit_ram_service) 5 2 7 P_FILE_DEFAULT others t' (dot_map (Fid 5 2) (Fid 5 1)) 2 n))).
Proof.
  intros user. set (fs1 := <[1%nat:=SFile true 0 3 []]> ram_start).
  assert (forall n, ram_rep (ramfile_init 0 0) ram_start n) as H0 by (intros n; by apply ram_start_rep).
  pose proof (fsv_op (FileService := wit_ram_service) (ramfile_init 0 0) ram_start 0 (FileCreate 3) (H0 0%nat)) as H.
  cbn [exec_file_op valid_file_op] in H. specialize (H ltac:(split; [lia|intros; exact I]) (le_n 0)). apply wp_bind_inv in H.
  eapply wp_mono; [exact H|]. intros x t Hx. unfold wp in Hx. cbn in Hx. destruct Hx as [_ Hr].
  eapply wp_mono.
  - apply (dir_create_makes_directory (F0 := wit_ram_service) (Fu := wit_user_service) 5 8 7 1 (fun n => replicate n Init.Byte.xfe)
      t fs1 1 2 (SFile true 0 3 []) [] ∅ [Init.Byte.x61] (Fid 0 0) 0); [done|done|done|intros n; apply length_replicate|].
    split; [exact Hr|split; done || constructor|apply dir_map_empty|split; [cbn; unfold DIR_NAME_SIZE; lia|by constructor]
      |done|exact I|reflexivity|by exists (SFile false 0 0 [])|done|exact I|apply le_n|done|exact (le_n 0)].
  - intros y t' H'. exact H'.
Defined.
