(* ===== verification/Tty.v ===== *)
(** src/src/grass/ttysvr.c: the terminal server. Characters arrive by interrupts, requests
    of clients by messages; lines that were typed wait for readers, readers for lines. *)
From stdpp Require Import base numbers list.
From Stdlib Require Import ZArith Lia.
From S2P Require Import Prelude Memory BlockStore BlockProt FileProt.

Abbreviation text := (list Init.Byte.byte).

(** * The state *)

Definition FILE_ECHO : Z := 1.
Definition P_FILE_ALL : Z := Z.lor (Z.lor (Z.lor P_FILE_OWNER_READ P_FILE_OWNER_WRITE) P_FILE_OTHER_READ) P_FILE_OTHER_WRITE.
Definition STAT_INTR : Z := -3.

Record tty_request := TtyRequest { tr_src : Z; tr_size : Z }.

(** What the server does to the rest of the system: the messages that the three ways to
    reply send, what it prints on the console, what it writes to the device, and its
    calls to the kernel. *)
Inductive tty_effect :=
  | Respond (dst status : Z) (data : text)
  | Handed (dst : Z) (data : text)
  | Stat (dst : Z)
  | Printed (data : text)
  | Device (ino : Z) (data : text)
  | KillAll (status : Z)
  | DumpProcs
  | ShutDown.

(** The contents of a message. *)
Definition effect_message (e : tty_effect) : option (Z * message) :=
  match e with
  | Respond dst status data => Some (dst, reply_bytes (FileReply status 0 0 (st_set_size (Z.of_nat (length data)) zero_fcb)) ++ data)
  | Handed dst data => Some (dst, reply_bytes (FileReply FILE_OK 0 0 zero_fcb) ++ data)
  | Stat dst => Some (dst, reply_bytes (FileReply FILE_OK 0 FILE_STAT (st_set_mode P_FILE_ALL zero_fcb)))
  | _ => None
  end.

(** A [struct input] is its text; [ts_trace] is what was done so far. *)
Record tty_state := TtyState {
  ts_buf : text;
  ts_requests : list tty_request;
  ts_inputs : list text;
  ts_flags : Z;
  ts_trace : list tty_effect;
}.

Abbreviation st := tty_state.

Definition set_buf (b : text) (s : st) : st := TtyState b (ts_requests s) (ts_inputs s) (ts_flags s) (ts_trace s).
Definition set_requests (l : list tty_request) (s : st) : st := TtyState (ts_buf s) l (ts_inputs s) (ts_flags s) (ts_trace s).
Definition set_inputs (l : list text) (s : st) : st := TtyState (ts_buf s) (ts_requests s) l (ts_flags s) (ts_trace s).
Definition set_flags (f : Z) (s : st) : st := TtyState (ts_buf s) (ts_requests s) (ts_inputs s) f (ts_trace s).
Definition add_effect (e : tty_effect) (s : st) : st := TtyState (ts_buf s) (ts_requests s) (ts_inputs s) (ts_flags s) (ts_trace s ++ [e]).

Definition emit (e : tty_effect) : M st unit := modify (add_effect e).

(** * Handlers *)

Definition tty_respond (src status : Z) (data : text) : M st unit := emit (Respond src status data).

(** What the reader has no room for goes back to the front of the queue. *)
Definition tty_handle (tr : tty_request) (buf : text) : M st unit :=
  let n := Z.of_nat (length buf) in
  let n := if decide (n > tr_size tr) then tr_size tr else n in
  emit (Handed (tr_src tr) (take (Z.to_nat n) buf));;
  if decide (n < Z.of_nat (length buf)) then modify (fun s => set_inputs (drop (Z.to_nat n) buf :: ts_inputs s) s) else mret tt.

Definition LF : Init.Byte.byte := Init.Byte.x0a.
Definition CR : Init.Byte.byte := Init.Byte.x0d.
Definition CTRL_C : Init.Byte.byte := Init.Byte.x03.
Definition CTRL_D : Init.Byte.byte := Init.Byte.x04.
Definition CTRL_H : Init.Byte.byte := Init.Byte.x08.
Definition CTRL_L : Init.Byte.byte := Init.Byte.x0c.
Definition CTRL_Q : Init.Byte.byte := Init.Byte.x11.
Definition DEL : Init.Byte.byte := Init.Byte.x7f.

(** [queue_add(&ts->inputs, ts->buf)] and a new buffer. *)
Definition end_of_line : M st unit := modify (fun s => set_buf [] (set_inputs (ts_inputs s ++ [ts_buf s]) s)).

(** One character of the loop of [tty_deliver]. [killed] says whether the process that
    runs, whose stack the handler uses, is one that [proc_kill] ends; then the call does
    not return, and the result is [false]. *)
Definition tty_char (killed : bool) (c : Init.Byte.byte) : M st bool :=
  if decide (c = CTRL_C) then
    emit (Printed [Init.Byte.x3c; Init.Byte.x63; Init.Byte.x74; Init.Byte.x72; Init.Byte.x6c; Init.Byte.x3e; Init.Byte.x43; LF]);;
    emit (KillAll STAT_INTR);;
    mret (negb killed)
  else if decide (c = CTRL_D) then end_of_line;; mret true
  else if decide (c = CTRL_H \/ c = DEL) then
    s ← get;
    (if decide (ts_buf s <> []) then
       put (set_buf (take (length (ts_buf s) - 1) (ts_buf s)) s);;
       emit (Printed [Init.Byte.x08; Init.Byte.x20; Init.Byte.x08])
     else mret tt);;
    mret true
  else if decide (c = CTRL_L) then emit DumpProcs;; mret true
  else if decide (c = CTRL_Q) then emit ShutDown;; mret true
  else
    let c := if decide (c = CR) then LF else c in
    s ← get;
    (if decide (Z.land (ts_flags s) FILE_ECHO <> 0) then emit (Printed [c]) else mret tt);;
    (if decide (c = LF) then emit (Printed [CR]) else mret tt);;
    modify (fun s => set_buf (ts_buf s ++ [c]) s);;
    (if decide (c = LF) then end_of_line else mret tt);;
    mret true.

Fixpoint tty_chars (killed : bool) (buf : text) : M st bool :=
  match buf with
  | [] => mret true
  | c :: buf => ok ← tty_char killed c; if ok : bool then tty_chars killed buf else mret false
  end.

Definition tty_deliver (killed : bool) (buf : text) : M st unit :=
  ok ← tty_chars killed buf;
  if negb ok then mret tt else
  s ← get;
  match ts_inputs s, ts_requests s with
  | input :: inputs, tr :: requests => put (set_requests requests (set_inputs inputs s));; tty_handle tr input
  | _, _ => mret tt
  end.

Definition tty_read (req : file_request) (src : Z) : M st unit :=
  if decide (fr_file_no req <> 0) then tty_respond src FILE_ERROR [] else
  modify (fun s => set_requests (ts_requests s ++ [TtyRequest src (fr_size req)]) s);;
  s ← get;
  match ts_inputs s, ts_requests s with
  | input :: inputs, tr :: requests => put (set_requests requests (set_inputs inputs s));; tty_handle tr input
  | _, _ => mret tt
  end.

Fixpoint tty_write_loop (ino : Z) (data : text) : M st unit :=
  match data with
  | [] => mret tt
  | c :: data => emit (Device ino [c]);; (if decide (c = LF) then emit (Device ino [CR]) else mret tt);; tty_write_loop ino data
  end.

Definition tty_write (req : file_request) (src : Z) (data : text) : M st unit :=
  if decide (fr_file_no req <> 1 /\ fr_file_no req <> 2) then tty_respond src FILE_ERROR [] else
  if decide (fr_size req <> Z.of_nat (length data)) then tty_respond src FILE_ERROR [] else
  tty_write_loop (fr_file_no req) data;;
  tty_respond src FILE_OK [].

Definition tty_sync (src : Z) : M st unit := tty_respond src FILE_OK [].

Definition tty_do_stat (src : Z) : M st unit := emit (Stat src).

Definition tty_set_flags (req : file_request) (src : Z) : M st unit :=
  modify (set_flags (fr_offset req));;
  tty_respond src FILE_OK [].

(** One round of [tty_proc]. The room for the message is that of a pointer and a page,
    not that of a request and a page. *)
Definition sizeof_pointer : nat := 8.

Definition tty_proc_round (msg : message) (src : Z) : M st unit :=
  let msg := take (sizeof_pointer + PAGESIZE) msg in
  assert_ (bool_decide (sizeof_file_request <= length msg)%nat);;
  let req := request_of msg in
  let type := fr_type req in
  if decide (type = FILE_READ) then tty_read req src else
  if decide (type = FILE_WRITE) then tty_write req src (drop sizeof_file_request msg) else
  if decide (type = FILE_SYNC) then tty_sync src else
  if decide (type = FILE_STAT) then tty_do_stat src else
  if decide (type = FILE_SET_FLAGS) then tty_set_flags req src else
  tty_respond src FILE_ERROR [].

(** The start of [tty_proc]. *)
Definition tty_start : st := TtyState [] [] [] 0 [].

(** Interrupts and messages, as they come. *)
Inductive tty_event :=
  | Typed (killed : bool) (chunk : text)
  | Request (src : Z) (msg : message).

Definition tty_step (e : tty_event) : M st unit :=
  match e with
  | Typed killed chunk => tty_deliver killed chunk
  | Request src msg => tty_proc_round msg src
  end.

Fixpoint tty_run (l : list tty_event) : M st unit :=
  match l with
  | [] => mret tt
  | e :: l => tty_step e;; tty_run l
  end.

(** * Lines *)

(** The characters of a chunk that are handled: those after a <ctrl>C that ends the process
    whose stack the handler uses are dropped by the code. *)
Fixpoint heard (killed : bool) (chunk : text) : text :=
  match chunk with
  | [] => []
  | c :: chunk => c :: if decide (c = CTRL_C) then if killed then [] else heard killed chunk else heard killed chunk
  end.

Definition is_eol (c : Init.Byte.byte) : bool := bool_decide (c = LF \/ c = CR).
Definition is_erase (c : Init.Byte.byte) : bool := bool_decide (c = CTRL_H \/ c = DEL).
Definition is_control (c : Init.Byte.byte) : bool := bool_decide (c = CTRL_C \/ c = CTRL_L \/ c = CTRL_Q).

(** What typing gives: the lines that are complete, and the line that is typed. *)
Definition edit_char (p : list text * text) (c : Init.Byte.byte) : list text * text :=
  let '(ls, cur) := p in
  if decide (c = CTRL_D) then (ls ++ [cur], []) else
  if is_erase c then (ls, take (length cur - 1) cur) else
  if is_control c then p else
  if is_eol c then (ls ++ [cur ++ [LF]], []) else (ls, cur ++ [c]).

Definition edit (t : text) : list text * text := foldl edit_char ([], []) t.

(** Lines dealt out to readers with room for so many bytes; [None] when there are too
    few. *)
Fixpoint deal (sizes : list Z) (lines : list text) : option (list text * list text) :=
  match sizes with
  | [] => Some ([], lines)
  | n :: sizes =>
      match lines with
      | [] => None
      | l :: lines =>
          '(pieces, rest) ← deal sizes (if decide (Z.to_nat n < length l)%nat then drop (Z.to_nat n) l :: lines else lines);
          Some (take (Z.to_nat n) l :: pieces, rest)
      end
  end.

(** What is read of a terminal, of all that happens. *)
Definition reads_of (e : tty_event) : list tty_request :=
  match e with
  | Typed _ _ => []
  | Request src msg =>
      let req := request_of (take (sizeof_pointer + PAGESIZE) msg) in
      if decide (fr_type req = FILE_READ /\ fr_file_no req = 0) then [TtyRequest src (fr_size req)] else []
  end.

Definition text_of (e : tty_event) : text := match e with Typed killed chunk => heard killed chunk | Request _ _ => [] end.

Definition handed (l : list tty_effect) : list (Z * text) := omap (fun e => match e with Handed dst data => Some (dst, data) | _ => None end) l.
