(* ===== verification/TtyProps.v ===== *)
(** What the terminal server promises: what is typed reaches the readers in order, none of
    it lost, twice or across lines. *)
From stdpp Require Import base numbers list.
From Stdlib Require Import ZArith Lia.
From S2P Require Import Prelude Memory BlockStore BlockProt FileProt Tty.

Abbreviation st := tty_state.

(** * Dealing out lines *)

Lemma deal_more ns : forall ls p r more, deal ns ls = Some (p, r) -> deal ns (ls ++ more) = Some (p, r ++ more).
Proof.
  induction ns as [|n ns IH]; intros ls p r more; cbn [deal]; [by intros [= <- <-]|]. destruct ls as [|l ls]; [done|]. cbn [app].
  rewrite !bind_Some. intros ([p' r'] & Hd & E). injection E as <- <-. exists (p', r' ++ more). split; [|done].
  destruct (decide _); [apply (IH (_ :: _) _ _ _ Hd)|by apply IH].
Qed.

(** One more reader. *)
Lemma deal_snoc ns n l : forall ls p r, deal ns ls = Some (p, l :: r) ->
  deal (ns ++ [n]) ls = Some (p ++ [take (Z.to_nat n) l], if decide (Z.to_nat n < length l)%nat then drop (Z.to_nat n) l :: r else r).
Proof.
  induction ns as [|m ns IH]; intros ls p r; cbn [deal app].
  - intros [= <- ->]. cbn. by destruct (decide _).
  - destruct ls as [|l0 ls]; [done|]. rewrite !bind_Some. intros ([p' r'] & Hd & E). injection E as <- ->. eexists. split; [by apply IH|]. done.
Qed.

(** All the bytes of the lines are dealt out, or left. *)
Lemma deal_concat ns : forall ls p r, deal ns ls = Some (p, r) -> concat p ++ concat r = concat ls.
Proof.
  induction ns as [|n ns IH]; intros ls p r; cbn [deal]; [by intros [= <- <-]|]. destruct ls as [|l ls]; [done|].
  rewrite bind_Some. intros ([p' r'] & Hd & E). injection E as <- <-. cbn [concat]. apply IH in Hd. rewrite <- app_assoc, Hd.
  destruct (decide _) as [|Hn]; [cbn [concat]; by rewrite app_assoc, take_drop|]. by rewrite take_ge by lia.
Qed.

Lemma deal_length ns : forall ls p r, deal ns ls = Some (p, r) -> length p = length ns.
Proof.
  induction ns as [|n ns IH]; intros ls p r; cbn [deal]; [by intros [= <- <-]|]. destruct ls as [|l ls]; [done|].
  rewrite bind_Some. intros ([p' r'] & Hd & E). injection E as <- <-. cbn. f_equal. by eapply IH.
Qed.

(** * Typing *)

Lemma edit_app t u : edit (t ++ u) = foldl edit_char (edit t) u.
Proof. unfold edit. apply foldl_app. Qed.

(** Text without control characters is cut at the ends of its lines. *)
Definition plain (c : Init.Byte.byte) : Prop := c <> CTRL_D /\ is_erase c = false /\ is_control c = false.

Lemma edit_line ls cur l : Forall (fun c => plain c /\ is_eol c = false) l -> foldl edit_char (ls, cur) (l ++ [LF]) = (ls ++ [cur ++ l ++ [LF]], []).
Proof.
  intros H. revert cur. induction H as [|c l [(Hd & He & Hc) Hn] H IH]; intros cur; cbn [foldl app].
  - reflexivity.
  - replace (edit_char (ls, cur) c) with (ls, cur ++ [c]); [by rewrite IH, <- app_assoc|]. unfold edit_char. rewrite decide_False by done. by rewrite He, Hc, Hn.
Qed.

(** An erased character might not have been typed. *)
Lemma edit_erased p c : plain c -> is_eol c = false -> edit_char (edit_char p c) DEL = p.
Proof.
  intros (Hd & He & Hc) Hn. destruct p as [ls cur]. unfold edit_char at 2. rewrite decide_False by done. rewrite He, Hc, Hn. unfold edit_char.
  rewrite decide_False by done. replace (is_erase DEL) with true by done. rewrite length_app. cbn [length]. by rewrite Nat.add_sub, take_app_length.
Qed.

(** * One character *)

(** The state after typing which completed the lines [new]. *)
Record typed (s : st) (new : list text) (cur : text) (s' : st) : Prop := {
  ty_buf : ts_buf s' = cur;
  ty_inputs : ts_inputs s' = ts_inputs s ++ new;
  ty_requests : ts_requests s' = ts_requests s;
  ty_handed : handed (ts_trace s') = handed (ts_trace s);
}.

Lemma handed_app l e : handed (l ++ [e]) = handed l ++ match e with Handed dst data => [(dst, data)] | _ => [] end.
Proof. unfold handed. rewrite omap_app. by destruct e. Qed.

Ltac typed_solve := split; cbn [set_buf set_inputs add_effect ts_buf ts_inputs ts_requests ts_trace]; rewrite ?handed_app, ?app_nil_r; done.

Lemma tty_char_ok killed c s : exists new cur, (forall ls, edit_char (ls, ts_buf s) c = (ls ++ new, cur)) /\
  wp (tty_char killed c) s (fun ok s' => ok = negb (killed && bool_decide (c = CTRL_C)) /\ typed s new cur s').
Proof.
  unfold tty_char, edit_char. destruct (decide (c = CTRL_C)) as [->|HC].
  { exists [], (ts_buf s). split; [intros ls; by rewrite app_nil_r|]. steps. split; [by rewrite bool_decide_true, andb_true_r|typed_solve]. }
  rewrite bool_decide_false by done. rewrite andb_false_r. cbn [negb]. destruct (decide (c = CTRL_D)) as [->|HD].
  { exists [ts_buf s], []. split; [done|]. unfold end_of_line. steps. split; [done|typed_solve]. }
  unfold is_erase. destruct (decide (c = CTRL_H \/ c = DEL)) as [He|He].
  { exists [], (take (length (ts_buf s) - 1) (ts_buf s)). rewrite bool_decide_true by done. split; [intros ls; by rewrite app_nil_r|]. steps.
    destruct (decide (ts_buf s <> [])) as [Hb|Hb]; steps; (split; [done|]); [typed_solve|]. destruct (ts_buf s) eqn:E; [|exfalso; by apply Hb]. typed_solve. }
  rewrite bool_decide_false by done. unfold is_control. destruct (decide (c = CTRL_L)) as [->|HL].
  { exists [], (ts_buf s). split; [intros ls; by rewrite app_nil_r|]. unfold emit. steps. split; [done|typed_solve]. }
  destruct (decide (c = CTRL_Q)) as [->|HQ].
  { exists [], (ts_buf s). split; [intros ls; by rewrite app_nil_r|]. unfold emit. steps. split; [done|typed_solve]. }
  rewrite bool_decide_false by tauto. unfold is_eol, emit, end_of_line. destruct (decide (c = CR)) as [->|HR].
  { exists [ts_buf s ++ [LF]], []. rewrite bool_decide_true by tauto. split; [done|]. steps. destruct (decide (Z.land _ _ <> 0)); steps; (split; [done|typed_solve]). }
  destruct (decide (c = LF)) as [->|HF].
  { exists [ts_buf s ++ [LF]], []. rewrite bool_decide_true by tauto. split; [done|]. steps. destruct (decide (Z.land _ _ <> 0)); steps; (split; [done|typed_solve]). }
  exists [], (ts_buf s ++ [c]). rewrite bool_decide_false by tauto. split; [intros ls; by rewrite app_nil_r|]. steps.
  destruct (decide (Z.land _ _ <> 0)); steps; (split; [done|typed_solve]).
Qed.

Lemma tty_chars_ok killed buf : forall s, exists new cur, (forall ls, foldl edit_char (ls, ts_buf s) (heard killed buf) = (ls ++ new, cur)) /\
  wp (tty_chars killed buf) s (fun ok s' => ok = negb (killed && bool_decide (CTRL_C ∈ buf)) /\ typed s new cur s').
Proof.
  induction buf as [|c buf IH]; intros s; cbn [tty_chars heard foldl].
  { exists [], (ts_buf s). split; [intros ls; by rewrite app_nil_r|]. steps. rewrite bool_decide_false by (apply not_elem_of_nil). rewrite andb_false_r. split; [done|typed_solve]. }
  destruct (tty_char_ok killed c s) as (new & cur & Hed & Hch). apply wp_Ret in Hch as (ok & s1 & Hr & Hok & T).
  destruct (IH s1) as (new1 & cur1 & Hed1 & Hch1). rewrite (ty_buf _ _ _ _ T) in Hed1.
  assert (forall s2, typed s1 new1 cur1 s2 -> typed s (new ++ new1) cur1 s2) as Htr.
  { intros s2 [T1 T2 T3 T4]. destruct T as [U1 U2 U3 U4]. split; [done|by rewrite T2, U2, app_assoc|congruence|congruence]. }
  destruct (decide (c = CTRL_C)) as [->|HC]; [destruct killed|].
  - exists new, cur. split; [intros ls; cbn [foldl]; apply Hed|]. step. eapply Ret_wp; [exact Hr|]. subst ok. cbn [andb negb bool_decide].
    rewrite (bool_decide_true (CTRL_C ∈ CTRL_C :: buf)) by by left. by steps.
  - exists (new ++ new1), cur1. split; [intros ls; rewrite Hed, Hed1, app_assoc; done|]. step. eapply Ret_wp; [exact Hr|]. subst ok. cbn [andb negb].
    eapply wp_mono; [exact Hch1|]. intros b s2 [-> T2]. split; [done|by apply Htr].
  - exists (new ++ new1), cur1. split; [intros ls; rewrite Hed, Hed1, app_assoc; done|]. step. eapply Ret_wp; [exact Hr|]. subst ok.
    rewrite bool_decide_false, andb_false_r by done. cbn [negb]. eapply wp_mono; [exact Hch1|]. intros b s2 [-> T2]. split; [|by apply Htr].
    do 2 f_equal. apply bool_decide_ext. rewrite elem_of_cons. split; [tauto|]. by intros [E|].
Qed.

(** * The abstract terminal *)

(** Lines that wait, the line that is typed, readers that wait, and what readers got. *)
Record terminal := Terminal {
  tm_lines : list text;
  tm_cur : text;
  tm_readers : list tty_request;
  tm_given : list (Z * text);
}.

Definition terminal_start : terminal := Terminal [] [] [] [].

(** The oldest reader gets what it has room for of the oldest line. *)
Definition serve (a : terminal) : terminal :=
  match tm_lines a, tm_readers a with
  | l :: ls, r :: rs =>
      let n := Z.to_nat (tr_size r) in
      Terminal (if decide (n < length l)%nat then drop n l :: ls else ls) (tm_cur a) rs (tm_given a ++ [(tr_src r, take n l)])
  | _, _ => a
  end.

Definition type_in (t : text) (a : terminal) : terminal :=
  let p := foldl edit_char (tm_lines a, tm_cur a) t in Terminal p.1 p.2 (tm_readers a) (tm_given a).

Definition add_readers (l : list tty_request) (a : terminal) : terminal :=
  Terminal (tm_lines a) (tm_cur a) (tm_readers a ++ l) (tm_given a).

(** The interrupt handler does not come back from a <ctrl>C that ends the process that it
    interrupted. *)
Definition cut (e : tty_event) : bool :=
  match e with Typed killed chunk => killed && bool_decide (CTRL_C ∈ chunk) | Request _ _ => false end.

Definition terminal_step (a : terminal) (e : tty_event) : terminal :=
  match e with
  | Typed _ _ => let a := type_in (text_of e) a in if cut e then a else serve a
  | Request _ _ => match reads_of e with [] => a | l => serve (add_readers l a) end
  end.

Definition terminal_after (l : list tty_event) : terminal := foldl terminal_step terminal_start l.

(** ** All that is typed is dealt out in order, or kept *)

Record term_inv (a : terminal) (t : text) (reads : list tty_request) : Prop := {
  ti_cur : tm_cur a = (edit t).2;
  ti_sources : map fst (tm_given a) ++ map tr_src (tm_readers a) = map tr_src reads;
  ti_readers : tm_readers a = drop (length (tm_given a)) reads;
  ti_deal : deal (map tr_size (take (length (tm_given a)) reads)) (edit t).1 = Some (map snd (tm_given a), tm_lines a);
}.

Lemma inv_given a t reads : term_inv a t reads -> (length (tm_given a) <= length reads)%nat.
Proof. intros [_ H _ _]. apply (f_equal length) in H. rewrite length_app, !length_map in H. lia. Qed.

Lemma inv_serve a t reads : term_inv a t reads -> term_inv (serve a) t reads.
Proof.
  intros H. pose proof (inv_given a t reads H) as Hle. destruct H as [I1 I2 I3 I4]. unfold serve.
  destruct (tm_lines a) as [|l ls] eqn:El; [by split; rewrite ?El|]. destruct (tm_readers a) as [|r rs] eqn:Er; [by split; rewrite ?El, ?Er|].
  assert (reads !! length (tm_given a) = Some r /\ drop (S (length (tm_given a))) reads = rs) as [Hk Hd].
  { pose proof (lookup_drop reads (length (tm_given a)) 0) as Hl. rewrite <- I3, Nat.add_0_r in Hl. split; [by rewrite <- Hl|].
    replace (S (length (tm_given a))) with (length (tm_given a) + 1)%nat by lia. by rewrite <- drop_drop, <- I3. }
  apply deal_snoc with (n := tr_size r) in I4. split; cbn [tm_cur tm_given tm_readers tm_lines]; rewrite ?length_app; cbn [length]; rewrite ?Nat.add_1_r.
  - done.
  - rewrite map_app. cbn [map fst] in *. by rewrite <- app_assoc.
  - done.
  - rewrite (take_S_r _ _ _ Hk), !map_app. exact I4.
Qed.

Lemma foldl_edit t : forall ls cur, exists new cur', (forall ls0, foldl edit_char (ls0 ++ ls, cur) t = (ls0 ++ ls ++ new, cur')).
Proof.
  induction t as [|c t IH]; intros ls cur; cbn [foldl]; [exists [], cur; intros ls0; by rewrite app_nil_r|].
  assert (exists new cur', forall ls0, edit_char (ls0 ++ ls, cur) c = (ls0 ++ ls ++ new, cur')) as (n1 & c1 & E1).
  { unfold edit_char. destruct (decide _); [exists [cur], []; intros; by rewrite app_assoc|]. destruct (is_erase c); [exists [], (take (length cur - 1) cur); intros; by rewrite app_nil_r|].
    destruct (is_control c); [exists [], cur; intros; by rewrite app_nil_r|]. destruct (is_eol c); [exists [cur ++ [LF]], []; intros; by rewrite app_assoc|].
    exists [], (cur ++ [c]). intros. by rewrite app_nil_r. }
  destruct (IH (ls ++ n1) c1) as (n2 & c2 & E2). exists (n1 ++ n2), c2. intros ls0. by rewrite E1, E2, <- app_assoc.
Qed.

Lemma inv_type a t reads u : term_inv a t reads -> term_inv (type_in u a) (t ++ u) reads.
Proof.
  intros [I1 I2 I3 I4]. destruct (foldl_edit u [] (tm_cur a)) as (new & cur & E).
  assert (edit (t ++ u) = ((edit t).1 ++ new, cur)) as Ee.
  { rewrite edit_app. pose proof (E (edit t).1) as E1. rewrite app_nil_r, I1 in E1. cbn [app] in E1. rewrite <- E1. by destruct (edit t). }
  pose proof (E (tm_lines a)) as Ea. rewrite app_nil_r in Ea. cbn [app] in Ea.
  unfold type_in. rewrite Ea. split; cbn [tm_cur tm_given tm_readers tm_lines fst snd]; rewrite ?Ee; try done. by apply deal_more.
Qed.

Lemma inv_readers a t reads l : term_inv a t reads -> term_inv (add_readers l a) t (reads ++ l).
Proof.
  intros H. pose proof (inv_given a t reads H) as Hle. destruct H as [I1 I2 I3 I4]. split; cbn [add_readers tm_cur tm_given tm_readers tm_lines]; [done| | |].
  - by rewrite !map_app, app_assoc, I2.
  - by rewrite drop_app_le, I3 by done.
  - by rewrite take_app_le by done.
Qed.

Lemma inv_step a t reads e : term_inv a t reads -> term_inv (terminal_step a e) (t ++ text_of e) (reads ++ reads_of e).
Proof.
  intros H. destruct e as [killed chunk|src msg]; cbn [terminal_step].
  - cbn [reads_of]. rewrite app_nil_r. pose proof (inv_type a t reads (text_of (Typed killed chunk)) H) as H1. cbv zeta.
    destruct (cut _); [done|by apply inv_serve].
  - cbn [text_of]. rewrite app_nil_r. destruct (reads_of _) as [|r rs]; [by rewrite app_nil_r|]. by apply inv_serve, inv_readers.
Qed.

Lemma inv_run l : forall a t reads, term_inv a t reads -> term_inv (foldl terminal_step a l) (t ++ concat (map text_of l)) (reads ++ concat (map reads_of l)).
Proof.
  induction l as [|e l IH]; intros a t reads H; cbn [foldl map concat]; [by rewrite !app_nil_r|]. rewrite !app_assoc. by apply IH, inv_step.
Qed.

(** ** A reader that is alone does not wait for a line that is there *)

Fixpoint one_at_a_time (a : terminal) (l : list tty_event) : Prop :=
  match l with
  | [] => True
  | e :: l => (reads_of e <> [] -> tm_readers a = []) /\ cut e = false /\ one_at_a_time (terminal_step a e) l
  end.

Definition prompt (a : terminal) : Prop := (length (tm_readers a) <= 1)%nat /\ (tm_readers a = [] \/ tm_lines a = []).

Lemma prompt_serve a : (length (tm_readers a) <= 1)%nat -> prompt (serve a).
Proof.
  intros H. unfold prompt, serve. destruct (tm_lines a) as [|l ls] eqn:El; [rewrite El; tauto|]. destruct (tm_readers a) as [|r rs] eqn:Er; [rewrite Er; split; [cbn; lia|tauto]|].
  cbn [tm_readers length] in *. assert (rs = []) as -> by (by destruct rs; [|cbn in H; lia]). split; [cbn; lia|tauto].
Qed.

Lemma reads_of_one e : (length (reads_of e) <= 1)%nat.
Proof. destruct e as [killed chunk|src msg]; cbn [reads_of]; [cbn; lia|]. destruct (decide _); cbn; lia. Qed.

Lemma prompt_run l : forall a, prompt a -> one_at_a_time a l -> prompt (foldl terminal_step a l).
Proof.
  induction l as [|e l IH]; intros a [H1 H2] Hl; cbn [foldl one_at_a_time] in *; [by split|]. destruct Hl as (Hr & Hc & Hl). apply IH; [|done].
  destruct e as [killed chunk|src msg]; cbn [terminal_step].
  - rewrite Hc. cbv zeta. by apply prompt_serve.
  - pose proof (reads_of_one (Request src msg)) as Hone. destruct (reads_of (Request src msg)) as [|r rs] eqn:E; [by split|].
    apply prompt_serve. cbn [add_readers tm_readers]. rewrite Hr by done. exact Hone.
Qed.

(** * The server does what the abstract terminal does *)

Record shows (s : st) (a : terminal) : Prop := {
  sh_lines : ts_inputs s = tm_lines a;
  sh_cur : ts_buf s = tm_cur a;
  sh_readers : ts_requests s = tm_readers a;
  sh_given : handed (ts_trace s) = tm_given a;
}.

(** Nothing that concerns readers. *)
Lemma shows_same s s' a : shows s a -> ts_buf s' = ts_buf s -> ts_requests s' = ts_requests s -> ts_inputs s' = ts_inputs s ->
  handed (ts_trace s') = handed (ts_trace s) -> shows s' a.
Proof. intros []. split; congruence. Qed.

Lemma shows_effect s a e : shows s a -> match e with Handed _ _ => False | _ => True end -> shows (add_effect e s) a.
Proof. intros H He. eapply shows_same; [exact H|done..|]. cbn [add_effect ts_trace]. rewrite handed_app. by destruct e; rewrite ?app_nil_r. Qed.

Lemma serve_ok s a : shows s a -> Forall (fun r => 0 <= tr_size r) (tm_readers a) ->
  wp (s ← get;
      match ts_inputs s, ts_requests s with
      | input :: inputs, tr :: requests => put (set_requests requests (set_inputs inputs s));; tty_handle tr input
      | _, _ => mret tt
      end) s (fun _ s' => shows s' (serve a)).
Proof.
  intros [S1 S2 S3 S4] Hsz. step. step. unfold serve. rewrite S1, S3.
  destruct (tm_lines a) as [|l ls] eqn:El; [step; by split; rewrite ?El|]. destruct (tm_readers a) as [|r rs] eqn:Er; [step; by split; rewrite ?El, ?Er|].
  inversion Hsz as [|? ? Hr _]; subst. unfold tty_handle, emit. step. step. cbv zeta. step. step.
  destruct (decide (Z.of_nat (length l) > tr_size r)) as [Hn|Hn].
  - rewrite (decide_True (P := tr_size r < _)) by lia. step. rewrite (decide_True (P := (_ < _)%nat)) by lia.
    split; cbn [set_inputs set_requests add_effect ts_buf ts_inputs ts_requests ts_trace tm_lines tm_cur tm_readers tm_given]; try done.
    by rewrite handed_app, S4.
  - rewrite (decide_False (P := Z.of_nat (length l) < _)) by lia. step. rewrite (decide_False (P := (_ < _)%nat)) by lia.
    split; cbn [set_inputs set_requests add_effect ts_buf ts_inputs ts_requests ts_trace tm_lines tm_cur tm_readers tm_given]; try done.
    rewrite handed_app, S4. by rewrite Nat2Z.id, firstn_all, take_ge by lia.
Qed.

Lemma deliver_ok s a killed chunk : shows s a -> Forall (fun r => 0 <= tr_size r) (tm_readers a) ->
  wp (tty_deliver killed chunk) s (fun _ s' => shows s' (terminal_step a (Typed killed chunk))).
Proof.
  intros H Hsz. unfold tty_deliver. step. destruct (tty_chars_ok killed chunk s) as (new & cur & Hed & Hch). eapply wp_mono; [exact Hch|].
  intros ok s1 [-> [T1 T2 T3 T4]]. cbn [terminal_step text_of cut]. cbv zeta. set (a1 := type_in (heard killed chunk) a).
  assert (shows s1 a1) as H1.
  { destruct H as [S1 S2 S3 S4]. unfold a1, type_in. rewrite <- S1, <- S2, Hed. by split; cbn [tm_lines tm_cur tm_readers tm_given fst snd]; congruence. }
  destruct (killed && _); cbn [negb]; [by step|]. by apply serve_ok.
Qed.

Lemma size_nonneg m : 0 <= fr_size (request_of m).
Proof. unfold request_of. cbn [fr_size]. pose proof (get_field_range 4 16 m). lia. Qed.

Lemma write_loop_ok ino data : forall s a, shows s a -> wp (tty_write_loop ino data) s (fun _ s' => shows s' a).
Proof.
  induction data as [|c data IH]; intros s a H; cbn [tty_write_loop]; [by step|]. unfold emit. steps.
  destruct (decide (c = LF)); steps; apply IH; [apply shows_effect; [|done]|]; by apply shows_effect.
Qed.

Lemma respond_ok s a src status data : shows s a -> wp (tty_respond src status data) s (fun _ s' => shows s' a).
Proof. intros H. unfold tty_respond, emit. step. by apply shows_effect. Qed.

(** A message is at least a request. *)
Definition complete (e : tty_event) : Prop := match e with Request _ msg => (sizeof_file_request <= length msg)%nat | Typed _ _ => True end.

Lemma step_ok s a e : shows s a -> Forall (fun r => 0 <= tr_size r) (tm_readers a) -> complete e -> wp (tty_step e) s (fun _ s' => shows s' (terminal_step a e)).
Proof.
  intros H Hsz Hlen. destruct e as [killed chunk|src msg]; cbn [tty_step complete] in *; [by apply deliver_ok|].
  unfold tty_proc_round. cbv zeta. step. apply wp_assert.
  { apply bool_decide_eq_true. rewrite length_take. unfold sizeof_pointer, sizeof_file_request, PAGESIZE in *. lia. }
  cbn [terminal_step reads_of]. cbv zeta. set (m := take (sizeof_pointer + PAGESIZE) msg). destruct (decide (fr_type (request_of m) = FILE_READ)) as [Hr|Hr].
  - unfold tty_read. destruct (decide (fr_file_no (request_of m) <> 0)) as [Hf|Hf].
    { rewrite decide_False by tauto. by apply respond_ok. }
    rewrite decide_True by (split; [done|]; destruct (decide (fr_file_no (request_of m) = 0)); tauto). step. step.
    apply serve_ok; [destruct H; split; cbn [set_requests ts_inputs ts_buf ts_requests ts_trace add_readers tm_lines tm_cur tm_readers tm_given]; congruence|].
    cbn [add_readers tm_readers]. apply Forall_app. split; [done|]. constructor; [apply size_nonneg|constructor].
  - rewrite (decide_False (P := _ /\ _)) by tauto. destruct (decide _).
    { unfold tty_write. destruct (decide _); [by apply respond_ok|]. destruct (decide _); [by apply respond_ok|]. step.
      eapply wp_mono; [by apply write_loop_ok|]. intros [] s' H'. by apply respond_ok. }
    destruct (decide _); [by apply respond_ok|]. destruct (decide _).
    { unfold tty_do_stat, emit. step. by apply shows_effect. }
    destruct (decide _); [|by apply respond_ok]. unfold tty_set_flags. step. step. apply respond_ok. by eapply shows_same.
Qed.

Lemma sizes_step a e : Forall (fun r => 0 <= tr_size r) (tm_readers a) -> Forall (fun r => 0 <= tr_size r) (tm_readers (terminal_step a e)).
Proof.
  intros H. assert (forall b, Forall (fun r => 0 <= tr_size r) (tm_readers b) -> Forall (fun r => 0 <= tr_size r) (tm_readers (serve b))) as Hs.
  { intros b Hb. unfold serve. destruct (tm_lines b); [done|]. destruct (tm_readers b) as [|r rs] eqn:E; [by rewrite E|]. by inversion Hb. }
  destruct e as [killed chunk|src msg]; cbn [terminal_step]; cbv zeta.
  - destruct (cut _); [done|by apply Hs].
  - destruct (reads_of (Request src msg)) as [|r rs] eqn:E; [done|]. apply Hs. cbn [add_readers tm_readers]. apply Forall_app. split; [done|]. rewrite <- E.
    cbn [reads_of]. cbv zeta. destruct (decide _); [|constructor]. constructor; [apply size_nonneg|constructor].
Qed.

Lemma run_ok l : forall s a, shows s a -> Forall (fun r => 0 <= tr_size r) (tm_readers a) -> Forall complete l ->
  wp (tty_run l) s (fun _ s' => shows s' (foldl terminal_step a l)).
Proof.
  induction l as [|e l IH]; intros s a H Hsz Hl; cbn [tty_run foldl]; [by step|]. inversion Hl as [|? ? He Hl']; subst. step.
  eapply wp_mono; [by apply step_ok|]. intros [] s1 H1. apply IH; [done|by apply sizes_step|done].
Qed.

(** C13. For typing in any chunks, interleaved with requests of any kind, each of them at
    least as long as a request, the server hands out exactly what the abstract terminal
    gives: after every interrupt, unless a <ctrl>C in it ended the process that it
    interrupted, and after every read, the oldest reader gets what it has room for of the
    oldest line, if there are both. So readers are served in the order in which they asked,
    and their pieces, with the lines that are kept, are all that was typed, edited, in
    order, without what the code drops after such a <ctrl>C; and if a reader asks only when
    no other waits, and there is no such <ctrl>C, no reader waits while there is a line. A
    request that is shorter fails the server's assertion. *)
Theorem tty_lines_dealt l :
  Forall complete l ->
  let t := concat (map text_of l) in let reads := concat (map reads_of l) in let a := terminal_after l in
  exists s, tty_run l tty_start = Ret (tt, s) /\
    handed (ts_trace s) = tm_given a /\ ts_inputs s = tm_lines a /\ ts_requests s = tm_readers a /\ ts_buf s = (edit t).2 /\
    map fst (tm_given a) ++ map tr_src (tm_readers a) = map tr_src reads /\
    deal (map tr_size (take (length (tm_given a)) reads)) (edit t).1 = Some (map snd (tm_given a), tm_lines a) /\
    concat (map snd (tm_given a)) ++ concat (tm_lines a) = concat (edit t).1 /\
    (one_at_a_time terminal_start l -> tm_readers a = [] \/ tm_lines a = []) /\
    (forall src msg, (length msg < sizeof_file_request)%nat -> tty_proc_round msg src s = Exit).
Proof.
  intros Hl t reads a. pose proof (run_ok l tty_start terminal_start ltac:(by split) ltac:(constructor) Hl) as H. apply wp_Ret in H as ([] & s & E & [S1 S2 S3 S4]).
  pose proof (inv_run l terminal_start [] [] ltac:(by split)) as [I1 I2 I3 I4]. exists s. split_and!; try done.
  - by rewrite S2.
  - by eapply deal_concat.
  - intros Hone. apply (prompt_run l terminal_start); [|done]. split; [cbn; lia|by left].
  - intros src msg Hs. unfold tty_proc_round. cbv zeta. unfold assert_. rewrite bool_decide_false by (rewrite length_take; lia). done.
Qed.

Definition read_message (size : Z) : message := request_bytes (FileRequest FILE_READ 0 0 size 0 0).

Definition wit_typing : list tty_event :=
  [Typed false [Init.Byte.x61; Init.Byte.x62; DEL; Init.Byte.x63]; Request 7 (read_message 2); Request 8 (read_message 100);
   Typed false [CR; CTRL_C; Init.Byte.x64]; Typed false [Init.Byte.x65; CTRL_D]; Typed true [CTRL_C; Init.Byte.x66; LF]].

Lemma tty_lines_dealt_witness : exists s, tty_run wit_typing tty_start = Ret (tt, s) /\
  handed (ts_trace s) = [(7, [Init.Byte.x61; Init.Byte.x63]); (8, [LF])] /\ ts_inputs s = [[Init.Byte.x64; Init.Byte.x65]] /\ ts_requests s = [] /\ ts_buf s = [].
Proof.
  destruct (tty_lines_dealt wit_typing) as (s & E & H1 & H2 & H3 & H4 & _); [unfold wit_typing; repeat constructor; vm_compute; lia|].
  exists s. rewrite H1, H2, H3, H4. clear H1 H2 H3 H4. split; [exact E|clear E]. split_and!; vm_compute; reflexivity.
Defined.

(** * Writing *)

(** What the device gets: a carriage return after every line feed, one byte per call. *)
Definition crlf (data : text) : text := flat_map (fun c => if decide (c = LF) then [LF; CR] else [c]) data.

Lemma write_loop_trace ino data : forall s, tty_write_loop ino data s = Ret (tt, TtyState (ts_buf s) (ts_requests s) (ts_inputs s) (ts_flags s)
  (ts_trace s ++ map (fun c => Device ino [c]) (crlf data))).
Proof.
  induction data as [|c data IH]; intros s; cbn [tty_write_loop crlf flat_map map]; [rewrite app_nil_r; by destruct s|].
  unfold emit. erewrite mbind_Ret by reflexivity. destruct (decide (c = LF)) as [->|].
  - erewrite mbind_Ret by reflexivity. rewrite IH. cbn [add_effect ts_buf ts_requests ts_inputs ts_flags ts_trace]. by rewrite <- !app_assoc.
  - erewrite mbind_Ret by reflexivity. rewrite IH. cbn [add_effect ts_buf ts_requests ts_inputs ts_flags ts_trace]. by rewrite <- !app_assoc.
Qed.

(** A write that the receive did not cut. *)
Lemma tty_write_ok src ino data s : ino = 1 \/ ino = 2 -> Z.of_nat (length data) <= 16360 ->
  tty_proc_round (request_bytes (FileRequest FILE_WRITE ino 0 (Z.of_nat (length data)) 0 0) ++ data) src s =
  Ret (tt, TtyState (ts_buf s) (ts_requests s) (ts_inputs s) (ts_flags s)
    (ts_trace s ++ map (fun c => Device ino [c]) (crlf data) ++ [Respond src FILE_OK []])).
Proof.
  intros Hino Hlen. unfold tty_proc_round. cbv zeta. set (r := FileRequest _ _ _ _ _ _).
  assert (request_wf r) as Hwf by (split; cbn; unfold is_u32, two32, two64, FILE_WRITE; lia).
  rewrite take_ge by (rewrite length_app, length_request_bytes; unfold sizeof_file_request, sizeof_pointer, PAGESIZE; lia).
  rewrite (request_of_bytes r data Hwf). erewrite mbind_Ret; [|unfold assert_; rewrite bool_decide_true; [reflexivity|rewrite length_app, length_request_bytes; lia]].
  rewrite drop_app_length' by by rewrite length_request_bytes. rewrite decide_False by done. rewrite decide_True by done. unfold tty_write.
  rewrite decide_False by (cbn [r fr_file_no]; lia). rewrite decide_False by (intros Hn; by apply Hn). erewrite mbind_Ret by apply write_loop_trace.
  unfold tty_respond, emit, modify, add_effect. cbn beta. cbn [r fr_file_no ts_buf ts_requests ts_inputs ts_flags ts_trace]. by rewrite <- app_assoc.
Qed.

(** The last 24 bytes of a full page are cut off, and the write fails. *)
Lemma tty_page_write_fails src ino data s : ino = 1 \/ ino = 2 -> 16360 < Z.of_nat (length data) <= 16384 ->
  tty_proc_round (request_bytes (FileRequest FILE_WRITE ino 0 (Z.of_nat (length data)) 0 0) ++ data) src s =
  Ret (tt, add_effect (Respond src FILE_ERROR []) s).
Proof.
  intros Hino Hlen. unfold tty_proc_round. cbv zeta. set (r := FileRequest _ _ _ _ _ _).
  assert (request_wf r) as Hwf by (split; cbn; unfold is_u32, two32, two64, FILE_WRITE; lia).
  rewrite take_app_ge by (rewrite length_request_bytes; unfold sizeof_file_request, sizeof_pointer, PAGESIZE; lia).
  rewrite (request_of_bytes r _ Hwf). erewrite mbind_Ret; [|unfold assert_; rewrite bool_decide_true; [reflexivity|rewrite length_app, length_request_bytes; lia]].
  rewrite drop_app_length' by by rewrite length_request_bytes. rewrite decide_False by done. rewrite decide_True by done. unfold tty_write.
  rewrite decide_False by (cbn [r fr_file_no]; lia). rewrite decide_True; [done|]. rewrite length_take, length_request_bytes. cbn [r fr_size].
  unfold sizeof_file_request, sizeof_pointer, PAGESIZE. lia.
Qed.

(** * A reader that waits although there is a line *)

Definition after (l : list tty_event) : option (list tty_request * list text) :=
  match tty_run l tty_start with Ret (_, s) => Some (ts_requests s, ts_inputs s) | _ => None end.

(** An interrupt serves one reader, however many lines it brings. *)
Example second_reader_waits :
  after [Request 7 (read_message 100); Request 8 (read_message 100); Typed false [Init.Byte.x61; LF; Init.Byte.x62; LF]]
    = Some ([TtyRequest 8 100], [[Init.Byte.x62; LF]]).
Proof. by vm_compute. Qed.
