(* ===== verification/DiskSvr.v ===== *)
(** src/src/grass/disksvr.c and src/src/earth/devdisk.c: the disk server, and the disk device
    on a file of the host. The device works at once, but its completion is an event that
    the kernel handles later (earth/intr.c); replies are sent then. *)
From stdpp Require Import base numbers list gmap.
From Stdlib Require Import ZArith Lia.
From S2P Require Import Prelude BlockStore FileDisk RamDisk ClockDisk TreeDisk TreeInv TreeSpec TreeCreate TreeProps BlockProt.

(** * The device *)

(** The host's file, without I/O errors; syncing does not change what it reads back. *)
Record dev_disk := DevDisk { dd_bytes : list Byte.byte; dd_nblocks : Z }.

(** [file] is what the file has, nothing if it is new. *)
Definition dev_disk_create (file : list Byte.byte) (nblocks : Z) : outcome dev_disk :=
  let size := Z.of_nat (length file) in
  if decide (size > 0) then
    let n := u32 (size / Z.of_nat BLOCK_SIZE) in
    if decide (n >= nblocks) then Ret (DevDisk file n) else Exit
  else
    let size := nblocks * Z.of_nat BLOCK_SIZE - 1 in
    if decide (size > 0) then Ret (DevDisk (file_splice (Z.to_nat size) [Byte.x00] file) nblocks) else Exit.

(** * The server *)

(** [dr_data] is the room for a block after the reply, which a read has filled. *)
Record disk_request := DiskRequest { dr_src : Z; dr_data : block }.

(** The events: the completion of an operation, with its success. *)
Inductive dd_event :=
  | ReadEvent (dr : disk_request) (success : bool)
  | WriteEvent (dr : disk_request) (success : bool).

(** [ds_sent] is what the server has sent, oldest first. *)
Record disk_server_state := DiskServer {
  ds_dd : dev_disk;
  ds_events : list dd_event;
  ds_sent : list (Z * message);
}.

Abbreviation st := disk_server_state.

Definition dev_disk_make_event (ev : dd_event) : M st unit :=
  modify (fun s => DiskServer (ds_dd s) (ds_events s ++ [ev]) (ds_sent s)).

Definition dev_disk_write (offset : Z) (data : block) (src : Z) : M st unit :=
  s ← get;
  let dd := ds_dd s in
  success ← (if decide (offset >= dd_nblocks dd) then mret false else
             put (DiskServer (DevDisk (file_splice (Z.to_nat (offset * Z.of_nat BLOCK_SIZE)) data (dd_bytes dd)) (dd_nblocks dd)) (ds_events s) (ds_sent s));;
             mret true);
  dev_disk_make_event (WriteEvent (DiskRequest src []) success).

Definition dev_disk_getsize : M st Z := s ← get; mret (dd_nblocks (ds_dd s)).

(** A short read is filled with null bytes. *)
Definition dev_disk_read (offset src : Z) : M st unit :=
  s ← get;
  let dd := ds_dd s in
  if decide (offset >= dd_nblocks dd) then dev_disk_make_event (ReadEvent (DiskRequest src []) false) else
  let data := take BLOCK_SIZE (drop (Z.to_nat (offset * Z.of_nat BLOCK_SIZE)) (dd_bytes dd)) in
  dev_disk_make_event (ReadEvent (DiskRequest src (data ++ replicate (BLOCK_SIZE - length data) Byte.x00)) true).

Definition disk_send (dst : Z) (m : message) : M st unit :=
  modify (fun s => DiskServer (ds_dd s) (ds_events s) (ds_sent s ++ [(dst, m)])).

(** All calls have no data. *)
Definition disk_respond (status src : Z) : M st unit := disk_send src (block_reply status 0).

Definition disk_read_complete (dr : disk_request) (success : bool) : M st unit :=
  if success then disk_send (dr_src dr) (block_reply BLOCK_OK 1 ++ dr_data dr) else disk_send (dr_src dr) (block_reply BLOCK_ERROR 1).

Definition disk_write_complete (dr : disk_request) (success : bool) : M st unit :=
  disk_send (dr_src dr) (block_reply (if success then BLOCK_OK else BLOCK_ERROR) 1).

Definition disk_do_read (ino offset_nblock src : Z) : M st unit :=
  if decide (ino <> 0) then disk_respond BLOCK_ERROR src else dev_disk_read offset_nblock src.

Definition disk_do_write (ino offset_nblock : Z) (data : message) (src : Z) : M st unit :=
  assert_ (bool_decide (length data = BLOCK_SIZE));;
  if decide (ino <> 0) then disk_respond BLOCK_ERROR src else dev_disk_write offset_nblock data src.

Definition disk_do_getsize (ino src : Z) : M st unit :=
  if decide (ino <> 0) then disk_respond BLOCK_ERROR src else
  n ← dev_disk_getsize;
  disk_send src (block_reply BLOCK_OK n).

Definition disk_do_setsize (src : Z) : M st unit := disk_respond BLOCK_ERROR src.

Definition disk_do_sync (src : Z) : M st unit := disk_respond BLOCK_OK src.

(** One round of [disk_proc]. *)
Definition disk_proc_round (msg : message) (src : Z) : M st unit :=
  let req := take (sizeof_request + BLOCK_SIZE) msg in
  assert_ (bool_decide (sizeof_request <= length req)%nat);;
  let type := get32 req 0 in
  let ino := get32 req 1 in
  let offset_nblock := get32 req 2 in
  if decide (type = BLOCK_READ) then disk_do_read ino offset_nblock src else
  if decide (type = BLOCK_WRITE) then disk_do_write ino offset_nblock (drop sizeof_request req) src else
  if decide (type = BLOCK_GETSIZE) then disk_do_getsize ino src else
  if decide (type = BLOCK_SETSIZE) then disk_do_setsize src else
  if decide (type = BLOCK_SYNC) then disk_do_sync src else
  disk_respond BLOCK_ERROR src.

(** The events that wait, in their order: what [intr_suspend] does first. *)
Fixpoint handle_events (n : nat) : M st unit :=
  match n with
  | O => mret tt
  | S n =>
      s ← get;
      match ds_events s with
      | [] => mret tt
      | ev :: evs =>
          put (DiskServer (ds_dd s) evs (ds_sent s));;
          match ev with ReadEvent dr success => disk_read_complete dr success | WriteEvent dr success => disk_write_complete dr success end;;
          handle_events n
      end
  end.

Definition intr_suspend_events : M st unit := s ← get; handle_events (length (ds_events s)).

Definition disk_init (dd : dev_disk) : st := DiskServer dd [] [].

(** * A call to the server

    The server handles the request, the caller waits, the kernel has nothing to run and
    handles the events; the caller goes on with the first reply. *)
Definition disk_rpc (msg : message) (repsize : nat) : M dev_disk (option message) := fun dd =>
  match (disk_proc_round msg 1;; intr_suspend_events) (disk_init dd) with
  | Ret (_, s) =>
      match ds_sent s with
      | (_, rep) :: _ => Ret (Some (take repsize rep), ds_dd s)
      | [] => OutOfFuel
      end
  | Exit => Exit
  | Undef => Undef
  | OutOfFuel => OutOfFuel
  end.

#[export] Instance disk_server_rpc : Rpc dev_disk := fun _ msg repsize => disk_rpc msg repsize.
