(* ===== verification/DiskSvrProps.v ===== *)
(** The disk server answers every request once, and its clients see a disk: a protdisk over
    it is a lawful block store, so that files live in the host's file. *)
From stdpp Require Import base numbers list gmap.
From Stdlib Require Import ZArith Lia.
From S2P Require Import Prelude BlockStore FileDisk RamDisk ClockDisk TreeDisk TreeInv TreeSpec TreeCreate TreeProps BlockProt FileProt FileSpec BlockFile BlockService BlockFileSpec BlockFileProps DiskSvr.

Abbreviation st := disk_server_state.

(** * Requests *)

(** The blocks of the device. *)
Definition dev_block (dd : dev_disk) (off : Z) : block := file_block (dd_bytes dd) (Z.to_nat off).

Definition dev_put (dd : dev_disk) (off : Z) (b : block) : dev_disk :=
  DevDisk (file_splice (Z.to_nat (off * Z.of_nat BLOCK_SIZE)) b (dd_bytes dd)) (dd_nblocks dd).

(** The host's file has all blocks. *)
Definition dev_ok (dd : dev_disk) : Prop :=
  0 <= dd_nblocks dd < 2147483648 /\ dd_nblocks dd * Z.of_nat BLOCK_SIZE <= Z.of_nat (length (dd_bytes dd)).

Lemma pos_nat off : 0 <= off -> Z.to_nat (off * Z.of_nat BLOCK_SIZE) = (Z.to_nat off * BLOCK_SIZE)%nat.
Proof. lia. Qed.

Lemma dev_read_block dd off : dev_ok dd -> 0 <= off < dd_nblocks dd ->
  take BLOCK_SIZE (drop (Z.to_nat (off * Z.of_nat BLOCK_SIZE)) (dd_bytes dd)) = dev_block dd off.
Proof. intros [_ H] Ho. rewrite pos_nat by lia. apply fread1_block. nia. Qed.

Lemma dev_put_ok dd off b : dev_ok dd -> dev_ok (dev_put dd off b).
Proof. intros [H1 H2]. split; [done|]. cbn [dev_put dd_bytes dd_nblocks]. rewrite length_file_splice. lia. Qed.

Lemma dev_block_put dd off b off' : block_wf b -> 0 <= off -> 0 <= off' ->
  dev_block (dev_put dd off b) off' = if decide (off' = off) then b else dev_block dd off'.
Proof.
  intros Hb Ho Ho'. unfold dev_block, dev_put. cbn [dd_bytes]. rewrite (file_block_splice _ b _ (Z.to_nat off) _ (pos_nat off Ho) Hb).
  destruct (decide (off' = off)) as [->|Hne]; [by rewrite decide_True|]. rewrite decide_False; [done|lia].
Qed.

(** What a request gets, and what it does to the device. *)
Definition answer (type ino off : Z) (data : block) (dd : dev_disk) : message * dev_disk :=
  if decide (type = BLOCK_READ) then
    (if decide (ino <> 0) then block_reply BLOCK_ERROR 0 else if decide (off < dd_nblocks dd) then block_reply BLOCK_OK 1 ++ dev_block dd off else block_reply BLOCK_ERROR 1, dd)
  else if decide (type = BLOCK_WRITE) then
    if decide (ino <> 0) then (block_reply BLOCK_ERROR 0, dd) else
    if decide (off < dd_nblocks dd) then (block_reply BLOCK_OK 1, dev_put dd off data) else (block_reply BLOCK_ERROR 1, dd)
  else if decide (type = BLOCK_GETSIZE) then (if decide (ino <> 0) then block_reply BLOCK_ERROR 0 else block_reply BLOCK_OK (dd_nblocks dd), dd)
  else if decide (type = BLOCK_SYNC) then (block_reply BLOCK_OK 0, dd)
  else (block_reply BLOCK_ERROR 0, dd).

(** The reply that an event sends. *)
Definition event_reply (ev : dd_event) : Z * message :=
  match ev with
  | ReadEvent dr success => (dr_src dr, if success then block_reply BLOCK_OK 1 ++ dr_data dr else block_reply BLOCK_ERROR 1)
  | WriteEvent dr success => (dr_src dr, block_reply (if success then BLOCK_OK else BLOCK_ERROR) 1)
  end.

(** All replies: those sent, and those to come. *)
Definition replies (s : st) : list (Z * message) := ds_sent s ++ map event_reply (ds_events s).

(** What is received of a message. *)
Definition received (msg : message) : message := take (sizeof_request + BLOCK_SIZE) msg.

Definition answer_to (msg : message) (dd : dev_disk) : message * dev_disk :=
  let m := received msg in answer (get32 m 0) (get32 m 1) (get32 m 2) (drop sizeof_request m) dd.

(** A message has a whole header, and a write a whole block. *)
Definition well_formed (msg : message) : Prop :=
  (sizeof_request <= length msg)%nat /\ (get32 (received msg) 0 = BLOCK_WRITE -> (sizeof_request + BLOCK_SIZE <= length msg)%nat).

#[export] Instance well_formed_dec msg : Decision (well_formed msg).
Proof. unfold well_formed. apply _. Defined.

Lemma received_wf msg : well_formed msg -> (sizeof_request <= length (received msg))%nat /\
  (get32 (received msg) 0 = BLOCK_WRITE -> block_wf (drop sizeof_request (received msg))).
Proof.
  intros [H1 H2]. unfold received in *. split; [rewrite length_take; lia|]. intros Hw. specialize (H2 Hw).
  unfold block_wf. rewrite length_drop, length_take. lia.
Qed.

Lemma disk_round_ok msg src s : well_formed msg -> dev_ok (ds_dd s) ->
  wp (disk_proc_round msg src) s (fun _ s' =>
    ds_dd s' = snd (answer_to msg (ds_dd s)) /\
    ((ds_sent s' = ds_sent s ++ [(src, fst (answer_to msg (ds_dd s)))] /\ ds_events s' = ds_events s) \/
     (ds_sent s' = ds_sent s /\ exists ev, ds_events s' = ds_events s ++ [ev] /\ event_reply ev = (src, fst (answer_to msg (ds_dd s)))))).
Proof.
  intros Hwf Hok. destruct (received_wf msg Hwf) as [Hl Hw]. unfold disk_proc_round, answer_to. fold (received msg). cbv zeta.
  step. apply wp_assert; [by apply bool_decide_eq_true|].
  pose proof (get32_u32 (received msg) 2) as Ho. set (off := get32 (received msg) 2) in *. set (ino := get32 (received msg) 1). set (type := get32 (received msg) 0) in *.
  set (data := drop sizeof_request (received msg)) in *. clearbody type ino off data. clear Hl Hwf.
  unfold answer, disk_do_read, disk_do_write, disk_do_getsize, disk_do_setsize, disk_do_sync, disk_respond, disk_send.
  destruct (decide (type = BLOCK_READ)) as [->|H1].
  { destruct (decide (ino <> 0)) as [H0|H0]; [step; split; [done|by left]|]. unfold dev_disk_read, dev_disk_make_event. step. step. cbv zeta.
    destruct (decide (off >= dd_nblocks (ds_dd s))) as [Hr|Hr].
    - rewrite decide_False by lia. step. split; [done|right]. split; [done|]. by eexists.
    - rewrite decide_True by lia. unfold is_u32 in Ho. rewrite (dev_read_block _ _ Hok) by lia. step. split; [done|right]. split; [done|]. eexists. split; [done|].
      cbn [event_reply dr_src dr_data fst]. unfold dev_block. by rewrite (file_block_wf (dd_bytes (ds_dd s)) (Z.to_nat off)), Nat.sub_diag, app_nil_r. }
  destruct (decide (type = BLOCK_WRITE)) as [->|H2].
  { step. apply wp_assert; [by apply bool_decide_eq_true, Hw|]. destruct (decide (ino <> 0)) as [H0|H0]; [step; split; [done|by left]|].
    unfold dev_disk_write, dev_disk_make_event. step. step. cbv zeta. step. destruct (decide (off >= dd_nblocks (ds_dd s))) as [Hr|Hr].
    - rewrite decide_False by lia. step. step. split; [done|right]. split; [done|]. by eexists.
    - rewrite decide_True by lia. step. step. step. step. split; [done|right]. split; [done|]. by eexists. }
  destruct (decide (type = BLOCK_GETSIZE)) as [->|H3].
  { destruct (decide (ino <> 0)) as [H0|H0]; [step; split; [done|by left]|]. unfold dev_disk_getsize. steps. split; [done|by left]. }
  destruct (decide (type = BLOCK_SETSIZE)) as [->|H4]; [step; split; [done|by left]|].
  destruct (decide (type = BLOCK_SYNC)) as [->|H5]; step; (split; [done|by left]).
Qed.

Lemma handle_events_ok n : forall s, n = length (ds_events s) ->
  handle_events n s = Ret (tt, DiskServer (ds_dd s) [] (replies s)).
Proof.
  induction n as [|n IH]; intros [dd evs sent] Hn; unfold replies in *; cbn [ds_events ds_dd ds_sent handle_events] in *; destruct evs as [|ev evs]; try done.
  - by rewrite app_nil_r.
  - erewrite mbind_Ret by reflexivity. cbn [ds_events]. erewrite mbind_Ret by reflexivity.
    erewrite (mbind_Ret _ _ _ tt (DiskServer dd evs (sent ++ [event_reply ev]))) by (by destruct ev as [dr []|dr []]).
    rewrite IH by (cbn in *; lia). cbn [ds_events ds_dd ds_sent map]. by rewrite <- app_assoc.
Qed.

Lemma disk_suspend_ok s : intr_suspend_events s = Ret (tt, DiskServer (ds_dd s) [] (replies s)).
Proof. unfold intr_suspend_events. erewrite mbind_Ret by reflexivity. by apply handle_events_ok. Qed.

(** A request that is not well formed fails an assertion. *)
Lemma disk_round_exit msg src s : ~ well_formed msg -> disk_proc_round msg src s = Exit.
Proof.
  intros Hn. unfold disk_proc_round. fold (received msg). cbv zeta. destruct (decide (sizeof_request <= length (received msg))%nat) as [Hl|Hl].
  2:{ unfold assert_. by rewrite bool_decide_false by done. }
  erewrite mbind_Ret by (unfold assert_; by rewrite bool_decide_true by done).
  assert (sizeof_request <= length msg)%nat as Hm by (unfold received in Hl; rewrite length_take in Hl; lia).
  assert (get32 (received msg) 0 = BLOCK_WRITE /\ (length msg < sizeof_request + BLOCK_SIZE)%nat) as [Hw Hs].
  { destruct (decide (get32 (received msg) 0 = BLOCK_WRITE /\ (length msg < sizeof_request + BLOCK_SIZE)%nat)) as [|Hc]; [done|].
    destruct Hn. split; [done|]. intros Hw. destruct (decide (length msg < sizeof_request + BLOCK_SIZE)%nat); [by destruct Hc|lia]. }
  rewrite Hw, decide_False by done. rewrite decide_True by done. unfold disk_do_write, assert_. rewrite bool_decide_false; [done|].
  unfold received. rewrite length_drop, length_take. lia.
Qed.

(** A request that a client's stub may send. *)
Definition request_ok (type ino off : Z) (data : block) : Prop :=
  is_u32 type /\ is_u32 ino /\ is_u32 off /\ (length data <= BLOCK_SIZE)%nat /\ (type = BLOCK_WRITE -> block_wf data).

Lemma request_received type ino off data : request_ok type ino off data ->
  well_formed (block_request type ino off ++ data) /\ forall dd, answer_to (block_request type ino off ++ data) dd = answer type ino off data dd.
Proof.
  intros (Ht & Hi & Ho & Hd & Hw).
  assert (length (block_request type ino off ++ data) = (sizeof_request + length data)%nat) as Hl by (unfold block_request; by rewrite length_app, length_words).
  assert (received (block_request type ino off ++ data) = block_request type ino off ++ data) as Er by (unfold received; apply take_ge; lia).
  destruct (request_words type ino off data) as (E1 & E2 & E3 & E4); [done..|]. unfold well_formed, answer_to. rewrite Er, E1, E2, E3, E4.
  split; [|done]. rewrite Hl. split; [lia|]. intros Hty. rewrite (Hw Hty). lia.
Qed.

(** A call gets its answer. *)
Lemma disk_rpc_ok type ino off data repsize dd : request_ok type ino off data -> dev_ok dd ->
  disk_rpc (block_request type ino off ++ data) repsize dd = Ret (Some (take repsize (fst (answer type ino off data dd))), snd (answer type ino off data dd)).
Proof.
  intros Hr Hok. destruct (request_received type ino off data Hr) as [Hwf Ha].
  pose proof (disk_round_ok _ 1 (disk_init dd) Hwf Hok) as H. apply wp_Ret in H as ([] & s & E & Hdd & Hs). rewrite Ha in *.
  unfold disk_rpc. erewrite mbind_Ret by exact E. rewrite disk_suspend_ok. cbn [ds_sent ds_dd]. rewrite Hdd. cbn [disk_init ds_dd ds_sent ds_events] in *.
  unfold replies. destruct Hs as [[-> ->]|[-> (ev & -> & Hev)]]; cbn [app map]; [done|]. by rewrite Hev.
Qed.

(** * The server as a block store *)

(** The device as an abstract disk: its blocks are those of inode 0. *)
Record dev_repr (dd : dev_disk) (d : vdisk) : Prop := {
  dr_ok : dev_ok dd;
  dr_lookup : forall ino off, d !! (ino, off) = if decide (ino = 0 /\ 0 <= off < dd_nblocks dd) then Some (dev_block dd off) else None;
}.

Lemma dev_repr_dom dd d ino off : dev_repr dd d -> is_Some (d !! (ino, off)) <-> ino = 0 /\ 0 <= off < dd_nblocks dd.
Proof. intros [_ H]. rewrite H. destruct (decide _) as [Hc|Hc]; split; intros Hx; [done|eauto|by destruct Hx|by destruct Hc]. Qed.

Lemma dev_put_repr dd d off b : dev_repr dd d -> 0 <= off < dd_nblocks dd -> block_wf b -> dev_repr (dev_put dd off b) (<[(0, off):=b]> d).
Proof.
  intros [Hok Hd] Ho Hb. split; [by apply dev_put_ok|]. intros ino o. cbn [dev_put dd_nblocks]. rewrite lookup_insert. destruct (decide ((0, off) = (ino, o))) as [E|E].
  - injection E as <- <-. rewrite decide_True by lia. rewrite dev_block_put by (done || lia). by rewrite decide_True.
  - rewrite Hd. destruct (decide _) as [[-> Ho']|]; [|done]. rewrite dev_block_put by (done || lia). rewrite decide_False; [done|]. intros ->. done.
Qed.

Lemma empty_request type ino off : is_u32 type -> is_u32 ino -> is_u32 off -> type <> BLOCK_WRITE -> request_ok type ino off [].
Proof. intros. split_and!; try done. cbn. unfold BLOCK_SIZE. lia. Qed.

Lemma short_rpc_ok svr type ino off data dd st n : request_ok type ino off data -> dev_ok dd -> fst (answer type ino off data dd) = block_reply st n -> is_u32 st -> is_u32 n ->
  short_rpc svr (block_request type ino off ++ data) dd = Ret (Some (st, n), snd (answer type ino off data dd)).
Proof.
  intros Hr Hok Ha Hs Hn. unfold short_rpc. erewrite mbind_Ret by (apply disk_rpc_ok; [exact Hr|exact Hok]). rewrite Ha.
  rewrite take_ge by (by rewrite length_reply). rewrite length_reply, decide_False by lia. rewrite <- (app_nil_r (block_reply _ _)). by rewrite reply_word0, reply_word1.
Qed.

Lemma dev_size_call svr x dd : dev_ok dd -> block_getsize svr 0 x dd = Ret ((true, dd_nblocks dd), dd).
Proof.
  intros Hok. unfold block_getsize. rewrite <- (app_nil_r (block_request _ _ _)). pose proof Hok as [Hn Hl].
  erewrite mbind_Ret by (apply (short_rpc_ok svr BLOCK_GETSIZE 0 0 [] dd BLOCK_OK (dd_nblocks dd)); [by apply empty_request|exact Hok|by unfold answer; rewrite !decide_False by (done || intros Hx; by apply Hx)|done|unfold is_u32, two32; lia]). done.
Qed.

Lemma dev_read_call svr off buf dd : dev_ok dd -> 0 <= off < dd_nblocks dd -> block_read svr 0 off buf dd = Ret ((true, dev_block dd off), dd).
Proof.
  intros Hok Ho. assert (is_u32 off) as Hu by (destruct Hok; unfold is_u32, two32; lia). unfold block_read. rewrite <- (app_nil_r (block_request _ _ _)).
  assert (answer BLOCK_READ 0 off [] dd = (block_reply BLOCK_OK 1 ++ dev_block dd off, dd)) as Ha.
  { unfold answer. rewrite decide_True by done. rewrite decide_False by (intros Hn; by apply Hn). by rewrite decide_True by lia. }
  erewrite mbind_Ret by (apply disk_rpc_ok; [by apply empty_request|exact Hok]). rewrite Ha. cbn [fst snd]. assert (length (block_reply BLOCK_OK 1 ++ dev_block dd off) = (sizeof_reply + BLOCK_SIZE)%nat) as Hl.
  { rewrite length_app, length_reply. by unfold dev_block; rewrite (file_block_wf (dd_bytes dd) (Z.to_nat off)). }
  rewrite take_ge by lia. rewrite decide_False by lia. rewrite reply_word0 by done. rewrite decide_False by (intros Hn; by apply Hn).
  rewrite drop_app_length' by by rewrite length_reply. rewrite take_ge; [done|]. by rewrite (file_block_wf (dd_bytes dd) (Z.to_nat off)).
Qed.

Lemma dev_write_call svr off b dd : dev_ok dd -> 0 <= off < dd_nblocks dd -> block_wf b -> block_write svr 0 off b dd = Ret (true, dev_put dd off b).
Proof.
  intros Hok Ho Hb. assert (is_u32 off) as Hu by (destruct Hok; unfold is_u32, two32; lia). unfold block_write.
  assert (request_ok BLOCK_WRITE 0 off b) as Hr by (split_and!; try done; by rewrite Hb).
  assert (answer BLOCK_WRITE 0 off b dd = (block_reply BLOCK_OK 1, dev_put dd off b)) as Ha.
  { unfold answer. rewrite decide_False by done. rewrite decide_True by done. rewrite decide_False by (intros Hn; by apply Hn). by rewrite decide_True by lia. }
  erewrite mbind_Ret by (apply (short_rpc_ok svr BLOCK_WRITE 0 off b dd BLOCK_OK 1 Hr Hok); [by rewrite Ha|done|done]). by rewrite Ha.
Qed.

Lemma dev_sync_call svr dd : dev_ok dd -> block_sync svr 0 dd = Ret (true, dd).
Proof.
  intros Hok. unfold block_sync. rewrite <- (app_nil_r (block_request _ _ _)).
  by erewrite mbind_Ret by (apply (short_rpc_ok svr BLOCK_SYNC 0 0 [] dd BLOCK_OK 0); [by apply empty_request|exact Hok|done|done|done]).
Qed.

(** A protdisk over the disk server. *)
Definition disk_repr (ps : protdisk_state dev_disk) (d : vdisk) : Prop := pd_ino ps = 0 /\ dev_repr (pd_kernel ps) d.

Lemma pd_call_ok {A} (m : Z -> Z -> M dev_disk A) ps a dd : m (pd_below ps) (pd_ino ps) (pd_kernel ps) = Ret (a, dd) ->
  pd_call m ps = Ret (a, ProtDisk dd (pd_below ps) (pd_ino ps)).
Proof. intros E. unfold pd_call. erewrite mbind_Ret by reflexivity. unfold lift. by rewrite E. Qed.

#[export] Instance disk_lawful : Lawful (protdisk_state dev_disk) disk_repr.
Proof.
  split.
  - intros ps d [_ H]. pose proof H as [[Hn _] Hd]. split.
    + intros [ino off] b. rewrite Hd. destruct (decide _); [|done]. intros [= <-]. apply file_block_wf.
    + intros ino off Hk. apply (dev_repr_dom _ _ _ _ H) in Hk as [-> _]. done.
    + intros ino off Hk. apply (dev_repr_dom _ _ _ _ H) in Hk as [-> Ho]. unfold is_u32, two32. lia.
  - intros [dd svr pino] d ino n [E H] Hsz Hn. cbn [pd_ino pd_kernel] in *. subst pino. pose proof (dr_ok _ _ H) as Hok.
    assert (is_Some (d !! (ino, 0)) /\ ~ is_Some (d !! (ino, n)) /\ is_Some (d !! (ino, n - 1))) as (H0 & H1 & H2) by (rewrite !(Hsz _); lia).
    rewrite !(dev_repr_dom _ _ _ _ H) in *. cbn [bs_getsize protdisk_bs]. unfold protdisk_getsize. rewrite decide_False by lia. step.
    eapply Ret_wp; [apply pd_call_ok, dev_size_call, Hok|]. cbn [fst snd]. step. apply wp_assert; [done|]. step. cbn [pd_kernel]. split; [rewrite i32_small; lia|by split].
  - intros [dd svr pino] d ino off b buf [E H] Hk _. cbn [pd_ino pd_kernel] in *. subst pino. pose proof (dr_ok _ _ H) as Hok.
    assert (is_Some (d !! (ino, off))) as Hx by eauto. apply (dev_repr_dom _ _ _ _ H) in Hx as [-> Ho].
    rewrite (dr_lookup _ _ H), decide_True in Hk by lia. injection Hk as <-. cbn [bs_read protdisk_bs]. unfold protdisk_read.
    rewrite decide_False by lia. step. eapply Ret_wp; [apply pd_call_ok; cbn [pd_ino pd_kernel]; by apply dev_read_call|]. step. by split.
  - intros [dd svr pino] d ino off b [E H] Hk Hb. cbn [pd_ino pd_kernel] in *. subst pino. pose proof (dr_ok _ _ H) as Hok.
    apply (dev_repr_dom _ _ _ _ H) in Hk as [-> Ho]. cbn [bs_write protdisk_bs]. unfold protdisk_write.
    rewrite decide_False by lia. step. eapply Ret_wp; [apply pd_call_ok; cbn [pd_ino pd_kernel]; by apply dev_write_call|]. step. split; [done|]. split; [done|]. by apply dev_put_repr.
  - intros [dd svr pino] d ino off [E H] Hk. cbn [pd_ino pd_kernel] in *. subst pino. pose proof (dr_ok _ _ H) as Hok.
    apply (dev_repr_dom _ _ _ _ H) in Hk as [-> Ho]. cbn [bs_sync protdisk_bs]. unfold protdisk_sync.
    rewrite decide_False by lia. step. eapply Ret_wp; [apply pd_call_ok; cbn [pd_ino pd_kernel]; by apply dev_sync_call|]. step. by split.
Qed.

(** * Order *)

(** Requests of many clients, and the times when the kernel handles events. *)
Inductive disk_step :=
  | DiskAsk (src : Z) (msg : message)
  | DiskEvents.

Definition run_step (x : disk_step) : M st unit :=
  match x with
  | DiskAsk src msg => disk_proc_round msg src
  | DiskEvents => intr_suspend_events
  end.

Fixpoint run_steps (l : list disk_step) : M st unit :=
  match l with
  | [] => mret tt
  | x :: l => run_step x;; run_steps l
  end.

(** The answers to the requests in their order, and the device after them. *)
Fixpoint answers (l : list disk_step) (dd : dev_disk) : list (Z * message) * dev_disk :=
  match l with
  | [] => ([], dd)
  | DiskAsk src msg :: l => let a := answer_to msg dd in let r := answers l a.2 in ((src, a.1) :: r.1, r.2)
  | DiskEvents :: l => answers l dd
  end.

Definition step_ok (x : disk_step) : Prop := match x with DiskAsk _ msg => well_formed msg | DiskEvents => True end.

#[export] Instance step_ok_dec x : Decision (step_ok x).
Proof. destruct x; cbn [step_ok]; apply _. Defined.

Lemma answer_ok msg dd : dev_ok dd -> dev_ok (answer_to msg dd).2.
Proof. intros H. unfold answer_to, answer. cbv zeta. repeat destruct (decide _); try done. by apply dev_put_ok. Qed.

Lemma run_steps_app l1 l2 : forall s1 s2, run_steps l1 s1 = Ret (tt, s2) -> run_steps (l1 ++ l2) s1 = run_steps l2 s2.
Proof.
  induction l1 as [|x l1 IH]; intros s1 s2 E; cbn [run_steps app] in *; [by injection E as <-|]. unfold mbind, M_bind in *.
  destruct (run_step x s1) as [[[] s3]| | |]; [by apply IH|done..].
Qed.

Lemma run_steps_ok l : forall s, Forall step_ok l -> dev_ok (ds_dd s) ->
  wp (run_steps l) s (fun _ s' => replies s' ≡ₚ replies s ++ (answers l (ds_dd s)).1 /\ ds_dd s' = (answers l (ds_dd s)).2).
Proof.
  induction l as [|x l IH]; intros s Hl Hok; cbn [run_steps answers]; [step; by rewrite app_nil_r|]. inversion Hl as [|? ? Hx Hl']; subst. step.
  destruct x as [src msg|]; cbn [run_step].
  - eapply wp_mono; [by apply disk_round_ok|]. intros [] s1 (Edd & Hs). eapply wp_mono; [apply IH; [done|rewrite Edd; by apply answer_ok]|].
    intros [] s' [Hp Ed]. rewrite Edd in Hp, Ed. cbv zeta. cbn [fst snd]. split; [|done]. rewrite Hp. set (R := (answers l _).1). set (a := (src, _)).
    unfold replies. destruct Hs as [[-> ->]|[-> (ev & -> & Hev)]].
    + rewrite <- !app_assoc. apply Permutation_app_head. cbn [app]. by rewrite Permutation_middle.
    + rewrite map_app. cbn [map]. rewrite Hev. rewrite <- !app_assoc. done.
  - eapply Ret_wp; [apply disk_suspend_ok|]. eapply wp_mono; [by apply IH|]. intros [] s' [Hp Ed]. cbn [ds_dd] in *. split; [|done].
    rewrite Hp. unfold replies at 1. cbn [ds_sent ds_events map]. by rewrite app_nil_r.
Qed.

(** C14. Whatever messages come from whichever clients, with completions of the device
    handled at any time in between: as long as each has a whole header, and a write a whole
    block, once the events are handled every message has had exactly one reply, and it says
    what a disk says that does the requests in the order in which they came. A message that
    is not so fails an assertion of the kernel. *)
Theorem disk_answers_once (dd : dev_disk) (l : list disk_step) :
  dev_ok dd -> Forall step_ok l ->
  (exists s, run_steps (l ++ [DiskEvents]) (disk_init dd) = Ret (tt, s) /\ ds_events s = [] /\
    ds_sent s ≡ₚ (answers l dd).1 /\ ds_dd s = (answers l dd).2) /\
  (forall src msg l', ~ well_formed msg -> run_steps (l ++ DiskAsk src msg :: l') (disk_init dd) = Exit).
Proof.
  intros Hok Hl. pose proof (run_steps_ok l (disk_init dd) Hl Hok) as H. apply wp_Ret in H as ([] & s & E & Hp & Ed). split.
  - exists (DiskServer (ds_dd s) [] (replies s)). split; [|by split_and!].
    rewrite (run_steps_app _ _ _ _ E). cbn [run_steps run_step]. by erewrite mbind_Ret by apply disk_suspend_ok.
  - intros src msg l' Hn. rewrite (run_steps_app _ _ _ _ E). cbn [run_steps run_step]. by apply bind_Exit, disk_round_exit.
Qed.

Definition wit_dev : dev_disk := DevDisk (replicate 2048 Byte.x00) 2.
Definition wit_steps : list disk_step :=
  [DiskAsk 5 (block_request BLOCK_WRITE 0 1 ++ replicate BLOCK_SIZE Byte.x01); DiskAsk 6 (block_request BLOCK_READ 0 1); DiskEvents;
   DiskAsk 7 (block_request BLOCK_GETSIZE 0 0); DiskAsk 5 (block_request BLOCK_READ 0 2)].

Lemma wit_steps_ok : Forall step_ok wit_steps.
Proof. apply (bool_decide_unpack _). vm_compute. exact I. Qed.

Lemma wit_answers : answers wit_steps wit_dev =
  ([(5, block_reply BLOCK_OK 1); (6, block_reply BLOCK_OK 1 ++ replicate BLOCK_SIZE Byte.x01); (7, block_reply BLOCK_OK 2); (5, block_reply BLOCK_ERROR 1)],
   DevDisk (replicate 1024 Byte.x00 ++ replicate 1024 Byte.x01) 2).
Proof. by vm_compute. Qed.

Lemma wit_dev_ok : dev_ok wit_dev.
Proof. unfold dev_ok. cbn [wit_dev dd_bytes dd_nblocks]. rewrite length_replicate. unfold BLOCK_SIZE. lia. Qed.

Lemma disk_answers_once_witness :
  (exists s, run_steps (wit_steps ++ [DiskEvents]) (disk_init wit_dev) = Ret (tt, s) /\ ds_events s = [] /\
    ds_sent s ≡ₚ [(5, block_reply BLOCK_OK 1); (6, block_reply BLOCK_OK 1 ++ replicate BLOCK_SIZE Byte.x01); (7, block_reply BLOCK_OK 2); (5, block_reply BLOCK_ERROR 1)] /\
    ds_dd s = DevDisk (replicate 1024 Byte.x00 ++ replicate 1024 Byte.x01) 2) /\
  run_steps (wit_steps ++ [DiskAsk 9 []]) (disk_init wit_dev) = Exit.
Proof.
  destruct (disk_answers_once wit_dev wit_steps wit_dev_ok wit_steps_ok) as [(s & H1 & H2 & H3 & H4) H5]. rewrite wit_answers in H3, H4. split.
  - exists s. exact (conj H1 (conj H2 (conj H3 H4))).
  - apply H5. intros [Hl _]. cbn in Hl. unfold sizeof_request in Hl. lia.
Defined.

(** * Files on a new device *)

(** The blocks of a device as a finite map. *)
Definition dev_blocks (dd : dev_disk) : vdisk :=
  list_to_map ((fun off => ((0, off), dev_block dd off)) <$> seqZ 0 (dd_nblocks dd)).

Lemma dev_blocks_repr dd : dev_ok dd -> dev_repr dd (dev_blocks dd).
Proof.
  intros Hok. split; [done|]. intros ino off. unfold dev_blocks.
  assert (NoDup ((fun off => ((0, off), dev_block dd off)) <$> seqZ 0 (dd_nblocks dd)).*1) as Hnd.
  { rewrite <- list_fmap_compose. apply NoDup_fmap_2_strong; [|apply NoDup_seqZ]. by intros x y _ _ [= ->]. }
  destruct (decide _) as [[-> Ho]|Hn].
  - apply elem_of_list_to_map; [done|]. apply list_elem_of_fmap. exists off. split; [done|]. apply elem_of_seqZ. lia.
  - apply not_elem_of_list_to_map. intros Hin. rewrite <- list_fmap_compose in Hin. apply list_elem_of_fmap in Hin as (x & E & Hx).
    apply elem_of_seqZ in Hx. apply Hn. cbn in E. injection E as -> ->. lia.
Qed.

(** A new file of the host: all blocks are null. *)
Lemma dev_create_new nblocks : 0 < nblocks < 2147483648 -> exists dd, dev_disk_create [] nblocks = Ret dd /\ dev_ok dd /\ dd_nblocks dd = nblocks /\
  forall off, 0 <= off -> dev_block dd off = null_block.
Proof.
  intros Hn. unfold dev_disk_create. rewrite decide_False by (cbn; lia). cbv zeta. rewrite decide_True by (unfold BLOCK_SIZE; lia).
  eexists. split; [done|]. split; [|split; [done|]].
  - split; [cbn; lia|]. cbn [dd_nblocks dd_bytes]. rewrite length_file_splice. cbn [length]. unfold BLOCK_SIZE. lia.
  - intros off Ho. unfold dev_block, file_block, null_block. cbn [dd_bytes]. apply list_eq. intros k. destruct (decide (k < BLOCK_SIZE)%nat) as [Hk|Hk].
    + rewrite list_lookup_fmap, lookup_seq_lt by done. cbn [fmap option_fmap option_map]. rewrite lookup_replicate_2 by done. f_equal. rewrite file_byte_splice.
      destruct (decide _) as [Hd|]; [|done]. cbn [length] in Hd. by replace (_ - _)%nat with 0%nat by lia.
    + rewrite !lookup_ge_None_2; [done| |]; rewrite ?length_replicate, ?length_fmap, ?length_seq; lia.
Qed.

Section files.
Context (pid now uid bsvr dsvr svr seconds start : Z).
Abbreviation store := (protdisk_state dev_disk).
Abbreviation blocks := (stack_rpc (S:=store)).
Abbreviation files_server := (stack_server (S:=store) pid now uid).

End files.

