(* ===== verification/Stdio.v ===== *)
(** src/src/lib/stdio.c: streams, which buffer the input and the output of a file at a
    file server, and the functions that find files by their paths. The buffers are the
    bytes they hold; the memory of the caller is what he passes or gets. *)
From stdpp Require Import base numbers list.
From Stdlib Require Import ZArith Lia.
From coqutil Require Import Byte.
From S2P Require Import Prelude BlockStore BlockProt FileProt Dir.

(** * Streams *)

Definition EOF : Z := -1.
Definition BUFSIZ : Z := 1024.
Definition FILE_MAX_MSG_SIZE : Z := 16384.

(** Numbers of the bits of [flags]. *)
Definition FILE_FLAG_READ : Z := 0.
Definition FILE_FLAG_WRITE : Z := 1.
Definition FILE_FLAG_APPEND : Z := 2.
Definition FILE_FLAG_EOF : Z := 3.
Definition FILE_FLAG_ERROR : Z := 4.

Definition IONBF : Z := 0.
Definition IOLBF : Z := 1.
Definition IOFBF : Z := 2.

Definition SEEK_SET : Z := 1.
Definition SEEK_CUR : Z := 2.
Definition SEEK_END : Z := 3.

(** [struct FILE], without the name, which is for debugging. [fl_buf] is what the buffer
    in use holds, [internal] or the one given to [setvbuf]. *)
Record FILE := MkFile {
  fl_fid : fid;
  fl_pos : Z;
  fl_flags : Z;
  fl_mode : Z;
  fl_buf : message;
  fl_size : Z;
  fl_index : Z;
  fl_in_buf : message;
  fl_in_offset : Z;
  fl_in_size : Z;
}.

Definition set_pos (v : Z) (f : FILE) : FILE :=
  MkFile (fl_fid f) v (fl_flags f) (fl_mode f) (fl_buf f) (fl_size f) (fl_index f) (fl_in_buf f) (fl_in_offset f) (fl_in_size f).
Definition set_flags (v : Z) (f : FILE) : FILE :=
  MkFile (fl_fid f) (fl_pos f) v (fl_mode f) (fl_buf f) (fl_size f) (fl_index f) (fl_in_buf f) (fl_in_offset f) (fl_in_size f).
Definition set_output (mode : Z) (buf : message) (size index : Z) (f : FILE) : FILE :=
  MkFile (fl_fid f) (fl_pos f) (fl_flags f) mode buf size index (fl_in_buf f) (fl_in_offset f) (fl_in_size f).
Definition set_index (buf : message) (index : Z) (f : FILE) : FILE := set_output (fl_mode f) buf (fl_size f) index f.
Definition set_input (buf : message) (offset size : Z) (f : FILE) : FILE :=
  MkFile (fl_fid f) (fl_pos f) (fl_flags f) (fl_mode f) (fl_buf f) (fl_size f) (fl_index f) buf offset size.

Definition has_flag (b : Z) (f : FILE) : bool := Z.testbit (fl_flags f) b.
Definition add_flag (b : Z) (f : FILE) : FILE := set_flags (Z.setbit (fl_flags f) b) f.
Definition drop_flag (b : Z) (f : FILE) : FILE := set_flags (Z.clearbit (fl_flags f) b) f.
Definition toss_input (f : FILE) : FILE := set_input (fl_in_buf f) 0 0 f.

Definition null_bytes (n : Z) : message := replicate (Z.to_nat n) Init.Byte.x00.

Definition falloc (f : fid) (flags mode : Z) : FILE :=
  MkFile f 0 flags mode (null_bytes BUFSIZ) (if decide (BUFSIZ < FILE_MAX_MSG_SIZE) then BUFSIZ else FILE_MAX_MSG_SIZE) 0
    (null_bytes BUFSIZ) 0 0.

Section streams.
Context {T : Type} `{!Rpc T}.
Abbreviation st := (T * FILE)%type.

Definition on_server {A} (m : M T A) : M st A := lift fst (fun t s => (t, s.2)) m.
Definition get_file : M st FILE := fun s => Ret (s.2, s).
Definition upd_file (g : FILE -> FILE) : M st unit := modify (fun s => (s.1, g s.2)).

Definition fflush : M st Z :=
  f ← get_file;
  if decide (fl_index f > 0) then
    r ← on_server (file_write (fid_server (fl_fid f)) (fid_file_no (fl_fid f)) (fl_pos f)
          (take (Z.to_nat (fl_index f)) (fl_buf f)) (u32 (fl_index f)));
    if decide (r = false) then upd_file (add_flag FILE_FLAG_ERROR);; mret EOF else
    upd_file (fun f => set_index (fl_buf f) 0 (set_pos (u64 (fl_pos f + fl_index f)) f));;
    mret 0
  else mret 0.

(** ** Reading *)

(** What can be returned right away: the items, and the stream after it. *)
Definition take_items (size nitems : Z) (f : FILE) : Z * message * FILE :=
  let buffered := fl_in_size f - fl_in_offset f in
  if decide (buffered >= size) then
    let ni := Z.min (buffered / size) nitems in
    let n := ni * size in
    let data := take (Z.to_nat n) (drop (Z.to_nat (fl_in_offset f)) (fl_in_buf f)) in
    let offset := fl_in_offset f + n in
    let g := if decide (offset = fl_in_size f) then set_input (fl_in_buf f) 0 0 f
             else set_input (fl_in_buf f) offset (fl_in_size f) f in
    (ni, data, set_pos (u64 (fl_pos f + n)) g)
  else (0, [], f).

(** Moves [buffered] bytes to the beginning; they may reach beyond the array. *)
Definition move_input (buffered : Z) : M st unit :=
  f ← get_file;
  if decide (buffered > 0 /\ fl_in_offset f > 0) then
    if decide (fl_in_offset f + buffered <= BUFSIZ) then
      let data := take (Z.to_nat buffered) (drop (Z.to_nat (fl_in_offset f)) (fl_in_buf f)) in
      upd_file (set_input (splice 0 data (fl_in_buf f)) 0 buffered)
    else undef
  else mret tt.

(** The number of items and their bytes; [buffered] is from before items were taken. *)
Fixpoint fread_loop (fuel : nat) (size nitems total : Z) (got : message) (short_read : bool) : M st (Z * message) :=
  match fuel with
  | O => out_of_fuel
  | Datatypes.S fuel =>
      f ← get_file;
      let buffered := fl_in_size f - fl_in_offset f in
      let '(ni, data, f) := take_items size nitems f in
      upd_file (fun _ => f);;
      let nitems := nitems - ni in
      let total := total + ni in
      let got := got ++ data in
      if decide (nitems = 0 \/ short_read = true \/ has_flag FILE_FLAG_EOF f = true) then mret (total, got) else
      move_input buffered;;
      f ← get_file;
      assert_ (bool_decide (fl_in_offset f = 0));;
      let room := BUFSIZ - fl_in_size f in
      x ← on_server (file_read (fid_server (fl_fid f)) (fid_file_no (fl_fid f)) (u64 (fl_pos f + fl_in_size f))
            (drop (Z.to_nat (fl_in_size f)) (fl_in_buf f)) room);
      let '(r, tail, to_read) := x in
      upd_file (set_input (take (Z.to_nat (fl_in_size f)) (fl_in_buf f) ++ tail) 0 (fl_in_size f));;
      if decide (r = false) then upd_file (add_flag FILE_FLAG_ERROR);; mret (0, got) else
      (if decide (to_read = 0) then upd_file (add_flag FILE_FLAG_EOF) else mret tt);;
      upd_file (fun f => set_input (fl_in_buf f) 0 (fl_in_size f + to_read) f);;
      fread_loop fuel size nitems total got (short_read || bool_decide (to_read < room))
  end.

Definition fread_fuel (nitems : Z) : nat := (Z.to_nat nitems + 3)%nat.

Definition fread (size nitems : Z) : M st (Z * message) :=
  fflush;;
  f ← get_file;
  assert_ (bool_decide (size > 0));;
  assert_ (bool_decide (fl_in_offset f <= fl_in_size f));;
  if decide (has_flag FILE_FLAG_ERROR f = true) then mret (0, []) else
  if decide (nitems = 0) then mret (0, []) else
  fread_loop (fread_fuel nitems) size nitems 0 [] false.

(** The character as an unsigned number, or [EOF]. *)
Definition byte_z (b : Init.Byte.byte) : Z := byte.unsigned b.
Definition newline : Init.Byte.byte := Init.Byte.x0a.

Definition fgetc : M st Z :=
  x ← fread 1 1;
  match x.2 with
  | b :: _ => mret (if decide (x.1 = 0) then EOF else byte_z b)
  | [] => mret EOF
  end.

Definition z_byte (c : Z) : Init.Byte.byte := byte.of_Z c.

(** The characters of the string, [None] for a null pointer; [room] is [size - 1 - i]. *)
Fixpoint fgets_loop (room : nat) (got : message) : M st (option message) :=
  match room with
  | O => mret (Some got)
  | Datatypes.S room =>
      c ← fgetc;
      if decide (c = EOF) then mret (match got with [] => None | _ => Some got end) else
      let got := got ++ [z_byte c] in
      if decide (z_byte c = newline) then mret (Some got) else fgets_loop room got
  end.

Definition fgets (size : Z) : M st (option message) := fgets_loop (Z.to_nat (size - 1)) [].

(** ** Writing *)

(** The loop for the bytes [p] that are left. *)
Fixpoint fwrite_loop (fuel : nat) (p : message) (nitems : Z) : M st Z :=
  match fuel with
  | O => out_of_fuel
  | Datatypes.S fuel =>
      if decide (length p = 0)%nat then mret nitems else
      f ← get_file;
      assert_ (bool_decide (fl_index f < fl_size f));;
      let chunk := Z.min (Z.of_nat (length p)) (fl_size f - fl_index f) in
      assert_ (bool_decide (chunk <= FILE_MAX_MSG_SIZE));;
      let buf := splice (Z.to_nat (fl_index f)) (take (Z.to_nat chunk) p) (fl_buf f) in
      let index := fl_index f + chunk in
      upd_file (set_index buf index);;
      let p := drop (Z.to_nat chunk) p in
      flush ← (if decide (length p = 0%nat /\ index < fl_size f) then
                 if decide (fl_mode f = IONBF) then mret true else
                 if decide (fl_mode f = IOLBF) then mret (bool_decide (newline ∈ take (Z.to_nat (fl_size f)) buf)) else
                 if decide (fl_mode f = IOFBF) then mret false else panic
               else mret true);
      if decide (flush = false) then mret nitems else
      r ← fflush;
      if decide (r <> 0) then mret 0 else fwrite_loop fuel p nitems
  end.

(** [ptr] are the bytes from the pointer on; reading beyond them is undefined. *)
Definition fwrite (ptr : message) (size nitems : Z) : M st Z :=
  f ← get_file;
  if decide (has_flag FILE_FLAG_ERROR f = true) then mret 0 else
  let n := u64 (size * nitems) in
  if decide (Z.of_nat (length ptr) < n) then undef else
  fwrite_loop (Z.to_nat n + 1) (take (Z.to_nat n) ptr) nitems.

Definition fputs (s : message) : M st Z := r ← fwrite s 1 (Z.of_nat (length s)); mret (i32 r).

Definition fputc (c : Z) : M st Z := r ← fwrite [z_byte c] 1 1; mret (if decide (r = 1) then c else EOF).

(** ** Positions *)

Definition fseek (offset whence : Z) : M st Z :=
  f ← get_file;
  if decide (whence = SEEK_SET) then
    (if decide (u64 offset <> fl_pos f) then fflush;; upd_file (fun f => set_pos (u64 offset) (toss_input f)) else mret tt);;
    upd_file (drop_flag FILE_FLAG_EOF);;
    mret 0
  else if decide (whence = SEEK_CUR) then
    (if decide (offset <> 0) then fflush;; upd_file (fun f => set_pos (u64 (fl_pos f + offset)) (toss_input f)) else mret tt);;
    upd_file (drop_flag FILE_FLAG_EOF);;
    mret 0
  else if decide (whence = SEEK_END) then
    x ← on_server (file_stat (fid_server (fl_fid f)) (fid_file_no (fl_fid f)) zero_fcb);
    if decide (x.1 = false) then mret (-1) else
    fflush;;
    upd_file (fun f => set_pos (u64 (st_size x.2 + offset)) (toss_input f));;
    upd_file (drop_flag FILE_FLAG_EOF);;
    mret 0
  else
    fflush;;
    upd_file (fun f => add_flag FILE_FLAG_ERROR (toss_input f));;
    mret (-1).

Definition i64 (x : Z) : Z := if decide (u64 x < 2 ^ 63) then u64 x else u64 x - two64.

Definition ftell : M st Z := fflush;; f ← get_file; mret (i64 (fl_pos f)).

Definition rewind : M st unit := fseek 0 SEEK_SET;; mret tt.

(** ** The rest *)

Definition feof : M st Z := f ← get_file; mret (if has_flag FILE_FLAG_EOF f then 8 else 0).
Definition ferror : M st Z := f ← get_file; mret (if has_flag FILE_FLAG_ERROR f then 16 else 0).
Definition clearerr : M st unit := upd_file (fun f => drop_flag FILE_FLAG_ERROR (drop_flag FILE_FLAG_EOF f)).

(** A stream that is not null. *)
Definition fflushsync : M st Z :=
  fflush;;
  f ← get_file;
  if decide (has_flag FILE_FLAG_ERROR f = true) then mret 0 else
  r ← on_server (file_sync (fid_server (fl_fid f)) (fid_file_no (fl_fid f)));
  (if decide (r = false) then upd_file (add_flag FILE_FLAG_ERROR) else mret tt);;
  mret 0.

(** [buf] is what the buffer of the caller holds. *)
Definition setvbuf (buf : option message) (mode size : Z) : M st Z :=
  upd_file (fun f =>
    let '(b, n) := match buf with
                   | Some b => if decide (mode = IONBF \/ size < BUFSIZ) then (null_bytes BUFSIZ, BUFSIZ) else (b, size)
                   | None => (null_bytes BUFSIZ, BUFSIZ)
                   end in
    set_output mode b (Z.min n FILE_MAX_MSG_SIZE) 0 f);;
  mret 0.

Definition setbuf (buf : option message) : M st unit :=
  setvbuf buf (match buf with Some _ => IOFBF | None => IONBF end) BUFSIZ;; mret tt.

Definition ffstat (pfcb : fcb) : M st (Z * fcb) :=
  f ← get_file;
  x ← on_server (file_stat (fid_server (fl_fid f)) (fid_file_no (fl_fid f)) pfcb);
  mret (if (x.1 : bool) then 0 else -1, x.2).

Definition fclose : M st Z := fflush;; mret 0.
End streams.
