(* ===== verification/StdioSpec.v ===== *)
(** What the streams of stdio.c do to a file, over any [FileService]. *)
From stdpp Require Import base numbers list.
From Stdlib Require Import ZArith Lia.
From S2P Require Import Prelude BlockStore BlockProt FileProt FileSpec Dir DirSpec Stdio.

Lemma take_length_take {A} k (l : list A) : take k l = take (length (take k l)) l.
Proof. rewrite length_take. destruct (decide (k <= length l)%nat); [by rewrite Nat.min_l|]. rewrite Nat.min_r by lia. by rewrite !take_ge by lia. Qed.

(** * Streams of one file *)

Definition with_data (s : sfile) (d : message) : sfile := SFile true (sf_uid s) (sf_mode s) d.

(** The bytes of the input buffer that have not been read. *)
Definition unread (f : FILE) : message :=
  take (Z.to_nat (fl_in_size f - fl_in_offset f)) (drop (Z.to_nat (fl_in_offset f)) (fl_in_buf f)).

(** The bytes of the output buffer. *)
Definition pending (f : FILE) : message := take (Z.to_nat (fl_index f)) (fl_buf f).

(** What the caller sees: the contents of the file and the position in it. *)
Definition seen_data (f : FILE) (s : sfile) : message := splice (Z.to_nat (fl_pos f)) (pending f) (sf_data s).
Definition seen_pos (f : FILE) : Z := fl_pos f + fl_index f.

Section streams.
Context {T : Type} {rpc : Rpc T} (svr uid i : Z) {F : FileService rpc svr uid}.
Abbreviation st := (T * FILE)%type.
Abbreviation cost := (fsv_cost (FileService := F)).
Abbreviation rep := (fsv_rep (FileService := F)).

Record srep (t : T) (f : FILE) (fs : list sfile) (s : sfile) (N : nat) : Prop := {
  sr_rep : rep t fs N;
  sr_fid : fl_fid f = Fid svr i;
  sr_file : fs !! Z.to_nat i = Some s;
  sr_no : 1 <= i < Z.of_nat (length fs);
  sr_good : fsv_good (FileService := F) i;
  sr_alloc : sf_alloc s = true;
  sr_max : Z.of_nat (length (sf_data s)) <= max_file_size;
  sr_noerr : has_flag FILE_FLAG_ERROR f = false;
  sr_pos : 0 <= fl_pos f;
  sr_end : seen_pos f <= max_file_size;
  sr_size : BUFSIZ <= fl_size f <= FILE_MAX_MSG_SIZE;
  sr_buf : length (fl_buf f) = Z.to_nat (fl_size f);
  sr_index : 0 <= fl_index f <= fl_size f;
  sr_mode : fl_mode f = IONBF \/ fl_mode f = IOLBF \/ fl_mode f = IOFBF;
  sr_in_buf : length (fl_in_buf f) = Z.to_nat BUFSIZ;
  sr_in : (0 <= fl_in_offset f < fl_in_size f /\ fl_in_size f <= BUFSIZ) \/ fl_in_offset f = 0 /\ fl_in_size f = 0;
  sr_unread : unread f = take (length (unread f)) (drop (Z.to_nat (fl_pos f)) (sf_data s));
  sr_eof : has_flag FILE_FLAG_EOF f = true -> Z.of_nat (length (sf_data s)) <= fl_pos f;
  sr_hole : fl_index f > 0 -> fl_pos f <= Z.of_nat (length (sf_data s));
}.

Lemma length_unread f : length (fl_in_buf f) = Z.to_nat BUFSIZ -> 0 <= fl_in_offset f <= fl_in_size f -> fl_in_size f <= BUFSIZ ->
  length (unread f) = Z.to_nat (fl_in_size f - fl_in_offset f).
Proof. intros H1 H2 H3. unfold unread. rewrite length_take, length_drop, H1. lia. Qed.

Lemma srep_unread t f fs s N : srep t f fs s N -> length (unread f) = Z.to_nat (fl_in_size f - fl_in_offset f).
Proof. intros []. unfold BUFSIZ in *. apply length_unread; unfold BUFSIZ; [done|lia|lia]. Qed.

Lemma length_pending t f fs s N : srep t f fs s N -> length (pending f) = Z.to_nat (fl_index f).
Proof. intros []. unfold pending. rewrite length_take. lia. Qed.

Lemma with_data_id s : sf_alloc s = true -> with_data s (sf_data s) = s.
Proof. destruct s. cbn. by intros ->. Qed.

Lemma may_with_data s d : sf_alloc s = true -> may_read uid (with_data s d) = may_read uid s /\ may_write uid (with_data s d) = may_write uid s.
Proof. destruct s. cbn. by intros ->. Qed.

Lemma wp_get_stream (x : st) (Q : FILE -> st -> Prop) : Q x.2 x -> wp (get_file (T:=T)) x Q.
Proof. done. Qed.

Lemma wp_upd_stream g (x : st) (Q : unit -> st -> Prop) : Q tt (x.1, g x.2) -> wp (upd_file (T:=T) g) x Q.
Proof. done. Qed.

(** ** The calls to the server *)

Lemma on_server_wp {A} (m : M T A) (t : T) (f : FILE) (Q : A -> st -> Prop) : wp m t (fun a t' => Q a (t', f)) -> wp (on_server m) (t, f) Q.
Proof. intros H. unfold on_server. by apply wp_lift. Qed.

Lemma server_write_ok t f fs s N off data : srep t f fs s N -> may_write uid s = true -> 0 <= off <= Z.of_nat (length (sf_data s)) ->
  off + Z.of_nat (length data) <= max_file_size -> (length data <= PAGESIZE)%nat -> (cost <= N)%nat ->
  wp (file_write svr i off data (Z.of_nat (length data))) t (fun r t' => r = true /\
    rep t' (<[Z.to_nat i:=with_data s (splice (Z.to_nat off) data (sf_data s))]> fs) (N - cost)).
Proof.
  intros [] Hw Ho Hmax Hl HN. pose proof (fsv_op (FileService := F) t fs N (FileWrite i off data) sr_rep0) as H.
  cbn [valid_file_op spec_file_op exec_file_op] in H. rewrite sr_file0 in H. cbn [fmap option_fmap option_map default from_option id] in H.
  specialize (H ltac:(split_and!; (assumption || lia)) HN). rewrite Hw in H. cbn [fst snd] in H. fold (with_data s (splice (Z.to_nat off) data (sf_data s))) in H.
  apply wp_bind_inv in H. eapply wp_mono; [exact H|]. intros r t' H'. unfold wp in H'. cbn in H'. destruct H' as [[= ->] H']. by split.
Qed.

Lemma server_read_ok t f fs s N off len buf : srep t f fs s N -> may_read uid s = true -> 0 <= off < two64 -> 0 <= len <= 2 ^ 31 -> (cost <= N)%nat ->
  let d := take (Z.to_nat len) (drop (Z.to_nat off) (sf_data s)) in
  wp (file_read svr i off buf len) t (fun x t' => x = (true, d ++ drop (length d) buf, Z.of_nat (length d)) /\ rep t' fs (N - cost)).
Proof.
  intros [] Hr Ho Hl HN d. pose proof (fsv_op (FileService := F) t fs N (FileRead i off len) sr_rep0) as H.
  cbn [valid_file_op spec_file_op] in H. specialize (H ltac:(split_and!; (assumption || lia)) HN). rewrite sr_file0, Hr in H. cbn [fst snd] in H.
  eapply wp_mono; [exact (file_read_buffer _ _ _ _ _ _ _ H buf)|]. by intros x t' [HQ ->].
Qed.

(** ** Flushing *)

Record flushed (f f' : FILE) : Prop := {
  fh_in : fl_in_buf f' = fl_in_buf f /\ fl_in_offset f' = fl_in_offset f /\ fl_in_size f' = fl_in_size f;
  fh_pos : fl_pos f' = seen_pos f;
  fh_index : fl_index f' = 0;
  fh_flags : fl_flags f' = fl_flags f;
}.

Lemma pending_nil f : fl_index f = 0 -> pending f = [].
Proof. intros E. unfold pending. by rewrite E. Qed.

Lemma unread_nil f : fl_in_size f = 0 -> 0 <= fl_in_offset f -> unread f = [].
Proof. intros E H. unfold unread. rewrite E. by replace (Z.to_nat (0 - fl_in_offset f)) with 0%nat by lia. Qed.

Lemma fflush_ok t f fs s N : srep t f fs s N -> (fl_index f > 0 -> may_write uid s = true) -> (fl_index f = 0 \/ fl_in_size f = 0) -> (cost <= N)%nat ->
  wp fflush (t, f) (fun r x => r = 0 /\ flushed f x.2 /\ exists N', (N <= N' + cost)%nat /\
    let s' := with_data s (seen_data f s) in srep x.1 x.2 (<[Z.to_nat i:=s']> fs) s' N').
Proof.
  intros Hs Hw Hx HN. pose proof (length_pending _ _ _ _ _ Hs) as Hlp. unfold fflush. step. apply wp_get_stream. cbn [snd].
  destruct (decide (fl_index f > 0)) as [Hi|Hi].
  - step. rewrite u32_small by (destruct Hs; unfold FILE_MAX_MSG_SIZE, is_u32, two32 in *; lia).
    rewrite (sr_fid _ _ _ _ _ Hs). cbn [fid_server fid_file_no]. fold (pending f). apply on_server_wp.
    replace (fl_index f) with (Z.of_nat (length (pending f))) by (rewrite Hlp; destruct Hs; lia). eapply wp_mono.
    { apply (server_write_ok t f fs s N (fl_pos f) (pending f) Hs); [by apply Hw|destruct Hs; auto with lia| | |done].
      - rewrite Hlp. destruct Hs. unfold seen_pos in *. lia.
      - rewrite Hlp. destruct Hs. unfold FILE_MAX_MSG_SIZE, PAGESIZE in *. lia. }
    intros r t' [-> Hr]. rewrite decide_False by done. step. apply wp_upd_stream. cbn [fst snd]. step. split; [done|]. cbn [fst snd].
    assert (u64 (fl_pos f + fl_index f) = seen_pos f) as Ep.
    { apply u64_small. destruct Hs. unfold seen_pos, max_file_size, two64 in *. lia. }
    split; [split; [done|by cbn; rewrite Ep|done|done]|]. exists (N - cost)%nat. split; [lia|].
    replace (Z.to_nat (fl_pos f)) with (Z.to_nat (fl_pos f)) in Hr by done. fold (seen_data f s) in Hr.
    pose proof (sr_hole _ _ _ _ _ Hs Hi) as Hhole. pose proof (srep_unread _ _ _ _ _ Hs) as Hu. destruct Hs.
    assert (length (seen_data f s) = Nat.max (length (sf_data s)) (Z.to_nat (seen_pos f))) as Hl.
    { unfold seen_data, seen_pos. rewrite length_splice_ext by lia. rewrite Hlp. lia. }
    assert (unread f = []) as Hnil by (apply unread_nil; lia).
    split; unfold seen_pos in *; cbn [set_index set_output set_pos fl_fid fl_pos fl_flags fl_mode fl_buf fl_size fl_index fl_in_buf fl_in_offset fl_in_size with_data sf_data sf_alloc];
      rewrite ?Ep; try done; try lia.
    + apply list_lookup_insert_eq. by eapply lookup_lt_Some.
    + by rewrite length_insert.
    + change (unread _) with (unread f). by rewrite Hnil.
    + intros E. specialize (sr_eof0 E). lia.
  - step. split; [done|]. assert (fl_index f = 0) as E0 by (destruct Hs; lia). cbn [fst snd].
    assert (seen_pos f = fl_pos f) as Ep by (unfold seen_pos; lia).
    split; [split; [done|by rewrite Ep|done|done]|]. exists N. split; [lia|].
    unfold seen_data. rewrite pending_nil, splice_nil by done. rewrite with_data_id by apply Hs. rewrite list_insert_id by apply Hs. exact Hs.
Qed.

(** ** Reading bytes *)

Lemma unread_prefix t f fs s N : srep t f fs s N -> exists rest, drop (Z.to_nat (fl_pos f)) (sf_data s) = unread f ++ rest.
Proof.
  intros Hs. exists (drop (length (unread f)) (drop (Z.to_nat (fl_pos f)) (sf_data s))).
  rewrite <- (take_drop (length (unread f)) (drop (Z.to_nat (fl_pos f)) (sf_data s))) at 1. f_equal. symmetry. apply Hs.
Qed.

(** Taking [m] bytes at most of what has been read ahead. *)
Lemma take_items_ok t f fs s N m : srep t f fs s N -> fl_index f = 0 -> 0 < m ->
  exists f', take_items 1 m f = (Z.min (Z.of_nat (length (unread f))) m, take (Z.to_nat m) (unread f), f') /\
    srep t f' fs s N /\ fl_index f' = 0 /\ fl_flags f' = fl_flags f /\ unread f' = drop (Z.to_nat m) (unread f) /\
    fl_pos f' = fl_pos f + Z.min (Z.of_nat (length (unread f))) m /\ (fl_mode f' = fl_mode f).
Proof.
  intros Hs Ei Hm. pose proof (srep_unread _ _ _ _ _ Hs) as Hu. destruct (unread_prefix _ _ _ _ _ Hs) as [rest Hrest].
  unfold take_items. set (b := fl_in_size f - fl_in_offset f) in *. assert (0 <= b) as Hb by (destruct Hs; lia).
  destruct (decide (b >= 1)) as [H1|H1].
  2:{ exists f. assert (unread f = []) as E by (apply length_zero_iff_nil; lia). rewrite E, take_nil, drop_nil. cbn [length].
      replace (Z.min (Z.of_nat 0) m) with 0 by lia. rewrite Z.add_0_r. by split_and!. }
  rewrite Z.div_1_r. cbv zeta. set (ni := Z.min b m). replace (ni * 1) with ni by lia.
  assert (fl_pos f + b <= Z.of_nat (length (sf_data s))) as Hend.
  { apply (f_equal length) in Hrest. rewrite length_drop, length_app, Hu in Hrest. destruct Hs. lia. }
  assert (u64 (fl_pos f + ni) = fl_pos f + ni) as Ep by (apply u64_small; destruct Hs; unfold max_file_size, two64 in *; lia).
  assert (take (Z.to_nat ni) (drop (Z.to_nat (fl_in_offset f)) (fl_in_buf f)) = take (Z.to_nat m) (unread f)) as Ed.
  { unfold unread. rewrite take_take. f_equal. unfold ni, b. lia. }
  rewrite Ed, Ep, Hu. replace (Z.min (Z.of_nat (Z.to_nat b)) m) with ni by lia.
  set (g := if decide _ then _ else _). exists (set_pos (fl_pos f + ni) g). split; [done|].
  assert (fl_fid g = fl_fid f /\ fl_flags g = fl_flags f /\ fl_mode g = fl_mode f /\ fl_buf g = fl_buf f /\ fl_size g = fl_size f /\
    fl_index g = fl_index f /\ fl_in_buf g = fl_in_buf f) as (G1 & G2 & G3 & G4 & G5 & G6 & G7) by (unfold g; by destruct (decide _)).
  assert (unread (set_pos (fl_pos f + ni) g) = drop (Z.to_nat m) (unread f)) as Eu.
  { unfold g. destruct (decide (fl_in_offset f + ni = fl_in_size f)) as [E|E].
    - rewrite (drop_ge (unread f)) by (rewrite Hu; unfold b in *; lia). apply unread_nil; [done|]. cbn. lia.
    - unfold unread. cbn [set_pos set_input fl_in_size fl_in_offset fl_in_buf]. rewrite skipn_firstn_comm, drop_drop.
      f_equal; [unfold b in *; lia|f_equal; destruct Hs; unfold b in *; lia]. }
  assert (forall k, has_flag k (set_pos (fl_pos f + ni) g) = has_flag k f) as Hflag by (intros k; unfold has_flag; cbn [set_pos fl_flags]; by rewrite G2).
  split_and!; try (cbn; congruence || done).
  destruct Hs. split; unfold seen_pos in *; cbn [set_pos fl_fid fl_pos fl_flags fl_mode fl_buf fl_size fl_index fl_in_buf fl_in_offset fl_in_size has_flag];
    rewrite ?G1, ?G2, ?G3, ?G4, ?G5, ?G6, ?G7, ?Hflag; try done; try lia.
  - unfold g. destruct (decide _) as [E|E]; cbn; [by right|left; unfold b in *; lia].
  - rewrite Eu. rewrite length_drop, Hu. replace (Z.to_nat (fl_pos f + ni)) with (Z.to_nat (fl_pos f) + Z.to_nat ni)%nat by lia.
    rewrite <- drop_drop, Hrest. destruct (decide (m <= b)) as [Hmb|Hmb].
    + replace ni with m by (unfold ni; lia). rewrite drop_app_le by lia. by rewrite take_app_length' by (rewrite length_drop, Hu; lia).
    + rewrite drop_ge by lia. by replace (Z.to_nat b - Z.to_nat m)%nat with 0%nat by lia.
  - intros E. specialize (sr_eof0 E). lia.
Qed.

(** The stream when an empty input buffer has been filled with [d]. *)
Definition filled (d : message) (f : FILE) : FILE :=
  let g := set_input (d ++ drop (length d) (fl_in_buf f)) 0 (Z.of_nat (length d)) f in
  if decide (Z.of_nat (length d) = 0) then add_flag FILE_FLAG_EOF g else g.

Lemma has_flag_add a b f : 0 <= a -> 0 <= b -> has_flag a (add_flag b f) = (bool_decide (a = b) || has_flag a f).
Proof.
  intros Ha Hb. unfold has_flag, add_flag. cbn [set_flags fl_flags]. rewrite Z.setbit_eqb by done.
  rewrite (Z.eqb_sym b a). f_equal. case_bool_decide; [by apply Z.eqb_eq|by apply Z.eqb_neq].
Qed.

Lemma filled_ok t f fs s N t' N' : srep t f fs s N -> fl_index f = 0 -> fl_in_size f = 0 -> rep t' fs N' ->
  let d := take (Z.to_nat BUFSIZ) (drop (Z.to_nat (fl_pos f)) (sf_data s)) in
  srep t' (filled d f) fs s N' /\ fl_index (filled d f) = 0 /\ unread (filled d f) = d /\ fl_pos (filled d f) = fl_pos f.
Proof.
  intros Hs Ei Es Hr d. set (g := set_input (d ++ drop (length d) (fl_in_buf f)) 0 (Z.of_nat (length d)) f).
  assert (length d <= Z.to_nat BUFSIZ)%nat as Hd by (unfold d; rewrite length_take; lia).
  assert (unread g = d) as Eu.
  { unfold unread, g. cbn [set_input fl_in_size fl_in_offset fl_in_buf]. rewrite Z.sub_0_r, Nat2Z.id, drop_0. by rewrite take_app_length. }
  assert (unread (filled d f) = d /\ fl_index (filled d f) = 0 /\ fl_pos (filled d f) = fl_pos f) as (F1 & F2 & F3).
  { unfold filled. fold g. by destruct (decide _). }
  split; [|done]. assert (forall k, 0 <= k -> has_flag k (filled d f) = (bool_decide (k = FILE_FLAG_EOF /\ d = []) || has_flag k f)) as Hflag.
  { intros k Hk. unfold filled. fold g. destruct (decide (Z.of_nat (length d) = 0)) as [E|E].
    - rewrite has_flag_add by done. assert (d = []) as -> by (apply length_zero_iff_nil; lia). f_equal. apply bool_decide_ext. tauto.
    - rewrite bool_decide_eq_false_2; [done|]. intros [_ ->]. done. }
  assert (fl_fid (filled d f) = fl_fid f /\ fl_buf (filled d f) = fl_buf f /\ fl_size (filled d f) = fl_size f /\ fl_mode (filled d f) = fl_mode f /\
    fl_in_buf (filled d f) = d ++ drop (length d) (fl_in_buf f) /\ fl_in_offset (filled d f) = 0 /\ fl_in_size (filled d f) = Z.of_nat (length d))
    as (G1 & G2 & G3 & G4 & G5 & G6 & G7) by (unfold filled; by destruct (decide _)).
  destruct Hs. split; unfold seen_pos in *; rewrite ?F2, ?F3, ?G1, ?G2, ?G3, ?G4, ?G5, ?G6, ?G7, ?Hflag by done; try done; try lia.
  - rewrite length_app, length_drop. lia.
  - rewrite F1. apply take_length_take.
  - rewrite orb_true_iff, bool_decide_eq_true. intros [[_ E]|E]; [|by apply sr_eof0].
    apply (f_equal length) in E. unfold d in E. rewrite length_take, length_drop in E. cbn [length] in E. unfold BUFSIZ in E. lia.
Qed.

(** The calls of a loop that wants [m] bytes. *)
Definition fills (m : Z) (f : FILE) (short_read : bool) : nat :=
  if short_read then 0%nat else Z.to_nat ((Z.max 0 (m - Z.of_nat (length (unread f))) + 1023) / 1024).

Lemma fread_loop_ok fuel : forall t f fs s N m total got short_read,
  srep t f fs s N -> fl_index f = 0 -> may_read uid s = true -> 0 < m ->
  (short_read = true -> unread f = drop (Z.to_nat (fl_pos f)) (sf_data s) /\ (unread f = [] -> has_flag FILE_FLAG_EOF f = true)) ->
  (if short_read then 0 else Z.max 0 (m - Z.of_nat (length (unread f)))) < Z.of_nat fuel ->
  (cost * fills m f short_read <= N)%nat ->
  let r := take (Z.to_nat m) (drop (Z.to_nat (fl_pos f)) (sf_data s)) in
  wp (fread_loop fuel 1 m total got short_read) (t, f) (fun x y => x = (total + Z.of_nat (length r), got ++ r) /\
    exists N', (N <= N' + cost * fills m f short_read)%nat /\ srep y.1 y.2 fs s N' /\ fl_index y.2 = 0 /\
    fl_pos y.2 = fl_pos f + Z.of_nat (length r) /\ (r = [] -> has_flag FILE_FLAG_EOF y.2 = true)).
Proof.
  induction fuel as [|fuel IH]; intros t f fs s N m total got short_read Hs Ei Hmr Hm Hshort Hfuel HN r; [destruct short_read; lia|].
  cbn [fread_loop]. step. apply wp_get_stream. cbn [snd].
  destruct (take_items_ok t f fs s N m Hs Ei Hm) as (f1 & -> & Hs1 & Ei1 & Efl & Eu1 & Ep1 & _).
  set (b := Z.of_nat (length (unread f))) in *. destruct (unread_prefix _ _ _ _ _ Hs) as [rest Hrest].
  step. apply wp_upd_stream. cbn [fst snd]. set (ni := Z.min b m) in *.
  destruct (decide (m - ni = 0 \/ short_read = true \/ has_flag FILE_FLAG_EOF f1 = true)) as [Hdone|Hmore].
  - step. assert (r = take (Z.to_nat m) (unread f)) as Er.
    { unfold r. destruct Hdone as [H|[H|H]].
      - rewrite Hrest. by rewrite take_app_le by lia.
      - by destruct (Hshort H) as [<- _].
      - unfold has_flag in H. rewrite Efl in H. pose proof (sr_eof _ _ _ _ _ Hs H) as E.
        rewrite drop_ge in Hrest |- * by lia. symmetry in Hrest. apply app_eq_nil in Hrest as [-> _]. done. }
    assert (Z.of_nat (length r) = ni) as El by (rewrite Er, length_take; lia). rewrite El. split; [by rewrite Er|].
    exists N. split; [lia|]. cbn [fst snd]. split_and!; [done|done|done|]. intros Enil. assert (unread f = []) as E0.
    { apply length_zero_iff_nil. rewrite Enil in El. cbn in El. lia. }
    destruct Hdone as [H|[H|H]]; [|destruct (Hshort H) as [_ H']; unfold has_flag in *; rewrite Efl; by apply H'|done].
    unfold ni, b in H. rewrite E0 in H. cbn in H. lia.
  - assert (short_read = false) as -> by (destruct short_read; [exfalso; tauto|done]).
    assert (ni = b /\ b < m) as [Eni Hbm] by lia. assert (unread f1 = []) as Eu1' by (rewrite Eu1; apply drop_ge; lia).
    assert (fl_in_offset f1 = 0 /\ fl_in_size f1 = 0) as [Eo Es].
    { pose proof (srep_unread _ _ _ _ _ Hs1) as H. rewrite Eu1' in H. cbn in H. destruct Hs1. lia. }
    step. unfold move_input. step. apply wp_get_stream. cbn [snd]. rewrite decide_False by lia. step. step. apply wp_get_stream. cbn [snd].
    step. apply wp_assert; [by apply bool_decide_eq_true_2|]. rewrite (sr_fid _ _ _ _ _ Hs1), Es. cbn [fid_server fid_file_no]. cbv zeta. step.
    apply on_server_wp. rewrite Z.add_0_r. assert (u64 (fl_pos f1) = fl_pos f1) as -> by (apply u64_small; destruct Hs1; unfold seen_pos, max_file_size, two64 in *; lia).
    assert (cost <= N)%nat as HcN by (unfold fills in HN; fold b in HN; assert (1 <= (Z.max 0 (m - b) + 1023) / 1024) by (apply Z.div_le_lower_bound; lia); nia).
    eapply wp_mono.
    { apply (server_read_ok t f1 fs s N (fl_pos f1) (BUFSIZ - 0) (drop (Z.to_nat 0) (fl_in_buf f1)) Hs1 Hmr); [destruct Hs1; unfold seen_pos, max_file_size, two64 in *; lia|done|done]. }
    rewrite Z.sub_0_r. set (d := take (Z.to_nat BUFSIZ) (drop (Z.to_nat (fl_pos f1)) (sf_data s))). intros x t' [-> Hr'].
    step. apply wp_upd_stream. cbn [fst snd]. rewrite (decide_False (P := true = false)) by done.
    destruct (filled_ok t f1 fs s N t' (N - cost) Hs1 Ei1 Es Hr') as (Hs2 & Ei2 & Eu2 & Ep2). fold d in Hs2, Ei2, Eu2, Ep2.
    step. apply (wp_mono _ _ (fun _ y => y.1 = t' /\ set_input (fl_in_buf y.2) 0 (fl_in_size y.2 + Z.of_nat (length d)) y.2 = filled d f1)).
    { unfold filled. destruct f1. cbn in Eo, Es. subst. destruct (decide (Z.of_nat (length d) = 0)); [apply wp_upd_stream|apply wp_ret]; by split. }
    intros [] [t2 f2] [Et Ef]. cbn [fst snd] in Et, Ef. subst t2. step. apply wp_upd_stream. cbn [fst snd]. rewrite Ef. clear Ef f2.
    assert (Z.of_nat (length d) <= 1024) as Hd by (unfold d, BUFSIZ; rewrite length_take; lia).
    set (short' := false || bool_decide (Z.of_nat (length d) < BUFSIZ)).
    assert (short' = false -> Z.of_nat (length d) = 1024) as Hfull.
    { unfold short'. cbn [orb]. intros H. apply bool_decide_eq_false_1 in H. unfold BUFSIZ in H. lia. }
    assert (fills (m - ni) (filled d f1) short' + 1 <= fills m f false)%nat as Hfills.
    { unfold fills. rewrite Eu2. fold b. destruct short'; [assert (1 <= (Z.max 0 (m - b) + 1023) / 1024) by (apply Z.div_le_lower_bound; lia); lia|].
      specialize (Hfull eq_refl). Z.to_euclidean_division_equations; lia. }
    eapply wp_mono.
    { apply (IH t' (filled d f1) fs s (N - cost)%nat (m - ni) (total + ni) (got ++ take (Z.to_nat m) (unread f)) short' Hs2 Ei2 Hmr); [lia| | |nia].
      - intros H. rewrite Eu2, Ep2. apply bool_decide_eq_true_1 in H. unfold BUFSIZ in H. split.
        + unfold d. apply take_ge. unfold d in H. rewrite length_take in H. unfold BUFSIZ in *. lia.
        + intros ->. unfold filled. cbn [length]. rewrite decide_True by done. by rewrite has_flag_add, bool_decide_eq_true_2 by done.
      - rewrite Eu2. destruct short'; [lia|]. specialize (Hfull eq_refl). lia. }
    rewrite Eni in Hfills. apply (Nat.mul_le_mono_l _ _ cost) in Hfills. rewrite Nat.mul_add_distr_l, Nat.mul_1_r in Hfills.
    rewrite Ep2, Ep1, Eni. intros x [t3 f3] (-> & N' & HN' & Hs3 & Ei3 & Ep3 & Heof). cbn [fst snd] in *.
    assert (r = unread f ++ take (Z.to_nat (m - b)) (drop (Z.to_nat (fl_pos f + b)) (sf_data s))) as Er.
    { unfold r. replace (Z.to_nat (fl_pos f + b)) with (Z.to_nat (fl_pos f) + length (unread f))%nat by (destruct Hs; unfold b; lia).
      rewrite <- drop_drop, Hrest, drop_app_length. rewrite take_app_ge by lia. do 2 f_equal. unfold b. lia. }
    set (r' := take (Z.to_nat (m - b)) _) in *. rewrite Er, length_app. split; [f_equal; [lia|]|].
    + rewrite (take_ge (unread f)) by lia. by rewrite app_assoc.
    + exists N'. split; [lia|]. split_and!; [done|done|lia|]. intros H. apply app_eq_nil in H as [_ H]. by apply Heof.
Qed.
(** What a reading call of [n] bytes may cost: the flush, and the buffers it fills. *)
Definition read_calls (n : Z) : nat := (Z.to_nat ((Z.max 0 n + 1023) / 1024) + 1)%nat.

Lemma fread_ok t f fs s N n : srep t f fs s N -> (fl_index f > 0 -> may_write uid s = true) -> may_read uid s = true ->
  fl_index f = 0 \/ fl_in_size f = 0 -> 0 <= n -> (cost * read_calls n <= N)%nat ->
  let s' := with_data s (seen_data f s) in
  let r := take (Z.to_nat n) (drop (Z.to_nat (seen_pos f)) (sf_data s')) in
  wp (fread 1 n) (t, f) (fun x y => x = (Z.of_nat (length r), r) /\ exists N', (N <= N' + cost * read_calls n)%nat /\
    srep y.1 y.2 (<[Z.to_nat i:=s']> fs) s' N' /\ fl_index y.2 = 0 /\ fl_pos y.2 = seen_pos f + Z.of_nat (length r) /\
    (0 < n -> r = [] -> has_flag FILE_FLAG_EOF y.2 = true)).
Proof.
  intros Hs Hw Hr Hx Hn HN s' r. unfold fread. unfold read_calls in *. step. eapply wp_mono.
  { apply (fflush_ok t f fs s N Hs Hw Hx). nia. }
  intros r0 [t1 f1] (_ & Hfl & N1 & HN1 & Hs1). cbn [fst snd] in *. fold s' in Hs1. destruct Hfl as [(_ & _ & _) Hp Hi _].
  step. apply wp_get_stream. cbn [snd]. step. apply wp_assert; [done|]. step. apply wp_assert; [apply bool_decide_eq_true_2; destruct Hs1; lia|].
  rewrite (sr_noerr _ _ _ _ _ Hs1). rewrite decide_False by done. destruct (decide (n = 0)) as [->|Hn0].
  - step. split; [done|]. exists N1. cbn [fst snd]. split; [nia|]. split_and!; [done|done|rewrite Hp; unfold r; change (Z.to_nat 0) with 0%nat; rewrite take_0; cbn [length]; lia|intros ?; lia].
  - assert (fills n f1 false <= Z.to_nat ((Z.max 0 n + 1023) / 1024))%nat as Hfi.
    { unfold fills. apply Z2Nat.inj_le; [apply Z.div_pos; lia|apply Z.div_pos; lia|apply Z.div_le_mono; lia]. }
    apply (Nat.mul_le_mono_l _ _ cost) in Hfi. rewrite Nat.mul_add_distr_l, Nat.mul_1_r in HN. eapply wp_mono.
    { apply (fread_loop_ok (fread_fuel n) t1 f1 (<[Z.to_nat i:=s']> fs) s' N1 n 0 [] false Hs1 Hi); [|lia|done| |lia].
      { unfold s'. rewrite (proj1 (may_with_data _ _ (sr_alloc _ _ _ _ _ Hs))). exact Hr. }
      unfold fread_fuel. lia. }
    rewrite Hp. fold r. intros x [t2 f2] (-> & N2 & HN2 & Hs2 & Hi2 & Hp2 & Heof). cbn [fst snd] in *. split; [by rewrite Z.add_0_l|].
    exists N2. split; [lia|]. split_and!; [done|done|done|]. intros _. exact Heof.
Qed.

(** ** Writing bytes *)

(** [d] put into an output buffer with room for it. *)
Definition buffered (d : message) (f : FILE) : FILE :=
  set_index (splice (Z.to_nat (fl_index f)) d (fl_buf f)) (fl_index f + Z.of_nat (length d)) f.

Lemma buffered_ok t f fs s N d : srep t f fs s N -> fl_in_size f = 0 -> fl_pos f <= Z.of_nat (length (sf_data s)) ->
  fl_index f + Z.of_nat (length d) <= fl_size f -> seen_pos f + Z.of_nat (length d) <= max_file_size ->
  srep t (buffered d f) fs s N /\ seen_pos (buffered d f) = seen_pos f + Z.of_nat (length d) /\
  seen_data (buffered d f) s = splice (Z.to_nat (seen_pos f)) d (seen_data f s).
Proof.
  intros Hs Ein Hhole Hroom Hmax. pose proof (length_pending _ _ _ _ _ Hs) as Hlp.
  assert (pending (buffered d f) = pending f ++ d) as Ep.
  { unfold pending, buffered. cbn [set_index set_output fl_index fl_buf].
    replace (Z.to_nat (fl_index f + Z.of_nat (length d))) with (Z.to_nat (fl_index f) + length d)%nat by (destruct Hs; lia).
    apply take_splice_app. destruct Hs. lia. }
  split_and!.
  - destruct Hs. assert (seen_pos (buffered d f) = seen_pos f + Z.of_nat (length d)) as Es by (unfold seen_pos; cbn; lia).
    split; rewrite ?Es; cbn [buffered set_index set_output fl_fid fl_pos fl_flags fl_mode fl_buf fl_size fl_index fl_in_buf fl_in_offset fl_in_size]; try done; try lia.
    rewrite length_splice_ext by lia. lia.
  - unfold seen_pos. cbn. lia.
  - unfold seen_data. rewrite Ep. cbn [buffered set_index set_output fl_pos]. rewrite <- splice_app by (destruct Hs; lia). f_equal.
    rewrite Hlp. unfold seen_pos. destruct Hs. lia.
Qed.

(** The flushes that writing [n] bytes may need. *)
Definition write_calls (n : Z) : nat := (Z.to_nat (n / 1024) + 2)%nat.
Definition flushes (n : Z) (f : FILE) : nat :=
  if decide (n = 0) then 0%nat else (Z.to_nat (n / 1024) + if decide (fl_index f = 0)%Z then 1 else 2)%nat.

Lemma flushes_step n c f f' : 0 < n -> 0 <= fl_index f < fl_size f -> BUFSIZ <= fl_size f -> c = Z.min n (fl_size f - fl_index f) ->
  n - c = 0 \/ c = fl_size f - fl_index f -> fl_index f' = 0 -> (flushes (n - c) f' + 1 <= flushes n f)%nat.
Proof.
  intros Hn Hi Hsz -> Hc E. unfold flushes, BUFSIZ in *. rewrite (decide_False (P := n = 0)) by lia. rewrite (decide_True (P := fl_index f' = 0)) by done.
  set (c := Z.min n (fl_size f - fl_index f)) in *. destruct (decide (n - c = 0)); [destruct (decide (fl_index f = 0)); lia|].
  destruct Hc as [|Hc]; [done|]. destruct (decide (fl_index f = 0)) as [E0|E0]; Z.to_euclidean_division_equations; lia.
Qed.

Lemma fwrite_loop_ok fuel : forall t f fs s N p nitems,
  srep t f fs s N -> fl_in_size f = 0 -> fl_index f < fl_size f -> may_write uid s = true ->
  fl_pos f <= Z.of_nat (length (sf_data s)) -> seen_pos f + Z.of_nat (length p) <= max_file_size ->
  (length p < fuel)%nat -> (cost * flushes (Z.of_nat (length p)) f <= N)%nat ->
  wp (fwrite_loop fuel p nitems) (t, f) (fun r y => r = nitems /\ exists N' s', (N <= N' + cost * flushes (Z.of_nat (length p)) f)%nat /\
    s' = with_data s (sf_data s') /\ srep y.1 y.2 (<[Z.to_nat i:=s']> fs) s' N' /\ fl_in_size y.2 = 0 /\ fl_index y.2 < fl_size y.2 /\
    fl_pos y.2 <= Z.of_nat (length (sf_data s')) /\ seen_pos y.2 = seen_pos f + Z.of_nat (length p) /\
    seen_data y.2 s' = splice (Z.to_nat (seen_pos f)) p (seen_data f s)).
Proof.
  induction fuel as [|fuel IH]; intros t f fs s N p nitems Hs Ein Hroom Hmw Hhole Hmax Hfuel HN; [lia|]. cbn [fwrite_loop].
  destruct (decide (length p = 0%nat)) as [Hp|Hp].
  { step. split; [done|]. apply length_zero_iff_nil in Hp as ->. exists N, s. cbn [fst snd length]. split; [lia|].
    rewrite with_data_id by apply Hs. rewrite list_insert_id by apply Hs. rewrite splice_nil. split_and!; (done || lia). }
  step. apply wp_get_stream. cbn [snd]. step. apply wp_assert; [by apply bool_decide_eq_true_2|]. cbv zeta.
  set (c := Z.min (Z.of_nat (length p)) (fl_size f - fl_index f)) in *. step.
  apply wp_assert; [apply bool_decide_eq_true_2; destruct Hs; lia|]. step. apply wp_upd_stream. cbn [fst snd].
  set (d := take (Z.to_nat c) p) in *. assert (Z.of_nat (length d) = c) as Hd by (unfold d; rewrite length_take; destruct Hs; lia).
  rewrite <- Hd. fold (buffered d f). replace (Z.to_nat (Z.of_nat (length d))) with (Z.to_nat c) by lia.
  destruct (buffered_ok t f fs s N d Hs Ein Hhole ltac:(lia) ltac:(lia)) as (Hs1 & Ep1 & Ed1).
  change (set_index _ (fl_index f + Z.of_nat (length d)) f) with (buffered d f).
  set (p' := drop (Z.to_nat c) p). assert (Z.of_nat (length p') = Z.of_nat (length p) - c) as Hp' by (unfold p'; rewrite length_drop; lia).
  assert (p = d ++ p') as Epp by (unfold d, p'; by rewrite take_drop).
  step. apply (wp_mono _ _ (fun flush y => y = (t, buffered d f) /\ (flush = false -> p' = [] /\ fl_index f + c < fl_size f) /\
    (flush = true -> p' = [] \/ c = fl_size f - fl_index f))).
  { rewrite Hd. destruct (decide (length p' = 0%nat /\ fl_index f + c < fl_size f)) as [[H1 H2]|H].
    - apply length_zero_iff_nil in H1. destruct (sr_mode _ _ _ _ _ Hs) as [->|[->| ->]]; apply wp_ret; split_and!; auto.
    - apply wp_ret. split_and!; [done|done|]. intros _. right. lia. }
  intros flush y (-> & Hno & Hyes). destruct flush; cycle 1.
  - destruct (Hno eq_refl) as [Enil Hlt]. rewrite decide_True by done. step. split; [done|]. exists N, s. cbn [fst snd].
    split; [lia|]. rewrite with_data_id by apply Hs. rewrite list_insert_id by apply Hs. rewrite Enil, app_nil_r in Epp. rewrite Epp, Hd in *.
    split_and!; [done|done|done|cbn; rewrite Hd; lia|done|done|done].
  - rewrite decide_False by done. step. set (n := Z.of_nat (length p)) in *.
    assert (1 <= flushes n f)%nat as H1 by (unfold flushes; rewrite decide_False by lia; destruct (decide (fl_index f = 0)); lia).
    apply (Nat.mul_le_mono_l _ _ cost) in H1 as H1c. eapply wp_mono.
    { apply (fflush_ok t (buffered d f) fs s N Hs1); [done|by right|lia]. }
    intros r [t2 f2] (-> & Hfl & N2 & HN2 & Hs2). cbn [fst snd] in *. rewrite decide_False by lia. destruct Hfl as [(Eb & Eo & Ei) Hp2 Hi2 _].
    set (s2 := with_data s (seen_data (buffered d f) s)) in *.
    pose proof (flushes_step n c f f2 ltac:(lia) ltac:(destruct Hs; lia) ltac:(destruct Hs; lia) eq_refl) as Hst.
    specialize (Hst ltac:(destruct (Hyes eq_refl) as [E|E]; [left; rewrite E in Hp'; cbn in Hp'; lia|by right]) Hi2).
    apply (Nat.mul_le_mono_l _ _ cost) in Hst. rewrite Nat.mul_add_distr_l, Nat.mul_1_r in Hst. rewrite <- Hp' in Hst.
    assert (seen_pos f2 = seen_pos f + c) as Esp by (unfold seen_pos at 1; lia).
    assert (Z.of_nat (length (sf_data s2)) >= seen_pos f + c) as Hlen.
    { cbn [s2 with_data sf_data]. rewrite Ed1. rewrite length_splice_ext; [rewrite Hd in *; destruct Hs; unfold seen_pos in *; lia|].
      unfold seen_data. rewrite length_splice_ext by (destruct Hs; lia). rewrite (length_pending _ _ _ _ _ Hs). destruct Hs. unfold seen_pos. lia. }
    eapply wp_mono.
    { apply (IH t2 f2 (<[Z.to_nat i:=s2]> fs) s2 N2 p' nitems Hs2); [by rewrite Ei|destruct Hs2; unfold BUFSIZ in *; lia| |lia|lia|lia|lia].
      unfold s2. rewrite (proj2 (may_with_data _ _ (sr_alloc _ _ _ _ _ Hs))). exact Hmw. }
    intros r y (-> & N3 & s3 & HN3 & Es3 & Hs3 & Hin3 & Hix3 & Hh3 & Ep3 & Ed3). split; [done|]. exists N3, s3.
    rewrite list_insert_insert_eq in Hs3. split; [lia|]. split_and!; [done|done|done|done|done|lia|].
    rewrite Ed3, Esp. unfold seen_data at 1. rewrite pending_nil, splice_nil by done. cbn [s2 with_data sf_data]. rewrite Ed1, Epp.
    replace (Z.to_nat (seen_pos f + c)) with (Z.to_nat (seen_pos f) + length d)%nat by (destruct Hs; unfold seen_pos; lia).
    apply splice_app. unfold seen_data. rewrite length_splice_ext by (destruct Hs; lia). rewrite (length_pending _ _ _ _ _ Hs). destruct Hs. unfold seen_pos. lia.
Qed.
End streams.
