(* ===== verification/StdioProps.v ===== *)
(** Streams as files with a position: any sequence of calls on a stream does what the
    same calls do to the contents of a file and a number, as long as it keeps to the rules
    that [valid_sop] states. *)
From stdpp Require Import base numbers list.
From Stdlib Require Import ZArith Lia.
From S2P Require Import Prelude BlockStore BlockProt FileProt FileSpec Dir DirSpec RamFile RamFileSpec DirProps Stdio StdioSpec.

(** * The abstract stream *)

(** After an output call a stream may have output that is not flushed; after an input
    call it may have input that is not consumed. *)
Inductive smode := Idle | Reading | Writing.
#[global] Instance smode_eq_dec : EqDecision smode.
Proof. solve_decision. Defined.

Record astream := AStream { as_data : message; as_pos : Z; as_mode : smode }.

Inductive sop :=
| SRead (n : Z)
| SLine (size : Z)
| SWrite (d : message)
| SSeek (p : Z)
| SMove (d : Z)
| SFlush
| STell.

Inductive sreply :=
| SBytes (n : Z) (d : message)
| SString (s : option message)
| SCount (n : Z).

(** The next line of [l], or its first [room] bytes when the line is longer. *)
Fixpoint next_line (room : nat) (l : message) : message :=
  match room, l with
  | Datatypes.S room, b :: l => b :: (if decide (b = newline) then [] else next_line room l)
  | _, _ => []
  end.

Definition move_to (p : Z) (a : astream) : astream :=
  if decide (p = as_pos a) then a else AStream (as_data a) p Idle.

Definition spec_sop (a : astream) (o : sop) : sreply * astream :=
  let here := drop (Z.to_nat (as_pos a)) (as_data a) in
  let advance d := AStream (as_data a) (as_pos a + Z.of_nat (length d)) Reading in
  let flushed := AStream (as_data a) (as_pos a) (if decide (as_mode a = Writing) then Idle else as_mode a) in
  match o with
  | SRead n => let d := take (Z.to_nat n) here in (SBytes (Z.of_nat (length d)) d, advance d)
  | SLine size =>
      let d := next_line (Z.to_nat (size - 1)) here in
      if decide (size <= 1) then (SString (Some []), a)
      else (SString (match d with [] => None | _ => Some d end), advance d)
  | SWrite d =>
      (SCount (Z.of_nat (length d)),
       AStream (splice (Z.to_nat (as_pos a)) d (as_data a)) (as_pos a + Z.of_nat (length d)) Writing)
  | SSeek p => (SCount 0, move_to p a)
  | SMove d => (SCount 0, move_to (as_pos a + d) a)
  | SFlush => (SCount 0, flushed)
  | STell => (SCount (as_pos a), flushed)
  end.

Fixpoint spec_sops (a : astream) (os : list sop) : list sreply * astream :=
  match os with
  | [] => ([], a)
  | o :: os => let '(r, a) := spec_sop a o in let '(rs, a) := spec_sops a os in (r :: rs, a)
  end.

(** Input and output are kept apart: after input a stream is moved elsewhere before
    output; after output it is flushed before it is moved. A hole is not written. *)
Definition valid_sop (a : astream) (o : sop) : Prop :=
  match o with
  | SRead n => 0 <= n
  | SWrite d => as_mode a <> Reading /\ as_pos a <= Z.of_nat (length (as_data a)) /\
                as_pos a + Z.of_nat (length d) <= max_file_size
  | SSeek p => as_mode a <> Writing /\ 0 <= p <= max_file_size
  | SMove d => as_mode a <> Writing /\ 0 <= as_pos a + d <= max_file_size
  | SLine _ | SFlush | STell => True
  end.

Fixpoint valid_sops (a : astream) (os : list sop) : Prop :=
  match os with
  | [] => True
  | o :: os => valid_sop a o /\ valid_sops (spec_sop a o).2 os
  end.

(** The calls to the server that an operation may need. *)
Definition sop_calls (o : sop) : nat :=
  match o with
  | SRead n => read_calls n
  | SLine size => (2 * Z.to_nat size)%nat
  | SWrite d => write_calls (Z.of_nat (length d))
  | SSeek _ | SMove _ | SFlush | STell => 1%nat
  end.

Definition sops_calls (os : list sop) : nat := sum_list_with sop_calls os.

(** * The stream *)

Section exec.
Context {T : Type} {rpc : Rpc T}.
Abbreviation st := (T * FILE)%type.

Definition exec_sop (o : sop) : M st sreply :=
  match o with
  | SRead n => x ← fread 1 n; mret (SBytes x.1 x.2)
  | SLine size => s ← fgets size; mret (SString s)
  | SWrite d => r ← fwrite d 1 (Z.of_nat (length d)); mret (SCount r)
  | SSeek p => r ← fseek p SEEK_SET; mret (SCount r)
  | SMove d => r ← fseek d SEEK_CUR; mret (SCount r)
  | SFlush => r ← fflush; mret (SCount r)
  | STell => r ← ftell; mret (SCount r)
  end.

Fixpoint exec_sops (os : list sop) : M st (list sreply) :=
  match os with
  | [] => mret []
  | o :: os => r ← exec_sop o; rs ← exec_sops os; mret (r :: rs)
  end.

(** The calls on a stream up to the last. *)
Definition stream_session (os : list sop) : M st (list sreply) := rs ← exec_sops os; fclose;; mret rs.
End exec.

Section refine.
Context {T : Type} {rpc : Rpc T} (svr uid i : Z) {F : FileService rpc svr uid} (fs : list sfile) (s0 : sfile).
Context (Halloc : sf_alloc s0 = true) (Hread : may_read uid s0 = true) (Hwrite : may_write uid s0 = true).
Abbreviation st := (T * FILE)%type.
Abbreviation cost := (fsv_cost (FileService := F)).
Abbreviation rep := (fsv_rep (FileService := F)).
Abbreviation sr := (srep (F := F) svr uid i).

(** The stream [f] of the file [i], which has been [s0], is the abstract stream [a]. *)
Definition opened (x : st) (a : astream) (N : nat) : Prop := exists s,
  s = with_data s0 (sf_data s) /\ sr x.1 x.2 (<[Z.to_nat i:=s]> fs) s N /\
  seen_data x.2 s = as_data a /\ seen_pos x.2 = as_pos a /\ fl_index x.2 < fl_size x.2 /\
  (as_mode a = Writing \/ fl_index x.2 = 0) /\ (as_mode a = Reading \/ fl_in_size x.2 = 0).

Lemma with_data_with s d d' : with_data (with_data s d) d' = with_data s d'.
Proof. done. Qed.

Lemma may_with s : s = with_data s0 (sf_data s) -> may_read uid s = true /\ may_write uid s = true.
Proof. intros ->. by rewrite !(proj1 (may_with_data _ _ _ Halloc)), !(proj2 (may_with_data _ _ _ Halloc)). Qed.

Lemma opened_idle x a N : opened x a N -> as_mode a <> Writing -> fl_index x.2 = 0 /\ exists s,
  s = with_data s0 (as_data a) /\ sr x.1 x.2 (<[Z.to_nat i:=s]> fs) s N /\ fl_pos x.2 = as_pos a.
Proof.
  intros (s & Es & Hs & Ed & Ep & _ & [?|Hi] & _) Ha; [done|]. split; [done|]. exists s.
  unfold seen_data in Ed. rewrite pending_nil, splice_nil in Ed by done. unfold seen_pos in Ep. rewrite Hi, Z.add_0_r in Ep.
  rewrite <- Ed. by split_and!.
Qed.

Lemma insert_stream s s' : <[Z.to_nat i:=s']> (<[Z.to_nat i:=s]> fs) = <[Z.to_nat i:=s']> fs.
Proof. apply list_insert_insert_eq. Qed.

Lemma opened_flush_ready x a N : opened x a N -> exists s,
  s = with_data s0 (sf_data s) /\ sr x.1 x.2 (<[Z.to_nat i:=s]> fs) s N /\ (fl_index x.2 = 0 \/ fl_in_size x.2 = 0) /\
  with_data s (seen_data x.2 s) = with_data s0 (as_data a) /\ seen_pos x.2 = as_pos a.
Proof.
  intros (s & Es & Hs & Ed & Ep & _ & H1 & H2). exists s. split_and!; [done|done| |by rewrite Ed, Es|done].
  destruct H2 as [H2|H2]; [|by right]. left. by destruct H1 as [H1|H1]; [congruence|].
Qed.

Lemma opened_fflush x a N : opened x a N -> (cost <= N)%nat ->
  wp fflush x (fun r y => r = 0 /\ fl_index y.2 = 0 /\ exists N', (N <= N' + cost)%nat /\
    opened y (AStream (as_data a) (as_pos a) (if decide (as_mode a = Writing) then Idle else as_mode a)) N').
Proof.
  intros Ho HN. destruct (opened_flush_ready _ _ _ Ho) as (s & Es & Hs & Hx & Ew & Ep). destruct x as [t f]. cbn [fst snd] in *.
  eapply wp_mono; [apply (fflush_ok svr uid i t f _ s N Hs); [intros _; apply (may_with s Es)|exact Hx|exact HN]|].
  intros r y (-> & Hfl & N' & HN' & Hs'). cbv zeta in Hs'. rewrite Ew, insert_stream in Hs'. split; [done|]. destruct Hfl as [(Eb & Eo & Ei) Hp Hi _].
  split; [done|]. exists N'. split; [done|]. exists (with_data s0 (as_data a)). cbn [as_data as_pos as_mode].
  split_and!; [done|exact Hs'| | |rewrite Hi; destruct Hs'; unfold BUFSIZ in *; lia|by right|].
  - unfold seen_data. by rewrite pending_nil, splice_nil.
  - unfold seen_pos. lia.
  - rewrite Ei. destruct Ho as (_ & _ & _ & _ & _ & _ & _ & Hm). cbn [snd] in Hm.
    destruct (decide (as_mode a = Writing)) as [E|E]; [|exact Hm]. right. destruct Hm; [congruence|done].
Qed.

Lemma opened_fread x a N n : opened x a N -> 0 <= n -> (cost * read_calls n <= N)%nat ->
  let r := take (Z.to_nat n) (drop (Z.to_nat (as_pos a)) (as_data a)) in
  wp (fread 1 n) x (fun z y => z = (Z.of_nat (length r), r) /\ exists N', (N <= N' + cost * read_calls n)%nat /\
    opened y (AStream (as_data a) (as_pos a + Z.of_nat (length r)) Reading) N').
Proof.
  intros Ho Hn HN r. destruct (opened_flush_ready _ _ _ Ho) as (s & Es & Hs & Hx & Ew & Ep). destruct x as [t f]. cbn [fst snd] in *.
  eapply wp_mono; [apply (fread_ok svr uid i t f _ s N n Hs); [intros _; apply (may_with s Es)|apply (may_with s Es)|exact Hx|exact Hn|exact HN]|].
  rewrite Ew, Ep. cbn [with_data sf_data]. fold r. intros z y (-> & N' & HN' & Hs' & Hi & Hp & _). split; [done|]. exists N'. split; [done|].
  rewrite insert_stream in Hs'. exists (with_data s0 (as_data a)). cbn [as_data as_pos as_mode].
  split_and!; [done|exact Hs'| | |rewrite Hi; destruct Hs'; unfold BUFSIZ in *; lia|by right|by left].
  - unfold seen_data. by rewrite pending_nil, splice_nil.
  - unfold seen_pos. lia.
Qed.
Lemma opened_fwrite x a N d : opened x a N -> valid_sop a (SWrite d) -> (cost * write_calls (Z.of_nat (length d)) <= N)%nat ->
  wp (fwrite d 1 (Z.of_nat (length d))) x (fun r y => r = Z.of_nat (length d) /\
    exists N', (N <= N' + cost * write_calls (Z.of_nat (length d)))%nat /\ opened y (spec_sop a (SWrite d)).2 N').
Proof.
  intros (s & Es & Hs & Ed & Ep & Hroom & H1 & H2) (Hm & Hhole & Hmax) HN. destruct x as [t f]. cbn [fst snd] in *.
  assert (fl_in_size f = 0) as Ein by (destruct H2; done). destruct (may_with s Es) as [_ Hw].
  assert (fl_pos f <= Z.of_nat (length (sf_data s))) as Hh.
  { destruct (decide (fl_index f > 0)) as [Hi|Hi]; [by apply Hs|]. assert (fl_index f = 0) as Hi0 by (destruct Hs; lia).
    unfold seen_data in Ed. rewrite pending_nil, splice_nil in Ed by done. unfold seen_pos in Ep. rewrite <- Ed in Hhole. lia. }
  set (n := Z.of_nat (length d)) in *. assert (n < two64) as Hn by (destruct Hs; unfold seen_pos, max_file_size, two64 in *; lia).
  assert (flushes n f <= write_calls n)%nat as Hc by (unfold flushes, write_calls; destruct (decide _); [lia|destruct (decide _); lia]).
  apply (Nat.mul_le_mono_l _ _ cost) in Hc. unfold fwrite. step. apply wp_get_stream. cbn [snd].
  rewrite (sr_noerr _ _ _ _ _ _ _ _ Hs), decide_False by done. cbv zeta. rewrite Z.mul_1_l, u64_small by lia.
  rewrite decide_False by lia. unfold n at 2. rewrite Nat2Z.id, firstn_all. eapply wp_mono.
  { apply (fwrite_loop_ok svr uid i (Z.to_nat n + 1) t f _ s N d n Hs Ein Hroom Hw Hh); [fold n; lia|unfold n; lia|fold n; lia]. }
  intros r y (-> & N' & s' & HN' & Es' & Hs' & Hin' & Hroom' & Hh' & Ep' & Ed'). fold n in HN', Ep'. split; [done|]. exists N'. split; [lia|].
  rewrite insert_stream in Hs'. exists s'. cbn [spec_sop snd as_data as_pos as_mode].
  split_and!; [by rewrite Es', Es at 1|exact Hs'|by rewrite Ed', Ed, Ep|lia|done|by left|by right].
Qed.

(** A stream without output that moves to [p]. *)
Definition moved (p : Z) (f : FILE) : FILE := set_pos p (toss_input f).

Lemma drop_eof f : has_flag FILE_FLAG_EOF (drop_flag FILE_FLAG_EOF f) = false /\
  has_flag FILE_FLAG_ERROR (drop_flag FILE_FLAG_EOF f) = has_flag FILE_FLAG_ERROR f.
Proof.
  unfold has_flag, drop_flag. cbn [set_flags fl_flags]. rewrite !Z.clearbit_eqb by done.
  by rewrite Z.eqb_refl, andb_false_r, andb_true_r.
Qed.

Lemma move_ok t f s N p : sr t f (<[Z.to_nat i:=s]> fs) s N -> fl_index f = 0 -> 0 <= p <= max_file_size ->
  sr t (drop_flag FILE_FLAG_EOF (moved p f)) (<[Z.to_nat i:=s]> fs) s N.
Proof.
  intros Hs Hi Hp. destruct (drop_eof (moved p f)) as [Heof Herr], Hs.
  split; rewrite ?Heof, ?Herr; try done; unfold seen_pos; try (cbn; lia).
Qed.

Lemma stay_ok t f s N : sr t f (<[Z.to_nat i:=s]> fs) s N -> sr t (drop_flag FILE_FLAG_EOF f) (<[Z.to_nat i:=s]> fs) s N.
Proof. intros Hs. destruct (drop_eof f) as [Heof Herr], Hs. by split; rewrite ?Heof, ?Herr. Qed.

(** Either call of [fseek] after its test: [g] moves the stream to [p]. *)
Definition seek_to (same : bool) (g : FILE -> FILE) : M st Z :=
  (if same then mret tt else fflush;; upd_file g);; upd_file (drop_flag FILE_FLAG_EOF);; mret 0.

Lemma opened_seek x a N p g : opened x a N -> as_mode a <> Writing -> 0 <= p <= max_file_size ->
  (p <> as_pos a -> g x.2 = moved p x.2) ->
  wp (seek_to (bool_decide (p = as_pos a)) g) x (fun r y => r = 0 /\ opened y (move_to p a) N).
Proof.
  intros Ho Ha Hp Hg. destruct (opened_idle _ _ _ Ho Ha) as (Hi & s & Es & Hs & Ep). destruct x as [t f]. cbn [fst snd] in *.
  unfold seek_to, move_to. case_bool_decide as E; step.
  - step. step. apply wp_upd_stream. cbn [fst snd]. step. split; [done|]. rewrite decide_True by done.
    destruct Ho as (s' & Es' & Hs' & Hrest). exists s'. cbn [fst snd] in *. split; [done|]. split; [by apply stay_ok|]. exact Hrest.
  - unfold fflush. step. step. apply wp_get_stream. cbn [snd]. rewrite decide_False by lia. step. apply wp_upd_stream. cbn [fst snd].
    rewrite (Hg E). step. apply wp_upd_stream. cbn [fst snd]. step. split; [done|]. rewrite decide_False by done. exists s.
    cbn [fst snd as_data as_pos as_mode]. split; [by rewrite Es|]. split; [by apply move_ok|].
    assert (fl_index (drop_flag FILE_FLAG_EOF (moved p f)) = 0) as Hi' by done.
    split_and!; [|unfold seen_pos; rewrite Hi'; cbn; lia|rewrite Hi'; destruct Hs; cbn; unfold BUFSIZ in *; lia|by right|by right].
    unfold seen_data. rewrite pending_nil, splice_nil by done. by rewrite Es.
Qed.
(** ** Lines *)

Lemma byte_back b : z_byte (byte_z b) = b /\ byte_z b <> EOF.
Proof.
  split; by destruct b.
Qed.

Lemma opened_fgetc x a N : opened x a N -> (cost * 2 <= N)%nat ->
  wp fgetc x (fun c y => exists N', (N <= N' + cost * 2)%nat /\ match drop (Z.to_nat (as_pos a)) (as_data a) with
    | b :: _ => c = byte_z b /\ opened y (AStream (as_data a) (as_pos a + 1) Reading) N'
    | [] => c = EOF /\ opened y (AStream (as_data a) (as_pos a) Reading) N'
    end).
Proof.
  intros Ho HN. unfold fgetc. step. assert (read_calls 1 = 2%nat) as Ec by done. eapply wp_mono.
  { apply (opened_fread x a N 1 Ho); [lia|by rewrite Ec]. }
  intros z y (-> & N' & HN' & Ho'). rewrite Ec in HN'. cbn [fst snd]. change (Z.to_nat 1) with 1%nat in *.
  destruct (drop (Z.to_nat (as_pos a)) (as_data a)) as [|b l]; cbn [take length] in *; step; exists N'; (split; [done|]).
  - by rewrite Z.add_0_r in Ho'.
  - rewrite decide_False by done. split; [done|]. exact Ho'.
Qed.

Lemma fgets_loop_ok room : forall x a N got, opened x a N -> (as_mode a = Reading \/ room <> 0%nat) -> (0 <= as_pos a) -> (cost * (2 * room) <= N)%nat ->
  let d := next_line room (drop (Z.to_nat (as_pos a)) (as_data a)) in
  wp (fgets_loop room got) x (fun r y => r = (if decide (room <> 0%nat /\ got ++ d = []) then None else Some (got ++ d)) /\
    exists N', (N <= N' + cost * (2 * room))%nat /\ opened y (AStream (as_data a) (as_pos a + Z.of_nat (length d)) Reading) N').
Proof.
  induction room as [|room IH]; intros x a N got Ho Hm H0 HN d; cbn [fgets_loop].
  - step. split; [by rewrite app_nil_r|]. exists N. split; [lia|]. cbn [d next_line length]. rewrite Z.add_0_r.
    destruct Hm as [Hm|]; [|done]. rewrite <- Hm. by destruct a.
  - step. eapply wp_mono; [apply (opened_fgetc x a N Ho); lia|]. intros c y (N1 & HN1 & Hc).
    destruct (drop (Z.to_nat (as_pos a)) (as_data a)) as [|b l] eqn:E.
    + destruct Hc as [-> Ho1]. rewrite decide_True by done. step. cbn [next_line] in d. subst d. rewrite app_nil_r. split.
      * destruct got; [by rewrite decide_True|]. by rewrite decide_False by (intros [_ Hg]; discriminate).
      * exists N1. split; [lia|]. cbn [length]. by rewrite Z.add_0_r.
    + destruct Hc as [-> Ho1]. destruct (byte_back b) as [Hb Hne]. rewrite decide_False by done. cbv zeta. rewrite Hb.
      subst d. cbn [next_line]. rewrite (decide_False (P := Datatypes.S room <> 0%nat /\ _)) by (intros [_ H]; by apply app_eq_nil in H as [_ H]).
      destruct (decide (b = newline)) as [En|En].
      * step. split; [done|]. exists N1. split; [lia|]. exact Ho1.
      * destruct (decide (room = 0%nat)) as [->|Hr].
        { cbn [fgets_loop]. step. cbn [next_line]. split; [done|]. exists N1. split; [lia|]. exact Ho1. }
        assert (drop (Z.to_nat (as_pos a + 1)) (as_data a) = l) as El.
        { replace (Z.to_nat (as_pos a + 1)) with (Z.to_nat (as_pos a) + 1)%nat by lia. by rewrite <- drop_drop, E. }
        eapply wp_mono; [apply (IH y _ N1 (got ++ [b]) Ho1); [by left|cbn; lia|lia]|]. cbn [as_data as_pos]. rewrite El.
        intros r z (-> & N2 & HN2 & Ho2). rewrite <- app_assoc. cbn [app]. split.
        { rewrite decide_False; [done|]. intros [_ H]. by apply app_eq_nil in H as [_ H]. }
        exists N2. split; [lia|]. cbn [length]. by replace (as_pos a + Z.of_nat (Datatypes.S (length (next_line room l)))) with (as_pos a + 1 + Z.of_nat (length (next_line room l))) by lia.
Qed.

(** ** Sequences *)

Definition astream_ok (a : astream) : Prop := 0 <= as_pos a <= max_file_size.

Lemma opened_pos x a N : opened x a N -> astream_ok a.
Proof.
  intros (s & _ & Hs & _ & Ep & _). unfold astream_ok. rewrite <- Ep. destruct Hs. unfold seen_pos in *. lia.
Qed.

Lemma opened_op x a N o : opened x a N -> valid_sop a o -> (cost * sop_calls o <= N)%nat ->
  wp (exec_sop o) x (fun r y => r = (spec_sop a o).1 /\ exists N', (N <= N' + cost * sop_calls o)%nat /\ opened y (spec_sop a o).2 N').
Proof.
  intros Ho Hv HN. pose proof (opened_pos _ _ _ Ho) as Hpos. unfold astream_ok in Hpos.
  destruct o as [n|size|d|p|d| |]; cbn [valid_sop sop_calls exec_sop] in *; step.
  - eapply wp_mono; [apply (opened_fread x a N n Ho Hv HN)|]. intros z y (-> & H). step. by split.
  - unfold fgets. cbn [spec_sop]. destruct (decide (size <= 1)) as [Hsz|Hsz].
    + replace (Z.to_nat (size - 1)) with 0%nat by lia. cbn [fgets_loop]. step. step. split; [done|]. exists N. split; [lia|done].
    + eapply wp_mono; [apply (fgets_loop_ok (Z.to_nat (size - 1)) x a N [] Ho); [right; lia|lia|nia]|].
      intros r y (-> & N' & HN' & Ho'). step. cbn [app fst snd]. split; [|exists N'; split; [nia|exact Ho']].
      f_equal. destruct (next_line _ _); [by rewrite decide_True by (split; [lia|done])|by rewrite decide_False by (intros [_ Hd]; discriminate)].
  - eapply wp_mono; [apply (opened_fwrite x a N d Ho Hv HN)|]. intros r y (-> & H). step. by split.
  - destruct Hv as [Hm Hp]. destruct (opened_idle _ _ _ Ho Hm) as (_ & _ & _ & _ & Ep).
    assert (u64 p = p) as Eu by (apply u64_small; unfold max_file_size, two64 in *; lia).
    apply (wp_mono _ _ (fun r y => r = 0 /\ opened y (move_to p a) N)); [|intros r y (-> & H); step; split; [done|]; exists N; split; [lia|done]].
    pose proof (opened_seek x a N p (fun f => set_pos (u64 p) (toss_input f)) Ho Hm Hp ltac:(by rewrite Eu)) as H.
    unfold fseek. step. apply wp_get_stream. rewrite decide_True by done. rewrite Eu, Ep in *.
    unfold seek_to in H. case_bool_decide as E; [by rewrite decide_False by (intros Hne; by apply Hne)|by rewrite decide_True].
  - destruct Hv as [Hm Hp]. destruct (opened_idle _ _ _ Ho Hm) as (_ & _ & _ & _ & Ep).
    assert (u64 (as_pos a + d) = as_pos a + d) as Eu by (apply u64_small; unfold max_file_size, two64 in *; lia).
    apply (wp_mono _ _ (fun r y => r = 0 /\ opened y (move_to (as_pos a + d) a) N)); [|intros r y (-> & H); step; split; [done|]; exists N; split; [lia|done]].
    pose proof (opened_seek x a N (as_pos a + d) (fun f => set_pos (u64 (fl_pos f + d)) (toss_input f)) Ho Hm Hp ltac:(intros _; cbn beta; by rewrite Ep, Eu)) as H.
    unfold fseek. step. apply wp_get_stream. rewrite decide_False by done. rewrite decide_True by done.
    unfold seek_to in H. case_bool_decide as E; [by rewrite decide_False by lia|by rewrite decide_True by lia].
  - eapply wp_mono; [apply (opened_fflush x a N Ho); lia|]. intros r y (-> & _ & N' & HN' & H). step. split; [done|]. exists N'. split; [lia|done].
  - unfold ftell. step. eapply wp_mono; [apply (opened_fflush x a N Ho); lia|]. intros r y (-> & Hi & N' & HN' & H). step. apply wp_get_stream.
    step. step. cbn [spec_sop fst snd].
    assert (fl_pos y.2 = as_pos a) as Ep by (destruct H as (s & _ & _ & _ & Ep & _); unfold seen_pos in Ep; cbn [as_pos] in Ep; lia).
    split; [|exists N'; split; [lia|done]]. f_equal. unfold i64. rewrite Ep, u64_small by (unfold max_file_size, two64 in *; lia).
    rewrite decide_True; [done|]. unfold max_file_size in Hpos. lia.
Qed.

Lemma opened_ops os : forall x a N, opened x a N -> valid_sops a os -> (cost * sops_calls os <= N)%nat ->
  wp (exec_sops os) x (fun rs y => rs = (spec_sops a os).1 /\ exists N', (N <= N' + cost * sops_calls os)%nat /\ opened y (spec_sops a os).2 N').
Proof.
  induction os as [|o os IH]; intros x a N Ho Hv HN; cbn [exec_sops].
  - step. split; [done|]. exists N. split; [lia|done].
  - destruct Hv as [Hv Hvs]. unfold sops_calls in *. cbn [sum_list_with] in *. rewrite Nat.mul_add_distr_l in HN |- *. step.
    eapply wp_mono; [apply (opened_op x a N o Ho Hv); lia|]. cbn [spec_sops]. destruct (spec_sop a o) as [r' a'].
    intros r y (-> & N1 & HN1 & Ho1). cbn [fst snd] in *. step. eapply wp_mono; [apply (IH y a' N1 Ho1 Hvs); lia|].
    destruct (spec_sops a' os) as [rs' a'']. intros rs z (-> & N2 & HN2 & Ho2). cbn [fst snd] in *. step. split; [done|]. exists N2. split; [lia|done].
Qed.

Lemma falloc_opened t N flags mode : rep t fs N -> fs !! Z.to_nat i = Some s0 -> 1 <= i < Z.of_nat (length fs) ->
  fsv_good (FileService := F) i -> Z.of_nat (length (sf_data s0)) <= max_file_size -> Z.testbit flags FILE_FLAG_ERROR = false ->
  Z.testbit flags FILE_FLAG_EOF = false -> mode = IONBF \/ mode = IOLBF \/ mode = IOFBF ->
  opened (t, falloc (Fid svr i) flags mode) (AStream (sf_data s0) 0 Idle) N.
Proof.
  intros Hr Hl Hi Hg Hmax He Hf Hm. exists s0. rewrite with_data_id by done. split; [done|].
  assert (seen_pos (falloc (Fid svr i) flags mode) = 0) as Ep by done.
  rewrite list_insert_id by done. split; [|split_and!; [|done|done|by right|by right]].
  - split; rewrite ?Ep; try done; try (unfold max_file_size; lia); cbn [fst snd falloc fl_fid fl_pos fl_flags fl_mode fl_buf fl_size fl_index fl_in_buf fl_in_offset fl_in_size].
    + by right.
    + unfold has_flag, falloc. cbn [fl_flags]. by rewrite Hf.
  - unfold seen_data. by rewrite pending_nil, splice_nil.
Qed.
End refine.

(** * Properties *)

(** C15. A stream is a file with a position: over any file server that keeps its
    contract, opening a stream on a file that the user may read and write, a sequence of
    [fread] and [fwrite] with items of one byte, [fgets], [fseek] from the start or from the
    position, [ftell] and [fflush], and [fclose], return what the same calls return on the
    contents and a number, whatever the buffering mode, and leave the server with exactly the
    contents that result, the other files as they were. The rules, which [valid_sop] states:
    a stream is moved between input and output, and flushed between output and moving; no
    hole is written; contents and positions stay within 2^30 bytes. *)
Theorem stdio_stream_correct {T} (rpc : Rpc T) (svr uid i : Z) (F : FileService rpc svr uid) (fs : list sfile) (s : sfile) (os : list sop)
    (t : T) (N : nat) (flags mode : Z) :
  fsv_rep t fs N -> fs !! Z.to_nat i = Some s -> 1 <= i < Z.of_nat (length fs) -> fsv_good i ->
  may_read uid s = true -> may_write uid s = true -> Z.of_nat (length (sf_data s)) <= max_file_size ->
  Z.testbit flags FILE_FLAG_ERROR = false -> Z.testbit flags FILE_FLAG_EOF = false -> mode = IONBF \/ mode = IOLBF \/ mode = IOFBF ->
  let a := AStream (sf_data s) 0 Idle in
  valid_sops a os -> (fsv_cost * (sops_calls os + 1) <= N)%nat ->
  wp (stream_session os) (t, falloc (Fid svr i) flags mode) (fun rs x =>
    rs = (spec_sops a os).1 /\
    exists N', fsv_rep x.1 (<[Z.to_nat i:=with_data s (as_data (spec_sops a os).2)]> fs) N').
Proof.
  intros Hr Hl Hi Hg Hmr Hmw Hmax He Hf Hm a Hv HN. assert (sf_alloc s = true) as Ha by (unfold may_read in Hmr; by destruct (sf_alloc s)).
  rewrite Nat.mul_add_distr_l, Nat.mul_1_r in HN. unfold stream_session. step. eapply wp_mono.
  { apply (opened_ops svr uid i fs s Ha Hmr Hmw os _ a N); [by apply falloc_opened|exact Hv|lia]. }
  intros rs y (-> & N1 & HN1 & Ho). step. unfold fclose. step. eapply wp_mono; [apply (opened_fflush svr uid i fs s Ha Hmr Hmw y _ N1 Ho); lia|].
  intros r z (_ & Hi0 & N2 & HN2 & Ho2). step. step. split; [done|]. exists N2.
  destruct (opened_idle svr uid i fs s z _ N2 Ho2) as (_ & s' & -> & Hs' & _).
  { cbn [as_mode]. by destruct (decide _). }
  by destruct Hs'.
Qed.

Definition wit_bytes (l : list nat) : message := map (fun n => z_byte (Z.of_nat n)) l.

(** Two lines, read as lines and by bytes, and an overwritten byte. *)
Definition wit_sops : list sop :=
  [SWrite (wit_bytes [97; 98; 10; 99; 100]); STell; SSeek 0; SLine 9; SRead 9; SRead 1; SLine 2; SMove (-4); SWrite (wit_bytes [90]); SFlush; SSeek 1;
   SRead 2]%nat.

Lemma stdio_stream_correct_witness :
  wp (@exec_file_op _ wit_ram 5 (FileCreate P_FILE_DEFAULT)) (ramfile_init 0 0) (fun r t => r = RCreate true 1 /\
    wp (@stream_session _ wit_ram wit_sops) (t, falloc (Fid 5 1) 3 IOLBF) (fun rs _ => rs =
      [SCount 5; SCount 5; SCount 0; SString (Some (wit_bytes [97; 98; 10]%nat)); SBytes 2 (wit_bytes [99; 100]%nat); SBytes 0 []; SString None;
       SCount 0; SCount 1; SCount 0; SCount 0; SBytes 2 (wit_bytes [90; 10]%nat)])).
Proof.
  pose proof (fsv_op (FileService := wit_ram_service) (ramfile_init 0 0) ram_start 0 (FileCreate P_FILE_DEFAULT)) as H.
  eapply wp_mono; [apply H; [by apply ram_start_rep|vm_compute; intuition congruence|apply le_n]|]. intros r t [-> Ht]. split; [reflexivity|].
  eapply wp_mono.
  { apply (stdio_stream_correct wit_ram 5 0 1 wit_ram_service _ (SFile true 0 P_FILE_DEFAULT []) wit_sops t 0 3 IOLBF Ht);
      [reflexivity|split; vm_compute; congruence|exact I|reflexivity|reflexivity|vm_compute; congruence|reflexivity|reflexivity|by right; left| |apply le_n].
    repeat split; vm_compute; congruence. }
  intros rs x [-> _]. reflexivity.
Defined.

(** C39. Reading items of more than one byte can read outside of the buffer: when the
    stream holds [b] bytes of input, which is at least one item but neither a whole number
    of items nor all that is wanted, and [b] bytes from where the items end reach beyond
    the array, [fread] moves them all the same (it uses the count from before the items
    were taken). A full buffer and items of three bytes are an example. *)
Theorem fread_items_undef {T} (rpc : Rpc T) (t : T) (f : FILE) (size nitems : Z) :
  let b := fl_in_size f - fl_in_offset f in
  fl_index f = 0 -> 0 <= fl_in_offset f -> has_flag FILE_FLAG_ERROR f = false -> has_flag FILE_FLAG_EOF f = false ->
  0 < size <= b -> b mod size <> 0 -> b / size < nitems -> 0 <= fl_pos f ->
  BUFSIZ < fl_in_offset f + b / size * size + b ->
  fread size nitems (t, f) = Undef.
Proof.
  intros b Hi Ho He Hf Hs Hmod Hn Hp Hover. unfold fread. set (x := (t, f)).
  assert (fflush x = Ret (0, x)) as Hfl by (unfold fflush; rewrite (mbind_Ret get_file _ x f x) by done; by rewrite decide_False by lia).
  rewrite (mbind_Ret _ _ x 0 x Hfl), (mbind_Ret get_file _ x f x) by done.
  rewrite (mbind_Ret _ _ x tt x) by (by rewrite bool_decide_eq_true_2 by lia).
  rewrite (mbind_Ret _ _ x tt x) by (by rewrite bool_decide_eq_true_2 by (unfold b in *; lia)).
  rewrite He, decide_False by done.
  assert (0 < b / size) as Hq by (apply Z.div_str_pos; lia). assert (b = size * (b / size) + b mod size) as Hb by (apply Z.div_mod; lia).
  pose proof (Z.mod_pos_bound b size ltac:(lia)) as Hm.
  rewrite decide_False by lia. unfold fread_fuel. replace (Z.to_nat nitems + 3)%nat with (Datatypes.S (Z.to_nat nitems + 2)) by lia.
  cbn [fread_loop]. rewrite (mbind_Ret get_file _ x f x) by done. unfold take_items. fold b. rewrite decide_True by lia. cbv zeta.
  rewrite Z.min_l by lia. rewrite (decide_False (P := fl_in_offset f + b / size * size = fl_in_size f)) by (unfold b in *; lia).
  set (g := set_pos _ _). assert (fl_flags g = fl_flags f /\ fl_in_offset g = fl_in_offset f + b / size * size) as [Hg1 Hg2] by done.
  rewrite (mbind_Ret (upd_file _) _ x tt (t, g)) by done. unfold has_flag in *. rewrite Hg1, Hf.
  rewrite decide_False by (intros [?|[?|?]]; [lia|done|done]).
  unfold mbind, M_bind at 1. unfold move_input. rewrite (mbind_Ret get_file _ (t, g) g (t, g)) by done.
  rewrite decide_True by (rewrite Hg2; nia). by rewrite decide_False by (rewrite Hg2; lia).
Qed.

(** The second call for items of three bytes on a file of two buffers; the first has read
    one item and left 1021 bytes. *)
Definition wit_items_stream : FILE := set_input (null_bytes BUFSIZ) 3 BUFSIZ (falloc (Fid 5 1) 1 IOFBF).

Lemma fread_items_undef_witness : @fread _ wit_ram 3 1000 (ramfile_init 0 0, wit_items_stream) = Undef.
Proof.
  apply (fread_items_undef wit_ram (ramfile_init 0 0) wit_items_stream 3 1000); try (vm_compute; congruence).
  split; vm_compute; congruence.
Defined.

(** [rewind] after a short output does nothing: when all of the output since the
    beginning of the file is still in the buffer, the next output goes behind it, and
    [ftell], which flushes, answers with the end of that output. *)
Lemma rewind_after_write_stays {T} (rpc : Rpc T) (svr uid i : Z) (F : FileService rpc svr uid) (t : T) (f : FILE) fs s (N : nat) :
  srep svr uid i t f fs s N -> fl_pos f = 0 -> 0 < fl_index f < fl_size f -> fl_in_size f = 0 -> may_write uid s = true -> (fsv_cost <= N)%nat ->
  wp (rewind;; ftell) (t, f) (fun r x => r = Z.of_nat (length (pending f)) /\ 0 < r /\
    exists N', fsv_rep x.1 (<[Z.to_nat i:=with_data s (splice 0 (pending f) (sf_data s))]> fs) N').
Proof.
  intros Hs Hp Hi Hin Hw HN. step. unfold rewind. step. unfold fseek. step. apply wp_get_stream. cbn [snd]. rewrite decide_True by done.
  rewrite decide_False by (rewrite Hp; intros E; by apply E). step. step. step. apply wp_upd_stream. cbn [fst snd]. step. step. unfold ftell. step.
  assert (<[Z.to_nat i:=s]> fs = fs) as Eins by (apply list_insert_id; by destruct Hs).
  assert (srep svr uid i t (drop_flag FILE_FLAG_EOF f) fs s N) as Hs' by (rewrite <- Eins in Hs |- *; by apply stay_ok).
  eapply wp_mono; [apply (fflush_ok svr uid i t _ fs s N Hs'); [intros _; exact Hw|by right|exact HN]|].
  intros r [t2 f2] (_ & [_ Hp2 _ _] & N' & _ & Hr). cbn [fst snd] in *. step. apply wp_get_stream. cbn [snd]. step.
  assert (seen_pos f = fl_index f) as Ep by (unfold seen_pos; lia). change (seen_pos (drop_flag FILE_FLAG_EOF f)) with (seen_pos f) in Hp2.
  rewrite Hp2, Ep, (length_pending svr uid i t f fs s N Hs). split; [|split].
  - unfold i64. rewrite u64_small by (destruct Hs; unfold FILE_MAX_MSG_SIZE, two64 in *; lia). rewrite decide_True; [lia|].
    destruct Hs. unfold FILE_MAX_MSG_SIZE in *. lia.
  - unfold i64. rewrite u64_small by (destruct Hs; unfold FILE_MAX_MSG_SIZE, two64 in *; lia). rewrite decide_True; [lia|].
    destruct Hs. unfold FILE_MAX_MSG_SIZE in *. lia.
  - exists N'. cbv zeta in Hr. apply sr_rep in Hr. unfold seen_data in Hr. change (fl_pos (drop_flag FILE_FLAG_EOF f)) with (fl_pos f) in Hr.
    rewrite Hp in Hr. exact Hr.
Qed.

Definition wit_short_output : FILE := buffered (wit_bytes [97; 98; 99]%nat) (falloc (Fid 5 1) 3 IOFBF).

Lemma rewind_after_write_stays_witness :
  wp (@exec_file_op _ wit_ram 5 (FileCreate P_FILE_DEFAULT)) (ramfile_init 0 0) (fun _ t =>
    wp (@mbind _ M_bind _ _ (fun _ => @ftell _ wit_ram) (@rewind _ wit_ram)) (t, wit_short_output) (fun r _ => r = 3)).
Proof.
  pose proof (fsv_op (FileService := wit_ram_service) (ramfile_init 0 0) ram_start 0 (FileCreate P_FILE_DEFAULT)) as H.
  eapply wp_mono; [apply H; [by apply ram_start_rep|vm_compute; intuition congruence|apply le_n]|]. intros r t [_ Ht]. clear H.
  set (fs := (spec_file_op 0 ram_start (FileCreate P_FILE_DEFAULT)).2) in *. set (s := SFile true 0 P_FILE_DEFAULT []).
  assert (opened (F := wit_ram_service) 5 0 1 fs s (t, falloc (Fid 5 1) 3 IOFBF) (AStream [] 0 Idle) 0) as (s' & Es & Hs & _).
  { apply falloc_opened; [reflexivity|exact Ht|reflexivity|split; vm_compute; congruence|exact I|vm_compute; congruence|reflexivity|reflexivity|by right; right]. }
  cbn [fst snd] in Hs. pose proof (buffered_ok 5 0 1 t _ _ s' 0 (wit_bytes [97; 98; 99]%nat) Hs eq_refl) as Hs1.
  destruct Hs1 as [Hs1 _]; [exact (Zle_0_nat _)|by vm_compute|by vm_compute|].
  eapply wp_mono; [apply (rewind_after_write_stays wit_ram 5 0 1 wit_ram_service t wit_short_output _ s' 0 Hs1);
    [reflexivity|split; vm_compute; congruence|reflexivity|rewrite Es; reflexivity|apply le_n]|].
  intros x y [-> _]. reflexivity.
Defined.
